(* ===== verification/_CoqProject ===== *)
-Q . S2P
Prelude.v
BTree.v
Wire.v
SequenceNumbers.v
Time.v
Guid.v
Locator.v
WriterProxy.v
ParameterList.v
Qos.v
Payload.v
Submessages.v
Headers.v
StatusEvents.v
MessageBuilder.v
MessageWire.v
InlineQos.v
FragmentAssembler.v
DdsCache.v
Reader.v
Transport.v
MessageReceiver.v
ReaderCorrect.v
ReaderTheorems.v
SampleCache.v
SampleCacheTheorems.v
DataReader.v
DataReaderTheorems.v
ReaderProxy.v
DiscoveryData.v
DiscoveryWire.v
DiscoveryWireTheorems.v
DiscoveryDB.v
DiscoveryDBTheorems.v
HistoryBuffer.v
Writer.v
WriterCorrect.v
WriterHandlers.v
WriterTheorems.v
ReceiverTheorems.v
ReceiverSafety.v
WriterFrame.v
Protocol.v
EventLoop.v
EventLoopTheorems.v
EventLoopSafety.v
Discovery.v
DiscoveryTheorems.v
Channels.v
Participant.v
ParticipantTheorems.v
DataWriter.v
DataWriterTheorems.v
PubSub.v
PubSubTheorems.v
SecurityTypes.v
AccessControl.v
AccessControlTheorems.v
CryptoKeys.v
Crypto.v
CryptoTransform.v
CryptoMessage.v
CryptoTheorems.v
CryptoMessageTheorems.v
