(* ===== verification/Prelude.v ===== *)
(** * RustDDS: a verification development

    RustDDS ([src/src/]) is an implementation of the Data Distribution Service:
    applications exchange samples through topics, and the RTPS protocol carries
    the samples between participants in UDP datagrams, reliably if the quality
    of service asks for it.

    ** The program and its model

    The application creates topics, publishers, subscribers and endpoints from a
    domain participant ([dds/participant.rs], [dds/pubsub.rs]).
    A [DataWriter] ([dds/with_key/datawriter.rs]) numbers samples and hands them
    through a bounded channel to a stateful RTPS writer ([rtps/writer.rs]),
    which keeps them in a history buffer, sends them in DATA or DATAFRAG
    submessages to the matched readers, and repeats what ACKNACK and NACKFRAG
    ask for.  On the other side the message receiver
    ([rtps/message_receiver.rs]) takes a datagram apart and hands the
    submessages to a stateful RTPS reader ([rtps/reader.rs]), which keeps track
    of what it has of each writer, assembles fragments, stores complete samples
    in the cache of the topic ([structure/dds_cache.rs]) and answers HEARTBEATs.
    A [DataReader] takes the changes from there, decodes them and keeps the
    samples in a cache of its own, by instance
    ([dds/with_key/datasample_cache.rs]), until the application takes them.
    Discovery announces participants and endpoints as parameter lists
    ([discovery/sedp_messages.rs], [spdp_participant_data.rs]) and keeps what it
    learns of others in a database ([discovery/discovery_db.rs]).  Two threads
    drive all this: the event loop of the participant ([rtps/dp_event_loop.rs])
    owns the readers and writers and handles datagrams, commands, timers and the
    news of discovery; the discovery thread ([discovery/discovery.rs]) reads and
    writes the built-in topics, updates the database and sends these news.  With
    the [security] feature two plugins guard all this: access control
    ([security/access_control/]) decides from signed documents who may join,
    publish and subscribe, and cryptography ([security/cryptographic/]) makes and
    exchanges keys and protects payloads, submessages and messages.

    The files, in the order they depend on each other:

    - [Prelude]: machine integers, outcomes, the handler monad, shared lemmas;
    - [BTree]: [BTreeMap] and [BTreeSet] over a key order;
    - [Wire]: the primitive readers and writers of the crate [speedy], as a
      class with laws;
    - [SequenceNumbers] ([structure/sequence_number.rs]), [Time]
      ([structure/time.rs], [duration.rs]), [Guid] ([structure/guid.rs]),
      [Locator] ([structure/locator.rs]): the basic data;
    - [ParameterList] ([messages/submessages/elements/parameter*.rs]), [Qos]
      ([dds/qos.rs]), [StatusEvents] ([dds/statusevents.rs]), [Payload]
      ([serialized_payload.rs], [dds/ddsdata.rs], [structure/cache_change.rs]),
      [Submessages] ([messages/submessages/*.rs]), [MessageBuilder]
      ([rtps/message.rs], the builder), [InlineQos]
      ([messages/submessages/elements/inline_qos.rs]): what messages are made of;
    - [WriterProxy] ([rtps/rtps_writer_proxy.rs]), [FragmentAssembler]
      ([rtps/fragment_assembler.rs]), [DdsCache] ([structure/dds_cache.rs]),
      [Reader] ([rtps/reader.rs]), with the proofs about the reader in
      [ReaderCorrect] and [ReaderTheorems];
    - [ReaderProxy] ([rtps/rtps_reader_proxy.rs]), [HistoryBuffer] and [Writer]
      ([rtps/writer.rs]), with the proofs about the writer in [WriterCorrect],
      [WriterHandlers] and [WriterTheorems].
    - [Headers] ([messages/header.rs] and the interpreter submessages),
      [MessageWire] ([rtps/message.rs], reading and writing whole messages),
      [Transport] (a change from the builder to the reader), [MessageReceiver]
      ([rtps/message_receiver.rs]), with the proofs about the receiver in
      [ReceiverTheorems] and [ReceiverSafety];
    - [SampleCache] ([dds/with_key/datasample_cache.rs], [datasample.rs],
      [dds/sampleinfo.rs], [dds/readcondition.rs]) and [DataReader]
      ([dds/with_key/simpledatareader.rs], [datareader.rs]), with the proofs in
      [SampleCacheTheorems] and [DataReaderTheorems];
    - [DiscoveryData] (the records of [discovery/sedp_messages.rs],
      [spdp_participant_data.rs], [builtin_endpoint.rs]), [DiscoveryWire] (their
      parameter lists, [content_filter_property.rs],
      [serialization/speedy_pl_cdr_helpers.rs]) and [DiscoveryDB]
      ([discovery/discovery_db.rs]), with the proofs in
      [DiscoveryWireTheorems] and [DiscoveryDBTheorems];
    - [WriterFrame] and [Protocol]: the writer and the reader with the network
      between them;
    - [EventLoop] ([rtps/dp_event_loop.rs], [rtps/constant.rs]), with the proofs
      about matching in [EventLoopTheorems] and about safety in
      [EventLoopSafety];
    - [Discovery] ([discovery/discovery.rs]), with the proofs about discovery,
      the database, the data readers and the event loop together in
      [DiscoveryTheorems];
    - [Channels] ([dds/helpers.rs]: sending to a bounded channel with a timeout),
      [Participant] ([dds/participant.rs], [network/constant.rs]), [DataWriter]
      ([dds/with_key/datawriter.rs], [dds/no_key/]) and [PubSub]
      ([dds/pubsub.rs]), with the proofs in [ParticipantTheorems],
      [DataWriterTheorems] and [PubSubTheorems]: the application's side of the
      channels to the two threads;
    - [SecurityTypes] ([security/types.rs], [security/access_control/types.rs]),
      [AccessControl] ([security/access_control/access_control_builtin.rs] and the
      files under it), with the proofs in [AccessControlTheorems]; [CryptoKeys]
      (key material, tokens and the cipher of
      [security/cryptographic/cryptographic_builtin/]), [Crypto] (its tables,
      [crypto_key_factory.rs], [crypto_key_exchange.rs]), [CryptoTransform]
      ([crypto_transform.rs]: payloads and submessages; the secure submessages)
      and [CryptoMessage] (messages), with the proofs in [CryptoTheorems] and
      [CryptoMessageTheorems].

    ** Conventions

    A struct is a [Record], an enum an [Inductive], a method [T::f] a definition
    [f], or [T_f] where the name is taken.  Integers are [Z]; arithmetic is that of a
    release build and wraps at the width of the type; the [debug_assert]s of debug
    builds are not modelled, but named where the code has them.  A function that can panic
    or fail to terminate returns an [outcome].  A method that changes the state
    of a reader, a writer or the receiver is an [act]: it takes the state, and
    returns an outcome of a result, the new state and the events that left the
    component - datagrams, timers, notifications, statuses.  [wp m st Q] says
    that [m] returns from [st] and that [Q] holds of what it returns.  Readings
    of the clock are arguments.  [speedy] is third-party code and a parameter:
    theorems hold for any instance of [Speedy] with the [SpeedyLaws], and
    [std_speedy] is one; [SpeedyString] is the same for strings.  Everything is modelled as compiled without the
    [security] feature, except the security plugins themselves and the secure
    submessages.  What the plugins use of other crates - XML, S/MIME, X.509,
    globs, the cipher, hashes, CDR - is in the classes [AcDeps] and [CryptoDeps];
    [CryptoLaws] says what the latter promise, and [toy_crypto] is an instance.

    ** What the theorems show

    - Data: sequence number sets, time stamps, identifiers, locators, parameter
      lists, QoS sets and all submessages of the protocol survive a trip over
      the wire; sets received from the network can be iterated safely; the QoS
      compatibility check decides the rules that the comments give for each policy,
      but for the kinds of liveliness and the strength of ownership
      ([compliance_failure_correct]).
    - Bookkeeping: a writer proxy refines the set of sequence numbers it was told
      about, the history buffer refines a map, the topic cache keeps its index
      exact and its size within the limits, a fragment assembler yields a sample
      exactly when its last missing fragment arrives.
    - Writer: on input within the stated bounds no handler panics or says something
      untrue of the state it leaves ([writer_honest]); repair serves every request
      that one GAP can reach ([repair_serves_all]);
      waits for acknowledgment end when they should; cleaning removes only what
      every reader has acknowledged.
    - Reader: no handler panics on well-formed input or takes back an
      acknowledgment ([reader_total]); a sample is stored once, except by the reader of participant
      announcements, which wants every copy ([sample_stored_once]); a HEARTBEAT is answered with exactly what is
      missing ([heartbeat_answer_correct]).
    - Messages: any datagram is read without a panic ([message_read_total]) and
      what is written is read back, DATAFRAGs with inline QoS excepted
      ([message_roundtrip]); a change of up to 65000 bytes is received with its
      contents, but the kind of a disposal is not kept ([sample_received_as_sent]); the receiver handles each
      submessage in the context its message gives ([receiver_interprets]).
    - Event loop: no command, timer or news of discovery brings it down, and no
      packet without DATAFRAGs and with sequence numbers away from the end of their
      range ([event_loop_survives]); endpoints are matched exactly with those of their
      topic whose QoS fits ([matching_correct]), and nothing lost stays matched
      ([lost_endpoints_unmatched]).
    - Protocol: over a network that loses, repeats, delays and reorders, nothing
      written for a reader leaves the writer before the reader has it
      ([no_sample_lost]), by an invariant of the two that every step keeps.
    - Application side: the sample cache keeps the instance states and the
      newest samples ([add_sample_correct]), read conditions select what they
      say ([selection_correct]), a read or take returns what was selected, once
      ([access_correct]); a reliable reader gets everything that was released,
      once ([reliable_take_exact]).
    - Discovery: announcements are read back as they were written
      ([announced_endpoints_learned], [announced_participant_learned]) and any
      bytes are read safely ([announcements_read_total]); the database stays
      consistent under all operations ([db_reachable_inv]), removes exactly
      the participants whose lease is over ([participant_cleanup_correct]) and
      gives those that return their endpoints back
      ([lost_participant_returns]);
      an announcement in a built-in topic ends as a match in the event loop, with
      the locators to send to ([announced_readers_matched]).
    - Application side of the channels: a created writer or reader is one the event
      loop runs and Discovery announces ([created_writer_works],
      [created_reader_works]); what one thread makes a data writer put into its
      channel, one operation after the other and with any failure but an I/O error
      after the queuing, is numbered in order ([writes_numbered]; for threads and
      futures that interleave, [concurrent_numbers]) and stored by the RTPS writer
      ([written_samples_stored]); sending waits no longer than it should
      ([try_send_timeout_correct]); participants of a domain use different ports
      ([ports_disjoint]) and the first free participant id ([listeners_correct]).
    - Security: the access checks decide the policy of the documents
      ([access_decided]), and only what the permissions CA has signed counts
      ([permissions_verified]); participants that have registered and exchanged
      keys understand each other ([secured_payload_delivered],
      [secured_message_delivered]) and accept only what the cipher has
      authenticated under the sender's key ([accepted_payload_authentic],
      [accepted_submessage_authentic], [accepted_message_authentic]), except for messages of a kind that
      protects nothing; unregistering leaves no keys behind
      ([unregistered_keys_gone]).
    - Flaws: where the code does not do what it means to, a theorem says what it
      does instead.

    ** Bounds and fuel

    Recursion that is not structural carries fuel, and a lemma shows that the
    fuel given is enough, or that the loop really does not end.  A sequence
    number range gets two more than its length ([range_inclusive_list]; a range
    that ends at [i64::MAX] does not end, [range_to_max_never_ends]); the
    iterators of a number set get the number of its bits ([ns_next_spec]); the
    search for the end of a run of numbers gets the size of the set
    ([range_endpoint_loop_spec]); the search for a requested fragment the length
    of the bit vector ([skip_unset_spec]); the reader of a parameter list the
    length of the input ([ParameterList_read_loop_ends]).  The loop of
    [try_take_one] returns in its first round or never
    ([try_take_one_correct], [unknown_key_hangs]); filling the local cache of a
    data reader takes one round more than there are changes
    ([reliable_take_exact]).  The loop over the announcements of participants
    takes a number of rounds, and every call of a data reader by discovery fuel,
    as arguments.  [try_send_timeout] gets 64 attempts, more than the 52 that any
    timeout leads to ([try_send_timeout_correct]); the search for a participant
    id one attempt for each of the 120 ids ([listeners_correct]).  Unregistering an
    endpoint gets one more level than there are local endpoints with matches
    ([unregistered_keys_gone]); reading the submessages of a decrypted text its
    length ([secured_message_delivered]); the search for a key id a list of
    candidates, which the theorems assume to hold one that is free.  Theorems about
    sequence numbers assume them below [i64::MAX], where the successor exists.

    ** Not modelled

    The authentication plugin, the dispatch to the plugins and secure discovery
    (the handshake rests on certificates and key agreement of other crates, and
    the calls of the plugins from the receiver, the readers and the writers are
    left out with the [security] feature); sockets, polling and the insides of channels, whose effect
    is the events of the handlers and their inputs; the start of the threads; the
    asynchronous streams of the data readers and of the statuses; the wrappers
    for readers of topics without keys, which translate calls; [Discovery::new],
    which creates the built-in endpoints and registers them for polling; the
    CDR serializers, which are third-party (data readers and writers have their
    serializers as parameters); conversions of time through floating point;
    ROS 2 bindings, examples and tests. *)

From stdpp Require Export gmap sorting strings list_numbers.
#[global] Open Scope Z_scope.
#[export] Set Warnings "-clear-no-such-hyp".

(** ** Machine integers

    Rust integers are [Z] kept in range by explicit truncation.  [wrap_u w] is
    the cast to the unsigned [w]-bit type and [wrap_s w] the cast to the signed
    one; both are also the result of a release-mode arithmetic operation that
    overflows. *)

Definition wrap_u (w z : Z) : Z := z mod 2 ^ w.
Definition wrap_s (w z : Z) : Z := (z + 2 ^ (w - 1)) mod 2 ^ w - 2 ^ (w - 1).

Definition in_u (w z : Z) : Prop := 0 <= z < 2 ^ w.
Definition in_s (w z : Z) : Prop := - 2 ^ (w - 1) <= z < 2 ^ (w - 1).

Abbreviation u8 := (wrap_u 8).
Abbreviation u16 := (wrap_u 16).
Abbreviation u32 := (wrap_u 32).
Abbreviation u64 := (wrap_u 64).
Abbreviation i32 := (wrap_s 32).
Abbreviation i64 := (wrap_s 64).

Definition i64_max : Z := 2 ^ 63 - 1.
Definition i64_min : Z := - 2 ^ 63.

(** Powers of two with literal exponents are opened up for [lia]. *)
Ltac pow2 :=
  repeat match goal with
  | |- context [2 ^ ?n] => let v := eval vm_compute in (2 ^ n) in change (2 ^ n) with v
  | H : context [2 ^ ?n] |- _ => let v := eval vm_compute in (2 ^ n) in change (2 ^ n) with v in H
  end.

Ltac bounds_lia := unfold in_u, in_s, i64_max, i64_min in *; simpl Z.sub in *; pow2; lia.

Lemma wrap_u_id w z : in_u w z -> wrap_u w z = z.
Proof. intros ?. by apply Z.mod_small. Qed.

Lemma wrap_u_range w z : 0 <= w -> in_u w (wrap_u w z).
Proof. intros ?. apply Z.mod_pos_bound. lia. Qed.

Lemma wrap_s_id w z : 0 < w -> in_s w z -> wrap_s w z = z.
Proof.
  intros Hw [Hl Hh]. unfold wrap_s.
  assert (2 ^ w = 2 * 2 ^ (w - 1)) as E
    by (rewrite <- Z.pow_succ_r by lia; f_equal; lia).
  rewrite Z.mod_small; lia.
Qed.

Lemma wrap_s_range w z : 0 < w -> in_s w (wrap_s w z).
Proof.
  intros Hw. unfold wrap_s, in_s.
  assert (2 ^ w = 2 * 2 ^ (w - 1)) as E
    by (rewrite <- Z.pow_succ_r by lia; f_equal; lia).
  pose proof (Z.mod_pos_bound (z + 2 ^ (w - 1)) (2 ^ w)). lia.
Qed.

(** Truncation only depends on the value modulo [2^w]. *)
Lemma wrap_s_mod w a b : (a - b) mod 2 ^ w = 0 -> 0 <= w -> wrap_s w a = wrap_s w b.
Proof.
  intros H Hw. unfold wrap_s. f_equal.
  apply Z.mod_divide in H; [|lia]. destruct H as [k Hk].
  replace (a + 2 ^ (w - 1)) with (b + 2 ^ (w - 1) + k * 2 ^ w) by lia.
  by rewrite Z_mod_plus_full.
Qed.

Lemma wrap_u_wrap_s w z : 0 < w -> wrap_u w (wrap_s w z) = wrap_u w z.
Proof.
  intros Hw. unfold wrap_u, wrap_s.
  rewrite Zminus_mod_idemp_l. f_equal. lia.
Qed.

Lemma wrap_u_add_r w x y : wrap_u w (x + wrap_u w y) = wrap_u w (x + y).
Proof. apply Zplus_mod_idemp_r. Qed.

Lemma wrap_u_sub_s w x y : 0 < w -> wrap_u w (wrap_s w x - wrap_s w y) = wrap_u w (x - y).
Proof.
  intros Hw. unfold wrap_u. rewrite Zminus_mod.
  fold (wrap_u w (wrap_s w x)) (wrap_u w (wrap_s w y)).
  rewrite !wrap_u_wrap_s by done. unfold wrap_u. by rewrite <- Zminus_mod.
Qed.

Lemma wrap_u_idem w x : wrap_u w (wrap_u w x) = wrap_u w x.
Proof. apply Zmod_mod. Qed.

(** ** Outcomes

    A Rust function that may panic (an assertion, an [unwrap], an index out of
    range, [BTreeMap::range] on an inverted range) or that may fail to
    terminate returns an [outcome]. *)

Inductive outcome (A : Type) : Type :=
| Ret (a : A)
| Panic (why : string)
| Diverge.
Arguments Ret {A} a.
Arguments Panic {A} why.
Arguments Diverge {A}.

#[export] Instance outcome_ret : MRet outcome := @Ret.

#[export] Instance outcome_bind : MBind outcome := λ A B f m,
  match m with Ret a => f a | Panic w => Panic w | Diverge => Diverge end.

Definition rust_assert (b : bool) (why : string) : outcome unit :=
  if b then Ret tt else Panic why.

Definition rust_unwrap {A} (o : option A) (why : string) : outcome A :=
  match o with Some a => Ret a | None => Panic why end.

(** [for x in l { s = f(s, x)? }] *)
Fixpoint outcome_fold {A S} (f : S -> A -> outcome S) (s : S) (l : list A) : outcome S :=
  match l with
  | [] => Ret s
  | x :: l => s' ← f s x; outcome_fold f s' l
  end.

Lemma outcome_fold_app {A S} (f : S -> A -> outcome S) s l1 l2 :
  outcome_fold f s (l1 ++ l2) = (s' ← outcome_fold f s l1; outcome_fold f s' l2).
Proof.
  revert s. induction l1 as [|x l1 IH]; intros s; simpl; [done|].
  destruct (f s x); simpl; [apply IH|done..].
Qed.

(** An invariant carried by every successful iteration holds at the end, and
    the loop as a whole succeeds when every iteration does. *)
Lemma outcome_fold_ret {A S} (P : S -> Prop) (f : S -> A -> outcome S) s l :
  P s ->
  (forall s x, P s -> x ∈ l -> exists s', f s x = Ret s' /\ P s') ->
  exists s', outcome_fold f s l = Ret s' /\ P s'.
Proof.
  revert s. induction l as [|x l IH]; intros s Hs Hstep; simpl; [by eauto|].
  destruct (Hstep s x) as (s' & -> & Hs'); [done|set_solver|]. simpl.
  apply IH; [done|]. intros; apply Hstep; [done|set_solver].
Qed.

(** A loop that appends one result per element collects them in order. *)
Lemma outcome_fold_collect {A B} (P : A -> B -> Prop) (step : list B -> A -> outcome (list B)) acc l :
  (forall acc x, x ∈ l -> exists b, step acc x = Ret (acc ++ [b]) /\ P x b) ->
  exists bs, outcome_fold step acc l = Ret (acc ++ bs) /\ Forall2 P l bs.
Proof.
  revert acc. induction l as [|x l IH]; intros acc Hstep; simpl.
  - exists []. by rewrite app_nil_r.
  - destruct (Hstep acc x) as (b & -> & Hb); [set_solver|]. simpl.
    destruct (IH (acc ++ [b])) as (bs & -> & Hbs); [intros; apply Hstep; set_solver|].
    exists (b :: bs). rewrite <- (assoc_L (++)). by split; [|constructor].
Qed.

Lemma bind_Ret {A B} (m : outcome A) (f : A -> outcome B) b :
  (m ≫= f) = Ret b <-> exists a, m = Ret a /\ f a = Ret b.
Proof. destruct m; simpl; split; (by eauto || by intros (?&[=]&?); subst) || done. Qed.

(** ** Automation *)

Create HintDb rtps.
#[export] Hint Resolve wrap_u_range wrap_s_range : rtps.
#[export] Hint Extern 5 (_ <= _) => lia : rtps.
#[export] Hint Extern 5 (_ < _) => lia : rtps.

(** Case analysis on the boolean comparisons of integers in the goal or in a
    hypothesis, leaving arithmetic facts. *)
Ltac zcases :=
  repeat match goal with
  | |- context [Z.ltb ?a ?b] => destruct (Z.ltb_spec a b)
  | |- context [Z.leb ?a ?b] => destruct (Z.leb_spec a b)
  | |- context [Z.eqb ?a ?b] => destruct (Z.eqb_spec a b)
  | H : context [Z.ltb ?a ?b] |- _ => destruct (Z.ltb_spec a b)
  | H : context [Z.leb ?a ?b] |- _ => destruct (Z.leb_spec a b)
  | H : context [Z.eqb ?a ?b] |- _ => destruct (Z.eqb_spec a b)
  end; simpl in *; try done.

(** ** Lists *)

Lemma foldl_ind {A S} (P : S -> Prop) (f : S -> A -> S) s l :
  P s -> (forall s x, x ∈ l -> P s -> P (f s x)) -> P (foldl f s l).
Proof.
  revert s. induction l as [|x l IH]; intros s Hs Hf; simpl; [done|].
  apply IH; [apply Hf; set_solver|]. intros; apply Hf; set_solver.
Qed.

Lemma StronglySorted_filter {A} (R : relation A) (P : A -> Prop) `{!forall x, Decision (P x)} l :
  StronglySorted R l -> StronglySorted R (filter P l).
Proof.
  induction 1 as [|x l Hl IH Hx]; [constructor|].
  rewrite filter_cons. case_decide; [|done]. constructor; [done|].
  rewrite Forall_forall in Hx |- *. intros y [_ ?]%list_elem_of_filter. auto.
Qed.

Lemma list_filter_ext {A} (P Q : A -> Prop) `{!forall x, Decision (P x), !forall x, Decision (Q x)} (l : list A) :
  (forall x, x ∈ l -> P x <-> Q x) -> filter P l = filter Q l.
Proof.
  induction l as [|x l IH]; intros HPQ; [done|]. rewrite !filter_cons, IH by set_solver.
  specialize (HPQ x ltac:(set_solver)). repeat case_decide; tauto.
Qed.

Lemma list_filter_none {A} (P : A -> Prop) `{!forall x, Decision (P x)} (l : list A) :
  (forall x, x ∈ l -> ~ P x) -> filter P l = [].
Proof.
  induction l as [|x l IH]; intros HP; [done|]. rewrite filter_cons, IH by set_solver.
  rewrite decide_False; [done|]. apply HP; set_solver.
Qed.

Lemma list_filter_all {A} (P : A -> Prop) `{!forall x, Decision (P x)} (l : list A) :
  (forall x, x ∈ l -> P x) -> filter P l = l.
Proof.
  induction l as [|x l IH]; intros HP; [done|]. rewrite filter_cons, IH by set_solver.
  rewrite decide_True; [done|]. apply HP; set_solver.
Qed.

Lemma StronglySorted_mono {A} (R R' : relation A) l :
  (forall x y, R x y -> R' x y) -> StronglySorted R l -> StronglySorted R' l.
Proof.
  intros HR. induction 1 as [|x l Hl IH Hx]; constructor; [done|].
  eapply Forall_impl; [done|]. auto.
Qed.

Lemma StronglySorted_take {A} (R : relation A) n l :
  StronglySorted R l -> StronglySorted R (take n l).
Proof.
  intros H. rewrite <- (take_drop n l) in H. by apply StronglySorted_app_1_l in H.
Qed.

(** A strictly sorted list is determined by its elements. *)
Lemma sorted_ext {A} (R : relation A) `{!Irreflexive R, !Transitive R} (l1 l2 : list A) :
  StronglySorted R l1 -> StronglySorted R l2 -> (forall x, x ∈ l1 <-> x ∈ l2) -> l1 = l2.
Proof.
  assert (forall l, StronglySorted R l -> NoDup l) as ND.
  { induction 1 as [|x l _ IH Hx]; constructor; [|done].
    rewrite Forall_forall in Hx. intros Hin%Hx. by apply irreflexivity in Hin. }
  intros H1 H2 E. apply (StronglySorted_unique_strong R); [|done..|].
  - intros x1 x2 _ _ Ha Hb. exfalso. apply (irreflexivity R x1). by etrans.
  - apply NoDup_Permutation; auto.
Qed.

Lemma list_elem_of_concat {A} (x : A) (ls : list (list A)) : x ∈ concat ls <-> exists l, l ∈ ls /\ x ∈ l.
Proof. rewrite list_elem_of_In, in_concat. by setoid_rewrite <- list_elem_of_In. Qed.

Lemma seqZ_sorted m n : StronglySorted Z.lt (seqZ m n).
Proof.
  destruct (decide (n <= 0)); [rewrite seqZ_nil by lia; constructor|].
  rewrite <- (Z2Nat.id n) by lia. generalize (Z.to_nat n) as k. clear.
  intros k. revert m. induction k as [|k IH]; intros m.
  - rewrite seqZ_nil by lia. constructor.
  - rewrite seqZ_cons by lia. constructor; [|apply Forall_seqZ; lia].
    replace (Z.pred (Z.of_nat (S k))) with (Z.of_nat k) by lia. apply IH.
Qed.

(** ** Bit vectors *)

(** [BitVec::set] panics outside the vector. *)
Definition bitvec_set (b : list bool) (i : Z) (v : bool) : outcome (list bool) :=
  if (0 <=? i) && (i <? Z.of_nat (length b)) then Ret (<[Z.to_nat i := v]> b)
  else Panic "index out of bounds".

Lemma bitvec_set_in b i v : 0 <= i < Z.of_nat (length b) -> bitvec_set b i v = Ret (<[Z.to_nat i := v]> b).
Proof. intros. unfold bitvec_set. zcases; lia. Qed.

Lemma bitvec_set_out b i v : Z.of_nat (length b) <= i -> bitvec_set b i v = Panic "index out of bounds".
Proof. intros. unfold bitvec_set. zcases; lia. Qed.

(** ** Handlers

    A handler reads and changes the state of a component and has effects that
    leave it: messages sent, timers set, notifications. *)

Definition act (St Ev A : Type) : Type := St -> outcome (A * St * list Ev).

#[export] Instance act_ret {St Ev} : MRet (act St Ev) := λ A a st, Ret (a, st, []).

#[export] Instance act_bind {St Ev} : MBind (act St Ev) := λ A B f m st,
  match m st with
  | Ret (a, st, evs) =>
      match f a st with
      | Ret (b, st, evs') => Ret (b, st, evs ++ evs')
      | Panic w => Panic w
      | Diverge => Diverge
      end
  | Panic w => Panic w
  | Diverge => Diverge
  end.

Section act.
Context {St Ev : Type}.
Definition get_st : act St Ev St := fun st => Ret (st, st, []).
Definition modify_st (f : St -> St) : act St Ev unit := fun st => Ret (tt, f st, []).
Definition emit_ev (e : Ev) : act St Ev unit := fun st => Ret (tt, st, [e]).
Definition lift_outcome {A} (o : outcome A) : act St Ev A := fun st => a ← o; Ret (a, st, []).
Fixpoint act_for {A} (l : list A) (f : A -> act St Ev unit) : act St Ev unit :=
  match l with
  | [] => mret tt
  | x :: l => _ ← f x; act_for l f
  end.
End act.

(** The handler returns, in a state and with events that satisfy [Q]. *)
Definition wp {St Ev A} (m : act St Ev A) (st : St) (Q : A -> St -> list Ev -> Prop) : Prop :=
  match m st with
  | Ret (a, st', evs) => Q a st' evs
  | _ => False
  end.

Section wp.
Context {St Ev : Type}.
Implicit Types (st : St) (evs : list Ev).

Lemma wp_run {A} (m : act St Ev A) st Q :
  wp m st Q <-> exists a st' evs, m st = Ret (a, st', evs) /\ Q a st' evs.
Proof.
  unfold wp. split.
  - destruct (m st) as [[[a st'] evs]| |]; [by eauto|done..].
  - intros (a & st' & evs & -> & ?). done.
Qed.

Lemma wp_mono {A} (m : act St Ev A) st (Q Q' : A -> St -> list Ev -> Prop) :
  wp m st Q -> (forall a st' evs, Q a st' evs -> Q' a st' evs) -> wp m st Q'.
Proof. rewrite !wp_run. naive_solver. Qed.

Lemma wp_ret {A} (a : A) st (Q : A -> St -> list Ev -> Prop) : Q a st [] -> wp (mret a) st Q.
Proof. done. Qed.

Lemma wp_bind {A B} (m : act St Ev A) (f : A -> act St Ev B) st Q :
  wp m st (fun a st' evs => wp (f a) st' (fun b st'' evs' => Q b st'' (evs ++ evs'))) -> wp (m ≫= f) st Q.
Proof.
  unfold wp, mbind, act_bind. destruct (m st) as [[[a st'] evs]| |]; [|done..].
  by destruct (f a st') as [[[b st''] evs']| |].
Qed.

Lemma wp_get st (Q : St -> St -> list Ev -> Prop) : Q st st [] -> wp get_st st Q.
Proof. done. Qed.

Lemma wp_modify f st (Q : unit -> St -> list Ev -> Prop) : Q tt (f st) [] -> wp (modify_st f) st Q.
Proof. done. Qed.

Lemma wp_emit e st (Q : unit -> St -> list Ev -> Prop) : Q tt st [e] -> wp (emit_ev e) st Q.
Proof. done. Qed.

Lemma wp_lift {A} (o : outcome A) a st (Q : A -> St -> list Ev -> Prop) :
  o = Ret a -> Q a st [] -> wp (lift_outcome o) st Q.
Proof. intros ->. done. Qed.

(** A loop, with an invariant on the state and the events so far. *)
Lemma wp_for {A} (I : St -> list Ev -> Prop) (l : list A) (f : A -> act St Ev unit) st :
  I st [] ->
  (forall x st evs, x ∈ l -> I st evs -> wp (f x) st (fun _ st' evs' => I st' (evs ++ evs'))) ->
  wp (act_for l f) st (fun _ st' evs => I st' evs).
Proof.
  intros H0 Hstep.
  enough (forall evs0, I st evs0 -> wp (act_for l f) st (fun _ st' evs => I st' (evs0 ++ evs))) as H
    by (apply (H []); done).
  clear H0. revert st. induction l as [|x l IH]; intros st evs0 HI; cbn [act_for].
  - apply wp_ret. by rewrite app_nil_r.
  - apply wp_bind. eapply wp_mono; [apply (Hstep x st evs0); [set_solver|done]|].
    intros u st' evs HI'. eapply wp_mono; [apply IH; [|exact HI']; intros; apply Hstep; [set_solver|done]|].
    intros u' st'' evs'. by rewrite (assoc_L (++)).
Qed.
End wp.

(** Run the primitive steps at the head of a handler. *)
Ltac wp_step :=
  lazymatch goal with
  | |- wp (mbind _ _) _ _ => apply wp_bind
  | |- wp (mret _) _ _ => apply wp_ret
  | |- wp get_st _ _ => apply wp_get
  | |- wp (modify_st _) _ _ => apply wp_modify
  | |- wp (emit_ev _) _ _ => apply wp_emit
  end.
Ltac wp_steps := repeat (wp_step; simpl).

(** ** What a handler leaves alone

    [act_keeps Rel m]: whenever [m] returns, the state it leaves is related to
    the one it started in. *)

Definition keeps_at {St Ev A} (Rel : relation St) (st : St) (m : act St Ev A) : Prop :=
  forall a st' evs, m st = Ret (a, st', evs) -> Rel st st'.
Definition act_keeps {St Ev A} (Rel : relation St) (m : act St Ev A) : Prop := forall st, keeps_at Rel st m.

Section keeps.
Context {St Ev : Type} (Rel : relation St) `{!PreOrder Rel}.

Lemma keeps_ret {A} (a : A) : act_keeps (Ev:=Ev) Rel (mret a).
Proof. by intros st x st' evs [= <- <- <-]. Qed.

Lemma keeps_get : act_keeps (Ev:=Ev) Rel get_st.
Proof. by intros st x st' evs [= <- <- <-]. Qed.

Lemma keeps_emit (e : Ev) : act_keeps Rel (emit_ev e).
Proof. by intros st x st' evs [= <- <- <-]. Qed.

Lemma keeps_lift {A} (o : outcome A) : act_keeps (Ev:=Ev) Rel (lift_outcome o).
Proof. intros st x st' evs. unfold lift_outcome. destruct o; simpl; [|done..]. by intros [= <- <- <-]. Qed.

Lemma keeps_modify (f : St -> St) : (forall st, Rel st (f st)) -> act_keeps (Ev:=Ev) Rel (modify_st f).
Proof. by intros Hf st x st' evs [= <- <- <-]. Qed.

Lemma keeps_at_bind {A B} (m : act St Ev A) (f : A -> act St Ev B) st :
  keeps_at Rel st m -> (forall a, act_keeps Rel (f a)) -> keeps_at Rel st (m ≫= f).
Proof.
  intros Hm Hf b st' evs. unfold mbind, act_bind.
  destruct (m st) as [[[a st1] e1]| |] eqn:E1; [|done..].
  destruct (f a st1) as [[[b2 st2] e2]| |] eqn:E2; [|done..]. intros [= <- <- <-].
  transitivity st1; [by eapply Hm|by eapply Hf].
Qed.

Lemma keeps_bind {A B} (m : act St Ev A) (f : A -> act St Ev B) :
  act_keeps Rel m -> (forall a, act_keeps Rel (f a)) -> act_keeps Rel (m ≫= f).
Proof. intros Hm Hf st. by apply keeps_at_bind. Qed.

(** A handler that starts by reading its state. *)
Lemma keeps_get_bind_at {B} (f : St -> act St Ev B) st : keeps_at Rel st (f st) -> keeps_at Rel st (get_st ≫= f).
Proof.
  intros Hf b st' evs. unfold mbind, act_bind, get_st.
  destruct (f st st) as [[[b2 st2] e2]| |] eqn:E2; [|done..]. intros [= <- <- <-]. by eapply Hf.
Qed.

Lemma keeps_get_bind {B} (f : St -> act St Ev B) :
  (forall st, keeps_at Rel st (f st)) -> act_keeps Rel (get_st ≫= f).
Proof. intros Hf st. by apply keeps_get_bind_at. Qed.

Lemma keeps_for {A} (l : list A) (f : A -> act St Ev unit) :
  (forall x, act_keeps Rel (f x)) -> act_keeps Rel (act_for l f).
Proof. intros Hf. induction l as [|x l IH]; cbn [act_for]; [apply keeps_ret|]. by apply keeps_bind. Qed.
End keeps.

Create HintDb keeps.
#[export] Hint Resolve keeps_ret keeps_get keeps_emit keeps_lift keeps_for : keeps.
#[export] Hint Extern 0 (PreOrder _) => apply _ : keeps.
#[export] Hint Extern 2 (act_keeps _ (_ ≫= _)) => apply keeps_bind; [apply _| |intro] : keeps.
Ltac keeps_bind := apply keeps_bind; [apply _|..].

(** What a handler returns. *)
Definition act_returns {St Ev A} (P : A -> Prop) (m : act St Ev A) : Prop :=
  forall st a st' evs, m st = Ret (a, st', evs) -> P a.

Section returns.
Context {St Ev : Type}.

Lemma returns_ret {A} (P : A -> Prop) (a : A) : P a -> act_returns (St:=St) (Ev:=Ev) P (mret a).
Proof. by intros H st x st' evs [= <- <- <-]. Qed.

Lemma returns_any {A} (m : act St Ev A) : act_returns (fun _ => True) m.
Proof. done. Qed.

Lemma returns_lift {A} (P : A -> Prop) (o : outcome A) :
  (forall a, o = Ret a -> P a) -> act_returns (St:=St) (Ev:=Ev) P (lift_outcome o).
Proof. intros H st x st' evs. unfold lift_outcome. destruct o; simpl; [|done..]. intros [= <- <- <-]. by apply H. Qed.

Lemma returns_bind {A B} (Q : A -> Prop) (P : B -> Prop) (m : act St Ev A) (f : A -> act St Ev B) :
  act_returns Q m -> (forall a, Q a -> act_returns P (f a)) -> act_returns P (m ≫= f).
Proof.
  intros Hm Hf st b st' evs. unfold mbind, act_bind.
  destruct (m st) as [[[a st1] e1]| |] eqn:E1; [|done..].
  destruct (f a st1) as [[[b2 st2] e2]| |] eqn:E2; [|done..]. intros [= <- <- <-].
  eapply Hf; [by eapply Hm|done].
Qed.
End returns.

(** A run of two handlers in a row. *)
Lemma bind_run_inv {St Ev A B} (m : act St Ev A) (f : A -> act St Ev B) st b st' evs :
  (m ≫= f) st = Ret (b, st', evs) ->
  exists a st1 e1 e2, m st = Ret (a, st1, e1) /\ f a st1 = Ret (b, st', e2) /\ evs = e1 ++ e2.
Proof.
  unfold mbind, act_bind. destruct (m st) as [[[a st1] e1]| |] eqn:E1; [|done..].
  destruct (f a st1) as [[[b2 st2] e2]| |] eqn:E2; [|done..]. intros [= <- <- <-]. by eauto 10.
Qed.
