(* ===== verification/BTree.v ===== *)
(** * Ordered maps and sets

    [std::collections::BTreeMap] and [BTreeSet] as the crate uses them.  The
    contents are stdpp's [gmap] and [gset], so two maps with the same entries
    are equal; what the ordering adds - iteration in key order, [first] and
    [last], [split_off], [range] - is derived here from the key order, given by
    the class [OrdKey] (Rust's [Ord]). *)

From S2P Require Import Prelude.

(** ** Ordered keys *)

Class OrdKey (K : Type) : Type := {
  kcmp : K -> K -> comparison;
  kcmp_eq x y : kcmp x y = Eq <-> x = y;
  kcmp_antisym x y : kcmp y x = CompOpp (kcmp x y);
  kcmp_trans x y z : kcmp x y = Lt -> kcmp y z = Lt -> kcmp x z = Lt;
}.

Definition klt `{OrdKey K} (x y : K) : Prop := kcmp x y = Lt.
Definition kle `{OrdKey K} (x y : K) : Prop := kcmp x y <> Gt.

#[export] Instance klt_dec `{OrdKey K} : RelDecision klt.
Proof. intros x y. unfold klt. apply _. Defined.
#[export] Instance kle_dec `{OrdKey K} : RelDecision kle.
Proof. intros x y. unfold kle. apply _. Defined.

Section order.
Context `{OrdKey K}.
Implicit Types x y z : K.

#[export] Instance klt_irrefl : Irreflexive klt.
Proof. intros x Hx. unfold klt in Hx. by rewrite (proj2 (kcmp_eq x x) eq_refl) in Hx. Qed.

#[export] Instance klt_trans : Transitive klt.
Proof. intros x y z. apply kcmp_trans. Qed.

Lemma kle_lteq x y : kle x y <-> klt x y \/ x = y.
Proof. unfold kle, klt. rewrite <- kcmp_eq. destruct (kcmp x y); naive_solver. Qed.

Lemma klt_nle x y : klt x y <-> ~ kle y x.
Proof. unfold kle, klt. rewrite kcmp_antisym. destruct (kcmp y x); simpl; naive_solver. Qed.

Lemma kle_nlt x y : kle x y <-> ~ klt y x.
Proof. rewrite klt_nle. split; [naive_solver|]. destruct (decide (kle x y)); tauto. Qed.

#[export] Instance kle_refl : Reflexive kle.
Proof. intros x. apply kle_lteq. by right. Qed.

#[export] Instance kle_trans : Transitive kle.
Proof.
  intros x y z. rewrite !kle_lteq. intros [?| ->] [?|<-]; try tauto. left. by etrans.
Qed.

#[export] Instance kle_total : Total kle.
Proof.
  intros x y. destruct (decide (kle x y)) as [|Hn]; [by left|right].
  apply klt_nle in Hn. apply kle_lteq. by left.
Qed.

Lemma kle_antisymm x y : kle x y -> kle y x -> x = y.
Proof. rewrite (kle_lteq x y). intros [?|?]; [rewrite kle_nlt|]; tauto. Qed.

Lemma kle_klt_trans x y z : kle x y -> klt y z -> klt x z.
Proof. rewrite kle_lteq. intros [?| ->]; [by etrans|done]. Qed.

Lemma klt_kle_trans x y z : klt x y -> kle y z -> klt x z.
Proof. rewrite kle_lteq. intros ? [?|<-]; [by etrans|done]. Qed.

Lemma klt_kle x y : klt x y -> kle x y.
Proof. rewrite kle_lteq. tauto. Qed.

Lemma klt_cases x y : klt x y \/ x = y \/ klt y x.
Proof. rewrite (klt_nle y x), kle_lteq. destruct (decide (klt x y)), (decide (kcmp x y = Eq)) as [?%kcmp_eq|?];
  try tauto. right; right. rewrite <- kcmp_eq. unfold klt in *. tauto. Qed.
(** The head of a strictly sorted list is its least element, the last one its
    greatest. *)
Lemma sorted_head_Some (l : list K) x :
  StronglySorted klt l -> head l = Some x <-> x ∈ l /\ forall y, y ∈ l -> kle x y.
Proof.
  destruct l as [|k0 l]; simpl; [set_solver|].
  intros [Hk0 _]%StronglySorted_cons. rewrite Forall_forall in Hk0. split.
  - intros [= ->]. split; [set_solver|]. intros y [->|?]%elem_of_cons; [done|].
    apply klt_kle; auto.
  - intros [[->|Hin]%elem_of_cons Hmin]; [done|]. specialize (Hmin k0 ltac:(set_solver)).
    specialize (Hk0 _ Hin). apply klt_nle in Hk0. tauto.
Qed.

Lemma sorted_last_Some (l : list K) x :
  StronglySorted klt l -> last l = Some x <-> x ∈ l /\ forall y, y ∈ l -> kle y x.
Proof.
  destruct l as [|k0 l _] using rev_ind; simpl; [set_solver|].
  rewrite last_snoc. intros (Hlt & _ & _)%StronglySorted_app. split.
  - intros [= ->]. split; [set_solver|].
    intros y [?| ->%list_elem_of_singleton]%elem_of_app; [|done].
    apply klt_kle. apply Hlt; set_solver.
  - intros [[Hin| ->%list_elem_of_singleton]%elem_of_app Hmax]; [|done].
    specialize (Hmax k0 ltac:(set_solver)). specialize (Hlt x k0 Hin ltac:(set_solver)).
    apply klt_nle in Hlt. tauto.
Qed.
End order.

#[export] Hint Resolve klt_kle : rtps.

(** Instances: integers, pairs and fixed-length arrays in lexicographic order
    ([#[derive(Ord)]] on a struct compares its fields in declaration order),
    and any type that embeds injectively in an ordered one. *)

#[export, refine] Instance Z_ord : OrdKey Z := {| kcmp := Z.compare |}.
Proof.
  - apply Z.compare_eq_iff.
  - apply Z.compare_antisym.
  - intros x y z. rewrite !Z.compare_lt_iff. lia.
Defined.

Lemma klt_Z (x y : Z) : klt x y <-> x < y.
Proof. apply Z.compare_lt_iff. Qed.
Lemma kle_Z (x y : Z) : kle x y <-> x <= y.
Proof. apply Z.compare_le_iff. Qed.

#[export, refine] Instance pair_ord `{OrdKey A} `{OrdKey B} : OrdKey (A * B) := {|
  kcmp p q := match kcmp p.1 q.1 with Eq => kcmp p.2 q.2 | c => c end |}.
Proof.
  - intros [a b] [a' b']; simpl. split.
    + destruct (kcmp a a') eqn:E; try done. intros ?%kcmp_eq. apply kcmp_eq in E. by subst.
    + intros [= -> ->]. rewrite (proj2 (kcmp_eq a' a') eq_refl). by apply kcmp_eq.
  - intros [a b] [a' b']; simpl. rewrite (kcmp_antisym a a').
    destruct (kcmp a a'); simpl; auto using kcmp_antisym.
  - intros [a b] [a' b'] [a'' b'']; simpl.
    destruct (kcmp a a') eqn:E1; [apply kcmp_eq in E1 as ->| |done].
    + destruct (kcmp a' a''); eauto using kcmp_trans.
    + intros _. destruct (kcmp a' a'') eqn:E2; [apply kcmp_eq in E2 as <-; by rewrite E1| |done].
      by rewrite (kcmp_trans _ _ _ E1 E2).
Defined.

Fixpoint list_cmp `{OrdKey A} (l1 l2 : list A) : comparison :=
  match l1, l2 with
  | [], [] => Eq
  | [], _ => Lt
  | _, [] => Gt
  | a :: l1, b :: l2 => match kcmp a b with Eq => list_cmp l1 l2 | c => c end
  end.

#[export, refine] Instance list_ord `{OrdKey A} : OrdKey (list A) := {| kcmp := list_cmp |}.
Proof.
  - induction x as [|a x IH]; destruct y as [|b y]; simpl; try done.
    destruct (kcmp a b) eqn:E.
    + apply kcmp_eq in E as ->. rewrite IH. naive_solver.
    + split; [done|]. intros [= -> ->]. by rewrite (proj2 (kcmp_eq b b) eq_refl) in E.
    + split; [done|]. intros [= -> ->]. by rewrite (proj2 (kcmp_eq b b) eq_refl) in E.
  - induction x as [|a x IH]; destruct y as [|b y]; simpl; try done.
    rewrite (kcmp_antisym a b). destruct (kcmp a b); simpl; auto.
  - induction x as [|a x IH]; intros [|b y] [|c z]; simpl; try done.
    destruct (kcmp a b) eqn:E1; [apply kcmp_eq in E1 as ->| |done].
    + destruct (kcmp b c); eauto.
    + intros _. destruct (kcmp b c) eqn:E2; [apply kcmp_eq in E2 as <-; by rewrite E1| |done].
      by rewrite (kcmp_trans _ _ _ E1 E2).
Defined.

Definition ord_inj `{OrdKey B} {A} (f : A -> B) (Hf : forall x y, f x = f y -> x = y) : OrdKey A.
Proof.
  refine {| kcmp x y := kcmp (f x) (f y) |}.
  - intros x y. rewrite kcmp_eq. split; [apply Hf|by intros ->].
  - intros x y. apply kcmp_antisym.
  - intros x y z. apply kcmp_trans.
Defined.

(** [String]: a Rust string compares by its bytes. *)
Definition string_bytes (s : string) : list Z :=
  (fun a => Z.of_nat (Ascii.nat_of_ascii a)) <$> String.list_ascii_of_string s.

#[export] Instance string_ord : OrdKey string.
Proof.
  apply (ord_inj string_bytes). unfold string_bytes. intros s1 s2 Heq.
  rewrite <- (String.string_of_list_ascii_of_string s1), <- (String.string_of_list_ascii_of_string s2). f_equal.
  assert (Inj (=) (=) (fun a => Z.of_nat (Ascii.nat_of_ascii a))) as Hinj.
  { intros a b Hab%Nat2Z.inj. by rewrite <- (Ascii.ascii_nat_embedding a), <- (Ascii.ascii_nat_embedding b), Hab. }
  by apply (list_fmap_eq_inj _ Hinj).
Defined.

(** ** Maps *)

Section maps.
Context `{OrdKey K, !EqDecision K, !Countable K} {V : Type}.
Implicit Types (m : gmap K V) (k : K) (v : V).

(** [m.iter()]: the entries in ascending key order. *)
Definition bt_iter m : list (K * V) :=
  merge_sort (fun p q => kle p.1 q.1) (map_to_list m).

Definition bt_keys m : list K := (bt_iter m).*1.
Definition bt_values m : list V := (bt_iter m).*2.
Definition bt_first m : option K := head (bt_keys m).
Definition bt_last m : option K := last (bt_keys m).

(** [m.split_off(&k)] returns [bt_from k m] and leaves [bt_before k m]. *)
Definition bt_from k m : gmap K V := filter (fun kv => kle k kv.1) m.
Definition bt_before k m : gmap K V := filter (fun kv => klt kv.1 k) m.

Lemma bt_iter_perm m : bt_iter m ≡ₚ map_to_list m.
Proof. apply merge_sort_Permutation. Qed.

Lemma elem_of_bt_iter m k v : (k, v) ∈ bt_iter m <-> m !! k = Some v.
Proof. rewrite bt_iter_perm. apply elem_of_map_to_list. Qed.

Lemma elem_of_bt_keys m k : k ∈ bt_keys m <-> is_Some (m !! k).
Proof.
  unfold bt_keys. rewrite list_elem_of_fmap. split.
  - intros ([k' v] & -> & Hin). apply elem_of_bt_iter in Hin. by eexists.
  - intros [v Hv]. exists (k, v). by rewrite elem_of_bt_iter.
Qed.

Lemma elem_of_bt_values m v : v ∈ bt_values m <-> exists k, m !! k = Some v.
Proof.
  unfold bt_values. rewrite list_elem_of_fmap. split.
  - intros ([k v'] & -> & Hin). apply elem_of_bt_iter in Hin. by eexists.
  - intros [k Hv]. exists (k, v). by rewrite elem_of_bt_iter.
Qed.

Lemma NoDup_bt_keys m : NoDup (bt_keys m).
Proof. unfold bt_keys. rewrite bt_iter_perm. apply NoDup_fst_map_to_list. Qed.

Lemma length_bt_iter m : length (bt_iter m) = size m.
Proof. rewrite bt_iter_perm. apply length_map_to_list. Qed.

Lemma bt_iter_sorted m : StronglySorted (fun p q => klt p.1 q.1) (bt_iter m).
Proof.
  assert (StronglySorted (fun p q : K * V => kle p.1 q.1) (bt_iter m)) as Hs.
  { apply StronglySorted_merge_sort.
    - intros p q r. apply kle_trans.
    - intros p q. apply kle_total. }
  pose proof (NoDup_bt_keys m) as Hnd. unfold bt_keys in Hnd.
  induction Hs as [|[k v] l Hl IH Hk]; [constructor|]. simpl in Hnd.
  apply NoDup_cons in Hnd as [Hni Hnd]. constructor; [auto|].
  rewrite Forall_forall in Hk |- *. intros [k' v'] Hin. specialize (Hk _ Hin). simpl in *.
  apply kle_lteq in Hk as [?|<-]; [done|]. destruct Hni. by apply (list_elem_of_fmap_2 fst) in Hin.
Qed.

Lemma bt_keys_sorted m : StronglySorted klt (bt_keys m).
Proof.
  unfold bt_keys. pose proof (bt_iter_sorted m) as Hs.
  induction Hs as [|[k v] l Hl IH Hk]; [constructor|].
  simpl. constructor; [done|]. rewrite Forall_forall in Hk. rewrite Forall_forall.
  intros k' ([? ?] & -> & Hin)%list_elem_of_fmap. by apply Hk in Hin.
Qed.

Lemma bt_iter_empty : bt_iter (∅ : gmap K V) = [].
Proof. unfold bt_iter. by rewrite map_to_list_empty. Qed.

Lemma lookup_bt_from k m k' : bt_from k m !! k' = if decide (kle k k') then m !! k' else None.
Proof. unfold bt_from. rewrite map_lookup_filter. simpl. destruct (m !! k'); simpl; repeat case_guard || case_decide; done. Qed.

Lemma lookup_bt_before k m k' : bt_before k m !! k' = if decide (klt k' k) then m !! k' else None.
Proof. unfold bt_before. rewrite map_lookup_filter. simpl. destruct (m !! k'); simpl; repeat case_guard || case_decide; done. Qed.

(** [split_off] neither loses nor duplicates an entry. *)
Lemma bt_split_union k m : bt_before k m ∪ bt_from k m = m.
Proof.
  apply map_eq. intros k'. rewrite lookup_union, lookup_bt_from, lookup_bt_before.
  repeat case_decide; rewrite ?kle_nlt, ?klt_nle in *; try tauto; by destruct (m !! k').
Qed.

Lemma bt_first_Some m k :
  bt_first m = Some k <-> is_Some (m !! k) /\ forall k', is_Some (m !! k') -> kle k k'.
Proof. setoid_rewrite <- elem_of_bt_keys. apply sorted_head_Some, bt_keys_sorted. Qed.

Lemma bt_last_Some m k :
  bt_last m = Some k <-> is_Some (m !! k) /\ forall k', is_Some (m !! k') -> kle k' k.
Proof. setoid_rewrite <- elem_of_bt_keys. apply sorted_last_Some, bt_keys_sorted. Qed.

Lemma bt_first_None m : bt_first m = None <-> m = ∅.
Proof.
  unfold bt_first. split; [|intros ->; unfold bt_keys; by rewrite bt_iter_empty].
  destruct (bt_keys m) as [|k0 l] eqn:E; [|done]. intros _. apply map_eq. intros k.
  rewrite lookup_empty. destruct (m !! k) eqn:E'; [|done].
  assert (k ∈ bt_keys m) as Hin by (apply elem_of_bt_keys; by eexists).
  rewrite E in Hin. set_solver.
Qed.
End maps.

(** ** Sets *)

Section sets.
Context `{OrdKey K, !EqDecision K, !Countable K}.
Implicit Types (s : gset K) (k : K).

Definition bs_iter s : list K := merge_sort kle (elements s).
Definition bs_first s : option K := head (bs_iter s).
Definition bs_last s : option K := last (bs_iter s).
Definition bs_from k s : gset K := filter (fun k' => kle k k') s.
Definition bs_before k s : gset K := filter (fun k' => klt k' k) s.

Lemma elem_of_bs_iter s k : k ∈ bs_iter s <-> k ∈ s.
Proof. unfold bs_iter. rewrite merge_sort_Permutation. apply elem_of_elements. Qed.

Lemma bs_iter_sorted s : StronglySorted klt (bs_iter s).
Proof.
  assert (StronglySorted kle (bs_iter s)) as Hs by (apply StronglySorted_merge_sort; apply _).
  assert (NoDup (bs_iter s)) as Hnd.
  { unfold bs_iter. rewrite merge_sort_Permutation. apply NoDup_elements. }
  induction Hs as [|k l Hl IH Hk]; [constructor|]. apply NoDup_cons in Hnd as [Hni Hnd].
  constructor; [auto|]. rewrite Forall_forall in Hk |- *. intros k' Hin.
  specialize (Hk _ Hin). apply kle_lteq in Hk as [?|<-]; done.
Qed.

Lemma elem_of_bs_from k s k' : k' ∈ bs_from k s <-> k' ∈ s /\ kle k k'.
Proof. unfold bs_from. rewrite elem_of_filter. tauto. Qed.

Lemma elem_of_bs_before k s k' : k' ∈ bs_before k s <-> k' ∈ s /\ klt k' k.
Proof. unfold bs_before. rewrite elem_of_filter. tauto. Qed.

Lemma bs_first_Some s k : bs_first s = Some k <-> k ∈ s /\ forall k', k' ∈ s -> kle k k'.
Proof. setoid_rewrite <- elem_of_bs_iter. apply sorted_head_Some, bs_iter_sorted. Qed.

Lemma bs_last_Some s k : bs_last s = Some k <-> k ∈ s /\ forall k', k' ∈ s -> kle k' k.
Proof. setoid_rewrite <- elem_of_bs_iter. apply sorted_last_Some, bs_iter_sorted. Qed.

Lemma bs_iter_None s : bs_iter s = [] <-> s = ∅.
Proof.
  split.
  - intros E. apply set_eq. intros k. rewrite <- elem_of_bs_iter, E. set_solver.
  - intros ->. unfold bs_iter. by rewrite elements_empty.
Qed.

Lemma bs_first_None s : bs_first s = None <-> s = ∅.
Proof. rewrite <- bs_iter_None. unfold bs_first. by destruct (bs_iter s). Qed.
End sets.

Lemma bs_iter_sorted_Z (s : gset Z) : StronglySorted Z.lt (bs_iter s).
Proof. eapply StronglySorted_mono, bs_iter_sorted. apply klt_Z. Qed.

Lemma bt_keys_sorted_Z {V} (m : gmap Z V) : StronglySorted Z.lt (bt_keys m).
Proof. eapply StronglySorted_mono, bt_keys_sorted. apply klt_Z. Qed.
