(* ===== verification/Wire.v ===== *)
(** * Byte readers and writers

    The crate serializes with the third-party crate [speedy].  Its primitive
    readers and writers are a parameter of the model: the class [Speedy] holds
    the operations the crate calls, [SpeedyLaws] the documented facts the code
    relies on (a value written in some endianness is read back in the same
    endianness, a [w]-byte integer takes [w] bytes, a byte
    is written and read as itself, a read value is in range).
    [std_speedy] is the instance with the usual two's complement encoding. *)

From S2P Require Import Prelude.

Inductive Endianness : Set := LittleEndian | BigEndian.

#[export] Instance Endianness_eq_dec : EqDecision Endianness.
Proof. solve_decision. Defined.

(** A byte is a [Z] in [0, 256). *)
Abbreviation bytes := (list Z).
Definition reader (A : Type) : Type := bytes -> option (A * bytes).

#[export] Instance reader_ret : MRet reader := λ A a bs, Some (a, bs).
#[export] Instance reader_bind : MBind reader := λ A B f r bs,
  match r bs with Some (a, bs') => f a bs' | None => None end.
Definition reader_fail {A} : reader A := fun _ => None.

(** [for _ in 0..n { v.push(reader.read_value()?) }] *)
Fixpoint read_n {A} (n : nat) (r : reader A) : reader (list A) :=
  match n with
  | O => mret []
  | S n => x ← r; xs ← read_n n r; mret (x :: xs)
  end.

Class Speedy : Type := {
  (** [w]-byte unsigned integers, [w] = 1, 2 or 4 *)
  sp_write : nat -> Endianness -> Z -> bytes;
  sp_read : nat -> Endianness -> reader Z;
  (** booleans, one byte *)
  sp_write_bool : Endianness -> bool -> bytes;
  sp_read_bool : Endianness -> reader bool;
  (** the byte an [Option] starts with *)
  sp_write_option_tag : Endianness -> bool -> bytes;
  sp_read_option_tag : Endianness -> reader bool;
}.

Class SpeedyLaws (S : Speedy) : Prop := {
  sp_length w e z : length (sp_write w e z) = w;
  sp_read_write w e z rest :
    in_u (8 * Z.of_nat w) z -> sp_read w e (sp_write w e z ++ rest) = Some (z, rest);
  sp_read_byte e b rest : in_u 8 b -> sp_read 1 e (b :: rest) = Some (b, rest);
  sp_write_byte e b : in_u 8 b -> sp_write 1 e b = [b];
  sp_read_range w e bs z rest :
    sp_read w e bs = Some (z, rest) -> in_u (8 * Z.of_nat w) z;
  sp_read_consumes w e bs z rest :
    sp_read w e bs = Some (z, rest) -> length bs = (w + length rest)%nat;
  sp_option_tag_length e b : length (sp_write_option_tag e b) = 1%nat;
  sp_bool_length e b : length (sp_write_bool e b) = 1%nat;
  sp_read_write_bool e b rest : sp_read_bool e (sp_write_bool e b ++ rest) = Some (b, rest);
  sp_read_write_option_tag e b rest :
    sp_read_option_tag e (sp_write_option_tag e b ++ rest) = Some (b, rest);
}.

(** ** The usual encoding *)

Fixpoint le_bytes (w : nat) (z : Z) : bytes :=
  match w with O => [] | S w => z mod 256 :: le_bytes w (z / 256) end.

Fixpoint le_value (bs : bytes) : Z :=
  match bs with [] => 0 | b :: bs => b mod 256 + 256 * le_value bs end.

Definition std_write (w : nat) (e : Endianness) (z : Z) : bytes :=
  match e with LittleEndian => le_bytes w z | BigEndian => rev (le_bytes w z) end.

Definition std_read (w : nat) (e : Endianness) : reader Z := fun bs =>
  if decide (w <= length bs)%nat then
    let b := take w bs in
    Some (le_value (match e with LittleEndian => b | BigEndian => rev b end), drop w bs)
  else None.

#[export] Instance std_speedy : Speedy := {|
  sp_write := std_write; sp_read := std_read;
  sp_write_bool e b := std_write 1 e (if b then 1 else 0);
  sp_read_bool e bs := match std_read 1 e bs with Some (z, r) => Some (negb (z =? 0), r) | None => None end;
  sp_write_option_tag e b := std_write 1 e (if b then 1 else 0);
  sp_read_option_tag e bs := match std_read 1 e bs with Some (z, r) => Some (negb (z =? 0), r) | None => None end;
|}.

Lemma length_le_bytes w z : length (le_bytes w z) = w.
Proof. revert z. induction w as [|w IH]; intros z; simpl; [done|]. by rewrite IH. Qed.

Lemma le_value_bytes w z : in_u (8 * Z.of_nat w) z -> le_value (le_bytes w z) = z.
Proof.
  revert z. induction w as [|w IH]; intros z Hz; unfold in_u in *; [simpl in *; lia|].
  replace (8 * Z.of_nat (S w)) with (8 + 8 * Z.of_nat w) in Hz by lia.
  rewrite Z.pow_add_r in Hz by lia. change (2 ^ 8) with 256 in Hz.
  cbn [le_bytes le_value]. rewrite Z.mod_mod by lia. rewrite IH.
  - pose proof (Z.div_mod z 256). lia.
  - split; [apply Z.div_pos; lia|]. apply Z.div_lt_upper_bound; lia.
Qed.

Lemma le_value_range bs : in_u (8 * Z.of_nat (length bs)) (le_value bs).
Proof.
  induction bs as [|b bs IH]; unfold in_u in *; cbn [length le_value]; [simpl; lia|].
  replace (8 * Z.of_nat (S (length bs))) with (8 + 8 * Z.of_nat (length bs)) by lia.
  rewrite Z.pow_add_r by lia. change (2 ^ 8) with 256.
  pose proof (Z.mod_pos_bound b 256). lia.
Qed.

#[export] Instance std_speedy_laws : SpeedyLaws std_speedy.
Proof.
  split.
  - intros w [] z; simpl; rewrite ?length_rev; apply length_le_bytes.
  - intros w e z rest Hz. unfold sp_read, sp_write, std_speedy, std_read, std_write.
    assert (length (match e with LittleEndian => le_bytes w z | BigEndian => rev (le_bytes w z) end) = w)
      as E by (destruct e; rewrite ?length_rev; apply length_le_bytes).
    rewrite decide_True by (rewrite length_app; lia).
    rewrite take_app_le, take_ge, drop_app_ge, E, Nat.sub_diag, drop_0 by lia.
    do 2 f_equal. destruct e; rewrite ?rev_involutive; by apply le_value_bytes.
  - intros e b rest Hb. simpl. unfold std_read. rewrite decide_True by (simpl; lia).
    unfold in_u in Hb. change (2 ^ 8) with 256 in Hb.
    destruct e; simpl; do 2 f_equal; rewrite Z.mod_small by lia; lia.
  - intros e b Hb. unfold in_u in Hb. change (2 ^ 8) with 256 in Hb. destruct e; simpl; by rewrite Z.mod_small by lia.
  - intros w e bs z rest. simpl. unfold std_read. case_decide as Hl; [|done].
    intros [= <- <-]. pose proof (length_take_le bs w Hl) as E.
    revert E. generalize (take w bs) as b. intros b <-.
    destruct e; [|rewrite <- length_rev]; apply le_value_range.
  - intros w e bs z rest. simpl. unfold std_read. case_decide as Hl; [|done].
    intros [= <- <-]. rewrite length_drop. lia.
  - intros [] b; reflexivity.
  - intros [] b; reflexivity.
  - intros [] [] rest; reflexivity.
  - intros [] [] rest; reflexivity.
Qed.

(** ** Derived operations *)

Section derived.
Context `{S : Speedy}.

Definition write_u8 (e : Endianness) (z : Z) : bytes := sp_write 1 e z.
Definition write_u16 (e : Endianness) (z : Z) : bytes := sp_write 2 e z.
Definition write_u32 (e : Endianness) (z : Z) : bytes := sp_write 4 e z.
Definition write_i32 (e : Endianness) (z : Z) : bytes := sp_write 4 e (u32 z).

Definition read_u8 (e : Endianness) : reader Z := sp_read 1 e.
Definition read_u16 (e : Endianness) : reader Z := sp_read 2 e.
Definition read_u32 (e : Endianness) : reader Z := sp_read 4 e.
Definition read_i32 (e : Endianness) : reader Z := z ← sp_read 4 e; mret (i32 z).

Context `{!SpeedyLaws S}.

Lemma read_write_u32 e z rest : in_u 32 z -> read_u32 e (write_u32 e z ++ rest) = Some (z, rest).
Proof. apply (sp_read_write 4). Qed.

Lemma i32_u32 z : in_s 32 z -> i32 (u32 z) = z.
Proof.
  intros Hz. rewrite <- (wrap_s_id 32 z) at 2 by (done || lia).
  apply wrap_s_mod; [|lia]. unfold wrap_u.
  rewrite Zminus_mod_idemp_l, Z.sub_diag. done.
Qed.

Lemma read_write_i32 e z rest : in_s 32 z -> read_i32 e (write_i32 e z ++ rest) = Some (z, rest).
Proof.
  intros Hz. unfold read_i32, write_i32, mbind, reader_bind.
  rewrite (sp_read_write 4) by (apply wrap_u_range; lia). by rewrite i32_u32.
Qed.

Lemma read_u32_range e bs z rest : read_u32 e bs = Some (z, rest) -> in_u 32 z.
Proof. apply (sp_read_range 4). Qed.

Lemma read_i32_range e bs z rest : read_i32 e bs = Some (z, rest) -> in_s 32 z.
Proof.
  unfold read_i32, mbind, reader_bind. destruct (sp_read 4 e bs) as [[z' r]|]; [|done].
  intros [= <- <-]. apply wrap_s_range; lia.
Qed.
End derived.

(** [reader.read_vec(n)], [reader.read_bytes]: [n] bytes as they are. *)
Definition read_bytes (n : nat) : reader bytes := fun bs =>
  if decide (n <= length bs)%nat then Some (take n bs, drop n bs) else None.

Lemma read_bytes_app n (b rest : bytes) : length b = n -> read_bytes n (b ++ rest) = Some (b, rest).
Proof.
  intros <-. unfold read_bytes. rewrite decide_True by (rewrite length_app; lia).
  by rewrite take_app_length, drop_app_length.
Qed.

(** Reading back a concatenation of written elements. *)
Lemma read_n_write {A} (r : reader A) (w : A -> bytes) (xs : list A) (rest : bytes) :
  (forall x rest, x ∈ xs -> r (w x ++ rest) = Some (x, rest)) ->
  read_n (length xs) r (concat (w <$> xs) ++ rest) = Some (xs, rest).
Proof.
  induction xs as [|x xs IH]; intros Hr; csimpl; [done|].
  unfold mbind, reader_bind. rewrite <- (app_assoc (w x)), Hr by set_solver.
  rewrite IH; [done|]. intros; apply Hr; set_solver.
Qed.

Lemma read_n_Some {A} (P : A -> Prop) (r : reader A) n bs xs rest :
  (forall bs x rest, r bs = Some (x, rest) -> P x) ->
  read_n n r bs = Some (xs, rest) -> length xs = n /\ Forall P xs.
Proof.
  intros Hr. revert bs xs rest. induction n as [|n IH]; intros bs xs rest; simpl.
  - by intros [= <- <-].
  - unfold mbind, reader_bind. destruct (r bs) as [[x bs']|] eqn:E; [|done].
    destruct (read_n n r bs') as [[ys bs'']|] eqn:E'; [|done]. intros [= <- <-].
    destruct (IH _ _ _ E') as [<- ?]. simpl. split; [done|]. constructor; eauto.
Qed.

Lemma read_n_consumes {A} (c : nat) (r : reader A) n bs xs rest :
  (forall bs x rest, r bs = Some (x, rest) -> length bs = (c + length rest)%nat) ->
  read_n n r bs = Some (xs, rest) -> length bs = (n * c + length rest)%nat.
Proof.
  intros Hr. revert bs xs rest. induction n as [|n IH]; intros bs xs rest; simpl.
  - by intros [= <- <-].
  - unfold mbind, reader_bind. destruct (r bs) as [[x bs']|] eqn:E; [|done].
    destruct (read_n n r bs') as [[ys bs'']|] eqn:E'; [|done]. intros [= <- <-].
    apply Hr in E. apply IH in E'. lia.
Qed.
