(* ===== verification/SequenceNumbers.v ===== *)
(** * Sequence numbers, fragment numbers and number sets

    [src/structure/sequence_number.rs]: the 64-bit [SequenceNumber], the 32-bit
    [FragmentNumber], the inclusive ranges over both, and the bitmap
    [NumberSet] that ACKNACK, NACKFRAG and GAP carry.  Arithmetic is the
    release-mode one: it wraps at the width of the number. *)

From S2P Require Import Prelude BTree Wire.

(** ** SequenceNumber *)

Abbreviation SequenceNumber := Z (only parsing).

Definition SEQUENCENUMBER_UNKNOWN : SequenceNumber := i64 (Z.shiftl (2 ^ 32 - 1) 32).
Definition SequenceNumber_new (value : Z) : SequenceNumber := value.
Definition SequenceNumber_zero : SequenceNumber := 0.
Definition SequenceNumber_default : SequenceNumber := 1.
(** [NumOps] is derived from [i64]'s operators. *)
Definition SequenceNumber_add (a b : SequenceNumber) : SequenceNumber := i64 (a + b).
Definition SequenceNumber_sub (a b : SequenceNumber) : SequenceNumber := i64 (a - b).
Definition SequenceNumber_plus_1 (sn : SequenceNumber) : SequenceNumber := i64 (sn + 1).
Definition SequenceNumber_from_high_low (high low : Z) : SequenceNumber :=
  i64 (i64 (Z.shiftl high 32) + low).
Definition SequenceNumber_high (sn : SequenceNumber) : Z := i32 (Z.shiftr sn 32).
Definition SequenceNumber_low (sn : SequenceNumber) : Z := u32 (Z.land sn 0xFFFFFFFF).
Definition SequenceNumber_from_usize (value : Z) : SequenceNumber := i64 value.

Record SequenceNumberRange := { snr_begin : SequenceNumber; snr_end : SequenceNumber }.

Definition SequenceNumberRange_new (b e : SequenceNumber) : SequenceNumberRange :=
  {| snr_begin := b; snr_end := e |}.

(** [SequenceNumber::range_inclusive] *)
Definition range_inclusive (b e : SequenceNumber) : SequenceNumberRange :=
  SequenceNumberRange_new b e.

Definition SequenceNumberRange_next (r : SequenceNumberRange)
  : option SequenceNumber * SequenceNumberRange :=
  if snr_end r <? snr_begin r then (None, r)
  else let b := snr_begin r in
       (Some b, {| snr_begin := SequenceNumber_add b 1; snr_end := snr_end r |}).

(** A [for] loop over a range collects what [next] yields until [None]. *)
Fixpoint SequenceNumberRange_collect (fuel : nat) (r : SequenceNumberRange)
  : outcome (list SequenceNumber) :=
  match fuel with
  | O => Diverge
  | S fuel =>
      match SequenceNumberRange_next r with
      | (None, _) => Ret []
      | (Some b, r') => l ← SequenceNumberRange_collect fuel r'; Ret (b :: l)
      end
  end.

Definition SequenceNumberRange_list (r : SequenceNumberRange) : outcome (list SequenceNumber) :=
  SequenceNumberRange_collect (S (Z.to_nat (snr_end r - snr_begin r + 1))) r.

(** ** FragmentNumber *)

Abbreviation FragmentNumber := Z (only parsing).

Definition FragmentNumber_INVALID : FragmentNumber := 0.
Definition FragmentNumber_default : FragmentNumber := 1.
Definition FragmentNumber_new (value : Z) : FragmentNumber := value.
Definition FragmentNumber_from_i64 (value : Z) : FragmentNumber := u32 value.

Record FragmentNumberRange := { fnr_begin : FragmentNumber; fnr_end : FragmentNumber }.

Definition FragmentNumberRange_next (r : FragmentNumberRange)
  : option FragmentNumber * FragmentNumberRange :=
  if fnr_end r <? fnr_begin r then (None, r)
  else let b := fnr_begin r in
       (Some b, {| fnr_begin := u32 (b + 1); fnr_end := fnr_end r |}).

Fixpoint FragmentNumberRange_collect (fuel : nat) (r : FragmentNumberRange)
  : outcome (list FragmentNumber) :=
  match fuel with
  | O => Diverge
  | S fuel =>
      match FragmentNumberRange_next r with
      | (None, _) => Ret []
      | (Some b, r') => l ← FragmentNumberRange_collect fuel r'; Ret (b :: l)
      end
  end.

Definition FragmentNumberRange_list (b e : FragmentNumber) : outcome (list FragmentNumber) :=
  FragmentNumberRange_collect (S (Z.to_nat (e - b + 1))) {| fnr_begin := b; fnr_end := e |}.

(** ** NumberSet

    The Rust type is generic in the number type [N].  [num_kind] names the two
    instances, with what the generic code needs of [N]: its arithmetic, its
    conversion from [i64], its size and its serialization. *)

Inductive num_kind : Set := KSequence | KFragment.

Definition N_wrap (k : num_kind) (z : Z) : Z :=
  match k with KSequence => i64 z | KFragment => u32 z end.
Definition N_add (k : num_kind) (a b : Z) : Z := N_wrap k (a + b).
Definition N_sub (k : num_kind) (a b : Z) : Z := N_wrap k (a - b).
(** [N::from(i64)] *)
Definition N_from (k : num_kind) (z : Z) : Z := N_wrap k z.
Definition N_size (k : num_kind) : Z := match k with KSequence => 8 | KFragment => 4 end.

Record NumberSet (k : num_kind) := {
  bitmap_base : Z;
  num_bits : Z;          (** u32 *)
  bitmap : list Z;       (** u32 words, bit 0 is the most significant bit of word 0 *)
}.
Arguments bitmap_base {k} _.
Arguments num_bits {k} _.
Arguments bitmap {k} _.
Arguments Build_NumberSet {k} _ _ _.

Abbreviation SequenceNumberSet := (NumberSet KSequence).
Abbreviation FragmentNumberSet := (NumberSet KFragment).

Definition word_count (n : Z) : Z := u32 (n + 31) / 32.

Section number_set.
Context {k : num_kind}.
Implicit Types s : NumberSet k.

Definition NumberSet_new (base nbits : Z) : NumberSet k :=
  {| bitmap_base := base; num_bits := nbits;
     bitmap := replicate (Z.to_nat (word_count nbits)) 0 |}.

Definition NumberSet_base s : Z := bitmap_base s.

Definition NumberSet_new_empty (base : Z) : NumberSet k := NumberSet_new base 0.

Definition NumberSet_insert (sn : Z) s : outcome (NumberSet k) :=
  if (sn <? bitmap_base s) || (num_bits s =? 0)
     || (N_add k (bitmap_base s) (N_from k (num_bits s)) <=? sn)
  then Ret s
  else
    let bit_pos := u32 (N_sub k sn (bitmap_base s)) in
    let word_num := bit_pos / 32 in
    let bit_num := bit_pos mod 32 in
    match bitmap s !! Z.to_nat word_num with
    | Some w =>
        Ret {| bitmap_base := bitmap_base s; num_bits := num_bits s;
               bitmap := <[Z.to_nat word_num := Z.lor w (Z.shiftl 1 (31 - bit_num))]> (bitmap s) |}
    | None => Panic "index out of bounds"
    end.

Definition NumberSet_from_base_and_set (base : Z) (set : gset Z) : outcome (NumberSet k) :=
  match bs_first set, bs_last set with
  | Some start, Some end_ =>
      let base := if start <? base then start else base in
      if base <? N_from k 1 then Ret (NumberSet_new_empty (N_from k 1))
      else
        let end_ := if 256 <=? i64 (end_ - base) then N_add k base (N_from k 255) else end_ in
        let nbits := N_add k (N_sub k end_ base) (N_from k 1) in
        outcome_fold (fun sns x => NumberSet_insert x sns)
          (NumberSet_new base (u32 nbits))
          (filter (fun x => base <= x <= end_) (bs_iter set))
  | _, _ => Ret (NumberSet_new_empty base)
  end.

(** *** Iteration from both ends *)

Record NumberSetIter := { nsi_seq : NumberSet k; at_bit : Z; rev_at_bit : Z }.

Definition NumberSet_iter s : NumberSetIter :=
  {| nsi_seq := s; at_bit := 0; rev_at_bit := num_bits s |}.

(** [bitmap[(i / 32) as usize] & (1 << (31 - i % 32)) != 0] *)
Definition have_one s (i : Z) : outcome bool :=
  match bitmap s !! Z.to_nat (i / 32) with
  | Some w => Ret (negb (Z.land w (Z.shiftl 1 (31 - i mod 32)) =? 0))
  | None => Panic "index out of bounds"
  end.

Fixpoint NumberSetIter_next_loop (fuel : nat) (it : NumberSetIter)
  : outcome (option Z * NumberSetIter) :=
  if at_bit it <? rev_at_bit it then
    match fuel with
    | O => Diverge
    | S fuel =>
        one ← have_one (nsi_seq it) (at_bit it);
        let it' := {| nsi_seq := nsi_seq it; at_bit := at_bit it + 1; rev_at_bit := rev_at_bit it |} in
        if one : bool
        then Ret (Some (N_add k (N_from k (at_bit it)) (bitmap_base (nsi_seq it))), it')
        else NumberSetIter_next_loop fuel it'
    end
  else Ret (None, it).

Definition NumberSetIter_next (it : NumberSetIter) : outcome (option Z * NumberSetIter) :=
  NumberSetIter_next_loop (Z.to_nat (rev_at_bit it - at_bit it)) it.

Fixpoint NumberSetIter_next_back_loop (fuel : nat) (it : NumberSetIter)
  : outcome (option Z * NumberSetIter) :=
  if at_bit it <? rev_at_bit it then
    match fuel with
    | O => Diverge
    | S fuel =>
        let i := rev_at_bit it - 1 in
        one ← have_one (nsi_seq it) i;
        let it' := {| nsi_seq := nsi_seq it; at_bit := at_bit it; rev_at_bit := i |} in
        if one : bool
        then Ret (Some (N_add k (N_from k i) (bitmap_base (nsi_seq it))), it')
        else NumberSetIter_next_back_loop fuel it'
    end
  else Ret (None, it).

Definition NumberSetIter_next_back (it : NumberSetIter) : outcome (option Z * NumberSetIter) :=
  NumberSetIter_next_back_loop (Z.to_nat (rev_at_bit it - at_bit it)) it.

(** Everything [for x in set.iter()] sees. *)
Fixpoint NumberSetIter_collect (fuel : nat) (it : NumberSetIter) : outcome (list Z) :=
  match fuel with
  | O => Diverge
  | S fuel =>
      r ← NumberSetIter_next it;
      match r with
      | (None, _) => Ret []
      | (Some x, it') => l ← NumberSetIter_collect fuel it'; Ret (x :: l)
      end
  end.

Definition NumberSet_to_list s : outcome (list Z) :=
  NumberSetIter_collect (S (Z.to_nat (num_bits s))) (NumberSet_iter s).

Definition NumberSet_is_empty s : outcome bool :=
  if num_bits s =? 0 then Ret true
  else r ← NumberSetIter_next (NumberSet_iter s); Ret (bool_decide (r.1 = None)).

(** *** Serialization *)

Definition NumberSet_len_serialized s : Z := N_size k + 4 + 4 * ((num_bits s + 31) / 32).

Context `{S : Speedy}.

Definition SequenceNumber_write (e : Endianness) (sn : SequenceNumber) : bytes :=
  write_i32 e (i32 (Z.shiftr sn 32)) ++ write_u32 e (u32 sn).

Definition SequenceNumber_read (e : Endianness) : reader SequenceNumber :=
  high ← read_i32 e; low ← read_u32 e; mret (i64 (i64 (Z.shiftl high 32) + low)).

Definition N_write (e : Endianness) (n : Z) : bytes :=
  match k with KSequence => SequenceNumber_write e n | KFragment => write_u32 e n end.

Definition N_read (e : Endianness) : reader Z :=
  match k with KSequence => SequenceNumber_read e | KFragment => read_u32 e end.

Definition NumberSet_write (e : Endianness) s : bytes :=
  let wc := word_count (num_bits s) in
  let bitmap_len := u32 (Z.of_nat (length (bitmap s))) in
  N_write e (bitmap_base s) ++ write_u32 e (num_bits s)
  ++ concat (write_u32 e <$> take (Z.to_nat (Z.min wc bitmap_len)) (bitmap s)).

Definition NumberSet_read (e : Endianness) : reader (NumberSet k) :=
  base ← N_read e;
  nbits ← read_u32 e;
  if 256 <? nbits then reader_fail
  else words ← read_n (Z.to_nat (word_count nbits)) (read_u32 e);
       mret {| bitmap_base := base; num_bits := nbits; bitmap := words |}.
End number_set.
Arguments NumberSetIter k : clear implicits.

(** ** Ranges *)

(** Bounds of the two number types. *)
Definition in_N (k : num_kind) (z : Z) : Prop :=
  match k with KSequence => in_s 64 z | KFragment => in_u 32 z end.
Definition N_max (k : num_kind) : Z := match k with KSequence => i64_max | KFragment => 2 ^ 32 - 1 end.

Lemma N_wrap_id k z : in_N k z -> N_wrap k z = z.
Proof. destruct k; simpl; intros; [apply wrap_s_id; (lia || done)|by apply wrap_u_id]. Qed.

Lemma N_wrap_pos k z : 0 <= z <= N_max k -> N_wrap k z = z.
Proof. intros. apply N_wrap_id. destruct k; simpl in *; bounds_lia. Qed.

Lemma sn_add_1 sn : i64_min <= sn < i64_max -> SequenceNumber_add sn 1 = sn + 1.
Proof. intros. apply wrap_s_id; bounds_lia. Qed.

Lemma sn_plus_1 sn : i64_min <= sn < i64_max -> SequenceNumber_plus_1 sn = sn + 1.
Proof. intros. apply wrap_s_id; bounds_lia. Qed.

Lemma snr_collect_enough fuel b e :
  i64_min <= b -> e < i64_max -> (Z.to_nat (e - b + 1) < fuel)%nat ->
  SequenceNumberRange_collect fuel (range_inclusive b e) = Ret (seqZ b (e - b + 1)).
Proof.
  revert b. induction fuel as [|fuel IH]; intros b Hb He Hf; [lia|].
  simpl. unfold SequenceNumberRange_next; simpl. zcases.
  - by rewrite seqZ_nil by lia.
  - rewrite sn_add_1 by lia. fold (range_inclusive (b + 1) e).
    unfold range_inclusive, SequenceNumberRange_new in IH |- *. rewrite IH by lia. simpl.
    rewrite (seqZ_cons b) by lia. do 3 f_equal; lia.
Qed.

Lemma range_inclusive_list b e :
  i64_min <= b -> e < i64_max ->
  SequenceNumberRange_list (range_inclusive b e) = Ret (seqZ b (e - b + 1)).
Proof. intros. apply snr_collect_enough; simpl; lia. Qed.

(** [next] is total, but a range whose end is [i64::MAX] is never exhausted: the
    increment wraps to [i64::MIN]. *)
Lemma range_to_max_never_ends fuel b :
  in_s 64 b -> SequenceNumberRange_collect fuel (range_inclusive b i64_max) = Diverge.
Proof.
  revert b. induction fuel as [|fuel IH]; intros b Hb; [done|].
  simpl. unfold SequenceNumberRange_next; simpl. zcases; [bounds_lia|].
  unfold range_inclusive, SequenceNumberRange_new in IH. rewrite IH; [done|].
  apply wrap_s_range; lia.
Qed.

Lemma fnr_collect_enough fuel b e :
  0 <= b -> e < 2 ^ 32 - 1 -> (Z.to_nat (e - b + 1) < fuel)%nat ->
  FragmentNumberRange_collect fuel {| fnr_begin := b; fnr_end := e |} = Ret (seqZ b (e - b + 1)).
Proof.
  revert b. induction fuel as [|fuel IH]; intros b Hb He Hf; [lia|].
  simpl. unfold FragmentNumberRange_next; simpl. zcases.
  - by rewrite seqZ_nil by lia.
  - rewrite (wrap_u_id 32) by bounds_lia. rewrite IH by lia. simpl.
    rewrite (seqZ_cons b) by lia. do 3 f_equal; lia.
Qed.

Lemma FragmentNumberRange_list_seqZ b e :
  0 <= b -> e < 2 ^ 32 - 1 -> FragmentNumberRange_list b e = Ret (seqZ b (e - b + 1)).
Proof. intros. apply fnr_collect_enough; lia. Qed.

(** ** Number sets: contents *)

Section number_set_facts.
Context {k : num_kind}.
Implicit Types s : NumberSet k.

(** What every constructed or received set satisfies. *)
Definition ns_shape s : Prop :=
  0 <= num_bits s <= 256 /\
  Z.of_nat (length (bitmap s)) = (num_bits s + 31) / 32 /\
  Forall (in_u 32) (bitmap s).

(** Bit [i] of the bitmap, counted from the most significant bit of word 0. *)
Definition ns_bit s (i : Z) : bool :=
  match bitmap s !! Z.to_nat (i / 32) with
  | Some w => Z.testbit w (31 - i mod 32)
  | None => false
  end.

Definition ns_mem s (x : Z) : Prop :=
  bitmap_base s <= x < bitmap_base s + num_bits s /\ ns_bit s (x - bitmap_base s) = true.

Lemma word_count_small n : 0 <= n <= 256 -> word_count n = (n + 31) / 32.
Proof. intros. unfold word_count. rewrite (wrap_u_id 32) by bounds_lia. done. Qed.

Lemma land_bit w n : 0 <= n -> negb (Z.land w (Z.shiftl 1 n) =? 0) = Z.testbit w n.
Proof.
  intros Hn. rewrite Z.shiftl_1_l.
  assert (Z.land w (2 ^ n) = if Z.testbit w n then 2 ^ n else 0) as ->.
  { apply Z.bits_inj'. intros m Hm. rewrite Z.land_spec, Z.pow2_bits_eqb by done.
    destruct (Z.eqb_spec n m) as [<-|Hne].
    - rewrite andb_true_r. destruct (Z.testbit w n) eqn:E; [|by rewrite Z.bits_0].
      by rewrite Z.pow2_bits_true.
    - rewrite andb_false_r. destruct (Z.testbit w n); [|by rewrite Z.bits_0].
      by rewrite Z.pow2_bits_false. }
  destruct (Z.testbit w n); [|done]. destruct (Z.eqb_spec (2 ^ n) 0); [lia|done].
Qed.

Lemma word_lookup s i :
  ns_shape s -> 0 <= i < num_bits s -> is_Some (bitmap s !! Z.to_nat (i / 32)).
Proof.
  intros (Hn & Hl & _) Hi. apply lookup_lt_is_Some_2.
  assert (0 <= i / 32 < (num_bits s + 31) / 32); [|lia].
  Z.to_euclidean_division_equations; lia.
Qed.

Lemma have_one_spec s i :
  ns_shape s -> 0 <= i < num_bits s -> have_one s i = Ret (ns_bit s i).
Proof.
  intros Hs Hi. unfold have_one, ns_bit. destruct (word_lookup s i Hs Hi) as [w ->].
  rewrite land_bit; [done|]. pose proof (Z.mod_pos_bound i 32). lia.
Qed.

(** *** Iteration visits exactly the set bits, in order *)

Definition ns_bits_in s (lo hi : Z) : list Z := filter (fun i => ns_bit s i = true) (seqZ lo (hi - lo)).
Definition ns_number s (i : Z) : Z := N_add k (N_from k i) (bitmap_base s).

Lemma ns_next_spec fuel s lo hi :
  ns_shape s -> 0 <= lo -> hi <= num_bits s -> (Z.to_nat (hi - lo) <= fuel)%nat ->
  match ns_bits_in s lo hi with
  | [] => exists it', NumberSetIter_next_loop fuel (Build_NumberSetIter s lo hi) = Ret (None, it')
  | i :: l =>
      NumberSetIter_next_loop fuel (Build_NumberSetIter s lo hi)
        = Ret (Some (ns_number s i), Build_NumberSetIter s (i + 1) hi)
      /\ l = ns_bits_in s (i + 1) hi /\ lo <= i < hi
  end.
Proof.
  intros Hs. revert lo. induction fuel as [|fuel IH]; intros lo Hlo Hhi Hf; unfold ns_bits_in; simpl.
  - rewrite seqZ_nil by lia. zcases; [lia|by eauto].
  - zcases; [|rewrite seqZ_nil by lia; simpl; by eauto].
    rewrite have_one_spec by (done || lia). simpl.
    rewrite seqZ_cons by lia. rewrite filter_cons.
    replace (Z.pred (hi - lo)) with (hi - (lo + 1)) by lia.
    destruct (ns_bit s lo) eqn:E.
    + rewrite decide_True by done. split; [done|]. split; [done|lia].
    + rewrite decide_False by done.
      specialize (IH (lo + 1) ltac:(lia) Hhi ltac:(lia)). unfold ns_bits_in in IH.
      unfold Z.succ. destruct (filter _ (seqZ (lo + 1) _)); [done|].
      destruct IH as (-> & ? & ?). split; [done|]. split; [done|lia].
Qed.

Lemma ns_collect_spec fuel s lo hi :
  ns_shape s -> 0 <= lo -> hi <= num_bits s -> (length (ns_bits_in s lo hi) < fuel)%nat ->
  NumberSetIter_collect fuel (Build_NumberSetIter s lo hi) = Ret (ns_number s <$> ns_bits_in s lo hi).
Proof.
  intros Hs. revert lo. induction fuel as [|fuel IH]; intros lo Hlo Hhi Hf; [lia|].
  simpl. unfold NumberSetIter_next; simpl.
  pose proof (ns_next_spec (Z.to_nat (hi - lo)) s lo hi Hs Hlo Hhi ltac:(lia)) as Hn.
  destruct (ns_bits_in s lo hi) as [|i l].
  - destruct Hn as [it' ->]. done.
  - destruct Hn as (-> & -> & ?). simpl in *. rewrite IH by lia. done.
Qed.

Lemma length_ns_bits_in s lo hi : (length (ns_bits_in s lo hi) <= Z.to_nat (hi - lo))%nat.
Proof. unfold ns_bits_in. rewrite length_filter, length_seqZ. done. Qed.

Lemma NumberSet_to_list_spec s :
  ns_shape s -> NumberSet_to_list s = Ret (ns_number s <$> ns_bits_in s 0 (num_bits s)).
Proof.
  intros Hs. apply ns_collect_spec; [done|lia..|].
  pose proof (length_ns_bits_in s 0 (num_bits s)). destruct Hs as [? _]. lia.
Qed.

(** With numbers that do not overflow, the iterated list is the sorted list of
    the members. *)
Definition ns_in_range s : Prop :=
  0 <= bitmap_base s /\ bitmap_base s + num_bits s <= N_max k.

Lemma ns_number_small s i :
  ns_in_range s -> 0 <= i < num_bits s -> ns_number s i = bitmap_base s + i.
Proof.
  intros [Hb Hm] Hi. unfold ns_number, N_add, N_from.
  rewrite (N_wrap_pos k i) by lia. rewrite N_wrap_pos; lia.
Qed.

Lemma NumberSet_to_list_members s :
  ns_shape s -> ns_in_range s ->
  exists l, NumberSet_to_list s = Ret l /\ StronglySorted Z.lt l /\ forall x, x ∈ l <-> ns_mem s x.
Proof.
  intros Hs Hr. eexists. split; [by apply NumberSet_to_list_spec|].
  assert (Forall (fun i => 0 <= i < num_bits s) (ns_bits_in s 0 (num_bits s))) as Hf.
  { apply Forall_forall. intros i [_ Hi%elem_of_seqZ]%list_elem_of_filter. lia. }
  split.
  - assert (StronglySorted Z.lt (ns_bits_in s 0 (num_bits s))) as Hss
      by apply StronglySorted_filter, seqZ_sorted.
    induction Hss as [|i l Hl IH Hi]; [constructor|]. apply Forall_cons in Hf as [Hi0 Hf].
    csimpl. constructor; [auto|]. rewrite Forall_forall in Hf, Hi. rewrite Forall_forall.
    intros y (j & -> & Hj)%list_elem_of_fmap. specialize (Hi _ Hj). specialize (Hf _ Hj).
    rewrite !ns_number_small by done. lia.
  - intros x. rewrite list_elem_of_fmap. unfold ns_bits_in, ns_mem.
    setoid_rewrite list_elem_of_filter. setoid_rewrite elem_of_seqZ. split.
    + intros (i & -> & Hb & Hi). rewrite ns_number_small by (done || lia).
      replace (bitmap_base s + i - bitmap_base s) with i by lia. split; [lia|done].
    + intros [Hx Hb]. exists (x - bitmap_base s). rewrite ns_number_small by (done || lia).
      split; [lia|]. split; [done|lia].
Qed.

(** *** Insertion *)

Lemma NumberSet_new_shape b n :
  0 <= n <= 256 -> ns_shape (@NumberSet_new k b n) /\ forall x, ~ ns_mem (@NumberSet_new k b n) x.
Proof.
  intros Hn. split.
  - split; [done|]. split; simpl.
    + rewrite length_replicate, word_count_small by done. apply Z2Nat.id, Z.div_pos; lia.
    + apply Forall_replicate. unfold in_u. pow2. lia.
  - intros x [_ Hb]. unfold ns_bit in Hb. simpl in Hb.
    destruct (replicate _ 0 !! _) eqn:E; [|done]. apply lookup_replicate_1 in E as [-> _].
    by rewrite Z.bits_0 in Hb.
Qed.

Lemma in_u_lor a b : in_u 32 a -> in_u 32 b -> in_u 32 (Z.lor a b).
Proof.
  assert (forall z, in_u 32 z -> Z.log2 z < 32) as Hlog.
  { intros z Hz. destruct (decide (z = 0)) as [->|]; [done|].
    apply Z.log2_lt_pow2; bounds_lia. }
  intros Ha Hb. pose proof (Z.lor_nonneg a b) as Hp. split; [apply Hp; split; apply Ha || apply Hb|].
  destruct (decide (Z.lor a b = 0)) as [->|]; [pow2; lia|].
  apply Z.log2_lt_pow2; [destruct Ha, Hb; lia|].
  rewrite Z.log2_lor by (apply Ha || apply Hb). apply Z.max_lub_lt; auto.
Qed.

Lemma NumberSet_insert_spec s x :
  ns_shape s -> ns_in_range s -> bitmap_base s <= x < bitmap_base s + num_bits s ->
  exists s', NumberSet_insert x s = Ret s' /\ ns_shape s' /\
    bitmap_base s' = bitmap_base s /\ num_bits s' = num_bits s /\
    forall y, ns_mem s' y <-> y = x \/ ns_mem s y.
Proof.
  intros Hs [Hb Hm] Hx. pose proof Hs as (Hn & Hl & Hw). unfold NumberSet_insert.
  unfold N_add, N_sub, N_from. rewrite (N_wrap_pos k (num_bits s)) by lia.
  rewrite (N_wrap_pos k (_ + _)) by lia. rewrite (N_wrap_pos k (x - _)) by lia.
  rewrite (wrap_u_id 32) by bounds_lia. zcases; [lia..|].
  set (i := x - bitmap_base s).
  destruct (word_lookup s i Hs) as [w Hw']; [lia|]. rewrite Hw'.
  pose proof (Z.mod_pos_bound i 32).
  eexists. split; [done|]. split; [|split; [done|split; [done|]]].
  { split; [done|]. simpl. split; [by rewrite length_insert|].
    apply Forall_insert; [done|]. apply in_u_lor; [by eapply Forall_lookup_1|].
    rewrite Z.shiftl_1_l. split; [lia|]. apply Z.pow_lt_mono_r; lia. }
  intros y. unfold ns_mem; simpl. unfold ns_bit; simpl.
  destruct (decide (y = x)) as [->|Hne].
  { fold i. rewrite list_lookup_insert_eq by (by eapply lookup_lt_Some).
    rewrite Z.lor_spec, Z.shiftl_1_l, Z.pow2_bits_true, orb_true_r by lia. naive_solver. }
  destruct (decide (bitmap_base s <= y < bitmap_base s + num_bits s)) as [Hy|]; [|naive_solver].
  set (j := y - bitmap_base s).
  destruct (decide (j / 32 = i / 32)) as [E|Hd].
  - rewrite E, list_lookup_insert_eq by (by eapply lookup_lt_Some). rewrite Hw'.
    rewrite Z.lor_spec, Z.shiftl_1_l, Z.pow2_bits_false, orb_false_r; [naive_solver|].
    intros Hm'. apply Hne. pose proof (Z.div_mod j 32). pose proof (Z.div_mod i 32). lia.
  - assert (0 <= j / 32) by (apply Z.div_pos; lia). assert (0 <= i / 32) by (apply Z.div_pos; lia).
    rewrite list_lookup_insert_ne by lia. naive_solver.
Qed.

Lemma NumberSet_insert_all s l :
  ns_shape s -> ns_in_range s ->
  (forall x, x ∈ l -> bitmap_base s <= x < bitmap_base s + num_bits s) ->
  exists s', outcome_fold (fun sns x => NumberSet_insert x sns) s l = Ret s' /\ ns_shape s' /\
    bitmap_base s' = bitmap_base s /\ num_bits s' = num_bits s /\
    forall y, ns_mem s' y <-> y ∈ l \/ ns_mem s y.
Proof.
  revert s. induction l as [|x l IH]; intros s Hs Hr Hl; simpl.
  - exists s. split; [done|]. split; [done|]. split; [done|]. split; [done|]. set_solver.
  - destruct (NumberSet_insert_spec s x Hs Hr) as (s1 & -> & Hs1 & Hb1 & Hn1 & Hm1);
      [apply Hl; set_solver|]. simpl.
    destruct (IH s1 Hs1) as (s' & -> & Hs' & Hb' & Hn' & Hm').
    + by unfold ns_in_range; rewrite Hb1, Hn1.
    + intros y Hy. rewrite Hb1, Hn1. apply Hl. set_solver.
    + exists s'. split; [done|]. split; [done|]. split; [congruence|]. split; [congruence|].
      intros y. rewrite Hm', Hm1. set_solver.
Qed.

(** *** [from_base_and_set] *)

Lemma from_base_and_set_members base set start :
  1 <= base <= N_max k -> bs_first set = Some start -> (forall x, x ∈ set -> 1 <= x < N_max k) ->
  exists s, NumberSet_from_base_and_set base set = Ret s /\ ns_shape s /\ ns_in_range s /\
    bitmap_base s = Z.min base start /\
    forall x, ns_mem s x <-> x ∈ set /\ x <= Z.min base start + 255.
Proof.
  intros Hbase Hstart Hset. unfold NumberSet_from_base_and_set. rewrite Hstart.
  apply bs_first_Some in Hstart as [Hs1 Hs2].
  destruct (bs_last set) as [end_|] eqn:Hend.
  2: { unfold bs_last in Hend. apply last_None in Hend.
       pose proof (proj1 (bs_iter_None set) Hend) as ->. set_solver. }
  apply bs_last_Some in Hend as [He1 He2].
  assert (forall x, x ∈ set -> start <= x <= end_) as Hse.
  { intros x Hx. split; [apply (kle_Z start x), (Hs2 _ Hx)|apply (kle_Z x end_), (He2 _ Hx)]. }
  pose proof (Hset _ Hs1). pose proof (Hset _ He1). pose proof (Hse _ He1).
  assert (in_N k 1 /\ in_N k 255) as [? ?] by (destruct k; simpl; split; bounds_lia).
  replace (if start <? base then start else base) with (Z.min base start) by (zcases; lia).
  set (b := Z.min base start). unfold N_from.
  rewrite (N_wrap_id k 1), (N_wrap_id k 255) by done. destruct (Z.ltb_spec b 1); [lia|].
  assert (N_max k <= i64_max) by (destruct k; simpl; bounds_lia).
  rewrite (wrap_s_id 64) by bounds_lia.
  set (e := if 256 <=? end_ - b then N_add k b 255 else end_).
  assert (b <= e <= end_ /\ e - b <= 255 /\ forall x, x ∈ set -> x <= b + 255 -> x <= e) as (He & Hd & He').
  { unfold e, N_add. zcases; [rewrite N_wrap_pos by lia; split; [lia|]; split; [lia|]; lia|].
    split; [lia|]. split; [lia|]. intros x Hx _. apply Hse in Hx. lia. }
  unfold N_sub, N_add. rewrite (N_wrap_pos k (e - b)), N_wrap_pos by lia.
  rewrite (wrap_u_id 32) by bounds_lia.
  destruct (NumberSet_new_shape b (e - b + 1)) as [Hsh Hemp]; [lia|].
  destruct (NumberSet_insert_all (NumberSet_new b (e - b + 1))
              (filter (fun x => b <= x <= e) (bs_iter set))) as (s & -> & Hs & Hb & Hn & Hm).
  - done.
  - unfold ns_in_range; simpl. lia.
  - intros x [? _]%list_elem_of_filter. simpl. lia.
  - simpl in Hb, Hn. exists s. split; [done|]. split; [done|].
    split; [unfold ns_in_range; lia|]. split; [done|].
    intros x. rewrite Hm, list_elem_of_filter, elem_of_bs_iter. split.
    + intros [[? ?]|?%Hemp]; [|done]. split; [done|lia].
    + intros [Hx ?]. left. split; [|done]. split; [apply Hse in Hx; lia|auto].
Qed.
(** The same for a set, empty or not, with no element before the base. *)
Lemma from_base_and_set_above base set :
  1 <= base <= N_max k -> (forall x, x ∈ set -> base <= x < N_max k) ->
  exists s, NumberSet_from_base_and_set base set = Ret s /\ ns_shape s /\ ns_in_range s /\
    bitmap_base s = base /\ forall x, ns_mem s x <-> x ∈ set /\ x <= base + 255.
Proof.
  intros Hb Hset. destruct (bs_first set) as [start|] eqn:Hs.
  - destruct (from_base_and_set_members base set start Hb Hs) as (s & E & Hsh & Hr & Hbase & Hm).
    { intros x ?%Hset. lia. }
    apply bs_first_Some in Hs as [Hs _]. apply Hset in Hs. rewrite Z.min_l in Hbase, Hm by lia. by exists s.
  - unfold NumberSet_from_base_and_set. rewrite Hs. apply bs_first_None in Hs as ->.
    destruct (NumberSet_new_shape base 0 ltac:(lia)) as [Hsh Hemp]. eexists; split; [done|].
    split; [done|]. split; [unfold ns_in_range; simpl; lia|]. split; [done|].
    intros x. split; [intros ?%Hemp; done|set_solver].
Qed.
End number_set_facts.

(** *** The two ends of the iterator agree *)

Lemma ns_next_back_spec {k} fuel (s : NumberSet k) lo hi :
  ns_shape s -> 0 <= lo -> hi <= num_bits s -> (Z.to_nat (hi - lo) <= fuel)%nat ->
  exists it', NumberSetIter_next_back_loop fuel (Build_NumberSetIter s lo hi)
    = Ret (ns_number s <$> last (ns_bits_in s lo hi), it').
Proof.
  intros Hs Hlo. revert hi. induction fuel as [|fuel IH]; intros hi Hhi Hf; unfold ns_bits_in; simpl.
  - rewrite seqZ_nil by lia. zcases; [lia|by eauto].
  - destruct (Z.ltb_spec lo hi); [|rewrite seqZ_nil by lia; simpl; by eauto].
    rewrite have_one_spec by (done || lia). simpl.
    replace (hi - lo) with (hi - 1 - lo + 1) by lia.
    rewrite seqZ_app, filter_app by lia. rewrite (seqZ_cons _ 1), (seqZ_nil _ (Z.pred 1)) by lia.
    replace (lo + (hi - 1 - lo)) with (hi - 1) by lia. rewrite filter_cons, filter_nil.
    destruct (ns_bit s (hi - 1)).
    + rewrite decide_True by done. rewrite last_snoc. by eauto.
    + rewrite decide_False, app_nil_r by done. apply IH; lia.
Qed.

(** ** Properties *)

(** Building the bitmap that an ACKNACK or a GAP carries from a base and an
    ordered set of numbers never panics, and the result, read back with its own
    iterator, is exactly the requested numbers up to [base + 255] in ascending
    order (the base is lowered to the first element if that is smaller). *)
Theorem from_base_and_set_correct k base set start :
  1 <= base <= N_max k -> bs_first set = Some start -> (forall x, x ∈ set -> 1 <= x < N_max k) ->
  exists s : NumberSet k,
    NumberSet_from_base_and_set base set = Ret s /\
    NumberSet_base s = Z.min base start /\ num_bits s <= 256 /\
    NumberSet_to_list s = Ret (filter (fun x => x <= Z.min base start + 255) (bs_iter set)).
Proof.
  intros Hb Hs Hset.
  destruct (from_base_and_set_members base set start Hb Hs Hset) as (s & E & Hsh & Hr & Hbase & Hm).
  exists s. split; [done|]. split; [done|]. split; [apply Hsh|].
  destruct (NumberSet_to_list_members s Hsh Hr) as (l & -> & Hl & Hlm). f_equal.
  apply (sorted_ext Z.lt); [done| |].
  - apply StronglySorted_filter, bs_iter_sorted_Z.
  - intros x. rewrite Hlm, Hm, list_elem_of_filter, elem_of_bs_iter. tauto.
Qed.

Lemma from_base_and_set_correct_witness :
  exists s : NumberSet KSequence,
    NumberSet_from_base_and_set 2 {[3; 5; 300]} = Ret s /\
    NumberSet_base s = 2 /\ num_bits s <= 256 /\
    NumberSet_to_list s = Ret [3; 5].
Proof.
  destruct (from_base_and_set_correct KSequence 2 {[3; 5; 300]} 3) as (s & ? & ? & ? & H).
  - vm_compute. split; discriminate.
  - reflexivity.
  - intros x Hx. assert (x = 3 \/ x = 5 \/ x = 300) as Hc by set_solver.
    change (N_max KSequence) with 9223372036854775807. lia.
  - exists s. split; [done|]. split; [done|]. split; [done|]. rewrite H. reflexivity.
Defined.

Section serialization.
Context `{SP : Speedy, !SpeedyLaws SP}.

Lemma read_write_SequenceNumber e sn rest :
  in_s 64 sn -> SequenceNumber_read e (SequenceNumber_write e sn ++ rest) = Some (sn, rest).
Proof.
  intros Hsn. unfold SequenceNumber_read, SequenceNumber_write, mbind, reader_bind.
  rewrite <- app_assoc. rewrite read_write_i32 by (apply wrap_s_range; lia).
  rewrite read_write_u32 by (apply wrap_u_range; lia). unfold mret, reader_ret. do 2 f_equal.
  assert (in_s 32 (Z.shiftr sn 32)) as Hh.
  { rewrite Z.shiftr_div_pow2 by lia. unfold in_s in *. pow2. Z.to_euclidean_division_equations. lia. }
  rewrite (wrap_s_id 32) by (done || lia).
  rewrite (wrap_s_id 64 (Z.shiftl _ _)) by (lia || (rewrite Z.shiftl_mul_pow2 by lia; bounds_lia)).
  rewrite Z.shiftl_mul_pow2, Z.shiftr_div_pow2 by lia. unfold wrap_u.
  replace (sn / 2 ^ 32 * 2 ^ 32 + sn mod 2 ^ 32) with sn
    by (pose proof (Z.div_mod sn (2 ^ 32)); lia).
  apply wrap_s_id; (lia || done).
Qed.

Lemma read_write_N k e n rest : in_N k n -> N_read (k:=k) e (N_write (k:=k) e n ++ rest) = Some (n, rest).
Proof. destruct k; simpl; [apply read_write_SequenceNumber|apply read_write_u32]. Qed.

Lemma length_N_write k e n : Z.of_nat (length (N_write (k:=k) e n)) = N_size k.
Proof.
  destruct k; simpl; unfold SequenceNumber_write, write_i32, write_u32;
    rewrite ?length_app, ?sp_length; done.
Qed.

(** What [NumberSet_write] emits for a well-shaped set. *)
Lemma NumberSet_write_shape {k} e (s : NumberSet k) :
  ns_shape s ->
  NumberSet_write e s
  = N_write (k:=k) e (bitmap_base s) ++ write_u32 e (num_bits s) ++ concat (write_u32 e <$> bitmap s).
Proof.
  intros (Hn & Hl & _). unfold NumberSet_write. rewrite word_count_small by done.
  assert (0 <= (num_bits s + 31) / 32 < 2 ^ 32).
  { pow2. Z.to_euclidean_division_equations. lia. }
  rewrite Hl, (wrap_u_id 32) by done. rewrite Z.min_id, <- Hl, Nat2Z.id.
  by rewrite firstn_all.
Qed.

(** A number set written to the wire and read back is the same set, in either
    endianness, for every set the implementation constructs. *)
Lemma read_write_NumberSet k e (s : NumberSet k) rest :
  ns_shape s -> in_N k (bitmap_base s) ->
  NumberSet_read e (NumberSet_write e s ++ rest) = Some (s, rest).
Proof.
  intros Hs Hb. rewrite NumberSet_write_shape by done. unfold NumberSet_read, mbind, reader_bind.
  rewrite <- !app_assoc, read_write_N by done. destruct Hs as (Hn & Hl & Hw).
  rewrite read_write_u32 by bounds_lia.
  destruct (Z.ltb_spec 256 (num_bits s)); [lia|].
  rewrite word_count_small by done. rewrite <- Hl, Nat2Z.id.
  rewrite read_n_write; [by destruct s|].
  intros w r Hin. apply read_write_u32. by eapply Forall_forall in Hin.
Qed.

(** What the deserializers return is in range, whatever the bytes. *)
Lemma SequenceNumber_read_range e bs sn rest : SequenceNumber_read e bs = Some (sn, rest) -> in_s 64 sn.
Proof.
  unfold SequenceNumber_read, mbind, reader_bind. destruct (read_i32 e bs) as [[h bs1]|]; [|done].
  destruct (read_u32 e bs1) as [[l bs2]|]; [|done]. intros [= <- <-]. apply wrap_s_range; lia.
Qed.

Lemma NumberSet_read_ok k e bs (s : NumberSet k) rest :
  NumberSet_read e bs = Some (s, rest) -> ns_shape s /\ in_N k (bitmap_base s).
Proof.
  unfold NumberSet_read, mbind, reader_bind.
  destruct (N_read e bs) as [[b bs1]|] eqn:Eb; [|done].
  destruct (read_u32 e bs1) as [[n bs2]|] eqn:En; [|done]. apply read_u32_range in En.
  destruct (Z.ltb_spec 256 n); [done|]. destruct (read_n _ _ bs2) as [[ws bs3]|] eqn:Ew; [|done].
  intros [= <- <-]. apply (read_n_Some (in_u 32)) in Ew as [Hlen Hws];
    [|intros ??? ?%read_u32_range; done].
  rewrite word_count_small in Hlen by bounds_lia. split.
  - split; simpl; [bounds_lia|]. split; [|done]. rewrite Hlen, Z2Nat.id; [done|]. apply Z.div_pos; bounds_lia.
  - destruct k; simpl in *; [by eapply SequenceNumber_read_range|by eapply read_u32_range].
Qed.

(** A number set accepted from the wire has at most 256 bits, a bitmap of the
    matching length, and iterating over it neither panics nor loops, whatever
    the sender put into it. *)
Theorem number_set_read_safe k e bs (s : NumberSet k) rest :
  NumberSet_read e bs = Some (s, rest) ->
  num_bits s <= 256 /\ Z.of_nat (length (bitmap s)) = (num_bits s + 31) / 32 /\
  exists l, NumberSet_to_list s = Ret l.
Proof.
  intros [Hs _]%NumberSet_read_ok. destruct (Hs) as (? & ? & ?). split; [lia|]. split; [done|].
  eexists. by apply NumberSet_to_list_spec.
Qed.

(** The length field of a submessage agrees with what is written. *)
Lemma NumberSet_len_serialized_correct {k} e (s : NumberSet k) :
  ns_shape s -> Z.of_nat (length (NumberSet_write e s)) = NumberSet_len_serialized s.
Proof.
  intros Hs. rewrite NumberSet_write_shape by done. unfold NumberSet_len_serialized.
  destruct Hs as (_ & <- & _). rewrite !length_app, !Nat2Z.inj_add, length_N_write.
  assert (forall ws, Z.of_nat (length (concat (write_u32 e <$> ws))) = 4 * Z.of_nat (length ws)) as ->.
  { induction ws as [|w ws IH]; csimpl; [done|]. unfold write_u32 at 1.
    rewrite length_app, sp_length. lia. }
  unfold write_u32. rewrite sp_length. lia.
Qed.
End serialization.

Lemma number_set_read_safe_witness :
  let s : FragmentNumberSet := {| bitmap_base := 1000; num_bits := 14; bitmap := [0x5AA40000] |} in
  num_bits s <= 256 /\ Z.of_nat (length (bitmap s)) = (num_bits s + 31) / 32 /\
  exists l, NumberSet_to_list s = Ret l.
Proof.
  apply (number_set_read_safe (SP:=std_speedy) KFragment LittleEndian
    [0xE8; 0x03; 0; 0; 0x0E; 0; 0; 0; 0; 0; 0xA4; 0x5A] _ []). reflexivity.
Defined.

(** Byte-exact encodings, as the unit tests of the source list them. *)
Example sequence_number_unknown_le :
  SequenceNumber_write (S:=std_speedy) LittleEndian SEQUENCENUMBER_UNKNOWN
  = [0xFF; 0xFF; 0xFF; 0xFF; 0; 0; 0; 0].
Proof. reflexivity. Qed.

Example sequence_number_non_zero_be :
  SequenceNumber_write (S:=std_speedy) BigEndian 0x0011223344556677
  = [0; 0x11; 0x22; 0x33; 0x44; 0x55; 0x66; 0x77].
Proof. reflexivity. Qed.

Example fragment_number_set_manual_be :
  (s ← outcome_fold (fun s x => NumberSet_insert x s) (@NumberSet_new KFragment 1000 14)
        [1001; 1003; 1004; 1006; 1008; 1010; 1013];
   Ret (NumberSet_write (S:=std_speedy) BigEndian s))
  = Ret [0; 0; 0x03; 0xE8; 0; 0; 0; 0x0E; 0x5A; 0xA4; 0; 0].
Proof. reflexivity. Qed.
