(* ===== verification/Time.v ===== *)
(** * Time stamps and durations

    [src/structure/time.rs] and [src/structure/duration.rs].  Both types are a
    32-bit second count and a 32-bit binary fraction; arithmetic goes through a
    64-bit tick count of 2^-32 s.  The conversions through [f64] are not
    modelled. *)

From S2P Require Import Prelude BTree.

(** ** Duration *)

Record Duration := mkDuration { d_seconds : Z; d_fraction : Z }.

Definition Duration_ZERO : Duration := mkDuration 0 0.
Definition Duration_INFINITE : Duration := mkDuration 0x7FFFFFFF 0xFFFFFFFF.
Definition Duration_from_secs (secs : Z) : Duration := mkDuration secs 0.

(** Rust's [/] and [%] on signed integers truncate towards zero. *)
Definition Duration_from_millis (millis : Z) : Duration :=
  let fraction := u32 (Z.quot (i64 (Z.shiftl (Z.rem millis 1000) 32)) 1000) in
  mkDuration (i32 (Z.quot millis 1000)) fraction.

Definition Duration_from_nanos (nanos : Z) : Duration :=
  let fraction := u32 (Z.quot (i64 (Z.shiftl (Z.rem nanos 1000000000) 32)) 1000000000) in
  mkDuration (i32 (Z.quot nanos 1000000000)) fraction.

Definition Duration_to_ticks (d : Duration) : Z := i64 (i64 (Z.shiftl (d_seconds d) 32) + d_fraction d).
Definition Duration_from_ticks (ticks : Z) : Duration :=
  mkDuration (i32 (Z.shiftr ticks 32)) (u32 ticks).
(** The product is computed in [i128], where it cannot overflow. *)
Definition Duration_to_nanoseconds (d : Duration) : Z :=
  i64 (Z.shiftr (Duration_to_ticks d * 1000000000) 32).

(** [std::time::Duration] as its whole seconds (u64) and nanoseconds below 10^9. *)
Definition Duration_from_std (secs nanos : Z) : Duration :=
  mkDuration (i32 secs) (u32 (u64 (Z.shiftl nanos 32) / 1000000000)).
(** The nanosecond count handed to [std::time::Duration::from_nanos]. *)
Definition Duration_to_std_nanos (d : Duration) : Z :=
  let n := Duration_to_nanoseconds d in if n <? 0 then 0 else n.

Definition Duration_div (d : Duration) (rhs : Z) : outcome Duration :=
  if rhs =? 0 then Panic "attempt to divide by zero"
  else if (rhs =? -1) && (Duration_to_ticks d =? i64_min) then Panic "attempt to divide with overflow"
  else Ret (Duration_from_ticks (Z.quot (Duration_to_ticks d) rhs)).

Definition Duration_add (a b : Duration) : Duration :=
  Duration_from_ticks (i64 (Duration_to_ticks a + Duration_to_ticks b)).

(** ** Timestamp *)

Record Timestamp := mkTimestamp { t_seconds : Z; t_fraction : Z }.

Definition Timestamp_ZERO : Timestamp := mkTimestamp 0 0.
Definition Timestamp_INVALID : Timestamp := mkTimestamp 0xFFFFFFFF 0xFFFFFFFF.
Definition Timestamp_INFINITE : Timestamp := mkTimestamp 0x7FFFFFFF 0xFFFFFFFF.

Definition Timestamp_to_ticks (t : Timestamp) : Z := u64 (u64 (Z.shiftl (t_seconds t) 32) + t_fraction t).
Definition Timestamp_from_ticks (ticks : Z) : Timestamp :=
  mkTimestamp (u32 (Z.shiftr ticks 32)) (u32 ticks).
Definition Timestamp_from_nanos (nanos : Z) : Timestamp :=
  mkTimestamp (u32 (nanos / 1000000000))
              (u32 (u64 (Z.shiftl (nanos mod 1000000000) 32) / 1000000000)).

(** [TryFrom<DateTime<Utc>>]: [timestamp_nanos_opt()] of the chrono date, [None]
    when it does not fit an [i64].  The error is the message. *)
Definition Timestamp_try_from (timestamp_nanos_opt : option Z) : Timestamp + string :=
  match timestamp_nanos_opt with
  | None => inr "Timestamp out of range."%string
  | Some n => if n <? 0 then inr "Timestamp out of range (negative)."%string
              else inl (Timestamp_from_nanos (u64 n))
  end.

(** [Timestamp::now()], for a given reading of the system clock. *)
Definition Timestamp_now (utc_now : option Z) : Timestamp :=
  match Timestamp_try_from utc_now with inl t => t | inr _ => Timestamp_INVALID end.

#[export] Instance Duration_eq_dec : EqDecision Duration.
Proof. solve_decision. Defined.
#[export] Instance Timestamp_eq_dec : EqDecision Timestamp.
Proof. solve_decision. Defined.
#[export] Instance Timestamp_countable : Countable Timestamp.
Proof.
  apply (inj_countable' (fun t => (t_seconds t, t_fraction t)) (fun '(s, f) => mkTimestamp s f)).
  by intros [].
Defined.

(** [#[derive(Ord)]]: seconds first, then the fraction. *)
#[export] Instance Timestamp_ord : OrdKey Timestamp.
Proof. apply (ord_inj (fun t => (t_seconds t, t_fraction t))). by intros [] [] [= -> ->]. Defined.
#[export] Instance Duration_ord : OrdKey Duration.
Proof. apply (ord_inj (fun d => (d_seconds d, d_fraction d))). by intros [] [] [= -> ->]. Defined.

(** [impl Sub for Timestamp] *)
Definition Timestamp_sub (a b : Timestamp) : Duration :=
  Duration_from_ticks (i64 (u64 (Timestamp_to_ticks a - Timestamp_to_ticks b))).
Definition Timestamp_duration_since (self since : Timestamp) : Duration := Timestamp_sub self since.

(** [impl Sub<Duration> for Timestamp] *)
Definition Timestamp_sub_duration (t : Timestamp) (d : Duration) : Timestamp :=
  if decide (t = Timestamp_INVALID) then Timestamp_INVALID
  else
    let stamp_ticks := i64 (Timestamp_to_ticks t) in
    let new_stamp_ticks := i64 (stamp_ticks - Duration_to_ticks d) in
    Timestamp_from_ticks (u64 new_stamp_ticks).

(** [impl Add<Duration> for Timestamp] *)
Definition Timestamp_add_duration (t : Timestamp) (d : Duration) : Timestamp :=
  Timestamp_from_ticks (u64 (Timestamp_to_ticks t + u64 (Duration_to_ticks d))).

(** ** Well-formedness: the fields fit their machine types *)

Definition Timestamp_ok (t : Timestamp) : Prop := in_u 32 (t_seconds t) /\ in_u 32 (t_fraction t).
Definition Duration_ok (d : Duration) : Prop := in_s 32 (d_seconds d) /\ in_u 32 (d_fraction d).

(** ** Ticks *)

Lemma Timestamp_to_ticks_eq t :
  Timestamp_ok t -> Timestamp_to_ticks t = t_seconds t * 2 ^ 32 + t_fraction t.
Proof.
  intros [? ?]. unfold Timestamp_to_ticks. rewrite Z.shiftl_mul_pow2 by lia.
  rewrite (wrap_u_id 64 (_ * _)) by bounds_lia. apply wrap_u_id; bounds_lia.
Qed.

Lemma Duration_to_ticks_eq d :
  Duration_ok d -> Duration_to_ticks d = d_seconds d * 2 ^ 32 + d_fraction d.
Proof.
  intros [? ?]. unfold Duration_to_ticks. rewrite Z.shiftl_mul_pow2 by lia.
  rewrite (wrap_s_id 64 (_ * _)) by bounds_lia. apply wrap_s_id; bounds_lia.
Qed.

Lemma Timestamp_ticks_range t : Timestamp_ok t -> in_u 64 (Timestamp_to_ticks t).
Proof. intros H. rewrite Timestamp_to_ticks_eq by done. destruct H. bounds_lia. Qed.

Lemma Duration_ticks_range d : Duration_ok d -> in_s 64 (Duration_to_ticks d).
Proof. intros H. rewrite Duration_to_ticks_eq by done. destruct H. bounds_lia. Qed.

Lemma Timestamp_from_to_ticks t : Timestamp_ok t -> Timestamp_from_ticks (Timestamp_to_ticks t) = t.
Proof.
  intros H. rewrite Timestamp_to_ticks_eq by done. destruct H as [Hs Hf], t as [s f]; simpl in *.
  unfold Timestamp_from_ticks. rewrite Z.shiftr_div_pow2 by lia.
  rewrite Z.div_add_l, Z.div_small, Z.add_0_r by (done || lia).
  rewrite (wrap_u_id 32 s) by done. unfold wrap_u. f_equal.
  rewrite Z.add_comm, Z_mod_plus_full. by apply Z.mod_small.
Qed.

Lemma Timestamp_to_from_ticks n :
  in_u 64 n -> Timestamp_to_ticks (Timestamp_from_ticks n) = n /\ Timestamp_ok (Timestamp_from_ticks n).
Proof.
  intros Hn. assert (Timestamp_ok (Timestamp_from_ticks n)) as Hok
    by (split; apply wrap_u_range; lia).
  split; [|done]. rewrite Timestamp_to_ticks_eq by done. simpl.
  rewrite Z.shiftr_div_pow2 by lia.
  rewrite (wrap_u_id 32 (_ / _)) by (unfold in_u in *; pow2; Z.to_euclidean_division_equations; lia).
  unfold wrap_u. pose proof (Z.div_mod n (2 ^ 32)). lia.
Qed.

Lemma Duration_to_from_ticks n :
  in_s 64 n -> Duration_to_ticks (Duration_from_ticks n) = n /\ Duration_ok (Duration_from_ticks n).
Proof.
  intros Hn. assert (Duration_ok (Duration_from_ticks n)) as Hok
    by (split; [apply wrap_s_range|apply wrap_u_range]; lia).
  split; [|done]. rewrite Duration_to_ticks_eq by done. simpl.
  rewrite Z.shiftr_div_pow2 by lia.
  rewrite (wrap_s_id 32 (_ / _)) by (unfold in_s in *; simpl Z.sub; pow2; Z.to_euclidean_division_equations; lia).
  unfold wrap_u. pose proof (Z.div_mod n (2 ^ 32)). lia.
Qed.

(** The derived order is the order of the tick counts. *)
Lemma Timestamp_lt_ticks a b :
  Timestamp_ok a -> Timestamp_ok b -> klt a b <-> Timestamp_to_ticks a < Timestamp_to_ticks b.
Proof.
  intros Ha Hb. rewrite !Timestamp_to_ticks_eq by done. destruct Ha as [? ?], Hb as [? ?].
  unfold klt; simpl. destruct (Z.compare_spec (t_seconds a) (t_seconds b)) as [E|?|?].
  - rewrite Z.compare_lt_iff. bounds_lia.
  - split; [bounds_lia|done].
  - split; [done|bounds_lia].
Qed.

Lemma Duration_lt_ticks a b :
  Duration_ok a -> Duration_ok b -> klt a b <-> Duration_to_ticks a < Duration_to_ticks b.
Proof.
  intros Ha Hb. rewrite !Duration_to_ticks_eq by done. destruct Ha as [? ?], Hb as [? ?].
  unfold klt; simpl. destruct (Z.compare_spec (d_seconds a) (d_seconds b)) as [E|?|?].
  - rewrite Z.compare_lt_iff. bounds_lia.
  - split; [bounds_lia|done].
  - split; [done|bounds_lia].
Qed.

Lemma Timestamp_now_ok n : Timestamp_ok (Timestamp_now n).
Proof.
  unfold Timestamp_now, Timestamp_try_from. destruct n as [n|]; [destruct (Z.ltb n 0)|].
  2: split; apply wrap_u_range; lia.
  all: split; simpl; bounds_lia.
Qed.

(** ** Properties *)

(** Time stamp arithmetic is exact although it is computed in wrapping 64-bit
    ticks: adding to [b] the duration from [b] to [a] gives [a], and subtracting
    it from [a] gives [b], for all valid time stamps in whatever order. *)
Theorem timestamp_arithmetic a b :
  Timestamp_ok a -> Timestamp_ok b -> a <> Timestamp_INVALID ->
  Timestamp_add_duration b (Timestamp_duration_since a b) = a /\
  Timestamp_sub_duration a (Timestamp_duration_since a b) = b.
Proof.
  intros Ha Hb Hv. unfold Timestamp_duration_since, Timestamp_add_duration, Timestamp_sub_duration, Timestamp_sub.
  set (A := Timestamp_to_ticks a). set (B := Timestamp_to_ticks b).
  destruct (Duration_to_from_ticks (i64 (u64 (A - B)))) as [-> _]; [apply wrap_s_range; lia|].
  rewrite decide_False by done. split.
  - rewrite wrap_u_wrap_s, wrap_u_idem, wrap_u_add_r by lia.
    replace (B + (A - B)) with A by lia. rewrite wrap_u_id by by apply Timestamp_ticks_range.
    by apply Timestamp_from_to_ticks.
  - rewrite wrap_u_wrap_s, wrap_u_sub_s by lia. unfold wrap_u. rewrite Zminus_mod_idemp_r.
    replace (A - (A - B)) with B by lia. rewrite Z.mod_small by by apply Timestamp_ticks_range.
    by apply Timestamp_from_to_ticks.
Qed.

Lemma timestamp_arithmetic_witness :
  let a := mkTimestamp 5 7 in let b := mkTimestamp 0xFFFFFFFF 9 in
  Timestamp_add_duration b (Timestamp_duration_since a b) = a /\
  Timestamp_sub_duration a (Timestamp_duration_since a b) = b.
Proof.
  apply timestamp_arithmetic.
  - split; vm_compute; split; (discriminate || reflexivity).
  - split; vm_compute; split; (discriminate || reflexivity).
  - discriminate.
Defined.

(** [Duration::from_millis] is exact to one tick for non-negative
    arguments: the tick count is the milliseconds scaled by 2^32/1000 and
    rounded down.  For a negative sub-second argument the sign is lost: the
    result is the positive duration that lacks the argument's size to a second. *)
Theorem duration_from_millis_ticks ms :
  0 <= ms < 1000 * 2 ^ 31 ->
  Duration_to_ticks (Duration_from_millis ms) = ms * 2 ^ 32 / 1000 /\
  (0 < ms < 1000 ->
   Duration_to_ticks (Duration_from_millis (- ms)) = 2 ^ 32 - ms * 2 ^ 32 / 1000).
Proof.
  intros Hms. unfold Duration_from_millis. split.
  - rewrite Z.rem_mod_nonneg, !Z.quot_div_nonneg by
      (rewrite ?Z.shiftl_mul_pow2; unfold wrap_s; pow2; Z.to_euclidean_division_equations; lia).
    rewrite Z.shiftl_mul_pow2 by lia.
    rewrite (wrap_s_id 64) by (unfold in_s; simpl Z.sub; pow2; Z.to_euclidean_division_equations; lia).
    rewrite (wrap_s_id 32) by (unfold in_s; simpl Z.sub; pow2; Z.to_euclidean_division_equations; lia).
    rewrite (wrap_u_id 32) by (unfold in_u; pow2; Z.to_euclidean_division_equations; lia).
    rewrite Duration_to_ticks_eq by (split; simpl; unfold in_u, in_s; simpl Z.sub; pow2;
      Z.to_euclidean_division_equations; lia).
    simpl d_seconds; simpl d_fraction. pow2. Z.to_euclidean_division_equations. lia.
  - intros Hs. rewrite Z.rem_opp_l, Z.quot_opp_l, Z.rem_small, Z.quot_small by lia.
    rewrite Z.shiftl_mul_pow2 by lia. rewrite (wrap_s_id 64) by bounds_lia.
    rewrite (Z.mul_opp_l ms), Z.quot_opp_l, Z.quot_div_nonneg by lia.
    assert (u32 (- (ms * 2 ^ 32 / 1000)) = 2 ^ 32 - ms * 2 ^ 32 / 1000) as ->.
    { unfold wrap_u. symmetry. apply (Z.mod_unique_pos _ _ (-1)); pow2; Z.to_euclidean_division_equations; lia. }
    rewrite (wrap_s_id 32) by bounds_lia.
    rewrite Duration_to_ticks_eq by (split; simpl; unfold in_u, in_s; simpl Z.sub; pow2;
      Z.to_euclidean_division_equations; lia).
    simpl. lia.
Qed.

Lemma duration_from_millis_ticks_witness :
  Duration_to_ticks (Duration_from_millis 500) = 500 * 2 ^ 32 / 1000 /\
  (0 < 500 < 1000 ->
   Duration_to_ticks (Duration_from_millis (- 500)) = 2 ^ 32 - 500 * 2 ^ 32 / 1000).
Proof. apply duration_from_millis_ticks. lia. Defined.
