(* ===== verification/Guid.v ===== *)
(** * Identifiers

    [src/structure/guid.rs]: the 12-byte participant prefix, the 4-byte entity
    id, their pair the GUID with its lexicographic order, and the encoding of
    entity ids as poll tokens. *)

From S2P Require Import Prelude BTree.

Record GuidPrefix := mkPrefix { prefix_bytes : list Z }.

Record EntityId := mkEntityId { entity_key : Z * Z * Z; entity_kind : Z }.

Record GUID := mkGUID { prefix : GuidPrefix; entity_id : EntityId }.

#[export] Instance GuidPrefix_eq_dec : EqDecision GuidPrefix.
Proof. solve_decision. Defined.
#[export] Instance EntityId_eq_dec : EqDecision EntityId.
Proof. solve_decision. Defined.
#[export] Instance GUID_eq_dec : EqDecision GUID.
Proof. solve_decision. Defined.
#[export] Instance GuidPrefix_countable : Countable GuidPrefix.
Proof. apply (inj_countable' prefix_bytes mkPrefix). by intros []. Defined.
#[export] Instance EntityId_countable : Countable EntityId.
Proof. apply (inj_countable' (fun e => (entity_key e, entity_kind e)) (fun '(k, d) => mkEntityId k d)). by intros []. Defined.
#[export] Instance GUID_countable : Countable GUID.
Proof. apply (inj_countable' (fun g => (prefix g, entity_id g)) (fun '(p, e) => mkGUID p e)). by intros []. Defined.

#[export] Instance GuidPrefix_ord : OrdKey GuidPrefix.
Proof. apply (ord_inj prefix_bytes). by intros [] [] [= ->]. Defined.
#[export] Instance EntityId_ord : OrdKey EntityId.
Proof. apply (ord_inj (fun e => (entity_key e, entity_kind e))). by intros [] [] [= -> ->]. Defined.
#[export] Instance GUID_ord : OrdKey GUID.
Proof. apply (ord_inj (fun g => (prefix g, entity_id g))). by intros [] [] [= -> ->]. Defined.

(** ** GuidPrefix *)

Definition GuidPrefix_UNKNOWN : GuidPrefix := mkPrefix (replicate 12 0).

(** The first 12 bytes given, padded with zeroes. *)
Definition GuidPrefix_new (p : list Z) : GuidPrefix :=
  mkPrefix (take 12 p ++ replicate (12 - length p) 0).

(** ** EntityKind *)

Definition UNKNOWN_USER_DEFINED : Z := 0x00.
Definition WRITER_WITH_KEY_USER_DEFINED : Z := 0x02.
Definition WRITER_NO_KEY_USER_DEFINED : Z := 0x03.
Definition READER_NO_KEY_USER_DEFINED : Z := 0x04.
Definition READER_WITH_KEY_USER_DEFINED : Z := 0x07.
Definition PARTICIPANT_BUILT_IN : Z := 0xC1.
Definition WRITER_WITH_KEY_BUILT_IN : Z := 0xC2.
Definition WRITER_NO_KEY_BUILT_IN : Z := 0xC3.
Definition READER_NO_KEY_BUILT_IN : Z := 0xC4.
Definition READER_WITH_KEY_BUILT_IN : Z := 0xC7.

Definition EntityKind_is_reader (k : Z) : bool :=
  let e := Z.land k 0x0F in (e =? 0x04) || (e =? 0x07) || (e =? 0x09).
Definition EntityKind_is_writer (k : Z) : bool :=
  let e := Z.land k 0x0F in (e =? 0x02) || (e =? 0x03) || (e =? 0x08).
Definition EntityKind_is_built_in (k : Z) : bool := Z.land k 0xF0 =? 0xC0.
Definition EntityKind_is_user_defined (k : Z) : bool := Z.land k 0xF0 =? 0x00.

(** ** EntityId *)

Definition EntityId_UNKNOWN : EntityId := mkEntityId (0, 0, 0) UNKNOWN_USER_DEFINED.
Definition EntityId_PARTICIPANT : EntityId := mkEntityId (0, 0, 1) PARTICIPANT_BUILT_IN.
Definition SEDP_BUILTIN_TOPIC_WRITER : EntityId := mkEntityId (0, 0, 2) WRITER_WITH_KEY_BUILT_IN.
Definition SEDP_BUILTIN_TOPIC_READER : EntityId := mkEntityId (0, 0, 2) READER_WITH_KEY_BUILT_IN.
Definition SEDP_BUILTIN_PUBLICATIONS_WRITER : EntityId := mkEntityId (0, 0, 3) WRITER_WITH_KEY_BUILT_IN.
Definition SEDP_BUILTIN_PUBLICATIONS_READER : EntityId := mkEntityId (0, 0, 3) READER_WITH_KEY_BUILT_IN.
Definition SEDP_BUILTIN_SUBSCRIPTIONS_WRITER : EntityId := mkEntityId (0, 0, 4) WRITER_WITH_KEY_BUILT_IN.
Definition SEDP_BUILTIN_SUBSCRIPTIONS_READER : EntityId := mkEntityId (0, 0, 4) READER_WITH_KEY_BUILT_IN.
Definition SPDP_BUILTIN_PARTICIPANT_WRITER : EntityId := mkEntityId (0, 1, 0) WRITER_WITH_KEY_BUILT_IN.
Definition SPDP_BUILTIN_PARTICIPANT_READER : EntityId := mkEntityId (0, 1, 0) READER_WITH_KEY_BUILT_IN.
Definition P2P_BUILTIN_PARTICIPANT_MESSAGE_WRITER : EntityId := mkEntityId (0, 2, 0) WRITER_WITH_KEY_BUILT_IN.
Definition P2P_BUILTIN_PARTICIPANT_MESSAGE_READER : EntityId := mkEntityId (0, 2, 0) READER_WITH_KEY_BUILT_IN.
Definition P2P_BUILTIN_PARTICIPANT_STATELESS_WRITER : EntityId := mkEntityId (0, 2, 1) WRITER_NO_KEY_BUILT_IN.
Definition P2P_BUILTIN_PARTICIPANT_STATELESS_READER : EntityId := mkEntityId (0, 2, 1) READER_NO_KEY_BUILT_IN.
Definition P2P_BUILTIN_PARTICIPANT_VOLATILE_SECURE_WRITER : EntityId :=
  mkEntityId (0xff, 0x02, 0x02) WRITER_NO_KEY_BUILT_IN.
Definition P2P_BUILTIN_PARTICIPANT_VOLATILE_SECURE_READER : EntityId :=
  mkEntityId (0xff, 0x02, 0x02) READER_NO_KEY_BUILT_IN.
Definition EntityId_MIN : EntityId := mkEntityId (0, 0, 0) 0x00.
Definition EntityId_MAX : EntityId := mkEntityId (0xFF, 0xFF, 0xFF) 0xFF.

Definition EntityId_as_usize (e : EntityId) : Z :=
  let '(u1, u2, u3) := entity_key e in
  Z.lor (Z.lor (Z.lor (u32 (Z.shiftl u1 24)) (u32 (Z.shiftl u2 16))) (u32 (Z.shiftl u3 8))) (entity_kind e).

Definition EntityId_from_usize (number : Z) : EntityId :=
  let u4 := u8 (Z.land number 0xFF) in
  let u3 := u8 (Z.land (Z.shiftr number 8) 0xFF) in
  let u2 := u8 (Z.land (Z.shiftr number 16) 0xFF) in
  let u1 := u8 (Z.land (Z.shiftr number 24) 0xFF) in
  mkEntityId (u1, u2, u3) u4.

Inductive TokenDecode :=
| TEntity (e : EntityId)
| TAltEntity (e : EntityId)
| TFixedToken (t : Z).

Definition EntityId_as_token (e : EntityId) : outcome Z :=
  let u := EntityId_as_usize e in
  _ ← rust_assert (Z.ldiff u 0x20 =? u) "check bit 5 is zero";
  Ret u.

Definition EntityId_as_alt_token (e : EntityId) : Z := Z.lor (EntityId_as_usize e) 0x20.

Definition EntityId_from_token (t : Z) : TokenDecode :=
  let n := u8 (Z.land t 0xF0) in
  if (n =? 0x00) || (n =? 0xC0) then TEntity (EntityId_from_usize t)
  else if (n =? 0x20) || (n =? 0xE0) then TAltEntity (EntityId_from_usize (Z.ldiff t 0x20))
  else TFixedToken t.

Definition EntityId_to_slice (e : EntityId) : list Z :=
  let '(u1, u2, u3) := entity_key e in [u1; u2; u3; entity_kind e].

Definition EntityId_from_slice (bs : list Z) : outcome EntityId :=
  match bs with
  | [a; b; c; d] => Ret (mkEntityId (a, b, c) d)
  | _ => Panic "array length"
  end.

(** ** GUID *)

Definition GUID_UNKNOWN : GUID := mkGUID GuidPrefix_UNKNOWN EntityId_UNKNOWN.
Definition GUID_new (p : GuidPrefix) (e : EntityId) : GUID := mkGUID p e.
Definition GUID_from_prefix (g : GUID) (e : EntityId) : GUID := mkGUID (prefix g) e.

Definition GUID_to_bytes (g : GUID) : list Z :=
  prefix_bytes (prefix g) ++ EntityId_to_slice (entity_id g).

Definition GUID_from_bytes (bs : list Z) : outcome GUID :=
  e ← EntityId_from_slice (take 4 (drop 12 bs));
  Ret (mkGUID (mkPrefix (take 12 bs)) e).

(** [GuidPrefix::range]: all GUIDs from the least to the greatest entity id. *)
Definition GuidPrefix_range (p : GuidPrefix) : GUID * GUID :=
  (GUID_new p EntityId_MIN, GUID_new p EntityId_MAX).
Definition in_range (r : GUID * GUID) (g : GUID) : Prop := kle r.1 g /\ kle g r.2.
#[export] Instance in_range_dec r g : Decision (in_range r g).
Proof. unfold in_range. apply _. Defined.

(** ** Validity: the components are bytes *)

Definition EntityId_ok (e : EntityId) : Prop :=
  let '(u1, u2, u3) := entity_key e in
  in_u 8 u1 /\ in_u 8 u2 /\ in_u 8 u3 /\ in_u 8 (entity_kind e).
Definition GUID_ok (g : GUID) : Prop :=
  length (prefix_bytes (prefix g)) = 12%nat /\ EntityId_ok (entity_id g).

Lemma kle_pair_r {A} `{OrdKey A} {B} `{OrdKey B} (a a' : A) (b b' : B) :
  kle a a' -> (a = a' -> kle b b') -> kle (a, b) (a', b').
Proof.
  intros Ha Hb. unfold kle in *; simpl. destruct (kcmp a a') eqn:E; [|done|done].
  apply kcmp_eq in E. auto.
Qed.

Lemma EntityId_bounds e : EntityId_ok e -> kle EntityId_MIN e /\ kle e EntityId_MAX.
Proof.
  destruct e as [[[u1 u2] u3] d]. unfold EntityId_ok, in_u; simpl. intros (H1 & H2 & H3 & H4).
  split.
  - change (kle (0, 0, 0, 0) (u1, u2, u3, d)).
    repeat (apply kle_pair_r; intros; [|apply kle_Z; pow2; lia]). apply kle_Z; pow2; lia.
  - change (kle (u1, u2, u3, d) (255, 255, 255, 255)).
    repeat (apply kle_pair_r; intros; [|apply kle_Z; pow2; lia]). apply kle_Z; pow2; lia.
Qed.

(** The GUIDs in the range of a prefix are those with that prefix. *)
Lemma in_prefix_range p g : GUID_ok g -> in_range (GuidPrefix_range p) g <-> prefix g = p.
Proof.
  intros [_ He]. destruct (EntityId_bounds _ He) as [Hmin Hmax]. destruct g as [q e]; simpl in *.
  split.
  - intros [H1 H2]. unfold kle in H1, H2. cbn in H1, H2.
    change (list_cmp (prefix_bytes p) (prefix_bytes q)) with (kcmp p q) in H1.
    change (list_cmp (prefix_bytes q) (prefix_bytes p)) with (kcmp q p) in H2.
    rewrite (kcmp_antisym p q) in H2. destruct (kcmp p q) eqn:E; simpl in *; [|done..].
    symmetry. exact (proj1 (kcmp_eq p q) E).
  - intros ->. split; (apply (kle_pair_r (A:=GuidPrefix) (B:=EntityId)); [done|auto]).
Qed.

(** ** Tokens *)

(** Disjoint bit fields add. *)
Lemma lor_field q r n : 0 <= n -> 0 <= r < 2 ^ n -> Z.lor (q * 2 ^ n) r = q * 2 ^ n + r.
Proof.
  intros Hn Hr. rewrite <- Z.add_lor_land.
  enough (Z.land (q * 2 ^ n) r = 0) as -> by lia.
  rewrite <- Z.shiftl_mul_pow2 by done. apply Z.bits_inj'. intros i Hi.
  rewrite Z.land_spec, Z.bits_0. destruct (Z.lt_ge_cases i n); [by rewrite Z.shiftl_spec_low|].
  replace (Z.testbit r i) with false; [by rewrite andb_false_r|].
  symmetry. destruct (decide (r = 0)) as [->|]; [apply Z.bits_0|].
  apply Z.bits_above_log2; [lia|]. apply Z.log2_lt_pow2; [lia|].
  eapply Z.lt_le_trans; [apply Hr|]. by apply Z.pow_le_mono_r.
Qed.

Definition EntityId_value (e : EntityId) : Z :=
  let '(u1, u2, u3) := entity_key e in (u1 * 2 ^ 16 + u2 * 2 ^ 8 + u3) * 2 ^ 8 + entity_kind e.

Lemma EntityId_as_usize_value e : EntityId_ok e -> EntityId_as_usize e = EntityId_value e.
Proof.
  destruct e as [[[u1 u2] u3] k]. unfold EntityId_ok, EntityId_as_usize, EntityId_value; simpl.
  intros (H1 & H2 & H3 & H4). rewrite !Z.shiftl_mul_pow2 by lia.
  rewrite !(wrap_u_id 32) by bounds_lia.
  rewrite (lor_field u1 (u2 * 2 ^ 16) 24) by bounds_lia.
  replace (u1 * 2 ^ 24 + u2 * 2 ^ 16) with ((u1 * 2 ^ 8 + u2) * 2 ^ 16) by lia.
  rewrite (lor_field _ (u3 * 2 ^ 8) 16) by bounds_lia.
  replace ((u1 * 2 ^ 8 + u2) * 2 ^ 16 + u3 * 2 ^ 8) with ((u1 * 2 ^ 16 + u2 * 2 ^ 8 + u3) * 2 ^ 8) by lia.
  apply lor_field; bounds_lia.
Qed.

Lemma EntityId_from_usize_value e : EntityId_ok e -> EntityId_from_usize (EntityId_value e) = e.
Proof.
  destruct e as [[[u1 u2] u3] k]. unfold EntityId_ok, EntityId_from_usize, EntityId_value; simpl.
  intros (H1 & H2 & H3 & H4). change 255 with (Z.ones 8).
  rewrite !Z.land_ones, !Z.shiftr_div_pow2 by lia. fold (u8 k).
  assert (forall x, u8 (x mod 2 ^ 8) = x mod 2 ^ 8) as E.
  { intros x. apply wrap_u_id. unfold in_u. apply Z.mod_pos_bound; lia. }
  rewrite !E. unfold in_u in *. pow2.
  repeat f_equal; Z.to_euclidean_division_equations; lia.
Qed.

(** The kind bytes of the entity kinds: a [0x0] or [0xC] high nibble. *)
Definition token_kind (k : Z) : Prop := EntityKind_is_built_in k = true \/ EntityKind_is_user_defined k = true.

(** What the token functions do to the low byte. *)
Definition kind_byte_ok (k : Z) : bool :=
  implb (EntityKind_is_built_in k || EntityKind_is_user_defined k)
    ((Z.ldiff k 0x20 =? k) && (Z.ldiff (Z.lor k 0x20) 0x20 =? k) && (Z.lor k 0x20 <? 256)
     && (let n := u8 (Z.land k 0xF0) in (n =? 0x00) || (n =? 0xC0))
     && (let n := u8 (Z.land (Z.lor k 0x20) 0xF0) in (n =? 0x20) || (n =? 0xE0))).

Lemma kind_byte_ok_all k : in_u 8 k -> kind_byte_ok k = true.
Proof.
  intros Hk. assert (forallb kind_byte_ok (seqZ 0 256) = true) as H by (vm_compute; reflexivity).
  rewrite forallb_forall in H. apply H. rewrite <- list_elem_of_In, elem_of_seqZ. bounds_lia.
Qed.

Lemma land_low q k m : 0 <= k < 2 ^ 8 -> 0 <= m < 2 ^ 8 -> Z.land (q * 2 ^ 8 + k) m = Z.land k m.
Proof.
  intros Hk Hm. rewrite <- lor_field by lia. rewrite Z.land_lor_distr_l.
  enough (Z.land (q * 2 ^ 8) m = 0) as -> by apply Z.lor_0_l.
  pose proof (lor_field q m 8 ltac:(lia) Hm) as E. pose proof (Z.add_lor_land (q * 2 ^ 8) m). lia.
Qed.

Lemma lor_low q k m : 0 <= k < 2 ^ 8 -> Z.lor k m < 2 ^ 8 -> 0 <= m ->
  Z.lor (q * 2 ^ 8 + k) m = q * 2 ^ 8 + Z.lor k m.
Proof.
  intros Hk Hl Hm. rewrite <- lor_field by lia. rewrite <- Z.lor_assoc. apply lor_field; [lia|].
  split; [|done]. apply Z.lor_nonneg. lia.
Qed.

Lemma ldiff_low q k m : 0 <= k < 2 ^ 8 -> 0 <= m < 2 ^ 8 -> 
  Z.ldiff (q * 2 ^ 8 + k) m = q * 2 ^ 8 + Z.ldiff k m.
Proof.
  intros Hk Hm. pose proof (Z.sub_nocarry_ldiff (q * 2 ^ 8 + k) (Z.land k m)) as E1.
  pose proof (Z.sub_nocarry_ldiff k (Z.land k m)) as E2.
  assert (forall a b, Z.ldiff a (Z.land a b) = Z.ldiff a b) as E3.
  { intros a b. apply Z.bits_inj'. intros i _. rewrite !Z.ldiff_spec, Z.land_spec.
    by destruct (Z.testbit a i), (Z.testbit b i). }
  assert (forall a b, Z.ldiff (Z.land a b) a = 0) as E4.
  { intros a b. apply Z.bits_inj'. intros i _. rewrite Z.ldiff_spec, Z.land_spec, Z.bits_0.
    by destruct (Z.testbit a i), (Z.testbit b i). }
  rewrite E3, E4 in E2. rewrite <- (land_low q k m) in E1 at 1 2 3 by done.
  rewrite E3, E4 in E1. rewrite (land_low q k m) in E1 by done. lia.
Qed.

(** The poll token of an entity id decodes to that entity id, its
    alternative token (the timer of the same entity) to the same id marked as
    alternative, and the assertion in [as_token] never fails on an entity id
    of a user-defined or built-in kind. *)
Theorem entity_token_roundtrip e :
  EntityId_ok e -> token_kind (entity_kind e) ->
  (exists t, EntityId_as_token e = Ret t /\ EntityId_from_token t = TEntity e) /\
  EntityId_from_token (EntityId_as_alt_token e) = TAltEntity e.
Proof.
  intros He Hk. pose proof (EntityId_from_usize_value e He) as Hback.
  unfold EntityId_as_token, EntityId_as_alt_token, EntityId_from_token.
  rewrite (EntityId_as_usize_value e He).
  assert (in_u 8 (entity_kind e)) as Hb by (destruct e as [[[] ?] ?]; apply He).
  pose proof (kind_byte_ok_all _ Hb) as Hok.
  assert (exists q, EntityId_value e = q * 2 ^ 8 + entity_kind e) as [q Hq]
    by (unfold EntityId_value; destruct (entity_key e) as [[??] ?]; by eexists).
  rewrite Hq in *. clear Hq He. revert Hok Hk. unfold kind_byte_ok, token_kind.
  generalize (entity_kind e) Hb Hback. clear Hb Hback. intros k Hb Hback Hok Hk. unfold in_u in Hb.
  assert (EntityKind_is_built_in k || EntityKind_is_user_defined k = true) as Hk'
    by (apply orb_true_iff; tauto).
  rewrite Hk' in Hok. simpl in Hok.
  rewrite !andb_true_iff in Hok. destruct Hok as [[[[H1 H2] H3] H4] H5].
  apply Z.eqb_eq in H1, H2. apply Z.ltb_lt in H3.
  rewrite ldiff_low, H1, Z.eqb_refl by (pow2; lia). split.
  - eexists. split; [reflexivity|]. rewrite land_low by (pow2; lia). by rewrite H4, Hback.
  - assert (0 <= Z.lor k 32) by (apply Z.lor_nonneg; lia).
    rewrite lor_low by (pow2; lia). rewrite land_low, ldiff_low, H2, Hback by (pow2; lia).
    replace (_ || _) with false; [by rewrite H5|].
    symmetry. revert H5. generalize (u8 (Z.land (Z.lor k 32) 240)). intros n. zcases; lia.
Qed.

Lemma entity_token_roundtrip_witness :
  exists t, EntityId_as_token SPDP_BUILTIN_PARTICIPANT_WRITER = Ret t /\
            EntityId_from_token t = TEntity SPDP_BUILTIN_PARTICIPANT_WRITER.
Proof.
  apply (entity_token_roundtrip SPDP_BUILTIN_PARTICIPANT_WRITER).
  - cbv. repeat split; discriminate.
  - left. reflexivity.
Defined.

Lemma GUID_bytes_roundtrip g : GUID_ok g -> GUID_from_bytes (GUID_to_bytes g) = Ret g.
Proof.
  destruct g as [[p] [[[a b] c] k]]. intros [Hl _]. simpl in Hl.
  unfold GUID_from_bytes, GUID_to_bytes; simpl.
  rewrite drop_app_length', take_app_length' by done. reflexivity.
Qed.
