(* ===== verification/Locator.v ===== *)
(** * Locators

    [src/structure/locator.rs]: the addresses entities are reached at, their
    wire representation ([repr::Locator]) and the conversions between the two
    and with socket addresses. *)

From S2P Require Import Prelude BTree Wire.

(** [std::net]: an IPv4 address is 4 octets, an IPv6 address 16. *)
Record SocketAddrV4 := mkV4 { v4_ip : Z * Z * Z * Z; v4_port : Z }.
Record SocketAddrV6 := mkV6 { v6_ip : list Z; v6_port : Z; v6_flowinfo : Z; v6_scope_id : Z }.
Inductive SocketAddr := SA_V4 (a : SocketAddrV4) | SA_V6 (a : SocketAddrV6).

Inductive Locator :=
| Locator_Invalid
| Locator_Reserved
| Locator_UdpV4 (a : SocketAddrV4)
| Locator_UdpV6 (a : SocketAddrV6)
| Locator_Other (kind port : Z) (address : list Z).

#[export] Instance SocketAddrV4_eq_dec : EqDecision SocketAddrV4.
Proof. solve_decision. Defined.
#[export] Instance SocketAddrV6_eq_dec : EqDecision SocketAddrV6.
Proof. solve_decision. Defined.
#[export] Instance Locator_eq_dec : EqDecision Locator.
Proof. solve_decision. Defined.

Definition LOCATOR_KIND_INVALID : Z := -1.
Definition LOCATOR_KIND_RESERVED : Z := 0.
Definition LOCATOR_KIND_UDP_V4 : Z := 1.
Definition LOCATOR_KIND_UDP_V6 : Z := 2.
Definition INVALID_PORT : Z := 0.
Definition INVALID_ADDRESS : list Z := replicate 16 0.

Definition Locator_is_udp (l : Locator) : bool :=
  match l with Locator_UdpV4 _ | Locator_UdpV6 _ => true | _ => false end.

Definition v4_octets (ip : Z * Z * Z * Z) : list Z := let '(a, b, c, d) := ip in [a; b; c; d].
Definition v4_is_unspecified (ip : Z * Z * Z * Z) : bool := bool_decide (ip = (0, 0, 0, 0)).
Definition v4_is_loopback (ip : Z * Z * Z * Z) : bool := let '(a, _, _, _) := ip in a =? 127.
Definition v6_is_unspecified (ip : list Z) : bool := bool_decide (ip = replicate 16 0).
Definition v6_is_loopback (ip : list Z) : bool := bool_decide (ip = replicate 15 0 ++ [1]).

Definition Locator_is_loopback (l : Locator) : bool :=
  match l with
  | Locator_UdpV4 a => v4_is_loopback (v4_ip a)
  | Locator_UdpV6 a => v6_is_loopback (v6_ip a)
  | _ => false
  end.

(** [impl From<Locator> for SocketAddr] *)
Definition Locator_to_SocketAddr (l : Locator) : SocketAddr :=
  match l with
  | Locator_UdpV4 a => SA_V4 a
  | Locator_UdpV6 a => SA_V6 a
  | _ => SA_V6 (mkV6 INVALID_ADDRESS INVALID_PORT 0 0)
  end.

(** [impl From<SocketAddr> for Locator] *)
Definition Locator_from_SocketAddr (a : SocketAddr) : Locator :=
  match a with
  | SA_V4 a => if v4_is_unspecified (v4_ip a) then Locator_Invalid else Locator_UdpV4 a
  | SA_V6 a => if v6_is_unspecified (v6_ip a) then Locator_Invalid else Locator_UdpV6 a
  end.

Record repr_Locator := mkRepr { repr_kind : Z; repr_port : Z; repr_address : list Z }.

(** [impl From<repr::Locator> for Locator] *)
Definition Locator_from_repr (r : repr_Locator) : outcome Locator :=
  if repr_kind r =? LOCATOR_KIND_INVALID then Ret Locator_Invalid
  else if repr_kind r =? LOCATOR_KIND_RESERVED then Ret Locator_Reserved
  else if repr_kind r =? LOCATOR_KIND_UDP_V4 then
    match drop 12 (repr_address r) with
    | [a; b; c; d] => Ret (Locator_UdpV4 (mkV4 (a, b, c, d) (u16 (repr_port r))))
    | _ => Panic "index out of bounds"
    end
  else if repr_kind r =? LOCATOR_KIND_UDP_V6 then
    Ret (Locator_UdpV6 (mkV6 (repr_address r) (u16 (repr_port r)) 0 0))
  else Ret (Locator_Other (repr_kind r) (repr_port r) (repr_address r)).

(** [impl From<Locator> for repr::Locator] *)
Definition Locator_to_repr (l : Locator) : repr_Locator :=
  match l with
  | Locator_Invalid => mkRepr LOCATOR_KIND_INVALID INVALID_PORT INVALID_ADDRESS
  | Locator_Reserved => mkRepr LOCATOR_KIND_RESERVED INVALID_PORT INVALID_ADDRESS
  | Locator_UdpV4 a => mkRepr LOCATOR_KIND_UDP_V4 (v4_port a) (replicate 12 0 ++ v4_octets (v4_ip a))
  | Locator_UdpV6 a => mkRepr LOCATOR_KIND_UDP_V6 (v6_port a) (v6_ip a)
  | Locator_Other k p a => mkRepr k p a
  end.

Section serialization.
Context `{S : Speedy}.

Definition repr_Locator_write (e : Endianness) (r : repr_Locator) : bytes :=
  write_i32 e (repr_kind r) ++ write_u32 e (repr_port r) ++ concat (write_u8 e <$> repr_address r).

Definition repr_Locator_read (e : Endianness) : reader repr_Locator :=
  k ← read_i32 e; p ← read_u32 e; a ← read_n 16 (read_u8 e); mret (mkRepr k p a).

(** [Writable] and [Readable] for [Locator] *)
Definition Locator_write (e : Endianness) (l : Locator) : bytes := repr_Locator_write e (Locator_to_repr l).
Definition Locator_read (e : Endianness) : reader (outcome Locator) :=
  r ← repr_Locator_read e; mret (Locator_from_repr r).
End serialization.

(** ** Round trip *)

(** What the Rust types guarantee, with the flow info and scope id at the zero
    that the wire format implies, and [Other] only for kinds that have no
    constructor of their own. *)
Definition Locator_ok (l : Locator) : Prop :=
  match l with
  | Locator_Invalid | Locator_Reserved => True
  | Locator_UdpV4 a => in_u 16 (v4_port a) /\ Forall (in_u 8) (v4_octets (v4_ip a))
  | Locator_UdpV6 a =>
      in_u 16 (v6_port a) /\ length (v6_ip a) = 16%nat /\ Forall (in_u 8) (v6_ip a) /\
      v6_flowinfo a = 0 /\ v6_scope_id a = 0
  | Locator_Other k p a =>
      in_s 32 k /\ ~ (-1 <= k <= 2) /\ in_u 32 p /\ length a = 16%nat /\ Forall (in_u 8) a
  end.

Lemma Locator_repr_roundtrip l : Locator_ok l -> Locator_from_repr (Locator_to_repr l) = Ret l.
Proof.
  destruct l as [| |[[[[a b] c] d] p]|[ip p fl sc]|k p a]; [done|done|..]; simpl.
  - intros [Hp _]. unfold Locator_from_repr; simpl. by rewrite wrap_u_id.
  - intros (Hp & Hl & _ & -> & ->). unfold Locator_from_repr; simpl. by rewrite wrap_u_id.
  - intros (_ & Hk & _). unfold Locator_from_repr; simpl.
    unfold LOCATOR_KIND_INVALID, LOCATOR_KIND_RESERVED, LOCATOR_KIND_UDP_V4, LOCATOR_KIND_UDP_V6.
    zcases; lia.
Qed.

Lemma Locator_to_repr_ok l : Locator_ok l ->
  let r := Locator_to_repr l in
  in_s 32 (repr_kind r) /\ in_u 32 (repr_port r) /\
  length (repr_address r) = 16%nat /\ Forall (in_u 8) (repr_address r).
Proof.
  assert (Forall (in_u 8) INVALID_ADDRESS /\ Forall (in_u 8) (replicate 12 0)) as [H16 H12]
    by (split; apply Forall_replicate; bounds_lia).
  destruct l as [| |[[[[a b] c] d] p]|[ip p fl sc]|k p a]; simpl.
  - intros _. repeat split; try done; bounds_lia.
  - intros _. repeat split; try done; bounds_lia.
  - intros [Hp Ho]. repeat split; try done; try bounds_lia. by apply (Forall_app_2 _ (replicate 12 0)).
  - intros (Hp & Hl & Hi & _). repeat split; try done; bounds_lia.
  - intros (Hk & _ & Hp & Hl & Hi). repeat split; try done; bounds_lia.
Qed.

Lemma read_write_Locator `{S : Speedy, !SpeedyLaws S} e l rest :
  Locator_ok l -> Locator_read e (Locator_write e l ++ rest) = Some (Ret l, rest).
Proof.
  intros Hl. destruct (Locator_to_repr_ok l Hl) as (Hk & Hp & Hn & Ha).
  unfold Locator_read, Locator_write, repr_Locator_write, repr_Locator_read, mbind, reader_bind.
  rewrite <- !(app_assoc _ _ rest), read_write_i32, read_write_u32 by done.
  rewrite <- Hn, read_n_write; [|intros x r Hx; apply (sp_read_write 1); rewrite Forall_forall in Ha; by apply Ha].
  cbv [mret reader_ret]. rewrite <- (Locator_repr_roundtrip l Hl). by destruct (Locator_to_repr l).
Qed.

(** A locator written to the wire takes 24 bytes and is read back as itself,
    and the bytes that follow are left alone: IPv4 addresses go through the
    IPv6-compatible form and ports through 32 bits without loss. *)
Theorem locator_roundtrip `{S : Speedy, !SpeedyLaws S} e l rest :
  Locator_ok l ->
  Locator_read e (Locator_write e l ++ rest) = Some (Ret l, rest) /\ length (Locator_write e l) = 24%nat.
Proof.
  intros Hl. split; [by apply read_write_Locator|].
  destruct (Locator_to_repr_ok l Hl) as (_ & _ & Hn & _).
  unfold Locator_write, repr_Locator_write, write_i32, write_u32. rewrite !length_app, !sp_length.
  assert (forall a, length (concat (write_u8 e <$> a)) = length a) as ->; [|by rewrite Hn].
  induction a as [|x a IH]; csimpl; [done|]. unfold write_u8 at 1. rewrite length_app, sp_length. simpl. by rewrite IH.
Qed.

Lemma locator_roundtrip_witness :
  Locator_read LittleEndian
    (Locator_write LittleEndian (Locator_UdpV4 (mkV4 (127, 0, 0, 1) 8080)) ++ [7])
  = Some (Ret (Locator_UdpV4 (mkV4 (127, 0, 0, 1) 8080)), [7]).
Proof.
  apply (locator_roundtrip LittleEndian (Locator_UdpV4 (mkV4 (127, 0, 0, 1) 8080)) [7]).
  split; [cbv; split; discriminate || reflexivity|].
  repeat constructor; discriminate.
Defined.
