(* ===== verification/WriterProxy.v ===== *)
(** * The reader's view of a remote writer

    [src/rtps/rtps_writer_proxy.rs]: which sequence numbers of one writer a
    reader has received or knows not to be available, the bound below which it
    can acknowledge everything, and what it is missing of an advertised range.

    The state of every sequence number is abstracted to one bit - handled
    (received or not available) or not - and each operation is shown to add
    exactly the numbers it is told about, with [ack_base] at every moment the
    least number not handled. *)

From S2P Require Import Prelude BTree SequenceNumbers Time Guid Locator.

Record RtpsWriterProxy := {
  wp_remote_writer_guid : GUID;
  wp_unicast_locator_list : list Locator;
  wp_multicast_locator_list : list Locator;
  wp_remote_group_entity_id : EntityId;
  (** [Some (Some ts)] received at [ts], [Some None] not available *)
  changes : gmap SequenceNumber (option Timestamp);
  received_heartbeat_count : Z;
  sent_ack_nack_count : Z;
  ack_base : SequenceNumber;
  last_received_sequence_number : SequenceNumber;
  last_received_timestamp : Timestamp;
}.

Definition wp_set_changes (p : RtpsWriterProxy) (c : gmap SequenceNumber (option Timestamp)) : RtpsWriterProxy :=
  {| wp_remote_writer_guid := wp_remote_writer_guid p;
     wp_unicast_locator_list := wp_unicast_locator_list p;
     wp_multicast_locator_list := wp_multicast_locator_list p;
     wp_remote_group_entity_id := wp_remote_group_entity_id p;
     changes := c; received_heartbeat_count := received_heartbeat_count p;
     sent_ack_nack_count := sent_ack_nack_count p; ack_base := ack_base p;
     last_received_sequence_number := last_received_sequence_number p;
     last_received_timestamp := last_received_timestamp p |}.

Definition wp_set_ack_base (p : RtpsWriterProxy) (b : SequenceNumber) : RtpsWriterProxy :=
  {| wp_remote_writer_guid := wp_remote_writer_guid p;
     wp_unicast_locator_list := wp_unicast_locator_list p;
     wp_multicast_locator_list := wp_multicast_locator_list p;
     wp_remote_group_entity_id := wp_remote_group_entity_id p;
     changes := changes p; received_heartbeat_count := received_heartbeat_count p;
     sent_ack_nack_count := sent_ack_nack_count p; ack_base := b;
     last_received_sequence_number := last_received_sequence_number p;
     last_received_timestamp := last_received_timestamp p |}.

Definition wp_set_counts (p : RtpsWriterProxy) (hb an : Z) : RtpsWriterProxy :=
  {| wp_remote_writer_guid := wp_remote_writer_guid p;
     wp_unicast_locator_list := wp_unicast_locator_list p;
     wp_multicast_locator_list := wp_multicast_locator_list p;
     wp_remote_group_entity_id := wp_remote_group_entity_id p;
     changes := changes p; received_heartbeat_count := hb; sent_ack_nack_count := an;
     ack_base := ack_base p;
     last_received_sequence_number := last_received_sequence_number p;
     last_received_timestamp := last_received_timestamp p |}.

Definition wp_set_last (p : RtpsWriterProxy) (sn : SequenceNumber) (ts : Timestamp) : RtpsWriterProxy :=
  {| wp_remote_writer_guid := wp_remote_writer_guid p;
     wp_unicast_locator_list := wp_unicast_locator_list p;
     wp_multicast_locator_list := wp_multicast_locator_list p;
     wp_remote_group_entity_id := wp_remote_group_entity_id p;
     changes := changes p; received_heartbeat_count := received_heartbeat_count p;
     sent_ack_nack_count := sent_ack_nack_count p; ack_base := ack_base p;
     last_received_sequence_number := sn; last_received_timestamp := ts |}.

Definition RtpsWriterProxy_new (g : GUID) (uni multi : list Locator) (grp : EntityId) : RtpsWriterProxy :=
  {| wp_remote_writer_guid := g; wp_unicast_locator_list := uni;
     wp_multicast_locator_list := multi; wp_remote_group_entity_id := grp;
     changes := ∅; received_heartbeat_count := 0; sent_ack_nack_count := 0;
     ack_base := SequenceNumber_new 1;
     last_received_sequence_number := SequenceNumber_new 0;
     last_received_timestamp := Timestamp_INVALID |}.

Definition next_ack_nack_sequence_number (p : RtpsWriterProxy) : Z * RtpsWriterProxy :=
  let c := sent_ack_nack_count p in
  (c, wp_set_counts p (received_heartbeat_count p) (i32 (c + 1))).

Definition all_ackable_before (p : RtpsWriterProxy) : SequenceNumber := ack_base p.

Definition WriterProxy_update_contents (p other : RtpsWriterProxy) : RtpsWriterProxy :=
  {| wp_remote_writer_guid := wp_remote_writer_guid p;
     wp_unicast_locator_list := wp_unicast_locator_list other;
     wp_multicast_locator_list := wp_multicast_locator_list other;
     wp_remote_group_entity_id := wp_remote_group_entity_id other;
     changes := changes p; received_heartbeat_count := received_heartbeat_count p;
     sent_ack_nack_count := sent_ack_nack_count p; ack_base := ack_base p;
     last_received_sequence_number := last_received_sequence_number p;
     last_received_timestamp := last_received_timestamp p |}.

Definition last_change_timestamp (p : RtpsWriterProxy) : option Timestamp :=
  if SequenceNumber_new 0 <? last_received_sequence_number p
  then Some (last_received_timestamp p) else None.

Definition no_changes_received (p : RtpsWriterProxy) : bool :=
  (ack_base p =? SequenceNumber_new 0) && bool_decide (changes p = ∅).

(** The [for] loop of [missing_seqnums]: walk the interval [interval] beside
    the sorted list [known]. *)
Fixpoint missing_loop (known interval : list SequenceNumber) : list SequenceNumber :=
  match interval with
  | [] => []
  | s :: interval =>
      match known with
      | [] => s :: missing_loop [] interval
      | known_sn :: known' =>
          if known_sn =? s then missing_loop known' interval
          else s :: missing_loop known interval
      end
  end.

Definition missing_seqnums (p : RtpsWriterProxy) (hb_first_sn hb_last_sn : SequenceNumber)
  : outcome (list SequenceNumber) :=
  if hb_last_sn <? hb_first_sn then Ret []
  else
    let relevant_interval := range_inclusive (Z.max hb_first_sn (ack_base p)) hb_last_sn in
    let known :=
      if snr_begin relevant_interval <=? snr_end relevant_interval then
        filter (fun k => snr_begin relevant_interval <= k <= snr_end relevant_interval)
          (bt_keys (changes p))
      else [] in
    interval ← SequenceNumberRange_list relevant_interval;
    Ret (missing_loop known interval).

Definition should_ignore_change (p : RtpsWriterProxy) (seqnum : SequenceNumber) : bool :=
  (seqnum <? ack_base p) || bool_decide (is_Some (changes p !! seqnum)).

(** The [for] loop of [advance_ack_base] over the keys from [ack_base] up. *)
Fixpoint advance_loop (test_sn base : SequenceNumber) (keys : list SequenceNumber) : SequenceNumber :=
  match keys with
  | [] => base
  | sn :: keys =>
      if sn =? test_sn then
        let test_sn := SequenceNumber_add test_sn (SequenceNumber_new 1) in
        advance_loop test_sn test_sn keys
      else base
  end.

Definition advance_ack_base (p : RtpsWriterProxy) : RtpsWriterProxy :=
  wp_set_ack_base p (advance_loop (ack_base p) (ack_base p) (bt_keys (bt_from (ack_base p) (changes p)))).

Definition received_changes_add (p : RtpsWriterProxy) (seq_num : SequenceNumber)
    (receive_timestamp : Timestamp) : RtpsWriterProxy :=
  let p := wp_set_changes p (<[seq_num := Some receive_timestamp]> (changes p)) in
  let p := if last_received_sequence_number p <? seq_num
           then wp_set_last p seq_num receive_timestamp else p in
  if seq_num =? ack_base p then advance_ack_base p else p.

Definition set_irrelevant_change (p : RtpsWriterProxy) (seq_num : SequenceNumber) : RtpsWriterProxy :=
  let p' := if ack_base p <=? seq_num
            then wp_set_changes p (<[seq_num := None]> (changes p)) else p in
  if seq_num =? ack_base p' then advance_ack_base p' else p'.

Definition irrelevant_changes_range (p : RtpsWriterProxy)
    (remove_from remove_until_before : SequenceNumber) : outcome RtpsWriterProxy :=
  if remove_until_before <? remove_from then Ret p
  else if remove_from <=? ack_base p then
    let removed_and_after := bt_from remove_from (changes p) in
    let after := bt_from remove_until_before removed_and_after in
    let p := wp_set_changes p (after ∪ bt_before remove_from (changes p)) in
    Ret (if ack_base p <? remove_until_before
         then advance_ack_base (wp_set_ack_base p remove_until_before) else p)
  else
    nas ← SequenceNumberRange_list
            (range_inclusive remove_from (SequenceNumber_sub remove_until_before (SequenceNumber_new 1)));
    Ret (wp_set_changes p (foldl (fun c na => <[na := None]> c) (changes p) nas)).

Definition irrelevant_changes_up_to (p : RtpsWriterProxy) (smallest_seqnum : SequenceNumber)
  : outcome RtpsWriterProxy :=
  irrelevant_changes_range p (SequenceNumber_new 0) smallest_seqnum.

Definition discovered_or_default (drd default : list Locator) : list Locator :=
  match drd with [] => default | _ => drd end.

(** The part of [DiscoveredWriterData] that is used: its [WriterProxy]. *)
Record DiscoveredWriterProxy := {
  dwp_remote_writer_guid : GUID;
  dwp_unicast_locator_list : list Locator;
  dwp_multicast_locator_list : list Locator;
}.

Definition WriterProxy_from_discovered_writer_data (d : DiscoveredWriterProxy)
    (default_unicast default_multicast : list Locator) : RtpsWriterProxy :=
  {| wp_remote_writer_guid := dwp_remote_writer_guid d;
     wp_remote_group_entity_id := EntityId_UNKNOWN;
     wp_unicast_locator_list := discovered_or_default (dwp_unicast_locator_list d) default_unicast;
     wp_multicast_locator_list := discovered_or_default (dwp_multicast_locator_list d) default_multicast;
     changes := ∅; received_heartbeat_count := 0; sent_ack_nack_count := 0;
     ack_base := SequenceNumber_default;
     last_received_sequence_number := SequenceNumber_new 0;
     last_received_timestamp := Timestamp_INVALID |}.

(** ** Abstraction: the handled sequence numbers *)

(** Received or known not to be available. *)
Definition handled (p : RtpsWriterProxy) (sn : SequenceNumber) : Prop :=
  sn < ack_base p \/ is_Some (changes p !! sn).

Lemma should_ignore_handled p sn : should_ignore_change p sn = true <-> handled p sn.
Proof. unfold should_ignore_change, handled. by rewrite orb_true_iff, Z.ltb_lt, bool_decide_eq_true. Qed.

#[export] Instance handled_dec p sn : Decision (handled p sn).
Proof. unfold handled. apply _. Defined.

(** Numbers below [i64::MAX], so that the successor does not wrap. *)
Definition sn_ok (sn : SequenceNumber) : Prop := i64_min <= sn < i64_max.

(** The representation invariant: [ack_base] starts at 1 and is not itself
    handled, so it is the least number that is not. *)
Definition wp_inv (p : RtpsWriterProxy) : Prop :=
  1 <= ack_base p <= i64_max /\
  (forall sn, is_Some (changes p !! sn) -> sn < i64_max) /\
  changes p !! ack_base p = None.

Lemma ack_base_least p sn : wp_inv p -> ~ handled p sn -> ack_base p <= sn.
Proof. unfold handled. intros _ ?. lia. Qed.

Lemma ack_base_not_handled p : wp_inv p -> ~ handled p (ack_base p).
Proof. intros (_ & _ & E) [?|[? H]]; [lia|congruence]. Qed.

(** *** [missing_seqnums] *)

Lemma missing_loop_filter known b n :
  StronglySorted Z.lt known -> (forall k, k ∈ known -> b <= k) ->
  missing_loop known (seqZ b n) = filter (fun s => s ∉ known) (seqZ b n).
Proof.
  destruct (decide (n <= 0)); [by rewrite seqZ_nil by lia|].
  rewrite <- (Z2Nat.id n) by lia. generalize (Z.to_nat n) as m. clear n n0. intros m.
  revert known b. induction m as [|m IH]; intros known b Hs Hb; [by rewrite seqZ_nil by lia|].
  rewrite (seqZ_cons b) by lia. replace (Z.pred (Z.of_nat (S m))) with (Z.of_nat m) by lia.
  replace (Z.succ b) with (b + 1) by lia. rewrite filter_cons.
  destruct known as [|k known]; cbn [missing_loop].
  { rewrite decide_True by set_solver. f_equal. apply IH; [done|set_solver]. }
  apply StronglySorted_cons in Hs as [Hk Hs']. rewrite Forall_forall in Hk.
  destruct (Z.eqb_spec k b) as [->|Hne].
  - rewrite decide_False by set_solver. rewrite IH; [|done|intros k ?%Hk; lia].
    apply list_filter_ext. intros s Hin%elem_of_seqZ. rewrite not_elem_of_cons. naive_solver lia.
  - assert (b ∉ k :: known) as Hni.
    { intros [?|?%Hk]%elem_of_cons; [congruence|]. specialize (Hb k). set_solver by lia. }
    rewrite decide_True by done. f_equal. apply IH; [by constructor; rewrite ?Forall_forall|].
    intros k' Hk'. specialize (Hb _ Hk'). assert (k' <> b) by congruence. lia.
Qed.

(** What is missing of an advertised range is what is in the range and not
    handled, in ascending order. *)
Lemma missing_seqnums_spec p f l :
  i64_min <= f -> i64_min <= ack_base p -> l < i64_max ->
  missing_seqnums p f l = Ret (filter (fun s => ~ handled p s) (seqZ f (l - f + 1))).
Proof.
  intros Hf Hb Hl. unfold missing_seqnums. destruct (Z.ltb_spec l f).
  { by rewrite seqZ_nil by lia. }
  cbn [range_inclusive SequenceNumberRange_new snr_begin snr_end].
  set (b := Z.max f (ack_base p)). fold (range_inclusive b l).
  assert (filter (fun s => ~ handled p s) (seqZ f (Z.min (b - f) (l - f + 1))) = []) as Hlow.
  { apply list_filter_none. intros s Hs%elem_of_seqZ Hn. apply Hn. left. lia. }
  rewrite range_inclusive_list by lia. simpl. f_equal.
  destruct (Z.leb_spec b l).
  - replace (l - f + 1) with ((b - f) + (l - b + 1)) by lia.
    rewrite (seqZ_app _ (b - f) (l - b + 1)), filter_app by lia. rewrite Z.min_l in Hlow by lia. rewrite Hlow. simpl.
    replace (f + (b - f)) with b by lia.
    rewrite missing_loop_filter.
    + apply list_filter_ext. intros s Hs%elem_of_seqZ. unfold handled.
      rewrite list_elem_of_filter, elem_of_bt_keys. assert (ack_base p <= s) by lia. naive_solver lia.
    + apply StronglySorted_filter, bt_keys_sorted_Z.
    + intros k [? _]%list_elem_of_filter. lia.
  - rewrite (seqZ_nil b) by lia. rewrite Z.min_r in Hlow by lia. by rewrite Hlow.
Qed.

(** *** [advance_ack_base] *)

Lemma advance_loop_spec t keys :
  StronglySorted Z.lt keys -> i64_min <= t -> (forall k, k ∈ keys -> t <= k < i64_max) ->
  let b := advance_loop t t keys in
  t <= b /\ (t < b -> b <= i64_max) /\ (forall s, t <= s < b -> s ∈ keys) /\ b ∉ keys.
Proof.
  revert t. induction keys as [|k keys IH]; intros t Hs Ht Hk; simpl.
  { split_and!; [lia|lia|intros; lia|set_solver]. }
  apply StronglySorted_cons in Hs as [Hlt Hs]. rewrite Forall_forall in Hlt.
  pose proof (Hk k ltac:(set_solver)).
  destruct (Z.eqb_spec k t) as [->|Hne].
  - unfold SequenceNumber_new. rewrite sn_add_1 by lia.
    destruct (IH (t + 1) Hs) as (H1 & H2 & H3 & H4); [lia| |].
    { intros k' Hin. pose proof (Hlt _ Hin). pose proof (Hk k' ltac:(set_solver)). lia. }
    split_and!; [lia|intros; destruct (decide (t + 1 = advance_loop (t + 1) (t + 1) keys)); lia| |].
    + intros s Hs'. destruct (decide (s = t)) as [->|]; [set_solver|].
      apply elem_of_cons; right. apply H3. lia.
    + rewrite not_elem_of_cons. split; [lia|done].
  - split_and!; [lia|lia|intros; lia|]. rewrite not_elem_of_cons. split; [done|].
    intros ?%Hlt. lia.
Qed.

(** From a state where the keys are in range, [advance_ack_base] establishes
    the invariant and leaves the set of handled numbers as it is. *)
Lemma advance_ack_base_spec p :
  1 <= ack_base p <= i64_max -> (forall sn, is_Some (changes p !! sn) -> sn < i64_max) ->
  wp_inv (advance_ack_base p) /\ ack_base p <= ack_base (advance_ack_base p) /\
  forall sn, handled (advance_ack_base p) sn <-> handled p sn.
Proof.
  intros Hb Hk.
  destruct (advance_loop_spec (ack_base p) (bt_keys (bt_from (ack_base p) (changes p))))
    as (H1 & H2 & H3 & H4); [apply bt_keys_sorted_Z|bounds_lia| |].
  { intros k. rewrite elem_of_bt_keys, lookup_bt_from. case_decide as Hle; [|by intros [? ?]].
    rewrite kle_Z in Hle. intros ?%Hk. lia. }
  setoid_rewrite elem_of_bt_keys in H3. rewrite elem_of_bt_keys in H4.
  setoid_rewrite lookup_bt_from in H3. rewrite lookup_bt_from in H4.
  rewrite decide_True in H4 by (by apply kle_Z).
  unfold wp_inv, handled, advance_ack_base; cbn [ack_base wp_set_ack_base changes].
  set (b := advance_loop _ _ _) in *. cbv zeta in *. split_and!.
  - lia.
  - destruct (decide (ack_base p < b)); [auto|lia].
  - done.
  - by apply eq_None_not_Some.
  - done.
  - intros sn. split; [|naive_solver lia]. intros [Hlt|?]; [|by right].
    destruct (decide (sn < ack_base p)); [by left|right].
    specialize (H3 sn ltac:(lia)). case_decide; [done|]. by destruct H3.
Qed.

(** *** The operations *)

(** What is said of every operation: from [p] to [p'] the invariant is kept,
    the acknowledged bound does not go back, and the handled numbers become
    those of [p] and those in [S]. *)
Definition wp_adds (S : SequenceNumber -> Prop) (p p' : RtpsWriterProxy) : Prop :=
  wp_inv p' /\ ack_base p <= ack_base p' /\ forall sn, handled p' sn <-> handled p sn \/ S sn.

Lemma wp_adds_same S p p' :
  wp_inv p -> changes p' = changes p -> ack_base p' = ack_base p ->
  (forall sn, S sn -> handled p sn) -> wp_adds S p p'.
Proof.
  intros (H1 & H2 & H3) Ec Eb HS. unfold wp_adds, wp_inv, handled. rewrite Ec, Eb.
  unfold handled in HS. split_and!; naive_solver lia.
Qed.

Lemma wp_adds_advance S p p' :
  1 <= ack_base p' <= i64_max -> (forall sn, is_Some (changes p' !! sn) -> sn < i64_max) ->
  ack_base p <= ack_base p' ->
  (forall sn, handled p' sn <-> handled p sn \/ S sn) ->
  wp_adds S p (advance_ack_base p').
Proof.
  intros Hb Hk Hle HS. destruct (advance_ack_base_spec p' Hb Hk) as (H1 & H2 & H3).
  split_and!; [done|lia|]. intros sn. by rewrite H3.
Qed.

Lemma received_changes_add_spec p sn ts :
  wp_inv p -> sn < i64_max -> wp_adds (fun s => s = sn) p (received_changes_add p sn ts).
Proof.
  intros Hinv Hsn. pose proof Hinv as (H1 & H2 & H3). unfold received_changes_add.
  set (q := if _ <? _ then _ else _).
  assert (changes q = <[sn := Some ts]> (changes p) /\ ack_base q = ack_base p) as [Ec Eb]
    by (unfold q; zcases).
  assert (forall s, is_Some (changes q !! s) <-> s = sn \/ is_Some (changes p !! s)) as Hc.
  { intros s. rewrite Ec, lookup_insert_is_Some. destruct (decide (s = sn)); naive_solver. }
  assert (forall s, handled q s <-> handled p s \/ s = sn) as Hh
    by (intros s; unfold handled; rewrite Hc, Eb; tauto).
  rewrite Eb. destruct (Z.eqb_spec sn (ack_base p)).
  - apply wp_adds_advance; [lia| |lia|done]. intros s [->|?]%Hc; auto.
  - unfold wp_adds, wp_inv. rewrite Eb. split_and!; [lia..| | |lia|done].
    + intros s [->|?]%Hc; auto.
    + apply eq_None_not_Some. rewrite Hc. intros [?|[? ?]]; congruence.
Qed.

Lemma set_irrelevant_change_spec p sn :
  wp_inv p -> sn < i64_max -> wp_adds (fun s => s = sn) p (set_irrelevant_change p sn).
Proof.
  intros Hinv Hsn. pose proof Hinv as (H1 & H2 & H3). unfold set_irrelevant_change.
  destruct (Z.leb_spec (ack_base p) sn) as [Hle|Hlt].
  2: { zcases; [lia|]. apply wp_adds_same; try done. intros s ->. left. lia. }
  cbn [ack_base wp_set_changes]. set (q := wp_set_changes _ _).
  assert (forall s, is_Some (changes q !! s) <-> s = sn \/ is_Some (changes p !! s)) as Hc.
  { intros s. unfold q; simpl. rewrite lookup_insert_is_Some. destruct (decide (s = sn)); naive_solver. }
  assert (forall s, handled q s <-> handled p s \/ s = sn) as Hh
    by (intros s; unfold handled; rewrite Hc; simpl; tauto).
  destruct (Z.eqb_spec sn (ack_base p)).
  - apply wp_adds_advance; [done| |simpl; lia|done]. intros s [->|?]%Hc; auto.
  - unfold wp_adds, wp_inv. split_and!; [simpl; lia..| | |simpl; lia|done].
    + intros s [->|?]%Hc; auto.
    + apply eq_None_not_Some. rewrite Hc. simpl. intros [?|[? ?]]; congruence.
Qed.

Lemma foldl_insert_None (m : gmap SequenceNumber (option Timestamp)) l s :
  is_Some (foldl (fun c na => <[na := None]> c) m l !! s) <-> s ∈ l \/ is_Some (m !! s).
Proof.
  revert m. induction l as [|x l IH]; intros m; simpl; [set_solver|].
  rewrite IH, lookup_insert_is_Some, elem_of_cons. destruct (decide (s = x)); naive_solver.
Qed.

Lemma irrelevant_changes_range_spec p a b :
  wp_inv p -> i64_min <= a -> b <= i64_max ->
  exists p', irrelevant_changes_range p a b = Ret p' /\ wp_adds (fun s => a <= s < b) p p'.
Proof.
  intros Hinv Ha Hb. pose proof Hinv as (H1 & H2 & H3). unfold irrelevant_changes_range.
  destruct (Z.ltb_spec b a).
  { eexists; split; [done|]. apply wp_adds_same; try done. intros; lia. }
  destruct (Z.leb_spec a (ack_base p)) as [Hle|Hlt].
  - eexists; split; [done|]. cbn [ack_base wp_set_changes].
    set (c := _ ∪ _).
    assert (forall s, is_Some (c !! s) <-> is_Some (changes p !! s) /\ (s < a \/ b <= s)) as Hc.
    { intros s. unfold c. rewrite lookup_union_is_Some, !lookup_bt_from, lookup_bt_before.
      repeat case_decide; rewrite ?kle_Z, ?klt_Z in *; rewrite ?is_Some_None in *; naive_solver lia. }
    zcases.
    + apply wp_adds_advance; [simpl; lia| |simpl; lia|]; simpl.
      { intros s [? _]%Hc. auto. }
      intros s. unfold handled; simpl. rewrite Hc. destruct (decide (s < b)), (decide (s < ack_base p)); naive_solver lia.
    + unfold wp_adds, wp_inv, handled; simpl. split_and!; try lia.
      * intros s [? _]%Hc. auto.
      * apply eq_None_not_Some. rewrite Hc. intros [[? ?] _]. congruence.
      * intros s. rewrite Hc. destruct (decide (s < ack_base p)); naive_solver lia.
  - unfold SequenceNumber_new. replace (SequenceNumber_sub b 1) with (b - 1)
      by (symmetry; apply wrap_s_id; bounds_lia).
    rewrite range_inclusive_list by lia. simpl. eexists; split; [done|].
    unfold wp_adds, wp_inv, handled; simpl. split_and!; try lia.
    + intros s. rewrite foldl_insert_None, elem_of_seqZ. intros [?|?]; [lia|auto].
    + apply eq_None_not_Some. rewrite foldl_insert_None, elem_of_seqZ. intros [?|[? ?]]; [lia|congruence].
    + intros s. rewrite foldl_insert_None, elem_of_seqZ. naive_solver lia.
Qed.

(** ** Sequences of operations *)

(** Everything the reader does to a proxy. *)
Inductive wp_op :=
| WpReceived (sn : SequenceNumber) (ts : Timestamp)
| WpIrrelevant (sn : SequenceNumber)
| WpIrrelevantRange (a b : SequenceNumber)
| WpIrrelevantUpTo (sn : SequenceNumber)
| WpUpdate (other : RtpsWriterProxy)
| WpHeartbeatCount (count : Z)
| WpNextAckNack.

Definition wp_apply (p : RtpsWriterProxy) (o : wp_op) : outcome RtpsWriterProxy :=
  match o with
  | WpReceived sn ts => Ret (received_changes_add p sn ts)
  | WpIrrelevant sn => Ret (set_irrelevant_change p sn)
  | WpIrrelevantRange a b => irrelevant_changes_range p a b
  | WpIrrelevantUpTo sn => irrelevant_changes_up_to p sn
  | WpUpdate other => Ret (WriterProxy_update_contents p other)
  | WpHeartbeatCount c => Ret (wp_set_counts p c (sent_ack_nack_count p))
  | WpNextAckNack => Ret (next_ack_nack_sequence_number p).2
  end.

(** The numbers an operation tells the proxy about. *)
Definition op_covers (o : wp_op) (sn : SequenceNumber) : Prop :=
  match o with
  | WpReceived s _ | WpIrrelevant s => sn = s
  | WpIrrelevantRange a b => a <= sn < b
  | WpIrrelevantUpTo b => 0 <= sn < b
  | _ => False
  end.

Definition op_ok (o : wp_op) : Prop :=
  match o with
  | WpReceived s _ | WpIrrelevant s => s < i64_max
  | WpIrrelevantRange a b => i64_min <= a /\ b <= i64_max
  | WpIrrelevantUpTo b => b <= i64_max
  | _ => True
  end.

Lemma wp_apply_spec p o :
  wp_inv p -> op_ok o -> exists p', wp_apply p o = Ret p' /\ wp_adds (op_covers o) p p'.
Proof.
  intros Hp Ho. destruct o; simpl in Ho |- *.
  - eexists; split; [done|]. by apply received_changes_add_spec.
  - eexists; split; [done|]. by apply set_irrelevant_change_spec.
  - destruct Ho. by apply irrelevant_changes_range_spec.
  - apply irrelevant_changes_range_spec; (done || bounds_lia).
  - eexists; split; [done|]. apply wp_adds_same; [done..|intros ? []].
  - eexists; split; [done|]. apply wp_adds_same; [done..|intros ? []].
  - eexists; split; [done|]. apply wp_adds_same; [done..|intros ? []].
Qed.

Lemma wp_run_adds p ops :
  wp_inv p -> Forall op_ok ops ->
  exists p', outcome_fold wp_apply p ops = Ret p' /\
             wp_adds (fun sn => exists o, o ∈ ops /\ op_covers o sn) p p'.
Proof.
  intros Hp Hops. revert p Hp. induction Hops as [|o ops Ho Hops IH]; intros p Hp; simpl.
  { eexists; split; [done|]. apply wp_adds_same; try done. intros sn (? & ?%elem_of_nil & _). done. }
  destruct (wp_apply_spec p o Hp Ho) as (p1 & -> & Hinv1 & Hb1 & Hh1). simpl.
  destruct (IH p1 Hinv1) as (p2 & -> & Hinv2 & Hb2 & Hh2). eexists; split; [done|].
  split_and!; [done|lia|]. intros sn. rewrite Hh2, Hh1. setoid_rewrite elem_of_cons. naive_solver.
Qed.

Lemma wp_new_inv g u m e : wp_inv (RtpsWriterProxy_new g u m e).
Proof. split_and!; simpl; try done. by intros sn [? ?]. Qed.

Lemma wp_discovered_inv d u m : wp_inv (WriterProxy_from_discovered_writer_data d u m).
Proof. split_and!; simpl; try done. by intros sn [? ?]. Qed.

(** C16: after any sequence of operations on a fresh proxy (none of which
    panics or diverges), the sequence numbers to ignore are exactly those below
    1 and those the operations told about, [all_ackable_before] is the least
    number not among them, and [missing_seqnums] lists what an advertised range
    holds besides them. *)
Theorem writer_proxy_refines g u m e ops :
  Forall op_ok ops ->
  exists p, outcome_fold wp_apply (RtpsWriterProxy_new g u m e) ops = Ret p /\
  let known sn := sn < 1 \/ exists o, o ∈ ops /\ op_covers o sn in
  (forall sn, should_ignore_change p sn = true <-> known sn) /\
  ~ known (all_ackable_before p) /\
  (forall sn, sn < all_ackable_before p -> known sn) /\
  (forall first last, i64_min <= first -> last < i64_max ->
     exists l, missing_seqnums p first last = Ret l /\ StronglySorted Z.lt l /\
     forall sn, sn ∈ l <-> first <= sn <= last /\ ~ known sn).
Proof.
  intros Hops.
  destruct (wp_run_adds _ _ (wp_new_inv g u m e) Hops) as (p & Hrun & Hinv & Hb & Hh).
  exists p. split; [done|].
  assert (forall sn, handled p sn <-> sn < 1 \/ exists o, o ∈ ops /\ op_covers o sn) as Hk.
  { intros sn. rewrite Hh. unfold handled. simpl. rewrite lookup_empty. pose proof (@is_Some_None (option Timestamp)). tauto. }
  cbv zeta. setoid_rewrite <- Hk. split_and!.
  - intros sn. apply should_ignore_handled.
  - by apply ack_base_not_handled.
  - intros sn Hsn. by left.
  - intros f l Hf Hl. eexists. rewrite missing_seqnums_spec; [|done|destruct Hinv; bounds_lia|done].
    split_and!; [done|apply StronglySorted_filter, seqZ_sorted|].
    intros sn. rewrite list_elem_of_filter, elem_of_seqZ. naive_solver lia.
Qed.

Definition demo_proxy : RtpsWriterProxy := RtpsWriterProxy_new GUID_UNKNOWN [] [] EntityId_UNKNOWN.
Definition demo_ops : list wp_op :=
  [WpReceived 1 Timestamp_ZERO; WpReceived 4 Timestamp_ZERO; WpIrrelevantRange 6 8; WpIrrelevant 2].

Lemma writer_proxy_refines_witness :
  exists p, outcome_fold wp_apply demo_proxy demo_ops = Ret p /\
  (forall sn, sn < all_ackable_before p -> sn < 1 \/ exists o, o ∈ demo_ops /\ op_covers o sn).
Proof.
  destruct (writer_proxy_refines GUID_UNKNOWN [] [] EntityId_UNKNOWN demo_ops) as (p & H1 & _ & _ & H2 & _).
  - repeat constructor; simpl; bounds_lia.
  - exists p. split; [exact H1|exact H2].
Defined.

(** Three operations leave 3, 5 and 8 missing of the range 1..8. *)
Example demo_missing :
  (p ← outcome_fold wp_apply demo_proxy demo_ops; missing_seqnums p 1 8) = Ret [3; 5; 8].
Proof. vm_compute. reflexivity. Qed.

(** [no_changes_received], which decides whether a preemptive ACKNACK is
    sent to a writer, never answers yes: [ack_base] starts at 1 in both
    constructors and never goes back, and the function compares it with 0. *)
Theorem no_changes_received_never_holds p0 ops p :
  (exists g u m e, p0 = RtpsWriterProxy_new g u m e) \/
  (exists d u m, p0 = WriterProxy_from_discovered_writer_data d u m) ->
  Forall op_ok ops -> outcome_fold wp_apply p0 ops = Ret p -> no_changes_received p = false.
Proof.
  intros Hp0 Hops Hrun.
  assert (wp_inv p0) as Hinv by (destruct Hp0 as [(? & ? & ? & ? & ->)|(? & ? & ? & ->)];
    [apply wp_new_inv|apply wp_discovered_inv]).
  destruct (wp_run_adds _ _ Hinv Hops) as (p' & Hrun' & (Hb & _) & _).
  rewrite Hrun in Hrun'. injection Hrun' as <-.
  unfold no_changes_received, SequenceNumber_new. destruct (Z.eqb_spec (ack_base p) 0); [lia|done].
Qed.

Lemma no_changes_received_never_holds_witness : no_changes_received demo_proxy = false.
Proof.
  apply (no_changes_received_never_holds demo_proxy []).
  - left. repeat eexists.
  - constructor.
  - reflexivity.
Defined.

(** A GAP replaces the entry of a sample that was received: its timestamp, the
    key into the cache, is forgotten. *)
Example gap_overwrites_received :
  let p := received_changes_add demo_proxy 5 Timestamp_ZERO in
  changes p !! 5 = Some (Some Timestamp_ZERO) /\
  changes (set_irrelevant_change p 5) !! 5 = Some None.
Proof. vm_compute. auto. Qed.
