(* ===== verification/ParameterList.v ===== *)
(** * Parameter lists

    [src/messages/submessages/elements/parameter.rs], [parameter_list.rs] and
    the lookup helper of [src/serialization/speedy_pl_cdr_helpers.rs]: the
    id-length-value lists that carry QoS policies and inline QoS, padded to
    4-byte boundaries and ended by a sentinel. *)

From S2P Require Import Prelude BTree Wire.

Abbreviation ParameterId := Z (only parsing).

Definition PID_SENTINEL : ParameterId := 0x0001.
Definition PID_STATUS_INFO : ParameterId := 0x0071.

Record RtpsParameter := mkParameter { parameter_id : ParameterId; value : bytes }.

#[export] Instance Parameter_eq_dec : EqDecision RtpsParameter.
Proof. solve_decision. Defined.

(** Bits 7, 6 and 5 in the MSB-first numbering of [BitVec]. *)
Definition create_pid_status_info_parameter (is_disposed is_unregistered is_filtered : bool) : RtpsParameter :=
  let last_byte := Z.lor (Z.b2z is_disposed)
                     (Z.lor (Z.shiftl (Z.b2z is_unregistered) 1) (Z.shiftl (Z.b2z is_filtered) 2)) in
  mkParameter PID_STATUS_INFO [0; 0; 0; last_byte].

Definition pad_length (n : Z) : Z := if n mod 4 =? 0 then 0 else 4 - n mod 4.

Definition Parameter_len_serialized (p : RtpsParameter) : Z :=
  let unaligned_length := Z.of_nat (length (value p)) in
  2 + 2 + unaligned_length + pad_length unaligned_length.

Record ParameterList := mkPL { parameters : list RtpsParameter }.

Definition SENTINEL : RtpsParameter := mkParameter PID_SENTINEL [].

Definition ParameterList_is_empty (l : ParameterList) : bool := bool_decide (parameters l = []).
Definition ParameterList_push (l : ParameterList) (p : RtpsParameter) : ParameterList := mkPL (parameters l ++ [p]).
Definition ParameterList_len_serialized (l : ParameterList) : Z :=
  foldr (fun p n => Parameter_len_serialized p + n) 0 (parameters l) + Parameter_len_serialized SENTINEL.

Definition ParameterList_to_map (l : ParameterList) : gmap ParameterId (list RtpsParameter) :=
  foldl (fun m p => <[parameter_id p := default [] (m !! parameter_id p) ++ [p]]> m) ∅ (parameters l).

Section serialization.
Context `{SP : Speedy}.

Definition padding (e : Endianness) (n : nat) : bytes :=
  concat (replicate (Z.to_nat (pad_length (Z.of_nat n))) (write_u8 e 0x00)).

Definition Parameter_write (e : Endianness) (p : RtpsParameter) : bytes :=
  let length := length (value p) in
  write_u16 e (parameter_id p)
  ++ write_u16 e (u16 (Z.of_nat length + pad_length (Z.of_nat length)))
  ++ value p ++ padding e length.

Definition ParameterList_write (e : Endianness) (l : ParameterList) : bytes :=
  concat (Parameter_write e <$> parameters l) ++ Parameter_write e SENTINEL.

(** The [loop] of [ParameterList::read_from], with fuel: [Diverge] when it is used
    up, [Ret None] when something cannot be read.  Every round consumes at least
    four bytes, so that the fuel [ParameterList_read] gives is never used up
    ([ParameterList_read_loop_ends]). *)
Fixpoint ParameterList_read_loop (fuel : nat) (e : Endianness) (bs : bytes)
  : outcome (option (list RtpsParameter * bytes)) :=
  match fuel with
  | O => Diverge
  | S fuel =>
      match read_u16 e bs with
      | None => Ret None
      | Some (pid, bs) =>
          match read_u16 e bs with
          | None => Ret None
          | Some (length, bs) =>
              if pid =? PID_SENTINEL then Ret (Some ([], bs))
              else match read_bytes (Z.to_nat length) bs with
                   | None => Ret None
                   | Some (v, bs) =>
                       r ← ParameterList_read_loop fuel e bs;
                       Ret (option_map (fun '(ps, rest) => (mkParameter pid v :: ps, rest)) r)
                   end
          end
      end
  end.

Definition ParameterList_read (e : Endianness) : reader ParameterList := fun bs =>
  match ParameterList_read_loop (S (length bs)) e bs with
  | Ret r => option_map (fun '(ps, rest) => (mkPL ps, rest)) r
  | _ => None
  end.

(** [D::read_from_buffer_with_ctx]: the value at the start of the buffer. *)
Definition read_from_buffer {D} (r : reader D) (bs : bytes) : option D := fst <$> r bs.

(** The first occurrence of a parameter: [Some None] when there is none, [None]
    when it is there and cannot be read. *)
Definition get_option_from_pl_map {D} (m : gmap ParameterId (list RtpsParameter)) (r : reader D)
    (pid : ParameterId) : option (option D) :=
  match m !! pid ≫= head with
  | None => Some None
  | Some p => match read_from_buffer r (value p) with Some d => Some (Some d) | None => None end
  end.
End serialization.

(** ** Round trip of a list *)

Section facts.
Context `{SP : Speedy, !SpeedyLaws SP}.

(** What the other side sees of a parameter: its value with the padding. *)
Definition padded (e : Endianness) (p : RtpsParameter) : RtpsParameter :=
  mkParameter (parameter_id p) (value p ++ padding e (length (value p))).

Definition Parameter_ok (p : RtpsParameter) : Prop :=
  in_u 16 (parameter_id p) /\ parameter_id p <> PID_SENTINEL /\ Z.of_nat (length (value p)) <= 65532.

Lemma pad_length_bounds n : 0 <= pad_length n < 4.
Proof. unfold pad_length. pose proof (Z.mod_pos_bound n 4). zcases; lia. Qed.

Lemma pad_length_aligns n : (n + pad_length n) mod 4 = 0.
Proof.
  unfold pad_length. zcases; [by rewrite Z.add_0_r|].
  Z.to_euclidean_division_equations. lia.
Qed.

Lemma length_padding e n : Z.of_nat (length (padding e n)) = pad_length (Z.of_nat n).
Proof.
  unfold padding. rewrite length_concat.
  pose proof (pad_length_bounds (Z.of_nat n)) as Hb.
  rewrite <- (Z2Nat.id (pad_length (Z.of_nat n))) at 2 by lia. f_equal.
  generalize (Z.to_nat (pad_length (Z.of_nat n))) as k. induction k as [|k IH]; simpl; [done|].
  unfold write_u8 at 1. rewrite sp_length. simpl in IH. lia.
Qed.

Lemma Parameter_len_serialized_correct e p :
  Z.of_nat (length (Parameter_write e p)) = Parameter_len_serialized p.
Proof.
  unfold Parameter_write, write_u16, Parameter_len_serialized. rewrite !length_app, !sp_length.
  pose proof (length_padding e (length (value p))). lia.
Qed.

Lemma ParameterList_len_serialized_correct e l :
  Z.of_nat (length (ParameterList_write e l)) = ParameterList_len_serialized l.
Proof.
  unfold ParameterList_write, ParameterList_len_serialized.
  rewrite length_app, Nat2Z.inj_add, Parameter_len_serialized_correct. f_equal.
  induction (parameters l) as [|p ps IH]; csimpl; [done|].
  by rewrite length_app, Nat2Z.inj_add, Parameter_len_serialized_correct, IH.
Qed.

Lemma read_write_u16 e z rest : in_u 16 z -> read_u16 e (write_u16 e z ++ rest) = Some (z, rest).
Proof. apply (sp_read_write 2). Qed.

Lemma ParameterList_read_loop_write e fuel ps rest :
  Forall Parameter_ok ps -> (length ps < fuel)%nat ->
  ParameterList_read_loop fuel e
    (concat (Parameter_write e <$> ps) ++ Parameter_write e SENTINEL ++ rest)
  = Ret (Some (padded e <$> ps, rest)).
Proof.
  intros Hps. revert fuel. induction Hps as [|p ps (Hid & Hns & Hlen) _ IH]; intros [|fuel] Hf;
    simpl in Hf; try lia; csimpl.
  - unfold Parameter_write. rewrite <- !(app_assoc _ _ rest).
    rewrite read_write_u16 by (simpl; unfold PID_SENTINEL; bounds_lia).
    rewrite read_write_u16 by (apply wrap_u_range; lia). reflexivity.
  - rewrite <- (app_assoc (Parameter_write e p)). unfold Parameter_write at 1. rewrite <- !app_assoc.
    pose proof (pad_length_bounds (Z.of_nat (length (value p)))) as Hpb.
    rewrite read_write_u16 by done. rewrite read_write_u16 by (apply wrap_u_range; lia).
    destruct (Z.eqb_spec (parameter_id p) PID_SENTINEL); [done|].
    rewrite app_assoc, read_bytes_app.
    + rewrite IH by lia. reflexivity.
    + rewrite length_app. pose proof (length_padding e (length (value p))).
      rewrite wrap_u_id; [lia|].
      pose proof (pad_length_aligns (Z.of_nat (length (value p)))).
      unfold in_u. pow2. Z.to_euclidean_division_equations; lia.
Qed.

Lemma ParameterList_roundtrip e l rest :
  Forall Parameter_ok (parameters l) ->
  ParameterList_read e (ParameterList_write e l ++ rest) = Some (mkPL (padded e <$> parameters l), rest).
Proof.
  intros Hok. unfold ParameterList_read, ParameterList_write.
  rewrite <- app_assoc, ParameterList_read_loop_write; [done|done|].
  rewrite length_app. enough (length (parameters l) <= length (concat (Parameter_write e <$> parameters l)))%nat by lia.
  clear Hok. induction (parameters l) as [|p ps IH]; csimpl; [lia|].
  rewrite length_app. unfold Parameter_write at 1, write_u16 at 1. rewrite length_app, sp_length. lia.
Qed.
End facts.

Section more_fuel.
Context `{SP : Speedy, !SpeedyLaws SP}.

(** What a parameter list is, read at the start of [bs]: parameters, each an id, a
    length and as many bytes, up to the id of the sentinel and its length, which is
    not looked at; [rest] is what follows. *)
Inductive parameter_list_at (e : Endianness) : bytes -> list RtpsParameter -> bytes -> Prop :=
| pl_end bs bs1 n rest :
    read_u16 e bs = Some (PID_SENTINEL, bs1) -> read_u16 e bs1 = Some (n, rest) -> parameter_list_at e bs [] rest
| pl_param bs bs1 pid v bs2 ps rest :
    read_u16 e bs = Some (pid, bs1) -> pid <> PID_SENTINEL ->
    read_u16 e bs1 = Some (Z.of_nat (length v), v ++ bs2) -> parameter_list_at e bs2 ps rest ->
    parameter_list_at e bs (mkParameter pid v :: ps) rest.

Lemma read_u16_nonneg e bs n rest : read_u16 e bs = Some (n, rest) -> 0 <= n.
Proof. intros H. apply sp_read_range in H as [? _]. done. Qed.

(** The loop ends, and decides whether there is a parameter list: with any fuel
    beyond the length of the input, it gives the same result. *)
Lemma ParameterList_read_loop_ends e bs :
  exists r, (forall fuel, (length bs < fuel)%nat -> ParameterList_read_loop fuel e bs = Ret r) /\
    forall ps rest, r = Some (ps, rest) <-> parameter_list_at e bs ps rest.
Proof.
  remember (length bs) as k eqn:Ek. revert bs Ek. induction k as [k IH] using lt_wf_ind. intros bs ->.
  destruct (read_u16 e bs) as [[pid bs1]|] eqn:E1.
  2: { exists None. split; [intros [|f] Hf; [lia|]; simpl; by rewrite E1|]. intros ps rest. split; [done|].
       intros H. inversion H; simplify_eq. }
  destruct (read_u16 e bs1) as [[n bs2]|] eqn:E2.
  2: { exists None. split; [intros [|f] Hf; [lia|]; simpl; by rewrite E1, E2|]. intros ps rest. split; [done|].
       intros H. inversion H; simplify_eq. }
  pose proof (read_u16_nonneg _ _ _ _ E2) as Hn.
  destruct (Z.eqb_spec pid PID_SENTINEL) as [->|Hns].
  { exists (Some ([], bs2)). split; [intros [|f] Hf; [lia|]; simpl; by rewrite E1, E2|]. intros ps rest. split.
    - intros [= <- <-]. by eapply pl_end.
    - intros H. inversion H; simplify_eq; done. }
  pose proof E1 as C1%sp_read_consumes. pose proof E2 as C2%sp_read_consumes.
  destruct (read_bytes (Z.to_nat n) bs2) as [[v bs3]|] eqn:E3.
  2: { exists None. split; [intros [|f] Hf; [lia|]; simpl; rewrite E1, E2; destruct (Z.eqb_spec pid PID_SENTINEL); [done|]; by rewrite E3|].
       intros ps rest. split; [done|]. intros H. inversion H; simplify_eq. rewrite Nat2Z.id, read_bytes_app in E3 by done. done. }
  assert (bs2 = v ++ bs3 /\ length v = Z.to_nat n) as [-> Hv].
  { unfold read_bytes in E3. case_decide; [|done]. simplify_eq. rewrite take_drop, length_take. split; [done|lia]. }
  rewrite length_app in C2. destruct (IH (length bs3) ltac:(lia) bs3 eq_refl) as (r & Hr & Hdec).
  exists (option_map (fun '(ps, rest) => (mkParameter pid v :: ps, rest)) r). split.
  - intros [|f] Hf; [lia|]. simpl. rewrite E1, E2. destruct (Z.eqb_spec pid PID_SENTINEL); [done|]. rewrite E3.
    rewrite (Hr f) by lia. done.
  - intros ps rest. split.
    + destruct r as [[ps' rest']|]; [|done]. intros [= <- <-]. eapply pl_param; [done|done| |by apply Hdec].
      rewrite E2, Hv, Z2Nat.id by done. done.
    + intros H. inversion H as [|? ? ? v' bs4 ps' ? ? ? ? Hps]; simplify_eq.
      assert (v' = v /\ bs4 = bs3) as [-> ->] by (apply app_inj_1; [lia|done]). apply Hdec in Hps as ->. done.
Qed.

Lemma ParameterList_read_decides e bs :
  (forall ps rest, ParameterList_read e bs = Some (mkPL ps, rest) <-> parameter_list_at e bs ps rest).
Proof.
  intros ps rest. destruct (ParameterList_read_loop_ends e bs) as (r & Hr & Hdec). unfold ParameterList_read.
  rewrite (Hr (S (length bs))) by lia. rewrite <- Hdec. destruct r as [[ps' rest']|]; simpl; naive_solver.
Qed.
End more_fuel.

Lemma to_map_lookup l pid :
  default [] (ParameterList_to_map l !! pid) = filter (fun p => parameter_id p = pid) (parameters l).
Proof.
  unfold ParameterList_to_map.
  enough (forall m ps, default [] (foldl (fun m p => <[parameter_id p := default [] (m !! parameter_id p) ++ [p]]> m) m ps !! pid)
    = default [] (m !! pid) ++ filter (fun p => parameter_id p = pid) ps) as E
    by (rewrite E, lookup_empty; done).
  intros m ps. revert m. induction ps as [|p ps IH]; intros m; [by rewrite app_nil_r|].
  simpl foldl. rewrite IH, filter_cons. case_decide as E.
  - rewrite E, lookup_insert_eq. simpl. by rewrite <- app_assoc.
  - by rewrite lookup_insert_ne.
Qed.

Lemma to_map_first l pid :
  (ParameterList_to_map l !! pid ≫= head) = head (filter (fun p => parameter_id p = pid) (parameters l)).
Proof. rewrite <- to_map_lookup. by destruct (ParameterList_to_map l !! pid). Qed.
