(* ===== verification/Qos.v ===== *)
(** * Quality of service policies

    [src/dds/qos.rs]: the policies, their merge ([modify_by]), the
    compatibility check between an offered and a requested set
    ([compliance_failure_wrt]), and their transport as parameter lists.  Built
    without the [security] feature, a policy set has twelve fields. *)

From S2P Require Import Prelude BTree Wire Time ParameterList.

Inductive QosPolicyId :=
| PDurability | PPresentation | PDeadline | PLatencyBudget | POwnership | PLiveliness
| PTimeBasedFilter | PReliability | PDestinationOrder | PHistory | PResourceLimits | PLifespan | PProperty.

Inductive Durability := Volatile | TransientLocal | Transient | Persistent.
Inductive PresentationAccessScope := ScopeInstance | ScopeTopic | ScopeGroup.
Record Presentation := mkPresentation {
  access_scope : PresentationAccessScope; coherent_access : bool; ordered_access : bool }.
Record Deadline := mkDeadline { deadline_period : Duration }.
Record LatencyBudget := mkLatencyBudget { latency_duration : Duration }.
Inductive Ownership := Shared | Exclusive (strength : Z).
Inductive Liveliness :=
| Automatic (lease_duration : Duration)
| ManualByParticipant (lease_duration : Duration)
| ManualByTopic (lease_duration : Duration).
Record TimeBasedFilter := mkTimeBasedFilter { minimum_separation : Duration }.
Inductive Reliability := BestEffort | Reliable (max_blocking_time : Duration).
Inductive DestinationOrder := ByReceptionTimestamp | BySourceTimeStamp.
Inductive History := KeepLast (depth : Z) | KeepAll.
Record ResourceLimits := mkResourceLimits {
  max_samples : Z; max_instances : Z; max_samples_per_instance : Z }.
Record Lifespan := mkLifespan { lifespan_duration : Duration }.

Definition LENGTH_UNLIMITED : Z := -1.

#[export] Instance QosPolicyId_eq_dec : EqDecision QosPolicyId.
Proof. solve_decision. Defined.
#[export] Instance Reliability_eq_dec : EqDecision Reliability.
Proof. solve_decision. Defined.
#[export] Instance Ownership_eq_dec : EqDecision Ownership.
Proof. solve_decision. Defined.

(** [#[derive(Ord)]] on a field-less enum compares the variant index. *)
Definition Durability_rank (d : Durability) : Z :=
  match d with Volatile => 0 | TransientLocal => 1 | Transient => 2 | Persistent => 3 end.
Definition scope_rank (s : PresentationAccessScope) : Z :=
  match s with ScopeInstance => 0 | ScopeTopic => 1 | ScopeGroup => 2 end.
Definition DestinationOrder_rank (d : DestinationOrder) : Z :=
  match d with ByReceptionTimestamp => 0 | BySourceTimeStamp => 1 end.

Definition Liveliness_kind_num (l : Liveliness) : Z :=
  match l with Automatic _ => 0 | ManualByParticipant _ => 1 | ManualByTopic _ => 2 end.
Definition Liveliness_duration (l : Liveliness) : Duration :=
  match l with Automatic d | ManualByParticipant d | ManualByTopic d => d end.

(** [Ordering::then_with] *)
Definition then_with (a b : comparison) : comparison := match a with Eq => b | c => c end.

Definition Liveliness_cmp (self other : Liveliness) : comparison :=
  then_with (Z.compare (Liveliness_kind_num other) (Liveliness_kind_num other))
    (CompOpp (kcmp (Liveliness_duration self) (Liveliness_duration other))).

Definition Reliability_cmp (self other : Reliability) : comparison :=
  match self, other with
  | BestEffort, BestEffort | Reliable _, Reliable _ => Eq
  | BestEffort, Reliable _ => Lt
  | Reliable _, BestEffort => Gt
  end.

(** Derived: variants in order, then the fields. *)
Definition History_cmp (self other : History) : comparison :=
  match self, other with
  | KeepLast a, KeepLast b => Z.compare a b
  | KeepLast _, KeepAll => Lt
  | KeepAll, KeepLast _ => Gt
  | KeepAll, KeepAll => Eq
  end.

Record QosPolicies := mkQos {
  durability : option Durability;
  presentation : option Presentation;
  deadline : option Deadline;
  latency_budget : option LatencyBudget;
  ownership : option Ownership;
  liveliness : option Liveliness;
  time_based_filter : option TimeBasedFilter;
  reliability : option Reliability;
  destination_order : option DestinationOrder;
  history : option History;
  resource_limits : option ResourceLimits;
  lifespan : option Lifespan;
}.

Definition qos_none : QosPolicies :=
  mkQos None None None None None None None None None None None None.

Definition is_volatile (q : QosPolicies) : bool :=
  match durability q with Some Volatile => true | _ => false end.
Definition is_reliable (q : QosPolicies) : bool :=
  match reliability q with Some (Reliable _) => true | _ => false end.
Definition reliable_max_blocking_time (q : QosPolicies) : option Duration :=
  match reliability q with Some (Reliable d) => Some d | _ => None end.

(** [Option::or] *)
Definition option_or {A} (a b : option A) : option A := match a with Some _ => a | None => b end.

Definition modify_by (self other : QosPolicies) : QosPolicies :=
  mkQos (option_or (durability other) (durability self))
        (option_or (presentation other) (presentation self))
        (option_or (deadline other) (deadline self))
        (option_or (latency_budget other) (latency_budget self))
        (option_or (ownership other) (ownership self))
        (option_or (liveliness other) (liveliness self))
        (option_or (time_based_filter other) (time_based_filter self))
        (option_or (reliability other) (reliability self))
        (option_or (destination_order other) (destination_order self))
        (option_or (history other) (history self))
        (option_or (resource_limits other) (resource_limits self))
        (option_or (lifespan other) (lifespan self)).

Definition is_lt (c : comparison) : bool := match c with Lt => true | _ => false end.
Definition is_gt (c : comparison) : bool := match c with Gt => true | _ => false end.

(** [if let (Some(off), Some(req)) = ... { if bad { return Some(id) } }] *)
Definition check_policy {A} (off req : option A) (bad : A -> A -> bool) (id : QosPolicyId)
    (rest : option QosPolicyId) : option QosPolicyId :=
  match off, req with
  | Some off, Some req => if bad off req then Some id else rest
  | _, _ => rest
  end.

Definition compliance_failure_wrt (self other : QosPolicies) : option QosPolicyId :=
  check_policy (durability self) (durability other)
    (fun off req => Durability_rank off <? Durability_rank req) PDurability $
  check_policy (presentation self) (presentation other)
    (fun off req => (coherent_access req && negb (coherent_access off))
                    || (ordered_access req && negb (ordered_access off))
                    || (scope_rank (access_scope off) <? scope_rank (access_scope req))) PPresentation $
  check_policy (deadline self) (deadline other)
    (fun off req => is_gt (kcmp (deadline_period off) (deadline_period req))) PDeadline $
  check_policy (latency_budget self) (latency_budget other)
    (fun off req => is_gt (kcmp (latency_duration off) (latency_duration req))) PLatencyBudget $
  check_policy (ownership self) (ownership other)
    (fun off req => negb (bool_decide (off = req))) POwnership $
  check_policy (liveliness self) (liveliness other)
    (fun off req => is_lt (Liveliness_cmp off req)) PLiveliness $
  check_policy (reliability self) (reliability other)
    (fun off req => is_lt (Reliability_cmp off req)) PReliability $
  check_policy (destination_order self) (destination_order other)
    (fun off req => DestinationOrder_rank off <? DestinationOrder_rank req) PDestinationOrder $
  None.

(** ** Parameter lists

    [speedy]'s derived encodings: a struct is its fields in order, an enum the
    32-bit index of the variant (the discriminant where one is given) and then
    the fields of the variant; an unknown index is an error. *)

Definition PID_DURABILITY : ParameterId := 0x001d.
Definition PID_PRESENTATION : ParameterId := 0x0021.
Definition PID_DEADLINE : ParameterId := 0x0023.
Definition PID_LATENCY_BUDGET : ParameterId := 0x0027.
Definition PID_OWNERSHIP : ParameterId := 0x001f.
Definition PID_OWNERSHIP_STRENGTH : ParameterId := 0x0006.
Definition PID_LIVELINESS : ParameterId := 0x001b.
Definition PID_TIME_BASED_FILTER : ParameterId := 0x0004.
Definition PID_RELIABILITY : ParameterId := 0x001a.
Definition PID_DESTINATION_ORDER : ParameterId := 0x0025.
Definition PID_HISTORY : ParameterId := 0x0040.
Definition PID_RESOURCE_LIMITS : ParameterId := 0x0041.
Definition PID_LIFESPAN : ParameterId := 0x002b.

Inductive HistoryKind := HKeepLast | HKeepAll.
Record HistorySerialization := mkHistorySer { hs_kind : HistoryKind; hs_depth : Z }.
Inductive OwnershipKind := OShared | OExclusive.
Inductive ReliabilityKind := RBestEffort | RReliable.
Record ReliabilitySerialization := mkReliabilitySer {
  rs_reliability_kind : ReliabilityKind; rs_max_blocking_time : Duration }.

Section parameter_list.
Context `{SP : Speedy}.

(** An enum without fields, as the list of its variants with their tags. *)
Definition read_enum {A} (variants : list (Z * A)) (e : Endianness) : reader A :=
  t ← read_u32 e;
  match list_find (fun v => v.1 = t) variants with
  | Some (_, (_, a)) => mret a
  | None => reader_fail
  end.

Definition Duration_write (e : Endianness) (d : Duration) : bytes :=
  write_i32 e (d_seconds d) ++ write_u32 e (d_fraction d).
Definition Duration_read (e : Endianness) : reader Duration :=
  s ← read_i32 e; f ← read_u32 e; mret (mkDuration s f).

Definition Durability_write (e : Endianness) (d : Durability) : bytes := write_u32 e (Durability_rank d).
Definition Durability_read : Endianness -> reader Durability :=
  read_enum [(0, Volatile); (1, TransientLocal); (2, Transient); (3, Persistent)].

Definition Presentation_write (e : Endianness) (p : Presentation) : bytes :=
  write_u32 e (scope_rank (access_scope p))
  ++ sp_write_bool e (coherent_access p) ++ sp_write_bool e (ordered_access p).
Definition Presentation_read (e : Endianness) : reader Presentation :=
  s ← read_enum [(0, ScopeInstance); (1, ScopeTopic); (2, ScopeGroup)] e;
  c ← sp_read_bool e; o ← sp_read_bool e; mret (mkPresentation s c o).

Definition Liveliness_write (e : Endianness) (l : Liveliness) : bytes :=
  write_u32 e (Liveliness_kind_num l) ++ Duration_write e (Liveliness_duration l).
Definition Liveliness_read (e : Endianness) : reader Liveliness :=
  k ← read_enum [(0, Automatic); (1, ManualByParticipant); (2, ManualByTopic)] e;
  d ← Duration_read e; mret (k d).

Definition DestinationOrder_write (e : Endianness) (d : DestinationOrder) : bytes :=
  write_u32 e (DestinationOrder_rank d).
Definition DestinationOrder_read : Endianness -> reader DestinationOrder :=
  read_enum [(0, ByReceptionTimestamp); (1, BySourceTimeStamp)].

Definition OwnershipKind_write (e : Endianness) (k : OwnershipKind) : bytes :=
  write_u32 e (match k with OShared => 0 | OExclusive => 1 end).
Definition OwnershipKind_read : Endianness -> reader OwnershipKind :=
  read_enum [(0, OShared); (1, OExclusive)].

Definition ReliabilitySerialization_write (e : Endianness) (r : ReliabilitySerialization) : bytes :=
  write_u32 e (match rs_reliability_kind r with RBestEffort => 1 | RReliable => 2 end)
  ++ Duration_write e (rs_max_blocking_time r).
Definition ReliabilitySerialization_read (e : Endianness) : reader ReliabilitySerialization :=
  k ← read_enum [(1, RBestEffort); (2, RReliable)] e; d ← Duration_read e; mret (mkReliabilitySer k d).

Definition HistorySerialization_write (e : Endianness) (h : HistorySerialization) : bytes :=
  write_u32 e (match hs_kind h with HKeepLast => 0 | HKeepAll => 1 end) ++ write_i32 e (hs_depth h).
Definition HistorySerialization_read (e : Endianness) : reader HistorySerialization :=
  k ← read_enum [(0, HKeepLast); (1, HKeepAll)] e; d ← read_i32 e; mret (mkHistorySer k d).

Definition ResourceLimits_write (e : Endianness) (r : ResourceLimits) : bytes :=
  write_i32 e (max_samples r) ++ write_i32 e (max_instances r) ++ write_i32 e (max_samples_per_instance r).
Definition ResourceLimits_read (e : Endianness) : reader ResourceLimits :=
  a ← read_i32 e; b ← read_i32 e; c ← read_i32 e; mret (mkResourceLimits a b c).

(** The macros [emit!] and [emit_option!] *)
Definition emit (pid : ParameterId) (v : bytes) : list RtpsParameter := [mkParameter pid v].
Definition emit_option {A} (pid : ParameterId) (write : A -> bytes) (m : option A) : list RtpsParameter :=
  match m with Some m => emit pid (write m) | None => [] end.

Definition reliability_ser (r : Reliability) : ReliabilitySerialization :=
  match r with
  | BestEffort => mkReliabilitySer RBestEffort Duration_ZERO
  | Reliable max_blocking_time => mkReliabilitySer RReliable max_blocking_time
  end.
Definition history_ser (h : History) : HistorySerialization :=
  match h with KeepLast depth => mkHistorySer HKeepLast depth | KeepAll => mkHistorySer HKeepAll 0 end.

Definition to_parameter_list (e : Endianness) (q : QosPolicies) : list RtpsParameter :=
  emit_option PID_DURABILITY (Durability_write e) (durability q)
  ++ emit_option PID_PRESENTATION (Presentation_write e) (presentation q)
  ++ emit_option PID_DEADLINE (fun d => Duration_write e (deadline_period d)) (deadline q)
  ++ emit_option PID_LATENCY_BUDGET (fun d => Duration_write e (latency_duration d)) (latency_budget q)
  ++ match ownership q with
     | Some (Exclusive strength) =>
         emit PID_OWNERSHIP (OwnershipKind_write e OExclusive) ++ emit PID_OWNERSHIP_STRENGTH (write_i32 e strength)
     | Some Shared => emit PID_OWNERSHIP (OwnershipKind_write e OShared)
     | None => []
     end
  ++ emit_option PID_LIVELINESS (Liveliness_write e) (liveliness q)
  ++ emit_option PID_TIME_BASED_FILTER (fun d => Duration_write e (minimum_separation d)) (time_based_filter q)
  ++ emit_option PID_RELIABILITY (fun r => ReliabilitySerialization_write e (reliability_ser r)) (reliability q)
  ++ emit_option PID_DESTINATION_ORDER (DestinationOrder_write e) (destination_order q)
  ++ emit_option PID_HISTORY (fun h => HistorySerialization_write e (history_ser h)) (history q)
  ++ emit_option PID_RESOURCE_LIMITS (ResourceLimits_write e) (resource_limits q)
  ++ emit_option PID_LIFESPAN (fun d => Duration_write e (lifespan_duration d)) (lifespan q).

(** [None] is a deserialization error. *)
Definition from_parameter_list (e : Endianness) (pl_map : gmap ParameterId (list RtpsParameter))
  : option QosPolicies :=
  dur ← get_option_from_pl_map pl_map (Durability_read e) PID_DURABILITY;
  pres ← get_option_from_pl_map pl_map (Presentation_read e) PID_PRESENTATION;
  dead ← get_option_from_pl_map pl_map (d ← Duration_read e; mret (mkDeadline d)) PID_DEADLINE;
  lat ← get_option_from_pl_map pl_map (d ← Duration_read e; mret (mkLatencyBudget d)) PID_LATENCY_BUDGET;
  ownership_kind ← get_option_from_pl_map pl_map (OwnershipKind_read e) PID_OWNERSHIP;
  ownership_strength ← get_option_from_pl_map pl_map (read_i32 e) PID_OWNERSHIP_STRENGTH;
  let own := match ownership_kind, ownership_strength with
             | Some OShared, None => Some Shared
             | Some OShared, Some _ => None
             | Some OExclusive, Some strength => Some (Exclusive strength)
             | Some OExclusive, None => None
             | None, _ => None
             end in
  rel ← get_option_from_pl_map pl_map (ReliabilitySerialization_read e) PID_RELIABILITY;
  let rel := (fun rs => match rs_reliability_kind rs with
                        | RBestEffort => BestEffort
                        | RReliable => Reliable (rs_max_blocking_time rs) end) <$> rel in
  ord ← get_option_from_pl_map pl_map (DestinationOrder_read e) PID_DESTINATION_ORDER;
  his ← get_option_from_pl_map pl_map (HistorySerialization_read e) PID_HISTORY;
  let his := (fun h => match hs_kind h with HKeepAll => KeepAll | HKeepLast => KeepLast (hs_depth h) end) <$> his in
  liv ← get_option_from_pl_map pl_map (Liveliness_read e) PID_LIVELINESS;
  tbf ← get_option_from_pl_map pl_map (d ← Duration_read e; mret (mkTimeBasedFilter d)) PID_TIME_BASED_FILTER;
  lim ← get_option_from_pl_map pl_map (ResourceLimits_read e) PID_RESOURCE_LIMITS;
  lif ← get_option_from_pl_map pl_map (d ← Duration_read e; mret (mkLifespan d)) PID_LIFESPAN;
  Some (mkQos dur pres dead lat own liv tbf rel ord his lim lif).
End parameter_list.

(** ** What the check decides *)

(** For two policies that are both stated, the rule per policy that the check
    applies.  Periods are compared as numbers of ticks. *)
Definition both {A} (off req : option A) (R : A -> A -> Prop) : Prop :=
  forall o r, off = Some o -> req = Some r -> R o r.

Definition policy_compliant (id : QosPolicyId) (off req : QosPolicies) : Prop :=
  match id with
  | PDurability => both (durability off) (durability req) (fun o r => Durability_rank r <= Durability_rank o)
  | PPresentation => both (presentation off) (presentation req) (fun o r =>
      (coherent_access r = true -> coherent_access o = true) /\
      (ordered_access r = true -> ordered_access o = true) /\
      scope_rank (access_scope r) <= scope_rank (access_scope o))
  | PDeadline => both (deadline off) (deadline req) (fun o r =>
      Duration_to_ticks (deadline_period o) <= Duration_to_ticks (deadline_period r))
  | PLatencyBudget => both (latency_budget off) (latency_budget req) (fun o r =>
      Duration_to_ticks (latency_duration o) <= Duration_to_ticks (latency_duration r))
  | POwnership => both (ownership off) (ownership req) eq
  | PLiveliness => both (liveliness off) (liveliness req) (fun o r =>
      Duration_to_ticks (Liveliness_duration o) <= Duration_to_ticks (Liveliness_duration r))
  | PReliability => both (reliability off) (reliability req) (fun o r =>
      forall d, r = Reliable d -> exists d', o = Reliable d')
  | PDestinationOrder => both (destination_order off) (destination_order req) (fun o r =>
      DestinationOrder_rank r <= DestinationOrder_rank o)
  | _ => True
  end.

(** The durations of a policy set fit their machine types. *)
Definition qos_durations_ok (q : QosPolicies) : Prop :=
  (forall d, deadline q = Some d -> Duration_ok (deadline_period d)) /\
  (forall d, latency_budget q = Some d -> Duration_ok (latency_duration d)) /\
  (forall l, liveliness q = Some l -> Duration_ok (Liveliness_duration l)).

Lemma Duration_gt_ticks a b : Duration_ok a -> Duration_ok b ->
  is_gt (kcmp a b) = false <-> Duration_to_ticks a <= Duration_to_ticks b.
Proof.
  intros Ha Hb. transitivity (~ klt b a).
  - unfold klt. rewrite (kcmp_antisym a b). destruct (kcmp a b); simpl; naive_solver.
  - rewrite Duration_lt_ticks by done. lia.
Qed.

Lemma Liveliness_cmp_durations a b :
  Liveliness_cmp a b = CompOpp (kcmp (Liveliness_duration a) (Liveliness_duration b)).
Proof. unfold Liveliness_cmp. by rewrite Z.compare_refl. Qed.

(** One step of the check: it names [id] when the rule of [id] is broken and
    goes on to the rest otherwise. *)
Lemma check_policy_spec {A} qo qr (off req : option A) bad (R : A -> A -> Prop) id rest :
  policy_compliant id qo qr = both off req R ->
  (forall o r, off = Some o -> req = Some r -> bad o r = false <-> R o r) ->
  (check_policy off req bad id rest = rest /\ policy_compliant id qo qr) \/
  (check_policy off req bad id rest = Some id /\ ~ policy_compliant id qo qr).
Proof.
  intros -> Hbad. unfold check_policy, both. destruct off as [o|], req as [r|]; [|left; naive_solver..].
  specialize (Hbad o r eq_refl eq_refl). destruct (bad o r).
  - right. split; [done|]. intros H. specialize (H o r eq_refl eq_refl). by apply Hbad in H.
  - left. split; [done|]. intros ? ? [= <-] [= <-]. by apply Hbad.
Qed.

(** What [compliance_failure_wrt] returns, before and after one more check. *)
Definition check_result (ids : list QosPolicyId) (off req : QosPolicies) (res : option QosPolicyId) : Prop :=
  match res with
  | Some id => id ∈ ids /\ ~ policy_compliant id off req
  | None => forall id, id ∈ ids -> policy_compliant id off req
  end.

Lemma check_result_step {A} off req (o r : option A) bad (R : A -> A -> Prop) id ids rest :
  policy_compliant id off req = both o r R ->
  (forall x y, o = Some x -> r = Some y -> bad x y = false <-> R x y) ->
  check_result ids off req rest ->
  check_result (id :: ids) off req (check_policy o r bad id rest).
Proof.
  intros HR Hbad Hrest.
  destruct (check_policy_spec off req o r bad R id rest HR Hbad) as [[-> Hc]|[-> Hn]].
  - unfold check_result in *. destruct rest; [set_solver|].
    intros id' [->|?]%elem_of_cons; auto.
  - split; [set_solver|done].
Qed.

Definition checked_policies : list QosPolicyId :=
  [PDurability; PPresentation; PDeadline; PLatencyBudget; POwnership; PLiveliness; PReliability; PDestinationOrder].

Lemma compliance_check_result off req :
  qos_durations_ok off -> qos_durations_ok req ->
  check_result checked_policies off req (compliance_failure_wrt off req).
Proof.
  intros (HD & HB & HL) (HD' & HB' & HL'). unfold compliance_failure_wrt, checked_policies.
  eapply check_result_step; [reflexivity| |].
  { intros. rewrite Z.ltb_ge. done. }
  eapply check_result_step; [reflexivity| |].
  { intros o r _ _. rewrite !orb_false_iff, !andb_false_iff, !negb_false_iff, Z.ltb_ge.
    destruct (coherent_access o), (coherent_access r), (ordered_access o), (ordered_access r); naive_solver. }
  eapply check_result_step; [reflexivity|intros; apply Duration_gt_ticks; auto|].
  eapply check_result_step; [reflexivity|intros; apply Duration_gt_ticks; auto|].
  eapply check_result_step; [reflexivity| |].
  { intros. by rewrite negb_false_iff, bool_decide_eq_true. }
  eapply check_result_step; [reflexivity| |].
  { intros o r Ho Hr. rewrite <- Duration_gt_ticks by auto. rewrite Liveliness_cmp_durations.
    by destruct (kcmp (Liveliness_duration o) (Liveliness_duration r)). }
  eapply check_result_step; [reflexivity| |].
  { intros [] [] _ _; simpl; naive_solver. }
  eapply check_result_step; [reflexivity| |].
  { intros. rewrite Z.ltb_ge. done. }
  intros id. set_solver.
Qed.

Lemma compliance_applied off req :
  qos_durations_ok off -> qos_durations_ok req ->
  (forall id, compliance_failure_wrt off req = Some id -> ~ policy_compliant id off req) /\
  (compliance_failure_wrt off req = None <-> forall id, policy_compliant id off req).
Proof.
  intros Ho Hr. pose proof (compliance_check_result off req Ho Hr) as Hc.
  destruct (compliance_failure_wrt off req) as [id|]; simpl in Hc.
  - split; [intros ? [= <-]; apply Hc|]. split; [done|]. intros H. destruct Hc as [_ []]. auto.
  - split; [done|]. split; [|done]. intros _ id. destruct (decide (id ∈ checked_policies)) as [?|Hn]; [auto|].
    destruct id; try exact I; exfalso; apply Hn; set_solver.
Qed.

(** The rules as the comments of [compliance_failure_wrt_impl] give them.  They
    are those of [policy_compliant] except for two policies: of the ownership only
    the kind counts, and of the liveliness the kind counts as well, in the order
    AUTOMATIC < MANUAL_BY_PARTICIPANT < MANUAL_BY_TOPIC. *)
Definition documented_rule (id : QosPolicyId) (off req : QosPolicies) : Prop :=
  match id with
  | POwnership => both (ownership off) (ownership req) (fun o r => o = Shared <-> r = Shared)
  | PLiveliness => both (liveliness off) (liveliness req) (fun o r =>
      match r with
      | Automatic _ => True
      | ManualByParticipant _ => forall d, o <> Automatic d
      | ManualByTopic _ => exists d, o = ManualByTopic d
      end /\ Duration_to_ticks (Liveliness_duration o) <= Duration_to_ticks (Liveliness_duration r))
  | _ => policy_compliant id off req
  end.

(** Where code and comments part: the strengths of two EXCLUSIVE ownerships, and
    the order of the liveliness kinds. *)
Definition strengths_agree (off req : QosPolicies) : Prop :=
  forall s t, ownership off = Some (Exclusive s) -> ownership req = Some (Exclusive t) -> s = t.
Definition liveliness_kinds_ordered (off req : QosPolicies) : Prop :=
  both (liveliness off) (liveliness req) (fun o r => Liveliness_kind_num r <= Liveliness_kind_num o).

Lemma ownership_rule off req :
  policy_compliant POwnership off req <-> documented_rule POwnership off req /\ strengths_agree off req.
Proof.
  unfold strengths_agree, documented_rule, policy_compliant, both. split.
  - intros H. split; [by intros o r Ho Hr; rewrite (H o r Ho Hr)|]. intros s t Hs Ht. by injection (H _ _ Hs Ht).
  - intros [Hk Hs] o r Ho Hr. specialize (Hk o r Ho Hr). destruct o as [|s], r as [|t]; [done|naive_solver..|].
    by rewrite (Hs s t Ho Hr).
Qed.

Lemma liveliness_rule off req :
  documented_rule PLiveliness off req <-> policy_compliant PLiveliness off req /\ liveliness_kinds_ordered off req.
Proof.
  assert (forall o r, match r with Automatic _ => True | ManualByParticipant _ => forall d, o <> Automatic d
    | ManualByTopic _ => exists d, o = ManualByTopic d end <-> Liveliness_kind_num r <= Liveliness_kind_num o) as Hk.
  { intros [] []; simpl; split; intros H; try done; try lia; try (by destruct H); try (by edestruct H); by eexists. }
  unfold liveliness_kinds_ordered, documented_rule, policy_compliant, both. split.
  - intros H. split; intros o r Ho Hr; destruct (H o r Ho Hr) as [H1 H2]; [done|by apply Hk].
  - intros [H1 H2] o r Ho Hr. split; [apply Hk; auto|auto].
Qed.

Lemma other_rules id off req : id <> POwnership -> id <> PLiveliness -> documented_rule id off req = policy_compliant id off req.
Proof. by destruct id. Qed.

(** C39: the compatibility check against the rules that the comments in the code
    give per policy ([documented_rule]), for durations within their machine types.
    A policy other than the ownership that is named is one whose rule is broken; an
    ownership that is named breaks its rule or consists of two EXCLUSIVE ones of
    different strength, which the comment does not ask to compare. When the
    strengths agree and the offered kind of liveliness is not below the requested
    one, the check finds nothing exactly when every rule holds; when it finds
    nothing, every rule holds but possibly the part about the kinds of liveliness,
    which the code never compares. *)
Theorem compliance_failure_correct off req :
  qos_durations_ok off -> qos_durations_ok req ->
  (forall id, compliance_failure_wrt off req = Some id -> id <> POwnership -> ~ documented_rule id off req) /\
  (compliance_failure_wrt off req = Some POwnership -> documented_rule POwnership off req -> ~ strengths_agree off req) /\
  (strengths_agree off req -> liveliness_kinds_ordered off req ->
     compliance_failure_wrt off req = None <-> forall id, documented_rule id off req) /\
  (compliance_failure_wrt off req = None ->
     strengths_agree off req /\ (forall id, id <> PLiveliness -> documented_rule id off req) /\
     (liveliness_kinds_ordered off req -> documented_rule PLiveliness off req)).
Proof.
  intros Ho Hr. pose proof (ownership_rule off req) as HO. pose proof (liveliness_rule off req) as HL.
  pose proof (fun id => other_rules id off req) as HX.
  destruct (compliance_applied off req Ho Hr) as [Hs Hn]. split_and!.
  - intros id E Hid Hd. apply (Hs id E). destruct (decide (id = PLiveliness)) as [->|?]; [by apply HL|by rewrite <- HX].
  - intros E Hd Hst. apply (Hs _ E), HO. done.
  - intros Hst Hlk. rewrite Hn. split; intros H id; specialize (H id).
    + destruct (decide (id = POwnership)) as [->|?]; [by apply HO|].
      destruct (decide (id = PLiveliness)) as [->|?]; [by apply HL|by rewrite HX].
    + destruct (decide (id = POwnership)) as [->|?]; [by apply HO|].
      destruct (decide (id = PLiveliness)) as [->|?]; [by apply HL|by rewrite <- HX].
  - intros E. pose proof (proj1 Hn E) as H. split_and!.
    + by apply HO.
    + intros id Hid. destruct (decide (id = POwnership)) as [->|?]; [by apply HO|by rewrite HX].
    + intros Hlk. by apply HL.
Qed.

Definition demo_offered : QosPolicies :=
  modify_by qos_none (mkQos (Some TransientLocal) None (Some (mkDeadline (mkDuration 1 0))) None None
                        (Some (Automatic (mkDuration 5 0))) None (Some BestEffort) None None None None).
Definition demo_requested : QosPolicies :=
  mkQos (Some Volatile) None (Some (mkDeadline (mkDuration 2 0))) None None
    (Some (ManualByTopic (mkDuration 5 0))) None (Some (Reliable Duration_ZERO)) None None None None.

Lemma compliance_failure_correct_witness :
  compliance_failure_wrt demo_offered demo_requested = Some PReliability /\
  ~ documented_rule PReliability demo_offered demo_requested.
Proof.
  split; [reflexivity|].
  apply (compliance_failure_correct demo_offered demo_requested); [| |reflexivity|discriminate].
  - split_and!; simpl; intros ? [= <-]; cbv; repeat split; discriminate.
  - split_and!; simpl; intros ? [= <-]; cbv; repeat split; discriminate.
Defined.

(** The kind of a liveliness policy plays no part in the check: whatever
    kinds are offered and requested, the outcome is that of comparing the lease
    durations, so an offered [Automatic] satisfies a requested
    [ManualByTopic] although the documented order of the kinds forbids it. *)
Theorem liveliness_kind_ignored off req d d' (k k' : Duration -> Liveliness) :
  k ∈ [Automatic; ManualByParticipant; ManualByTopic] ->
  k' ∈ [Automatic; ManualByParticipant; ManualByTopic] ->
  liveliness off = Some (k d) -> liveliness req = Some (k' d') ->
  compliance_failure_wrt off req =
  compliance_failure_wrt (modify_by off (mkQos None None None None None (Some (Automatic d)) None None None None None None))
                         (modify_by req (mkQos None None None None None (Some (ManualByTopic d')) None None None None None None)).
Proof.
  intros Hk Hk' Eo Er. unfold compliance_failure_wrt.
  cbn [modify_by option_or durability presentation deadline latency_budget ownership liveliness
       time_based_filter reliability destination_order history resource_limits lifespan].
  rewrite Eo, Er. unfold check_policy at 6 14. rewrite !Liveliness_cmp_durations.
  rewrite !elem_of_cons in Hk, Hk'. destruct Hk as [->|[->|[->|[]%elem_of_nil]]];
    destruct Hk' as [->|[->|[->|[]%elem_of_nil]]]; reflexivity.
Qed.

Lemma liveliness_kind_ignored_witness :
  let off := mkQos None None None None None (Some (Automatic Duration_ZERO)) None None None None None None in
  let req := mkQos None None None None None (Some (ManualByTopic Duration_ZERO)) None None None None None None in
  compliance_failure_wrt off req = None.
Proof.
  intros off req.
  refine (eq_trans (liveliness_kind_ignored off req Duration_ZERO Duration_ZERO Automatic ManualByTopic _ _ eq_refl eq_refl) eq_refl).
  - constructor.
  - repeat constructor.
Defined.

(** The comparison of ownership includes the strength: two exclusive policies
    of different strength do not match. *)
Example ownership_strength_compared :
  compliance_failure_wrt
    (mkQos None None None None (Some (Exclusive 5)) None None None None None None None)
    (mkQos None None None None (Some (Exclusive 0)) None None None None None None None) = Some POwnership.
Proof. reflexivity. Qed.

(** ** Merging *)

Lemma option_or_assoc {A} (a b c : option A) : option_or a (option_or b c) = option_or (option_or a b) c.
Proof. by destruct a. Qed.

(** Merging policy sets is a monoid with the empty set as unit in which the
    later set wins: it is associative and idempotent, and merging a policy set
    over itself or over the empty set gives it back. *)
Theorem modify_by_monoid a b c :
  modify_by (modify_by a b) c = modify_by a (modify_by b c) /\
  modify_by a qos_none = a /\ modify_by qos_none a = a /\
  modify_by a a = a /\ modify_by (modify_by a b) b = modify_by a b.
Proof.
  assert (forall A (x : option A), option_or x x = x) as Hid by (by intros ? []).
  assert (forall A (x : option A), option_or x None = x) as Hnone by (by intros ? []).
  split_and!.
  - unfold modify_by; cbn. f_equal; apply eq_sym, option_or_assoc || apply option_or_assoc.
  - by destruct a.
  - unfold modify_by; cbn. rewrite !Hnone. by destruct a.
  - unfold modify_by. rewrite !Hid. by destruct a.
  - unfold modify_by; cbn. rewrite !option_or_assoc, !Hid. done.
Qed.

(** ** Round trip through a parameter list *)

Definition qos_ok (q : QosPolicies) : Prop :=
  qos_durations_ok q /\
  (forall d, time_based_filter q = Some d -> Duration_ok (minimum_separation d)) /\
  (forall d, reliability q = Some (Reliable d) -> Duration_ok d) /\
  (forall d, lifespan q = Some d -> Duration_ok (lifespan_duration d)) /\
  (forall s, ownership q = Some (Exclusive s) -> in_s 32 s) /\
  (forall n, history q = Some (KeepLast n) -> in_s 32 n) /\
  (forall r, resource_limits q = Some r ->
     in_s 32 (max_samples r) /\ in_s 32 (max_instances r) /\ in_s 32 (max_samples_per_instance r)).

Section roundtrip.
Context `{SP : Speedy, !SpeedyLaws SP}.

Lemma filter_padded e pid (l : list RtpsParameter) :
  filter (fun p => parameter_id p = pid) (padded e <$> l) = padded e <$> filter (fun p => parameter_id p = pid) l.
Proof.
  induction l as [|p l IH]; csimpl; [done|]. rewrite !filter_cons. simpl.
  case_decide; csimpl; by rewrite IH.
Qed.

Lemma filter_emit_eq {A} pid (w : A -> bytes) m :
  filter (fun p => parameter_id p = pid) (emit_option pid w m) = emit_option pid w m.
Proof. destruct m; [|done]. unfold emit_option, emit. by rewrite filter_cons, decide_True. Qed.

Lemma filter_emit_ne {A} pid pid' (w : A -> bytes) m :
  pid <> pid' -> filter (fun p => parameter_id p = pid') (emit_option pid w m) = [].
Proof. intros ?. destruct m; [|done]. unfold emit_option, emit. by rewrite filter_cons, decide_False. Qed.

(** A policy that was emitted once is found and read back. *)
Lemma get_emitted {A D} e (l : list RtpsParameter) pid (w : A -> bytes) (r : reader D) (f : A -> D) m :
  filter (fun p => parameter_id p = pid) l = emit_option pid w m ->
  (forall x rest, m = Some x -> r (w x ++ rest) = Some (f x, rest)) ->
  get_option_from_pl_map (ParameterList_to_map (mkPL (padded e <$> l))) r pid = Some (f <$> m).
Proof.
  intros Hl Hr. unfold get_option_from_pl_map, read_from_buffer.
  rewrite to_map_first. simpl. rewrite filter_padded, Hl. destruct m as [x|]; simpl; [|done].
  by rewrite (Hr x) by done.
Qed.

Lemma Duration_roundtrip e d rest : Duration_ok d -> Duration_read e (Duration_write e d ++ rest) = Some (d, rest).
Proof.
  intros [Hs Hf]. unfold Duration_read, Duration_write, mbind, reader_bind.
  rewrite <- app_assoc, read_write_i32, read_write_u32 by done. by destruct d.
Qed.

(** A literal tag fits 32 bits. *)
Ltac tag_bound := cbv; split; [discriminate|reflexivity].

Lemma read_enum_tag {A} (vs : list (Z * A)) e t i a rest :
  in_u 32 t -> list_find (fun v => v.1 = t) vs = Some (i, (t, a)) ->
  read_enum vs e (write_u32 e t ++ rest) = Some (a, rest).
Proof.
  intros Ht Hf. unfold read_enum, mbind, reader_bind. rewrite read_write_u32 by done. by rewrite Hf.
Qed.

Lemma Presentation_roundtrip e p rest : Presentation_read e (Presentation_write e p ++ rest) = Some (p, rest).
Proof.
  unfold Presentation_read, Presentation_write, mbind, reader_bind. rewrite <- !app_assoc.
  destruct p as [s c o]; simpl. destruct s;
    (erewrite read_enum_tag; [|tag_bound|reflexivity]); by rewrite !sp_read_write_bool.
Qed.

Lemma Liveliness_roundtrip e l rest :
  Duration_ok (Liveliness_duration l) -> Liveliness_read e (Liveliness_write e l ++ rest) = Some (l, rest).
Proof.
  intros Hd. unfold Liveliness_read, Liveliness_write, mbind, reader_bind. rewrite <- !app_assoc.
  destruct l; simpl in *; (erewrite read_enum_tag; [|tag_bound|reflexivity]); by rewrite Duration_roundtrip.
Qed.

Lemma Reliability_roundtrip e r rest :
  (forall d, r = Reliable d -> Duration_ok d) ->
  ReliabilitySerialization_read e (ReliabilitySerialization_write e (reliability_ser r) ++ rest)
  = Some (reliability_ser r, rest).
Proof.
  intros Hd. unfold ReliabilitySerialization_read, ReliabilitySerialization_write, mbind, reader_bind.
  rewrite <- !app_assoc. destruct r; simpl in *; (erewrite read_enum_tag; [|tag_bound|reflexivity]);
    rewrite Duration_roundtrip; auto. cbv; repeat split; discriminate.
Qed.

Lemma History_roundtrip e h rest :
  (forall n, h = KeepLast n -> in_s 32 n) ->
  HistorySerialization_read e (HistorySerialization_write e (history_ser h) ++ rest) = Some (history_ser h, rest).
Proof.
  intros Hd. unfold HistorySerialization_read, HistorySerialization_write, mbind, reader_bind.
  rewrite <- !app_assoc. destruct h; simpl in *; (erewrite read_enum_tag; [|tag_bound|reflexivity]);
    rewrite read_write_i32; auto. bounds_lia.
Qed.

Lemma ResourceLimits_roundtrip e r rest :
  in_s 32 (max_samples r) /\ in_s 32 (max_instances r) /\ in_s 32 (max_samples_per_instance r) ->
  ResourceLimits_read e (ResourceLimits_write e r ++ rest) = Some (r, rest).
Proof.
  intros (H1 & H2 & H3). unfold ResourceLimits_read, ResourceLimits_write, mbind, reader_bind.
  rewrite <- !app_assoc, !read_write_i32 by done. by destruct r.
Qed.

(** The segment [ownership] contributes to, by parameter. *)
Lemma filter_ownership (e : Endianness) pid (o : option Ownership) :
  filter (fun p => parameter_id p = pid)
    (match o with
     | Some (Exclusive strength) =>
         emit PID_OWNERSHIP (OwnershipKind_write e OExclusive) ++ emit PID_OWNERSHIP_STRENGTH (write_i32 e strength)
     | Some Shared => emit PID_OWNERSHIP (OwnershipKind_write e OShared)
     | None => []
     end)
  = if decide (pid = PID_OWNERSHIP) then
      emit_option pid (OwnershipKind_write e)
        ((fun o => match o with Shared => OShared | Exclusive _ => OExclusive end) <$> o)
    else if decide (pid = PID_OWNERSHIP_STRENGTH) then
      emit_option pid (write_i32 e) (o ≫= fun o => match o with Shared => None | Exclusive s => Some s end)
    else [].
Proof.
  destruct o as [[|s]|]; unfold emit_option, emit; cbn [app fmap option_fmap option_map mbind option_bind];
    rewrite ?filter_cons; cbn [parameter_id];
    repeat case_decide; subst; try done; congruence.
Qed.

Ltac only_segment :=
  unfold to_parameter_list; rewrite !filter_app, filter_ownership;
  rewrite ?filter_emit_eq; repeat (rewrite filter_emit_ne by (cbv; congruence));
  repeat case_decide; try (exfalso; (discriminate || congruence)); rewrite ?app_nil_r; reflexivity.

Lemma read_from_parameter_list e q :
  qos_ok q ->
  from_parameter_list e (ParameterList_to_map (mkPL (padded e <$> to_parameter_list e q))) = Some q.
Proof.
  intros ((HD & HB & HL) & HT & HR & HS & HO & HH & HM). unfold from_parameter_list.
  assert (forall A (f : Duration -> A) d rest, Duration_ok d ->
    (d0 ← Duration_read e; mret (f d0)) (Duration_write e d ++ rest) = Some (f d, rest)) as Hdur.
  { intros A f d rest Hd. unfold mbind, reader_bind. by rewrite Duration_roundtrip. }
  rewrite (get_emitted e _ PID_DURABILITY (Durability_write e) _ id (durability q));
    [|only_segment|intros [] rest _; (eapply read_enum_tag; [tag_bound|reflexivity])].
  rewrite (get_emitted e _ PID_PRESENTATION (Presentation_write e) _ id (presentation q));
    [|only_segment|intros p rest _; apply Presentation_roundtrip].
  rewrite (get_emitted e _ PID_DEADLINE (fun d => Duration_write e (deadline_period d)) _ id (deadline q));
    [|only_segment|intros [d] rest E; apply Hdur, (HD _ E)].
  rewrite (get_emitted e _ PID_LATENCY_BUDGET (fun d => Duration_write e (latency_duration d)) _ id (latency_budget q));
    [|only_segment|intros [d] rest E; apply Hdur, (HB _ E)].
  rewrite (get_emitted e _ PID_OWNERSHIP (OwnershipKind_write e) _ id
    ((fun o => match o with Shared => OShared | Exclusive _ => OExclusive end) <$> ownership q));
    [|only_segment|intros [] rest _; (eapply read_enum_tag; [tag_bound|reflexivity])].
  rewrite (get_emitted e _ PID_OWNERSHIP_STRENGTH (write_i32 e) _ id
    (ownership q ≫= fun o => match o with Shared => None | Exclusive s => Some s end));
    [|only_segment|intros s rest E; apply read_write_i32; destruct (ownership q) as [[]|]; naive_solver].
  rewrite (get_emitted e _ PID_RELIABILITY (fun r => ReliabilitySerialization_write e (reliability_ser r)) _
    reliability_ser (reliability q));
    [|only_segment|intros r rest E; apply Reliability_roundtrip; intros d ->; auto].
  rewrite (get_emitted e _ PID_DESTINATION_ORDER (DestinationOrder_write e) _ id (destination_order q));
    [|only_segment|intros [] rest _; (eapply read_enum_tag; [tag_bound|reflexivity])].
  rewrite (get_emitted e _ PID_HISTORY (fun h => HistorySerialization_write e (history_ser h)) _
    history_ser (history q));
    [|only_segment|intros h rest E; apply History_roundtrip; intros n ->; auto].
  rewrite (get_emitted e _ PID_LIVELINESS (Liveliness_write e) _ id (liveliness q));
    [|only_segment|intros l rest E; apply Liveliness_roundtrip, (HL _ E)].
  rewrite (get_emitted e _ PID_TIME_BASED_FILTER (fun d => Duration_write e (minimum_separation d)) _ id (time_based_filter q));
    [|only_segment|intros [d] rest E; apply Hdur, (HT _ E)].
  rewrite (get_emitted e _ PID_RESOURCE_LIMITS (ResourceLimits_write e) _ id (resource_limits q));
    [|only_segment|intros r rest E; apply ResourceLimits_roundtrip, (HM _ E)].
  rewrite (get_emitted e _ PID_LIFESPAN (fun d => Duration_write e (lifespan_duration d)) _ id (lifespan q));
    [|only_segment|intros [d] rest E; apply Hdur, (HS _ E)].
  cbn [mbind option_bind]. rewrite !option_fmap_id. f_equal.
  destruct q as [? ? ? ? own ? ? rel ? his ? ?]; cbn. f_equal.
  - by destruct own as [[]|].
  - by destruct rel as [[]|].
  - by destruct his as [[]|].
Qed.

Lemma Forall_emit {A} pid (w : A -> bytes) m :
  in_u 16 pid -> pid <> PID_SENTINEL -> (forall x, Z.of_nat (length (w x)) <= 65532) ->
  Forall Parameter_ok (emit_option pid w m).
Proof. intros ? ? ?. destruct m; repeat constructor; simpl; auto; apply H. Qed.

Lemma to_parameter_list_ok e q : Forall Parameter_ok (to_parameter_list e q).
Proof.
  assert (forall d, Z.of_nat (length (Duration_write e d)) = 8) as Hd
    by (intros; unfold Duration_write, write_i32, write_u32; by rewrite length_app, !sp_length).
  unfold to_parameter_list. rewrite !Forall_app. split_and!; try (apply Forall_emit; [tag_bound|discriminate|]).
  5: { destruct (ownership q) as [[]|]; repeat constructor; simpl;
       try discriminate; unfold OwnershipKind_write, write_i32, write_u32; rewrite ?sp_length; simpl; lia. }
  all: intros x; unfold Durability_write, Presentation_write, Liveliness_write, DestinationOrder_write,
         ReliabilitySerialization_write, HistorySerialization_write, ResourceLimits_write, write_i32, write_u32;
       rewrite ?length_app, ?sp_length, ?sp_bool_length, ?Nat2Z.inj_add, ?Hd; lia.
Qed.
End roundtrip.

(** A policy set written as a parameter list, with its padding and
    sentinel, is read back as the same policy set, whatever bytes follow. *)
Theorem qos_roundtrip `{SP : Speedy, !SpeedyLaws SP} e q rest :
  qos_ok q ->
  exists l, ParameterList_read e (ParameterList_write e (mkPL (to_parameter_list e q)) ++ rest) = Some (l, rest) /\
            from_parameter_list e (ParameterList_to_map l) = Some q.
Proof.
  intros Hq. eexists. split; [apply ParameterList_roundtrip, to_parameter_list_ok|].
  by apply read_from_parameter_list.
Qed.

Lemma qos_roundtrip_witness :
  exists l, ParameterList_read BigEndian
              (ParameterList_write BigEndian (mkPL (to_parameter_list BigEndian demo_offered)) ++ [1; 2]) = Some (l, [1; 2]) /\
            from_parameter_list BigEndian (ParameterList_to_map l) = Some demo_offered.
Proof.
  apply (qos_roundtrip BigEndian demo_offered [1; 2]).
  unfold qos_ok, qos_durations_ok.
  split_and!; simpl; intros ? [= <-]; cbv; repeat split; discriminate.
Defined.
