(* ===== verification/Payload.v ===== *)
(** * Samples

    [src/messages/submessages/elements/serialized_payload.rs],
    [src/dds/ddsdata.rs] and [src/structure/cache_change.rs]: a serialized
    sample with its 4-byte header, the three kinds of change contents, and the
    change record of the caches. *)

From S2P Require Import Prelude BTree Wire SequenceNumbers Time Guid.

(** [Bytes::slice(from..to)] and [&b[from..to]]: a panic outside the buffer. *)
Definition slice (b : bytes) (from to : Z) : outcome bytes :=
  if (0 <=? from) && (from <=? to) && (to <=? Z.of_nat (length b))
  then Ret (take (Z.to_nat (to - from)) (drop (Z.to_nat from) b))
  else Panic "range out of bounds".

Record RepresentationIdentifier := mkRepId { rep_id_bytes : Z * Z }.

Record SerializedPayload := mkPayload {
  representation_identifier : RepresentationIdentifier;
  representation_options : Z * Z;
  payload_value : bytes;
}.

Definition H_LEN : Z := 2 + 2.

Definition SerializedPayload_new_from_bytes (rep_id : RepresentationIdentifier) (payload : bytes) : SerializedPayload :=
  mkPayload rep_id (0, 0) payload.

Definition SerializedPayload_len_serialized (sp : SerializedPayload) : Z :=
  H_LEN + Z.of_nat (length (payload_value sp)).

Definition payload_header (sp : SerializedPayload) : bytes :=
  let '(a, b) := rep_id_bytes (representation_identifier sp) in
  let '(c, d) := representation_options sp in [a; b; c; d].

Definition SerializedPayload_bytes_slice (sp : SerializedPayload) (from to_before : Z) : outcome bytes :=
  let to_before := Z.min to_before (Z.of_nat (length (payload_value sp)) + H_LEN) in
  let from := Z.min from to_before in
  if H_LEN <=? from then slice (payload_value sp) (from - H_LEN) (to_before - H_LEN)
  else
    let b := payload_header sp in
    _ ← rust_assert (Z.of_nat (length b) =? H_LEN) "b.len() == H_LEN";
    b ← (if H_LEN <? to_before
         then v ← slice (payload_value sp) 0 (to_before - H_LEN); Ret (b ++ v)
         else Ret b);
    slice b from to_before.

(** [None] is the I/O error of a buffer that ends too early. *)
Definition SerializedPayload_from_bytes (bs : bytes) : option SerializedPayload :=
  match bs with
  | a :: b :: c :: d :: _ =>
      if H_LEN <=? Z.of_nat (length bs)
      then Some (mkPayload (mkRepId (a, b)) (c, d) (drop (Z.to_nat H_LEN) bs))
      else None
  | _ => None
  end.

(** [Writable], and [From<SerializedPayload> for Bytes]. *)
Definition SerializedPayload_write (sp : SerializedPayload) : bytes := payload_header sp ++ payload_value sp.

Inductive ChangeKind := Alive | NotAliveDisposed | NotAliveUnregistered.

Abbreviation KeyHash := (list Z) (only parsing).

Inductive DDSData :=
| DData (serialized_payload : SerializedPayload)
| DDisposeByKey (change_kind : ChangeKind) (key : SerializedPayload)
| DDisposeByKeyHash (change_kind : ChangeKind) (key_hash : KeyHash).

#[export] Instance RepresentationIdentifier_eq_dec : EqDecision RepresentationIdentifier.
Proof. solve_decision. Defined.
#[export] Instance SerializedPayload_eq_dec : EqDecision SerializedPayload.
Proof. solve_decision. Defined.
#[export] Instance ChangeKind_eq_dec : EqDecision ChangeKind.
Proof. solve_decision. Defined.
#[export] Instance DDSData_eq_dec : EqDecision DDSData.
Proof. solve_decision. Defined.

Definition DDSData_change_kind (d : DDSData) : ChangeKind :=
  match d with DData _ => Alive | DDisposeByKey k _ | DDisposeByKeyHash k _ => k end.

Definition DDSData_payload_size (d : DDSData) : Z :=
  match d with
  | DData sp => SerializedPayload_len_serialized sp
  | DDisposeByKey _ key => SerializedPayload_len_serialized key
  | DDisposeByKeyHash _ _ => 16
  end.

Definition DDSData_bytes_slice (d : DDSData) (from to : Z) : outcome bytes :=
  match d with
  | DData sp => SerializedPayload_bytes_slice sp from to
  | DDisposeByKey _ key => SerializedPayload_bytes_slice key from to
  | DDisposeByKeyHash _ key_hash =>
      let end_ := Z.min to (Z.of_nat (length key_hash)) in
      let start := Z.min from end_ in
      slice key_hash start end_
  end.

(** [WriteOptions]: the time stamp and sample identity the application may give. *)
Record WriteOptions := mkWriteOptions {
  related_sample_identity : option (GUID * SequenceNumber);
  source_timestamp : option Timestamp;
  to_single_reader : option GUID;
}.

Record CacheChange := mkCacheChange {
  cc_writer_guid : GUID;
  cc_sequence_number : SequenceNumber;
  cc_write_options : WriteOptions;
  cc_data_value : DDSData;
}.

(** The bytes a change is sent as. *)
Definition DDSData_bytes (d : DDSData) : bytes :=
  match d with
  | DData sp => SerializedPayload_write sp
  | DDisposeByKey _ key => SerializedPayload_write key
  | DDisposeByKeyHash _ h => h
  end.

(** ** Slices of the serialized form *)

Lemma payload_header_length sp : length (payload_header sp) = 4%nat.
Proof. unfold payload_header. by destruct (rep_id_bytes _), (representation_options sp). Qed.

Lemma SerializedPayload_write_length sp :
  Z.of_nat (length (SerializedPayload_write sp)) = SerializedPayload_len_serialized sp.
Proof. unfold SerializedPayload_write, SerializedPayload_len_serialized, H_LEN. rewrite length_app, payload_header_length. lia. Qed.

Lemma slice_Ret b from to :
  0 <= from <= to -> to <= Z.of_nat (length b) ->
  slice b from to = Ret (take (Z.to_nat (to - from)) (drop (Z.to_nat from) b)).
Proof. intros. unfold slice. zcases; lia. Qed.

(** The special cases for the header and the value amount to slicing the
    serialized form, with both ends clamped to it. *)
Lemma SerializedPayload_bytes_slice_spec sp from to :
  0 <= from -> 0 <= to ->
  let n := Z.of_nat (length (SerializedPayload_write sp)) in
  SerializedPayload_bytes_slice sp from to =
  slice (SerializedPayload_write sp) (Z.min from (Z.min to n)) (Z.min to n).
Proof.
  intros Hf Ht n. assert (n = Z.of_nat (length (payload_value sp)) + 4) as En
    by (unfold n; rewrite SerializedPayload_write_length; unfold SerializedPayload_len_serialized, H_LEN; lia).
  unfold SerializedPayload_bytes_slice, H_LEN. change (2 + 2) with 4. rewrite <- En.
  pose proof (payload_header_length sp) as Hh.
  set (t := Z.min to n). set (f := Z.min from t).
  assert (0 <= f <= t /\ t <= n) as Hft by lia. clearbody f t.
  rewrite (slice_Ret (SerializedPayload_write sp)) by (unfold n in *; lia).
  unfold SerializedPayload_write in *. destruct (Z.leb_spec 4 f).
  - rewrite slice_Ret by lia. do 2 f_equal; [lia|].
    rewrite drop_app_ge by lia. f_equal. lia.
  - rewrite Hh. simpl. destruct (Z.ltb_spec 4 t).
    + rewrite slice_Ret by lia. simpl. rewrite slice_Ret.
      * f_equal. rewrite drop_0. replace (Z.to_nat (t - 4 - 0)) with (Z.to_nat t - 4)%nat by lia.
        rewrite !drop_app_le, !take_app_ge by (rewrite ?length_drop; lia).
        f_equal. rewrite length_drop, Hh, take_take. f_equal. lia.
      * lia.
      * rewrite drop_0, length_app, length_take_le; lia.
    + simpl. rewrite slice_Ret by lia. f_equal. rewrite drop_app_le by lia. rewrite take_app_le by (rewrite length_drop; lia). done.
Qed.

Lemma SerializedPayload_from_bytes_write sp :
  SerializedPayload_from_bytes (SerializedPayload_write sp) = Some sp.
Proof.
  destruct sp as [[[a b]] [c d] v]. unfold SerializedPayload_from_bytes, SerializedPayload_write; simpl.
  destruct (Z.leb_spec H_LEN (Z.of_nat (S (S (S (S (length v))))))); unfold H_LEN in *; [done|lia].
Qed.

Lemma DDSData_payload_size_length d :
  (forall k h, d = DDisposeByKeyHash k h -> length h = 16%nat) ->
  DDSData_payload_size d = Z.of_nat (length (DDSData_bytes d)).
Proof.
  destruct d as [sp|k sp|k h]; simpl; intros Hh; rewrite ?SerializedPayload_write_length; [done|done|].
  by rewrite (Hh k h).
Qed.

Lemma DDSData_bytes_slice_spec d from to :
  0 <= from -> 0 <= to ->
  let n := Z.of_nat (length (DDSData_bytes d)) in
  DDSData_bytes_slice d from to = slice (DDSData_bytes d) (Z.min from (Z.min to n)) (Z.min to n).
Proof. destruct d; simpl; intros; [by apply SerializedPayload_bytes_slice_spec..|done]. Qed.
