(* ===== verification/Submessages.v ===== *)
(** * Submessages

    [src/messages/submessages/]: the DATA, DATAFRAG, HEARTBEAT, GAP, ACKNACK,
    NACKFRAG and HEARTBEATFRAG submessages, their flags, the validity checks at
    deserialization and their wire forms. *)

From S2P Require Import Prelude BTree Wire SequenceNumbers Guid ParameterList.

(** ** Flags: a byte, tested with [BitFlags::contains] *)

Definition contains (flags bit : Z) : bool := Z.land flags bit =? bit.

Definition endianness_flag (flags : Z) : Endianness :=
  if Z.land flags 0x01 =? 0 then BigEndian else LittleEndian.
Definition from_endianness (e : Endianness) : Z := match e with LittleEndian => 0x01 | BigEndian => 0 end.

Definition ACKNACK_Final : Z := 2.
Definition DATA_InlineQos : Z := 2.
Definition DATA_Data : Z := 4.
Definition DATA_Key : Z := 8.
Definition DATA_NonStandardPayload : Z := 16.
Definition DATAFRAG_InlineQos : Z := 2.
Definition DATAFRAG_Key : Z := 4.
Definition DATAFRAG_NonStandardPayload : Z := 8.
Definition HEARTBEAT_Final : Z := 2.
Definition HEARTBEAT_Liveliness : Z := 4.

Definition to_data_flags (dff : Z) : Z :=
  Z.lor (if contains dff DATAFRAG_Key then DATA_Key else DATA_Data)
  (Z.lor (if contains dff 1 then 1 else 0)
  (Z.lor (if contains dff DATAFRAG_InlineQos then DATA_InlineQos else 0)
         (if contains dff DATAFRAG_NonStandardPayload then DATA_NonStandardPayload else 0))).

(** ** The submessages *)

Record Data := mkData {
  data_reader_id : EntityId; data_writer_id : EntityId; data_writer_sn : SequenceNumber;
  data_inline_qos : option ParameterList; data_serialized_payload : option bytes }.

Record DataFrag := mkDataFrag {
  df_reader_id : EntityId; df_writer_id : EntityId; df_writer_sn : SequenceNumber;
  fragment_starting_num : FragmentNumber; fragments_in_submessage : Z;
  data_size : Z; fragment_size : Z;
  df_inline_qos : option ParameterList; df_serialized_payload : bytes }.

Record Heartbeat := mkHeartbeat {
  hb_reader_id : EntityId; hb_writer_id : EntityId;
  first_sn : SequenceNumber; last_sn : SequenceNumber; hb_count : Z }.

Record Gap := mkGap {
  gap_reader_id : EntityId; gap_writer_id : EntityId;
  gap_start : SequenceNumber; gap_list : SequenceNumberSet }.

Record AckNack := mkAckNack {
  an_reader_id : EntityId; an_writer_id : EntityId;
  reader_sn_state : SequenceNumberSet; an_count : Z }.

Record NackFrag := mkNackFrag {
  nf_reader_id : EntityId; nf_writer_id : EntityId; nf_writer_sn : SequenceNumber;
  fragment_number_state : FragmentNumberSet; nf_count : Z }.

Record HeartbeatFrag := mkHeartbeatFrag {
  hf_reader_id : EntityId; hf_writer_id : EntityId; hf_writer_sn : SequenceNumber;
  last_fragment_num : FragmentNumber; hf_count : Z }.

Definition Data_len_serialized (d : Data) : Z :=
  2 + 2 + 4 + 4 + 8
  + default 0 (ParameterList_len_serialized <$> data_inline_qos d)
  + default 0 ((fun p => Z.of_nat (length p)) <$> data_serialized_payload d).

Definition DataFrag_len_serialized (d : DataFrag) : Z :=
  2 + 2 + 4 + 4 + 8 + 4 + 2 + 2 + 4
  + default 0 (ParameterList_len_serialized <$> df_inline_qos d)
  + Z.of_nat (length (df_serialized_payload d)).

Definition AckNack_len_serialized (a : AckNack) : Z := 4 * 2 + NumberSet_len_serialized (reader_sn_state a) + 4.
Definition NackFrag_len_serialized (n : NackFrag) : Z :=
  4 * 2 + 8 + NumberSet_len_serialized (fragment_number_state n) + 4.

(** Integer division, rounding up. *)
Definition total_number_of_fragments (d : DataFrag) : FragmentNumber :=
  if fragment_size d <? 1 then FragmentNumber_INVALID
  else FragmentNumber_new
         (u32 (data_size d / fragment_size d + (if 0 <? data_size d mod fragment_size d then 1 else 0))).

Section serialization.
Context `{SP : Speedy}.

Definition EntityId_write (e : Endianness) (i : EntityId) : bytes :=
  let '(a, b, c) := entity_key i in
  write_u8 e a ++ write_u8 e b ++ write_u8 e c ++ write_u8 e (entity_kind i).
Definition EntityId_read (e : Endianness) : reader EntityId :=
  a ← read_u8 e; b ← read_u8 e; c ← read_u8 e; k ← read_u8 e; mret (mkEntityId (a, b, c) k).

Definition Data_write (e : Endianness) (d : Data) : bytes :=
  write_u16 e 0 ++ write_u16 e 16
  ++ EntityId_write e (data_reader_id d) ++ EntityId_write e (data_writer_id d)
  ++ SequenceNumber_write e (data_writer_sn d)
  ++ match data_inline_qos d with Some q => ParameterList_write e q | None => [] end
  ++ match data_serialized_payload d with Some p => p | None => [] end.

(** Skip the octets between the fields known here and the inline QoS: an error
    when they reach past the end of the buffer. *)
Definition skip_extra (octets_to_inline_qos header_size : Z) : reader unit := fun bs =>
  if octets_to_inline_qos <? header_size then None
  else
    let extra := Z.to_nat (octets_to_inline_qos - header_size) in
    if decide (extra <= length bs)%nat then Some (tt, drop extra bs) else None.

Definition read_inline_qos (e : Endianness) (expect_qos : bool) : reader (option ParameterList) :=
  if expect_qos then q ← ParameterList_read e; mret (Some q) else mret None.

(** What is left of the buffer. *)
Definition read_rest : reader bytes := fun bs => Some (bs, []).

(** [None] is an I/O error. *)
Definition Data_deserialize (flags : Z) : reader Data :=
  let e := endianness_flag flags in
  _ ← read_u16 e;
  octets_to_inline_qos ← read_u16 e;
  reader_id ← EntityId_read e;
  writer_id ← EntityId_read e;
  sequence_number ← SequenceNumber_read e;
  let expect_qos := contains flags DATA_InlineQos in
  let expect_data := contains flags DATA_Data || contains flags DATA_Key in
  _ ← skip_extra octets_to_inline_qos 16;
  parameter_list ← read_inline_qos e expect_qos;
  payload ← (if expect_data then p ← read_rest; mret (Some p) else mret None);
  mret (mkData reader_id writer_id sequence_number parameter_list payload).

(** [write_value(&self.inline_qos)] writes an [Option], which starts with a tag
    byte of its own. *)
Definition DataFrag_write (e : Endianness) (d : DataFrag) : bytes :=
  write_u16 e 0 ++ write_u16 e 28
  ++ EntityId_write e (df_reader_id d) ++ EntityId_write e (df_writer_id d)
  ++ SequenceNumber_write e (df_writer_sn d)
  ++ write_u32 e (fragment_starting_num d) ++ write_u16 e (fragments_in_submessage d)
  ++ write_u16 e (fragment_size d) ++ write_u32 e (data_size d)
  ++ match df_inline_qos d with
     | Some q => if ParameterList_is_empty q then [] else sp_write_option_tag e true ++ ParameterList_write e q
     | None => []
     end
  ++ df_serialized_payload d.

Definition DataFrag_deserialize (flags : Z) : reader DataFrag :=
  let e := endianness_flag flags in
  _ ← read_u16 e;
  octets_to_inline_qos ← read_u16 e;
  reader_id ← EntityId_read e;
  writer_id ← EntityId_read e;
  writer_sn ← SequenceNumber_read e;
  starting_num ← read_u32 e;
  in_submessage ← read_u16 e;
  frag_size ← read_u16 e;
  dsize ← read_u32 e;
  let expect_qos := contains flags DATAFRAG_InlineQos in
  _ ← skip_extra octets_to_inline_qos 28;
  inline_qos ← read_inline_qos e expect_qos;
  if writer_sn <? 1 then reader_fail
  else if (frag_size <? 1) || (dsize <? frag_size) then reader_fail
  else
    payload ← read_rest;
    let datafrag := mkDataFrag reader_id writer_id writer_sn starting_num in_submessage
                      dsize frag_size inline_qos payload in
    let expected_total := total_number_of_fragments datafrag in
    if (starting_num <? 1) || (expected_total <? starting_num) then reader_fail
    else mret datafrag.

(** Derived encodings: the fields in order. *)
Definition Heartbeat_write (e : Endianness) (h : Heartbeat) : bytes :=
  EntityId_write e (hb_reader_id h) ++ EntityId_write e (hb_writer_id h)
  ++ SequenceNumber_write e (first_sn h) ++ SequenceNumber_write e (last_sn h) ++ write_i32 e (hb_count h).
Definition Heartbeat_read (e : Endianness) : reader Heartbeat :=
  r ← EntityId_read e; w ← EntityId_read e; f ← SequenceNumber_read e; l ← SequenceNumber_read e;
  c ← read_i32 e; mret (mkHeartbeat r w f l c).

Definition Gap_write (e : Endianness) (g : Gap) : bytes :=
  EntityId_write e (gap_reader_id g) ++ EntityId_write e (gap_writer_id g)
  ++ SequenceNumber_write e (gap_start g) ++ NumberSet_write e (gap_list g).
Definition Gap_read (e : Endianness) : reader Gap :=
  r ← EntityId_read e; w ← EntityId_read e; s ← SequenceNumber_read e;
  l ← NumberSet_read e; mret (mkGap r w s l).

Definition AckNack_write (e : Endianness) (a : AckNack) : bytes :=
  EntityId_write e (an_reader_id a) ++ EntityId_write e (an_writer_id a)
  ++ NumberSet_write e (reader_sn_state a) ++ write_i32 e (an_count a).
Definition AckNack_read (e : Endianness) : reader AckNack :=
  r ← EntityId_read e; w ← EntityId_read e; s ← NumberSet_read e; c ← read_i32 e; mret (mkAckNack r w s c).

Definition NackFrag_write (e : Endianness) (n : NackFrag) : bytes :=
  EntityId_write e (nf_reader_id n) ++ EntityId_write e (nf_writer_id n)
  ++ SequenceNumber_write e (nf_writer_sn n) ++ NumberSet_write e (fragment_number_state n)
  ++ write_i32 e (nf_count n).
Definition NackFrag_read (e : Endianness) : reader NackFrag :=
  r ← EntityId_read e; w ← EntityId_read e; sn ← SequenceNumber_read e; s ← NumberSet_read e;
  c ← read_i32 e; mret (mkNackFrag r w sn s c).

Definition HeartbeatFrag_write (e : Endianness) (h : HeartbeatFrag) : bytes :=
  EntityId_write e (hf_reader_id h) ++ EntityId_write e (hf_writer_id h)
  ++ SequenceNumber_write e (hf_writer_sn h) ++ write_u32 e (last_fragment_num h) ++ write_i32 e (hf_count h).
Definition HeartbeatFrag_read (e : Endianness) : reader HeartbeatFrag :=
  r ← EntityId_read e; w ← EntityId_read e; sn ← SequenceNumber_read e; l ← read_u32 e;
  c ← read_i32 e; mret (mkHeartbeatFrag r w sn l c).
End serialization.

(** ** Round trips *)

Section roundtrips.
Context `{SP : Speedy, !SpeedyLaws SP}.

Lemma read_write_EntityId e i rest :
  EntityId_ok i -> EntityId_read e (EntityId_write e i ++ rest) = Some (i, rest).
Proof.
  destruct i as [[[a b] c] k]. unfold EntityId_ok; simpl. intros (H1 & H2 & H3 & H4).
  unfold EntityId_read, EntityId_write, mbind, reader_bind; simpl. rewrite <- !app_assoc.
  unfold read_u8, write_u8. by rewrite !(sp_read_write 1) by done.
Qed.

Lemma length_EntityId_write e i : length (EntityId_write e i) = 4%nat.
Proof. unfold EntityId_write, write_u8. destruct (entity_key i) as [[??] ?]. by rewrite !length_app, !sp_length. Qed.

Lemma length_SequenceNumber_write e sn : length (SequenceNumber_write e sn) = 8%nat.
Proof. unfold SequenceNumber_write, write_i32, write_u32. by rewrite length_app, !sp_length. Qed.

(** The fields of a submessage fit their types. *)
Definition Heartbeat_ok (h : Heartbeat) : Prop :=
  EntityId_ok (hb_reader_id h) /\ EntityId_ok (hb_writer_id h) /\
  in_s 64 (first_sn h) /\ in_s 64 (last_sn h) /\ in_s 32 (hb_count h).
Definition Gap_ok (g : Gap) : Prop :=
  EntityId_ok (gap_reader_id g) /\ EntityId_ok (gap_writer_id g) /\ in_s 64 (gap_start g) /\
  ns_shape (gap_list g) /\ in_s 64 (bitmap_base (gap_list g)).
Definition AckNack_ok (a : AckNack) : Prop :=
  EntityId_ok (an_reader_id a) /\ EntityId_ok (an_writer_id a) /\
  ns_shape (reader_sn_state a) /\ in_s 64 (bitmap_base (reader_sn_state a)) /\ in_s 32 (an_count a).
Definition NackFrag_ok (n : NackFrag) : Prop :=
  EntityId_ok (nf_reader_id n) /\ EntityId_ok (nf_writer_id n) /\ in_s 64 (nf_writer_sn n) /\
  ns_shape (fragment_number_state n) /\ in_u 32 (bitmap_base (fragment_number_state n)) /\ in_s 32 (nf_count n).
Definition HeartbeatFrag_ok (h : HeartbeatFrag) : Prop :=
  EntityId_ok (hf_reader_id h) /\ EntityId_ok (hf_writer_id h) /\ in_s 64 (hf_writer_sn h) /\
  in_u 32 (last_fragment_num h) /\ in_s 32 (hf_count h).

End roundtrips.

(** Evaluate a reader on the fields written in order. *)
Ltac read_fields :=
  unfold mbind, reader_bind; simpl; rewrite <- ?app_assoc;
  repeat (first
    [ rewrite read_write_EntityId by done | rewrite read_write_SequenceNumber by done
    | rewrite read_write_NumberSet by done | rewrite read_write_u32 by done
    | rewrite read_write_u16 by done | rewrite read_write_i32 by done ]; cbv beta iota).

Section control.
Context `{SP : Speedy, !SpeedyLaws SP} (e : Endianness) (rest : bytes).

Lemma read_write_Heartbeat h : Heartbeat_ok h -> Heartbeat_read e (Heartbeat_write e h ++ rest) = Some (h, rest).
Proof. destruct h; intros (? & ? & ? & ? & ?); simpl in *. unfold Heartbeat_read, Heartbeat_write. by read_fields. Qed.

Lemma read_write_Gap g : Gap_ok g -> Gap_read e (Gap_write e g ++ rest) = Some (g, rest).
Proof. destruct g; intros (? & ? & ? & ? & ?); simpl in *. unfold Gap_read, Gap_write. by read_fields. Qed.

Lemma read_write_AckNack a : AckNack_ok a -> AckNack_read e (AckNack_write e a ++ rest) = Some (a, rest).
Proof. destruct a; intros (? & ? & ? & ? & ?); simpl in *. unfold AckNack_read, AckNack_write. by read_fields. Qed.

Lemma read_write_NackFrag n : NackFrag_ok n -> NackFrag_read e (NackFrag_write e n ++ rest) = Some (n, rest).
Proof. destruct n; intros (? & ? & ? & ? & ? & ?); simpl in *. unfold NackFrag_read, NackFrag_write. by read_fields. Qed.

Lemma read_write_HeartbeatFrag h :
  HeartbeatFrag_ok h -> HeartbeatFrag_read e (HeartbeatFrag_write e h ++ rest) = Some (h, rest).
Proof.
  destruct h; intros (? & ? & ? & ? & ?); simpl in *.
  unfold HeartbeatFrag_read, HeartbeatFrag_write. by read_fields.
Qed.
End control.

(** HEARTBEAT, GAP, ACKNACK, NACKFRAG and HEARTBEATFRAG submessages are read
    back as they were written, in either endianness, with the following bytes
    untouched. *)
Theorem control_submessages_roundtrip `{SP : Speedy, !SpeedyLaws SP} e rest :
  (forall h, Heartbeat_ok h -> Heartbeat_read e (Heartbeat_write e h ++ rest) = Some (h, rest)) /\
  (forall g, Gap_ok g -> Gap_read e (Gap_write e g ++ rest) = Some (g, rest)) /\
  (forall a, AckNack_ok a -> AckNack_read e (AckNack_write e a ++ rest) = Some (a, rest)) /\
  (forall n, NackFrag_ok n -> NackFrag_read e (NackFrag_write e n ++ rest) = Some (n, rest)) /\
  (forall h, HeartbeatFrag_ok h -> HeartbeatFrag_read e (HeartbeatFrag_write e h ++ rest) = Some (h, rest)).
Proof.
  split_and!; intros;
    eauto using read_write_Heartbeat, read_write_Gap, read_write_AckNack, read_write_NackFrag, read_write_HeartbeatFrag.
Qed.

Definition demo_acknack : AckNack :=
  mkAckNack EntityId_UNKNOWN SPDP_BUILTIN_PARTICIPANT_WRITER
    {| bitmap_base := 5; num_bits := 3; bitmap := [0xA0000000] |} 17.

Lemma control_submessages_roundtrip_witness :
  AckNack_read BigEndian (AckNack_write BigEndian demo_acknack ++ [9]) = Some (demo_acknack, [9]).
Proof.
  apply (control_submessages_roundtrip BigEndian [9]). split_and!.
  - cbv. repeat split; discriminate.
  - cbv. repeat split; discriminate.
  - split; [simpl; lia|]. split; [reflexivity|]. repeat constructor; simpl; lia.
  - simpl. bounds_lia.
  - simpl. bounds_lia.
Defined.

(** ** DATA and DATAFRAG *)

(** The flags a submessage is sent with, as the message builder sets them. *)
Definition Data_flags_match (flags : Z) (d : Data) : Prop :=
  contains flags DATA_InlineQos = bool_decide (is_Some (data_inline_qos d)) /\
  contains flags DATA_Data || contains flags DATA_Key = bool_decide (is_Some (data_serialized_payload d)).

Definition Data_ok (d : Data) : Prop :=
  EntityId_ok (data_reader_id d) /\ EntityId_ok (data_writer_id d) /\ in_s 64 (data_writer_sn d) /\
  (forall q, data_inline_qos d = Some q -> Forall Parameter_ok (parameters q)).

Section data.
Context `{SP : Speedy, !SpeedyLaws SP}.

Definition pad_qos (e : Endianness) (q : option ParameterList) : option ParameterList :=
  (fun q => mkPL (padded e <$> parameters q)) <$> q.

Lemma skip_none h rest : skip_extra h h rest = Some (tt, rest).
Proof. unfold skip_extra. rewrite Z.ltb_irrefl, Z.sub_diag. by rewrite decide_True by (simpl; lia). Qed.

Lemma read_inline_qos_write e q rest :
  (forall l, q = Some l -> Forall Parameter_ok (parameters l)) ->
  read_inline_qos e (bool_decide (is_Some q))
    (match q with Some q => ParameterList_write e q | None => [] end ++ rest) = Some (pad_qos e q, rest).
Proof.
  intros Hq. destruct q as [q|]; simpl; [|done]. unfold mbind, reader_bind.
  by rewrite ParameterList_roundtrip by auto.
Qed.

Lemma Data_roundtrip flags d :
  Data_ok d -> Data_flags_match flags d ->
  let e := endianness_flag flags in
  exists rest,
  Data_deserialize flags (Data_write e d)
  = Some (mkData (data_reader_id d) (data_writer_id d) (data_writer_sn d)
            (pad_qos e (data_inline_qos d)) (data_serialized_payload d), rest).
Proof.
  destruct d as [r w sn q p]. intros (Hr & Hw & Hsn & Hq) [Hf1 Hf2] e. simpl in *.
  unfold Data_deserialize, Data_write. fold e. simpl. rewrite Hf1, Hf2.
  assert (in_u 16 0 /\ in_u 16 16) as [? ?] by bounds_lia.
  read_fields. rewrite skip_none, read_inline_qos_write by done.
  destruct p; simpl; unfold read_rest, mret, reader_ret; by eexists.
Qed.

Lemma Data_len_serialized_correct e d :
  Z.of_nat (length (Data_write e d)) = Data_len_serialized d.
Proof.
  unfold Data_write, Data_len_serialized, write_u16.
  rewrite !length_app, !sp_length, !length_EntityId_write, length_SequenceNumber_write, !Nat2Z.inj_add.
  destruct (data_inline_qos d), (data_serialized_payload d); simpl;
    rewrite ?ParameterList_len_serialized_correct; lia.
Qed.

(** The validity conditions of the deserializer. *)
Definition DataFrag_valid (d : DataFrag) : Prop :=
  1 <= df_writer_sn d /\ 1 <= fragment_size d <= data_size d /\
  1 <= fragment_starting_num d <= total_number_of_fragments d.

Definition DataFrag_ok (d : DataFrag) : Prop :=
  EntityId_ok (df_reader_id d) /\ EntityId_ok (df_writer_id d) /\ in_s 64 (df_writer_sn d) /\
  in_u 32 (fragment_starting_num d) /\ in_u 16 (fragments_in_submessage d) /\
  in_u 16 (fragment_size d) /\ in_u 32 (data_size d).

Lemma DataFrag_roundtrip flags d :
  DataFrag_ok d -> DataFrag_valid d -> df_inline_qos d = None -> contains flags DATAFRAG_InlineQos = false ->
  exists rest, DataFrag_deserialize flags (DataFrag_write (endianness_flag flags) d) = Some (d, rest).
Proof.
  destruct d as [r w sn st n sz fs q p]. intros (Hr & Hw & Hsn & Hst & Hn & Hfs & Hsz) (H1 & H2 & H3).
  simpl in *. intros -> Hf. unfold DataFrag_deserialize, DataFrag_write. simpl. rewrite Hf.
  assert (in_u 16 0 /\ in_u 16 28) as [? ?] by bounds_lia.
  read_fields. rewrite skip_none. simpl.
  destruct (Z.ltb_spec sn 1); [lia|]. destruct (Z.ltb_spec fs 1); [lia|]. destruct (Z.ltb_spec sz fs); [lia|].
  simpl. destruct (Z.ltb_spec st 1); [lia|]. destruct (Z.ltb_spec (total_number_of_fragments (mkDataFrag r w sn st n sz fs None p)) st); [lia|].
  simpl. by eexists.
Qed.

(** Whatever the bytes are, an accepted DATAFRAG is valid. *)
Lemma DataFrag_deserialize_valid flags bs d rest :
  DataFrag_deserialize flags bs = Some (d, rest) -> DataFrag_valid d.
Proof.
  unfold DataFrag_deserialize, mbind, reader_bind. intros H. set (en := endianness_flag flags) in H.
  destruct (read_u16 en bs) as [[xf bs1]|]; [|done].
  destruct (read_u16 en bs1) as [[oct bs2]|]; [|done].
  destruct (EntityId_read en bs2) as [[r bs3]|]; [|done].
  destruct (EntityId_read en bs3) as [[w bs4]|]; [|done].
  destruct (SequenceNumber_read en bs4) as [[sn bs5]|]; [|done].
  destruct (read_u32 en bs5) as [[st bs6]|]; [|done].
  destruct (read_u16 en bs6) as [[n bs7]|]; [|done].
  destruct (read_u16 en bs7) as [[fs bs8]|]; [|done].
  destruct (read_u32 en bs8) as [[sz bs9]|]; [|done].
  destruct (skip_extra oct 28 bs9) as [[[] bs10]|]; [|done].
  destruct (read_inline_qos en _ bs10) as [[q bs11]|]; [|done].
  destruct (Z.ltb_spec sn 1); [done|]. destruct (Z.ltb_spec fs 1); [done|]. destruct (Z.ltb_spec sz fs); [done|].
  cbn [orb read_rest] in H. destruct (Z.ltb_spec st 1); [done|].
  destruct (Z.ltb_spec (total_number_of_fragments (mkDataFrag r w sn st n sz fs q bs11)) st); [done|].
  injection H as <- <-. done.
Qed.
End data.

(** A DATA submessage is read back with the fields it was written with, its
    inline QoS padded, and its length field counts the bytes that are written;
    a valid DATAFRAG without inline QoS is read back as itself, and whatever
    bytes arrive, an accepted DATAFRAG has a positive sequence number, a
    fragment size between 1 and the data size, and a starting fragment that
    exists. *)
Theorem data_submessages_roundtrip `{SP : Speedy, !SpeedyLaws SP} flags d df :
  Data_ok d -> Data_flags_match flags d ->
  DataFrag_ok df -> DataFrag_valid df -> df_inline_qos df = None -> contains flags DATAFRAG_InlineQos = false ->
  let e := endianness_flag flags in
  (exists rest, Data_deserialize flags (Data_write e d)
   = Some (mkData (data_reader_id d) (data_writer_id d) (data_writer_sn d)
             (pad_qos e (data_inline_qos d)) (data_serialized_payload d), rest)) /\
  Z.of_nat (length (Data_write e d)) = Data_len_serialized d /\
  (exists rest, DataFrag_deserialize flags (DataFrag_write e df) = Some (df, rest)) /\
  (forall bs df' rest, DataFrag_deserialize flags bs = Some (df', rest) -> DataFrag_valid df').
Proof.
  intros. split_and!.
  - by apply Data_roundtrip.
  - apply Data_len_serialized_correct.
  - by apply DataFrag_roundtrip.
  - apply DataFrag_deserialize_valid.
Qed.

Definition demo_data : Data :=
  mkData EntityId_UNKNOWN SPDP_BUILTIN_PARTICIPANT_WRITER 7 None (Some [0; 1; 0; 0; 42]).
Definition demo_datafrag : DataFrag :=
  mkDataFrag EntityId_UNKNOWN SPDP_BUILTIN_PARTICIPANT_WRITER 7 2 1 10 4 None [5; 6; 7; 8].

Lemma data_submessages_roundtrip_witness :
  exists rest, Data_deserialize 5 (Data_write LittleEndian demo_data) = Some (demo_data, rest).
Proof.
  assert (EntityId_ok EntityId_UNKNOWN /\ EntityId_ok SPDP_BUILTIN_PARTICIPANT_WRITER) as [? ?]
    by (split; cbv; repeat split; discriminate).
  apply (data_submessages_roundtrip 5 demo_data demo_datafrag); done.
Defined.

(** A DATAFRAG with inline QoS is written one byte longer than its length
    field says: the QoS list is written as an [Option], with a tag byte that
    DATA does not write and that the deserializer does not expect. *)
Theorem datafrag_inline_qos_extra_byte `{SP : Speedy, !SpeedyLaws SP} e d :
  Z.of_nat (length (DataFrag_write e d)) =
  DataFrag_len_serialized d +
  match df_inline_qos d with
  | Some q => if ParameterList_is_empty q then - ParameterList_len_serialized q else 1
  | None => 0
  end.
Proof.
  unfold DataFrag_write, DataFrag_len_serialized, write_u16, write_u32.
  rewrite !length_app, !sp_length, !length_EntityId_write, length_SequenceNumber_write, !Nat2Z.inj_add.
  destruct (df_inline_qos d) as [q|]; simpl; [|lia]. destruct (ParameterList_is_empty q); simpl; [lia|].
  rewrite length_app, sp_option_tag_length, Nat2Z.inj_add, ParameterList_len_serialized_correct. lia.
Qed.

Lemma datafrag_inline_qos_extra_byte_witness :
  let d := mkDataFrag EntityId_UNKNOWN EntityId_UNKNOWN 7 2 1 10 4
             (Some (mkPL [create_pid_status_info_parameter true false false])) [5; 6; 7; 8] in
  Z.of_nat (length (DataFrag_write LittleEndian d)) = DataFrag_len_serialized d + 1.
Proof. intros d. apply (datafrag_inline_qos_extra_byte LittleEndian d). Defined.
