(* ===== verification/Headers.v ===== *)
(** * Headers and interpreter submessages

    [src/messages/]: the header of a message ([header.rs], [protocol_id.rs],
    [protocol_version.rs], [vendor_id.rs]), the header and kind of a submessage
    ([submessage_header.rs], [submessage_kind.rs]), and the contents of the
    submessages that change the receiver's state ([info_source.rs],
    [info_reply.rs]), with their wire forms. *)

From S2P Require Import Prelude BTree Wire SequenceNumbers Time Guid Locator ParameterList Submessages.

(** ** The header of a message *)

(** Four characters, as their code points. *)
Record ProtocolId := mkProtocolId { protocol_id_chars : list Z }.
Definition PROTOCOL_RTPS : ProtocolId := mkProtocolId [82; 84; 80; 83].

Record ProtocolVersion := mkVersion { major : Z; minor : Z }.
Definition ProtocolVersion_THIS_IMPLEMENTATION : ProtocolVersion := mkVersion 2 4.

Record VendorId := mkVendor { vendor_id_bytes : Z * Z }.
Definition VENDOR_UNKNOWN : VendorId := mkVendor (0x00, 0x00).
Definition VendorId_THIS_IMPLEMENTATION : VendorId := mkVendor (0x01, 0x12).

Record Header := mkHeader {
  protocol_id : ProtocolId; h_protocol_version : ProtocolVersion;
  h_vendor_id : VendorId; h_guid_prefix : GuidPrefix }.

#[export] Instance ProtocolId_eq_dec : EqDecision ProtocolId.
Proof. solve_decision. Defined.

Definition Header_new (guid : GuidPrefix) : Header :=
  mkHeader PROTOCOL_RTPS ProtocolVersion_THIS_IMPLEMENTATION VendorId_THIS_IMPLEMENTATION guid.

Definition Header_valid (h : Header) : bool :=
  bool_decide (protocol_id h = PROTOCOL_RTPS) &&
  (major (h_protocol_version h) <=? major ProtocolVersion_THIS_IMPLEMENTATION).

(** ** The header of a submessage *)

Abbreviation SubmessageKind := Z (only parsing).
Definition KIND_PAD : SubmessageKind := 0x01.
Definition KIND_ACKNACK : SubmessageKind := 0x06.
Definition KIND_HEARTBEAT : SubmessageKind := 0x07.
Definition KIND_GAP : SubmessageKind := 0x08.
Definition KIND_INFO_TS : SubmessageKind := 0x09.
Definition KIND_INFO_SRC : SubmessageKind := 0x0c.
Definition KIND_INFO_DST : SubmessageKind := 0x0e.
Definition KIND_INFO_REPLY : SubmessageKind := 0x0f.
Definition KIND_NACK_FRAG : SubmessageKind := 0x12.
Definition KIND_HEARTBEAT_FRAG : SubmessageKind := 0x13.
Definition KIND_DATA : SubmessageKind := 0x15.
Definition KIND_DATA_FRAG : SubmessageKind := 0x16.

Record SubmessageHeader := mkSubHeader { sh_kind : SubmessageKind; sh_flags : Z; sh_content_length : Z }.

(** ** Interpreter submessages *)

Record InfoSource := mkInfoSource {
  is_unused : Z; is_protocol_version : ProtocolVersion; is_vendor_id : VendorId; is_guid_prefix : GuidPrefix }.

Record InfoReply := mkInfoReply {
  ir_unicast_locator_list : list Locator; ir_multicast_locator_list : option (list Locator) }.

(** Collect results, stopping at the first panic. *)
Fixpoint outcome_all {A} (l : list (outcome A)) : outcome (list A) :=
  match l with
  | [] => Ret []
  | x :: l => a ← x; as' ← outcome_all l; Ret (a :: as')
  end.

Section serialization.
Context `{SP : Speedy}.

Definition GuidPrefix_write (e : Endianness) (p : GuidPrefix) : bytes := concat (write_u8 e <$> prefix_bytes p).
Definition GuidPrefix_read (e : Endianness) : reader GuidPrefix :=
  bs ← read_n 12 (read_u8 e); mret (mkPrefix bs).

Definition ProtocolId_write (e : Endianness) (p : ProtocolId) : bytes :=
  concat ((fun c => write_u8 e (u8 c)) <$> protocol_id_chars p).
Definition ProtocolId_read (e : Endianness) : reader ProtocolId :=
  cs ← read_n 4 (read_u8 e); mret (mkProtocolId cs).

Definition ProtocolVersion_write (e : Endianness) (v : ProtocolVersion) : bytes :=
  write_u8 e (major v) ++ write_u8 e (minor v).
Definition ProtocolVersion_read (e : Endianness) : reader ProtocolVersion :=
  a ← read_u8 e; b ← read_u8 e; mret (mkVersion a b).

Definition VendorId_write (e : Endianness) (v : VendorId) : bytes :=
  write_u8 e (vendor_id_bytes v).1 ++ write_u8 e (vendor_id_bytes v).2.
Definition VendorId_read (e : Endianness) : reader VendorId :=
  a ← read_u8 e; b ← read_u8 e; mret (mkVendor (a, b)).

(** Derived: the fields in order. *)
Definition Header_write (e : Endianness) (h : Header) : bytes :=
  ProtocolId_write e (protocol_id h) ++ ProtocolVersion_write e (h_protocol_version h)
  ++ VendorId_write e (h_vendor_id h) ++ GuidPrefix_write e (h_guid_prefix h).
Definition Header_read (e : Endianness) : reader Header :=
  i ← ProtocolId_read e; v ← ProtocolVersion_read e; d ← VendorId_read e; p ← GuidPrefix_read e;
  mret (mkHeader i v d p).

(** The length is in the byte order the flags name, one byte at a time. *)
Definition SubmessageHeader_read (e : Endianness) : reader SubmessageHeader :=
  kind ← read_u8 e;
  flags ← read_u8 e;
  b0 ← read_u8 e;
  b1 ← read_u8 e;
  mret (mkSubHeader kind flags
    (match endianness_flag flags with LittleEndian => b0 + 256 * b1 | BigEndian => 256 * b0 + b1 end)).
Definition SubmessageHeader_write (e : Endianness) (h : SubmessageHeader) : bytes :=
  let low := write_u8 e (u8 (sh_content_length h)) in
  let high := write_u8 e (u8 (Z.shiftr (sh_content_length h) 8)) in
  write_u8 e (sh_kind h) ++ write_u8 e (sh_flags h)
  ++ match endianness_flag (sh_flags h) with LittleEndian => low ++ high | BigEndian => high ++ low end.

Definition InfoSource_write (e : Endianness) (i : InfoSource) : bytes :=
  write_u32 e (is_unused i) ++ ProtocolVersion_write e (is_protocol_version i)
  ++ VendorId_write e (is_vendor_id i) ++ GuidPrefix_write e (is_guid_prefix i).
Definition InfoSource_read (e : Endianness) : reader InfoSource :=
  u ← read_u32 e; v ← ProtocolVersion_read e; d ← VendorId_read e; p ← GuidPrefix_read e;
  mret (mkInfoSource u v d p).

Definition Timestamp_write (e : Endianness) (t : Timestamp) : bytes :=
  write_u32 e (t_seconds t) ++ write_u32 e (t_fraction t).
Definition Timestamp_read (e : Endianness) : reader Timestamp :=
  s ← read_u32 e; f ← read_u32 e; mret (mkTimestamp s f).

(** A vector: the number of elements, then the elements.  An [Option] starts
    with a tag. *)
Definition LocatorList_write (e : Endianness) (l : list Locator) : bytes :=
  write_u32 e (Z.of_nat (length l)) ++ concat (Locator_write e <$> l).
Definition LocatorList_read (e : Endianness) : reader (outcome (list Locator)) :=
  n ← read_u32 e; ls ← read_n (Z.to_nat n) (Locator_read e); mret (outcome_all ls).

Definition InfoReply_write (e : Endianness) (i : InfoReply) : bytes :=
  LocatorList_write e (ir_unicast_locator_list i)
  ++ match ir_multicast_locator_list i with
     | Some l => sp_write_option_tag e true ++ LocatorList_write e l
     | None => sp_write_option_tag e false
     end.
Definition InfoReply_read (e : Endianness) : reader (outcome InfoReply) :=
  u ← LocatorList_read e;
  tag ← sp_read_option_tag e;
  if (tag : bool) then
    m ← LocatorList_read e; mret (ul ← u; ml ← m; Ret (mkInfoReply ul (Some ml)))
  else mret (ul ← u; Ret (mkInfoReply ul None)).
End serialization.
