(* ===== verification/StatusEvents.v ===== *)
(** * Status events

    [src/dds/statusevents.rs]: what readers and writers report to the
    application, and the summaries of discovered entities they carry.  The
    channels that carry them are not modelled. *)

From S2P Require Import Prelude BTree Time Guid Qos Headers.

Record CountWithChange := mkCount { count : Z; count_change : Z }.

Inductive SampleRejectedStatusKind :=
| NotRejected | ByInstancesLimit | BySamplesLimit | BySamplesPerInstanceLimit.

Inductive DataReaderStatus :=
| SampleRejected (cnt : CountWithChange) (last_reason : SampleRejectedStatusKind)
| LivelinessChanged (alive_total not_alive_total : CountWithChange)
| RequestedDeadlineMissed (cnt : CountWithChange)
| RequestedIncompatibleQos (cnt : CountWithChange) (last_policy_id : QosPolicyId) (writer : GUID)
    (requested_qos offered_qos : QosPolicies)
| SampleLost (cnt : CountWithChange)
| SubscriptionMatched (total current : CountWithChange) (writer : GUID).

Inductive DataWriterStatus :=
| LivelinessLost (cnt : CountWithChange)
| OfferedDeadlineMissed (cnt : CountWithChange)
| OfferedIncompatibleQos (cnt : CountWithChange) (last_policy_id : QosPolicyId) (reader : GUID)
    (requested_qos offered_qos : QosPolicies)
| PublicationMatched (total current : CountWithChange) (reader : GUID).

(** Why a remote entity is considered to be gone. *)
Inductive LostReason :=
| Disposed
| Timeout (lease elapsed : Duration).

(** [DateTime<Utc>] is its count of nanoseconds. *)
Record ParticipantDescription := mkParticipantDescription {
  pd_updated_time : Z;
  pd_protocol_version : ProtocolVersion;
  pd_vendor_id : VendorId;
  pd_guid : GUID;
  pd_lease_duration : option Duration;
  pd_entity_name : option string;
}.

Record EndpointDescription := mkEndpointDescription {
  epd_updated_time : Z;
  epd_guid : GUID;
  epd_topic_name : string;
  epd_type_name : string;
  epd_qos : QosPolicies;
}.

(** [src/dds/topic.rs] *)
Record TopicData := mkTopicData {
  td_name : string;
  td_type_name : string;
  td_qos : QosPolicies;
}.

Inductive DomainParticipantStatusEvent :=
| ParticipantDiscovered (dpd : ParticipantDescription)
| ParticipantLost (id : GuidPrefix) (reason : LostReason)
| InconsistentTopic (previous_topic_data : TopicData) (previous_source : GUID)
    (discovered_topic_data : TopicData) (discovery_source : GUID)
| TopicDetected (name type_name : string)
| TopicLost (name : string)
| ReaderDetected (reader : EndpointDescription)
| WriterDetected (writer : EndpointDescription)
| ReaderLost (guid : GUID) (reason : LostReason)
| WriterLost (guid : GUID) (reason : LostReason)
| RemoteReaderMatched (local_writer remote_reader : GUID)
| RemoteWriterMatched (local_reader remote_writer : GUID)
| RemoteReaderQosIncompatible (local_writer remote_reader : GUID) (requested_qos offered_qos : QosPolicies)
| RemoteWriterQosIncompatible (local_reader remote_writer : GUID) (requested_qos offered_qos : QosPolicies).
