(* ===== verification/MessageBuilder.v ===== *)
(** * Building messages

    [MessageBuilder] of [src/rtps/message.rs] and the [create_submessage]
    functions: how a writer turns a change, a fragment of a change, a set of
    irrelevant sequence numbers or its range of available ones into
    submessages.  Built without the [security] feature. *)

From S2P Require Import Prelude BTree Wire SequenceNumbers Time Guid Locator ParameterList Payload Submessages Headers.

Inductive SubmessageBody :=
| SmData (d : Data)
| SmDataFrag (d : DataFrag)
| SmHeartbeat (h : Heartbeat)
| SmGap (g : Gap)
| SmAckNack (a : AckNack)
| SmNackFrag (n : NackFrag)
| SmHeartbeatFrag (h : HeartbeatFrag)
| SmInfoSource (i : InfoSource)
| SmInfoDestination (guid_prefix : GuidPrefix)
| SmInfoReply (i : InfoReply)
| SmInfoTimestamp (timestamp : option Timestamp).

Record Submessage := mkSubmessage { sm_flags : Z; sm_content_length : Z; sm_body : SubmessageBody }.

Definition PID_KEY_HASH : ParameterId := 0x0070.
Definition PID_RELATED_SAMPLE_IDENTITY : ParameterId := 0x800f.
Definition INFOTIMESTAMP_Invalidate : Z := 2.

(** [MessageBuilder] is the list of submessages so far; [Message] adds the header. *)
Abbreviation MessageBuilder := (list Submessage).
Record Message := mkMessage { header : Header; submessages : list Submessage }.

Definition dst_submessage (mb : MessageBuilder) (e : Endianness) (p : GuidPrefix) : MessageBuilder :=
  mb ++ [mkSubmessage (from_endianness e) 12 (SmInfoDestination p)].

Definition ts_msg (mb : MessageBuilder) (e : Endianness) (timestamp : option Timestamp) : MessageBuilder :=
  let flags := Z.lor (from_endianness e)
                 (match timestamp with None => INFOTIMESTAMP_Invalidate | Some _ => 0 end) in
  let content_length := match timestamp with Some _ => 8 | None => 0 end in
  mb ++ [mkSubmessage flags content_length (SmInfoTimestamp timestamp)].

Definition add_header_and_build (mb : MessageBuilder) (p : GuidPrefix) : Message := mkMessage (Header_new p) mb.

Section builder.
Context `{SP : Speedy}.

(** Derived: writer GUID, then sequence number. *)
Definition SampleIdentity_write (e : Endianness) (si : GUID * SequenceNumber) : bytes :=
  concat (write_u8 e <$> prefix_bytes (prefix si.1)) ++ EntityId_write e (entity_id si.1)
  ++ SequenceNumber_write e si.2.

Definition push_related_sample_identity (l : ParameterList) (e : Endianness) (o : WriteOptions) : ParameterList :=
  match related_sample_identity o with
  | Some si => ParameterList_push l (mkParameter PID_RELATED_SAMPLE_IDENTITY (SampleIdentity_write e si))
  | None => l
  end.

Definition data_msg (mb : MessageBuilder) (cc : CacheChange) (reader_entity_id : EntityId)
    (writer_guid : GUID) (e : Endianness) : MessageBuilder :=
  let param_list := match cc_data_value cc with
    | DDisposeByKeyHash _ key_hash =>
        ParameterList_push (ParameterList_push (mkPL []) (mkParameter PID_KEY_HASH key_hash))
          (create_pid_status_info_parameter true true false)
    | _ => mkPL []
    end in
  let param_list := push_related_sample_identity param_list e (cc_write_options cc) in
  let serialized_payload := match cc_data_value cc with
    | DData sp => Some sp | DDisposeByKey _ key => Some key | DDisposeByKeyHash _ _ => None end in
  let have_inline_qos := negb (ParameterList_is_empty param_list) in
  let data_message :=
    mkData reader_entity_id (entity_id writer_guid) (cc_sequence_number cc)
      (if have_inline_qos then Some param_list else None)
      (SerializedPayload_write <$> serialized_payload) in
  let flags :=
    Z.lor (from_endianness e)
    (Z.lor (match cc_data_value cc with
            | DData _ => DATA_Data | DDisposeByKey _ _ => DATA_Key | DDisposeByKeyHash _ _ => DATA_InlineQos end)
           (if have_inline_qos then DATA_InlineQos else 0)) in
  mb ++ [mkSubmessage flags (u16 (Data_len_serialized data_message)) (SmData data_message)].

(** The fragment and its flags; [None] for a dispose by key hash, which is
    refused. *)
Definition data_frag_of (cc : CacheChange) (reader_entity_id : EntityId) (writer_guid : GUID)
    (fragment_number : FragmentNumber) (frag_size sample_size : Z) (e : Endianness)
  : outcome (option (DataFrag * Z)) :=
  match cc_data_value cc with
  | DDisposeByKeyHash _ _ => Ret None
  | _ =>
    let param_list := push_related_sample_identity (mkPL []) e (cc_write_options cc) in
    let have_inline_qos := negb (ParameterList_is_empty param_list) in
    let from_byte := u64 (u64 (fragment_number - 1) * frag_size) in
    let up_to_before_byte := Z.min (u64 (fragment_number * frag_size)) sample_size in
    serialized_payload ← DDSData_bytes_slice (cc_data_value cc) from_byte up_to_before_byte;
    let data_message :=
      mkDataFrag reader_entity_id (entity_id writer_guid) (cc_sequence_number cc) fragment_number 1
        sample_size frag_size (if have_inline_qos then Some param_list else None) serialized_payload in
    let flags :=
      Z.lor (from_endianness e)
      (Z.lor (match cc_data_value cc with DDisposeByKey _ _ => DATAFRAG_Key | _ => 0 end)
             (if have_inline_qos then DATAFRAG_InlineQos else 0)) in
    Ret (Some (data_message, flags))
  end.

Definition data_frag_msg (mb : MessageBuilder) (cc : CacheChange) (reader_entity_id : EntityId)
    (writer_guid : GUID) (fragment_number : FragmentNumber) (frag_size sample_size : Z) (e : Endianness)
  : outcome MessageBuilder :=
  r ← data_frag_of cc reader_entity_id writer_guid fragment_number frag_size sample_size e;
  Ret (match r with
       | None => mb
       | Some (d, flags) => mb ++ [mkSubmessage flags (u16 (DataFrag_len_serialized d)) (SmDataFrag d)]
       end).

Definition Gap_create_submessage (g : Gap) (flags : Z) : Submessage :=
  mkSubmessage flags (u16 (Z.of_nat (length (Gap_write LittleEndian g)))) (SmGap g).

(** The [while] loop: the first number from [sn] on that is not in the set. *)
Fixpoint range_endpoint_loop (fuel : nat) (set : gset SequenceNumber) (sn : SequenceNumber)
  : outcome SequenceNumber :=
  if decide (sn ∈ set) then
    match fuel with
    | O => Diverge
    | S fuel => range_endpoint_loop fuel set (SequenceNumber_plus_1 sn)
    end
  else Ret sn.

Definition gap_of (irrelevant_sns : gset SequenceNumber) (gap_start : SequenceNumber)
    (writer_entity_id : EntityId) (reader_guid : GUID) : outcome Gap :=
  list_base ← range_endpoint_loop (size irrelevant_sns) irrelevant_sns (SequenceNumber_plus_1 gap_start);
  gap_list ← NumberSet_from_base_and_set list_base (bs_from list_base irrelevant_sns);
  Ret (mkGap (entity_id reader_guid) writer_entity_id gap_start gap_list).

Definition gap_msg (mb : MessageBuilder) (irrelevant_sns : gset SequenceNumber)
    (writer_entity_id : EntityId) (e : Endianness) (reader_guid : GUID) : outcome MessageBuilder :=
  match bs_first irrelevant_sns, bs_last irrelevant_sns with
  | Some gap_start, Some _ =>
      gap ← gap_of irrelevant_sns gap_start writer_entity_id reader_guid;
      Ret (mb ++ [Gap_create_submessage gap (from_endianness e)])
  | _, _ => Ret mb
  end.

Definition gap_msg_before (mb : MessageBuilder) (irrelevant_sns_before : SequenceNumber)
    (writer_entity_id : EntityId) (e : Endianness) (reader_guid : GUID) : MessageBuilder :=
  let gap := mkGap (entity_id reader_guid) writer_entity_id 1 (NumberSet_new_empty irrelevant_sns_before) in
  mb ++ [Gap_create_submessage gap (from_endianness e)].

Definition heartbeat_msg (mb : MessageBuilder) (writer_entity_id : EntityId)
    (first last : SequenceNumber) (heartbeat_count : Z) (e : Endianness) (reader_entity_id : EntityId)
    (set_final_flag set_liveliness_flag : bool) : MessageBuilder :=
  let heartbeat := mkHeartbeat reader_entity_id writer_entity_id first last heartbeat_count in
  let flags := Z.lor (from_endianness e)
                 (Z.lor (if set_final_flag then HEARTBEAT_Final else 0)
                        (if set_liveliness_flag then HEARTBEAT_Liveliness else 0)) in
  mb ++ [mkSubmessage flags (u16 (Z.of_nat (length (Heartbeat_write LittleEndian heartbeat)))) (SmHeartbeat heartbeat)].
End builder.

(** ** What a GAP declares *)

(** The sequence numbers a GAP declares irrelevant: those from its start up to
    the base of its list, and those in the list. *)
Definition gap_declares (g : Gap) (sn : SequenceNumber) : Prop :=
  gap_start g <= sn < bitmap_base (gap_list g) \/ ns_mem (gap_list g) sn.

(** The loop stops at the first number not in the set, and has fuel enough:
    every step but the last is at a different element. *)
Lemma range_endpoint_loop_spec fuel (S : gset SequenceNumber) sn :
  (forall x, x ∈ S -> x < i64_max) -> i64_min <= sn <= i64_max ->
  (size (filter (fun x => (sn <= x)%Z) S) <= fuel)%nat ->
  exists b, range_endpoint_loop fuel S sn = Ret b /\ (sn <= b <= i64_max) /\ (b ∉ S) /\
            forall x, sn <= x < b -> x ∈ S.
Proof.
  intros HS. revert sn. induction fuel as [|fuel IH]; intros sn Hsn Hf; simpl; case_decide as Hin.
  - exfalso. assert (size (filter (fun x => sn <= x) S) <> 0%nat); [|lia].
    intros E%size_empty_inv. assert (sn ∈ filter (fun x => sn <= x) S); [|set_solver].
    apply elem_of_filter. split; [lia|done].
  - exists sn. split_and!; try done; lia.
  - rewrite sn_plus_1 by (specialize (HS _ Hin); lia).
    destruct (IH (sn + 1)) as (b & -> & Hb & Hni & Hall); [specialize (HS _ Hin); lia| |].
    { assert (size (filter (fun x => (sn + 1 <= x)%Z) S) < size (filter (fun x => (sn <= x)%Z) S))%nat; [|lia].
      apply subset_size. split; [set_solver by lia|].
      intros Hsub. assert (sn ∈ filter (fun x => sn + 1 <= x) S) as [? _]%elem_of_filter; [|lia].
      apply Hsub, elem_of_filter. split; [lia|done]. }
    exists b. split_and!; try done; try lia.
    intros x Hx. destruct (decide (x = sn)) as [->|]; [done|]. apply Hall. lia.
  - exists sn. split_and!; try done; lia.
Qed.

Lemma gap_of_spec (S : gset SequenceNumber) start w r :
  bs_first S = Some start -> (forall x, x ∈ S -> 1 <= x < i64_max) ->
  exists g, gap_of S start w r = Ret g /\ gap_start g = start /\
    ns_shape (gap_list g) /\ ns_in_range (gap_list g) /\
    start < bitmap_base (gap_list g) /\
    forall sn, gap_declares g sn <-> sn ∈ S /\ sn <= bitmap_base (gap_list g) + 255.
Proof.
  intros Hfirst HS. pose proof Hfirst as [Hin Hmin]%bs_first_Some. setoid_rewrite kle_Z in Hmin.
  pose proof (HS _ Hin). unfold gap_of. rewrite sn_plus_1 by bounds_lia.
  destruct (range_endpoint_loop_spec (size S) S (start + 1)) as (b & -> & Hb & Hni & Hall).
  { intros x ?%HS. lia. }
  { bounds_lia. }
  { apply subseteq_size. set_solver. }
  assert (forall x, start <= x < b -> x ∈ S) as Hall'.
  { intros x Hx. destruct (decide (x = start)) as [->|]; [done|]. apply Hall. lia. }
  simpl. destruct (bs_first (bs_from b S)) as [s'|] eqn:Hs'.
  - destruct (from_base_and_set_members (k:=KSequence) b (bs_from b S) s') as (l & -> & Hsh & Hr & Hbase & Hm);
      [simpl; lia|done|intros x [? _]%elem_of_bs_from; by apply HS|].
    apply bs_first_Some in Hs' as [[Hs1 Hs2]%elem_of_bs_from _]. rewrite kle_Z in Hs2.
    rewrite Z.min_l in Hbase, Hm by lia. simpl. eexists; split; [done|]; simpl.
    split_and!; try done; [lia|]. intros sn. unfold gap_declares; simpl.
    rewrite Hm, Hbase, elem_of_bs_from, kle_Z. split.
    + intros [?|[[? ?] ?]]; [split; [auto|lia]|split; [done|lia]].
    + intros [Hsn Hle]. specialize (Hmin _ Hsn). destruct (decide (sn < b)); [left; lia|right; split; [split; [done|lia]|lia]].
  - pose proof (proj1 (bs_first_None _) Hs') as E. unfold NumberSet_from_base_and_set. rewrite Hs'. simpl.
    eexists; split; [done|]; simpl. destruct (NumberSet_new_shape (k:=KSequence) b 0) as [Hsh Hemp]; [lia|].
    split; [done|]. split; [done|]. split; [unfold ns_in_range; simpl; lia|]. split; [simpl; lia|].
    intros sn. unfold gap_declares; simpl. split.
    + intros [?|?%Hemp]; [split; [auto|lia]|done].
    + intros [Hsn _]. specialize (Hmin _ Hsn). left. destruct (decide (sn < b)); [lia|].
      assert (sn ∈ bs_from b S); [|set_solver]. apply elem_of_bs_from. rewrite kle_Z. split; [done|lia].
Qed.

(** The GAP built for a set of irrelevant sequence numbers declares exactly
    those of the set that are at most 255 past the end of the run it starts
    with: nothing relevant is ever declared irrelevant, and building it neither
    panics nor loops forever. *)
Theorem gap_msg_declares `{SP : Speedy} (mb : list Submessage) (irrelevant : gset SequenceNumber) w e r :
  irrelevant <> ∅ -> (forall x, x ∈ irrelevant -> 1 <= x < i64_max) ->
  exists g, gap_msg mb irrelevant w e r = Ret (mb ++ [Gap_create_submessage g (from_endianness e)]) /\
    gap_start g ∈ irrelevant /\ gap_start g < bitmap_base (gap_list g) /\
    (forall sn, gap_declares g sn <-> sn ∈ irrelevant /\ sn <= bitmap_base (gap_list g) + 255).
Proof.
  intros Hne HS. unfold gap_msg. destruct (bs_first irrelevant) as [start|] eqn:Hf.
  2: { by apply bs_first_None in Hf. }
  destruct (bs_last irrelevant) as [lst|] eqn:Hl.
  2: { unfold bs_last in Hl. unfold bs_first in Hf. destruct (bs_iter irrelevant); [done|].
       by apply last_None in Hl. }
  destruct (gap_of_spec irrelevant start w r Hf HS) as (g & -> & Hg & _ & _ & Hlt & Hd).
  exists g. simpl. split_and!; [done| |lia|done]. rewrite Hg. by apply bs_first_Some in Hf as [? _].
Qed.

Lemma gap_msg_declares_witness :
  exists g, gap_msg [] {[2; 3; 7]} EntityId_UNKNOWN LittleEndian GUID_UNKNOWN
            = Ret [Gap_create_submessage g 1] /\
    (forall sn, gap_declares g sn <-> sn ∈ ({[2; 3; 7]} : gset SequenceNumber) /\ sn <= bitmap_base (gap_list g) + 255).
Proof.
  destruct (gap_msg_declares [] {[2; 3; 7]} EntityId_UNKNOWN LittleEndian GUID_UNKNOWN) as (g & H1 & _ & _ & H2).
  - set_solver.
  - intros x Hx. assert (x = 2 \/ x = 3 \/ x = 7) as Hc by set_solver. unfold i64_max. lia.
  - exists g. split; [exact H1|exact H2].
Defined.
