(* ===== verification/MessageWire.v ===== *)
(** * Messages on the wire

    [Message::read_from_buffer] and [Writable for Message] of
    [src/rtps/message.rs], [Submessage::read_from_buffer] and the writers of
    [src/rtps/submessage.rs]: a datagram is split into submessages by the length
    in each submessage header, and each is decoded by its kind, in the byte
    order its flags name.  Without the [security] feature the secure kinds are
    unknown kinds.  [original_bytes], which only the security plugins read, is
    left out of [Submessage], and the typed flags of a submessage, the header's
    flags with unknown bits cleared, are its header's flags. *)

From S2P Require Import Prelude BTree Wire SequenceNumbers Time Guid Locator ParameterList Payload Submessages Headers MessageBuilder.

(** The kind that the constructors of a submessage put into its header. *)
Definition sm_kind (b : SubmessageBody) : SubmessageKind :=
  match b with
  | SmData _ => KIND_DATA | SmDataFrag _ => KIND_DATA_FRAG | SmHeartbeat _ => KIND_HEARTBEAT
  | SmGap _ => KIND_GAP | SmAckNack _ => KIND_ACKNACK | SmNackFrag _ => KIND_NACK_FRAG
  | SmHeartbeatFrag _ => KIND_HEARTBEAT_FRAG | SmInfoSource _ => KIND_INFO_SRC
  | SmInfoDestination _ => KIND_INFO_DST | SmInfoReply _ => KIND_INFO_REPLY
  | SmInfoTimestamp _ => KIND_INFO_TS
  end.
Definition sm_header (sm : Submessage) : SubmessageHeader :=
  mkSubHeader (sm_kind (sm_body sm)) (sm_flags sm) (sm_content_length sm).

(** What reading from a buffer gives: an error, or a value. *)
Definition of_reader {A} (r : reader A) (bs : bytes) : option A := fst <$> r bs.

Section wire.
Context `{SP : Speedy}.

(** ** Writing *)

Definition SubmessageBody_write (e : Endianness) (b : SubmessageBody) : bytes :=
  match b with
  | SmData d => Data_write e d | SmDataFrag d => DataFrag_write e d | SmHeartbeat h => Heartbeat_write e h
  | SmGap g => Gap_write e g | SmAckNack a => AckNack_write e a | SmNackFrag n => NackFrag_write e n
  | SmHeartbeatFrag h => HeartbeatFrag_write e h | SmInfoSource i => InfoSource_write e i
  | SmInfoDestination p => GuidPrefix_write e p | SmInfoReply i => InfoReply_write e i
  | SmInfoTimestamp None => []
  | SmInfoTimestamp (Some t) => Timestamp_write e t
  end.

(** [e] is the endianness of the context, which only single bytes are written in. *)
Definition Submessage_write (e : Endianness) (sm : Submessage) : bytes :=
  SubmessageHeader_write e (sm_header sm)
  ++ SubmessageBody_write (endianness_flag (sm_flags sm)) (sm_body sm).

Definition Message_write (e : Endianness) (m : Message) : bytes :=
  Header_write e (header m) ++ concat (Submessage_write e <$> submessages m).

(** ** Reading *)

(** The body by its kind: [None] is an error, [Some None] a submessage that is
    skipped. *)
Definition SubmessageBody_read (kind : SubmessageKind) (flags : Z) (content : bytes)
  : option (option (outcome SubmessageBody)) :=
  let e := endianness_flag flags in
  let body {A} (c : A -> SubmessageBody) (r : reader A) := (fun a => Some (Ret (c a))) <$> of_reader r content in
  if kind =? KIND_DATA then body SmData (Data_deserialize flags)
  else if kind =? KIND_DATA_FRAG then body SmDataFrag (DataFrag_deserialize flags)
  else if kind =? KIND_GAP then body SmGap (Gap_read e)
  else if kind =? KIND_ACKNACK then body SmAckNack (AckNack_read e)
  else if kind =? KIND_NACK_FRAG then body SmNackFrag (NackFrag_read e)
  else if kind =? KIND_HEARTBEAT then body SmHeartbeat (Heartbeat_read e)
  else if kind =? KIND_HEARTBEAT_FRAG then body SmHeartbeatFrag (HeartbeatFrag_read e)
  else if kind =? KIND_INFO_DST then body SmInfoDestination (GuidPrefix_read e)
  else if kind =? KIND_INFO_SRC then body SmInfoSource (InfoSource_read e)
  else if kind =? KIND_INFO_TS then
    if contains flags INFOTIMESTAMP_Invalidate then Some (Some (Ret (SmInfoTimestamp None)))
    else body (fun t => SmInfoTimestamp (Some t)) (Timestamp_read e)
  else if kind =? KIND_INFO_REPLY then
    (fun o : outcome InfoReply => Some (i ← o; Ret (SmInfoReply i))) <$> of_reader (InfoReply_read e) content
  else Some None.

(** The length of the content that the header proposes for a buffer of [len]
    bytes: a length of 0 means up to the end, except for PAD and INFO_TS. *)
Definition proposed_content_length (h : SubmessageHeader) (len : Z) : Z :=
  if sh_content_length h =? 0 then
    if (sh_kind h =? KIND_PAD) || (sh_kind h =? KIND_INFO_TS) then 0 else u64 (len - 4)
  else sh_content_length h.

(** [Submessage::read_from_buffer]: [Ret None] is an I/O error; otherwise the
    submessage, if it is of a known kind, and what is left of the buffer. *)
Definition Submessage_read_from_buffer (e : Endianness) (buffer : bytes)
  : outcome (option (option Submessage * bytes)) :=
  match SubmessageHeader_read e buffer with
  | None => Ret None
  | Some (sub_header, _) =>
      let len := Z.of_nat (length buffer) in
      let proposed := proposed_content_length sub_header len in
      if negb (4 + proposed <=? len) then Ret None
      else
        let sub_length := (4 + Z.to_nat proposed)%nat in
        let sub_content_buffer := drop 4 (take sub_length buffer) in
        let rest := drop sub_length buffer in
        match SubmessageBody_read (sh_kind sub_header) (sh_flags sub_header) sub_content_buffer with
        | None => Ret None
        | Some None => Ret (Some (None, rest))
        | Some (Some o) =>
            b ← o;
            Ret (Some (Some (mkSubmessage (sh_flags sub_header) (sh_content_length sub_header) b), rest))
        end
  end.

(** The submessage loop. *)
Fixpoint Message_read_loop (fuel : nat) (e : Endianness) (submessages_left : bytes) (acc : list Submessage)
  : outcome (option (list Submessage)) :=
  match submessages_left, fuel with
  | [], _ => Ret (Some acc)
  | _, O => Diverge
  | _, S fuel =>
      r ← Submessage_read_from_buffer e submessages_left;
      match r with
      | None => Ret None
      | Some (None, rest) => Message_read_loop fuel e rest acc
      | Some (Some sm, rest) => Message_read_loop fuel e rest (acc ++ [sm])
      end
  end.

Definition Message_read_from_buffer (e : Endianness) (buffer : bytes) : outcome (option Message) :=
  match of_reader (Header_read e) buffer with
  | None => Ret None
  | Some rtps_header =>
      if negb (Header_valid rtps_header) then Ret None
      else if (length buffer <? 20)%nat then Panic "range start must not be greater than end"
      else
        sms ← Message_read_loop (length buffer) e (drop 20 buffer) [];
        Ret (mkMessage rtps_header <$> (sms : option (list Submessage)))
  end.
End wire.

(** ** Whatever bytes arrive *)

(** The contents of a submessage that the types and the checks of the
    deserializers guarantee. *)
Definition body_ok (flags : Z) (b : SubmessageBody) : Prop :=
  match b with
  | SmData d => EntityId_ok (data_reader_id d) /\ EntityId_ok (data_writer_id d) /\ in_s 64 (data_writer_sn d) /\
                Data_flags_match flags d
  | SmDataFrag d => DataFrag_ok d /\ DataFrag_valid d
  | SmHeartbeat h => Heartbeat_ok h
  | SmGap g => Gap_ok g
  | SmAckNack a => AckNack_ok a
  | SmNackFrag n => NackFrag_ok n
  | SmHeartbeatFrag h => HeartbeatFrag_ok h
  | SmInfoSource i => length (prefix_bytes (is_guid_prefix i)) = 12%nat
  | SmInfoDestination p => length (prefix_bytes p) = 12%nat
  | SmInfoReply _ => True
  | SmInfoTimestamp t =>
      contains flags INFOTIMESTAMP_Invalidate = bool_decide (t = None) /\ forall ts, t = Some ts -> Timestamp_ok ts
  end.

(** Take a successful run of a reader apart, step by step. *)
Ltac reader_steps H :=
  unfold mbind, reader_bind in H;
  repeat (cbv beta iota in H;
    match type of H with
    | match ?r ?bs with Some _ => _ | None => _ end = Some _ =>
        let E := fresh "E" in destruct (r bs) as [[? ?]|] eqn:E; [|discriminate H]
    end).

Section reading.
Context `{SP : Speedy, !SpeedyLaws SP}.

Lemma EntityId_read_range e bs i rest : EntityId_read e bs = Some (i, rest) -> EntityId_ok i.
Proof.
  intros H. unfold EntityId_read in H. reader_steps H. injection H as <- <-.
  unfold EntityId_ok; simpl. unfold read_u8 in *. split_and!; by eapply (sp_read_range 1).
Qed.

Lemma read_u16_range e bs z rest : read_u16 e bs = Some (z, rest) -> in_u 16 z.
Proof. apply (sp_read_range 2). Qed.
End reading.

Create HintDb ranges.
#[export] Hint Resolve EntityId_read_range SequenceNumber_read_range read_u32_range read_i32_range read_u16_range : ranges.

Section total.
Context `{SP : Speedy, !SpeedyLaws SP}.

Lemma read_inline_qos_some e b bs q rest :
  read_inline_qos e b bs = Some (q, rest) -> b = bool_decide (is_Some q).
Proof. unfold read_inline_qos. destruct b; intros H; [reader_steps H|]; by injection H as <- <-. Qed.

Lemma Data_deserialize_ok flags bs d rest :
  Data_deserialize flags bs = Some (d, rest) -> body_ok flags (SmData d).
Proof.
  intros H. unfold Data_deserialize in H. reader_steps H.
  injection H as <- <-. unfold body_ok, Data_flags_match.
  cbn [data_reader_id data_writer_id data_writer_sn data_inline_qos data_serialized_payload].
  split_and!; eauto using read_inline_qos_some with ranges.
  destruct (contains flags DATA_Data || contains flags DATA_Key);
    match goal with E : _ = Some (?o, _) |- _ = bool_decide (is_Some ?o) => by injection E as <- _ end.
Qed.

Lemma DataFrag_deserialize_ok flags bs d rest :
  DataFrag_deserialize flags bs = Some (d, rest) -> body_ok flags (SmDataFrag d).
Proof.
  intros H. split; [|by eapply DataFrag_deserialize_valid]. revert H. unfold DataFrag_deserialize. intros H.
  reader_steps H. repeat (case_match; [done|]). simpl in H. case_match; [done|].
  injection H as <- <-. unfold DataFrag_ok; simpl. split_and!; eauto with ranges.
Qed.

Lemma control_read_ok e bs rest :
  (forall h, Heartbeat_read e bs = Some (h, rest) -> Heartbeat_ok h) /\
  (forall g, Gap_read e bs = Some (g, rest) -> Gap_ok g) /\
  (forall a, AckNack_read e bs = Some (a, rest) -> AckNack_ok a) /\
  (forall n, NackFrag_read e bs = Some (n, rest) -> NackFrag_ok n) /\
  (forall h, HeartbeatFrag_read e bs = Some (h, rest) -> HeartbeatFrag_ok h) /\
  (forall t, Timestamp_read e bs = Some (t, rest) -> Timestamp_ok t).
Proof.
  split_and!; intros x H.
  all: unfold Heartbeat_read, Gap_read, AckNack_read, NackFrag_read, HeartbeatFrag_read, Timestamp_read in H.
  all: reader_steps H; injection H as <- <-.
  all: repeat match goal with E : NumberSet_read _ _ = _ |- _ => apply NumberSet_read_ok in E as [? ?] end.
  all: unfold Heartbeat_ok, Gap_ok, AckNack_ok, NackFrag_ok, HeartbeatFrag_ok, Timestamp_ok; simpl;
    split_and!; eauto with ranges.
Qed.

Lemma prefix_read_ok e bs p rest : GuidPrefix_read e bs = Some (p, rest) -> length (prefix_bytes p) = 12%nat.
Proof.
  unfold GuidPrefix_read. intros H. reader_steps H. injection H as <- <-. simpl.
  by eapply (read_n_Some (fun _ => True)) in E as [? _].
Qed.

(** Sixteen bytes of address are read, so a locator is never cut short. *)
Lemma Locator_read_ret e bs o rest : Locator_read e bs = Some (o, rest) -> exists l, o = Ret l.
Proof.
  unfold Locator_read. intros H. reader_steps H. injection H as <- <-.
  unfold repr_Locator_read in E. reader_steps E. injection E as <- <-. eapply (read_n_Some (fun _ => True)) in E2 as [Hl _]; [|done].
  match type of Hl with length ?l = _ => do 16 (destruct l as [|? l]; [done|]); destruct l; [|done] end.
  unfold Locator_from_repr; simpl. repeat (case_match; eauto).
Qed.

Lemma outcome_all_ret {A} (l : list (outcome A)) : Forall (fun o => exists a, o = Ret a) l -> exists r, outcome_all l = Ret r.
Proof.
  induction 1 as [|o l [a ->] _ [r Hr]]; simpl; [eauto|]. rewrite Hr. simpl. eauto.
Qed.

Lemma LocatorList_read_ret e bs o rest : LocatorList_read e bs = Some (o, rest) -> exists l, o = Ret l.
Proof.
  unfold LocatorList_read. intros H. reader_steps H. injection H as <- <-.
  apply outcome_all_ret. by eapply read_n_Some in E0 as [_ ?]; [|apply Locator_read_ret].
Qed.

Lemma InfoReply_read_ret e bs o rest : InfoReply_read e bs = Some (o, rest) -> exists l, o = Ret l.
Proof.
  unfold InfoReply_read. intros H. reader_steps H. apply LocatorList_read_ret in E as [u ->]. case_match.
  - reader_steps H. apply LocatorList_read_ret in E as [m ->]. injection H as <- <-. simpl. eauto.
  - injection H as <- <-. simpl. eauto.
Qed.

Lemma of_reader_Some {A} (r : reader A) bs a : of_reader r bs = Some a -> exists rest, r bs = Some (a, rest).
Proof. unfold of_reader. destruct (r bs) as [[a' rest]|]; simpl; [|done]. intros [= ->]. eauto. Qed.

Lemma SubmessageBody_read_ok kind flags content o :
  SubmessageBody_read kind flags content = Some (Some o) ->
  exists b, o = Ret b /\ body_ok flags b /\ sm_kind b = kind.
Proof.
  unfold SubmessageBody_read. intros H.
  repeat match type of H with
  | (if kind =? ?k then _ else _) = _ => destruct (Z.eqb_spec kind k) as [->|_]; [|try done]
  end.
  all: try (apply fmap_Some in H as (x & [rest Hx]%of_reader_Some & [= ->]);
    eexists; split_and!; [done| |done];
    first [by eapply Data_deserialize_ok|by eapply DataFrag_deserialize_ok|by eapply prefix_read_ok
          |by eapply control_read_ok]).
  - apply fmap_Some in H as (x & [rest Hx]%of_reader_Some & [= ->]). eexists; split_and!; [done| |done]. simpl.
    unfold InfoSource_read in Hx. reader_steps Hx. injection Hx as <- <-. by eapply prefix_read_ok.
  - destruct (contains flags INFOTIMESTAMP_Invalidate) eqn:Ec.
    + injection H as <-. eexists; split_and!; [done| |done]. simpl. by rewrite Ec.
    + apply fmap_Some in H as (x & [rest Hx]%of_reader_Some & [= ->]). eexists; split_and!; [done| |done]. simpl.
      rewrite Ec. split; [done|]. intros ts [= <-]. by eapply control_read_ok.
  - apply fmap_Some in H as (x & [rest Hx]%of_reader_Some & [= ->]). apply InfoReply_read_ret in Hx as [l ->].
    eexists; by split_and!.
Qed.

(** One submessage: no bytes make it panic, and it takes at least its header. *)
Lemma Submessage_read_total e bs :
  exists r, Submessage_read_from_buffer e bs = Ret r /\
    forall osm rest, r = Some (osm, rest) ->
      (length rest + 4 <= length bs)%nat /\
      forall sm, osm = Some sm -> body_ok (sm_flags sm) (sm_body sm).
Proof.
  unfold Submessage_read_from_buffer.
  destruct (SubmessageHeader_read e bs) as [[h rest0]|] eqn:Eh; [|eexists; split; [done|done]].
  destruct (Z.leb_spec (4 + proposed_content_length h (Z.of_nat (length bs))) (Z.of_nat (length bs)));
    simpl; [|eexists; split; [done|done]].
  set (n := Z.to_nat _).
  assert (length (drop (S (S (S (S n)))) bs) + 4 <= length bs)%nat.
  { rewrite length_drop. unfold SubmessageHeader_read in Eh. reader_steps Eh. unfold read_u8 in *.
    repeat match goal with E : sp_read _ _ _ = _ |- _ => apply sp_read_consumes in E end. lia. }
  destruct (SubmessageBody_read _ _ _) as [[o|]|] eqn:Eb; [|eexists; split; [done|]..].
  - apply SubmessageBody_read_ok in Eb as (b & -> & Hb & _). simpl. eexists; split; [done|].
    intros osm rest [= <- <-]. split; [done|]. by intros sm [= <-].
  - intros osm rest [= <- <-]. done.
  - done.
Qed.

Lemma Message_read_loop_total fuel e bs acc :
  (length bs <= fuel)%nat -> Forall (fun sm => body_ok (sm_flags sm) (sm_body sm)) acc ->
  exists r, Message_read_loop fuel e bs acc = Ret r /\
    forall sms, r = Some sms -> Forall (fun sm => body_ok (sm_flags sm) (sm_body sm)) sms.
Proof.
  revert bs acc. induction fuel as [|fuel IH]; intros bs acc Hf Hacc; (destruct bs as [|b bs]; [eexists; split; [done|by intros sms [= <-]]|]).
  { simpl in Hf. lia. }
  destruct (Submessage_read_total e (b :: bs)) as (r & E & Hr). cbn [Message_read_loop]. rewrite E. simpl.
  destruct r as [[osm rest]|]; [|eexists; split; done].
  destruct (Hr _ _ eq_refl) as [Hlen Hsm]. simpl in Hlen, Hf. destruct osm as [sm|]; apply IH; auto; try lia.
  apply Forall_app. split; [done|]. constructor; [by apply Hsm|done].
Qed.
End total.

Lemma Header_read_consumes `{SP : Speedy, !SpeedyLaws SP} e bs h rest :
  Header_read e bs = Some (h, rest) -> length bs = (20 + length rest)%nat.
Proof.
  unfold Header_read. intros H. reader_steps H. injection H as <- <-.
  unfold ProtocolId_read in E. unfold ProtocolVersion_read in E0. unfold VendorId_read in E1. unfold GuidPrefix_read in E2.
  reader_steps E. reader_steps E0. reader_steps E1. reader_steps E2. unfold read_u8 in *.
  cbv [mret reader_ret] in E, E0, E1, E2. simplify_eq.
  repeat match goal with
  | E : read_n _ _ _ = _ |- _ => eapply (read_n_consumes 1) in E; [|intros ???; apply sp_read_consumes]
  | E : sp_read _ _ _ = _ |- _ => apply sp_read_consumes in E
  end. lia.
Qed.

Lemma read_any_message `{SP : Speedy, !SpeedyLaws SP} e bs :
  exists r, Message_read_from_buffer e bs = Ret r /\
    forall m, r = Some m ->
      Header_valid (header m) = true /\
      Forall (fun sm => body_ok (sm_flags sm) (sm_body sm)) (submessages m).
Proof.
  unfold Message_read_from_buffer. destruct (of_reader (Header_read e) bs) as [h|] eqn:Eh; [|by eexists].
  destruct (Header_valid h) eqn:Ev; simpl; [|by eexists].
  apply of_reader_Some in Eh as [rest Eh].
  destruct (Nat.ltb_spec (length bs) 20) as [Hlt|Hge].
  { apply Header_read_consumes in Eh. lia. }
  destruct (Message_read_loop_total (length bs) e (drop 20 bs) []) as (r & -> & Hr); [rewrite length_drop; lia|done|].
  simpl. eexists; split; [done|]. intros m. destruct r as [sms|]; simpl; [|done]. intros [= <-]. auto.
Qed.

(** Every submessage has at least its header in the datagram. *)
Lemma Message_read_loop_count `{SP : Speedy, !SpeedyLaws SP} fuel e bs acc sms :
  Message_read_loop fuel e bs acc = Ret (Some sms) -> (4 * length sms <= 4 * length acc + length bs)%nat.
Proof.
  revert bs acc. induction fuel as [|fuel IH]; intros [|b bs] acc; cbn [Message_read_loop]; [by intros [= <-]; lia|done|by intros [= <-]; lia|].
  destruct (Submessage_read_total e (b :: bs)) as (r & -> & Hr). simpl.
  destruct r as [[osm rest]|]; [|done]. destruct (Hr _ _ eq_refl) as [Hlen _].
  destruct osm; intros H%IH; rewrite ?length_app in H; simpl in *; lia.
Qed.

(** C9: whatever bytes arrive in a datagram, reading them ends without a panic:
    either the datagram is rejected or it is a message with a valid header and at
    most as many submessages as headers fit, all of which satisfy the bounds of
    their types and the checks that the handlers rely on - number sets with at
    most 256 bits and the bitmap they declare, fragments that exist in a sample of
    their size, inline QoS and payload exactly when the flags announce them. *)
Theorem message_read_total `{SP : Speedy, !SpeedyLaws SP} e bs :
  exists r, Message_read_from_buffer e bs = Ret r /\
    forall m, r = Some m ->
      Header_valid (header m) = true /\
      (20 + 4 * length (submessages m) <= length bs)%nat /\
      Forall (fun sm => body_ok (sm_flags sm) (sm_body sm)) (submessages m).
Proof.
  destruct (read_any_message e bs) as (r & E & Hr). exists r. split; [done|]. intros m ->.
  destruct (Hr m eq_refl) as [Hh Hok]. split; [done|]. split; [|done]. revert E. unfold Message_read_from_buffer.
  repeat (case_match; try done). destruct (Nat.ltb_spec (length bs) 20); [done|].
  intros (sms & Hl & Hm)%bind_Ret. destruct sms as [sms|]; [|done]. injection Hm as <-.
  apply Message_read_loop_count in Hl. rewrite length_drop in Hl. simpl in *. lia.
Qed.

(** ** What is sent is what is received *)

(** Contents that the writers of the source produce: in the bounds of their
    types, with flags that say what is there.  A DATAFRAG has no inline QoS,
    which is not read back (see [datafrag_inline_qos_extra_byte]). *)
Definition prefix_ok (p : GuidPrefix) : Prop := length (prefix_bytes p) = 12%nat /\ Forall (in_u 8) (prefix_bytes p).
Definition version_ok (v : ProtocolVersion) : Prop := in_u 8 (major v) /\ in_u 8 (minor v).
Definition vendor_ok (v : VendorId) : Prop := in_u 8 (vendor_id_bytes v).1 /\ in_u 8 (vendor_id_bytes v).2.
Definition locators_ok (l : list Locator) : Prop := in_u 32 (Z.of_nat (length l)) /\ Forall Locator_ok l.

Definition body_sendable (flags : Z) (b : SubmessageBody) : Prop :=
  match b with
  | SmData d => Data_ok d /\ Data_flags_match flags d
  | SmDataFrag d => DataFrag_ok d /\ DataFrag_valid d /\ df_inline_qos d = None /\
                    contains flags DATAFRAG_InlineQos = false
  | SmInfoSource i => in_u 32 (is_unused i) /\ version_ok (is_protocol_version i) /\ vendor_ok (is_vendor_id i) /\
                      prefix_ok (is_guid_prefix i)
  | SmInfoDestination p => prefix_ok p
  | SmInfoReply i => locators_ok (ir_unicast_locator_list i) /\
                     forall l, ir_multicast_locator_list i = Some l -> locators_ok l
  | _ => body_ok flags b
  end.

Definition sendable `{SP : Speedy} (sm : Submessage) : Prop :=
  in_u 8 (sm_flags sm) /\ body_sendable (sm_flags sm) (sm_body sm) /\
  sm_content_length sm = Z.of_nat (length (SubmessageBody_write (endianness_flag (sm_flags sm)) (sm_body sm))) /\
  in_u 16 (sm_content_length sm).

Definition Header_ok (h : Header) : Prop :=
  Header_valid h = true /\ version_ok (h_protocol_version h) /\ vendor_ok (h_vendor_id h) /\ prefix_ok (h_guid_prefix h).

(** A submessage as it is received: inline QoS values come with their padding. *)
Definition received_sm `{SP : Speedy} (sm : Submessage) : Submessage :=
  let e := endianness_flag (sm_flags sm) in
  mkSubmessage (sm_flags sm) (sm_content_length sm)
    (match sm_body sm with
     | SmData d => SmData (mkData (data_reader_id d) (data_writer_id d) (data_writer_sn d)
                             (pad_qos e (data_inline_qos d)) (data_serialized_payload d))
     | b => b
     end).

Section roundtrip.
Context `{SP : Speedy, !SpeedyLaws SP}.

Lemma read_write_u8 e z rest : in_u 8 z -> read_u8 e (write_u8 e z ++ rest) = Some (z, rest).
Proof. apply (sp_read_write 1). Qed.

Lemma read_write_u8s n e (l : list Z) rest :
  length l = n -> Forall (in_u 8) l -> read_n n (read_u8 e) (concat (write_u8 e <$> l) ++ rest) = Some (l, rest).
Proof.
  intros <- Hl. apply read_n_write. intros x r Hx. apply read_write_u8. by eapply Forall_forall in Hx.
Qed.

Lemma length_write_u8s e (l : list Z) : length (concat (write_u8 e <$> l)) = length l.
Proof.
  induction l as [|x l IH]; csimpl; [done|]. unfold write_u8 at 1. rewrite length_app, sp_length. simpl. by rewrite IH.
Qed.

Lemma read_write_GuidPrefix e p rest : prefix_ok p -> GuidPrefix_read e (GuidPrefix_write e p ++ rest) = Some (p, rest).
Proof.
  intros [Hl Hp]. unfold GuidPrefix_read, GuidPrefix_write, mbind, reader_bind.
  rewrite read_write_u8s by done. by destruct p.
Qed.

Lemma read_write_version e v rest :
  version_ok v -> ProtocolVersion_read e (ProtocolVersion_write e v ++ rest) = Some (v, rest).
Proof.
  intros [? ?]. unfold ProtocolVersion_read, ProtocolVersion_write, mbind, reader_bind.
  rewrite <- app_assoc, !read_write_u8 by done. by destruct v.
Qed.

Lemma read_write_vendor e v rest :
  vendor_ok v -> VendorId_read e (VendorId_write e v ++ rest) = Some (v, rest).
Proof.
  intros [? ?]. unfold VendorId_read, VendorId_write, mbind, reader_bind.
  rewrite <- app_assoc, !read_write_u8 by done. by destruct v as [[]].
Qed.

Lemma read_write_Header e h rest : Header_ok h -> Header_read e (Header_write e h ++ rest) = Some (h, rest).
Proof.
  destruct h as [i v d p]. intros (Hv & H1 & H2 & H3). apply andb_true_iff in Hv as [Hv%bool_decide_eq_true _].
  simpl in *. subst i. unfold Header_read, Header_write, ProtocolId_read, ProtocolId_write, mbind, reader_bind.
  simpl protocol_id. change (concat _) with (concat (write_u8 e <$> [82; 84; 80; 83])). rewrite <- !app_assoc.
  rewrite read_write_u8s by (done || (repeat constructor; bounds_lia)). cbv beta iota. simpl.
  by rewrite read_write_version, read_write_vendor, read_write_GuidPrefix.
Qed.

Lemma read_write_SubmessageHeader e h rest :
  in_u 8 (sh_kind h) -> in_u 8 (sh_flags h) -> in_u 16 (sh_content_length h) ->
  SubmessageHeader_read e (SubmessageHeader_write e h ++ rest) = Some (h, rest).
Proof.
  destruct h as [k f n]. simpl. intros Hk Hf Hn.
  unfold SubmessageHeader_read, SubmessageHeader_write, mbind, reader_bind; simpl.
  assert (in_u 8 (u8 n) /\ in_u 8 (u8 (Z.shiftr n 8))) as [H1 H2] by (split; apply wrap_u_range; lia).
  assert (u8 n + 256 * u8 (Z.shiftr n 8) = n) as E.
  { rewrite Z.shiftr_div_pow2 by lia. unfold wrap_u. unfold in_u in Hn. pow2. Z.to_euclidean_division_equations. lia. }
  rewrite <- !app_assoc, !read_write_u8 by done.
  destruct (endianness_flag f); rewrite <- !app_assoc, !read_write_u8 by done;
    unfold mret, reader_ret; do 3 f_equal; lia.
Qed.

Lemma length_SubmessageHeader_write e h : length (SubmessageHeader_write e h) = 4%nat.
Proof.
  unfold SubmessageHeader_write, write_u8. rewrite !length_app, !sp_length.
  destruct (endianness_flag _); by rewrite length_app, !sp_length.
Qed.

Lemma read_write_InfoSource e i rest :
  body_sendable 0 (SmInfoSource i) -> InfoSource_read e (InfoSource_write e i ++ rest) = Some (i, rest).
Proof.
  destruct i. simpl. intros (? & ? & ? & ?). unfold InfoSource_read, InfoSource_write, mbind, reader_bind. simpl.
  by rewrite <- !app_assoc, read_write_u32, read_write_version, read_write_vendor, read_write_GuidPrefix.
Qed.

Lemma read_write_Timestamp e t rest : Timestamp_ok t -> Timestamp_read e (Timestamp_write e t ++ rest) = Some (t, rest).
Proof.
  destruct t. intros [? ?]. unfold Timestamp_read, Timestamp_write, mbind, reader_bind.
  by rewrite <- app_assoc, !read_write_u32.
Qed.

Lemma read_locators e (l : list Locator) rest :
  Forall Locator_ok l ->
  read_n (length l) (Locator_read e) (concat (Locator_write e <$> l) ++ rest) = Some (Ret <$> l, rest).
Proof.
  induction 1 as [|x l Hx _ IH]; csimpl; [done|]. unfold mbind, reader_bind.
  by rewrite <- (app_assoc (Locator_write e x)), read_write_Locator, IH.
Qed.

Lemma read_write_LocatorList e l rest :
  locators_ok l -> LocatorList_read e (LocatorList_write e l ++ rest) = Some (Ret l, rest).
Proof.
  intros [Hn Hl]. unfold LocatorList_read, LocatorList_write, mbind, reader_bind.
  rewrite <- app_assoc, read_write_u32, Nat2Z.id, read_locators by done.
  unfold mret, reader_ret. do 2 f_equal. clear. induction l as [|x l IH]; csimpl; [done|]. by rewrite IH.
Qed.

Lemma read_write_InfoReply e i rest :
  body_sendable 0 (SmInfoReply i) -> InfoReply_read e (InfoReply_write e i ++ rest) = Some (Ret i, rest).
Proof.
  destruct i as [u [m|]]; simpl; intros [Hu Hm]; unfold InfoReply_read, InfoReply_write, mbind, reader_bind; simpl;
    rewrite <- !app_assoc, read_write_LocatorList, sp_read_write_option_tag by done; [|done].
  by rewrite read_write_LocatorList by auto.
Qed.

Lemma of_reader_eq {A} (r : reader A) (w : bytes) a : (exists rest, r w = Some (a, rest)) -> of_reader r w = Some a.
Proof. intros [rest E]. unfold of_reader. by rewrite E. Qed.

Lemma of_reader_all {A} (r : reader A) (w : bytes) a :
  (forall rest, r (w ++ rest) = Some (a, rest)) -> of_reader r w = Some a.
Proof. intros H. apply of_reader_eq. exists []. by rewrite <- (H []), app_nil_r. Qed.

Lemma SubmessageBody_roundtrip flags n b :
  body_sendable flags b ->
  SubmessageBody_read (sm_kind b) flags (SubmessageBody_write (endianness_flag flags) b)
  = Some (Some (Ret (sm_body (received_sm (mkSubmessage flags n b))))).
Proof.
  intros Hb. destruct b as [d|d|h|g|a|nf|h|i|p|i|t]; unfold received_sm; cbn [sm_body sm_flags];
    unfold SubmessageBody_read; simpl sm_kind; cbn [Z.eqb Pos.eqb KIND_DATA]; cbv zeta.
  - destruct Hb as [Hok Hf]. simpl. by rewrite (of_reader_eq _ _ _ (Data_roundtrip flags d Hok Hf)).
  - destruct Hb as (Hok & Hv & Hq & Hf). simpl. by rewrite (of_reader_eq _ _ _ (DataFrag_roundtrip flags d Hok Hv Hq Hf)).
  - simpl. by rewrite (of_reader_all _ _ h) by (intros; by apply read_write_Heartbeat).
  - simpl. by rewrite (of_reader_all _ _ g) by (intros; by apply read_write_Gap).
  - simpl. by rewrite (of_reader_all _ _ a) by (intros; by apply read_write_AckNack).
  - simpl. by rewrite (of_reader_all _ _ nf) by (intros; by apply read_write_NackFrag).
  - simpl. by rewrite (of_reader_all _ _ h) by (intros; by apply read_write_HeartbeatFrag).
  - simpl. by rewrite (of_reader_all _ _ i) by (intros; by apply read_write_InfoSource).
  - simpl. by rewrite (of_reader_all _ _ p) by (intros; by apply read_write_GuidPrefix).
  - simpl. by rewrite (of_reader_all _ _ (Ret i)) by (intros; by apply read_write_InfoReply).
  - destruct Hb as [Hf Ht]. cbn [Z.eqb]. simpl. rewrite Hf. destruct t as [t|]; simpl; [|done].
    by rewrite (of_reader_all _ _ t) by (intros; by apply read_write_Timestamp, Ht).
Qed.

Lemma kind_range b : in_u 8 (sm_kind b).
Proof. destruct b; simpl; cbv; split; (discriminate || reflexivity). Qed.

(** Only an INFO_TS may be empty. *)
Lemma body_nonempty flags e b :
  body_sendable flags b -> sm_kind b <> KIND_INFO_TS -> (0 < length (SubmessageBody_write e b))%nat.
Proof.
  intros Hb Hk. destruct b as [d|d|h|g|a|nf|h|i|p|i|t]; simpl; [..|done].
  1-2: unfold Data_write, DataFrag_write, write_u16; rewrite length_app, sp_length; lia.
  1-5: unfold Heartbeat_write, Gap_write, AckNack_write, NackFrag_write, HeartbeatFrag_write;
    rewrite length_app, length_EntityId_write; lia.
  - unfold InfoSource_write, write_u32. rewrite length_app, sp_length. lia.
  - destruct p as [[|x l]]; destruct Hb as [Hl _]; [done|]. unfold GuidPrefix_write, write_u8. csimpl.
    rewrite length_app, sp_length. lia.
  - unfold InfoReply_write, LocatorList_write, write_u32. rewrite !length_app, sp_length. lia.
Qed.

Lemma Submessage_roundtrip e sm rest :
  sendable sm ->
  Submessage_read_from_buffer e (Submessage_write e sm ++ rest) = Ret (Some (Some (received_sm sm), rest)).
Proof.
  destruct sm as [flags n b]. intros (Hf & Hb & Hn & Hn16). cbn [sm_flags sm_body sm_content_length] in *.
  unfold Submessage_read_from_buffer, Submessage_write, sm_header. cbn [sm_flags sm_body sm_content_length].
  set (w := SubmessageBody_write (endianness_flag flags) b) in *. set (h := mkSubHeader _ _ _).
  rewrite <- app_assoc, read_write_SubmessageHeader by (try done; apply kind_range).
  pose proof (length_SubmessageHeader_write e h) as Hh.
  assert (proposed_content_length h (Z.of_nat (length (SubmessageHeader_write e h ++ w ++ rest))) = n) as ->.
  { unfold proposed_content_length; cbn [h sh_content_length sh_kind]. destruct (Z.eqb_spec n 0) as [Hn0|]; [|done].
    destruct (Z.eqb_spec (sm_kind b) KIND_INFO_TS) as [->|Hk]; [by rewrite orb_true_r|].
    pose proof (body_nonempty flags (endianness_flag flags) b Hb Hk). fold w in H. lia. }
  rewrite !length_app, Hh, !Nat2Z.inj_add. destruct (Z.leb_spec (4 + n) (Z.of_nat 4 + (Z.of_nat (length w) + Z.of_nat (length rest))));
    [|lia]. cbn [negb].
  assert (4 + Z.to_nat n = length (SubmessageHeader_write e h ++ w))%nat as -> by (rewrite length_app; lia).
  rewrite app_assoc, take_app_length, drop_app_length. rewrite <- Hh, drop_app_length. cbn [h sh_kind sh_flags].
  unfold w. by rewrite (SubmessageBody_roundtrip flags n).
Qed.

Lemma Message_loop_roundtrip e fuel sms acc :
  Forall sendable sms -> (length (concat (Submessage_write e <$> sms)) <= fuel)%nat ->
  Message_read_loop fuel e (concat (Submessage_write e <$> sms)) acc = Ret (Some (acc ++ (received_sm <$> sms))).
Proof.
  intros Hs. revert fuel acc. induction Hs as [|sm sms Hsm _ IH]; intros fuel acc Hf; csimpl in *.
  { by destruct fuel; rewrite app_nil_r. }
  pose proof (Submessage_roundtrip e sm (concat (Submessage_write e <$> sms)) Hsm) as E.
  assert (4 <= length (Submessage_write e sm))%nat as Hl
    by (unfold Submessage_write; rewrite length_app, length_SubmessageHeader_write; lia).
  rewrite length_app in Hf. destruct fuel as [|fuel]; [lia|].
  destruct (Submessage_write e sm ++ _) as [|x bs] eqn:Ebs; [apply app_eq_nil in Ebs as [Ebs _]; rewrite Ebs in Hl; simpl in Hl; lia|].
  cbn [Message_read_loop]. rewrite E. simpl. rewrite IH by lia. by rewrite <- app_assoc.
Qed.

Lemma length_Header_write e h : Header_ok h -> length (Header_write e h) = 20%nat.
Proof.
  intros Hh. pose proof (read_write_Header e h [] Hh) as E. apply Header_read_consumes in E.
  by rewrite app_nil_r in E.
Qed.
End roundtrip.

Lemma read_write_Message `{SP : Speedy, !SpeedyLaws SP} e m :
  Header_ok (header m) -> Forall sendable (submessages m) ->
  Message_read_from_buffer e (Message_write e m) = Ret (Some (mkMessage (header m) (received_sm <$> submessages m))).
Proof.
  intros Hh Hs. unfold Message_read_from_buffer, Message_write.
  rewrite (of_reader_eq _ _ (header m)) by (eexists; by apply read_write_Header).
  destruct (Hh) as [-> _]. cbn [negb]. pose proof (length_Header_write e _ Hh) as Hl.
  rewrite length_app, Hl. destruct (Nat.ltb_spec (20 + length (concat (Submessage_write e <$> submessages m))) 20); [lia|].
  rewrite <- Hl at 2. by rewrite drop_app_length, Message_loop_roundtrip by (done || lia).
Qed.

(** Padding is written only where it is missing. *)
Lemma Parameter_write_padded `{SP : Speedy, !SpeedyLaws SP} e p : Parameter_write e (padded e p) = Parameter_write e p.
Proof.
  unfold Parameter_write, padded; simpl. pose proof (length_padding e (length (value p))) as Hl.
  pose proof (pad_length_aligns (Z.of_nat (length (value p)))) as Ha.
  assert (pad_length (Z.of_nat (length (value p ++ padding e (length (value p))))) = 0) as E.
  { unfold pad_length at 1. rewrite length_app, Nat2Z.inj_add, Hl, Ha. done. }
  assert (padding e (length (value p ++ padding e (length (value p)))) = []) as -> by (unfold padding at 1; by rewrite E).
  rewrite E, app_nil_r, length_app, Nat2Z.inj_add, Hl. by rewrite Z.add_0_r.
Qed.

Lemma received_sm_write `{SP : Speedy, !SpeedyLaws SP} e sm : Submessage_write e (received_sm sm) = Submessage_write e sm.
Proof.
  destruct sm as [flags n b]. destruct b as [d| | | | | | | | | | ]; try done.
  unfold Submessage_write, received_sm, sm_header; simpl. f_equal. unfold Data_write; simpl.
  destruct (data_inline_qos d) as [q|]; simpl; [|done]. do 5 f_equal. unfold ParameterList_write. simpl. f_equal.
  rewrite <- list_fmap_compose. do 2 f_equal. apply list_fmap_ext. intros ? p _. apply Parameter_write_padded.
Qed.

(** C11: a message with a valid header and submessages that are [sendable], written
    to a datagram, is read back with its header and its submessages, in order and in
    the byte order each one's flags name; the values of inline QoS come back padded,
    and what was read is written as the same bytes again.  A submessage is sendable
    if its fields are within their widths, its flags announce what it has, its
    length fits in 16 bits, and it is not a DATAFRAG with inline QoS: such a one is
    made for a sample that answers another, but its inline QoS is written with a tag
    byte in front that the reader does not expect. *)
Theorem message_roundtrip `{SP : Speedy, !SpeedyLaws SP} e m :
  Header_ok (header m) -> Forall sendable (submessages m) ->
  let received := mkMessage (header m) (received_sm <$> submessages m) in
  Message_read_from_buffer e (Message_write e m) = Ret (Some received) /\
  Message_write e received = Message_write e m.
Proof.
  intros Hh Hs received. split; [by apply read_write_Message|].
  unfold Message_write; simpl. rewrite <- list_fmap_compose. do 2 f_equal. apply list_fmap_ext.
  intros ? sm _. apply received_sm_write.
Qed.

Definition demo_message : Message :=
  mkMessage (Header_new (mkPrefix (replicate 12 7)))
    [mkSubmessage 1 12 (SmInfoDestination (mkPrefix (replicate 12 9)));
     mkSubmessage 3 28 (SmAckNack demo_acknack)].

Lemma message_roundtrip_witness :
  Message_read_from_buffer LittleEndian (Message_write LittleEndian demo_message) = Ret (Some demo_message).
Proof.
  apply (message_roundtrip LittleEndian demo_message).
  - split; [reflexivity|]. split; [split; simpl; bounds_lia|]. split; [split; simpl; bounds_lia|].
    split; [reflexivity|]. simpl. repeat constructor; bounds_lia.
  - constructor; [|constructor; [|constructor]].
    + split; [simpl; bounds_lia|]. split; [split; [reflexivity|simpl; repeat constructor; bounds_lia]|].
      split; [reflexivity|simpl; bounds_lia].
    + split; [simpl; bounds_lia|]. split; [|split; [reflexivity|simpl; bounds_lia]].
      split; [cbv; repeat split; discriminate|]. split; [cbv; repeat split; discriminate|].
      split; [split; [simpl; lia|]; split; [reflexivity|]; repeat constructor; simpl; lia|].
      split; simpl; bounds_lia.
Defined.

Lemma message_read_total_witness :
  exists m, Message_read_from_buffer LittleEndian (Message_write LittleEndian demo_message) = Ret (Some m) /\
    (20 + 4 * length (submessages m) <= length (Message_write LittleEndian demo_message))%nat.
Proof.
  destruct (message_read_total LittleEndian (Message_write LittleEndian demo_message)) as (r & E & H).
  assert (Message_read_from_buffer LittleEndian (Message_write LittleEndian demo_message) = Ret (Some demo_message)) as E'
    by (vm_compute; reflexivity).
  rewrite E' in E. injection E as <-. exists demo_message. split; [exact E'|].
  destruct (H demo_message eq_refl) as (_ & Hlen & _). exact Hlen.
Defined.
