(* ===== verification/InlineQos.v ===== *)
(** * Inline QoS

    [src/messages/submessages/elements/inline_qos.rs]: what a reader takes from
    the parameter list inside a DATA or DATAFRAG - the kind of a change without
    data, the key hash of the instance, the sample a reply refers to. *)

From S2P Require Import Prelude BTree Wire SequenceNumbers Time Guid ParameterList Payload Submessages Headers MessageBuilder.

(** The flags byte is kept, the other three are zero. *)
Record StatusInfo := mkStatusInfo { si : Z }.

Definition STATUS_Disposed : Z := 1.
Definition STATUS_Unregistered : Z := 2.
Definition STATUS_Filtered : Z := 4.

Definition StatusInfo_empty : StatusInfo := mkStatusInfo 0.

(** [from_bits_truncate]: bits without a flag are dropped. *)
Definition from_bits_truncate (z : Z) : Z :=
  Z.land z (Z.lor STATUS_Disposed (Z.lor STATUS_Unregistered STATUS_Filtered)).

Definition StatusInfo_change_kind (s : StatusInfo) : ChangeKind :=
  if contains (si s) STATUS_Disposed then NotAliveDisposed
  else if contains (si s) STATUS_Unregistered then NotAliveUnregistered
  else Alive.

(** [RepresentationIdentifier::CDR_LE] or [CDR_BE], by the endianness flag, and
    back to the endianness: both are accepted. *)
Definition RepId_CDR_LE : RepresentationIdentifier := mkRepId (0, 1).
Definition RepId_CDR_BE : RepresentationIdentifier := mkRepId (0, 0).
Definition RepId_PL_CDR_BE : RepresentationIdentifier := mkRepId (0, 2).
Definition RepId_PL_CDR_LE : RepresentationIdentifier := mkRepId (0, 3).

Definition cdr_representation_identifier (flags : Z) : RepresentationIdentifier :=
  if contains flags 1 then RepId_CDR_LE else RepId_CDR_BE.

Definition pl_cdr_rep_id_to_speedy_d (r : RepresentationIdentifier) : option Endianness :=
  if decide (r = RepId_PL_CDR_LE) then Some LittleEndian
  else if decide (r = RepId_PL_CDR_BE) then Some BigEndian
  else if decide (r = RepId_CDR_LE) then Some LittleEndian
  else if decide (r = RepId_CDR_BE) then Some BigEndian
  else None.

(** [params.parameters.iter().find(...)] *)
Definition find_parameter (params : ParameterList) (pid : ParameterId) : option RtpsParameter :=
  head (filter (fun p => parameter_id p = pid) (parameters params)).

(** [<[u8; 16]>::try_from] *)
Definition KeyHash_from_pl_cdr_bytes (bs : bytes) : option KeyHash :=
  if decide (length bs = 16)%nat then Some bs else None.

(** [None]: present and not readable; [Some None]: absent. *)
Definition InlineQos_key_hash (params : ParameterList) : option (option KeyHash) :=
  match find_parameter params PID_KEY_HASH with
  | Some p => Some <$> KeyHash_from_pl_cdr_bytes (value p)
  | None => Some None
  end.

Section inline_qos.
Context `{SP : Speedy}.

Definition StatusInfo_read (e : Endianness) : reader StatusInfo :=
  _ ← read_u8 e; _ ← read_u8 e; _ ← read_u8 e; b ← read_u8 e;
  mret (mkStatusInfo (from_bits_truncate b)).

(** [None] is an error. *)
Definition InlineQos_status_info (params : ParameterList) (rep_id : RepresentationIdentifier) : option StatusInfo :=
  ctx ← pl_cdr_rep_id_to_speedy_d rep_id;
  match find_parameter params PID_STATUS_INFO with
  | Some p => read_from_buffer (StatusInfo_read ctx) (value p)
  | None => Some StatusInfo_empty
  end.

Definition GUID_read (e : Endianness) : reader GUID :=
  p ← GuidPrefix_read e; i ← EntityId_read e; mret (mkGUID p i).
Definition SampleIdentity_read (e : Endianness) : reader (GUID * SequenceNumber) :=
  g ← GUID_read e; sn ← SequenceNumber_read e; mret (g, sn).

Definition InlineQos_related_sample_identity (params : ParameterList) (rep_id : RepresentationIdentifier)
  : option (option (GUID * SequenceNumber)) :=
  e ← pl_cdr_rep_id_to_speedy_d rep_id;
  match find_parameter params PID_RELATED_SAMPLE_IDENTITY with
  | Some p => Some <$> read_from_buffer (SampleIdentity_read e) (value p)
  | None => Some None
  end.
End inline_qos.
