(* ===== verification/FragmentAssembler.v ===== *)
(** * Fragment assembly

    [src/rtps/fragment_assembler.rs]: a reader's buffers for the samples a
    writer sends in fragments.  The end-to-end statement joins the writer's side
    ([data_frag_msg] of the message builder) to the assembler. *)

From S2P Require Import Prelude BTree Wire SequenceNumbers Time Guid ParameterList Payload Submessages Headers MessageBuilder.

Record AssemblyBuffer := mkAB {
  buffer_bytes : bytes;
  fragment_count : Z;
  received_bitmap : list bool;
  created_time : Timestamp;
  modified_time : Timestamp;
}.

(** The clock reading is an argument. *)
Definition AssemblyBuffer_new (now : Timestamp) (datafrag : DataFrag) : outcome AssemblyBuffer :=
  _ ← rust_assert (fragment_size datafrag <=? data_size datafrag) "fragment_size <= data_size";
  _ ← rust_assert (0 <? fragment_size datafrag) "fragment_size > 0";
  let count := total_number_of_fragments datafrag in
  Ret (mkAB (replicate (Z.to_nat (data_size datafrag)) 0) count (replicate (Z.to_nat count) false) now now).

Definition insert_frags (now : Timestamp) (ab : AssemblyBuffer) (datafrag : DataFrag) (frag_size : Z)
  : outcome AssemblyBuffer :=
  let frags_in_submessage := fragments_in_submessage datafrag in
  let start_frag_from_0 := u64 (fragment_starting_num datafrag - 1) in
  let from_byte := u64 (start_frag_from_0 * frag_size) in
  let payload := df_serialized_payload datafrag in
  let buffer_len := Z.of_nat (length (buffer_bytes ab)) in
  let to_before_byte :=
    Z.min (u64 (from_byte + Z.min (u64 (frags_in_submessage * frag_size)) (Z.of_nat (length payload)))) buffer_len in
  let payload_size := u64 (to_before_byte - from_byte) in
  (* self.buffer_bytes[from..to].copy_from_slice(&payload[..payload_size]) *)
  dst ← slice (buffer_bytes ab) from_byte to_before_byte;
  src ← slice payload 0 payload_size;
  _ ← rust_assert (length dst =? length src)%nat "source slice length does not match destination slice length";
  let buffer := take (Z.to_nat from_byte) (buffer_bytes ab) ++ src ++ drop (Z.to_nat to_before_byte) (buffer_bytes ab) in
  bm ← outcome_fold (fun bm f => bitvec_set bm (u64 (start_frag_from_0 + f)) true) (received_bitmap ab)
         (seqZ 0 frags_in_submessage);
  Ret (mkAB buffer (fragment_count ab) bm (created_time ab) now).

Definition AssemblyBuffer_is_complete (ab : AssemblyBuffer) : bool := forallb id (received_bitmap ab).

Record FragmentAssembler := mkFA {
  fa_fragment_size : Z;
  assembly_buffers : gmap SequenceNumber AssemblyBuffer;
}.

Definition FragmentAssembler_new (fragment_size : Z) : FragmentAssembler := mkFA fragment_size ∅.

Definition new_datafrag (now : Timestamp) (fa : FragmentAssembler) (datafrag : DataFrag) (flags : Z)
  : outcome (option DDSData * FragmentAssembler) :=
  let writer_sn := df_writer_sn datafrag in
  let frag_size := fa_fragment_size fa in
  ab ← match assembly_buffers fa !! writer_sn with
       | Some ab => Ret ab
       | None => AssemblyBuffer_new now datafrag
       end;
  ab ← insert_frags now ab datafrag frag_size;
  if AssemblyBuffer_is_complete ab then
    let fa := mkFA frag_size (delete writer_sn (assembly_buffers fa)) in
    match SerializedPayload_from_bytes (buffer_bytes ab) with
    | None => Ret (None, fa)
    | Some serialized_data_or_key =>
        let dds_data := if contains flags DATAFRAG_Key
                        then DDisposeByKey NotAliveDisposed serialized_data_or_key
                        else DData serialized_data_or_key in
        Ret (Some dds_data, fa)
    end
  else Ret (None, mkFA frag_size (<[writer_sn := ab]> (assembly_buffers fa))).

Definition garbage_collect_before (fa : FragmentAssembler) (expire_before : Timestamp) : FragmentAssembler :=
  mkFA (fa_fragment_size fa) (filter (fun kv => kle expire_before (modified_time kv.2)) (assembly_buffers fa)).

Definition is_partially_received (fa : FragmentAssembler) (sn : SequenceNumber) : bool :=
  bool_decide (is_Some (assembly_buffers fa !! sn)).

Definition missing_frags_for (fa : FragmentAssembler) (seq : SequenceNumber) : list FragmentNumber :=
  match assembly_buffers fa !! seq with
  | None => []
  | Some ab =>
      (fun f => FragmentNumber_new (f + 1)) <$>
      filter (fun f => default true (received_bitmap ab !! Z.to_nat f) = false) (seqZ 0 (fragment_count ab))
  end.

(** ** One sample in fragments of equal size *)

(** What replacing the range [a..b] of a buffer by [p] does to each byte. *)
Lemma lookup_splice {A} (buf p : list A) a b i :
  (a + length p = b)%nat -> (b <= length buf)%nat ->
  (take a buf ++ p ++ drop b buf) !! i =
  if decide (a <= i < b)%nat then p !! (i - a)%nat else buf !! i.
Proof.
  intros Hp Hb. case_decide.
  - rewrite lookup_app_r by (rewrite length_take; lia). rewrite length_take, Nat.min_l by lia.
    by rewrite lookup_app_l by lia.
  - destruct (decide (i < a)%nat).
    + rewrite lookup_app_l by (rewrite length_take; lia). by rewrite lookup_take_lt by lia.
    + rewrite lookup_app_r by (rewrite length_take; lia). rewrite length_take, Nat.min_l by lia.
      rewrite lookup_app_r by lia. rewrite lookup_drop. f_equal. lia.
Qed.

Lemma length_splice {A} (buf p : list A) a b :
  (a + length p = b)%nat -> (b <= length buf)%nat ->
  length (take a buf ++ p ++ drop b buf) = length buf.
Proof. intros. rewrite !length_app, length_take, length_drop. lia. Qed.

Section fragments.
(** [d] in fragments of [fs] bytes. *)
Context (d : bytes) (fs : Z).
Context (Hfs : 1 <= fs < 2 ^ 16) (Hsize : fs <= Z.of_nat (length d) < 2 ^ 32).

Definition n_bytes : Z := Z.of_nat (length d).
Definition n_frags : Z := n_bytes / fs + (if 0 <? n_bytes mod fs then 1 else 0).

(** The bytes of fragment [k], counted from 1. *)
Definition frag_bytes (k : Z) : bytes :=
  take (Z.to_nat (Z.min (k * fs) n_bytes - (k - 1) * fs)) (drop (Z.to_nat ((k - 1) * fs)) d).

Lemma n_frags_bounds : 1 <= n_frags /\ (n_frags - 1) * fs < n_bytes <= n_frags * fs.
Proof.
  unfold n_frags, n_bytes. zcases; Z.to_euclidean_division_equations; nia.
Qed.

Lemma n_frags_u32 : n_frags < 2 ^ 32.
Proof. pose proof n_frags_bounds. unfold n_bytes in *. nia. Qed.

(** A buffer that holds the fragments in [R]: their bits are set and no other,
    and their bytes are in place. *)
Definition holds (R : gset Z) (ab : AssemblyBuffer) : Prop :=
  Z.of_nat (length (buffer_bytes ab)) = n_bytes /\
  fragment_count ab = n_frags /\
  Z.of_nat (length (received_bitmap ab)) = n_frags /\
  (forall k, 1 <= k <= n_frags -> received_bitmap ab !! Z.to_nat (k - 1) = Some (bool_decide (k ∈ R))) /\
  (forall i, (i < length d)%nat -> Z.of_nat i / fs + 1 ∈ R -> buffer_bytes ab !! i = d !! i).

Lemma frag_bytes_length k : 1 <= k <= n_frags ->
  Z.of_nat (length (frag_bytes k)) = Z.min (k * fs) n_bytes - (k - 1) * fs /\ (k - 1) * fs < n_bytes.
Proof.
  intros Hk. destruct n_frags_bounds as [_ Hn]. assert ((k - 1) * fs < n_bytes) as Hlt by nia.
  split; [|done]. unfold frag_bytes. rewrite length_take, length_drop. unfold n_bytes in *. nia.
Qed.

(** The fragment a writer sends for number [k]. *)
Definition is_frag (sn k : Z) (df : DataFrag) : Prop :=
  df_writer_sn df = sn /\ fragment_starting_num df = k /\ fragments_in_submessage df = 1 /\
  data_size df = n_bytes /\ fragment_size df = fs /\ df_serialized_payload df = frag_bytes k.

Lemma total_is_n_frags sn k df : is_frag sn k df -> total_number_of_fragments df = n_frags.
Proof.
  intros (_ & _ & _ & E1 & E2 & _). unfold total_number_of_fragments, FragmentNumber_new.
  rewrite E1, E2. destruct (Z.ltb_spec fs 1); [lia|]. apply wrap_u_id.
  fold n_frags. pose proof n_frags_bounds. pose proof n_frags_u32. unfold in_u. lia.
Qed.

Lemma AssemblyBuffer_new_holds now sn k df :
  is_frag sn k df -> exists ab, AssemblyBuffer_new now df = Ret ab /\ holds ∅ ab.
Proof.
  intros Hd. pose proof (total_is_n_frags _ _ _ Hd) as Ht. destruct Hd as (_ & _ & _ & E1 & E2 & _).
  unfold AssemblyBuffer_new. rewrite E1, E2, Ht.
  destruct (Z.leb_spec fs n_bytes); [|unfold n_bytes in *; lia]. destruct (Z.ltb_spec 0 fs); [|lia].
  simpl. eexists; split; [done|]. pose proof n_frags_bounds. unfold holds; simpl.
  split_and!; rewrite ?length_replicate; try (unfold n_bytes in *; lia).
  - intros k' Hk'. rewrite lookup_replicate_2 by lia. rewrite bool_decide_eq_false_2; [done|set_solver].
  - set_solver.
Qed.

Lemma frag_bytes_lookup k i : 1 <= k <= n_frags -> (k - 1) * fs <= Z.of_nat i < Z.min (k * fs) n_bytes ->
  frag_bytes k !! (i - Z.to_nat ((k - 1) * fs))%nat = d !! i.
Proof.
  intros Hk Hi. unfold frag_bytes. rewrite lookup_take_lt by nia. rewrite lookup_drop. f_equal. nia.
Qed.

Lemma insert_frags_holds now R ab sn k df :
  holds R ab -> is_frag sn k df -> 1 <= k <= n_frags ->
  exists ab', insert_frags now ab df fs = Ret ab' /\ holds ({[k]} ∪ R) ab'.
Proof.
  intros (Hlen & Hcnt & Hbml & Hbm & Hbuf) (Esn & Ek & En & Esz & Efs & Ep) Hk.
  destruct (frag_bytes_length k Hk) as [Hfl Hlt]. pose proof n_frags_u32 as Hn32.
  pose proof (frag_bytes_lookup k) as Hfb.
  assert (n_bytes < 2 ^ 32) as Hnb by (unfold n_bytes; lia).
  assert (forall i, Z.of_nat i / fs + 1 = k -> (i < length d)%nat ->
            (k - 1) * fs <= Z.of_nat i < Z.min (k * fs) n_bytes) as Hrange.
  { intros i <- Hi. unfold n_bytes. Z.to_euclidean_division_equations. nia. }
  assert (0 <= (k - 1) * fs /\ (k - 1) * fs <= Z.min (k * fs) n_bytes) as Ha by nia.
  assert (Z.min (k * fs) n_bytes - (k - 1) * fs <= fs) as Hd by nia.
  unfold insert_frags. rewrite Ek, En, Ep.
  rewrite (wrap_u_id 64 (k - 1)) by (unfold in_u; lia).
  revert Hfl Hlt Hfb Hrange Ha Hd. generalize (Z.min (k * fs) n_bytes) (Z.le_min_r (k * fs) n_bytes)
    ((k - 1) * fs) (frag_bytes k).
  intros t Ht a p Hfl Hlt Hfb Hrange Ha Hd.
  rewrite (wrap_u_id 64 a), (wrap_u_id 64 (1 * fs)) by (unfold in_u; lia).
  rewrite (Z.min_r (1 * fs)) by lia.
  rewrite (wrap_u_id 64 (a + _)) by (unfold in_u; lia).
  replace (Z.min (a + Z.of_nat (length p)) (Z.of_nat (length (buffer_bytes ab)))) with t by lia.
  rewrite (wrap_u_id 64 (t - a)) by (unfold in_u; lia).
  rewrite !slice_Ret by lia. simpl.
  rewrite drop_0, Z.sub_0_r, (take_ge p) by lia. rewrite length_take, length_drop.
  rewrite Nat.min_l by lia. replace (Z.to_nat (t - a)) with (length p) by lia. rewrite Nat.eqb_refl. simpl.
  rewrite Z.add_0_r, (wrap_u_id 64 (k - 1)) by (unfold in_u; lia).
  unfold bitvec_set. destruct (Z.leb_spec 0 (k - 1)); [|lia].
  destruct (Z.ltb_spec (k - 1) (Z.of_nat (length (received_bitmap ab)))); [|lia]. simpl.
  eexists; split; [done|]. unfold holds; simpl. rewrite length_splice, length_insert by lia.
  split_and!; try done.
  - intros k' Hk'. destruct (decide (k' = k)) as [->|].
    + rewrite list_lookup_insert_eq by lia. f_equal. symmetry. apply bool_decide_eq_true. set_solver.
    + rewrite list_lookup_insert_ne by lia. rewrite Hbm by done. f_equal. apply bool_decide_ext. set_solver.
  - intros i Hi Hin. rewrite lookup_splice by lia. case_decide as Hc; [apply Hfb; lia|].
    apply Hbuf; [done|]. apply elem_of_union in Hin as [E%elem_of_singleton|?]; [|done].
    specialize (Hrange i E Hi). lia.
Qed.

Lemma holds_complete R ab :
  holds R ab -> AssemblyBuffer_is_complete ab = true <-> forall k, 1 <= k <= n_frags -> k ∈ R.
Proof.
  intros (_ & _ & Hbml & Hbm & _). unfold AssemblyBuffer_is_complete. rewrite forallb_forall.
  setoid_rewrite <- list_elem_of_In. split.
  - intros H k Hk. specialize (Hbm k Hk). apply list_elem_of_lookup_2 in Hbm as Hin.
    apply H in Hin. by apply bool_decide_eq_true in Hin.
  - intros H b [i Hi]%list_elem_of_lookup. pose proof (lookup_lt_Some _ _ _ Hi).
    specialize (Hbm (Z.of_nat i + 1) ltac:(lia)). replace (Z.to_nat (Z.of_nat i + 1 - 1)) with i in Hbm by lia.
    rewrite Hi in Hbm. injection Hbm as ->. apply bool_decide_eq_true, H. lia.
Qed.

Lemma holds_all_bytes R ab : holds R ab -> (forall k, 1 <= k <= n_frags -> k ∈ R) -> buffer_bytes ab = d.
Proof.
  intros (Hlen & _ & _ & _ & Hbuf) HR. apply list_eq_same_length with (length d); [done|unfold n_bytes in *; lia|].
  intros i x y Hi Hx Hy. rewrite Hbuf in Hx; [congruence|done|].
  apply HR. destruct n_frags_bounds as [_ Hn]. unfold n_bytes in *.
  Z.to_euclidean_division_equations. nia.
Qed.

(** *** The assembler on the fragments of one sample *)

(** The fragments in [R] of sample [sn] have arrived, and not all of them. *)
Definition in_progress (sn : SequenceNumber) (R : gset Z) (fa : FragmentAssembler) : Prop :=
  fa_fragment_size fa = fs /\
  match assembly_buffers fa !! sn with
  | Some ab => holds R ab
  | None => R = ∅
  end.

Definition all_of (R : gset Z) : Prop := forall k, 1 <= k <= n_frags -> k ∈ R.

Lemma in_progress_buffer now sn R fa k df :
  in_progress sn R fa -> is_frag sn k df ->
  exists ab, match assembly_buffers fa !! sn with
             | Some ab => Ret ab | None => AssemblyBuffer_new now df end = Ret ab /\ holds R ab.
Proof.
  intros [_ Hp] Hd. destruct (assembly_buffers fa !! sn) as [ab|]; [by eauto|].
  subst R. by apply (AssemblyBuffer_new_holds now sn k).
Qed.

Lemma new_datafrag_step now sn R fa k df flags :
  in_progress sn R fa -> is_frag sn k df -> 1 <= k <= n_frags ->
  (~ all_of ({[k]} ∪ R) /\ exists ab,
     new_datafrag now fa df flags = Ret (None, mkFA fs (<[sn := ab]> (assembly_buffers fa))) /\
     holds ({[k]} ∪ R) ab) \/
  (all_of ({[k]} ∪ R) /\
     new_datafrag now fa df flags = Ret
       ((fun p => if contains flags DATAFRAG_Key then DDisposeByKey NotAliveDisposed p else DData p)
          <$> SerializedPayload_from_bytes d, mkFA fs (delete sn (assembly_buffers fa)))).
Proof.
  intros Hp Hd Hk. destruct (in_progress_buffer now sn R fa k df Hp Hd) as (ab & Eab & Hab).
  destruct (insert_frags_holds now R ab sn k df Hab Hd Hk) as (ab' & Eab' & Hab').
  pose proof (holds_complete _ _ Hab') as Hc. unfold new_datafrag. destruct Hp as [-> _].
  assert (df_writer_sn df = sn) as -> by apply Hd. rewrite Eab. simpl. rewrite Eab'. simpl.
  destruct (AssemblyBuffer_is_complete ab').
  - right. assert (all_of ({[k]} ∪ R)) as Hall by exact (proj1 Hc eq_refl). split; [done|].
    rewrite (holds_all_bytes _ _ Hab' Hall). by destruct (SerializedPayload_from_bytes d).
  - left. split; [intros H; discriminate (proj2 Hc H)|]. by eexists.
Qed.

Lemma missing_frags_holds fa sn R ab :
  assembly_buffers fa !! sn = Some ab -> holds R ab ->
  missing_frags_for fa sn = filter (fun k => k ∉ R) (seqZ 1 n_frags).
Proof.
  intros E (_ & Hc & _ & Hbm & _). unfold missing_frags_for, FragmentNumber_new. rewrite E, Hc.
  replace (seqZ 1 n_frags) with ((fun f => f + 1) <$> seqZ 0 n_frags) 
    by (rewrite <- (fmap_add_seqZ 1 0); apply list_fmap_ext; intros; lia).
  assert (Forall (fun f => 0 <= f < n_frags) (seqZ 0 n_frags)) as Hf by (apply Forall_seqZ; lia).
  induction Hf as [|f l Hf _ IH]; csimpl; [done|]. rewrite !filter_cons.
  specialize (Hbm (f + 1) ltac:(lia)). replace (f + 1 - 1) with f in Hbm by lia. rewrite Hbm. simpl.
  destruct (decide (f + 1 ∈ R)).
  - rewrite bool_decide_eq_true_2 by done. rewrite decide_False, decide_False by (done || tauto). done.
  - rewrite bool_decide_eq_false_2 by done. rewrite decide_True, decide_True by done. csimpl. by rewrite IH.
Qed.
End fragments.

(** ** From the writer to the assembler *)

Section delivery.
Context `{SP : Speedy}.
Context (cc : CacheChange) (rid : EntityId) (wguid : GUID) (fs : Z) (e : Endianness) (now : Timestamp).

Definition sample_size : Z := DDSData_payload_size (cc_data_value cc).
Definition sample_bytes : bytes := DDSData_bytes (cc_data_value cc).

(** Build the fragments [ks] of the change and hand them to the assembler. *)
Fixpoint deliver (fa : FragmentAssembler) (ks : list Z) : outcome (list (option DDSData) * FragmentAssembler) :=
  match ks with
  | [] => Ret ([], fa)
  | k :: ks =>
      df ← data_frag_of cc rid wguid k fs sample_size e;
      match df with
      | None => Panic "no fragments of a dispose by key hash"
      | Some (df, flags) =>
          r ← new_datafrag now fa df flags;
          rs ← deliver r.2 ks;
          Ret (r.1 :: rs.1, rs.2)
      end
  end.

(** What the reader gets: the same sample; a key comes back as a disposal. *)
Definition received (d : DDSData) : DDSData :=
  match d with DDisposeByKey _ key => DDisposeByKey NotAliveDisposed key | d => d end.

Context (Hkind : forall k h, cc_data_value cc <> DDisposeByKeyHash k h).
Context (Hfs : 1 <= fs < 2 ^ 16) (Hsize : fs <= sample_size < 2 ^ 32).

Lemma sample_bytes_length : Z.of_nat (length sample_bytes) = sample_size.
Proof.
  unfold sample_bytes, sample_size. symmetry. apply DDSData_payload_size_length.
  intros k h E. by destruct (Hkind k h).
Qed.

Lemma Hsize_bytes : fs <= Z.of_nat (length sample_bytes) < 2 ^ 32.
Proof. by rewrite sample_bytes_length. Qed.

Lemma n_bytes_sample : n_bytes sample_bytes = sample_size.
Proof. apply sample_bytes_length. Qed.

Lemma data_frag_of_is_frag k : 1 <= k <= n_frags sample_bytes fs ->
  exists df flags, data_frag_of cc rid wguid k fs sample_size e = Ret (Some (df, flags)) /\
    is_frag sample_bytes fs (cc_sequence_number cc) k df /\
    (contains flags DATAFRAG_Key = true <-> exists c p, cc_data_value cc = DDisposeByKey c p).
Proof.
  intros Hk. pose proof (n_frags_u32 _ _ Hfs Hsize_bytes).
  destruct (frag_bytes_length _ _ Hfs Hsize_bytes k Hk) as [_ Hlt]. rewrite n_bytes_sample in Hlt.
  assert (DDSData_bytes_slice (cc_data_value cc) (u64 (u64 (k - 1) * fs)) (Z.min (u64 (k * fs)) sample_size)
          = Ret (frag_bytes sample_bytes fs k)) as Hsl.
  { rewrite !(wrap_u_id 64) by (rewrite ?(wrap_u_id 64) by (unfold in_u; nia); unfold in_u; nia).
    rewrite DDSData_bytes_slice_spec by nia. fold sample_bytes. rewrite sample_bytes_length.
    rewrite <- Z.min_assoc, Z.min_id, (Z.min_l ((k - 1) * fs)) by nia.
    rewrite slice_Ret by (rewrite ?sample_bytes_length; nia). unfold frag_bytes. by rewrite n_bytes_sample. }
  pose proof (eq_sym n_bytes_sample) as Hnb. clear Hlt.
  unfold data_frag_of. rewrite Hsl. destruct (cc_data_value cc) as [p|c p|c h] eqn:E; [| |by destruct (Hkind c h)].
  - simpl. do 2 eexists. split; [done|]. split; [split_and!; done|].
    split; [|by intros (? & ? & ?)]. destruct e, (ParameterList_is_empty _); done.
  - simpl. do 2 eexists. split; [done|]. split; [split_and!; done|].
    split; [by eauto|]. intros _. destruct e, (ParameterList_is_empty _); done.
Qed.

Lemma received_bytes flags :
  (contains flags DATAFRAG_Key = true <-> exists c p, cc_data_value cc = DDisposeByKey c p) ->
  (fun p => if contains flags DATAFRAG_Key then DDisposeByKey NotAliveDisposed p else DData p)
    <$> SerializedPayload_from_bytes sample_bytes = Some (received (cc_data_value cc)).
Proof.
  intros Hf. unfold sample_bytes. destruct (cc_data_value cc) as [p|c p|c h]; [| |by destruct (Hkind c h)];
    simpl; rewrite SerializedPayload_from_bytes_write; simpl; destruct (contains flags DATAFRAG_Key); try done.
  - by destruct (proj1 Hf eq_refl) as (? & ? & ?).
  - assert (false = true) by (apply Hf; eauto). done.
Qed.

Lemma deliver_incomplete fa R ks :
  in_progress sample_bytes fs (cc_sequence_number cc) R fa ->
  (forall k, k ∈ ks -> 1 <= k <= n_frags sample_bytes fs) ->
  ~ all_of sample_bytes fs (list_to_set ks ∪ R) ->
  exists fa', deliver fa ks = Ret (replicate (length ks) None, fa') /\
    in_progress sample_bytes fs (cc_sequence_number cc) (list_to_set ks ∪ R) fa' /\
    delete (cc_sequence_number cc) (assembly_buffers fa') = delete (cc_sequence_number cc) (assembly_buffers fa).
Proof.
  revert fa R. induction ks as [|k ks IH]; intros fa R Hp Hks Hn; simpl.
  { exists fa. rewrite union_empty_l_L. done. }
  assert (list_to_set ks ∪ ({[k]} ∪ R) = {[k]} ∪ list_to_set ks ∪ R :> gset Z) as ER by set_solver.
  destruct (data_frag_of_is_frag k) as (df & flags & -> & Hdf & _); [apply Hks; set_solver|]. simpl.
  destruct (new_datafrag_step _ _ Hfs Hsize_bytes now _ R fa k df flags Hp Hdf) as [(_ & ab & -> & Hab)|(Hall & _)];
    [apply Hks; set_solver| |].
  - simpl. destruct (IH (mkFA fs (<[cc_sequence_number cc := ab]> (assembly_buffers fa))) ({[k]} ∪ R))
      as (fa' & -> & Hp' & Hd').
    + split; [done|]. simpl. by rewrite lookup_insert_eq.
    + intros; apply Hks; set_solver.
    + by rewrite ER.
    + simpl. exists fa'. split; [done|]. rewrite ER in Hp'. split; [done|]. rewrite Hd'. simpl. by rewrite delete_insert_eq.
  - destruct Hn. intros j Hj. specialize (Hall j Hj). set_solver.
Qed.
End delivery.

(** C15: a sample sent in fragments (not a disposal by key hash, which has no
    payload; at least one fragment long and shorter than 2^32 bytes) is
    reassembled, whatever the order the fragments arrive in and however often each
    arrives. As long as any fragment is missing, the fragments [pre] delivered so
    far have yielded nothing, and the assembler reports as missing exactly the
    fragments that are not in [pre], in order. When only [k] is missing, its
    arrival yields the sample, and the assembler is then as before, with no trace
    of the sample. The sample is the one sent, except that a disposal by key
    arrives with the kind [NotAliveDisposed] whatever its kind was. *)
Theorem fragments_reassemble `{SP : Speedy} cc rid wguid fs e now fa pre :
  let sn := cc_sequence_number cc in
  let n := n_frags (DDSData_bytes (cc_data_value cc)) fs in
  (forall c h, cc_data_value cc <> DDisposeByKeyHash c h) ->
  1 <= fs < 2 ^ 16 -> fs <= DDSData_payload_size (cc_data_value cc) < 2 ^ 32 ->
  fa_fragment_size fa = fs -> assembly_buffers fa !! sn = None ->
  (forall j, j ∈ pre -> 1 <= j <= n) -> (exists j, 1 <= j <= n /\ j ∉ pre) ->
  exists fa', deliver cc rid wguid fs e now fa pre = Ret (replicate (length pre) None, fa') /\
    (pre <> [] -> is_partially_received fa' sn = true /\
       missing_frags_for fa' sn = filter (fun j => j ∉ pre) (seqZ 1 n)) /\
    (forall k, 1 <= k <= n -> k ∉ pre -> (forall j, 1 <= j <= n -> j = k \/ j ∈ pre) ->
       deliver cc rid wguid fs e now fa' [k] =
         Ret ([Some match cc_data_value cc with
                    | DDisposeByKey _ key => DDisposeByKey NotAliveDisposed key
                    | other => other
                    end], fa)).
Proof.
  intros sn n Hkind Hfs Hsize Hffs Hnone Hpre (j0 & Hj0 & Hnj0).
  destruct (deliver_incomplete cc rid wguid fs e now Hkind Hfs Hsize fa ∅ pre) as (fa' & Hdel & Hp & Hdelete).
  { split; [done|]. fold sn. by rewrite Hnone. }
  { done. }
  { intros H. specialize (H j0 Hj0). set_solver. }
  exists fa'. split; [done|]. split.
  - intros Hne. destruct Hp as [_ Hp]. fold sn in Hp. unfold is_partially_received.
    destruct (assembly_buffers fa' !! sn) as [ab|] eqn:Eab.
    2: { destruct pre; [done|]. set_solver. }
    split; [done|]. erewrite missing_frags_holds by (exact Eab || exact Hp || eauto using Hsize_bytes).
    apply list_filter_iff. set_solver.
  - intros k Hk Hkn Hall. simpl.
    destruct (data_frag_of_is_frag cc rid wguid fs e Hkind Hfs Hsize k Hk) as (df & flags & -> & Hdf & Hfl).
    simpl. destruct (new_datafrag_step _ _ Hfs (Hsize_bytes cc fs Hkind Hsize) now _ _ fa' k df flags Hp Hdf Hk)
      as [[Hn _]|[_ ->]].
    { destruct Hn. intros j Hj. destruct (Hall j Hj); set_solver. }
    simpl. fold (sample_bytes cc). rewrite (received_bytes cc Hkind flags Hfl).
    fold sn in Hdelete |- *. rewrite Hdelete, delete_id by done. destruct fa as [? ?]; simpl in Hffs; subst. by destruct (cc_data_value cc).
Qed.

Definition demo_change : CacheChange :=
  mkCacheChange GUID_UNKNOWN 3 (mkWriteOptions None None None)
    (DData (SerializedPayload_new_from_bytes (mkRepId (0, 1)) [10; 11; 12; 13; 14; 15])).

Lemma fragments_reassemble_witness :
  exists fa', deliver demo_change EntityId_UNKNOWN GUID_UNKNOWN 4 LittleEndian Timestamp_ZERO
                (FragmentAssembler_new 4) [3; 1; 3] = Ret (replicate 3 None, fa') /\
    missing_frags_for fa' 3 = [2] /\
    deliver demo_change EntityId_UNKNOWN GUID_UNKNOWN 4 LittleEndian Timestamp_ZERO fa' [2]
    = Ret ([Some (cc_data_value demo_change)], FragmentAssembler_new 4).
Proof.
  destruct (fragments_reassemble demo_change EntityId_UNKNOWN GUID_UNKNOWN 4 LittleEndian Timestamp_ZERO
    (FragmentAssembler_new 4) [3; 1; 3]) as (fa' & H1 & H2 & H3).
  - discriminate.
  - lia.
  - vm_compute. split; [discriminate|reflexivity].
  - reflexivity.
  - reflexivity.
  - intros j Hj. assert (j = 3 \/ j = 1) as Hc by set_solver. change (n_frags _ _) with 3. lia.
  - change (n_frags _ _) with 3. exists 2. split; [lia|set_solver].
  - exists fa'. split; [exact H1|]. split; [apply H2; discriminate|].
    apply H3; change (n_frags _ _) with 3; [lia|set_solver|].
    intros j Hj. assert (j = 1 \/ j = 2 \/ j = 3) as Hc by lia. set_solver.
Defined.

(** ** Fragment counts are not checked *)

Lemma bitvec_set_range_panics bm s m :
  0 <= s <= Z.of_nat (length bm) -> s + Z.of_nat m > Z.of_nat (length bm) -> s + Z.of_nat m < 2 ^ 64 ->
  outcome_fold (fun bm f => bitvec_set bm (u64 (s + f)) true) bm (seqZ 0 (Z.of_nat m)) = Panic "index out of bounds".
Proof.
  intros Hs Hm Hb. enough (forall o, (o <= m)%nat -> s + Z.of_nat o <= Z.of_nat (length bm) ->
    outcome_fold (fun bm f => bitvec_set bm (u64 (s + f)) true) bm (seqZ (Z.of_nat o) (Z.of_nat (m - o)))
    = Panic "index out of bounds") as H by (specialize (H 0%nat); rewrite Nat.sub_0_r in H; apply H; lia).
  intros o. remember (m - o)%nat as j eqn:Ej. revert o Ej bm Hs Hm.
  induction j as [|j IH]; intros o Ej bm Hs Hm Ho Hle; [lia|].
  rewrite seqZ_cons by lia. cbn [outcome_fold].
  assert (0 <= s + Z.of_nat o < 2 ^ 64) as Hr by lia. rewrite (wrap_u_id 64 (s + Z.of_nat o) Hr).
  destruct (decide (s + Z.of_nat o < Z.of_nat (length bm))); [|by rewrite bitvec_set_out by lia].
  rewrite bitvec_set_in by lia. cbn [mbind outcome_bind].
  replace (Z.succ (Z.of_nat o)) with (Z.of_nat (S o)) by lia.
  replace (Z.pred (Z.of_nat (S j))) with (Z.of_nat j) by lia.
  apply IH; rewrite ?length_insert; lia.
Qed.

(** A DATAFRAG that passes every check of the deserializer but announces
    more fragments than the sample has panics the assembler of the reader that
    receives it. *)
Theorem fragment_count_overrun_panics now df flags :
  DataFrag_ok df -> DataFrag_valid df ->
  total_number_of_fragments df < fragment_starting_num df + fragments_in_submessage df - 1 ->
  new_datafrag now (FragmentAssembler_new (fragment_size df)) df flags = Panic "index out of bounds".
Proof.
  intros (_ & _ & _ & Hst & Hnf & Hfs & Hsz) (_ & Hv & Hn) Hover. unfold in_u in *.
  assert (total_number_of_fragments df =
          data_size df / fragment_size df + (if 0 <? data_size df mod fragment_size df then 1 else 0)) as Ht.
  { unfold total_number_of_fragments, FragmentNumber_new. destruct (Z.ltb_spec (fragment_size df) 1); [lia|].
    apply wrap_u_id. unfold in_u. zcases; Z.to_euclidean_division_equations; nia. }
  assert ((total_number_of_fragments df - 1) * fragment_size df < data_size df) as Hlast
    by (rewrite Ht; zcases; Z.to_euclidean_division_equations; nia).
  set (from := (fragment_starting_num df - 1) * fragment_size df).
  assert (0 <= from < data_size df) as Hfrom by (unfold from; nia).
  unfold new_datafrag, FragmentAssembler_new; simpl. rewrite lookup_empty. unfold AssemblyBuffer_new.
  destruct (Z.leb_spec (fragment_size df) (data_size df)); [|lia].
  destruct (Z.ltb_spec 0 (fragment_size df)); [|lia]. simpl. unfold insert_frags; simpl.
  rewrite (wrap_u_id 64 (fragment_starting_num df - 1)) by (unfold in_u; lia). fold from.
  rewrite (wrap_u_id 64 from) by (unfold in_u; lia). rewrite length_replicate, Z2Nat.id by lia.
  assert (0 <= u64 (fragments_in_submessage df * fragment_size df) < 2 ^ 64) as Hm by (apply wrap_u_range; lia).
  rewrite (wrap_u_id 64 (fragments_in_submessage df * fragment_size df)) by (unfold in_u; nia).
  set (len := Z.min (fragments_in_submessage df * fragment_size df) _).
  assert (0 <= len <= Z.of_nat (length (df_serialized_payload df)) /\ len < 2 ^ 33) as Hlen by (unfold len; nia).
  rewrite (wrap_u_id 64 (from + len)) by (unfold in_u; lia).
  set (to := Z.min (from + len) (data_size df)). assert (from <= to <= data_size df /\ to - from <= len) as Hto by lia.
  rewrite (wrap_u_id 64 (to - from)) by (unfold in_u; lia).
  rewrite !slice_Ret by (rewrite ?length_replicate; lia). simpl.
  rewrite !length_take, !length_drop, length_replicate.
  rewrite !Nat.min_l by lia. replace (Z.to_nat (to - from - 0)) with (Z.to_nat (to - from)) by lia.
  rewrite Nat.eqb_refl. simpl.
  rewrite <- (Z2Nat.id (fragments_in_submessage df)) by lia.
  rewrite bitvec_set_range_panics; rewrite ?length_replicate; (done || lia).
Qed.

Definition overrun_frag : DataFrag :=
  mkDataFrag EntityId_UNKNOWN EntityId_UNKNOWN 1 1 2 4 4 None [0; 1; 0; 0].

Lemma fragment_count_overrun_panics_witness :
  new_datafrag Timestamp_ZERO (FragmentAssembler_new 4) overrun_frag 1 = Panic "index out of bounds".
Proof.
  apply (fragment_count_overrun_panics Timestamp_ZERO overrun_frag 1).
  - split_and!; simpl; try bounds_lia; cbv; repeat split; discriminate.
  - split_and!; vm_compute; discriminate.
  - vm_compute. reflexivity.
Defined.
