(* ===== verification/DdsCache.v ===== *)
(** * The cache of received changes

    [src/structure/dds_cache.rs]: per topic, the received changes ordered by
    receive time stamp, the index from writer and sequence number to time stamp,
    the marker below which a writer's changes may be handed to a reliable
    reader, and garbage collection within the limits of the QoS.  Reallocating
    the bytes of a change does not alter it and is the identity here. *)

From S2P Require Import Prelude BTree Wire SequenceNumbers Time Guid Qos Payload.

Record TopicCache := mkTC {
  topic_name : string;
  topic_data_type : string;
  topic_qos : QosPolicies;
  min_keep_samples : History;
  max_keep_samples : Z;
  tc_changes : gmap Timestamp CacheChange;
  changes_reallocated_up_to : Timestamp;
  sequence_numbers : gmap GUID (gmap SequenceNumber Timestamp);
  received_reliably_before : gmap GUID SequenceNumber;
}.

(** The parts an operation may change. *)
Definition tc_set_contents (tc : TopicCache) (c : gmap Timestamp CacheChange)
    (i : gmap GUID (gmap SequenceNumber Timestamp)) : TopicCache :=
  mkTC (topic_name tc) (topic_data_type tc) (topic_qos tc) (min_keep_samples tc) (max_keep_samples tc)
    c (changes_reallocated_up_to tc) i (received_reliably_before tc).

(** [std::cmp::max]: the second argument when they compare equal. *)
Definition History_max (a b : History) : History := match History_cmp a b with Gt => a | _ => b end.

Definition update_keep_limits (tc : TopicCache) (qos : QosPolicies) : TopicCache :=
  let min_keep := default (KeepLast 1) (history qos) in
  let max_keep := max_samples (default (mkResourceLimits 64 64 64) (resource_limits qos)) in
  let max_keep := match min_keep with
                  | KeepLast n => if max_keep <? n then n else max_keep
                  | KeepAll => max_keep
                  end in
  mkTC (topic_name tc) (topic_data_type tc) (topic_qos tc)
    (History_max min_keep (min_keep_samples tc)) (Z.max max_keep (max_keep_samples tc))
    (tc_changes tc) (changes_reallocated_up_to tc) (sequence_numbers tc) (received_reliably_before tc).

Definition TopicCache_new (name data_type : string) (qos : QosPolicies) : TopicCache :=
  update_keep_limits (mkTC name data_type qos (KeepLast 1) 1 ∅ Timestamp_ZERO ∅ ∅) qos.

Definition mark_reliably_received_before (tc : TopicCache) (writer : GUID) (sn : SequenceNumber)
  : bool * TopicCache :=
  let prev_sn := received_reliably_before tc !! writer in
  (default (SequenceNumber_new 1) prev_sn <? sn,
   mkTC (topic_name tc) (topic_data_type tc) (topic_qos tc) (min_keep_samples tc) (max_keep_samples tc)
     (tc_changes tc) (changes_reallocated_up_to tc) (sequence_numbers tc)
     (<[writer := sn]> (received_reliably_before tc))).

Definition get_change (tc : TopicCache) (instant : Timestamp) : option CacheChange := tc_changes tc !! instant.

Definition find_by_sn (tc : TopicCache) (cc : CacheChange) : option Timestamp :=
  snm ← sequence_numbers tc !! cc_writer_guid cc; snm !! cc_sequence_number cc.

Definition insert_sn (i : gmap GUID (gmap SequenceNumber Timestamp)) (instant : Timestamp) (cc : CacheChange)
  : gmap GUID (gmap SequenceNumber Timestamp) :=
  <[cc_writer_guid cc := <[cc_sequence_number cc := instant]> (default ∅ (i !! cc_writer_guid cc))]> i.

Definition remove_sn (i : gmap GUID (gmap SequenceNumber Timestamp)) (cc : CacheChange)
  : gmap GUID (gmap SequenceNumber Timestamp) :=
  match i !! cc_writer_guid cc with
  | None => i
  | Some s =>
      let s := delete (cc_sequence_number cc) s in
      if decide (s = ∅) then delete (cc_writer_guid cc) i else <[cc_writer_guid cc := s]> i
  end.

(** [as usize] of a signed 32-bit number, and [usize::saturating_sub]. *)
Definition as_usize (n : Z) : Z := u64 n.
Definition saturating_sub (a b : Z) : Z := Z.max 0 (a - b).

(** [skip_while] over the enumerated keys: those to be removed from the front. *)
Fixpoint skip_removed (i must may : Z) (remove_before : Timestamp) (keys : list Timestamp) : list Timestamp :=
  match keys with
  | [] => []
  | ts :: keys' =>
      if (i <? must) || (bool_decide (klt ts remove_before) && (i <? may))
      then skip_removed (i + 1) must may remove_before keys'
      else keys
  end.

Definition must_remove_count (tc : TopicCache) : Z :=
  saturating_sub (Z.of_nat (size (tc_changes tc))) (as_usize (max_keep_samples tc)).
Definition may_remove_count (tc : TopicCache) : Z :=
  match min_keep_samples tc with
  | KeepAll => must_remove_count tc
  | KeepLast depth =>
      Z.max (saturating_sub (Z.of_nat (size (tc_changes tc))) (as_usize depth)) (must_remove_count tc)
  end.

Definition to_retain (tc : TopicCache) (remove_before : Timestamp) : gmap Timestamp CacheChange :=
  match head (skip_removed 0 (must_remove_count tc) (may_remove_count tc) remove_before (bt_keys (tc_changes tc))) with
  | Some split_key => bt_from split_key (tc_changes tc)
  | None => ∅
  end.
Definition to_remove (tc : TopicCache) (remove_before : Timestamp) : gmap Timestamp CacheChange :=
  match head (skip_removed 0 (must_remove_count tc) (may_remove_count tc) remove_before (bt_keys (tc_changes tc))) with
  | Some split_key => bt_before split_key (tc_changes tc)
  | None => tc_changes tc
  end.

(** [BTreeMap::range] with [(Excluded(a), Included(b))] panics when [a > b]. *)
Definition remove_changes_before (now : Timestamp) (tc : TopicCache) (remove_before : Timestamp)
  : outcome TopicCache :=
  let retain := to_retain tc remove_before in
  let removed := to_remove tc remove_before in
  let index := foldl remove_sn (sequence_numbers tc) (bt_values removed) in
  let reallocate_limit := Timestamp_sub_duration now (Duration_from_secs 5) in
  _ ← rust_assert (bool_decide (kle (changes_reallocated_up_to tc) reallocate_limit))
        "range start is greater than range end in BTreeMap";
  Ret (mkTC (topic_name tc) (topic_data_type tc) (topic_qos tc) (min_keep_samples tc) (max_keep_samples tc)
         retain reallocate_limit index (received_reliably_before tc)).

(** Also returns the change that was at [instant] before, if any. *)
Definition add_change_internal (now : Timestamp) (tc : TopicCache) (instant : Timestamp) (cc : CacheChange)
  : outcome (option CacheChange * TopicCache) :=
  let semi_random_number := u64 (cc_sequence_number cc) in
  tc ← (if semi_random_number mod 64 =? 0 then remove_changes_before now tc Timestamp_ZERO else Ret tc);
  match find_by_sn tc cc with
  | Some _ => Ret (None, tc)
  | None =>
      let index := insert_sn (sequence_numbers tc) instant cc in
      match tc_changes tc !! instant with
      | None => Ret (None, tc_set_contents tc (<[instant := cc]> (tc_changes tc)) index)
      | Some old_cc =>
          Ret (Some old_cc, tc_set_contents tc (<[instant := cc]> (tc_changes tc)) (remove_sn index old_cc))
      end
  end.

Definition add_change (now : Timestamp) (tc : TopicCache) (instant : Timestamp) (cc : CacheChange)
  : outcome TopicCache :=
  r ← add_change_internal now tc instant cc; Ret r.2.

(** [range((Excluded(start), Included(end)))]: panics on an inverted range. *)
Definition get_changes_in_range_best_effort (tc : TopicCache) (start_instant end_instant : Timestamp)
  : outcome (list (Timestamp * CacheChange)) :=
  _ ← rust_assert (bool_decide (kle start_instant end_instant)) "range start is greater than range end in BTreeMap";
  Ret (filter (fun p => klt start_instant p.1 /\ kle p.1 end_instant) (bt_iter (tc_changes tc))).

Definition reliable_before (tc : TopicCache) (writer : GUID) : SequenceNumber :=
  default SequenceNumber_default (received_reliably_before tc !! writer).

Definition reliable_range (tc : TopicCache) (last_read_sn : gmap GUID SequenceNumber)
    (e : GUID * gmap SequenceNumber Timestamp) : list Timestamp :=
  let '(guid, sn_map) := e in
  let lower_bound_exc := default SequenceNumber_zero (last_read_sn !! guid) in
  let upper_bound_exc := Z.max (reliable_before tc guid) (SequenceNumber_plus_1 lower_bound_exc) in
  (filter (fun p => lower_bound_exc < p.1 < upper_bound_exc) (bt_iter sn_map)).*2.

Definition get_changes_in_range_reliable (tc : TopicCache) (last_read_sn : gmap GUID SequenceNumber)
  : list (Timestamp * CacheChange) :=
  omap (fun t => (t,.) <$> get_change tc t)
    (concat (reliable_range tc last_read_sn <$> bt_iter (sequence_numbers tc))).

(** The handle to a topic cache is its name. *)
Record DDSCache := mkDDSCache { topic_caches : gmap string TopicCache }.

Definition DDSCache_new : DDSCache := mkDDSCache ∅.

Definition add_new_topic (c : DDSCache) (name data_type : string) (qos : QosPolicies) : DDSCache :=
  mkDDSCache (<[name := match topic_caches c !! name with
                        | Some tc => update_keep_limits tc qos
                        | None => TopicCache_new name data_type qos
                        end]> (topic_caches c)).

Definition get_existing_topic_cache (c : DDSCache) (name : string) : option TopicCache := topic_caches c !! name.
Definition remove_topic (c : DDSCache) (name : string) : DDSCache := mkDDSCache (delete name (topic_caches c)).

Definition garbage_collect_topic (now : Timestamp) (tc : TopicCache) : outcome TopicCache :=
  match bt_last (tc_changes tc) with
  | Some last_timestamp =>
      if bool_decide (klt (changes_reallocated_up_to tc) last_timestamp)
      then remove_changes_before now tc Timestamp_ZERO else Ret tc
  | None => Ret tc
  end.

Definition garbage_collect (now : Timestamp) (c : DDSCache) : outcome DDSCache :=
  l ← outcome_fold (fun acc e => tc ← garbage_collect_topic now e.2; Ret (<[e.1 := tc]> acc)) (topic_caches c)
        (map_to_list (topic_caches c));
  Ret (mkDDSCache l).

(** ** The index *)

Section index.
Implicit Types (i : gmap GUID (gmap SequenceNumber Timestamp)) (cc : CacheChange) (w : GUID) (sn : SequenceNumber).

Definition idx i w sn : option Timestamp := i !! w ≫= (.!! sn).
Definition cc_is cc w sn : Prop := cc_writer_guid cc = w /\ cc_sequence_number cc = sn.
Definition no_empty i : Prop := forall w s, i !! w = Some s -> s <> ∅.

#[export] Instance cc_is_dec cc w sn : Decision (cc_is cc w sn).
Proof. unfold cc_is. apply _. Defined.

Lemma idx_insert_sn i t cc w sn :
  idx (insert_sn i t cc) w sn = if decide (cc_is cc w sn) then Some t else idx i w sn.
Proof.
  unfold idx, insert_sn, cc_is. destruct (decide (cc_writer_guid cc = w)) as [<-|].
  - rewrite lookup_insert_eq. simpl. destruct (decide (cc_sequence_number cc = sn)) as [<-|].
    + rewrite lookup_insert_eq. by rewrite decide_True.
    + rewrite lookup_insert_ne by done. rewrite decide_False by tauto.
      by destruct (i !! cc_writer_guid cc).
  - rewrite lookup_insert_ne by done. by rewrite decide_False by tauto.
Qed.

Lemma idx_remove_sn i cc w sn :
  idx (remove_sn i cc) w sn = if decide (cc_is cc w sn) then None else idx i w sn.
Proof.
  unfold idx, remove_sn, cc_is. destruct (i !! cc_writer_guid cc) as [s|] eqn:E.
  2: { case_decide as H; [|done]. destruct H as [<- _]. by rewrite E. }
  destruct (decide (cc_writer_guid cc = w)) as [<-|].
  - assert (idx_s : delete (cc_sequence_number cc) s !! sn = if decide (cc_sequence_number cc = sn) then None else s !! sn).
    { case_decide as H; [subst; apply lookup_delete_eq|by apply lookup_delete_ne]. }
    rewrite E. destruct (decide (delete (cc_sequence_number cc) s = ∅)) as [He|He].
    + rewrite lookup_delete_eq. simpl. rewrite He, lookup_empty in idx_s.
      repeat case_decide; naive_solver.
    + rewrite lookup_insert_eq. simpl. rewrite idx_s. repeat case_decide; naive_solver.
  - rewrite (decide_False (P := _ /\ _)) by tauto.
    case_decide; [rewrite lookup_delete_ne by done|rewrite lookup_insert_ne by done]; done.
Qed.

Lemma idx_remove_all i l w sn :
  idx (foldl remove_sn i l) w sn = if decide (Exists (fun cc => cc_is cc w sn) l) then None else idx i w sn.
Proof.
  revert i. induction l as [|cc l IH]; intros i; simpl; [done|]. rewrite IH, idx_remove_sn.
  repeat case_decide; rewrite ?Exists_cons in *; naive_solver.
Qed.

Lemma no_empty_insert i t cc : no_empty i -> no_empty (insert_sn i t cc).
Proof.
  intros H w s. unfold insert_sn. rewrite lookup_insert_Some. intros [[_ <-]|[_ ?]]; [|by eapply H].
  apply insert_non_empty.
Qed.

Lemma no_empty_remove i cc : no_empty i -> no_empty (remove_sn i cc).
Proof.
  intros H w s. unfold remove_sn. destruct (i !! cc_writer_guid cc); [|by apply H]. case_decide.
  - rewrite lookup_delete_Some. intros [_ ?]. by eapply H.
  - rewrite lookup_insert_Some. intros [[_ <-]|[_ ?]]; [done|by eapply H].
Qed.

Lemma no_empty_remove_all i l : no_empty i -> no_empty (foldl remove_sn i l).
Proof. revert i. induction l as [|cc l IH]; intros i H; simpl; [done|]. by apply IH, no_empty_remove. Qed.
End index.

(** The index is exactly the changes that are there: it has a time stamp for a
    writer and sequence number if and only if the change of that writer with
    that number is stored under the time stamp. *)
Definition tc_inv (tc : TopicCache) : Prop :=
  (forall w sn t, idx (sequence_numbers tc) w sn = Some t <->
     exists cc, tc_changes tc !! t = Some cc /\ cc_is cc w sn) /\
  no_empty (sequence_numbers tc).

Lemma find_by_sn_idx tc cc : find_by_sn tc cc = idx (sequence_numbers tc) (cc_writer_guid cc) (cc_sequence_number cc).
Proof. reflexivity. Qed.

Lemma retain_remove_split tc rb :
  to_remove tc rb ∪ to_retain tc rb = tc_changes tc /\ to_remove tc rb ##ₘ to_retain tc rb.
Proof.
  unfold to_remove, to_retain. destruct (head _) as [k|].
  - split; [apply bt_split_union|]. apply map_disjoint_spec. intros t c1 c2.
    rewrite lookup_bt_before, lookup_bt_from. repeat case_decide; try done.
    rewrite klt_nle in *. tauto.
  - split; [apply map_union_empty|apply map_disjoint_empty_r].
Qed.

Lemma lookup_retain tc rb t cc :
  to_retain tc rb !! t = Some cc <-> tc_changes tc !! t = Some cc /\ to_remove tc rb !! t = None.
Proof.
  destruct (retain_remove_split tc rb) as [E D]. rewrite <- E, lookup_union_Some by done.
  rewrite map_disjoint_spec in D. split.
  - intros H. split; [by right|]. destruct (to_remove tc rb !! t) eqn:Er; [|done]. by destruct (D _ _ _ Er H).
  - intros [[?|?] ?]; congruence.
Qed.

Lemma lookup_removed tc rb t cc : to_remove tc rb !! t = Some cc -> tc_changes tc !! t = Some cc.
Proof.
  destruct (retain_remove_split tc rb) as [E D]. rewrite <- E. intros. apply lookup_union_Some; auto.
Qed.

Lemma remove_changes_before_inv now tc rb tc' :
  tc_inv tc -> remove_changes_before now tc rb = Ret tc' -> tc_inv tc'.
Proof.
  intros [Hi He]. unfold remove_changes_before. rewrite bind_Ret. intros ([] & _ & [= <-]).
  split; simpl; [|by apply no_empty_remove_all].
  intros w sn t. rewrite idx_remove_all. setoid_rewrite lookup_retain.
  assert (Exists (fun cc => cc_is cc w sn) (bt_values (to_remove tc rb)) <->
          exists t' cc', to_remove tc rb !! t' = Some cc' /\ cc_is cc' w sn) as Hex.
  { rewrite Exists_exists. setoid_rewrite elem_of_bt_values. naive_solver. }
  case_decide as Hd; rewrite Hex in Hd.
  - split; [done|]. intros (cc & [Hc Hn] & Hcc). destruct Hd as (t' & cc' & Ht' & Hcc').
    assert (idx (sequence_numbers tc) w sn = Some t) as E1 by (apply Hi; by eauto).
    assert (idx (sequence_numbers tc) w sn = Some t') as E2 by (apply Hi; eauto using lookup_removed).
    congruence.
  - rewrite Hi. split; [|naive_solver]. intros (cc & Hc & Hcc). exists cc. split; [|done]. split; [done|].
    destruct (to_remove tc rb !! t) as [cc'|] eqn:E; [|done]. pose proof (lookup_removed _ _ _ _ E).
    destruct Hd. exists t, cc'. split; [done|]. congruence.
Qed.

(** What [add_change] does when it does not first collect garbage. *)
Lemma insert_change_inv tc instant cc :
  tc_inv tc -> find_by_sn tc cc = None ->
  let index := insert_sn (sequence_numbers tc) instant cc in
  tc_inv (tc_set_contents tc (<[instant := cc]> (tc_changes tc))
            (match tc_changes tc !! instant with Some old => remove_sn index old | None => index end)).
Proof.
  intros [Hi He] Hf index. rewrite find_by_sn_idx in Hf. split; simpl.
  2: { destruct (tc_changes tc !! instant); [apply no_empty_remove|]; by apply no_empty_insert. }
  assert (forall old, tc_changes tc !! instant = Some old -> ~ (cc_is old (cc_writer_guid cc) (cc_sequence_number cc))) as Hold.
  { intros old Ho Hc. assert (idx (sequence_numbers tc) (cc_writer_guid cc) (cc_sequence_number cc) = Some instant)
      by (apply Hi; eauto). congruence. }
  intros w sn t. transitivity (if decide (t = instant) then cc_is cc w sn
                               else idx (sequence_numbers tc) w sn = Some t).
  - assert (idx index w sn = Some t <-> (cc_is cc w sn /\ t = instant) \/
              (~ cc_is cc w sn /\ idx (sequence_numbers tc) w sn = Some t)) as Hx.
    { unfold index. rewrite idx_insert_sn. repeat case_decide; naive_solver. }
    destruct (tc_changes tc !! instant) as [old|] eqn:Ho.
    + specialize (Hold old eq_refl). rewrite idx_remove_sn. case_decide as Hc.
      * split; [done|]. case_decide as Ht; [intros Hcc; destruct Hcc as [<- <-]; tauto|].
        intros Hs. assert (idx (sequence_numbers tc) w sn = Some instant) by (apply Hi; eauto). congruence.
      * rewrite Hx. case_decide as Ht; [subst; split|split].
        -- intros [[? _]|[_ Hs]]; [done|]. apply Hi in Hs as (cc' & E & Hc'). rewrite Ho in E. by injection E as <-.
        -- by left.
        -- intros [[_ ?]|[_ ?]]; done.
        -- intros Hs. right. split; [|done]. intros [<- <-]. congruence.
    + rewrite Hx. case_decide as Ht; [subst; split|split].
      * intros [[? _]|[_ Hs]]; [done|]. apply Hi in Hs as (cc' & E & Hc'). congruence.
      * by left.
      * intros [[_ ?]|[_ ?]]; done.
      * intros Hs. right. split; [|done]. intros [<- <-]. congruence.
  - case_decide as Ht; [subst|rewrite Hi]; [rewrite lookup_insert_eq|rewrite lookup_insert_ne by done]; naive_solver.
Qed.

Lemma add_change_inv now tc instant cc tc' :
  tc_inv tc -> add_change now tc instant cc = Ret tc' -> tc_inv tc'.
Proof.
  intros Hinv. unfold add_change, add_change_internal. rewrite bind_Ret. intros ([o tc1] & H & [= <-]).
  apply bind_Ret in H as (tc0 & H0 & H1).
  assert (tc_inv tc0) as Hinv0.
  { destruct (_ =? _); [by eapply remove_changes_before_inv|by injection H0 as <-]. }
  destruct (find_by_sn tc0 cc) eqn:Ef; [by injection H1 as <- <-|].
  pose proof (insert_change_inv tc0 instant cc Hinv0 Ef) as H2. simpl in H2.
  destruct (tc_changes tc0 !! instant); by injection H1 as <- <-.
Qed.

(** ** Garbage collection keeps the newest changes *)

Lemma skip_removed_drop i must may rb keys :
  exists k, skip_removed i must may rb keys = drop k keys /\ (k <= length keys)%nat /\
    (i + Z.of_nat k <= Z.max i (Z.max must may)) /\
    (k = length keys \/ must <= i + Z.of_nat k).
Proof.
  revert i. induction keys as [|ts keys IH]; intros i; simpl; [exists 0%nat; simpl; split_and!; (done || lia || auto)|].
  destruct ((i <? must) || (bool_decide (klt ts rb) && (i <? may))) eqn:E.
  - destruct (IH (i + 1)) as (k & -> & Hk & H1 & H2). exists (S k). simpl.
    assert (i < Z.max must may).
    { apply orb_true_iff in E as [E%Z.ltb_lt|[_ E%Z.ltb_lt]%andb_true_iff]; lia. }
    split_and!; [done|lia|lia|]. destruct H2 as [->|?]; [by left|right; lia].
  - exists 0%nat. apply orb_false_iff in E as [E%Z.ltb_ge _]. simpl. split_and!; [done|lia|lia|right; lia].
Qed.

(** With [k] the number skipped, the retained changes are those under the
    [n - k] greatest time stamps. *)
Lemma to_retain_keys tc rb :
  exists k, bt_keys (to_retain tc rb) = drop k (bt_keys (tc_changes tc)) /\
    (k <= size (tc_changes tc))%nat /\
    Z.of_nat k <= Z.max (must_remove_count tc) (may_remove_count tc) /\
    must_remove_count tc <= Z.of_nat k.
Proof.
  destruct (skip_removed_drop 0 (must_remove_count tc) (may_remove_count tc) rb (bt_keys (tc_changes tc)))
    as (k & Hk & Hlen & H1 & H2).
  assert (length (bt_keys (tc_changes tc)) = size (tc_changes tc)) as Hsz
    by (unfold bt_keys; rewrite length_fmap; apply length_bt_iter).
  assert (0 <= must_remove_count tc <= Z.of_nat (size (tc_changes tc))) as Hm
    by (unfold must_remove_count, saturating_sub, as_usize; pose proof (wrap_u_range 64 (max_keep_samples tc)); unfold in_u in *; lia).
  exists k. split_and!; [|lia|lia|lia]. unfold to_retain. rewrite Hk.
  pose proof (bt_keys_sorted (tc_changes tc)) as Hs. rewrite <- (take_drop k (bt_keys (tc_changes tc))) in Hs.
  apply StronglySorted_app in Hs as (Hlt & _ & Hs').
  destruct (drop k (bt_keys (tc_changes tc))) as [|ts l] eqn:Ed; simpl.
  { unfold bt_keys. by rewrite bt_iter_empty. }
  apply (sorted_ext klt); [apply bt_keys_sorted|done|]. intros t.
  rewrite elem_of_bt_keys, lookup_bt_from. rewrite <- Ed in *.
  assert (t ∈ bt_keys (tc_changes tc) <-> t ∈ take k (bt_keys (tc_changes tc)) \/ t ∈ drop k (bt_keys (tc_changes tc))) as Hin
    by (rewrite <- elem_of_app, take_drop; done).
  rewrite elem_of_bt_keys in Hin. rewrite Ed in *. apply StronglySorted_cons in Hs' as [Hts _].
  rewrite Forall_forall in Hts. case_decide as Hle.
  - rewrite Hin. split; [|by right]. intros [Ht|?]; [|done].
    specialize (Hlt t ts Ht ltac:(set_solver)). apply klt_nle in Hlt. done.
  - split; [by intros [? ?]|]. intros [->|?%Hts]%elem_of_cons; [by destruct Hle|].
    destruct Hle. by apply klt_kle.
Qed.

(** Garbage collection keeps the index consistent with the changes, removes
    the oldest changes first, leaves at most the maximum number of samples and,
    with a history of KeepLast, never removes one of the newest [depth] changes
    unless the maximum forces it. *)
Theorem remove_changes_before_correct now tc rb :
  tc_inv tc -> kle (changes_reallocated_up_to tc) (Timestamp_sub_duration now (Duration_from_secs 5)) ->
  0 <= max_keep_samples tc < 2 ^ 31 -> (forall depth, min_keep_samples tc = KeepLast depth -> 0 <= depth < 2 ^ 31) ->
  exists tc' k, remove_changes_before now tc rb = Ret tc' /\ tc_inv tc' /\
    bt_keys (tc_changes tc') = drop k (bt_keys (tc_changes tc)) /\
    (forall t, is_Some (tc_changes tc' !! t) -> tc_changes tc' !! t = tc_changes tc !! t) /\
    Z.of_nat (size (tc_changes tc')) <= max_keep_samples tc /\
    Z.min (Z.of_nat (size (tc_changes tc)))
          (Z.min (max_keep_samples tc) (match min_keep_samples tc with KeepLast depth => depth | KeepAll => max_keep_samples tc end))
    <= Z.of_nat (size (tc_changes tc')).
Proof.
  intros Hinv Hclock Hmax Hdepth.
  assert (exists tc', remove_changes_before now tc rb = Ret tc' /\ tc_changes tc' = to_retain tc rb) as (tc' & E & Ec).
  { unfold remove_changes_before. rewrite bool_decide_eq_true_2 by done. simpl. by eexists. }
  destruct (to_retain_keys tc rb) as (k & Hk & Hks & H1 & H2). exists tc', k.
  assert (size (tc_changes tc') = size (tc_changes tc) - k)%nat as Hsz.
  { rewrite <- !length_bt_iter. rewrite <- (length_fmap fst), <- (length_fmap fst (bt_iter (tc_changes tc))).
    fold (bt_keys (tc_changes tc')) (bt_keys (tc_changes tc)). by rewrite Ec, Hk, length_drop. }
  unfold must_remove_count, may_remove_count, must_remove_count, saturating_sub, as_usize in H1, H2.
  rewrite (wrap_u_id 64 (max_keep_samples tc)) in H1, H2 by (unfold in_u; lia).
  split_and!; [done|by eapply remove_changes_before_inv|by rewrite Ec| |lia|].
  - intros t [cc Hcc]. rewrite Hcc. rewrite Ec in Hcc. apply lookup_retain in Hcc as [? _]. done.
  - destruct (min_keep_samples tc) as [depth|]; [|lia].
    specialize (Hdepth depth eq_refl). rewrite (wrap_u_id 64 depth) in H1 by (unfold in_u; lia). lia.
Qed.

Definition demo_qos : QosPolicies := mkQos None None None None None None None None None (Some (KeepLast 1)) None None.
Definition demo_cc (sn : SequenceNumber) : CacheChange :=
  mkCacheChange GUID_UNKNOWN sn (mkWriteOptions None None None) (DData (mkPayload (mkRepId (0, 1)) (0, 0) [sn])).
Definition demo_tc : TopicCache := TopicCache_new "t" "d" demo_qos.

Lemma tc_new_inv name ty qos : tc_inv (TopicCache_new name ty qos).
Proof.
  split; simpl; [|by intros w s]. intros w sn t. unfold idx. rewrite lookup_empty. simpl.
  setoid_rewrite lookup_empty. naive_solver.
Qed.

(** Two changes received, of which the reader may have the first. *)
Definition demo_full : TopicCache :=
  match (tc ← add_change (mkTimestamp 10 0) demo_tc (mkTimestamp 9 0) (demo_cc 1);
         add_change (mkTimestamp 10 0) tc (mkTimestamp 9 1) (demo_cc 2)) with
  | Ret tc => (mark_reliably_received_before tc GUID_UNKNOWN 2).2
  | _ => demo_tc
  end.

Lemma demo_full_inv : tc_inv demo_full.
Proof.
  unfold demo_full. destruct (_ ≫= _) as [tc| |] eqn:E; [|apply tc_new_inv..].
  apply bind_Ret in E as (tc1 & E1 & E2). change (tc_inv tc).
  eapply add_change_inv, E2. eapply add_change_inv, E1. apply tc_new_inv.
Qed.

Lemma remove_changes_before_correct_witness :
  exists tc' k, remove_changes_before (mkTimestamp 20 0) demo_full (mkTimestamp 10 0) = Ret tc' /\ tc_inv tc' /\
    bt_keys (tc_changes tc') = drop k (bt_keys (tc_changes demo_full)).
Proof.
  destruct (remove_changes_before_correct (mkTimestamp 20 0) demo_full (mkTimestamp 10 0)) as (tc' & k & H1 & H2 & H3 & _).
  - apply demo_full_inv.
  - vm_compute. discriminate.
  - vm_compute. split; [discriminate|reflexivity].
  - intros d H. vm_compute in H. injection H as <-. split; [discriminate|reflexivity].
  - exists tc', k. split; [exact H1|]. split; [exact H2|exact H3].
Defined.

Lemma remove_changes_before_find now tc rb tc' cc :
  tc_inv tc -> remove_changes_before now tc rb = Ret tc' -> find_by_sn tc cc = None -> find_by_sn tc' cc = None.
Proof.
  intros Hinv E. pose proof (remove_changes_before_inv _ _ _ _ Hinv E) as [Hi' _]. destruct Hinv as [Hi _].
  rewrite !find_by_sn_idx, !eq_None_not_Some. intros Hn [t Ht]. apply Hn. exists t. apply Hi.
  apply Hi' in Ht as (cc' & Hc & Hcc). exists cc'. split; [|done].
  unfold remove_changes_before in E. apply bind_Ret in E as ([] & _ & [= <-]). simpl in Hc.
  by apply lookup_retain in Hc as [? _].
Qed.

(** The cache after [add_change], with or without garbage collection. *)
Lemma add_change_spec now tc instant cc :
  tc_inv tc -> kle (changes_reallocated_up_to tc) (Timestamp_sub_duration now (Duration_from_secs 5)) ->
  exists tc', add_change now tc instant cc = Ret tc' /\ tc_inv tc' /\
    is_Some (find_by_sn tc' cc) /\
    (find_by_sn tc cc = None -> find_by_sn tc' cc = Some instant /\ tc_changes tc' !! instant = Some cc) /\
    received_reliably_before tc' = received_reliably_before tc /\
    (u64 (cc_sequence_number cc) mod 64 <> 0 ->
       (is_Some (find_by_sn tc cc) -> tc' = tc) /\
       (find_by_sn tc cc = None -> tc_changes tc' = <[instant := cc]> (tc_changes tc))).
Proof.
  intros Hinv Hclock.
  assert (exists tc0, (if u64 (cc_sequence_number cc) mod 64 =? 0 then remove_changes_before now tc Timestamp_ZERO else Ret tc)
            = Ret tc0 /\ tc_inv tc0 /\ (find_by_sn tc cc = None -> find_by_sn tc0 cc = None) /\
            received_reliably_before tc0 = received_reliably_before tc /\
            (u64 (cc_sequence_number cc) mod 64 <> 0 -> tc0 = tc)) as (tc0 & E0 & Hinv0 & Hfn & Hm & Hsame).
  { destruct (Z.eqb_spec (u64 (cc_sequence_number cc) mod 64) 0); [|by eauto 10].
    assert (exists tc0, remove_changes_before now tc Timestamp_ZERO = Ret tc0 /\
      received_reliably_before tc0 = received_reliably_before tc) as (tc0 & E & Hm)
      by (unfold remove_changes_before; rewrite bool_decide_eq_true_2 by done; simpl; by eexists).
    exists tc0. split_and!; [done|by eapply remove_changes_before_inv|by eapply remove_changes_before_find|done|done]. }
  assert (exists tc', add_change now tc instant cc = Ret tc' /\
    received_reliably_before tc' = received_reliably_before tc0 /\
    (is_Some (find_by_sn tc0 cc) -> tc' = tc0) /\
    (find_by_sn tc0 cc = None -> tc_changes tc' = <[instant := cc]> (tc_changes tc0))) as (tc' & E' & Hm' & Hdup & Hnew).
  { unfold add_change, add_change_internal. rewrite E0. simpl. destruct (find_by_sn tc0 cc) eqn:Ef.
    - eexists; split_and!; done.
    - destruct (tc_changes tc0 !! instant); (eexists; split_and!; [done|done|by intros [? ?]|done]). }
  pose proof (add_change_inv _ _ _ _ _ Hinv E') as Hinv'.
  assert (find_by_sn tc0 cc = None -> find_by_sn tc' cc = Some instant /\ tc_changes tc' !! instant = Some cc) as Hfind.
  { intros Hn. rewrite (Hnew Hn), lookup_insert_eq. split; [|done].
    apply Hinv'. exists cc. rewrite (Hnew Hn), lookup_insert_eq. done. }
  exists tc'. split_and!; [done|done| |by auto|congruence|].
  - destruct (find_by_sn tc0 cc) eqn:Ef; [rewrite Hdup by done; by rewrite Ef|].
    destruct (Hfind eq_refl) as [-> _]. done.
  - intros Hne. specialize (Hsame Hne). subst tc0. auto.
Qed.

(** Adding a change keeps the index exact, and afterwards the sequence
    number is found: under the given time stamp if it was new, where the change
    is stored as given; outside garbage collection a duplicate of a known number
    changes nothing and a new change is the only one added. *)
Theorem add_change_correct now tc instant cc :
  tc_inv tc -> kle (changes_reallocated_up_to tc) (Timestamp_sub_duration now (Duration_from_secs 5)) ->
  exists tc', add_change now tc instant cc = Ret tc' /\ tc_inv tc' /\
    is_Some (find_by_sn tc' cc) /\
    (find_by_sn tc cc = None -> find_by_sn tc' cc = Some instant /\ tc_changes tc' !! instant = Some cc) /\
    (u64 (cc_sequence_number cc) mod 64 <> 0 ->
       (is_Some (find_by_sn tc cc) -> tc' = tc) /\
       (find_by_sn tc cc = None -> tc_changes tc' = <[instant := cc]> (tc_changes tc))).
Proof.
  intros Hinv Hclock.
  destruct (add_change_spec now tc instant cc Hinv Hclock) as (tc' & H1 & H2 & H3 & H4 & _ & H5). by exists tc'.
Qed.

Lemma add_change_correct_witness :
  exists tc', add_change (mkTimestamp 10 0) demo_tc (mkTimestamp 9 0) (demo_cc 1) = Ret tc' /\ tc_inv tc' /\
    find_by_sn tc' (demo_cc 1) = Some (mkTimestamp 9 0).
Proof.
  destruct (add_change_correct (mkTimestamp 10 0) demo_tc (mkTimestamp 9 0) (demo_cc 1)) as (tc' & H1 & H2 & _ & H3 & _).
  - apply tc_new_inv.
  - vm_compute. discriminate.
  - exists tc'. split; [exact H1|]. split; [exact H2|]. apply H3. reflexivity.
Defined.

(** ** Hand-over to reliable readers *)

Definition reliable_block (tc : TopicCache) (last_read_sn : gmap GUID SequenceNumber)
    (e : GUID * gmap SequenceNumber Timestamp) : list (Timestamp * CacheChange) :=
  omap (fun t => (t,.) <$> get_change tc t) (reliable_range tc last_read_sn e).

Lemma reliable_blocks tc last :
  get_changes_in_range_reliable tc last = concat (reliable_block tc last <$> bt_iter (sequence_numbers tc)).
Proof.
  unfold get_changes_in_range_reliable. induction (bt_iter (sequence_numbers tc)) as [|e l IH]; csimpl; [done|].
  by rewrite omap_app, IH.
Qed.

Lemma elem_of_reliable_block tc last w m t cc :
  tc_inv tc -> sequence_numbers tc !! w = Some m -> default SequenceNumber_zero (last !! w) < i64_max ->
  i64_min <= default SequenceNumber_zero (last !! w) ->
  (t, cc) ∈ reliable_block tc last (w, m) <->
  tc_changes tc !! t = Some cc /\ cc_writer_guid cc = w /\
  default SequenceNumber_zero (last !! w) < cc_sequence_number cc < reliable_before tc w.
Proof.
  intros [Hi _] Hm Hlt Hge. unfold reliable_block. rewrite list_elem_of_omap. simpl.
  rewrite sn_plus_1 by lia.
  assert (forall t' sn, m !! sn = Some t' <-> exists cc', tc_changes tc !! t' = Some cc' /\ cc_is cc' w sn) as Hidx.
  { intros t' sn. rewrite <- Hi. unfold idx. by rewrite Hm. }
  setoid_rewrite list_elem_of_fmap. setoid_rewrite list_elem_of_filter. split.
  - intros (t' & ([sn t''] & -> & Hsn & Hin) & Hg). simpl in *. apply elem_of_bt_iter in Hin.
    unfold get_change in Hg. destruct (tc_changes tc !! t'') as [cc'|] eqn:Ec; [|done].
    injection Hg as <- <-. apply Hidx in Hin as (cc2 & E2 & [Hw Hs]). rewrite Ec in E2. injection E2 as <-.
    split_and!; [done|done|lia|lia].
  - intros (Hc & Hw & Hsn). exists t. unfold get_change. rewrite Hc. split; [|done].
    exists (cc_sequence_number cc, t). split; [done|]. split; [simpl; lia|].
    apply elem_of_bt_iter, Hidx. exists cc. done.
Qed.

(** A block lists the changes of its writer by ascending sequence number. *)
Lemma reliable_block_sorted tc last w m :
  tc_inv tc -> sequence_numbers tc !! w = Some m ->
  Forall (fun p => cc_writer_guid p.2 = w) (reliable_block tc last (w, m)) /\
  StronglySorted Z.lt ((fun p => cc_sequence_number p.2) <$> reliable_block tc last (w, m)).
Proof.
  intros [Hi _] Hm. unfold reliable_block; simpl.
  set (P := fun p : SequenceNumber * Timestamp => _ < p.1 < _).
  assert (StronglySorted (fun p q => p.1 < q.1) (filter P (bt_iter m))) as Hs.
  { eapply StronglySorted_mono, StronglySorted_filter, bt_iter_sorted. intros p q. apply klt_Z. }
  assert (Forall (fun p => exists cc, tc_changes tc !! p.2 = Some cc /\ cc_is cc w p.1) (filter P (bt_iter m))) as Hf.
  { apply Forall_forall. intros [sn t] [_ Hin%elem_of_bt_iter]%list_elem_of_filter. simpl. apply Hi.
    unfold idx. by rewrite Hm. }
  induction Hs as [|[sn t] l Hs IH Hlt]; csimpl; [split; constructor|].
  apply Forall_cons in Hf as [(cc & Hc & Hw & Hsn) Hf]. simpl in *.
  assert (get_change tc t = Some cc) as Hg0 by done. rewrite Hg0. csimpl.
  destruct (IH Hf) as [IH1 IH2]. split; [by constructor|]. constructor; [done|]. rewrite Hsn.
  rewrite Forall_forall in Hlt, Hf. rewrite Forall_forall.
  intros x ([t' cc'] & -> & Hin)%list_elem_of_fmap. apply list_elem_of_omap in Hin as (t2 & Hin & Hg).
  apply list_elem_of_fmap in Hin as ([sn2 t3] & -> & Hin). simpl in *. unfold get_change in Hg.
  destruct (Hf _ Hin) as (cc2 & Hc2 & _ & Hs2). simpl in *. rewrite Hc2 in Hg. injection Hg as <- <-.
  rewrite Hs2. apply (Hlt _ Hin).
Qed.

Lemma elem_of_reliable tc last t cc :
  tc_inv tc -> (forall w sn, last !! w = Some sn -> i64_min <= sn < i64_max) ->
  (t, cc) ∈ get_changes_in_range_reliable tc last <->
  tc_changes tc !! t = Some cc /\
  default SequenceNumber_zero (last !! cc_writer_guid cc) < cc_sequence_number cc < reliable_before tc (cc_writer_guid cc).
Proof.
  intros Hinv Hlast. rewrite reliable_blocks.
  assert (forall w, i64_min <= default SequenceNumber_zero (last !! w) < i64_max) as Hl.
  { intros w. destruct (last !! w) eqn:E; simpl; [by eapply Hlast|vm_compute; done]. }
  rewrite list_elem_of_concat. setoid_rewrite list_elem_of_fmap. split.
  - intros (b & ([w m] & -> & Hin) & Hb). apply elem_of_bt_iter in Hin.
    destruct (Hl w). apply elem_of_reliable_block in Hb as (Hc & <- & Hsn); [|done..]. done.
  - intros [Hc Hsn]. pose proof Hinv as [Hi _].
    assert (idx (sequence_numbers tc) (cc_writer_guid cc) (cc_sequence_number cc) = Some t) as Hx by (apply Hi; by exists cc).
    unfold idx in Hx. destruct (sequence_numbers tc !! cc_writer_guid cc) as [m|] eqn:Em; [|done].
    exists (reliable_block tc last (cc_writer_guid cc, m)). split.
    * eexists; split; [done|]. by apply elem_of_bt_iter.
    * destruct (Hl (cc_writer_guid cc)). by apply elem_of_reliable_block.
Qed.

(** A reliable reader that has read up to certain sequence numbers is given,
    of each writer, exactly the stored changes after those and before the marker
    up to which everything was received or will never come, and the changes of a
    writer in the order of their sequence numbers. *)
Theorem reliable_changes_correct tc last :
  tc_inv tc -> (forall w sn, last !! w = Some sn -> i64_min <= sn < i64_max) ->
  (forall t cc, (t, cc) ∈ get_changes_in_range_reliable tc last <->
     tc_changes tc !! t = Some cc /\
     default SequenceNumber_zero (last !! cc_writer_guid cc) < cc_sequence_number cc < reliable_before tc (cc_writer_guid cc)) /\
  (forall w, StronglySorted Z.lt ((fun p => cc_sequence_number p.2) <$>
     filter (fun p => cc_writer_guid p.2 = w) (get_changes_in_range_reliable tc last))).
Proof.
  intros Hinv Hlast. split; [intros t cc; by apply elem_of_reliable|]. rewrite reliable_blocks.
  intros w. assert (forall e, e ∈ bt_iter (sequence_numbers tc) -> sequence_numbers tc !! e.1 = Some e.2) as He
    by (intros [w' m]; apply elem_of_bt_iter).
  pose proof (NoDup_bt_keys (sequence_numbers tc)) as Hnd. unfold bt_keys in Hnd.
  induction (bt_iter (sequence_numbers tc)) as [|[w' m] l IH]; csimpl in *; [constructor|].
  apply NoDup_cons in Hnd as [Hni Hnd]. specialize (He (w', m) ltac:(set_solver)) as Hm. simpl in Hm.
  destruct (reliable_block_sorted tc last w' m Hinv Hm) as [Hw Hs]. rewrite filter_app, fmap_app.
  rewrite Forall_forall in Hw. destruct (decide (w' = w)) as [->|].
  + rewrite (list_filter_all _ (reliable_block tc last (w, m))) by done.
    rewrite (list_filter_none _ (concat _)); [by rewrite app_nil_r|].
    intros p (b & ([w2 m2] & -> & Hin)%list_elem_of_fmap & Hp)%list_elem_of_concat Hpw.
    destruct (reliable_block_sorted tc last w2 m2 Hinv (He (w2, m2) ltac:(set_solver))) as [Hw2 _].
    rewrite Forall_forall in Hw2. apply Hw2 in Hp. destruct Hni. apply list_elem_of_fmap. exists (w2, m2).
    simpl in *. split; [congruence|done].
  + rewrite (list_filter_none _ (reliable_block tc last (w', m))); [|intros p ?%Hw; congruence].
    simpl. apply IH; [intros; apply He; set_solver|done].
Qed.

Lemma reliable_changes_correct_witness :
  (mkTimestamp 9 0, demo_cc 1) ∈ get_changes_in_range_reliable demo_full {[GUID_UNKNOWN := 0]} /\
  (mkTimestamp 9 1, demo_cc 2) ∉ get_changes_in_range_reliable demo_full {[GUID_UNKNOWN := 0]}.
Proof.
  destruct (reliable_changes_correct demo_full {[GUID_UNKNOWN := 0]}) as [H _].
  - apply demo_full_inv.
  - intros w sn [_ <-]%lookup_singleton_Some. split; [discriminate|reflexivity].
  - split.
    + apply H. split; [reflexivity|]. vm_compute. split; reflexivity.
    + rewrite H. intros [_ [_ H2]]. vm_compute in H2. discriminate H2.
Defined.

(** ** Limits *)

(** The limits only grow. *)
Lemma update_keep_limits_grow tc qos :
  max_keep_samples tc <= max_keep_samples (update_keep_limits tc qos) /\
  (History_cmp (min_keep_samples tc) (min_keep_samples (update_keep_limits tc qos)) <> Gt).
Proof.
  split; simpl; [lia|]. unfold History_max. destruct (default _ _) as [a|], (min_keep_samples tc) as [b|]; simpl; try done.
  destruct (Z.compare_spec a b); simpl; rewrite ?Z.compare_refl; try done.
  rewrite Z.compare_antisym. by destruct (Z.compare_spec a b); simpl; try lia.
Qed.

(** A topic whose QoS says to keep all samples with unlimited resources
    ([LENGTH_UNLIMITED]) gets a limit of one sample: after any garbage
    collection at most one change is left. *)
Theorem unlimited_keeps_one_sample now name ty qos tc rb tc' m i :
  history qos = Some KeepAll -> resource_limits qos = Some (mkResourceLimits LENGTH_UNLIMITED m i) ->
  max_keep_samples tc = max_keep_samples (TopicCache_new name ty qos) ->
  remove_changes_before now tc rb = Ret tc' ->
  (size (tc_changes tc') <= 1)%nat.
Proof.
  intros Eh Er Emax H.
  assert (max_keep_samples tc = 1) as E1 by (rewrite Emax; simpl; rewrite Eh, Er; reflexivity).
  unfold remove_changes_before in H. apply bind_Ret in H as ([] & _ & [= <-]). simpl.
  destruct (to_retain_keys tc rb) as (n & Hk & Hn & _ & H2).
  rewrite <- length_bt_iter, <- (length_fmap fst). fold (bt_keys (to_retain tc rb)). rewrite Hk, length_drop.
  unfold bt_keys. rewrite length_fmap, length_bt_iter.
  unfold must_remove_count, saturating_sub, as_usize in H2. rewrite E1 in H2.
  change (u64 1) with 1 in H2. lia.
Qed.

Definition keep_all_unlimited : QosPolicies :=
  mkQos None None None None None None None None None (Some KeepAll)
    (Some (mkResourceLimits LENGTH_UNLIMITED LENGTH_UNLIMITED LENGTH_UNLIMITED)) None.
Definition two_changes : TopicCache :=
  tc_set_contents (TopicCache_new "t" "d" keep_all_unlimited)
    {[mkTimestamp 1 0 := demo_cc 1; mkTimestamp 2 0 := demo_cc 2]}
    {[GUID_UNKNOWN := {[1 := mkTimestamp 1 0; 2 := mkTimestamp 2 0]}]}.

Lemma unlimited_keeps_one_sample_witness :
  exists tc', remove_changes_before (mkTimestamp 10 0) two_changes Timestamp_ZERO = Ret tc' /\
    (size (tc_changes tc') <= 1)%nat.
Proof.
  eexists. split; [reflexivity|].
  eapply (unlimited_keeps_one_sample (mkTimestamp 10 0) "t" "d" keep_all_unlimited two_changes Timestamp_ZERO);
    reflexivity.
Defined.
