(* ===== verification/Reader.v ===== *)
(** * The stateful reader

    [src/rtps/reader.rs]: the RTPS reader that keeps a proxy for every matched
    writer and the fragments of samples in transit, stores what it receives in
    the cache of its topic, and answers HEARTBEATs with ACKNACK and NACKFRAG.

    The cache of the topic is behind a shared handle: it is a second component
    of the state, so that other readers of the topic may change it between two
    handlers.  What leaves the reader - datagrams, wake-ups of the [DataReader],
    status notifications, timers - is a list of events.  The clock readings of a
    handler are arguments: [now] the first, [later] those after it.  Without the
    [security] feature a message is sent as it is built. *)

From S2P Require Import Prelude BTree Wire SequenceNumbers Time Guid Locator WriterProxy ParameterList Qos StatusEvents Payload Submessages Headers MessageBuilder InlineQos FragmentAssembler DdsCache.

(** [MessageReceiverState] of [src/rtps/message_receiver.rs]: what the receiver
    of the enclosing message knows about its source. *)
Record MessageReceiverState := mkMRS {
  mrs_source_guid_prefix : GuidPrefix;
  mrs_unicast_reply_locator_list : list Locator;
  mrs_multicast_reply_locator_list : list Locator;
  mrs_source_timestamp : option Timestamp;
}.

Record Reader := mkReader {
  r_like_stateless : bool;
  r_reliability : Reliability;
  r_topic_name : string;
  r_qos : QosPolicies;
  r_my_guid : GUID;
  fragment_assemblers : gmap GUID FragmentAssembler;
  last_fragment_garbage_collect : Timestamp;
  matched_writers : gmap GUID RtpsWriterProxy;
  writer_match_count_total : Z;
  requested_deadline_missed_count : Z;
  offered_incompatible_qos_count : Z;
}.

(** The reader and the topic cache its handle leads to. *)
Record ReaderState := mkRS { rs_reader : Reader; rs_cache : TopicCache }.

Inductive ReaderEvent :=
| REvSend (m : Message) (dst_locator_list : list Locator)
| REvNotify
| REvStatus (s : DataReaderStatus)
| REvParticipantStatus (s : DomainParticipantStatusEvent)
| REvDeadlineTimeout (delay : Z).

Abbreviation R := (act ReaderState ReaderEvent).

Section setters.
Implicit Types r : Reader.
Definition r_set_assemblers r (x : gmap GUID FragmentAssembler) : Reader :=
  mkReader (r_like_stateless r) (r_reliability r) (r_topic_name r) (r_qos r) (r_my_guid r) x
    (last_fragment_garbage_collect r) (matched_writers r) (writer_match_count_total r)
    (requested_deadline_missed_count r) (offered_incompatible_qos_count r).
Definition r_set_gc_time r (x : Timestamp) : Reader :=
  mkReader (r_like_stateless r) (r_reliability r) (r_topic_name r) (r_qos r) (r_my_guid r)
    (fragment_assemblers r) x (matched_writers r) (writer_match_count_total r)
    (requested_deadline_missed_count r) (offered_incompatible_qos_count r).
Definition r_set_writers r (x : gmap GUID RtpsWriterProxy) : Reader :=
  mkReader (r_like_stateless r) (r_reliability r) (r_topic_name r) (r_qos r) (r_my_guid r)
    (fragment_assemblers r) (last_fragment_garbage_collect r) x (writer_match_count_total r)
    (requested_deadline_missed_count r) (offered_incompatible_qos_count r).
Definition r_set_counts r (matched missed incompatible : Z) : Reader :=
  mkReader (r_like_stateless r) (r_reliability r) (r_topic_name r) (r_qos r) (r_my_guid r)
    (fragment_assemblers r) (last_fragment_garbage_collect r) (matched_writers r)
    matched missed incompatible.
End setters.

Definition modify_reader (f : Reader -> Reader) : R unit :=
  modify_st (fun st => mkRS (f (rs_reader st)) (rs_cache st)).
Definition set_cache (tc : TopicCache) : R unit := modify_st (fun st => mkRS (rs_reader st) tc).
Definition get_reader : R Reader := st ← get_st; mret (rs_reader st).

Definition r_entity_id (r : Reader) : EntityId := entity_id (r_my_guid r).

(** The ingredients that matter: GUID, topic, statelessness, policies; the cache
    must be that of the topic. *)
Definition Reader_new (now : Timestamp) (guid : GUID) (name : string) (stateless : bool) (qos : QosPolicies)
    (tc : TopicCache) : outcome ReaderState :=
  if negb (String.eqb name (topic_name tc))
  then Panic "Topic name and topic cache name not equal when creating a Reader"
  else if stateless && is_reliable qos
  then Panic "Attempted to create a stateless Reader with other than BestEffort reliability"
  else Ret (mkRS (mkReader stateless (default BestEffort (reliability qos)) name qos guid ∅ now ∅ 0 0 0) tc).

(** ** Deadlines *)

Definition set_requested_deadline_check_timer : R unit :=
  r ← get_reader;
  match deadline (r_qos r) with
  | Some d => emit_ev (REvDeadlineTimeout (Duration_to_std_nanos (deadline_period d)))
  | None => mret tt
  end.

Definition deadline_missed (now : Timestamp) (deadline_duration : Duration) (wp : RtpsWriterProxy) : bool :=
  match last_change_timestamp wp with
  | Some last_change => is_gt (kcmp (Timestamp_duration_since now last_change) deadline_duration)
  | None => true
  end.

(** One status for each writer that missed, with the running count. *)
Definition missed_statuses (now : Timestamp) (deadline_duration : Duration) (start : Z)
    (wps : list RtpsWriterProxy) : list DataReaderStatus * Z :=
  foldl (fun acc wp =>
    if deadline_missed now deadline_duration wp
    then let c := i32 (acc.2 + 1) in (acc.1 ++ [RequestedDeadlineMissed (mkCount c 1)], c)
    else acc) ([], start) wps.

Definition calculate_if_requested_deadline_is_missed (now : Timestamp) : R (list DataReaderStatus) :=
  r ← get_reader;
  match deadline (r_qos r) with
  | None => mret []
  | Some d =>
      let '(changes, c) := missed_statuses now (deadline_period d) (requested_deadline_missed_count r)
                             (bt_values (matched_writers r)) in
      _ ← modify_reader (fun r => r_set_counts r (writer_match_count_total r) c (offered_incompatible_qos_count r));
      mret changes
  end.

Definition handle_requested_deadline_event (now : Timestamp) : R unit :=
  statuses ← calculate_if_requested_deadline_is_missed now;
  act_for statuses (fun s => emit_ev (REvStatus s)).

(** One expired [DeadlineMissedCheck]. *)
Definition Reader_handle_timed_event (now : Timestamp) : R unit :=
  _ ← handle_requested_deadline_event now;
  set_requested_deadline_check_timer.

(** ** Matched writers *)

(** Returns how many proxies were added. *)
Definition matched_writer_update (proxy : RtpsWriterProxy) : R Z :=
  r ← get_reader;
  match matched_writers r !! wp_remote_writer_guid proxy with
  | Some op =>
      _ ← modify_reader (fun r => r_set_writers r
            (<[wp_remote_writer_guid proxy := WriterProxy_update_contents op proxy]> (matched_writers r)));
      mret 0
  | None =>
      _ ← modify_reader (fun r => r_set_writers r (<[wp_remote_writer_guid proxy := proxy]> (matched_writers r)));
      mret 1
  end.

Definition update_writer_proxy (proxy : RtpsWriterProxy) (offered_qos : QosPolicies) : R unit :=
  r ← get_reader;
  if r_like_stateless r then mret tt
  else
    let writer := wp_remote_writer_guid proxy in
    match compliance_failure_wrt offered_qos (r_qos r) with
    | None =>
        count_change ← matched_writer_update proxy;
        if 0 <? count_change then
          _ ← modify_reader (fun r => r_set_counts r (i32 (writer_match_count_total r + count_change))
                (requested_deadline_missed_count r) (offered_incompatible_qos_count r));
          r ← get_reader;
          _ ← emit_ev (REvStatus (SubscriptionMatched (mkCount (writer_match_count_total r) count_change)
                (mkCount (i32 (Z.of_nat (size (matched_writers r)))) count_change) writer));
          emit_ev (REvParticipantStatus (RemoteWriterMatched (r_my_guid r) writer))
        else mret tt
    | Some bad_policy_id =>
        _ ← modify_reader (fun r => r_set_counts r (writer_match_count_total r)
              (requested_deadline_missed_count r) (i32 (offered_incompatible_qos_count r + 1)));
        r ← get_reader;
        _ ← emit_ev (REvStatus (RequestedIncompatibleQos (mkCount (offered_incompatible_qos_count r) 1)
              bad_policy_id writer (r_qos r) offered_qos));
        emit_ev (REvParticipantStatus (RemoteWriterQosIncompatible (r_my_guid r) writer (r_qos r) offered_qos))
    end.

Definition remove_writer_proxy (writer_guid : GUID) : R unit :=
  r ← get_reader;
  match matched_writers r !! writer_guid with
  | Some _ =>
      _ ← modify_reader (fun r => r_set_writers r (delete writer_guid (matched_writers r)));
      r ← get_reader;
      emit_ev (REvStatus (SubscriptionMatched (mkCount (writer_match_count_total r) 0)
        (mkCount (i32 (Z.of_nat (size (matched_writers r)))) (-1)) writer_guid))
  | None => mret tt
  end.

Definition Reader_participant_lost (guid_prefix : GuidPrefix) : R unit :=
  r ← get_reader;
  act_for (filter (in_range (GuidPrefix_range guid_prefix)) (bt_keys (matched_writers r))) remove_writer_proxy.

Definition contains_writer (r : Reader) (e : EntityId) : bool :=
  if negb (r_like_stateless r)
  then existsb (fun g => bool_decide (entity_id g = e)) (bt_keys (matched_writers r))
  else false.

(** The proxy is taken out of the map while [worker] runs. *)
Definition with_mutable_writer_proxy {U} (writer_guid : GUID)
    (worker : RtpsWriterProxy -> R (U * RtpsWriterProxy)) : R (option U) :=
  r ← get_reader;
  match matched_writers r !! writer_guid with
  | None => mret None
  | Some wp =>
      _ ← modify_reader (fun r => r_set_writers r (delete writer_guid (matched_writers r)));
      res ← worker wp;
      r ← get_reader;
      _ ← lift_outcome (rust_assert (bool_decide (matched_writers r !! writer_guid = None))
            "with_mutable_writer_proxy: Worker inserted writer proxy behind my back!");
      _ ← modify_reader (fun r => r_set_writers r (<[writer_guid := res.2]> (matched_writers r)));
      mret (Some res.1)
  end.

Definition notify_cache_change : R unit := emit_ev REvNotify.

(** ** Data *)

Definition make_cache_change (later : Timestamp) (data : DDSData) (receive_timestamp : Timestamp)
    (write_options : WriteOptions) (writer_guid : GUID) (writer_sn : SequenceNumber) : R unit :=
  st ← get_st;
  tc ← lift_outcome (add_change later (rs_cache st) receive_timestamp
                       (mkCacheChange writer_guid writer_sn write_options data));
  let r := rs_reader st in
  set_cache (if negb (r_like_stateless r) then
               match matched_writers r !! writer_guid with
               | Some wp => (mark_reliably_received_before tc writer_guid (all_ackable_before wp)).2
               | None => tc
               end
             else tc).

(** [false]: the sample is ignored. *)
Definition accept_sample (receive_timestamp : Timestamp) (writer_guid : GUID) (writer_sn : SequenceNumber) : R bool :=
  r ← get_reader;
  if r_like_stateless r then mret true
  else
    match matched_writers r !! writer_guid with
    | Some writer_proxy =>
        if should_ignore_change writer_proxy writer_sn
           && negb (bool_decide (r_entity_id r = SPDP_BUILTIN_PARTICIPANT_READER))
        then mret false
        else
          _ ← modify_reader (fun r => r_set_writers r
                (<[writer_guid := received_changes_add writer_proxy writer_sn receive_timestamp]> (matched_writers r)));
          mret true
    | None => mret (negb (EntityKind_is_user_defined (entity_kind (entity_id writer_guid))))
    end.

Definition process_received_data (later : Timestamp) (dds_data : DDSData) (receive_timestamp : Timestamp)
    (write_options : WriteOptions) (writer_guid : GUID) (writer_sn : SequenceNumber) : R unit :=
  accepted ← accept_sample receive_timestamp writer_guid writer_sn;
  if (accepted : bool) then
    _ ← make_cache_change later dds_data receive_timestamp write_options writer_guid writer_sn;
    notify_cache_change
  else mret tt.

Section reader.
Context `{SP : Speedy}.

Definition deduce_change_kind (inline_qos : option ParameterList) (no_writers : bool)
    (rep_id : RepresentationIdentifier) : ChangeKind :=
  match inline_qos ≫= (fun params => InlineQos_status_info params rep_id) with
  | Some si => StatusInfo_change_kind si
  | None => if no_writers then NotAliveUnregistered else NotAliveDisposed
  end.

(** [None]: the submessage is discarded. *)
Definition data_to_dds_data (data : Data) (data_flags : Z) : option DDSData :=
  let rep_id := cdr_representation_identifier data_flags in
  match data_serialized_payload data, contains data_flags DATA_Data, contains data_flags DATA_Key with
  | Some serialized_payload, true, false => DData <$> SerializedPayload_from_bytes serialized_payload
  | Some serialized_payload, false, true =>
      DDisposeByKey (deduce_change_kind (data_inline_qos data) false rep_id)
        <$> SerializedPayload_from_bytes serialized_payload
  | None, false, false =>
      key_hash ← (params ← data_inline_qos data; default None (InlineQos_key_hash params));
      Some (DDisposeByKeyHash (deduce_change_kind (data_inline_qos data) false rep_id) key_hash)
  | Some _, true, true => None
  | Some _, false, false => None
  | None, _, _ => None
  end.

Definition received_write_options (inline_qos : option ParameterList) (flags : Z)
    (mr_state : MessageReceiverState) : WriteOptions :=
  mkWriteOptions
    (params ← inline_qos;
     default None (InlineQos_related_sample_identity params (cdr_representation_identifier flags)))
    (mrs_source_timestamp mr_state) None.

Definition handle_data_msg (now later : Timestamp) (data : Data) (data_flags : Z)
    (mr_state : MessageReceiverState) : R unit :=
  let write_options := received_write_options (data_inline_qos data) data_flags mr_state in
  let writer_guid := GUID_new (mrs_source_guid_prefix mr_state) (data_writer_id data) in
  match data_to_dds_data data data_flags with
  | Some dds_data =>
      process_received_data later dds_data now write_options writer_guid (data_writer_sn data)
  | None => mret tt
  end.

(** ** Fragments *)

Definition FRAGMENT_ASSEMBLY_TIMEOUT : Duration := Duration_from_secs 10.
Definition MIN_FRAGMENT_GC_INTERVAL : Duration := Duration_from_secs 2.

Definition garbage_collect_fragments (now : Timestamp) : R unit :=
  r ← get_reader;
  if is_gt (kcmp (Timestamp_sub now (last_fragment_garbage_collect r)) MIN_FRAGMENT_GC_INTERVAL) then
    let expire_before := Timestamp_sub_duration now FRAGMENT_ASSEMBLY_TIMEOUT in
    modify_reader (fun r =>
      r_set_assemblers (r_set_gc_time r now)
        ((fun fa => garbage_collect_before fa expire_before) <$> fragment_assemblers r))
  else mret tt.

(** [entry(writer_guid).or_insert_with(...)] *)
Definition fragment_assembler_mutable (r : Reader) (writer_guid : GUID) (frag_size : Z) : FragmentAssembler :=
  default (FragmentAssembler_new frag_size) (fragment_assemblers r !! writer_guid).

(** Has the lifespan of the sample passed? *)
Definition lifespan_exceeded (r : Reader) (receive_timestamp : Timestamp) (mr_state : MessageReceiverState) : bool :=
  match mrs_source_timestamp mr_state, lifespan (r_qos r) with
  | Some source_timestamp, Some l =>
      is_lt (kcmp (lifespan_duration l) (Timestamp_duration_since receive_timestamp source_timestamp))
  | _, _ => false
  end.

Definition handle_datafrag_msg (now later : Timestamp) (datafrag : DataFrag) (datafrag_flags : Z)
    (mr_state : MessageReceiverState) : R unit :=
  let writer_guid := GUID_new (mrs_source_guid_prefix mr_state) (df_writer_id datafrag) in
  r ← get_reader;
  if lifespan_exceeded r now mr_state then mret tt
  else
    let write_options := received_write_options (df_inline_qos datafrag) datafrag_flags mr_state in
    res ← lift_outcome (new_datafrag later
            (fragment_assembler_mutable r writer_guid (fragment_size datafrag)) datafrag datafrag_flags);
    _ ← modify_reader (fun r => r_set_assemblers r (<[writer_guid := res.2]> (fragment_assemblers r)));
    match res.1 with
    | Some dds_data =>
        process_received_data later dds_data now write_options writer_guid (df_writer_sn datafrag)
    | None => garbage_collect_fragments later
    end.

Definition Reader_missing_frags_for (r : Reader) (writer_guid : GUID) (seq : SequenceNumber) : list FragmentNumber :=
  match fragment_assemblers r !! writer_guid with
  | None => []
  | Some fa => missing_frags_for fa seq
  end.

Definition is_frag_partially_received (r : Reader) (writer_guid : GUID) (seq : SequenceNumber) : bool :=
  match fragment_assemblers r !! writer_guid with
  | None => false
  | Some fa => is_partially_received fa seq
  end.

(** ** Acknowledgments *)

Definition InfoDestination_create_submessage (guid_prefix : GuidPrefix) (flags : Z) : Submessage :=
  mkSubmessage flags 12 (SmInfoDestination guid_prefix).
Definition AckNack_create_submessage (a : AckNack) (flags : Z) : Submessage :=
  mkSubmessage flags (u16 (AckNack_len_serialized a)) (SmAckNack a).
Definition NackFrag_create_submessage (n : NackFrag) (flags : Z) : Submessage :=
  mkSubmessage flags (u16 (NackFrag_len_serialized n)) (SmNackFrag n).

Definition send_acknack_to (flags : Z) (acknack : AckNack) (info_dst : GuidPrefix)
    (dst_locator_list : list Locator) : R unit :=
  r ← get_reader;
  emit_ev (REvSend (mkMessage (Header_new (prefix (r_my_guid r)))
    [InfoDestination_create_submessage info_dst 1; AckNack_create_submessage acknack flags]) dst_locator_list).

Definition send_nackfrags_to (flags : Z) (nackfrags : list NackFrag) (info_dst : GuidPrefix)
    (dst_locator_list : list Locator) : R unit :=
  r ← get_reader;
  emit_ev (REvSend (mkMessage (Header_new (prefix (r_my_guid r)))
    (InfoDestination_create_submessage info_dst 1 ::
     ((fun nf => NackFrag_create_submessage nf flags) <$> nackfrags))) dst_locator_list).

(** [Iterator::take_while] *)
Fixpoint take_while {A} (f : A -> bool) (l : list A) : list A :=
  match l with
  | [] => []
  | x :: l => if f x then x :: take_while f l else []
  end.

(** Where the reply goes. *)
Definition reply_locators (mr_state : MessageReceiverState) (wp : RtpsWriterProxy) : list Locator :=
  match mrs_unicast_reply_locator_list mr_state with
  | [] => wp_unicast_locator_list wp
  | [Locator_Invalid] => wp_unicast_locator_list wp
  | others => others
  end.

(** The missing numbers one ACKNACK can carry. *)
Definition nackable (missing : list SequenceNumber) (first_missing : SequenceNumber) : list SequenceNumber :=
  take_while (fun sn => sn <? SequenceNumber_add first_missing (SequenceNumber_new 256)) missing.

(** The set of the ACKNACK, and the numbers left out of it because some of their
    fragments are there. *)
Definition reader_sn_state_for (r : Reader) (writer_guid : GUID) (wp : RtpsWriterProxy)
    (missing : list SequenceNumber) : outcome (SequenceNumberSet * list SequenceNumber) :=
  match head missing with
  | Some first_missing =>
      let candidates := nackable missing first_missing in
      set ← NumberSet_from_base_and_set first_missing
              (list_to_set (filter (fun sn => is_frag_partially_received r writer_guid sn = false) candidates));
      Ret (set, filter (fun sn => is_frag_partially_received r writer_guid sn = true) candidates)
  | None => Ret (NumberSet_new_empty (all_ackable_before wp), [])
  end.

(** One NACKFRAG for each partially received sample. *)
Definition make_nackfrag (r : Reader) (writer_guid : GUID) (acc : list NackFrag * RtpsWriterProxy)
    (sn : SequenceNumber) : outcome (list NackFrag * RtpsWriterProxy) :=
  let '(nackfrags, wp) := acc in
  let '(count, wp) := next_ack_nack_sequence_number wp in
  match Reader_missing_frags_for r writer_guid sn with
  | first :: rest =>
      set ← NumberSet_from_base_and_set first (list_to_set (first :: rest));
      Ret (nackfrags ++ [mkNackFrag (r_entity_id r) (entity_id (wp_remote_writer_guid wp)) sn set count], wp)
  | [] => Ret (nackfrags, wp)
  end.

(** The part after the heartbeat was found to be new. *)
Definition respond_to_heartbeat (heartbeat : Heartbeat) (writer_guid : GUID) (info_dst : GuidPrefix)
    (locators : list Locator) (missing : list SequenceNumber) (wp : RtpsWriterProxy) : R RtpsWriterProxy :=
  r ← get_reader;
  '(reader_sn_state, partially_received) ← lift_outcome (reader_sn_state_for r writer_guid wp missing);
  let '(count, wp) := next_ack_nack_sequence_number wp in
  let response_ack_nack := mkAckNack (r_entity_id r) (hb_writer_id heartbeat) reader_sn_state count in
  '(nackfrags, wp) ← lift_outcome (outcome_fold (make_nackfrag r writer_guid) ([], wp) partially_received);
  _ ← (match nackfrags with
       | [] => mret tt
       | _ => send_nackfrags_to 1 nackfrags info_dst locators
       end);
  _ ← send_acknack_to (Z.lor 1 ACKNACK_Final) response_ack_nack info_dst locators;
  mret wp.

Definition heartbeat_worker (heartbeat : Heartbeat) (final_flag_set : bool) (mr_state : MessageReceiverState)
    (writer_guid : GUID) (wp : RtpsWriterProxy) : R (bool * RtpsWriterProxy) :=
  let locators := reply_locators mr_state wp in
  if hb_count heartbeat <=? received_heartbeat_count wp then mret (false, wp)
  else
    let wp := wp_set_counts wp (hb_count heartbeat) (sent_ack_nack_count wp) in
    wp ← lift_outcome (irrelevant_changes_up_to wp (first_sn heartbeat));
    st ← get_st;
    let '(marker_moved, tc) := mark_reliably_received_before (rs_cache st) writer_guid (all_ackable_before wp) in
    _ ← set_cache tc;
    _ ← (if marker_moved then notify_cache_change else mret tt);
    missing ← lift_outcome (missing_seqnums wp (first_sn heartbeat) (last_sn heartbeat));
    if negb (bool_decide (missing = [])) || negb final_flag_set then
      wp ← respond_to_heartbeat heartbeat writer_guid (mrs_source_guid_prefix mr_state) locators missing wp;
      mret (true, wp)
    else mret (false, wp).

Definition handle_heartbeat_msg (heartbeat : Heartbeat) (final_flag_set : bool)
    (mr_state : MessageReceiverState) : R bool :=
  let writer_guid := GUID_new (mrs_source_guid_prefix mr_state) (hb_writer_id heartbeat) in
  r ← get_reader;
  if bool_decide (r_reliability r = BestEffort) || r_like_stateless r then mret false
  else if negb (bool_decide (is_Some (matched_writers r !! writer_guid))) then mret false
  else
    res ← with_mutable_writer_proxy writer_guid (heartbeat_worker heartbeat final_flag_set mr_state writer_guid);
    mret (default false res).

Definition handle_gap_msg (gap : Gap) (mr_state : MessageReceiverState) : R unit :=
  let writer_guid := GUID_new (mrs_source_guid_prefix mr_state) (gap_writer_id gap) in
  r ← get_reader;
  if r_like_stateless r then mret tt
  else
    match matched_writers r !! writer_guid with
    | None => mret tt
    | Some wp =>
        if gap_start gap <=? SequenceNumber_new 0 then mret tt
        else if NumberSet_base (gap_list gap) <=? SequenceNumber_new 0 then mret tt
        else
          wp ← lift_outcome (irrelevant_changes_range wp (gap_start gap) (NumberSet_base (gap_list gap)));
          sns ← lift_outcome (NumberSet_to_list (gap_list gap));
          let wp := foldl set_irrelevant_change wp sns in
          _ ← modify_reader (fun r => r_set_writers r (<[writer_guid := wp]> (matched_writers r)));
          st ← get_st;
          let '(marker_moved, tc) := mark_reliably_received_before (rs_cache st) writer_guid (all_ackable_before wp) in
          _ ← set_cache tc;
          if marker_moved then notify_cache_change else mret tt
    end.

Definition handle_heartbeatfrag_msg (heartbeatfrag : HeartbeatFrag) (mr_state : MessageReceiverState) : R unit :=
  mret tt.

(** To every writer nothing was received from. *)
Definition send_preemptive_acknacks : R unit :=
  r ← get_reader;
  if r_like_stateless r then mret tt
  else
    let reader_id := r_entity_id r in
    act_for (filter (fun e => no_changes_received e.2 = true) (bt_iter (matched_writers r)))
      (fun e =>
        let '(acknack_count, wp) := next_ack_nack_sequence_number e.2 in
        _ ← modify_reader (fun r => r_set_writers r (<[e.1 := wp]> (matched_writers r)));
        send_acknack_to 1
          (mkAckNack reader_id (entity_id (wp_remote_writer_guid wp)) (NumberSet_new_empty (SequenceNumber_new 1))
             acknack_count)
          (prefix (wp_remote_writer_guid wp)) (wp_unicast_locator_list wp)).
End reader.
