(* ===== verification/Transport.v ===== *)
(** * From a change to a sample

    The path of one sample: the submessages the writer builds for a change
    ([MessageBuilder]), the datagram they are written to, the message the
    receiver reads from it, and the sample and write options the reader takes
    from the DATA submessage ([src/rtps/reader.rs], [data_to_dds_data] and
    [handle_data_msg]). *)

From S2P Require Import Prelude BTree Wire SequenceNumbers Time Guid Locator ParameterList Payload Submessages Headers MessageBuilder MessageWire InlineQos Reader.

(** A change that fits one datagram. *)
Record change_ok (cc : CacheChange) : Prop := {
  co_sn : in_s 64 (cc_sequence_number cc);
  co_size : Z.of_nat (length (DDSData_bytes (cc_data_value cc))) <= 65000;
  co_hash : forall k h, cc_data_value cc = DDisposeByKeyHash k h -> length h = 16%nat;
  co_related : forall g sn, related_sample_identity (cc_write_options cc) = Some (g, sn) ->
    prefix_ok (prefix g) /\ EntityId_ok (entity_id g) /\ in_s 64 sn;
}.

(** The contents as they are received: the kind of a disposal is that of its
    status information; there is none with a disposed key, which then counts as
    disposed, unless other inline QoS makes it an empty status. *)
Definition received_value (cc : CacheChange) : DDSData :=
  match cc_data_value cc with
  | DData sp => DData sp
  | DDisposeByKey _ key =>
      DDisposeByKey (match related_sample_identity (cc_write_options cc) with None => NotAliveDisposed | Some _ => Alive end) key
  | DDisposeByKeyHash _ h => DDisposeByKeyHash NotAliveDisposed h
  end.

Section transport.
Context `{SP : Speedy, !SpeedyLaws SP}.

Definition sample_message (e : Endianness) (cc : CacheChange) (rid : EntityId) (wguid : GUID) (ts : option Timestamp) : Message :=
  add_header_and_build (data_msg (ts_msg [] e ts) cc rid wguid e) (prefix wguid).

(** The inline QoS of a change. *)
Definition change_qos (e : Endianness) (cc : CacheChange) : ParameterList :=
  push_related_sample_identity
    (match cc_data_value cc with
     | DDisposeByKeyHash _ h =>
         mkPL [mkParameter PID_KEY_HASH h; create_pid_status_info_parameter true true false]
     | _ => mkPL []
     end) e (cc_write_options cc).

Definition change_data (e : Endianness) (cc : CacheChange) (rid : EntityId) (wguid : GUID) : Data :=
  mkData rid (entity_id wguid) (cc_sequence_number cc)
    (if ParameterList_is_empty (change_qos e cc) then None else Some (change_qos e cc))
    (match cc_data_value cc with DDisposeByKeyHash _ _ => None | v => Some (DDSData_bytes v) end).
Definition change_flags (e : Endianness) (cc : CacheChange) : Z :=
  Z.lor (from_endianness e)
  (Z.lor (match cc_data_value cc with
          | DData _ => DATA_Data | DDisposeByKey _ _ => DATA_Key | DDisposeByKeyHash _ _ => DATA_InlineQos end)
         (if ParameterList_is_empty (change_qos e cc) then 0 else DATA_InlineQos)).

Lemma data_msg_change mb e cc rid wguid :
  data_msg mb cc rid wguid e =
  mb ++ [mkSubmessage (change_flags e cc) (u16 (Data_len_serialized (change_data e cc rid wguid)))
           (SmData (change_data e cc rid wguid))].
Proof.
  unfold data_msg, change_flags, change_data, change_qos, push_related_sample_identity. destruct (cc_data_value cc);
    destruct (related_sample_identity (cc_write_options cc)); reflexivity.
Qed.

Lemma length_SampleIdentity_write e g sn :
  length (prefix_bytes (prefix g)) = 12%nat -> length (SampleIdentity_write e (g, sn)) = 24%nat.
Proof.
  intros Hp. unfold SampleIdentity_write.
  by rewrite !length_app, length_write_u8s, length_EntityId_write, length_SequenceNumber_write; simpl; rewrite Hp.
Qed.

Lemma read_write_SampleIdentity e g sn rest :
  prefix_ok (prefix g) -> EntityId_ok (entity_id g) -> in_s 64 sn ->
  SampleIdentity_read e (SampleIdentity_write e (g, sn) ++ rest) = Some ((g, sn), rest).
Proof.
  intros Hp He Hsn. unfold SampleIdentity_read, GUID_read, SampleIdentity_write, mbind, reader_bind. simpl.
  change (concat _) with (GuidPrefix_write e (prefix g)). rewrite <- !app_assoc.
  rewrite read_write_GuidPrefix, read_write_EntityId by done. cbv [mret reader_ret]. cbv beta iota.
  rewrite read_write_SequenceNumber by done. by destruct g.
Qed.

Lemma padded_aligned e p : Z.of_nat (length (value p)) mod 4 = 0 -> padded e p = p.
Proof. intros H. unfold padded, padding, pad_length. rewrite H. simpl. rewrite app_nil_r. by destruct p. Qed.

(** All parameters of a change are aligned as they are. *)
Lemma change_qos_ok e cc :
  change_ok cc ->
  Forall (fun p => Parameter_ok p /\ padded e p = p) (parameters (change_qos e cc)) /\
  ParameterList_len_serialized (change_qos e cc) <= 60.
Proof.
  intros [_ _ Hh Hr]. unfold change_qos, push_related_sample_identity.
  assert (forall h, length h = 16%nat -> Parameter_ok (mkParameter PID_KEY_HASH h) /\
    padded e (mkParameter PID_KEY_HASH h) = mkParameter PID_KEY_HASH h) as Hhash.
  { intros h Hl. split; [|apply padded_aligned; simpl; by rewrite Hl].
    split; [cbv; split; (discriminate || reflexivity)|]. split; [done|]. simpl. rewrite Hl. lia. }
  assert (forall g sn, length (prefix_bytes (prefix g)) = 12%nat ->
    let p := mkParameter PID_RELATED_SAMPLE_IDENTITY (SampleIdentity_write e (g, sn)) in
    Parameter_ok p /\ padded e p = p) as Hrel.
  { intros g sn Hl p. pose proof (length_SampleIdentity_write e g sn Hl) as E.
    split; [|apply padded_aligned; unfold p; simpl; by rewrite E].
    split; [cbv; split; (discriminate || reflexivity)|]. split; [done|]. unfold p. simpl. rewrite E. lia. }
  assert (Parameter_ok (create_pid_status_info_parameter true true false) /\
    padded e (create_pid_status_info_parameter true true false) = create_pid_status_info_parameter true true false) as Hsi.
  { split; [|by apply padded_aligned]. split; [cbv; split; (discriminate || reflexivity)|]. split; [done|]. simpl. lia. }
  unfold ParameterList_len_serialized, ParameterList_push, Parameter_len_serialized.
  destruct (related_sample_identity (cc_write_options cc)) as [[g sn]|] eqn:Er;
    [destruct (Hr g sn eq_refl) as [[Hg _] _]; pose proof (length_SampleIdentity_write e g sn Hg) as El|];
    destruct (cc_data_value cc) as [sp|k sp|k h] eqn:Ed; simpl;
    try (pose proof (Hh k h eq_refl) as Ehl); rewrite ?El, ?Ehl; (split; [repeat constructor; first [by apply Hhash|by apply Hrel|by apply Hsi]|done]).
Qed.

Lemma change_pad_qos e cc rid wguid :
  change_ok cc -> pad_qos e (data_inline_qos (change_data e cc rid wguid)) = data_inline_qos (change_data e cc rid wguid).
Proof.
  intros H. destruct (change_qos_ok e cc H) as [Hf _]. unfold change_data; simpl.
  destruct (ParameterList_is_empty _); [done|]. unfold pad_qos. simpl. f_equal.
  destruct (change_qos e cc) as [ps]. simpl in *. f_equal.
  induction Hf as [|p ps [_ Hp] _ IH]; csimpl; [done|]. by rewrite Hp, IH.
Qed.

Lemma change_flags_endianness e cc : endianness_flag (change_flags e cc) = e /\ in_u 8 (change_flags e cc).
Proof.
  unfold change_flags. destruct e, (cc_data_value cc), (ParameterList_is_empty (change_qos _ cc));
    (split; [reflexivity|cbv; split; (discriminate || reflexivity)]).
Qed.

Lemma change_sendable e cc rid wguid :
  change_ok cc -> EntityId_ok rid -> EntityId_ok (entity_id wguid) ->
  sendable (mkSubmessage (change_flags e cc) (u16 (Data_len_serialized (change_data e cc rid wguid)))
              (SmData (change_data e cc rid wguid))).
Proof.
  intros Hcc Hr Hw. destruct (change_flags_endianness e cc) as [Ee Hf].
  destruct (change_qos_ok e cc Hcc) as [Hq Hql]. destruct Hcc as [Hsn Hsz Hh _].
  assert (20 <= Data_len_serialized (change_data e cc rid wguid) <= 65080) as Hlen.
  { pose proof (ParameterList_len_serialized_correct e (change_qos e cc)) as Hq0.
    unfold Data_len_serialized, change_data. simpl data_inline_qos. simpl data_serialized_payload.
    destruct (cc_data_value cc), (ParameterList_is_empty _); simpl in *; lia. }
  unfold sendable. cbn [sm_flags sm_body sm_content_length]. rewrite Ee.
  split; [done|]. split; [split|split].
  - split; [done|]. split; [done|]. split; [done|]. simpl. intros q.
    destruct (ParameterList_is_empty _); [done|]. intros [= <-]. eapply Forall_impl; [done|]. by intros ? [? _].
  - unfold Data_flags_match, change_flags, change_data. simpl.
    destruct e, (cc_data_value cc) eqn:Ed, (ParameterList_is_empty (change_qos _ cc)) eqn:Eq; try done.
    all: exfalso; revert Eq; unfold change_qos, push_related_sample_identity; rewrite Ed; by destruct (related_sample_identity _).
  - cbn [SubmessageBody_write]. rewrite Data_len_serialized_correct. apply wrap_u_id. unfold in_u. lia.
  - apply wrap_u_range. lia.
Qed.

Lemma rep_id_of_flags e cc : pl_cdr_rep_id_to_speedy_d (cdr_representation_identifier (change_flags e cc)) = Some e.
Proof. unfold change_flags. destruct e, (cc_data_value cc), (ParameterList_is_empty (change_qos _ cc)); reflexivity. Qed.

Lemma StatusInfo_disposed e : read_from_buffer (StatusInfo_read e) [0; 0; 0; 3] = Some (mkStatusInfo 3).
Proof.
  unfold read_from_buffer, StatusInfo_read, mbind, reader_bind, read_u8.
  by rewrite !sp_read_byte by bounds_lia.
Qed.

Lemma change_kind_read e cc rid wguid :
  deduce_change_kind (data_inline_qos (change_data e cc rid wguid)) false (cdr_representation_identifier (change_flags e cc))
  = match cc_data_value cc, related_sample_identity (cc_write_options cc) with
    | DDisposeByKeyHash _ _, _ | _, None => NotAliveDisposed
    | _, Some _ => Alive
    end.
Proof.
  unfold deduce_change_kind, InlineQos_status_info. rewrite rep_id_of_flags. unfold change_data, change_qos, push_related_sample_identity.
  destruct (cc_data_value cc), (related_sample_identity (cc_write_options cc)); simpl; try done.
  all: change (Z.b2z true) with 1; simpl; by rewrite StatusInfo_disposed.
Qed.

Lemma change_value_read e cc rid wguid :
  change_ok cc -> data_to_dds_data (change_data e cc rid wguid) (change_flags e cc) = Some (received_value cc).
Proof.
  intros [_ _ Hh _]. unfold data_to_dds_data. rewrite change_kind_read. unfold received_value.
  assert (contains (change_flags e cc) DATA_Data = match cc_data_value cc with DData _ => true | _ => false end /\
    contains (change_flags e cc) DATA_Key = match cc_data_value cc with DDisposeByKey _ _ => true | _ => false end) as [-> ->]
    by (unfold change_flags; destruct e, (cc_data_value cc), (ParameterList_is_empty (change_qos _ cc)); done).
  unfold change_data. simpl data_serialized_payload. simpl data_inline_qos.
  destruct (cc_data_value cc) as [sp|k sp|k h] eqn:Ed; simpl.
  - by rewrite SerializedPayload_from_bytes_write.
  - by rewrite SerializedPayload_from_bytes_write.
  - unfold change_qos, push_related_sample_identity. rewrite Ed. specialize (Hh _ _ eq_refl).
    destruct (related_sample_identity (cc_write_options cc)); simpl; unfold InlineQos_key_hash, KeyHash_from_pl_cdr_bytes;
      simpl; by rewrite decide_True by done.
Qed.

Lemma change_related_read e cc rid wguid mrs :
  change_ok cc ->
  related_sample_identity (received_write_options (data_inline_qos (change_data e cc rid wguid)) (change_flags e cc) mrs)
  = related_sample_identity (cc_write_options cc).
Proof.
  intros [_ _ _ Hr]. unfold received_write_options, InlineQos_related_sample_identity. simpl related_sample_identity.
  rewrite rep_id_of_flags. unfold change_data, change_qos, push_related_sample_identity. simpl data_inline_qos.
  destruct (related_sample_identity (cc_write_options cc)) as [[g n]|]; destruct (cc_data_value cc); simpl; try done.
  all: destruct (Hr g n eq_refl) as (H1 & H2 & H3);
    unfold read_from_buffer; rewrite <- (app_nil_r (SampleIdentity_write e (g, n)));
    by rewrite read_write_SampleIdentity.
Qed.
End transport.

(** C10: a change of at most 65000 bytes of contents, sent as INFO_TS and DATA in
    one datagram, arrives: the receiver reads the source time stamp and a DATA
    submessage with the writer's entity and the sequence number of the change, in
    the byte order it was sent in. From this the reader takes the identity of the
    sample that the change answers, and the contents: data with the serialized
    payload as it was; a disposal by key or key hash with that key or hash. The
    kind of a disposal is not sent but deduced: it is [NotAliveDisposed] whatever
    it was, except that a disposal by key that answers another sample arrives with
    the kind [Alive]. *)
Theorem sample_received_as_sent `{SP : Speedy, !SpeedyLaws SP} c e cc rid wguid ts :
  change_ok cc -> EntityId_ok rid -> EntityId_ok (entity_id wguid) -> prefix_ok (prefix wguid) ->
  (forall t, ts = Some t -> Timestamp_ok t) ->
  exists d flags f1 n1 n2,
    Message_read_from_buffer c (Message_write c (sample_message e cc rid wguid ts)) =
      Ret (Some (mkMessage (Header_new (prefix wguid))
                   [mkSubmessage f1 n1 (SmInfoTimestamp ts); mkSubmessage flags n2 (SmData d)])) /\
    data_reader_id d = rid /\ data_writer_id d = entity_id wguid /\ data_writer_sn d = cc_sequence_number cc /\
    (forall sp, cc_data_value cc = DData sp -> data_to_dds_data d flags = Some (DData sp)) /\
    (forall k key, cc_data_value cc = DDisposeByKey k key -> related_sample_identity (cc_write_options cc) = None ->
       data_to_dds_data d flags = Some (DDisposeByKey NotAliveDisposed key)) /\
    (forall k key s, cc_data_value cc = DDisposeByKey k key -> related_sample_identity (cc_write_options cc) = Some s ->
       data_to_dds_data d flags = Some (DDisposeByKey Alive key)) /\
    (forall k h, cc_data_value cc = DDisposeByKeyHash k h ->
       data_to_dds_data d flags = Some (DDisposeByKeyHash NotAliveDisposed h)) /\
    forall mrs, related_sample_identity (received_write_options (data_inline_qos d) flags mrs)
                = related_sample_identity (cc_write_options cc).
Proof.
  intros Hcc Hr Hw Hp Hts. exists (change_data e cc rid wguid), (change_flags e cc).
  unfold sample_message, add_header_and_build. rewrite data_msg_change. unfold ts_msg.
  set (f1 := Z.lor _ _). set (n1 := match ts with Some _ => 8 | None => 0 end). set (n2 := u16 _).
  exists f1, n1, n2. split.
  - pose proof (change_sendable e cc rid wguid Hcc Hr Hw) as Hs2.
    assert (sendable (mkSubmessage f1 n1 (SmInfoTimestamp ts))) as Hs1.
    { unfold sendable, f1, n1. cbn [sm_flags sm_body sm_content_length SubmessageBody_write].
      destruct ts as [t|]; simpl; destruct e; (split_and!; [cbv; split; (discriminate || reflexivity)|done|done| |cbv; split; (discriminate || reflexivity)]).
      all: try done; unfold Timestamp_write, write_u32; by rewrite length_app, !sp_length. }
    rewrite read_write_Message; [|split_and!; try done; cbv; repeat split; discriminate|by apply Forall_cons; split; [|apply Forall_singleton]].
    cbn [submessages app fmap list_fmap]. unfold received_sm. cbn [sm_body sm_flags sm_content_length].
    rewrite (proj1 (change_flags_endianness e cc)), change_pad_qos by done. done.
  - pose proof (change_value_read e cc rid wguid Hcc) as Hv. unfold received_value in Hv.
    split_and!; [done..| | | | |intros; by apply change_related_read].
    + intros sp E. by rewrite E in Hv.
    + intros k key E E'. by rewrite E, E' in Hv.
    + intros k key si E E'. by rewrite E, E' in Hv.
    + intros k h E. by rewrite E in Hv.
Qed.

Definition demo_change : CacheChange :=
  mkCacheChange (mkGUID (mkPrefix (replicate 12 1)) (mkEntityId (0, 0, 1) 2)) 7 (mkWriteOptions None None None)
    (DData (mkPayload (mkRepId (0, 1)) (0, 0) [42])).

Lemma sample_received_as_sent_witness :
  exists d flags,
    data_to_dds_data d flags = Some (DData (mkPayload (mkRepId (0, 1)) (0, 0) [42])) /\ data_writer_sn d = 7.
Proof.
  assert (EntityId_ok EntityId_UNKNOWN /\ EntityId_ok (mkEntityId (0, 0, 1) 2)) as [H1 H2]
    by (split; cbv; repeat split; discriminate).
  destruct (sample_received_as_sent LittleEndian BigEndian demo_change EntityId_UNKNOWN (cc_writer_guid demo_change)
    (Some (mkTimestamp 5 0))) as (d & flags & f1 & n1 & n2 & _ & _ & _ & H3 & H4 & _).
  - split; [simpl; bounds_lia|simpl; lia|discriminate|discriminate].
  - exact H1.
  - exact H2.
  - split; [reflexivity|]. simpl. repeat constructor; bounds_lia.
  - intros t [= <-]. split; simpl; bounds_lia.
  - exists d, flags. split; [exact (H4 _ eq_refl)|exact H3].
Defined.
