(* ===== verification/MessageReceiver.v ===== *)
(** * The message receiver

    [src/rtps/message_receiver.rs], without the [security] feature: the
    interpreter of a received message.  Interpreter submessages change what the
    receiver knows about the source and the destination of what follows; writer
    submessages go to the readers they are for; ACKNACKs are passed on to the
    writers.

    The readers' topic caches are behind shared handles: the state holds them
    next to the receiver, under the name of their topic.  Every reader handler
    reads the clock, first when it starts and then while it works: [clock n] is
    the [n]-th reading, [mr_ticks] counts them.  What leaves the receiver - the
    readers' events, the attempts to send to the channels of the writers and of
    discovery - is a list of events. *)

From S2P Require Import Prelude BTree Wire SequenceNumbers Time Guid Locator WriterProxy ParameterList Qos StatusEvents Payload Submessages Headers MessageBuilder MessageWire InlineQos FragmentAssembler DdsCache Reader.

(** ** State *)

(** The fields that [reset] clears. *)
Record SourceState := mkSource {
  source_version : ProtocolVersion;
  source_vendor_id : VendorId;
  source_guid_prefix : GuidPrefix;
  dest_guid_prefix : GuidPrefix;
  unicast_reply_locator_list : list Locator;
  multicast_reply_locator_list : list Locator;
  mr_source_timestamp : option Timestamp;
  submessage_count : Z;
}.

Record MessageReceiver := mkReceiver {
  available_readers : gmap EntityId Reader;
  own_guid_prefix : GuidPrefix;
  mr_source : SourceState;
  mr_caches : gmap string TopicCache;
  mr_ticks : nat;
}.

Inductive ReceiverEvent :=
| MREvReader (reader : EntityId) (ev : ReaderEvent)
| MREvAckNack (source : GuidPrefix) (acknack : AckNack)
| MREvSpdpLiveness (source : GuidPrefix).

Abbreviation MR := (act MessageReceiver ReceiverEvent).

Definition mr_set_readers (m : MessageReceiver) (x : gmap EntityId Reader) : MessageReceiver :=
  mkReceiver x (own_guid_prefix m) (mr_source m) (mr_caches m) (mr_ticks m).
Definition mr_set_source (m : MessageReceiver) (x : SourceState) : MessageReceiver :=
  mkReceiver (available_readers m) (own_guid_prefix m) x (mr_caches m) (mr_ticks m).

Definition MessageReceiver_new (participant_guid_prefix : GuidPrefix) (caches : gmap string TopicCache)
  : MessageReceiver :=
  mkReceiver ∅ participant_guid_prefix
    (mkSource ProtocolVersion_THIS_IMPLEMENTATION VENDOR_UNKNOWN GuidPrefix_UNKNOWN GuidPrefix_UNKNOWN
       [Locator_Invalid] [Locator_Invalid] None 0) caches 0.

Definition reset_source : SourceState :=
  mkSource ProtocolVersion_THIS_IMPLEMENTATION VENDOR_UNKNOWN GuidPrefix_UNKNOWN GuidPrefix_UNKNOWN [] [] None 0.
Definition MessageReceiver_reset (m : MessageReceiver) : MessageReceiver := mr_set_source m reset_source.

Definition clone_partial_message_receiver_state (s : SourceState) : MessageReceiverState :=
  mkMRS (source_guid_prefix s) (unicast_reply_locator_list s) (multicast_reply_locator_list s) (mr_source_timestamp s).

Definition add_reader (m : MessageReceiver) (new_reader : Reader) : MessageReceiver :=
  let eid := r_entity_id new_reader in
  match available_readers m !! eid with
  | Some _ => m
  | None => mr_set_readers m (<[eid := new_reader]> (available_readers m))
  end.

Definition remove_reader (m : MessageReceiver) (old_reader_guid : GUID) : option Reader * MessageReceiver :=
  (available_readers m !! entity_id old_reader_guid,
   mr_set_readers m (delete (entity_id old_reader_guid) (available_readers m))).

(** ** Submessages by their role *)

(** [HasEntityIds for WriterSubmessage]: receiver and sender, for the
    submessages a writer sends. *)
Definition writer_submessage_ids (b : SubmessageBody) : option (EntityId * EntityId) :=
  match b with
  | SmData d => Some (data_reader_id d, data_writer_id d)
  | SmDataFrag d => Some (df_reader_id d, df_writer_id d)
  | SmGap g => Some (gap_reader_id g, gap_writer_id g)
  | SmHeartbeat h => Some (hb_reader_id h, hb_writer_id h)
  | SmHeartbeatFrag h => Some (hf_reader_id h, hf_writer_id h)
  | _ => None
  end.

(** ** Interpreter submessages *)

Definition INFOREPLY_Multicast : Z := 2.

Definition handle_interpreter_submessage (own : GuidPrefix) (sm : Submessage) (s : SourceState) : SourceState :=
  match sm_body sm with
  | SmInfoTimestamp timestamp =>
      mkSource (source_version s) (source_vendor_id s) (source_guid_prefix s) (dest_guid_prefix s)
        (unicast_reply_locator_list s) (multicast_reply_locator_list s) timestamp (submessage_count s)
  | SmInfoSource info_src =>
      mkSource (is_protocol_version info_src) (is_vendor_id info_src) (is_guid_prefix info_src) (dest_guid_prefix s)
        [] [] None (submessage_count s)
  | SmInfoReply info_reply =>
      mkSource (source_version s) (source_vendor_id s) (source_guid_prefix s) (dest_guid_prefix s)
        (ir_unicast_locator_list info_reply)
        (match contains (sm_flags sm) INFOREPLY_Multicast, ir_multicast_locator_list info_reply with
         | true, Some ll => ll
         | true, None => []
         | false, None => []
         | false, Some _ => []
         end) (mr_source_timestamp s) (submessage_count s)
  | SmInfoDestination guid_prefix =>
      mkSource (source_version s) (source_vendor_id s) (source_guid_prefix s)
        (if decide (guid_prefix = prefix GUID_UNKNOWN) then own else guid_prefix)
        (unicast_reply_locator_list s) (multicast_reply_locator_list s) (mr_source_timestamp s) (submessage_count s)
  | _ => s
  end.

Section receiver.
Context `{SP : Speedy} (clock : nat -> Timestamp).

(** ** Readers *)

(** Run a handler of a reader.  The handle of the reader leads to the cache of
    its topic. *)
Definition with_reader (eid : EntityId) (h : Timestamp -> Timestamp -> R unit) : MR unit :=
  m ← get_st;
  match available_readers m !! eid with
  | None => mret tt
  | Some r =>
      match mr_caches m !! r_topic_name r with
      | None => lift_outcome (Panic "reader without a topic cache")
      | Some tc =>
          res ← lift_outcome (h (clock (mr_ticks m)) (clock (S (mr_ticks m))) (mkRS r tc));
          let st' := res.1.2 in
          _ ← modify_st (fun m => mkReceiver (<[eid := rs_reader st']> (available_readers m)) (own_guid_prefix m)
                (mr_source m) (<[r_topic_name r := rs_cache st']> (mr_caches m)) (S (S (mr_ticks m))));
          act_for res.2 (fun ev => emit_ev (MREvReader eid ev))
      end
  end.

(** A fragment with more data than it has room for is dropped. *)
Definition decode_and_handle_datafrag (now later : Timestamp) (datafrag : DataFrag) (flags : Z)
    (mr_state : MessageReceiverState) : R unit :=
  if u64 (fragments_in_submessage datafrag * fragment_size datafrag) <? Z.of_nat (length (df_serialized_payload datafrag))
  then mret tt
  else handle_datafrag_msg now later datafrag flags mr_state.

(** What the target reader does with a writer submessage. *)
Definition reader_handler (sm : Submessage) (mr_state : MessageReceiverState) (now later : Timestamp) : R unit :=
  match sm_body sm with
  | SmData data => handle_data_msg now later data (sm_flags sm) mr_state
  | SmHeartbeat heartbeat =>
      _ ← handle_heartbeat_msg heartbeat (contains (sm_flags sm) HEARTBEAT_Final) mr_state; mret tt
  | SmGap gap => handle_gap_msg gap mr_state
  | SmDataFrag datafrag => decode_and_handle_datafrag now later datafrag (sm_flags sm) mr_state
  | SmHeartbeatFrag heartbeatfrag => handle_heartbeatfrag_msg heartbeatfrag mr_state
  | _ => mret tt
  end.

Definition for_this_participant (m : MessageReceiver) : bool :=
  bool_decide (dest_guid_prefix (mr_source m) = own_guid_prefix m)
  || bool_decide (dest_guid_prefix (mr_source m) = GuidPrefix_UNKNOWN).

Definition handle_writer_submessage (target_reader_entity_id : EntityId) (sm : Submessage) : MR unit :=
  m ← get_st;
  if negb (for_this_participant m) then mret tt
  else
    let mr_state := clone_partial_message_receiver_state (mr_source m) in
    match available_readers m !! target_reader_entity_id with
    | None => mret tt
    | Some _ =>
        _ ← with_reader target_reader_entity_id (reader_handler sm mr_state);
        match sm_body sm with
        | SmData data =>
            if decide (data_writer_id data = SPDP_BUILTIN_PARTICIPANT_WRITER /\
                       target_reader_entity_id = SPDP_BUILTIN_PARTICIPANT_READER)
            then emit_ev (MREvSpdpLiveness (mrs_source_guid_prefix mr_state))
            else mret tt
        | _ => mret tt
        end
    end.

(** The readers a submessage without a receiver is offered to. *)
Definition accepts_from (sending_writer_entity_id : EntityId) (target_reader : Reader) : bool :=
  contains_writer target_reader sending_writer_entity_id
  || (bool_decide (sending_writer_entity_id = SPDP_BUILTIN_PARTICIPANT_WRITER)
      && bool_decide (r_entity_id target_reader = SPDP_BUILTIN_PARTICIPANT_READER))
  || (bool_decide (sending_writer_entity_id = P2P_BUILTIN_PARTICIPANT_STATELESS_WRITER)
      && bool_decide (r_entity_id target_reader = P2P_BUILTIN_PARTICIPANT_STATELESS_READER)).
Definition available_target_entity_ids (m : MessageReceiver) (sending_writer_entity_id : EntityId) : list EntityId :=
  r_entity_id <$> filter (fun r => accepts_from sending_writer_entity_id r = true) (bt_values (available_readers m)).

(** A NACKFRAG is accepted and nothing is done with it. *)
Definition handle_reader_submessage (b : SubmessageBody) : MR unit :=
  m ← get_st;
  if negb (for_this_participant m) then mret tt
  else
    match b with
    | SmAckNack acknack => emit_ev (MREvAckNack (source_guid_prefix (mr_source m)) acknack)
    | _ => mret tt
    end.

Definition handle_submessage (sm : Submessage) : MR unit :=
  match writer_submessage_ids (sm_body sm) with
  | Some (receiver_entity_id, sender_entity_id) =>
      if decide (receiver_entity_id = EntityId_UNKNOWN) then
        m ← get_st;
        act_for (available_target_entity_ids m sender_entity_id)
          (fun target_entity_id => handle_writer_submessage target_entity_id sm)
      else handle_writer_submessage receiver_entity_id sm
  | None =>
      match sm_body sm with
      | SmAckNack _ | SmNackFrag _ => handle_reader_submessage (sm_body sm)
      | _ => modify_st (fun m => mr_set_source m (handle_interpreter_submessage (own_guid_prefix m) sm (mr_source m)))
      end
  end.

Definition count_submessage : MR unit :=
  modify_st (fun m =>
    let s := mr_source m in
    mr_set_source m (mkSource (source_version s) (source_vendor_id s) (source_guid_prefix s) (dest_guid_prefix s)
      (unicast_reply_locator_list s) (multicast_reply_locator_list s) (mr_source_timestamp s)
      (u64 (submessage_count s + 1)))).

Definition handle_parsed_message (rtps_message : Message) : MR unit :=
  let h := header rtps_message in
  _ ← modify_st MessageReceiver_reset;
  _ ← modify_st (fun m => mr_set_source m
        (mkSource (h_protocol_version h) (h_vendor_id h) (h_guid_prefix h) (own_guid_prefix m)
           (unicast_reply_locator_list (mr_source m)) (multicast_reply_locator_list (mr_source m))
           (mr_source_timestamp (mr_source m)) (submessage_count (mr_source m))));
  act_for (submessages rtps_message) (fun submessage =>
    _ ← handle_submessage submessage; count_submessage).

Definition RTPS_MESSAGE_HEADER_SIZE : nat := 20.

(** A short packet is at most a ping, which is not answered. *)
Definition handle_received_packet (msg_bytes : bytes) : MR unit :=
  if (length msg_bytes <? RTPS_MESSAGE_HEADER_SIZE)%nat then mret tt
  else
    rtps_message ← lift_outcome (Message_read_from_buffer LittleEndian msg_bytes);
    match rtps_message with
    | None => mret tt
    | Some rtps_message => handle_parsed_message rtps_message
    end.

Definition notify_data_to_readers (readers : list EntityId) : MR unit :=
  act_for readers (fun eid => with_reader eid (fun _ _ => notify_cache_change)).

Definition receiver_send_preemptive_acknacks : MR unit :=
  m ← get_st;
  act_for (bt_keys (available_readers m)) (fun eid => with_reader eid (fun _ _ => send_preemptive_acknacks)).
End receiver.
