(* ===== verification/ReaderCorrect.v ===== *)
(** * Correctness of the stateful reader

    Every sample is stored once and acknowledged only then; an ACKNACK says
    exactly what the reader still lacks; a GAP is believed and nothing more; no
    well-formed input makes the reader panic. *)

From S2P Require Import Prelude BTree Wire SequenceNumbers Time Guid Locator WriterProxy ParameterList Qos StatusEvents Payload Submessages Headers MessageBuilder InlineQos FragmentAssembler DdsCache Reader.

(** ** Rules for the primitives *)

Lemma wp_get_reader st (Q : Reader -> ReaderState -> list ReaderEvent -> Prop) :
  Q (rs_reader st) st [] -> wp get_reader st Q.
Proof. done. Qed.

Lemma wp_modify_reader f st (Q : unit -> ReaderState -> list ReaderEvent -> Prop) :
  Q tt (mkRS (f (rs_reader st)) (rs_cache st)) [] -> wp (modify_reader f) st Q.
Proof. done. Qed.

Lemma wp_set_cache tc st (Q : unit -> ReaderState -> list ReaderEvent -> Prop) :
  Q tt (mkRS (rs_reader st) tc) [] -> wp (set_cache tc) st Q.
Proof. done. Qed.

Ltac rd_step :=
  cbv beta;
  lazymatch goal with
  | |- wp (mbind _ _) _ _ => apply wp_bind
  | |- wp get_reader _ _ => apply wp_get_reader
  | |- wp (modify_reader _) _ _ => apply wp_modify_reader
  | |- wp (set_cache _) _ _ => apply wp_set_cache
  | |- wp notify_cache_change _ _ => apply wp_emit
  | |- wp (emit_ev _) _ _ => apply wp_emit
  | |- wp get_st _ _ => apply wp_get
  | |- wp (mret _) _ _ => apply wp_ret
  end; cbn [rs_reader rs_cache app].
Ltac rd_steps := repeat rd_step.

(** ** Invariants *)

(** A buffer under assembly: a bit for every fragment, and one of them missing. *)
Definition ab_inv (ab : AssemblyBuffer) : Prop :=
  Z.of_nat (length (received_bitmap ab)) = fragment_count ab /\ fragment_count ab < 2 ^ 32 - 1 /\
  AssemblyBuffer_is_complete ab = false.
Definition fa_inv (fa : FragmentAssembler) : Prop :=
  forall sn ab, assembly_buffers fa !! sn = Some ab -> ab_inv ab.

Definition writers_inv (m : gmap GUID RtpsWriterProxy) : Prop :=
  forall g p, m !! g = Some p -> wp_inv p /\ wp_remote_writer_guid p = g.

Definition reader_inv (st : ReaderState) : Prop :=
  tc_inv (rs_cache st) /\ writers_inv (matched_writers (rs_reader st)) /\
  (forall g fa, fragment_assemblers (rs_reader st) !! g = Some fa -> fa_inv fa).

Lemma writers_inv_insert m g p :
  writers_inv m -> wp_inv p -> wp_remote_writer_guid p = g -> writers_inv (<[g := p]> m).
Proof. intros Hm Hp Hg g' p'. rewrite lookup_insert_Some. intros [[<- <-]|[_ ?]]; [done|by apply Hm]. Qed.

Lemma writers_inv_delete m g : writers_inv m -> writers_inv (delete g m).
Proof. intros Hm g' p' [_ ?]%lookup_delete_Some. by apply Hm. Qed.

Lemma tc_inv_mark tc g sn : tc_inv tc -> tc_inv (mark_reliably_received_before tc g sn).2.
Proof. done. Qed.

(** The clock has not gone back since the cache was last collected. *)
Definition clock_ok (now : Timestamp) (tc : TopicCache) : Prop :=
  kle (changes_reallocated_up_to tc) (Timestamp_sub_duration now (Duration_from_secs 5)).

(** The identity of a proxy is fixed. *)
Lemma guid_advance p : wp_remote_writer_guid (advance_ack_base p) = wp_remote_writer_guid p.
Proof. done. Qed.

Lemma guid_received p sn ts : wp_remote_writer_guid (received_changes_add p sn ts) = wp_remote_writer_guid p.
Proof. unfold received_changes_add. by repeat case_match. Qed.

Lemma guid_irrelevant p sn : wp_remote_writer_guid (set_irrelevant_change p sn) = wp_remote_writer_guid p.
Proof. unfold set_irrelevant_change. by repeat case_match. Qed.

Lemma guid_irrelevant_range p a b p' :
  irrelevant_changes_range p a b = Ret p' -> wp_remote_writer_guid p' = wp_remote_writer_guid p.
Proof.
  unfold irrelevant_changes_range. repeat case_match; [by intros [= <-]..|].
  intros (l & _ & [= <-])%bind_Ret. done.
Qed.

(** ** Samples *)

(** What the cache holds of a sample that was just processed. *)
Definition stored (tc tc' : TopicCache) (instant : Timestamp) (cc : CacheChange) : Prop :=
  is_Some (find_by_sn tc' cc) /\
  (find_by_sn tc cc = None -> find_by_sn tc' cc = Some instant /\ tc_changes tc' !! instant = Some cc).

Lemma stored_mark tc tc' instant cc g sn :
  stored tc tc' instant cc -> stored tc (mark_reliably_received_before tc' g sn).2 instant cc.
Proof. done. Qed.

Section data.
Context (later now : Timestamp) (d : DDSData) (wo : WriteOptions) (g : GUID) (sn : SequenceNumber).
Let cc := mkCacheChange g sn wo d.

(** A sample of a matched writer that the reader does not have: it is recorded
    in the proxy, stored, and the marker of the cache follows the proxy. *)
Lemma process_new_sample st p :
  reader_inv st -> clock_ok later (rs_cache st) -> r_like_stateless (rs_reader st) = false ->
  matched_writers (rs_reader st) !! g = Some p -> sn < i64_max ->
  should_ignore_change p sn && negb (bool_decide (r_entity_id (rs_reader st) = SPDP_BUILTIN_PARTICIPANT_READER)) = false ->
  wp (process_received_data later d now wo g sn) st (fun _ st' evs =>
    evs = [REvNotify] /\ reader_inv st' /\ stored (rs_cache st) (rs_cache st') now cc /\
    let p' := received_changes_add p sn now in
    rs_reader st' = r_set_writers (rs_reader st) (<[g := p']> (matched_writers (rs_reader st))) /\
    received_reliably_before (rs_cache st') !! g = Some (all_ackable_before p')).
Proof.
  intros (Htc & Hw & Hf) Hclk Hsl Hp Hsn Hacc. destruct (Hw _ _ Hp) as [Hpi Hpg].
  destruct (received_changes_add_spec p sn now Hpi Hsn) as (Hpi' & _).
  destruct (add_change_spec later (rs_cache st) now cc Htc Hclk) as (tc' & Eadd & Htc' & Hst1 & Hst2 & _).
  unfold process_received_data, accept_sample. rd_steps. rewrite Hsl, Hp, Hacc.
  rd_steps. unfold make_cache_change. rd_steps.
  eapply wp_lift; [exact Eadd|]. cbn [app rs_reader r_like_stateless r_set_writers]. rewrite Hsl.
  cbn [negb matched_writers r_set_writers]. rewrite lookup_insert_eq. rd_steps.
  split; [done|]. split; [|split; [done|split; [done|simpl; by rewrite lookup_insert_eq]]].
  split; [done|]. split; [|done]. apply writers_inv_insert; [done|done|by rewrite guid_received].
Qed.

Lemma process_known_sample st p :
  r_like_stateless (rs_reader st) = false -> matched_writers (rs_reader st) !! g = Some p ->
  should_ignore_change p sn && negb (bool_decide (r_entity_id (rs_reader st) = SPDP_BUILTIN_PARTICIPANT_READER)) = true ->
  process_received_data later d now wo g sn st = Ret (tt, st, []).
Proof.
  intros Hsl Hp Hign. unfold process_received_data, accept_sample, get_reader, mbind, act_bind, get_st. simpl.
  by rewrite Hsl, Hp, Hign.
Qed.

(** From a writer without a proxy: user data is dropped, built-in data stored. *)
Lemma process_unmatched_sample st :
  reader_inv st -> clock_ok later (rs_cache st) ->
  r_like_stateless (rs_reader st) = true \/ matched_writers (rs_reader st) !! g = None ->
  wp (process_received_data later d now wo g sn) st (fun _ st' evs =>
    reader_inv st' /\ rs_reader st' = rs_reader st /\
    if negb (r_like_stateless (rs_reader st)) && EntityKind_is_user_defined (entity_kind (entity_id g))
    then st' = st /\ evs = []
    else stored (rs_cache st) (rs_cache st') now cc /\ evs = [REvNotify]).
Proof.
  intros (Htc & Hw & Hf) Hclk Hm.
  destruct (add_change_spec later (rs_cache st) now cc Htc Hclk) as (tc' & Eadd & Htc' & Hst1 & Hst2 & _).
  assert (wp (_ ← make_cache_change later d now wo g sn; notify_cache_change) st (fun _ st' evs =>
    reader_inv st' /\ rs_reader st' = rs_reader st /\ stored (rs_cache st) (rs_cache st') now cc /\ evs = [REvNotify])) as Hmk.
  { unfold make_cache_change. rd_steps. eapply wp_lift; [exact Eadd|]. rd_steps.
    destruct (r_like_stateless (rs_reader st)) eqn:Esl; simpl;
      [|destruct Hm as [?|Hm]; [done|rewrite Hm]]; done. }
  unfold process_received_data, accept_sample. rd_steps.
  destruct (r_like_stateless (rs_reader st)) eqn:Esl; simpl.
  - rd_step. exact Hmk.
  - destruct Hm as [?|Hm]; [done|]. rewrite Hm. rd_step.
    destruct (EntityKind_is_user_defined _); simpl; [|exact Hmk]. rd_step. done.
Qed.
End data.

(** ** Acknowledgments *)

Lemma take_while_sorted b l : StronglySorted Z.lt l -> take_while (fun sn => sn <? b) l = filter (fun sn => sn < b) l.
Proof.
  induction 1 as [|x l Hl IH Hx]; simpl; [done|]. rewrite filter_cons.
  destruct (Z.ltb_spec x b); [rewrite decide_True by done; by rewrite IH|].
  rewrite decide_False by lia. symmetry. apply list_filter_none. rewrite Forall_forall in Hx.
  intros y ?%Hx. lia.
Qed.

(** The numbers of an advertised range a reader asks for: those it has not
    handled, as far as one ACKNACK reaches. *)
Definition wanted (p : RtpsWriterProxy) (f l sn : SequenceNumber) : Prop :=
  f <= sn <= l /\ ~ handled p sn /\ sn < all_ackable_before p + 256.

#[export] Instance wanted_dec p f l sn : Decision (wanted p f l sn).
Proof. unfold wanted. apply _. Defined.

(** What [missing_seqnums] returns. *)
Definition missing_of (p : RtpsWriterProxy) (f l : SequenceNumber) : list SequenceNumber :=
  filter (fun s => ~ handled p s) (seqZ f (l - f + 1)).

Section missing.
Context (p : RtpsWriterProxy) (f l : SequenceNumber).
Context (Hp : wp_inv p) (Hf : f <= ack_base p) (Hl : l <= i64_max - 256).

Lemma elem_of_missing sn : sn ∈ missing_of p f l <-> f <= sn <= l /\ ~ handled p sn.
Proof. unfold missing_of. rewrite list_elem_of_filter, elem_of_seqZ. naive_solver lia. Qed.

Lemma missing_sorted : StronglySorted Z.lt (missing_of p f l).
Proof. apply StronglySorted_filter, seqZ_sorted. Qed.

(** The first missing number is the least not handled. *)
Lemma missing_head x xs : missing_of p f l = x :: xs -> x = ack_base p.
Proof.
  intros E. assert (x ∈ missing_of p f l) as [Hr Hn]%elem_of_missing by (rewrite E; set_solver).
  pose proof (ack_base_least _ _ Hp Hn).
  assert (ack_base p ∈ missing_of p f l) as Hb by (apply elem_of_missing; split; [lia|by apply ack_base_not_handled]).
  pose proof missing_sorted as Hs. rewrite E in Hb, Hs. apply elem_of_cons in Hb as [->|Hb]; [done|].
  apply StronglySorted_cons in Hs as [Hs _]. rewrite Forall_forall in Hs. specialize (Hs _ Hb). lia.
Qed.

Lemma nackable_wanted : missing_of p f l <> [] ->
  nackable (missing_of p f l) (ack_base p) = filter (wanted p f l) (seqZ f (l - f + 1)).
Proof.
  destruct (missing_of p f l) as [|x xs] eqn:E; [done|]. intros _. rewrite <- E.
  pose proof (missing_head _ _ E) as ->.
  assert (ack_base p ∈ missing_of p f l) as [? _]%elem_of_missing by (rewrite E; set_solver).
  unfold nackable, SequenceNumber_add, SequenceNumber_new.
  rewrite wrap_s_id by (destruct Hp; bounds_lia). rewrite take_while_sorted by apply missing_sorted.
  unfold missing_of. rewrite list_filter_filter. apply list_filter_ext. intros sn Hsn%elem_of_seqZ.
  unfold wanted, all_ackable_before. naive_solver lia.
Qed.

Lemma reader_sn_state_for_spec r g :
  exists set, reader_sn_state_for r g p (missing_of p f l) =
      Ret (set, filter (fun sn => is_frag_partially_received r g sn = true) (filter (wanted p f l) (seqZ f (l - f + 1)))) /\
    ns_shape set /\ ns_in_range set /\ bitmap_base set = all_ackable_before p /\
    forall sn, ns_mem set sn <-> wanted p f l sn /\ is_frag_partially_received r g sn = false.
Proof.
  assert (forall sn, wanted p f l sn -> sn ∈ missing_of p f l) as Hwm
    by (intros sn (? & ? & ?); by apply elem_of_missing).
  unfold reader_sn_state_for. destruct (missing_of p f l) as [|x xs] eqn:E; cbn [head].
  - destruct (NumberSet_new_shape (k:=KSequence) (all_ackable_before p) 0) as [Hsh Hemp]; [lia|].
    eexists. split.
    { rewrite (list_filter_none (wanted p f l)); [done|]. intros sn _ Hw%Hwm. set_solver. }
    split; [done|]. split; [unfold ns_in_range; destruct Hp; simpl; unfold all_ackable_before; lia|]. split; [done|].
    intros sn. split; [intros ?%Hemp; done|]. intros [Hw%Hwm _]. set_solver.
  - pose proof (missing_head _ _ E) as ->. rewrite <- E, nackable_wanted by (by rewrite E).
    edestruct (from_base_and_set_above (k:=KSequence) (ack_base p)) as (s & -> & Hsh & Hr & Hb & Hm).
    { destruct Hp; simpl; lia. }
    { intros sn. rewrite elem_of_list_to_set, !list_elem_of_filter. intros (_ & (Hw & Hnh & _) & _).
      pose proof (ack_base_least _ _ Hp Hnh). simpl. lia. }
    exists s. cbn [mbind outcome_bind]. split; [done|]. split; [done|]. split; [done|]. split; [done|]. intros sn.
    rewrite Hm, elem_of_list_to_set, !list_elem_of_filter, elem_of_seqZ. unfold wanted, all_ackable_before. naive_solver lia.
Qed.
End missing.

(** *** NACKFRAG *)

Lemma elem_of_missing_frags fa sn ab k :
  assembly_buffers fa !! sn = Some ab -> Z.of_nat (length (received_bitmap ab)) = fragment_count ab ->
  k ∈ missing_frags_for fa sn <-> 1 <= k /\ received_bitmap ab !! Z.to_nat (k - 1) = Some false.
Proof.
  intros E Hlen. unfold missing_frags_for, FragmentNumber_new. rewrite E, list_elem_of_fmap.
  setoid_rewrite list_elem_of_filter. setoid_rewrite elem_of_seqZ. split.
  - intros (i & -> & Hd & Hi). split; [lia|]. replace (i + 1 - 1) with i by lia.
    destruct (received_bitmap ab !! Z.to_nat i) eqn:El; simpl in Hd; congruence.
  - intros [Hk Hb]. pose proof (lookup_lt_Some _ _ _ Hb). exists (k - 1). rewrite Hb. split_and!; (done || lia).
Qed.

Lemma missing_frags_nonempty fa sn ab :
  assembly_buffers fa !! sn = Some ab -> ab_inv ab -> missing_frags_for fa sn <> [].
Proof.
  intros E (Hlen & _ & Hc) Hn. unfold AssemblyBuffer_is_complete in Hc.
  assert (exists i, received_bitmap ab !! i = Some false) as [i Hi].
  { clear -Hc. induction (received_bitmap ab) as [|[] bm IH]; simpl in Hc; [done| |by exists 0%nat].
    destruct (IH Hc) as [i ?]. by exists (S i). }
  assert (Z.of_nat i + 1 ∈ missing_frags_for fa sn) as H; [|rewrite Hn in H; set_solver].
  apply (elem_of_missing_frags _ _ _ _ E Hlen). replace (Z.to_nat (Z.of_nat i + 1 - 1)) with i by lia. split; [lia|done].
Qed.

Lemma missing_frags_sorted fa sn : StronglySorted Z.lt (missing_frags_for fa sn).
Proof.
  unfold missing_frags_for. destruct (_ !! sn) as [ab|]; [|constructor].
  induction (StronglySorted_filter Z.lt (fun f => default true (received_bitmap ab !! Z.to_nat f) = false) _
    (seqZ_sorted 0 (fragment_count ab))) as [|x l Hl IH Hx]; csimpl; [constructor|].
  constructor; [done|]. rewrite Forall_forall in Hx |- *. intros y (z & -> & Hz)%list_elem_of_fmap.
  specialize (Hx _ Hz). unfold FragmentNumber_new. lia.
Qed.

(** A NACKFRAG asks for the missing fragments of its sample, from the first on,
    as far as it reaches. *)
Definition nackfrag_reports (r : Reader) (g : GUID) (nf : NackFrag) : Prop :=
  let missing := Reader_missing_frags_for r g (nf_writer_sn nf) in
  nf_reader_id nf = r_entity_id r /\ nf_writer_id nf = entity_id g /\
  head missing = Some (bitmap_base (fragment_number_state nf)) /\
  forall k, ns_mem (fragment_number_state nf) k <-> k ∈ missing /\ k < bitmap_base (fragment_number_state nf) + 256.

Definition only_counts (p p' : RtpsWriterProxy) : Prop :=
  exists n, p' = wp_set_counts p (received_heartbeat_count p) n.

Lemma make_nackfrag_spec r g acc p sn :
  (forall fa, fragment_assemblers r !! g = Some fa -> fa_inv fa) -> wp_remote_writer_guid p = g ->
  is_frag_partially_received r g sn = true ->
  exists nf p', make_nackfrag r g (acc, p) sn = Ret (acc ++ [nf], p') /\
    nf_writer_sn nf = sn /\ nackfrag_reports r g nf /\ only_counts p p'.
Proof.
  intros Hinv Hg Hpart. unfold make_nackfrag, nackfrag_reports. cbn [next_ack_nack_sequence_number].
  unfold is_frag_partially_received, Reader_missing_frags_for in *.
  destruct (fragment_assemblers r !! g) as [fa|]; [|done]. specialize (Hinv fa eq_refl).
  unfold is_partially_received in Hpart. apply bool_decide_eq_true in Hpart as [ab Eab].
  pose proof (Hinv _ _ Eab) as (Hlen & Hcnt & _).
  pose proof (missing_frags_nonempty _ _ _ Eab (Hinv _ _ Eab)) as Hne.
  pose proof (missing_frags_sorted fa sn) as Hs.
  assert (forall k, k ∈ missing_frags_for fa sn -> 1 <= k < N_max KFragment) as Hrange.
  { intros k [Hk Hb]%(elem_of_missing_frags _ _ _ _ Eab Hlen). apply lookup_lt_Some in Hb. simpl. lia. }
  destruct (missing_frags_for fa sn) as [|x xs] eqn:El; [done|].
  apply StronglySorted_cons in Hs as [Hs _]. rewrite Forall_forall in Hs.
  edestruct (from_base_and_set_above (k:=KFragment) x (list_to_set (x :: xs))) as (s & -> & _ & _ & Hb & Hm).
  { specialize (Hrange x ltac:(set_solver)). lia. }
  { intros k Hk%elem_of_list_to_set. pose proof (Hrange _ Hk). split; [|lia].
    apply elem_of_cons in Hk as [->|?%Hs]; lia. }
  simpl. eexists _, _. split; [done|]. simpl. rewrite Hg. split; [done|]. split; [|by eexists].
  rewrite El. split_and!; [done|done|by rewrite Hb|]. intros k. rewrite Hm, elem_of_list_to_set, Hb. naive_solver lia.
Qed.

Lemma only_counts_trans p1 p2 p3 : only_counts p1 p2 -> only_counts p2 p3 -> only_counts p1 p3.
Proof. intros [n ->] [m ->]. by exists m. Qed.

Lemma make_nackfrags_spec r g acc p l :
  (forall fa, fragment_assemblers r !! g = Some fa -> fa_inv fa) -> wp_remote_writer_guid p = g ->
  (forall sn, sn ∈ l -> is_frag_partially_received r g sn = true) ->
  exists nfs p', outcome_fold (make_nackfrag r g) (acc, p) l = Ret (acc ++ nfs, p') /\
    nf_writer_sn <$> nfs = l /\ Forall (nackfrag_reports r g) nfs /\ only_counts p p'.
Proof.
  intros Hinv. revert acc p. induction l as [|sn l IH]; intros acc p Hg Hl; cbn [outcome_fold].
  - exists [], p. rewrite app_nil_r. split_and!; [done|done|done|]. exists (sent_ack_nack_count p). by destruct p.
  - destruct (make_nackfrag_spec r g acc p sn Hinv Hg) as (nf & p1 & -> & Hsn & Hr & Hc); [apply Hl; set_solver|].
    simpl. destruct (IH (acc ++ [nf]) p1) as (nfs & p2 & -> & Hsns & Hrs & Hc2).
    { destruct Hc as [n ->]. done. }
    { intros; apply Hl; set_solver. }
    exists (nf :: nfs), p2. rewrite <- app_assoc. split_and!; [done|csimpl; congruence|by constructor|by eapply only_counts_trans].
Qed.

(** *** The reply to a HEARTBEAT *)

(** An ACKNACK acknowledges everything below the least number not handled and
    asks for what is wanted, except the samples some fragments of which are
    there: those are left to NACKFRAG. *)
Definition acknack_reports (r : Reader) (g : GUID) (p : RtpsWriterProxy) (f l : SequenceNumber) (an : AckNack) : Prop :=
  an_reader_id an = r_entity_id r /\ an_writer_id an = entity_id g /\
  bitmap_base (reader_sn_state an) = all_ackable_before p /\
  forall sn, ns_mem (reader_sn_state an) sn <-> wanted p f l sn /\ is_frag_partially_received r g sn = false.

Definition acknack_message (r : Reader) (g : GUID) (an : AckNack) : Message :=
  mkMessage (Header_new (prefix (r_my_guid r)))
    [InfoDestination_create_submessage (prefix g) 1; AckNack_create_submessage an (Z.lor 1 ACKNACK_Final)].
Definition nackfrag_message (r : Reader) (g : GUID) (nfs : list NackFrag) : Message :=
  mkMessage (Header_new (prefix (r_my_guid r)))
    (InfoDestination_create_submessage (prefix g) 1 :: ((fun nf => NackFrag_create_submessage nf 1) <$> nfs)).

(** The reply: NACKFRAGs for the partially received samples that are wanted, if
    any, then one ACKNACK. *)
Definition reply_to_heartbeat (r : Reader) (g : GUID) (p : RtpsWriterProxy) (f l : SequenceNumber)
    (locs : list Locator) (evs : list ReaderEvent) : Prop :=
  exists nfs an,
    evs = (match nfs with [] => [] | _ => [REvSend (nackfrag_message r g nfs) locs] end) ++
          [REvSend (acknack_message r g an) locs] /\
    acknack_reports r g p f l an /\ Forall (nackfrag_reports r g) nfs /\
    forall sn, sn ∈ nf_writer_sn <$> nfs <-> wanted p f l sn /\ is_frag_partially_received r g sn = true.

Lemma only_counts_facts p p' :
  only_counts p p' -> changes p' = changes p /\ ack_base p' = ack_base p /\
    wp_remote_writer_guid p' = wp_remote_writer_guid p /\ received_heartbeat_count p' = received_heartbeat_count p.
Proof. by intros [n ->]. Qed.

Lemma only_counts_inv p p' : only_counts p p' -> wp_inv p -> wp_inv p'.
Proof. intros [n ->]. done. Qed.

Lemma respond_to_heartbeat_spec hb g locs p st :
  wp_inv p -> first_sn hb <= ack_base p -> last_sn hb <= i64_max - 256 -> wp_remote_writer_guid p = g ->
  hb_writer_id hb = entity_id g ->
  (forall fa, fragment_assemblers (rs_reader st) !! g = Some fa -> fa_inv fa) ->
  wp (respond_to_heartbeat hb g (prefix g) locs (missing_of p (first_sn hb) (last_sn hb)) p) st
    (fun p' st' evs => st' = st /\ only_counts p p' /\
       reply_to_heartbeat (rs_reader st) g p (first_sn hb) (last_sn hb) locs evs).
Proof.
  intros Hp Hf Hl Hg Hid Hfa. unfold respond_to_heartbeat. do 2 rd_step.
  destruct (reader_sn_state_for_spec p _ _ Hp Hf Hl (rs_reader st) g) as (set & Eset & _ & _ & Hbase & Hmem).
  rd_step. eapply wp_lift; [exact Eset|]. cbn [app]. cbv beta iota. cbn [next_ack_nack_sequence_number].
  set (p1 := wp_set_counts p _ _).
  destruct (make_nackfrags_spec (rs_reader st) g [] p1
    (filter (fun sn => is_frag_partially_received (rs_reader st) g sn = true)
       (filter (wanted p (first_sn hb) (last_sn hb)) (seqZ (first_sn hb) (last_sn hb - first_sn hb + 1)))))
    as (nfs & p' & Enf & Hsns & Hrep & Hc); [done|done| |].
  { intros sn [? _]%list_elem_of_filter. done. }
  rd_step. eapply wp_lift; [exact Enf|]. cbn [app]. cbv beta iota.
  assert (only_counts p p') as Hc' by (eapply only_counts_trans; [by eexists|exact Hc]).
  assert (reply_to_heartbeat (rs_reader st) g p (first_sn hb) (last_sn hb) locs
    ((match nfs with [] => [] | _ => [REvSend (nackfrag_message (rs_reader st) g nfs) locs] end) ++
     [REvSend (acknack_message (rs_reader st) g
        (mkAckNack (r_entity_id (rs_reader st)) (hb_writer_id hb) set (sent_ack_nack_count p))) locs])) as Hreply.
  { eexists nfs, _. split; [done|]. split; [split_and!; done|]. split; [done|].
    intros sn. rewrite Hsns, !list_elem_of_filter, elem_of_seqZ. unfold wanted. naive_solver lia. }
  destruct nfs as [|nf nfs]; unfold send_nackfrags_to, send_acknack_to; rd_steps; done.
Qed.

(** The proxy after a new HEARTBEAT, before the reply: everything below the
    first available number is handled. *)
Lemma heartbeat_proxy p hb :
  wp_inv p -> i64_min <= first_sn hb <= i64_max ->
  exists p', irrelevant_changes_up_to (wp_set_counts p (hb_count hb) (sent_ack_nack_count p)) (first_sn hb) = Ret p' /\
    wp_adds (fun sn => 0 <= sn < first_sn hb) p p' /\ first_sn hb <= ack_base p' /\
    wp_remote_writer_guid p' = wp_remote_writer_guid p /\ wp_unicast_locator_list p' = wp_unicast_locator_list p.
Proof.
  intros Hp Hf. set (q := wp_set_counts _ _ _).
  destruct (irrelevant_changes_range_spec q 0 (first_sn hb)) as (p' & E & Hinv & Hb & Hh); [exact Hp|bounds_lia|lia|].
  exists p'. split; [exact E|]. split; [done|]. split.
  { destruct (decide (first_sn hb <= ack_base p')); [done|]. exfalso.
    apply (ack_base_not_handled p' Hinv), Hh. right. destruct Hinv. lia. }
  split; [by rewrite (guid_irrelevant_range _ _ _ _ E)|].
  unfold irrelevant_changes_up_to, irrelevant_changes_range in E. revert E.
  repeat case_match; [by intros [= <-]..|]. intros (? & _ & [= <-])%bind_Ret. done.
Qed.

(** What a handler leaves in the reader: the proxy of [g] is [p'], the marker of
    the cache follows it, and nothing else has changed. *)
Definition proxy_updated (st st' : ReaderState) (g : GUID) (p' : RtpsWriterProxy) : Prop :=
  rs_reader st' = r_set_writers (rs_reader st) (<[g := p']> (matched_writers (rs_reader st))) /\
  rs_cache st' = (mark_reliably_received_before (rs_cache st) g (all_ackable_before p')).2.

Lemma proxy_updated_inv st st' g p' :
  reader_inv st -> wp_inv p' -> wp_remote_writer_guid p' = g -> proxy_updated st st' g p' -> reader_inv st'.
Proof.
  intros (Htc & Hw & Hf) Hp Hg [Er Ec]. unfold reader_inv. rewrite Er, Ec.
  split; [done|]. split; [by apply writers_inv_insert|done].
Qed.

(** The marker in the cache has moved on. *)
Definition marker_moves (tc : TopicCache) (g : GUID) (p' : RtpsWriterProxy) : bool :=
  (mark_reliably_received_before tc g (all_ackable_before p')).1.

Lemma heartbeat_worker_spec hb final mrs g st p :
  g = GUID_new (mrs_source_guid_prefix mrs) (hb_writer_id hb) ->
  wp_inv p -> wp_remote_writer_guid p = g -> received_heartbeat_count p < hb_count hb ->
  i64_min <= first_sn hb <= i64_max -> last_sn hb <= i64_max - 256 ->
  (forall fa, fragment_assemblers (rs_reader st) !! g = Some fa -> fa_inv fa) ->
  wp (heartbeat_worker hb final mrs g p) st (fun res st' evs =>
    exists reply, rs_reader st' = rs_reader st /\
      rs_cache st' = (mark_reliably_received_before (rs_cache st) g (all_ackable_before res.2)).2 /\
      wp_adds (fun sn => 0 <= sn < first_sn hb) p res.2 /\ wp_remote_writer_guid res.2 = g /\
      evs = (if marker_moves (rs_cache st) g res.2 then [REvNotify] else []) ++ reply /\
      res.1 = negb (bool_decide (missing_of res.2 (first_sn hb) (last_sn hb) = [])) || negb final /\
      if res.1 : bool
      then reply_to_heartbeat (rs_reader st) g res.2 (first_sn hb) (last_sn hb) (reply_locators mrs p) reply
      else reply = []).
Proof.
  intros Eg Hp Hg Hcount Hf Hl Hfa. unfold heartbeat_worker. destruct (Z.leb_spec (hb_count hb) (received_heartbeat_count p)); [lia|].
  destruct (heartbeat_proxy p hb Hp Hf) as (p1 & E1 & Hadds & Hfirst & Hg1 & _).
  rd_step. eapply wp_lift; [exact E1|]. cbn [app]. rd_step. rd_step.
  destruct (mark_reliably_received_before (rs_cache st) g (all_ackable_before p1)) as [moved tc'] eqn:Emark.
  rd_step. rd_step.
  assert (wp (if moved then notify_cache_change else mret tt) (mkRS (rs_reader st) tc')
    (fun _ st' evs => st' = mkRS (rs_reader st) tc' /\ evs = if moved then [REvNotify] else [])) as Hn by (by destruct moved).
  rd_step. eapply wp_mono; [exact Hn|]. intros [] st1 evs1 [-> ->]. rd_step.
  assert (missing_seqnums p1 (first_sn hb) (last_sn hb) = Ret (missing_of p1 (first_sn hb) (last_sn hb))) as Emiss.
  { apply missing_seqnums_spec; [lia|destruct Hadds as [[] _]; bounds_lia|bounds_lia]. }
  eapply wp_lift; [exact Emiss|]. cbn [app].
  assert (moved = marker_moves (rs_cache st) g p1 /\
          tc' = (mark_reliably_received_before (rs_cache st) g (all_ackable_before p1)).2) as [-> ->]
    by (unfold marker_moves; by rewrite Emark).
  destruct (negb (bool_decide (missing_of p1 (first_sn hb) (last_sn hb) = [])) || negb final) eqn:Eans.
  - rd_step. eapply wp_mono.
    { replace (mrs_source_guid_prefix mrs) with (prefix g) by (by rewrite Eg).
      apply respond_to_heartbeat_spec; [by destruct Hadds|done|done|congruence|by rewrite Eg|done]. }
    intros p2 st2 evs2 (-> & [n ->] & Hr). rd_step. exists evs2. rewrite app_nil_r. cbn [fst snd].
    split; [done|]. split; [done|]. split; [done|]. split; [by rewrite <- Hg|]. split; [done|]. split; [done|].
    exact Hr.
  - rd_step. exists []. cbn [fst snd]. rewrite !app_nil_r. split_and!; try done. by rewrite Hg1.
Qed.

Lemma heartbeat_new_spec hb final mrs st p :
  let g := GUID_new (mrs_source_guid_prefix mrs) (hb_writer_id hb) in
  reader_inv st -> r_reliability (rs_reader st) <> BestEffort -> r_like_stateless (rs_reader st) = false ->
  matched_writers (rs_reader st) !! g = Some p -> received_heartbeat_count p < hb_count hb ->
  i64_min <= first_sn hb <= i64_max -> last_sn hb <= i64_max - 256 ->
  wp (handle_heartbeat_msg hb final mrs) st (fun answered st' evs =>
    exists p' reply, reader_inv st' /\ proxy_updated st st' g p' /\ wp_adds (fun sn => 0 <= sn < first_sn hb) p p' /\
      evs = (if marker_moves (rs_cache st) g p' then [REvNotify] else []) ++ reply /\
      answered = negb (bool_decide (missing_of p' (first_sn hb) (last_sn hb) = [])) || negb final /\
      if answered : bool
      then reply_to_heartbeat (rs_reader st) g p' (first_sn hb) (last_sn hb) (reply_locators mrs p) reply
      else reply = []).
Proof.
  intros g Hinv Hrel Hsl Hm Hcount Hf Hl. pose proof Hinv as (Htc & Hw & Hfa). destruct (Hw _ _ Hm) as [Hp Hg].
  unfold handle_heartbeat_msg. do 2 rd_step. rewrite bool_decide_eq_false_2, Hsl by done. cbn [orb].
  fold g. rewrite bool_decide_eq_true_2 by (by rewrite Hm). cbn [negb].
  unfold with_mutable_writer_proxy. do 3 rd_step. rewrite Hm. rd_step. rd_step. rd_step.
  eapply wp_mono; [apply (heartbeat_worker_spec hb final mrs g); [done|done|done|done|done|done|]|].
  { intros fa. apply Hfa. }
  intros [ans p'] st' evs (reply & Er & Ec & Hadds & Hg' & Eevs & Hans & Hr). cbn [fst snd] in *.
  do 3 rd_step. rewrite Er. cbn [matched_writers r_set_writers rs_reader].
  rewrite bool_decide_eq_true_2 by apply lookup_delete_eq.
  eapply wp_lift; [reflexivity|]. rd_steps.
  assert (proxy_updated st (mkRS (r_set_writers (rs_reader st') (<[g := p']> (matched_writers (rs_reader st')))) (rs_cache st')) g p') as Hu.
  { split; cbn [rs_reader rs_cache]; [|exact Ec]. rewrite Er. cbn [matched_writers r_set_writers].
    unfold r_set_writers; simpl. by rewrite insert_delete_eq. }
  exists p', reply. rewrite !app_nil_r. split.
  { eapply proxy_updated_inv; [exact Hinv|by destruct Hadds|exact Hg'|exact Hu]. }
  split; [done|]. split; [done|]. split; [done|]. split; [done|]. destruct ans; exact Hr.
Qed.

(** ** Gaps *)

Lemma wp_adds_trans (S T : SequenceNumber -> Prop) p1 p2 p3 :
  wp_adds S p1 p2 -> wp_adds T p2 p3 -> wp_adds (fun sn => S sn \/ T sn) p1 p3.
Proof.
  intros (_ & Hb1 & Hh1) (Hi & Hb2 & Hh2). split; [done|]. split; [lia|]. intros sn. rewrite Hh2, Hh1. tauto.
Qed.

Lemma set_irrelevant_all p sns :
  wp_inv p -> (forall sn, sn ∈ sns -> sn < i64_max) -> wp_adds (fun sn => sn ∈ sns) p (foldl set_irrelevant_change p sns).
Proof.
  revert p. induction sns as [|x sns IH]; intros p Hp Hsns; simpl.
  { apply wp_adds_same; [done..|]. set_solver. }
  pose proof (set_irrelevant_change_spec p x Hp (Hsns x ltac:(set_solver))) as H1.
  pose proof (IH _ (proj1 H1) ltac:(set_solver)) as H2.
  destruct (wp_adds_trans _ _ _ _ _ H1 H2) as (Hi & Hb & Hh).
  split; [done|]. split; [done|]. intros sn. rewrite Hh. set_solver.
Qed.

Lemma guid_irrelevant_all p sns : wp_remote_writer_guid (foldl set_irrelevant_change p sns) = wp_remote_writer_guid p.
Proof. revert p. induction sns as [|x sns IH]; intros p; simpl; [done|]. by rewrite IH, guid_irrelevant. Qed.

(** A GAP as the deserializer lets it through, with numbers that do not wrap. *)
Definition gap_ok (gap : Gap) : Prop := ns_shape (gap_list gap) /\ ns_in_range (gap_list gap).

Lemma gap_spec gap mrs st p :
  let g := GUID_new (mrs_source_guid_prefix mrs) (gap_writer_id gap) in
  reader_inv st -> r_like_stateless (rs_reader st) = false -> matched_writers (rs_reader st) !! g = Some p ->
  gap_ok gap -> 0 < gap_start gap -> 0 < bitmap_base (gap_list gap) ->
  wp (handle_gap_msg gap mrs) st (fun _ st' evs =>
    exists p', reader_inv st' /\ proxy_updated st st' g p' /\ wp_adds (gap_declares gap) p p' /\
      evs = if marker_moves (rs_cache st) g p' then [REvNotify] else []).
Proof.
  intros g Hinv Hsl Hm [Hsh Hr] Hs Hb. pose proof Hinv as (Htc & Hw & Hfa). destruct (Hw _ _ Hm) as [Hp Hg].
  unfold handle_gap_msg. do 2 rd_step. rewrite Hsl. fold g. rewrite Hm. unfold SequenceNumber_new, NumberSet_base.
  destruct (Z.leb_spec (gap_start gap) 0); [lia|]. destruct (Z.leb_spec (bitmap_base (gap_list gap)) 0); [lia|].
  destruct Hr as [Hr1 Hr2]. simpl in Hr2. pose proof Hsh as (Hnb & _).
  destruct (irrelevant_changes_range_spec p (gap_start gap) (bitmap_base (gap_list gap)) Hp) as (p1 & E1 & Ha1);
    [bounds_lia|lia|].
  rd_step. eapply wp_lift; [exact E1|]. cbn [app].
  destruct (NumberSet_to_list_members (gap_list gap) Hsh ltac:(done)) as (sns & Esns & _ & Hsns).
  rd_step. eapply wp_lift; [exact Esns|]. cbn [app].
  pose proof (set_irrelevant_all p1 sns (proj1 Ha1)) as Ha2.
  specialize (Ha2 ltac:(intros sn [? _]%Hsns; lia)). set (p' := foldl _ _ _) in *.
  assert (wp_adds (gap_declares gap) p p') as Ha.
  { destruct (wp_adds_trans _ _ _ _ _ Ha1 Ha2) as (Hi & Hle & Hh). split; [done|]. split; [done|].
    intros sn. rewrite Hh. unfold gap_declares. by rewrite Hsns. }
  assert (wp_remote_writer_guid p' = g) as Hg'
    by (unfold p'; by rewrite guid_irrelevant_all, (guid_irrelevant_range _ _ _ _ E1)).
  do 4 rd_step.
  assert (forall tc, tc = (mark_reliably_received_before (rs_cache st) g (all_ackable_before p')).2 ->
    proxy_updated st (mkRS (r_set_writers (rs_reader st) (<[g := p']> (matched_writers (rs_reader st)))) tc) g p') as Hu
    by (intros tc ->; done).
  unfold marker_moves. destruct (mark_reliably_received_before (rs_cache st) g (all_ackable_before p')) as [moved tc'] eqn:E.
  specialize (Hu tc' eq_refl). do 2 rd_step.
  assert (reader_inv (mkRS (r_set_writers (rs_reader st) (<[g := p']> (matched_writers (rs_reader st)))) tc')) as Hinv'
    by (eapply proxy_updated_inv; [exact Hinv|by destruct Ha|exact Hg'|exact Hu]).
  destruct moved; rd_step; exists p'; rewrite ?E; (split; [exact Hinv'|]; split; [exact Hu|]; split; [exact Ha|done]).
Qed.
