(* ===== verification/ReaderTheorems.v ===== *)
(** * What the reader guarantees

    The theorems about the whole reader of [src/rtps/reader.rs]. *)

From S2P Require Import Prelude BTree Wire SequenceNumbers Time Guid Locator WriterProxy ParameterList Qos StatusEvents Payload Submessages Headers MessageBuilder InlineQos FragmentAssembler DdsCache Reader ReaderCorrect.

(** ** Fragments that fit the assembler *)

(** A DATAFRAG whose fragments are inside its sample, of the size the assembler
    of its writer was made for, and of the same sample size as the fragments
    received before.  Of these the receiver checks only part. *)
Record frag_ok (fa : FragmentAssembler) (df : DataFrag) : Prop := {
  fo_size : 1 <= fragment_size df < 2 ^ 16 /\ fragment_size df <= data_size df < 2 ^ 32 - 1;
  fo_same_size : fa_fragment_size fa = fragment_size df;
  fo_range : 1 <= fragment_starting_num df <= total_number_of_fragments df /\ 0 <= fragments_in_submessage df < 2 ^ 16 /\
    fragment_starting_num df + fragments_in_submessage df - 1 <= total_number_of_fragments df;
  fo_buffer : forall ab, assembly_buffers fa !! df_writer_sn df = Some ab ->
    Z.of_nat (length (buffer_bytes ab)) = data_size df /\
    Z.of_nat (length (received_bitmap ab)) = total_number_of_fragments df;
}.

Lemma total_bounds df :
  1 <= fragment_size df < 2 ^ 16 -> fragment_size df <= data_size df < 2 ^ 32 - 1 ->
  1 <= total_number_of_fragments df < 2 ^ 32 - 1 /\
  (total_number_of_fragments df - 1) * fragment_size df < data_size df.
Proof.
  intros Hf Hd. unfold total_number_of_fragments, FragmentNumber_new. destruct (Z.ltb_spec (fragment_size df) 1); [lia|].
  rewrite wrap_u_id by (unfold in_u; zcases; Z.to_euclidean_division_equations; nia).
  zcases; Z.to_euclidean_division_equations; nia.
Qed.

Lemma bitvec_set_range_total bm s n :
  0 <= s -> 0 <= n -> s + n <= Z.of_nat (length bm) -> s + n < 2 ^ 64 ->
  exists bm', outcome_fold (fun bm f => bitvec_set bm (u64 (s + f)) true) bm (seqZ 0 n) = Ret bm' /\
              length bm' = length bm.
Proof.
  intros Hs Hn Hlen Hb.
  apply (outcome_fold_ret (fun bm' => length bm' = length bm)); [done|].
  intros bm1 f E Hf%elem_of_seqZ. rewrite wrap_u_id by (unfold in_u; lia).
  rewrite bitvec_set_in by lia. eexists; split; [done|]. by rewrite length_insert.
Qed.

Lemma insert_frags_total now ab df :
  1 <= fragment_size df < 2 ^ 16 -> fragment_size df <= data_size df < 2 ^ 32 - 1 ->
  1 <= fragment_starting_num df <= total_number_of_fragments df -> 0 <= fragments_in_submessage df < 2 ^ 16 ->
  fragment_starting_num df + fragments_in_submessage df - 1 <= total_number_of_fragments df ->
  Z.of_nat (length (buffer_bytes ab)) = data_size df ->
  Z.of_nat (length (received_bitmap ab)) = total_number_of_fragments df ->
  Z.of_nat (length (df_serialized_payload df)) < 2 ^ 63 ->
  exists ab', insert_frags now ab df (fragment_size df) = Ret ab' /\
    length (received_bitmap ab') = length (received_bitmap ab) /\ fragment_count ab' = fragment_count ab.
Proof.
  intros Hfs Hds Hst Hn Hend Hbuf Hbm Hpl. destruct (total_bounds df Hfs Hds) as [Ht Hlast].
  set (fs := fragment_size df) in *. set (s := fragment_starting_num df - 1).
  assert (0 <= s * fs < data_size df) as Hfrom by (unfold s; nia).
  assert (0 <= fragments_in_submessage df * fs < 2 ^ 32) as Hlen by nia.
  unfold insert_frags. fold s. rewrite (wrap_u_id 64 s) by (unfold in_u, s; lia).
  rewrite (wrap_u_id 64 (s * fs)) by (unfold in_u; lia).
  rewrite (wrap_u_id 64 (fragments_in_submessage df * fs)) by (unfold in_u; lia).
  rewrite (wrap_u_id 64 (s * fs + _)) by (unfold in_u; lia).
  set (t := Z.min _ (Z.of_nat (length (buffer_bytes ab)))).
  assert (s * fs <= t <= data_size df /\ t - s * fs <= Z.of_nat (length (df_serialized_payload df))) as [Ht1 Ht2] by lia.
  rewrite (wrap_u_id 64 (t - s * fs)) by (unfold in_u; lia). rewrite !slice_Ret by lia.
  cbn [mbind outcome_bind]. rewrite !length_take, !length_drop.
  replace (_ =? _)%nat with true by (symmetry; apply Nat.eqb_eq; lia). cbn [rust_assert].
  destruct (bitvec_set_range_total (received_bitmap ab) s (fragments_in_submessage df)) as (bm' & Ebm & Hbm');
    [unfold s; lia|lia|unfold s; lia|unfold s; lia|].
  rewrite Ebm. eexists; split; [done|]. by split.
Qed.

Lemma new_datafrag_total now fa df flags :
  frag_ok fa df -> fa_inv fa -> Z.of_nat (length (df_serialized_payload df)) < 2 ^ 63 ->
  exists res, new_datafrag now fa df flags = Ret res /\ fa_inv res.2.
Proof.
  intros [[Hf Hd] Hsame [Hst [Hn Hend]] Hbuf] Hfa Hpl. destruct (total_bounds df Hf Hd) as [Ht _].
  unfold new_datafrag. rewrite Hsame.
  assert (exists ab, (match assembly_buffers fa !! df_writer_sn df with Some ab => Ret ab | None => AssemblyBuffer_new now df end) = Ret ab /\
    Z.of_nat (length (buffer_bytes ab)) = data_size df /\
    Z.of_nat (length (received_bitmap ab)) = total_number_of_fragments df /\ fragment_count ab = total_number_of_fragments df)
    as (ab & -> & Hab1 & Hab2 & Hab3).
  { destruct (assembly_buffers fa !! df_writer_sn df) as [ab|] eqn:E.
    - exists ab. destruct (Hbuf ab eq_refl) as [? ?]. destruct (Hfa _ _ E) as (? & _). split_and!; (done || lia).
    - unfold AssemblyBuffer_new. destruct (Z.leb_spec (fragment_size df) (data_size df)); [|lia].
      destruct (Z.ltb_spec 0 (fragment_size df)); [|lia]. eexists; split; [done|]; simpl. rewrite !length_replicate. lia. }
  cbn [mbind outcome_bind].
  destruct (insert_frags_total now ab df) as (ab' & -> & Hlen' & Hcnt'); [done..|]. cbn [mbind outcome_bind].
  assert (fa_inv (mkFA (fragment_size df) (delete (df_writer_sn df) (assembly_buffers fa)))) as Hdel
    by (intros sn ab0; simpl; intros [_ ?]%lookup_delete_Some; by eapply Hfa).
  destruct (AssemblyBuffer_is_complete ab') eqn:Ec.
  - destruct (SerializedPayload_from_bytes _); eexists; (split; [done|exact Hdel]).
  - eexists; split; [done|]. intros sn ab0. simpl. rewrite lookup_insert_Some. intros [[_ <-]|[_ ?]]; [|by eapply Hfa].
    unfold ab_inv. split_and!; [congruence|lia|done].
Qed.

Lemma garbage_collect_inv fa t : fa_inv fa -> fa_inv (garbage_collect_before fa t).
Proof. intros Hfa sn ab. simpl. rewrite map_lookup_filter_Some. intros [? _]. by eapply Hfa. Qed.

(** ** Everything that can happen to a reader *)

Inductive ReaderInput :=
| RInData (now later : Timestamp) (data : Data) (flags : Z) (mrs : MessageReceiverState)
| RInDataFrag (now later : Timestamp) (df : DataFrag) (flags : Z) (mrs : MessageReceiverState)
| RInHeartbeat (hb : Heartbeat) (final : bool) (mrs : MessageReceiverState)
| RInGap (gap : Gap) (mrs : MessageReceiverState)
| RInHeartbeatFrag (hf : HeartbeatFrag) (mrs : MessageReceiverState)
| RInTimer (now : Timestamp)
| RInMatched (proxy : RtpsWriterProxy) (offered_qos : QosPolicies)
| RInWriterLost (writer : GUID)
| RInParticipantLost (p : GuidPrefix)
| RInPreemptive.

Definition reader_handle `{SP : Speedy} (i : ReaderInput) : R unit :=
  match i with
  | RInData now later data flags mrs => handle_data_msg now later data flags mrs
  | RInDataFrag now later df flags mrs => handle_datafrag_msg now later df flags mrs
  | RInHeartbeat hb final mrs => _ ← handle_heartbeat_msg hb final mrs; mret tt
  | RInGap gap mrs => handle_gap_msg gap mrs
  | RInHeartbeatFrag hf mrs => handle_heartbeatfrag_msg hf mrs
  | RInTimer now => Reader_handle_timed_event now
  | RInMatched proxy offered_qos => update_writer_proxy proxy offered_qos
  | RInWriterLost writer => remove_writer_proxy writer
  | RInParticipantLost p => Reader_participant_lost p
  | RInPreemptive => send_preemptive_acknacks
  end.

(** Inputs with sequence numbers away from the end of their range, number sets
    as the deserializer returns them, fragments that fit, and a clock that does
    not go back. *)
Definition rinput_ok (st : ReaderState) (i : ReaderInput) : Prop :=
  match i with
  | RInData _ later data _ _ => clock_ok later (rs_cache st) /\ data_writer_sn data < i64_max
  | RInDataFrag _ later df _ mrs =>
      clock_ok later (rs_cache st) /\ df_writer_sn df < i64_max /\
      Z.of_nat (length (df_serialized_payload df)) < 2 ^ 63 /\
      frag_ok (fragment_assembler_mutable (rs_reader st)
                 (GUID_new (mrs_source_guid_prefix mrs) (df_writer_id df)) (fragment_size df)) df
  | RInHeartbeat hb _ _ => i64_min <= first_sn hb <= i64_max /\ last_sn hb <= i64_max - 256
  | RInGap gap _ => gap_ok gap
  | RInMatched proxy _ => wp_inv proxy
  | _ => True
  end.

(** Acknowledgments and received samples are never taken back. *)
Definition proxies_grow (m m' : gmap GUID RtpsWriterProxy) : Prop :=
  forall g p p', m !! g = Some p -> m' !! g = Some p' ->
    ack_base p <= ack_base p' /\ forall sn, handled p sn -> handled p' sn.

Lemma grow_sub m m' : m' ⊆ m -> proxies_grow m m'.
Proof. intros Hs g p p' H1 H2. pose proof (lookup_weaken _ _ _ _ H2 Hs). simplify_eq. split; [lia|done]. Qed.

Lemma grow_insert S m g p p' :
  m !! g = Some p -> wp_adds S p p' -> proxies_grow m (<[g := p']> m).
Proof.
  intros Hg (_ & Hb & Hh) g' q q' H1. rewrite lookup_insert_Some. intros [[<- <-]|[_ H2]]; simplify_eq.
  - split; [done|]. intros sn ?. apply Hh. by left.
  - split; [lia|done].
Qed.

Lemma grow_fresh m g p' : m !! g = None -> proxies_grow m (<[g := p']> m).
Proof.
  intros Hg g' q q' H1. rewrite lookup_insert_Some. intros [[<- <-]|[_ H2]]; simplify_eq. split; [lia|done].
Qed.

Definition reader_good (st st' : ReaderState) : Prop :=
  reader_inv st' /\ proxies_grow (matched_writers (rs_reader st)) (matched_writers (rs_reader st')).

Lemma reader_good_refl st : reader_inv st -> reader_good st st.
Proof. intros H. split; [done|]. by apply grow_sub. Qed.

Lemma reader_good_same st st' :
  reader_inv st' -> matched_writers (rs_reader st') = matched_writers (rs_reader st) -> reader_good st st'.
Proof. intros H E. split; [done|]. rewrite E. by apply grow_sub. Qed.

Lemma process_received_good later d now wo g sn st :
  reader_inv st -> clock_ok later (rs_cache st) -> sn < i64_max ->
  wp (process_received_data later d now wo g sn) st (fun _ st' _ => reader_good st st').
Proof.
  intros Hinv Hclk Hsn. destruct (r_like_stateless (rs_reader st)) eqn:Esl.
  { eapply wp_mono; [apply process_unmatched_sample; auto|]. simpl. intros _ st' evs (H1 & H2 & _).
    apply reader_good_same; [done|by rewrite H2]. }
  destruct (matched_writers (rs_reader st) !! g) as [p|] eqn:Ep.
  2: { eapply wp_mono; [apply process_unmatched_sample; auto|]. simpl. intros _ st' evs (H1 & H2 & _).
       apply reader_good_same; [done|by rewrite H2]. }
  destruct (should_ignore_change p sn && negb (bool_decide (r_entity_id (rs_reader st) = SPDP_BUILTIN_PARTICIPANT_READER))) eqn:Ei.
  - rewrite wp_run. eexists _, _, _. split; [by eapply process_known_sample|]. by apply reader_good_refl.
  - eapply wp_mono; [by eapply process_new_sample|]. simpl. intros _ st' evs (_ & H1 & _ & H2 & _).
    split; [done|]. rewrite H2. cbn [matched_writers r_set_writers].
    eapply grow_insert; [done|]. apply received_changes_add_spec; [|done]. by apply Hinv in Ep as [? _].
Qed.

Lemma reader_inv_assemblers st fas t :
  reader_inv st -> (forall g fa, fas !! g = Some fa -> fa_inv fa) ->
  reader_inv (mkRS (r_set_assemblers (r_set_gc_time (rs_reader st) t) fas) (rs_cache st)).
Proof. intros (H1 & H2 & H3) Hf. split; [done|]. by split. Qed.

Lemma reader_inv_assembler st g fa :
  reader_inv st -> fa_inv fa ->
  reader_inv (mkRS (r_set_assemblers (rs_reader st) (<[g := fa]> (fragment_assemblers (rs_reader st)))) (rs_cache st)).
Proof.
  intros (H1 & H2 & H3) Hf. split; [done|]. split; [done|]. intros g' fa'. simpl. rewrite lookup_insert_Some.
  intros [[_ <-]|[_ ?]]; [done|by eapply H3].
Qed.

Section totality.
Context `{SP : Speedy}.

Lemma data_good now later data flags mrs st :
  reader_inv st -> clock_ok later (rs_cache st) -> data_writer_sn data < i64_max ->
  wp (handle_data_msg now later data flags mrs) st (fun _ st' _ => reader_good st st').
Proof.
  intros. unfold handle_data_msg. destruct (data_to_dds_data data flags); [by apply process_received_good|].
  rd_step. by apply reader_good_refl.
Qed.

Lemma datafrag_good now later df flags mrs st :
  reader_inv st -> rinput_ok st (RInDataFrag now later df flags mrs) ->
  wp (handle_datafrag_msg now later df flags mrs) st (fun _ st' _ => reader_good st st').
Proof.
  intros Hinv (Hclk & Hsn & Hpl & Hfo). unfold handle_datafrag_msg. do 2 rd_step.
  destruct (lifespan_exceeded _ _ _); [rd_step; by apply reader_good_refl|].
  set (g := GUID_new _ _) in *.
  assert (fa_inv (fragment_assembler_mutable (rs_reader st) g (fragment_size df))) as Hfa.
  { unfold fragment_assembler_mutable. destruct (_ !! g) eqn:E; simpl; [by eapply Hinv|]. by intros sn ab. }
  destruct (new_datafrag_total later _ _ flags Hfo Hfa Hpl) as ([od fa'] & E & Hfa').
  rd_step. eapply wp_lift; [exact E|]. cbn [app fst snd]. do 2 rd_step.
  pose proof (reader_inv_assembler st g fa' Hinv Hfa') as Hinv'. set (st1 := mkRS _ _) in *.
  destruct od as [d|].
  - eapply wp_mono; [by apply process_received_good|]. intros _ st' _ [H1 H2]. by split.
  - unfold garbage_collect_fragments. do 2 rd_step. destruct (is_gt _); rd_step; [|by apply reader_good_same].
    apply reader_good_same; [|done]. apply (reader_inv_assemblers st1); [done|].
    intros g' fa''. rewrite lookup_fmap_Some. intros (fa0 & <- & H0). apply garbage_collect_inv. by eapply Hinv'.
Qed.

(** A HEARTBEAT seen before is ignored. *)
Lemma heartbeat_known hb final mrs st p :
  let g := GUID_new (mrs_source_guid_prefix mrs) (hb_writer_id hb) in
  r_reliability (rs_reader st) <> BestEffort -> r_like_stateless (rs_reader st) = false ->
  matched_writers (rs_reader st) !! g = Some p -> hb_count hb <= received_heartbeat_count p ->
  wp (handle_heartbeat_msg hb final mrs) st (fun _ st' evs => st' = st /\ evs = []).
Proof.
  intros g Hbe Esl Ep Hc.
  unfold handle_heartbeat_msg. do 2 rd_step. rewrite bool_decide_eq_false_2, Esl by done. cbn [orb]. fold g.
  rewrite bool_decide_eq_true_2 by (by rewrite Ep). cbn [negb]. unfold with_mutable_writer_proxy.
  do 3 rd_step. rewrite Ep. do 3 rd_step. unfold heartbeat_worker.
  destruct (Z.leb_spec (hb_count hb) (received_heartbeat_count p)); [|lia]. do 4 rd_step.
  cbn [matched_writers r_set_writers]. rewrite bool_decide_eq_true_2 by apply lookup_delete_eq.
  eapply wp_lift; [reflexivity|]. rd_steps. cbn [snd matched_writers r_set_writers].
  assert (forall r, r_set_writers (r_set_writers r (delete g (matched_writers r))) (<[g := p]> (delete g (matched_writers r)))
    = r_set_writers r (<[g := p]> (matched_writers r))) as E
    by (intros r; unfold r_set_writers; simpl; by rewrite insert_delete_eq).
  rewrite E. rewrite insert_id by done. by destruct st as [[] tc].
Qed.

(** A HEARTBEAT for a reader that keeps no account of the writer is ignored. *)
Lemma heartbeat_not_for_us hb final mrs st :
  r_reliability (rs_reader st) = BestEffort \/ r_like_stateless (rs_reader st) = true \/
  matched_writers (rs_reader st) !! GUID_new (mrs_source_guid_prefix mrs) (hb_writer_id hb) = None ->
  wp (handle_heartbeat_msg hb final mrs) st (fun _ st' evs => st' = st /\ evs = []).
Proof.
  intros H. unfold handle_heartbeat_msg. do 2 rd_step. destruct (bool_decide (r_reliability _ = _) || _) eqn:E; [by rd_step|].
  apply orb_false_iff in E as [E1%bool_decide_eq_false E2]. destruct H as [?|[?|H]]; [done|congruence|].
  rewrite bool_decide_eq_false_2 by (rewrite H; by intros [? ?]). rd_steps; done.
Qed.

Lemma heartbeat_good hb final mrs st :
  reader_inv st -> i64_min <= first_sn hb <= i64_max -> last_sn hb <= i64_max - 256 ->
  wp (handle_heartbeat_msg hb final mrs) st (fun _ st' _ => reader_good st st').
Proof.
  intros Hinv Hf Hl.
  assert (wp (handle_heartbeat_msg hb final mrs) st (fun _ st' evs => st' = st /\ evs = []) ->
    wp (handle_heartbeat_msg hb final mrs) st (fun _ st' _ => reader_good st st')) as Hsame.
  { intros H. eapply wp_mono; [exact H|]. intros ? ? ? [-> _]. by apply reader_good_refl. }
  destruct (decide (r_reliability (rs_reader st) = BestEffort)) as [Hbe|Hbe]; [apply Hsame, heartbeat_not_for_us; auto|].
  destruct (r_like_stateless (rs_reader st)) eqn:Esl; [apply Hsame, heartbeat_not_for_us; auto|].
  destruct (matched_writers (rs_reader st) !! GUID_new (mrs_source_guid_prefix mrs) (hb_writer_id hb)) as [p|] eqn:Ep;
    [|apply Hsame, heartbeat_not_for_us; auto].
  destruct (decide (received_heartbeat_count p < hb_count hb)) as [Hc|Hc].
  - eapply wp_mono; [by eapply heartbeat_new_spec|]. cbv beta. intros ans st' evs (p' & reply & H1 & [H2 _] & H3 & _).
    split; [done|]. rewrite H2. by eapply grow_insert.
  - apply Hsame. eapply heartbeat_known; [done..|lia].
Qed.

(** A GAP that does not start at a positive number is ignored. *)
Lemma gap_ignored gap mrs st :
  ~ (r_like_stateless (rs_reader st) = false /\
     is_Some (matched_writers (rs_reader st) !! GUID_new (mrs_source_guid_prefix mrs) (gap_writer_id gap)) /\
     0 < gap_start gap /\ 0 < bitmap_base (gap_list gap)) ->
  wp (handle_gap_msg gap mrs) st (fun _ st' evs => st' = st /\ evs = []).
Proof.
  intros Hno. unfold handle_gap_msg. do 2 rd_step. destruct (r_like_stateless (rs_reader st)); [by rd_step|].
  destruct (matched_writers (rs_reader st) !! _); [|by rd_step].
  unfold SequenceNumber_new, NumberSet_base. zcases; try (by rd_step). destruct Hno. eauto.
Qed.

Lemma gap_good gap mrs st :
  reader_inv st -> gap_ok gap -> wp (handle_gap_msg gap mrs) st (fun _ st' _ => reader_good st st').
Proof.
  intros Hinv Hok. set (g := GUID_new (mrs_source_guid_prefix mrs) (gap_writer_id gap)).
  destruct (decide (r_like_stateless (rs_reader st) = false /\ is_Some (matched_writers (rs_reader st) !! g) /\
     0 < gap_start gap /\ 0 < bitmap_base (gap_list gap))) as [(Hsl & [p Hp] & H1 & H2)|Hno].
  - eapply wp_mono; [by eapply gap_spec|]. cbv beta. intros _ st' evs (p' & Hi & [Hu _] & Ha & _).
    split; [done|]. rewrite Hu. by eapply grow_insert.
  - eapply wp_mono; [by apply gap_ignored|]. intros ? ? ? [-> _]. by apply reader_good_refl.
Qed.
End totality.

Lemma wp_emit_only {A} (l : list A) (f : A -> ReaderEvent) (st : ReaderState) :
  wp (act_for l (fun x => emit_ev (f x))) st (fun _ st' evs => st' = st /\ evs = f <$> l).
Proof.
  enough (forall l', wp (act_for l (fun x => emit_ev (f x))) st (fun _ st' evs => st' = st /\ l' ++ evs = l' ++ (f <$> l))) as H
    by (eapply wp_mono; [apply (H [])|]; done).
  induction l as [|x l IH]; intros l'; cbn [act_for]; [by rd_step|]. do 2 rd_step.
  eapply wp_mono; [apply (IH [])|]. intros _ st' evs [-> E]. split; [done|]. csimpl. simpl in E. by rewrite E.
Qed.

(** No datagram. *)
Definition quiet (ev : ReaderEvent) : Prop := match ev with REvSend _ _ => False | _ => True end.

(** The timer only counts. *)
Lemma timer_wp now st :
  wp (Reader_handle_timed_event now) st (fun _ st' evs => rs_cache st' = rs_cache st /\ Forall quiet evs /\
    exists n, rs_reader st' = r_set_counts (rs_reader st) (writer_match_count_total (rs_reader st)) n
                                (offered_incompatible_qos_count (rs_reader st))).
Proof.
  unfold Reader_handle_timed_event, handle_requested_deadline_event, calculate_if_requested_deadline_is_missed.
  do 4 rd_step. destruct (deadline (r_qos (rs_reader st))) as [d|] eqn:Ed.
  - destruct (missed_statuses _ _ _ _) as [l c]. do 3 rd_step.
    eapply wp_mono; [apply wp_emit_only|]. intros _ st' evs [-> ->]. unfold set_requested_deadline_check_timer.
    do 2 rd_step. cbn [r_qos r_set_counts]. rewrite Ed. rd_step. split; [done|]. split; [|by eexists].
    apply Forall_app. split; [by apply Forall_fmap, Forall_true|by repeat constructor].
  - rd_steps. unfold set_requested_deadline_check_timer. cbn [act_for]. rd_steps. rewrite Ed. rd_step.
    split; [done|]. split; [constructor|]. exists (requested_deadline_missed_count (rs_reader st)). by destruct st as [[] tc].
Qed.

Lemma timer_good now st :
  reader_inv st -> wp (Reader_handle_timed_event now) st (fun _ st' _ => reader_good st st').
Proof.
  intros (H1 & H2 & H3). eapply wp_mono; [apply timer_wp|]. cbv beta. intros _ st' evs (E1 & _ & n & E2).
  apply reader_good_same; [|by rewrite E2]. unfold reader_inv. by rewrite E1, E2.
Qed.

Lemma matched_good proxy offered st :
  reader_inv st -> wp_inv proxy -> wp (update_writer_proxy proxy offered) st (fun _ st' _ => reader_good st st').
Proof.
  intros Hinv Hp. pose proof Hinv as (Htc & Hw & Hf). unfold update_writer_proxy. do 2 rd_step.
  destruct (r_like_stateless (rs_reader st)); [rd_step; by apply reader_good_refl|].
  destruct (compliance_failure_wrt offered (r_qos (rs_reader st))).
  { rd_steps. by apply reader_good_same. }
  unfold matched_writer_update. do 3 rd_step. destruct (matched_writers (rs_reader st) !! _) as [op|] eqn:E.
  - rd_steps. destruct (Hw _ _ E) as [Ho1 Ho2]. split.
    + split; [done|]. split; [|done]. simpl. apply writers_inv_insert; [done|exact Ho1|by rewrite <- Ho2].
    + simpl. eapply grow_insert; [done|]. apply (wp_adds_same (fun _ => False)); [done..|]. by intros sn [].
  - rd_steps. split.
    + split; [done|]. split; [|done]. simpl. by apply writers_inv_insert.
    + simpl. by apply grow_fresh.
Qed.

Lemma writer_lost_wp g st :
  wp (remove_writer_proxy g) st (fun _ st' _ =>
    rs_cache st' = rs_cache st /\ fragment_assemblers (rs_reader st') = fragment_assemblers (rs_reader st) /\
    matched_writers (rs_reader st') = delete g (matched_writers (rs_reader st))).
Proof.
  unfold remove_writer_proxy. do 2 rd_step. destruct (matched_writers (rs_reader st) !! g) eqn:E; rd_steps; [done|].
  split_and!; [done|done|]. by rewrite delete_id.
Qed.

Lemma writers_inv_sub m m' : m' ⊆ m -> writers_inv m -> writers_inv m'.
Proof. intros Hs Hm g p Hg. apply Hm. by eapply lookup_weaken. Qed.

Lemma writer_lost_good g st :
  reader_inv st -> wp (remove_writer_proxy g) st (fun _ st' _ => reader_good st st').
Proof.
  intros (H1 & H2 & H3). eapply wp_mono; [apply writer_lost_wp|]. cbv beta. intros _ st' evs (E1 & E2 & E3).
  unfold reader_good, reader_inv. rewrite E1, E2, E3.
  split; [split; [done|split; [by apply writers_inv_delete|done]]|]. apply grow_sub, delete_subseteq.
Qed.

Lemma reader_participant_lost_good p st :
  reader_inv st -> wp (Reader_participant_lost p) st (fun _ st' _ => reader_good st st').
Proof.
  intros (H1 & H2 & H3). unfold Reader_participant_lost. do 2 rd_step.
  eapply wp_mono; [apply (wp_for (fun st' _ => rs_cache st' = rs_cache st /\
    fragment_assemblers (rs_reader st') = fragment_assemblers (rs_reader st) /\
    matched_writers (rs_reader st') ⊆ matched_writers (rs_reader st)))|].
  - done.
  - intros g st1 evs _ (E1 & E2 & E3). eapply wp_mono; [apply writer_lost_wp|]. cbv beta.
    intros _ st2 _ (F1 & F2 & F3). split_and!; [congruence|congruence|]. rewrite F3. etrans; [apply delete_subseteq|done].
  - cbv beta. intros _ st' evs (E1 & E2 & E3). split; [|by apply grow_sub].
    unfold reader_inv. rewrite E1, E2. split; [done|]. split; [by eapply writers_inv_sub|done].
Qed.

Lemma preemptive_good `{SP : Speedy} st :
  reader_inv st -> wp send_preemptive_acknacks st (fun _ st' evs => st' = st /\ evs = []).
Proof.
  intros (_ & H2 & _). unfold send_preemptive_acknacks. do 2 rd_step.
  destruct (r_like_stateless (rs_reader st)); [by rd_step|]. rewrite list_filter_none; [by cbn [act_for]; rd_step|].
  intros [g p] Hin%elem_of_bt_iter. apply H2 in Hin as [[Hb _] _]. unfold no_changes_received, SequenceNumber_new. simpl.
  destruct (Z.eqb_spec (ack_base p) 0); [lia|done].
Qed.

Lemma reader_handle_good `{SP : Speedy} st i :
  reader_inv st -> rinput_ok st i -> wp (reader_handle i) st (fun _ st' _ => reader_good st st').
Proof.
  intros Hinv Hok. destruct i; simpl in Hok |- *.
  - destruct Hok. by apply data_good.
  - by apply datafrag_good.
  - destruct Hok. rd_step. eapply wp_mono; [by apply heartbeat_good|]. intros. by rd_step.
  - by apply gap_good.
  - unfold handle_heartbeatfrag_msg. rd_step. by apply reader_good_refl.
  - by apply timer_good.
  - by apply matched_good.
  - by apply writer_lost_good.
  - by apply reader_participant_lost_good.
  - eapply wp_mono; [by apply preemptive_good|]. cbv beta. intros _ ? ? [-> _]. by apply reader_good_refl.
Qed.

(** C14: no input with sequence numbers away from the end of their range, with
    fragments that fit their sample, and with a clock that does not go back makes
    the reader panic or loop; the invariant of the state is kept, and for a
    writer that stays matched the acknowledged bound never goes back and no
    sequence number once handled is asked for again. *)
Theorem reader_total `{SP : Speedy} st i :
  reader_inv st -> rinput_ok st i ->
  exists st' evs, reader_handle i st = Ret (tt, st', evs) /\ reader_inv st' /\
    proxies_grow (matched_writers (rs_reader st)) (matched_writers (rs_reader st')).
Proof.
  intros Hinv Hok. pose proof (reader_handle_good st i Hinv Hok) as H.
  apply wp_run in H as ([] & st' & evs & E & H1 & H2). by exists st', evs.
Qed.


(** C12: a HEARTBEAT a reliable reader has not seen yet is answered when the
    writer asks for it or when something of the advertised range is missing, and
    then with one ACKNACK, whose base is the least number not handled, so that
    everything acknowledged has been received or will never come, and whose set
    is exactly what the reader has not handled of the advertised range, as far
    as 256 numbers reach.  The samples some fragments of which are there are left
    out of the set; for each of these, and no other, there is a NACKFRAG of the
    fragments that are missing.  What the writer no longer has is handled from
    then on. *)
Theorem heartbeat_answer_correct `{SP : Speedy} hb final mrs st p :
  let g := GUID_new (mrs_source_guid_prefix mrs) (hb_writer_id hb) in
  reader_inv st -> r_reliability (rs_reader st) <> BestEffort -> r_like_stateless (rs_reader st) = false ->
  matched_writers (rs_reader st) !! g = Some p -> received_heartbeat_count p < hb_count hb ->
  i64_min <= first_sn hb <= i64_max -> last_sn hb <= i64_max - 256 ->
  exists answered st' p' reply,
    handle_heartbeat_msg hb final mrs st =
      Ret (answered, st', (if marker_moves (rs_cache st) g p' then [REvNotify] else []) ++ reply) /\
    rs_reader st' = r_set_writers (rs_reader st) (<[g := p']> (matched_writers (rs_reader st))) /\
    (forall sn, handled p' sn <-> handled p sn \/ 0 <= sn < first_sn hb) /\
    ~ handled p' (all_ackable_before p') /\
    (answered = true <-> final = false \/ exists sn, first_sn hb <= sn <= last_sn hb /\ ~ handled p' sn) /\
    (if answered
     then reply_to_heartbeat (rs_reader st) g p' (first_sn hb) (last_sn hb) (reply_locators mrs p) reply
     else reply = []).
Proof.
  intros g Hinv Hrel Hsl Hp Hc Hf Hl.
  pose proof (heartbeat_new_spec hb final mrs st p Hinv Hrel Hsl Hp Hc Hf Hl) as H.
  apply wp_run in H as (ans & st' & evs & E & p' & reply & Hi & [Hu _] & (Hpi & _ & Hh) & -> & Hans & Hr).
  exists ans, st', p', reply. split; [done|]. split; [done|]. split; [done|]. split; [by apply ack_base_not_handled|].
  split; [|done]. rewrite Hans, orb_true_iff, !negb_true_iff, bool_decide_eq_false.
  assert (missing_of p' (first_sn hb) (last_sn hb) <> [] <-> exists sn, first_sn hb <= sn <= last_sn hb /\ ~ handled p' sn) as ->;
    [|tauto].
  setoid_rewrite <- elem_of_missing. destruct (missing_of p' (first_sn hb) (last_sn hb)) as [|x xs]; split; try done.
  - intros (sn & ?%elem_of_nil). done.
  - intros _. exists x. set_solver.
Qed.

(** ** A reader at work *)

Definition demo_prefix : GuidPrefix := mkPrefix (replicate 12 1).
Definition demo_wguid : GUID := mkGUID demo_prefix (mkEntityId (0, 0, 1) 2).
Definition demo_rqos : QosPolicies :=
  mkQos None None None None None None None (Some (Reliable (mkDuration 0 0))) None (Some (KeepLast 10)) None None.
Definition demo_state : ReaderState :=
  mkRS (mkReader false (Reliable (mkDuration 0 0)) "t" demo_rqos (mkGUID (mkPrefix (replicate 12 2)) (mkEntityId (0, 0, 2) 7))
          ∅ (mkTimestamp 10 0) {[demo_wguid := RtpsWriterProxy_new demo_wguid [] [] EntityId_UNKNOWN]} 0 0 0)
       (TopicCache_new "t" "d" demo_rqos).
Definition demo_mrs : MessageReceiverState := mkMRS demo_prefix [] [] None.
Definition demo_data (sn : SequenceNumber) : Data :=
  mkData EntityId_UNKNOWN (entity_id demo_wguid) sn None (Some [0; 1; 0; 0; 42]).
Definition demo_hb : Heartbeat := mkHeartbeat EntityId_UNKNOWN (entity_id demo_wguid) 2 4 1.

Lemma demo_state_inv : reader_inv demo_state.
Proof.
  split; [apply tc_new_inv|]. split; [|by intros g fa].
  intros g p. cbn [demo_state rs_reader matched_writers]. rewrite lookup_singleton_Some. intros [<- <-].
  split; [apply wp_new_inv|done].
Qed.

Lemma reader_total_witness :
  exists st' evs, reader_handle (RInData (mkTimestamp 20 0) (mkTimestamp 20 0) (demo_data 3) 5 demo_mrs) demo_state = Ret (tt, st', evs) /\
    reader_inv st'.
Proof.
  destruct (reader_total demo_state (RInData (mkTimestamp 20 0) (mkTimestamp 20 0) (demo_data 3) 5 demo_mrs))
    as (st' & evs & H1 & H2 & _).
  - exact demo_state_inv.
  - split; [vm_compute; discriminate|vm_compute; reflexivity].
  - exists st', evs. split; [exact H1|exact H2].
Defined.


Lemma heartbeat_answer_correct_witness :
  exists st' p' reply, handle_heartbeat_msg demo_hb true demo_mrs demo_state = Ret (true, st', REvNotify :: reply) /\
    reply_to_heartbeat (rs_reader demo_state) demo_wguid p' 2 4 [] reply.
Proof.
  destruct (heartbeat_answer_correct demo_hb true demo_mrs demo_state (RtpsWriterProxy_new demo_wguid [] [] EntityId_UNKNOWN))
    as (ans & st' & p' & reply & H1 & _ & _ & _ & _ & H2).
  - exact demo_state_inv.
  - discriminate.
  - reflexivity.
  - reflexivity.
  - vm_compute. reflexivity.
  - vm_compute. split; discriminate.
  - vm_compute. discriminate.
  - exists st', p', reply. assert (exists a s e, handle_heartbeat_msg demo_hb true demo_mrs demo_state = Ret (a, s, REvNotify :: e) /\ a = true) as (a & s & e & E & ->).
    { vm_compute. do 3 eexists. split; reflexivity. }
    rewrite E in H1. injection H1 as <- <- Hev. rewrite E.
    destruct (marker_moves _ _ p') in Hev.
    + simpl in Hev. injection Hev as ->. split; [reflexivity|exact H2].
    + exfalso. simpl in Hev. destruct H2 as ([|nf nfs] & an & -> & _); discriminate Hev.
Defined.
