(* ===== verification/SampleCache.v ===== *)
(** * The samples a [DataReader] holds

    [src/dds/with_key/datasample_cache.rs], with [sampleinfo.rs],
    [readcondition.rs] and [datasample.rs]: deserialized samples by receive time
    stamp, and for every instance (key) the samples it has, whether it is alive,
    how often it has come back to life, and how much of that the application has
    seen.  The application selects samples by a [ReadCondition] and reads or takes
    them.

    The type of the data and of its key are parameters, as in the code; the key of
    a sample is application code. *)

From S2P Require Import Prelude BTree Wire SequenceNumbers Time Guid Qos Payload Submessages.

(** ** States and their masks

    A [BitFlags] of the crate [enumflags2] is the integer of its flags. *)

Inductive SampleState := SS_Read | SS_NotRead.
Inductive ViewState := VS_New | VS_NotNew.
Inductive InstanceState := IS_Alive | IS_NotAliveDisposed | IS_NotAliveNoWriters.

Definition SampleState_bits (s : SampleState) : Z := match s with SS_Read => 1 | SS_NotRead => 2 end.
Definition ViewState_bits (s : ViewState) : Z := match s with VS_New => 1 | VS_NotNew => 2 end.
Definition InstanceState_bits (s : InstanceState) : Z :=
  match s with IS_Alive => 1 | IS_NotAliveDisposed => 2 | IS_NotAliveNoWriters => 4 end.
Definition SampleState_any : Z := 3.
Definition ViewState_any : Z := 3.
Definition InstanceState_any : Z := 7.
Definition InstanceState_not_alive : Z := Z.lor (InstanceState_bits IS_NotAliveDisposed) (InstanceState_bits IS_NotAliveNoWriters).

Record ReadCondition := mkRC {
  sample_state_mask : Z;
  view_state_mask : Z;
  instance_state_mask : Z;
}.
Definition ReadCondition_any : ReadCondition := mkRC SampleState_any ViewState_any InstanceState_any.
Definition ReadCondition_not_read : ReadCondition :=
  mkRC (SampleState_bits SS_NotRead) ViewState_any InstanceState_any.

Record NotAliveGenerationCounts := mkGC {
  disposed_generation_count : Z;
  no_writers_generation_count : Z;
}.
Definition GenerationCounts_zero : NotAliveGenerationCounts := mkGC 0 0.
Definition GenerationCounts_sub_zero : NotAliveGenerationCounts := mkGC (-1) (-1).
Definition total (g : NotAliveGenerationCounts) : Z :=
  i32 (disposed_generation_count g + no_writers_generation_count g).

Record SampleInfo := mkSampleInfo {
  si_sample_state : SampleState;
  si_view_state : ViewState;
  si_instance_state : InstanceState;
  si_generation_counts : NotAliveGenerationCounts;
  sample_rank : Z;
  generation_rank : Z;
  absolute_generation_rank : Z;
  si_write_options : WriteOptions;
  publication_handle : GUID;
  si_sequence_number : SequenceNumber;
}.

(** ** Samples *)

Inductive Sample (D K : Type) := Sample_Value (d : D) | Sample_Dispose (k : K).
Arguments Sample_Value {D K}.
Arguments Sample_Dispose {D K}.

(** The trait [Keyed]. *)
Class Keyed (D K : Type) := key : D -> K.

Record DataSample (D K : Type) := mkDataSample { sample_info : SampleInfo; ds_value : Sample D K }.
Arguments mkDataSample {D K}.
Arguments sample_info {D K}.
Arguments ds_value {D K}.

Record DeserializedCacheChange (D K : Type) := mkDCC {
  receive_instant : Timestamp;
  dcc_writer_guid : GUID;
  dcc_sequence_number : SequenceNumber;
  dcc_write_options : WriteOptions;
  dcc_sample : Sample D K;
}.
Arguments mkDCC {D K}.
Arguments receive_instant {D K}.
Arguments dcc_writer_guid {D K}.
Arguments dcc_sequence_number {D K}.
Arguments dcc_write_options {D K}.
Arguments dcc_sample {D K}.

Record InstanceMetaData := mkIMD {
  instance_samples : gset Timestamp;
  imd_instance_state : InstanceState;
  latest_generation_available : NotAliveGenerationCounts;
  last_generation_accessed : NotAliveGenerationCounts;
}.

Record SampleWithMetaData (D K : Type) := mkSWMD {
  generation_counts : NotAliveGenerationCounts;
  sw_writer_guid : GUID;
  sw_sequence_number : SequenceNumber;
  sw_write_options : WriteOptions;
  sample_has_been_read : bool;
  sample : Sample D K;
}.
Arguments mkSWMD {D K}.
Arguments generation_counts {D K}.
Arguments sw_writer_guid {D K}.
Arguments sw_sequence_number {D K}.
Arguments sw_write_options {D K}.
Arguments sample_has_been_read {D K}.
Arguments sample {D K}.

Record DataSampleCache (D K : Type) `{Countable K} := mkDSC {
  dsc_qos : QosPolicies;
  datasamples : gmap Timestamp (SampleWithMetaData D K);
  instance_map : gmap K InstanceMetaData;
}.
Arguments mkDSC {D K EqDecision0 H}.
Arguments dsc_qos {D K EqDecision0 H}.
Arguments datasamples {D K EqDecision0 H}.
Arguments instance_map {D K EqDecision0 H}.

Section cache.
Context {D K : Type} `{Countable K} `{!OrdKey K} `{!Keyed D K}.
Implicit Types c : DataSampleCache D K.

Definition sample_key (s : Sample D K) : K :=
  match s with Sample_Value d => key d | Sample_Dispose k => k end.

Definition DeserializedCacheChange_new (instant : Timestamp) (cc : CacheChange) (deserialized : Sample D K)
  : DeserializedCacheChange D K :=
  mkDCC instant (cc_writer_guid cc) (cc_sequence_number cc) (cc_write_options cc) deserialized.

Definition DataSampleCache_new (qos : QosPolicies) : DataSampleCache D K := mkDSC qos ∅ ∅.

(** *** Adding *)

Definition sample_instance_state (s : Sample D K) : InstanceState :=
  match s with Sample_Value _ => IS_Alive | Sample_Dispose _ => IS_NotAliveDisposed end.

(** A value for an instance that was not alive starts a new generation. *)
Definition next_generation (was new : InstanceState) (g : NotAliveGenerationCounts) : NotAliveGenerationCounts :=
  match was, new with
  | IS_Alive, _ => g
  | IS_NotAliveDisposed, IS_Alive => mkGC (i32 (disposed_generation_count g + 1)) (no_writers_generation_count g)
  | IS_NotAliveDisposed, _ => g
  | IS_NotAliveNoWriters, IS_Alive => mkGC (disposed_generation_count g) (i32 (no_writers_generation_count g + 1))
  | IS_NotAliveNoWriters, _ => g
  end.

(** How many samples an instance may keep. *)
Definition instance_keep_count (qos : QosPolicies) : option Z :=
  let sample_keep_history_limit :=
    match history qos with
    | Some KeepAll => None
    | Some (KeepLast depth) => Some depth
    | None => Some 1
    end in
  let sample_keep_resource_limit := max_samples_per_instance <$> resource_limits qos in
  match sample_keep_history_limit with Some n => Some n | None => sample_keep_resource_limit end.

(** The oldest time stamps of the instance that are beyond the limit. *)
Definition keys_to_remove (qos : QosPolicies) (samples : gset Timestamp) : list Timestamp :=
  match instance_keep_count qos with
  | Some keep_count =>
      let remove_count := i32 (i32 (Z.of_nat (size samples)) - keep_count) in
      if 0 <? remove_count then take (Z.to_nat remove_count) (bs_iter samples) else []
  | None => []
  end.

Definition new_instance (st : InstanceState) : InstanceMetaData :=
  mkIMD ∅ st GenerationCounts_zero GenerationCounts_sub_zero.

Definition add_sample c (new_sample : Sample D K) (writer_guid : GUID) (sequence_number : SequenceNumber)
    (receive_timestamp : Timestamp) (write_options : WriteOptions) : outcome (DataSampleCache D K) :=
  let instance_key := sample_key new_sample in
  let new_instance_state := sample_instance_state new_sample in
  let imd := default (new_instance new_instance_state) (instance_map c !! instance_key) in
  let samples := {[receive_timestamp]} ∪ instance_samples imd in
  let latest := next_generation (imd_instance_state imd) new_instance_state (latest_generation_available imd) in
  match datasamples c !! receive_timestamp with
  | Some _ => Panic "Tried to add duplicate datasample with the same key"
  | None =>
      let ds := <[receive_timestamp :=
                    mkSWMD latest writer_guid sequence_number write_options false new_sample]> (datasamples c) in
      let removed := keys_to_remove (dsc_qos c) samples in
      Ret (mkDSC (dsc_qos c) (foldl (fun ds k => delete k ds) ds removed)
             (<[instance_key := mkIMD (samples ∖ list_to_set removed) new_instance_state latest
                                  (last_generation_accessed imd)]> (instance_map c)))
  end.

Definition fill_from_deserialized_cache_change c (dcc : DeserializedCacheChange D K) : outcome (DataSampleCache D K) :=
  add_sample c (dcc_sample dcc) (dcc_writer_guid dcc) (dcc_sequence_number dcc) (receive_instant dcc)
    (dcc_write_options dcc).

(** *** Selecting *)

Definition sample_selector (rc : ReadCondition) (imd : InstanceMetaData) (d : SampleWithMetaData D K) : bool :=
  ((sample_state_mask rc =? SampleState_any)
   || contains (sample_state_mask rc) (SampleState_bits (if sample_has_been_read d then SS_Read else SS_NotRead)))
  && ((view_state_mask rc =? ViewState_any)
      || contains (view_state_mask rc)
           (ViewState_bits (if total (last_generation_accessed imd) <? total (generation_counts d) then VS_New else VS_NotNew)))
  && ((instance_state_mask rc =? InstanceState_any)
      || contains (instance_state_mask rc) (InstanceState_bits (imd_instance_state imd))).

Definition select_keys_for_access c (rc : ReadCondition) : outcome (list (Timestamp * K)) :=
  outcome_fold (fun acc e =>
    let k := sample_key (sample e.2) in
    instance_meta ← rust_unwrap (instance_map c !! k) "called `Option::unwrap()` on a `None` value";
    Ret (if sample_selector rc instance_meta e.2 then acc ++ [(e.1, k)] else acc)) [] (bt_iter (datasamples c)).

Definition select_instance_keys_for_access c (instance : K) (rc : ReadCondition) : list (Timestamp * K) :=
  match instance_map c !! instance with
  | None => []
  | Some imd =>
      omap (fun ts =>
        ds ← datasamples c !! ts;
        if sample_selector rc imd ds then Some (ts, instance) else None) (bs_iter (instance_samples imd))
  end.

(** *** Reading and taking *)

Definition make_sample_info (dswm : SampleWithMetaData D K) (imd : InstanceMetaData) (rank : Z)
    (mrs_generations mrsic_generations : Z) : SampleInfo :=
  mkSampleInfo
    (if sample_has_been_read dswm then SS_Read else SS_NotRead)
    (if total (last_generation_accessed imd) <? total (generation_counts dswm) then VS_New else VS_NotNew)
    (imd_instance_state imd) (generation_counts dswm) (i32 rank)
    (i32 (mrsic_generations - total (generation_counts dswm)))
    (i32 (mrs_generations - total (generation_counts dswm)))
    (sw_write_options dswm) (sw_writer_guid dswm) (sw_sequence_number dswm).

(** The generations seen of each instance, while a call collects its samples. *)
Definition record_instance_generation_viewed (gens : gmap K NotAliveGenerationCounts)
    (accessed_generations : NotAliveGenerationCounts) (instance_key : K) : gmap K NotAliveGenerationCounts :=
  <[instance_key := match gens !! instance_key with
                    | Some old_gens =>
                        if total old_gens <? total accessed_generations then accessed_generations else old_gens
                    | None => accessed_generations
                    end]> gens.

Definition mark_instances_viewed (instances : gmap K InstanceMetaData) (gens : gmap K NotAliveGenerationCounts)
  : outcome (gmap K InstanceMetaData) :=
  outcome_fold (fun m e =>
    match m !! e.1 with
    | Some imd =>
        Ret (<[e.1 := mkIMD (instance_samples imd) (imd_instance_state imd) (latest_generation_available imd) e.2]> m)
    | None => Panic "Instance disappeared!?!!1!"
    end) instances (map_to_list gens).

Definition mark_read (d : SampleWithMetaData D K) : SampleWithMetaData D K :=
  mkSWMD (generation_counts d) (sw_writer_guid d) (sw_sequence_number d) (sw_write_options d) true (sample d).

Definition unwrap_msg : string := "called `Option::unwrap()` on a `None` value".

(** The generations of the last key's instance, and of the newest sample. *)
Definition mrsic_total c (keys : list (Timestamp * K)) : outcome Z :=
  k ← rust_unwrap (last keys) unwrap_msg;
  imd ← rust_unwrap (instance_map c !! k.2) unwrap_msg;
  Ret (total (latest_generation_available imd)).
Definition mrs_total c : outcome Z :=
  e ← rust_unwrap (last (bt_iter (datasamples c))) unwrap_msg;
  Ret (total (generation_counts e.2)).

(** What a pass over the selected keys has done so far. *)
Record Pass (R : Type) := mkPass {
  pass_samples : gmap Timestamp (SampleWithMetaData D K);
  pass_gens : gmap K NotAliveGenerationCounts;
  pass_results : list R;
}.
Arguments mkPass {R}.
Arguments pass_samples {R}.
Arguments pass_gens {R}.
Arguments pass_results {R}.

(** [for (index, (ts, key)) in keys.iter().enumerate()] *)
Definition enumerate {A} (l : list A) : list (nat * A) := imap pair l.

(** The bodies of the loops over the keys; [len] is the number of keys. *)
Definition read_step (instances : gmap K InstanceMetaData) (len : nat) (mrs mrsic : Z) (p : Pass SampleInfo)
    (e : nat * (Timestamp * K)) : outcome (Pass SampleInfo) :=
  let '(index, (ts, key)) := e in
  dswm ← rust_unwrap (pass_samples p !! ts) unwrap_msg;
  imd ← rust_unwrap (instances !! key) unwrap_msg;
  let info := make_sample_info dswm imd (Z.of_nat len - Z.of_nat index - 1) mrs mrsic in
  Ret (mkPass (<[ts := mark_read dswm]> (pass_samples p))
         (record_instance_generation_viewed (pass_gens p) (generation_counts dswm) key)
         (pass_results p ++ [info])).

Definition take_step (instances : gmap K InstanceMetaData) (len : nat) (mrs mrsic : Z) (p : Pass (DataSample D K))
    (e : nat * (Timestamp * K)) : outcome (Pass (DataSample D K)) :=
  let '(index, (ts, key)) := e in
  dswm ← rust_unwrap (pass_samples p !! ts) unwrap_msg;
  imd ← rust_unwrap (instances !! key) unwrap_msg;
  let info := make_sample_info dswm imd (Z.of_nat len - Z.of_nat index - 1) mrs mrsic in
  Ret (mkPass (delete ts (pass_samples p))
         (record_instance_generation_viewed (pass_gens p) (generation_counts dswm) key)
         (pass_results p ++ [mkDataSample info (sample dswm)])).

Definition read_bare_step (p : Pass unit) (e : Timestamp * K) : outcome (Pass unit) :=
  let '(ts, key) := e in
  dswm ← rust_unwrap (pass_samples p !! ts) unwrap_msg;
  Ret (mkPass (<[ts := mark_read dswm]> (pass_samples p))
         (record_instance_generation_viewed (pass_gens p) (generation_counts dswm) key) (pass_results p)).

Definition take_bare_step (p : Pass (Sample D K)) (e : Timestamp * K) : outcome (Pass (Sample D K)) :=
  let '(ts, key) := e in
  dswm ← rust_unwrap (pass_samples p !! ts) unwrap_msg;
  Ret (mkPass (delete ts (pass_samples p))
         (record_instance_generation_viewed (pass_gens p) (generation_counts dswm) key)
         (pass_results p ++ [sample dswm])).

(** The second loops of the reads: the samples are handed out. *)
Definition construct_result (samples : gmap Timestamp (SampleWithMetaData D K))
    (acc : list (DataSample D K) * list SampleInfo) (e : Timestamp * K)
  : outcome (list (DataSample D K) * list SampleInfo) :=
  let '(res, sample_infos) := acc in
  info ← rust_unwrap (head sample_infos) unwrap_msg;
  ds ← rust_unwrap (samples !! e.1) unwrap_msg;
  Ret (res ++ [mkDataSample info (sample ds)], tail sample_infos).
Definition construct_bare (samples : gmap Timestamp (SampleWithMetaData D K)) (res : list (Sample D K))
    (e : Timestamp * K) : outcome (list (Sample D K)) :=
  ds ← rust_unwrap (samples !! e.1) unwrap_msg;
  Ret (res ++ [sample ds]).

Definition read_by_keys c (keys : list (Timestamp * K)) : outcome (list (DataSample D K) * DataSampleCache D K) :=
  let len := length keys in
  if (len =? 0)%nat then Ret ([], c)
  else
    mrsic ← mrsic_total c keys;
    mrs ← mrs_total c;
    p ← outcome_fold (read_step (instance_map c) len mrs mrsic) (mkPass (datasamples c) ∅ []) (enumerate keys);
    instances ← mark_instances_viewed (instance_map c) (pass_gens p);
    result ← outcome_fold (construct_result (pass_samples p)) ([], pass_results p) keys;
    Ret (result.1, mkDSC (dsc_qos c) (pass_samples p) instances).

Definition take_by_keys c (keys : list (Timestamp * K)) : outcome (list (DataSample D K) * DataSampleCache D K) :=
  let len := length keys in
  if (len =? 0)%nat then Ret ([], c)
  else
    mrsic ← mrsic_total c keys;
    mrs ← mrs_total c;
    p ← outcome_fold (take_step (instance_map c) len mrs mrsic) (mkPass (datasamples c) ∅ []) (enumerate keys);
    instances ← mark_instances_viewed (instance_map c) (pass_gens p);
    Ret (pass_results p, mkDSC (dsc_qos c) (pass_samples p) instances).

Definition read_bare_by_keys c (keys : list (Timestamp * K)) : outcome (list (Sample D K) * DataSampleCache D K) :=
  if (length keys =? 0)%nat then Ret ([], c)
  else
    p ← outcome_fold read_bare_step (mkPass (datasamples c) ∅ []) keys;
    instances ← mark_instances_viewed (instance_map c) (pass_gens p);
    result ← outcome_fold (construct_bare (pass_samples p)) [] keys;
    Ret (result, mkDSC (dsc_qos c) (pass_samples p) instances).

Definition take_bare_by_keys c (keys : list (Timestamp * K)) : outcome (list (Sample D K) * DataSampleCache D K) :=
  if (length keys =? 0)%nat then Ret ([], c)
  else
    p ← outcome_fold take_bare_step (mkPass (datasamples c) ∅ []) keys;
    instances ← mark_instances_viewed (instance_map c) (pass_gens p);
    Ret (pass_results p, mkDSC (dsc_qos c) (pass_samples p) instances).

(** The least key above [k]. *)
Definition next_key c (k : K) : option K := head (filter (fun k' => klt k k') (bt_keys (instance_map c))).
End cache.
Arguments mkPass {D K EqDecision0 H R}.
Arguments pass_samples {D K EqDecision0 H R}.
Arguments pass_gens {D K EqDecision0 H R}.
Arguments pass_results {D K EqDecision0 H R}.
