(* ===== verification/SampleCacheTheorems.v ===== *)
(** * What the sample cache of a [DataReader] guarantees

    Every sample handed to the cache is there until it is taken or pushed out by
    newer ones of its instance; selection is exact and in order of arrival;
    reading and taking return what was selected, mark or remove exactly that, and
    leave the rest alone. *)

From S2P Require Import Prelude BTree Wire SequenceNumbers Time Guid Qos Payload Submessages SampleCache.

Section cache.
Context {D K : Type} `{Countable K} `{!OrdKey K} `{!Keyed D K}.
Implicit Types c : DataSampleCache D K.

(** ** The invariant *)

(** A sample is listed in its instance; a time stamp is listed in one instance. *)
Record dsc_inv c : Prop := {
  di_listed : forall ts d, datasamples c !! ts = Some d ->
    exists imd, instance_map c !! sample_key (sample d) = Some imd /\ ts ∈ instance_samples imd;
  di_apart : forall k1 k2 i1 i2 ts, instance_map c !! k1 = Some i1 -> instance_map c !! k2 = Some i2 ->
    ts ∈ instance_samples i1 -> ts ∈ instance_samples i2 -> k1 = k2;
}.

Lemma dsc_new_inv qos : dsc_inv (DataSampleCache_new qos).
Proof. split; [by intros ts d|by intros k1 k2 i1 i2 ts]. Qed.

(** The clock has never shown this time before. *)
Definition unused c (ts : Timestamp) : Prop :=
  forall k imd, instance_map c !! k = Some imd -> ts ∉ instance_samples imd.

Lemma unused_not_stored c ts : dsc_inv c -> unused c ts -> datasamples c !! ts = None.
Proof.
  intros Hc Hu. destruct (datasamples c !! ts) as [d|] eqn:E; [|done].
  destruct (di_listed c Hc ts d E) as (imd & Hi & Hin). by destruct (Hu _ _ Hi).
Qed.

(** ** Adding *)

Lemma lookup_delete_all (l : list Timestamp) (ds : gmap Timestamp (SampleWithMetaData D K)) t :
  foldl (fun ds k => delete k ds) ds l !! t = if decide (t ∈ l) then None else ds !! t.
Proof.
  revert ds. induction l as [|x l IH]; intros ds; cbn [foldl]; [case_decide; [set_solver|done]|].
  rewrite IH. destruct (decide (t = x)) as [->|Hne].
  - rewrite lookup_delete_eq. repeat case_decide; try done; set_solver.
  - rewrite lookup_delete_ne by done. repeat case_decide; set_solver.
Qed.

Lemma elem_of_keys_to_remove qos S t : t ∈ keys_to_remove qos S -> t ∈ S.
Proof.
  unfold keys_to_remove. destruct (instance_keep_count qos) as [n|]; [|set_solver]. case_match; [|set_solver].
  intros Ht%(subseteq_take _ _ t). by rewrite elem_of_bs_iter in Ht.
Qed.

Lemma bs_iter_drop (S : gset Timestamp) n :
  bs_iter (S ∖ list_to_set (take n (bs_iter S))) = drop n (bs_iter S).
Proof.
  apply (sorted_ext klt).
  - apply bs_iter_sorted.
  - pose proof (bs_iter_sorted S) as Hs. rewrite <- (take_drop n (bs_iter S)) in Hs at 1.
    by apply StronglySorted_app in Hs as (_ & _ & ?).
  - intros x. rewrite elem_of_bs_iter, elem_of_difference, elem_of_list_to_set.
    pose proof (bs_iter_sorted S) as Hs. rewrite <- (take_drop n (bs_iter S)) in Hs at 1.
    apply StronglySorted_app in Hs as (Hlt & _ & _). split.
    + intros [Hx Hn]. rewrite <- elem_of_bs_iter, <- (take_drop n (bs_iter S)), elem_of_app in Hx. tauto.
    + intros Hx. split.
      * rewrite <- elem_of_bs_iter, <- (take_drop n (bs_iter S)). set_solver.
      * intros Ht. specialize (Hlt x x Ht Hx). by apply klt_irrefl in Hlt.
Qed.

Lemma length_bs_iter (S : gset Timestamp) : length (bs_iter S) = size S.
Proof. unfold bs_iter. by rewrite merge_sort_Permutation. Qed.

(** The limit that the QoS sets: the depth of KEEP_LAST, one sample when there is
    no history policy, and with KEEP_ALL that of the resource limits, if any. *)
Definition keep_limit (qos : QosPolicies) : option Z :=
  match history qos, resource_limits qos with
  | Some (KeepLast depth), _ => Some depth
  | None, _ => Some 1
  | Some KeepAll, Some limits => Some (max_samples_per_instance limits)
  | Some KeepAll, None => None
  end.

Lemma instance_keep_count_limit qos : instance_keep_count qos = keep_limit qos.
Proof. unfold instance_keep_count, keep_limit. by destruct (history qos) as [[]|], (resource_limits qos). Qed.

(** The limits of the QoS are lengths or LENGTH_UNLIMITED, and the instance has
    fewer than 2^31 - 1 samples. *)
Definition limits_ok (qos : QosPolicies) (S : gset Timestamp) : Prop :=
  Z.of_nat (size S) < 2 ^ 31 - 1 /\ forall n, keep_limit qos = Some n -> -1 <= n < 2 ^ 31.

(** The newest ones, as many as the limit says, none if it is negative. *)
Definition newest (qos : QosPolicies) (l : list Timestamp) : list Timestamp :=
  match keep_limit qos with Some n => drop (length l - Z.to_nat n) l | None => l end.

Lemma keys_to_remove_newest qos S :
  limits_ok qos S -> bs_iter (S ∖ list_to_set (keys_to_remove qos S)) = newest qos (bs_iter S).
Proof.
  intros [Hs Hn]. unfold keys_to_remove, newest. rewrite instance_keep_count_limit. destruct (keep_limit qos) as [n|] eqn:E.
  - specialize (Hn n eq_refl). rewrite (wrap_s_id 32 (Z.of_nat (size S))) by bounds_lia.
    rewrite wrap_s_id by bounds_lia. rewrite length_bs_iter.
    destruct (Z.ltb_spec 0 (Z.of_nat (size S) - n)).
    + destruct (decide (n < 0)).
      * rewrite take_ge by (rewrite length_bs_iter; lia). rewrite drop_ge by (rewrite length_bs_iter; lia).
        apply elem_of_nil_inv. intros x. rewrite elem_of_bs_iter, elem_of_difference, elem_of_list_to_set, elem_of_bs_iter. tauto.
      * rewrite bs_iter_drop. f_equal. lia.
    + replace (_ - _)%nat with 0%nat by lia. cbn [list_to_set]. by rewrite drop_0, difference_empty_L.
  - cbn [list_to_set]. by rewrite difference_empty_L.
Qed.

Lemma newest_last qos l x :
  (forall n, keep_limit qos = Some n -> 1 <= n) -> last l = Some x -> x ∈ newest qos l.
Proof.
  intros Hn Hl. apply last_Some in Hl as [l' ->]. unfold newest. destruct (keep_limit qos) as [n|] eqn:E; [|set_solver].
  specialize (Hn n eq_refl). rewrite drop_app, length_app. simpl.
  replace (length l' + 1 - Z.to_nat n - length l')%nat with 0%nat by lia. set_solver.
Qed.

(** The samples of an instance once there is one more. *)
Definition stamps_with c (k : K) (ts : Timestamp) : gset Timestamp :=
  {[ts]} ∪ default ∅ (instance_samples <$> instance_map c !! k).

Lemma add_sample_run c s w sn ts wo :
  let S := stamps_with c (sample_key s) ts in
  let was := default (new_instance (sample_instance_state s)) (instance_map c !! sample_key s) in
  let latest := next_generation (imd_instance_state was) (sample_instance_state s) (latest_generation_available was) in
  let removed := keys_to_remove (dsc_qos c) S in
  datasamples c !! ts = None ->
  add_sample c s w sn ts wo = Ret (mkDSC (dsc_qos c)
    (foldl (fun ds k => delete k ds) (<[ts := mkSWMD latest w sn wo false s]> (datasamples c)) removed)
    (<[sample_key s := mkIMD (S ∖ list_to_set removed) (sample_instance_state s) latest (last_generation_accessed was)]>
       (instance_map c))).
Proof.
  intros S was latest removed Hts. unfold add_sample. rewrite Hts.
  assert (S = {[ts]} ∪ instance_samples was) as ->; [|done].
  unfold S, was, stamps_with. by destruct (instance_map c !! sample_key s).
Qed.

Lemma elem_of_stamps_with c k ts t :
  t ∈ stamps_with c k ts <-> t = ts \/ exists imd, instance_map c !! k = Some imd /\ t ∈ instance_samples imd.
Proof.
  unfold stamps_with. destruct (instance_map c !! k) as [imd|]; simpl; rewrite elem_of_union, elem_of_singleton; [|set_solver].
  naive_solver.
Qed.

Lemma add_sample_inv c s ts d S latest acc removed :
  dsc_inv c -> unused c ts -> sample d = s -> S = stamps_with c (sample_key s) ts ->
  (forall t, t ∈ removed -> t ∈ S) ->
  dsc_inv (mkDSC (dsc_qos c) (foldl (fun ds k => delete k ds) (<[ts := d]> (datasamples c)) removed)
    (<[sample_key s := mkIMD (S ∖ list_to_set removed) (sample_instance_state s) latest acc]> (instance_map c))).
Proof.
  intros Hc Hu Hd -> Hr. split; simpl.
  - intros t d'. rewrite lookup_delete_all. case_decide as Hin; [done|]. rewrite lookup_insert_Some. intros [[<- <-]|[Hne Hd']].
    + rewrite Hd, lookup_insert_eq. eexists; split; [done|]. simpl. rewrite elem_of_difference, elem_of_list_to_set, elem_of_stamps_with. auto.
    + destruct (di_listed c Hc t d' Hd') as (imd & Hi & Ht). destruct (decide (sample_key (sample d') = sample_key s)) as [Ek|Ek].
      * rewrite Ek, lookup_insert_eq. eexists; split; [done|]. simpl.
        rewrite elem_of_difference, elem_of_list_to_set, elem_of_stamps_with. rewrite <- Ek. eauto.
      * rewrite lookup_insert_ne by done. eauto.
  - assert (forall k i t, k <> sample_key s -> instance_map c !! k = Some i -> t ∈ instance_samples i ->
      t ∉ stamps_with c (sample_key s) ts) as Hother.
    { intros k i t Hk Hi Ht. rewrite elem_of_stamps_with. intros [->|(j & Hj & Htj)]; [by apply (Hu _ _ Hi)|].
      by apply Hk, (di_apart c Hc k (sample_key s) i j t). }
    intros k1 k2 i1 i2 t. rewrite !lookup_insert_Some. intros [[<- <-]|[H1 Hi1]] [[<- <-]|[H2 Hi2]]; simpl; [done|..].
    + rewrite elem_of_difference. intros [Ht _] Ht2. by destruct (Hother k2 i2 t).
    + rewrite elem_of_difference. intros Ht1 [Ht _]. by destruct (Hother k1 i1 t).
    + by apply (di_apart c Hc).
Qed.

(** C33: a sample with a time stamp that no instance lists yet is accepted, if the
    limits of the QoS are lengths or LENGTH_UNLIMITED and the instance lists fewer
    than 2^31 - 1 time stamps. Its instance is then alive for a value and disposed
    for a disposal; a value for an instance that was disposed counts one disposed
    generation more, for one that was without writers one such generation more,
    anything else none, and a new instance starts at zero. Of the time stamps
    listed for the instance - those of samples taken before still count - the
    newest stay, as many as [keep_limit], with LENGTH_UNLIMITED (-1) none at all;
    the samples of the others are gone. The sample itself, unread and with the
    generation of its instance, is there if it is the newest and the limit is at
    least one; no other instance is touched, and no other sample. *)
Theorem add_sample_correct c s w sn ts wo :
  let k := sample_key s in
  let S := stamps_with c k ts in
  dsc_inv c -> unused c ts -> limits_ok (dsc_qos c) S ->
  exists c' imd, add_sample c s w sn ts wo = Ret c' /\ dsc_inv c' /\ dsc_qos c' = dsc_qos c /\
    instance_map c' = <[k := imd]> (instance_map c) /\
    imd_instance_state imd = match s with Sample_Value _ => IS_Alive | Sample_Dispose _ => IS_NotAliveDisposed end /\
    latest_generation_available imd =
      match instance_map c !! k with
      | Some was =>
          let g := latest_generation_available was in
          match imd_instance_state was, s with
          | IS_NotAliveDisposed, Sample_Value _ => mkGC (i32 (disposed_generation_count g + 1)) (no_writers_generation_count g)
          | IS_NotAliveNoWriters, Sample_Value _ => mkGC (disposed_generation_count g) (i32 (no_writers_generation_count g + 1))
          | _, _ => g
          end
      | None => mkGC 0 0
      end /\
    last_generation_accessed imd = default (mkGC (-1) (-1)) (last_generation_accessed <$> instance_map c !! k) /\
    bs_iter (instance_samples imd) = newest (dsc_qos c) (bs_iter S) /\
    (forall t, t ∈ S -> t ∉ instance_samples imd -> datasamples c' !! t = None) /\
    (forall t, t <> ts -> t ∉ S \/ t ∈ instance_samples imd -> datasamples c' !! t = datasamples c !! t) /\
    ((forall n, keep_limit (dsc_qos c) = Some n -> 1 <= n) -> (forall t, t ∈ S -> kle t ts) ->
     datasamples c' !! ts = Some (mkSWMD (latest_generation_available imd) w sn wo false s)).
Proof.
  intros k S Hc Hu Hl. pose proof (unused_not_stored c ts Hc Hu) as Hts.
  rewrite (add_sample_run c s w sn ts wo Hts). eexists _, _. split; [done|].
  pose proof (keys_to_remove_newest (dsc_qos c) S Hl) as Hnew.
  split; [apply add_sample_inv; [done..|]; intros t; apply elem_of_keys_to_remove|]. simpl. split; [done|]. split; [done|]. split; [done|].
  split; [unfold k; destruct (instance_map c !! sample_key s) as [was|]; [simpl; by destruct (imd_instance_state was), s|by destruct s]|].
  split; [unfold k; by destruct (instance_map c !! sample_key s)|]. split; [exact Hnew|]. fold S.
  assert (forall t, t ∈ S -> t ∉ S ∖ list_to_set (keys_to_remove (dsc_qos c) S) <-> t ∈ keys_to_remove (dsc_qos c) S) as Hrem.
  { intros t Ht. rewrite elem_of_difference, elem_of_list_to_set. destruct (decide (t ∈ keys_to_remove (dsc_qos c) S)); tauto. }
  split; [|split].
  - intros t Ht Hn. rewrite lookup_delete_all, decide_True by (by apply Hrem). done.
  - intros t Hne Ht. rewrite lookup_delete_all, decide_False, lookup_insert_ne; [done|done|].
    intros Hin. pose proof (elem_of_keys_to_remove _ _ _ Hin) as HtS. apply Hrem in Hin; tauto.
  - intros Hn Hmax. assert (ts ∈ S) as HtS by (apply elem_of_stamps_with; by left).
    rewrite lookup_delete_all, decide_False, lookup_insert_eq; [done|].
    intros Hno. apply (Hrem ts HtS) in Hno. apply Hno. rewrite <- elem_of_bs_iter, Hnew. apply newest_last; [done|].
    apply sorted_last_Some; [apply bs_iter_sorted|]. setoid_rewrite elem_of_bs_iter. done.
Qed.

(** ** Selecting *)

(** In order of arrival. *)
Definition earlier : relation (Timestamp * K) := fun x y => klt x.1 y.1.

#[export] Instance earlier_irrefl : Irreflexive earlier.
Proof. intros x. apply klt_irrefl. Qed.
#[export] Instance earlier_trans : Transitive earlier.
Proof. intros x y z. apply klt_trans. Qed.

(** How many generations of an instance went by, of both kinds, in an [i32]. *)
Definition generations (g : NotAliveGenerationCounts) : Z :=
  i32 (disposed_generation_count g + no_writers_generation_count g).

(** A sample of a generation that has not been accessed yet is new. *)
Definition is_new (imd : InstanceMetaData) (d : SampleWithMetaData D K) : Prop :=
  generations (last_generation_accessed imd) < generations (generation_counts d).

(** What a condition asks of a sample, by the bits of its masks: READ (1) or
    NOT_READ (2), NEW (1) or NOT_NEW (2), ALIVE (1), NOT_ALIVE_DISPOSED (2) or
    NOT_ALIVE_NO_WRITERS (4). *)
Definition satisfies (rc : ReadCondition) (imd : InstanceMetaData) (d : SampleWithMetaData D K) : Prop :=
  (if sample_has_been_read d then Z.testbit (sample_state_mask rc) 0 else Z.testbit (sample_state_mask rc) 1) = true /\
  (is_new imd d -> Z.testbit (view_state_mask rc) 0 = true) /\
  (~ is_new imd d -> Z.testbit (view_state_mask rc) 1 = true) /\
  match imd_instance_state imd with
  | IS_Alive => Z.testbit (instance_state_mask rc) 0
  | IS_NotAliveDisposed => Z.testbit (instance_state_mask rc) 1
  | IS_NotAliveNoWriters => Z.testbit (instance_state_mask rc) 2
  end = true.

Lemma contains_bit m n : 0 <= n -> contains m (2 ^ n) = Z.testbit m n.
Proof.
  intros Hn. unfold contains. apply eq_bool_prop_intro. rewrite !Is_true_true, Z.eqb_eq. split.
  - intros E. rewrite <- (Z.pow2_bits_true n) by done. rewrite <- E, Z.land_spec, Z.pow2_bits_true by done. by rewrite andb_true_r.
  - intros E. apply Z.bits_inj'. intros i Hi. rewrite Z.land_spec, Z.pow2_bits_eqb by done.
    destruct (Z.eqb_spec n i) as [<-|]; [by rewrite E|apply andb_false_r].
Qed.

(** A mask with all bits needs no test. *)
Lemma any_or_bit m any n : 0 <= n -> Z.testbit any n = true -> ((m =? any) || contains m (2 ^ n)) = Z.testbit m n.
Proof. intros Hn Ha. rewrite contains_bit by done. destruct (Z.eqb_spec m any) as [->|]; [by rewrite Ha|done]. Qed.

Lemma sample_selector_satisfies rc imd d : sample_selector rc imd d = true <-> satisfies rc imd d.
Proof.
  unfold sample_selector, satisfies, is_new. change (generations) with total. rewrite !andb_true_iff.
  assert (forall m, ((m =? SampleState_any) || contains m (SampleState_bits (if sample_has_been_read d then SS_Read else SS_NotRead)))
    = if sample_has_been_read d then Z.testbit m 0 else Z.testbit m 1) as ->
    by (intros m; destruct (sample_has_been_read d); [apply (any_or_bit m _ 0)|apply (any_or_bit m _ 1)]; done || lia).
  assert (forall m, ((m =? InstanceState_any) || contains m (InstanceState_bits (imd_instance_state imd)))
    = match imd_instance_state imd with IS_Alive => Z.testbit m 0 | IS_NotAliveDisposed => Z.testbit m 1
      | IS_NotAliveNoWriters => Z.testbit m 2 end) as ->
    by (intros m; destruct (imd_instance_state imd); [apply (any_or_bit m _ 0)|apply (any_or_bit m _ 1)|apply (any_or_bit m _ 2)]; done || lia).
  destruct (Z.ltb_spec (total (last_generation_accessed imd)) (total (generation_counts d))).
  - rewrite (any_or_bit _ _ 0) by (done || lia). split; [intros [[? ?] ?]; split_and!; auto; lia|intros (? & ? & ? & ?); auto].
  - rewrite (any_or_bit _ _ 1) by (done || lia).
    split; [intros [[? ?] ?]; split_and!; auto; lia|intros (? & ? & Hn & ?); split; [split; [done|apply Hn; lia]|done]].
Qed.

(** The sample at [ts] satisfies the condition. *)
Definition selected c (rc : ReadCondition) (ts : Timestamp) (k : K) : Prop :=
  exists d imd, datasamples c !! ts = Some d /\ sample_key (sample d) = k /\ instance_map c !! k = Some imd /\
    satisfies rc imd d.

(** One entry of the cache, as the selection sees it. *)
Definition select_entry c (rc : ReadCondition) (e : Timestamp * SampleWithMetaData D K) : option (Timestamp * K) :=
  imd ← instance_map c !! sample_key (sample e.2);
  if sample_selector rc imd e.2 then Some (e.1, sample_key (sample e.2)) else None.

Lemma select_keys_run c rc :
  dsc_inv c -> select_keys_for_access c rc = Ret (omap (select_entry c rc) (bt_iter (datasamples c))).
Proof.
  intros Hc. unfold select_keys_for_access.
  assert (forall e, e ∈ bt_iter (datasamples c) -> is_Some (instance_map c !! sample_key (sample e.2))) as Hin.
  { intros [t d] Hin%elem_of_bt_iter. destruct (di_listed c Hc t d Hin) as (imd & Hi & _). by exists imd. }
  match goal with |- outcome_fold ?f _ _ = _ =>
    enough (forall l acc, (forall e, e ∈ l -> is_Some (instance_map c !! sample_key (sample e.2))) ->
      outcome_fold f acc l = Ret (acc ++ omap (select_entry c rc) l)) as Hrun by (by apply (Hrun _ [])) end.
  clear Hin. induction l as [|e l IH]; intros acc Hin; csimpl.
  - by rewrite app_nil_r.
  - destruct (Hin e ltac:(set_solver)) as [imd Hi]. unfold select_entry at 1. rewrite Hi. cbn [rust_unwrap mbind outcome_bind option_bind].
    rewrite IH by set_solver. destruct (sample_selector rc imd e.2); [by rewrite <- app_assoc|done].
Qed.

Lemma elem_of_selection c rc ts k :
  (ts, k) ∈ omap (select_entry c rc) (bt_iter (datasamples c)) <-> selected c rc ts k.
Proof.
  rewrite list_elem_of_omap. unfold selected, select_entry. split.
  - intros ([t d] & Hin%elem_of_bt_iter & E). simpl in E. destruct (instance_map c !! sample_key (sample d)) as [imd|] eqn:Ei; [|done].
    simpl in E. destruct (sample_selector rc imd d) eqn:Es; [|done]. apply sample_selector_satisfies in Es. injection E as -> <-. eauto 10.
  - intros (d & imd & Hd & <- & Hi & Hs%sample_selector_satisfies). exists (ts, d). rewrite elem_of_bt_iter. split; [done|]. simpl. rewrite Hi. simpl. by rewrite Hs.
Qed.

Lemma selection_sorted c rc :
  StronglySorted earlier (omap (select_entry c rc) (bt_iter (datasamples c))).
Proof.
  pose proof (bt_iter_sorted (datasamples c)) as Hs. induction Hs as [|e l Hl IH He]; csimpl; [constructor|].
  assert (forall x, select_entry c rc e = Some x -> Forall (earlier x) (omap (select_entry c rc) l)) as Hx.
  { intros x Ex. apply Forall_forall. intros y (e' & Hin & Ey)%list_elem_of_omap. rewrite Forall_forall in He. specialize (He e' Hin).
    unfold select_entry in Ex, Ey.
    destruct (instance_map c !! sample_key (sample e.2)), (instance_map c !! sample_key (sample e'.2)); simpl in *; try done.
    repeat case_match; simplify_eq. done. }
  destruct (select_entry c rc e) as [x|]; [|done]. constructor; [done|by apply Hx].
Qed.

(** A sample is listed nowhere else. *)
Lemma listed_key c ts d k imd :
  dsc_inv c -> datasamples c !! ts = Some d -> instance_map c !! k = Some imd -> ts ∈ instance_samples imd ->
  sample_key (sample d) = k.
Proof.
  intros Hc Hd Hi Hin. destruct (di_listed c Hc ts d Hd) as (imd' & Hi' & Hin').
  by apply (di_apart c Hc _ _ imd' imd ts).
Qed.

(** C38: a [ReadCondition] selects exactly the samples whose sample state, view
    state and instance state its three masks ask for ([satisfies]), in the order of
    their arrival; selecting from one instance selects the samples of that instance
    that selecting from all would select, in the same order. *)
Theorem selection_correct c rc :
  dsc_inv c ->
  exists l, select_keys_for_access c rc = Ret l /\ StronglySorted earlier l /\
    (forall ts k, (ts, k) ∈ l <-> selected c rc ts k) /\
    (forall k, select_instance_keys_for_access c k rc = filter (fun e => e.2 = k) l).
Proof.
  intros Hc. eexists. split; [by apply select_keys_run|]. split; [apply selection_sorted|].
  split; [intros; apply elem_of_selection|]. intros k.
  apply (sorted_ext earlier).
  - unfold select_instance_keys_for_access. destruct (instance_map c !! k) as [imd|]; [|constructor].
    pose proof (bs_iter_sorted (instance_samples imd)) as Hs. induction Hs as [|t l Hl IH Ht]; csimpl; [constructor|].
    destruct (datasamples c !! t) as [d|]; simpl; [|done]. destruct (sample_selector rc imd d); [|done]. constructor; [done|].
    rewrite Forall_forall in Ht. apply Forall_forall. intros y (t' & Hin & Ey)%list_elem_of_omap. specialize (Ht t' Hin).
    destruct (datasamples c !! t'); simpl in Ey; [|done]. destruct (sample_selector _ _ _) in Ey; [|done]. by injection Ey as <-.
  - apply StronglySorted_filter, selection_sorted.
  - intros [t k']. rewrite list_elem_of_filter, elem_of_selection. simpl. unfold select_instance_keys_for_access, selected. split.
    + destruct (instance_map c !! k) as [imd|] eqn:Ei; [|by intros ?%elem_of_nil].
      intros (t' & Hin%elem_of_bs_iter & E)%list_elem_of_omap. destruct (datasamples c !! t') as [d|] eqn:Ed; simpl in E; [|done].
      destruct (sample_selector rc imd d) eqn:Es; [|done]. injection E as -> <-. split; [done|].
      apply sample_selector_satisfies in Es. exists d, imd. split; [done|]. split; [by eapply listed_key|done].
    + intros [-> (d & imd & Hd & Hk & Hi & Hs%sample_selector_satisfies)]. rewrite Hi. apply list_elem_of_omap. exists t.
      destruct (di_listed c Hc t d Hd) as (imd' & Hi' & Hin). rewrite Hk, Hi in Hi'. injection Hi' as <-.
      rewrite elem_of_bs_iter. split; [done|]. rewrite Hd. simpl. by rewrite Hs.
Qed.

(** ** Reading and taking *)

(** Keys that are in the cache, each once: any part of what was selected. *)
Definition valid_keys c (keys : list (Timestamp * K)) : Prop :=
  NoDup keys.*1 /\
  forall ts k, (ts, k) ∈ keys -> exists d, datasamples c !! ts = Some d /\ sample_key (sample d) = k.

(** The generations seen of each instance in a pass over the keys. *)
Definition viewed (ds : gmap Timestamp (SampleWithMetaData D K)) (keys : list (Timestamp * K))
  : gmap K NotAliveGenerationCounts :=
  foldl (fun g e => match ds !! e.1 with
                    | Some d => record_instance_generation_viewed g (generation_counts d) e.2
                    | None => g end) ∅ keys.

Lemma viewed_spec c keys k :
  valid_keys c keys ->
  match viewed (datasamples c) keys !! k with
  | None => k ∉ keys.*2
  | Some g => exists ts d, (ts, k) ∈ keys /\ datasamples c !! ts = Some d /\ g = generation_counts d /\
      forall ts' d', (ts', k) ∈ keys -> datasamples c !! ts' = Some d' -> total (generation_counts d') <= total g
  end.
Proof.
  intros [_ Hv]. induction keys as [|[t k'] keys IH] using rev_ind.
  { unfold viewed. simpl. rewrite lookup_empty. apply not_elem_of_nil. }
  specialize (IH ltac:(intros; apply Hv; set_solver)). destruct (Hv t k' ltac:(set_solver)) as (d & Hd & _).
  unfold viewed in *. rewrite foldl_snoc. simpl. rewrite Hd. unfold record_instance_generation_viewed at 1.
  set (g0 := foldl _ _ _) in *. rewrite fmap_app. destruct (decide (k' = k)) as [->|Hne].
  - rewrite lookup_insert_eq. destruct (g0 !! k) as [g|].
    + destruct IH as (ts & d0 & Hin & Hd0 & -> & Hmax).
      assert (forall ts' d', (ts', k) ∈ keys ++ [(t, k)] -> datasamples c !! ts' = Some d' ->
        total (generation_counts d') <= total (generation_counts d0) \/ d' = d) as Hall.
      { intros ts' d' [Hi|Hi]%elem_of_app Hd'; [left; by eapply Hmax|right]. set_unfold in Hi. naive_solver. }
      destruct (Z.ltb_spec (total (generation_counts d0)) (total (generation_counts d))) as [Hlt|Hle].
      * exists t, d. split; [set_solver|]. split; [done|]. split; [done|]. intros ts' d' Hi Hd'. destruct (Hall _ _ Hi Hd') as [?| ->]; lia.
      * exists ts, d0. split; [set_solver|]. split; [done|]. split; [done|]. intros ts' d' Hi Hd'. destruct (Hall _ _ Hi Hd') as [?| ->]; lia.
    + exists t, d. split; [set_solver|]. split; [done|]. split; [done|]. intros ts' d' [Hi|Hi]%elem_of_app Hd'.
      * destruct IH. apply list_elem_of_fmap. by exists (ts', k).
      * set_unfold in Hi. destruct Hi as [[= ->]|[]]. simplify_eq. lia.
  - rewrite lookup_insert_ne by done. destruct (g0 !! k) as [g|].
    + destruct IH as (ts & d0 & Hin & Hd0 & -> & Hmax). exists ts, d0. split; [set_solver|]. split; [done|]. split; [done|].
      intros ts' d' [Hi|Hi]%elem_of_app Hd'; [by eapply Hmax|]. set_unfold in Hi. naive_solver.
    + set_solver.
Qed.

(** The instances after their samples were accessed. *)
Definition accessed (m : gmap K InstanceMetaData) (gens : gmap K NotAliveGenerationCounts) : gmap K InstanceMetaData :=
  map_imap (fun k imd => Some (match gens !! k with
    | Some g => mkIMD (instance_samples imd) (imd_instance_state imd) (latest_generation_available imd) g
    | None => imd end)) m.

Lemma lookup_accessed m gens k :
  accessed m gens !! k = (fun imd => match gens !! k with
    | Some g => mkIMD (instance_samples imd) (imd_instance_state imd) (latest_generation_available imd) g
    | None => imd end) <$> m !! k.
Proof. unfold accessed. rewrite map_lookup_imap. by destruct (m !! k). Qed.

Lemma mark_instances_run m gens :
  (forall k, is_Some (gens !! k) -> is_Some (m !! k)) -> mark_instances_viewed m gens = Ret (accessed m gens).
Proof.
  intros Hm. unfold mark_instances_viewed. set (f := fun _ _ => _).
  assert (forall l m, NoDup l.*1 -> (forall k, k ∈ l.*1 -> is_Some (m !! k)) ->
    outcome_fold f m l = Ret (accessed m (list_to_map l))) as Hrun.
  { clear. induction l as [|[k g] l IH]; intros m Hnd Hin; simpl.
    - f_equal. apply map_eq. intros k. rewrite lookup_accessed, lookup_empty. by destruct (m !! k).
    - apply NoDup_cons in Hnd as [Hni Hnd]. destruct (Hin k ltac:(set_solver)) as [imd Hi]. 
      assert (f m (k, g) = Ret (<[k := mkIMD (instance_samples imd) (imd_instance_state imd) (latest_generation_available imd) g]> m))
        as -> by (unfold f; simpl; by rewrite Hi). cbn [mbind outcome_bind].
      rewrite IH; [|done|]; cycle 1.
      { intros k' Hk'. destruct (decide (k' = k)) as [->|Hne]; [by rewrite lookup_insert_eq|].
        rewrite lookup_insert_ne by done. apply Hin. set_solver. }
      f_equal. apply map_eq. intros k'. rewrite !lookup_accessed. destruct (decide (k = k')) as [<-|Hne].
      + rewrite !lookup_insert_eq, Hi. simpl. by rewrite not_elem_of_list_to_map_1.
      + by rewrite !lookup_insert_ne. }
  rewrite Hrun; [by rewrite list_to_map_to_list|apply NoDup_fst_map_to_list|].
  intros k ([k' g] & -> & Hin)%list_elem_of_fmap. apply Hm. apply elem_of_map_to_list in Hin. by exists g.
Qed.

(** A pass over the keys: every sample is replaced or removed by [upd] and
    contributes [mk] to the result. *)
Lemma pass_run {E R} (loc : E -> Timestamp * K) (upd : SampleWithMetaData D K -> option (SampleWithMetaData D K))
    (mk : E -> SampleWithMetaData D K -> list R) f (m : gmap K InstanceMetaData) :
  (forall p e d imd, pass_samples p !! (loc e).1 = Some d -> m !! (loc e).2 = Some imd ->
     f p e = Ret (mkPass (partial_alter (fun _ => upd d) (loc e).1 (pass_samples p))
                    (record_instance_generation_viewed (pass_gens p) (generation_counts d) (loc e).2)
                    (pass_results p ++ mk e d))) ->
  forall l p, NoDup (loc <$> l).*1 ->
  (forall e, e ∈ l -> is_Some (pass_samples p !! (loc e).1) /\ is_Some (m !! (loc e).2)) ->
  exists p', outcome_fold f p l = Ret p' /\
    (forall t, pass_samples p' !! t = if decide (t ∈ (loc <$> l).*1) then pass_samples p !! t ≫= upd else pass_samples p !! t) /\
    pass_gens p' = foldl (fun g e => match pass_samples p !! e.1 with
                     | Some d => record_instance_generation_viewed g (generation_counts d) e.2
                     | None => g end) (pass_gens p) (loc <$> l) /\
    pass_results p' = pass_results p ++ concat ((fun e => default [] (mk e <$> pass_samples p !! (loc e).1)) <$> l).
Proof.
  intros Hf l. induction l as [|e l IH]; intros p Hnd Hin; csimpl.
  - exists p. split; [done|]. split; [done|by rewrite app_nil_r].
  - csimpl in Hnd. apply NoDup_cons in Hnd as [Hni Hnd]. destruct (Hin e ltac:(set_solver)) as [[d Hd] [imd Hi]].
    rewrite (Hf p e d imd Hd Hi). cbn [mbind outcome_bind].
    set (p1 := mkPass _ _ _).
    assert (forall t, t <> (loc e).1 -> pass_samples p1 !! t = pass_samples p !! t) as Hp1
      by (intros t Ht; simpl; by rewrite lookup_partial_alter_ne).
    assert (forall e', e' ∈ l -> pass_samples p1 !! (loc e').1 = pass_samples p !! (loc e').1) as Hl.
    { intros e' He'. apply Hp1. intros E'. apply Hni. rewrite <- E'. apply list_elem_of_fmap_2, list_elem_of_fmap_2, He'. }
    destruct (IH p1 Hnd) as (p' & Erun & Hs & Hg & Hr).
    { intros e' He'. rewrite Hl by done. apply Hin. set_solver. }
    exists p'. split; [done|]. split; [|split].
    + intros t. rewrite Hs. destruct (decide (t = (loc e).1)) as [->|Hne].
      * rewrite decide_False by done. rewrite decide_True by set_solver. simpl. by rewrite lookup_partial_alter_eq, Hd.
      * rewrite Hp1 by done. repeat case_decide; set_solver.
    + rewrite Hg, Hd. simpl. clear -Hl.
      generalize (record_instance_generation_viewed (pass_gens p) (generation_counts d) (loc e).2) as g.
      induction l as [|e' l IH]; intros g; csimpl; [done|]. rewrite Hl by set_solver. apply IH. set_solver.
    + rewrite Hr, Hd. simpl. rewrite <- app_assoc. do 2 f_equal. f_equal. apply list_fmap_ext. intros i e' He'%list_elem_of_lookup_2.
      by rewrite Hl.
Qed.

(** What the application is told about a sample. *)
Definition describes (d : SampleWithMetaData D K) (imd : InstanceMetaData) (rank : Z) (x : DataSample D K) : Prop :=
  ds_value x = sample d /\
  si_sample_state (sample_info x) = (if sample_has_been_read d then SS_Read else SS_NotRead) /\
  si_view_state (sample_info x) =
    (if total (last_generation_accessed imd) <? total (generation_counts d) then VS_New else VS_NotNew) /\
  si_instance_state (sample_info x) = imd_instance_state imd /\
  si_generation_counts (sample_info x) = generation_counts d /\
  publication_handle (sample_info x) = sw_writer_guid d /\
  si_sequence_number (sample_info x) = sw_sequence_number d /\
  si_write_options (sample_info x) = sw_write_options d /\
  sample_rank (sample_info x) = i32 rank.

(** What a call returns for the keys: one description for each, in their order. *)
Definition answers c (keys : list (Timestamp * K)) (res : list (DataSample D K)) : Prop :=
  Forall2 (fun e x => exists d imd, datasamples c !! e.2.1 = Some d /\ instance_map c !! e.2.2 = Some imd /\
             describes d imd (Z.of_nat (length keys) - Z.of_nat e.1 - 1) x) (enumerate keys) res.

Lemma valid_keys_instance c keys ts k :
  dsc_inv c -> valid_keys c keys -> (ts, k) ∈ keys ->
  is_Some (datasamples c !! ts) /\ is_Some (instance_map c !! k).
Proof.
  intros Hc [_ Hv] Hin. destruct (Hv ts k Hin) as (d & Hd & <-). split; [by exists d|].
  destruct (di_listed c Hc ts d Hd) as (imd & Hi & _). by exists imd.
Qed.

Lemma viewed_known c keys k :
  dsc_inv c -> valid_keys c keys -> is_Some (viewed (datasamples c) keys !! k) -> is_Some (instance_map c !! k).
Proof.
  intros Hc Hv [g Hg]. pose proof (viewed_spec c keys k Hv) as Hs. rewrite Hg in Hs. destruct Hs as (ts & d & Hin & _).
  by eapply valid_keys_instance.
Qed.

Lemma accessed_inv c ds gens :
  dsc_inv c -> (forall t d, ds !! t = Some d -> exists d', datasamples c !! t = Some d' /\ sample d = sample d') ->
  dsc_inv (mkDSC (dsc_qos c) ds (accessed (instance_map c) gens)).
Proof.
  intros Hc Hds. split; simpl.
  - intros ts d (d' & Hd' & ->)%Hds. destruct (di_listed c Hc ts d' Hd') as (imd & Hi & Hin). rewrite lookup_accessed, Hi.
    eexists. split; [done|]. by destruct (gens !! _).
  - intros k1 k2 i1 i2 t. rewrite !lookup_accessed. intros (j1 & H1 & ->)%fmap_Some (j2 & H2 & ->)%fmap_Some Ht1 Ht2.
    apply (di_apart c Hc k1 k2 j1 j2 t); [done|done|by destruct (gens !! k1)|by destruct (gens !! k2)].
Qed.

Lemma enumerate_snd {A} (l : list A) : (enumerate l).*2 = l.
Proof. unfold enumerate. rewrite fmap_imap. apply list_eq. intros i. rewrite list_lookup_imap. by destruct (l !! i). Qed.

Lemma totals_run c keys :
  dsc_inv c -> valid_keys c keys -> keys <> [] -> exists a b, mrsic_total c keys = Ret a /\ mrs_total c = Ret b.
Proof.
  intros Hc Hv Hne. destruct (last keys) as [[ts k]|] eqn:El; [|by apply last_None in El].
  assert ((ts, k) ∈ keys) as Hin by (apply last_Some in El as [l ->]; set_solver).
  destruct (valid_keys_instance c keys ts k Hc Hv Hin) as [[d Hd] [imd Hi]].
  destruct (last (bt_iter (datasamples c))) as [e|] eqn:Eb.
  - unfold mrsic_total, mrs_total. rewrite El, Eb. simpl. rewrite Hi. simpl. eauto.
  - apply last_None in Eb. apply elem_of_bt_iter in Hd. rewrite Eb in Hd. by apply elem_of_nil in Hd.
Qed.

Lemma concat_Forall2 {A B} (P : A -> B -> Prop) (f : A -> list B) l :
  (forall e, e ∈ l -> exists x, f e = [x] /\ P e x) -> Forall2 P l (concat (f <$> l)).
Proof.
  induction l as [|e l IH]; intros Hl; csimpl; [constructor|]. destruct (Hl e ltac:(set_solver)) as (x & -> & Hx).
  constructor; [done|]. apply IH. set_solver.
Qed.

Lemma construct_run (Q : nat * (Timestamp * K) -> SampleInfo -> Prop) samples es infos res :
  Forall2 Q es infos -> (forall e, e ∈ es -> is_Some (samples !! e.2.1)) ->
  exists out, outcome_fold (construct_result samples) (res, infos) es.*2 = Ret (res ++ out, []) /\
    Forall2 (fun e x => Q e (sample_info x) /\ exists d : SampleWithMetaData D K, samples !! e.2.1 = Some d /\ ds_value x = sample d) es out.
Proof.
  intros HQ. revert res. induction HQ as [|e info es infos He HQ IH]; intros res Hin; csimpl.
  - exists []. by rewrite app_nil_r.
  - destruct (Hin e ltac:(set_solver)) as [d Hd]. rewrite Hd. cbn [rust_unwrap mbind outcome_bind head tail].
    destruct (IH (res ++ [mkDataSample info (sample d)]) ltac:(set_solver)) as (out & E & Hout).
    exists (mkDataSample info (sample d) :: out). rewrite E, <- app_assoc. split; [done|]. constructor; [|done]. simpl. eauto.
Qed.

(** The samples of the keys. *)
Definition values c (keys : list (Timestamp * K)) : list (Sample D K) :=
  omap (fun e => sample <$> datasamples c !! e.1) keys.

Lemma answers_values c keys res : answers c keys res -> ds_value <$> res = values c keys.
Proof.
  unfold answers. intros Ha. transitivity (values c (enumerate keys).*2); [|by rewrite enumerate_snd]. unfold values.
  induction Ha as [|e x es res (d & imd & Hd & _ & Hx & _) _ IH]; csimpl; [done|]. rewrite Hd. simpl. by rewrite Hx, IH.
Qed.

(** The cache after the keys were accessed: the samples as [upd] leaves them. *)
Definition after_access c (upd : SampleWithMetaData D K -> option (SampleWithMetaData D K))
    (keys : list (Timestamp * K)) c' : Prop :=
  dsc_inv c' /\ dsc_qos c' = dsc_qos c /\
  (forall t, datasamples c' !! t = if decide (t ∈ keys.*1) then datasamples c !! t ≫= upd else datasamples c !! t) /\
  instance_map c' = accessed (instance_map c) (viewed (datasamples c) keys).

Lemma after_access_cache c upd keys ds :
  dsc_inv c -> (forall d d', upd d = Some d' -> sample d' = sample d) ->
  (forall t, ds !! t = if decide (t ∈ keys.*1) then datasamples c !! t ≫= upd else datasamples c !! t) ->
  after_access c upd keys (mkDSC (dsc_qos c) ds (accessed (instance_map c) (viewed (datasamples c) keys))).
Proof.
  intros Hc Hu Hds. split; [|done]. apply accessed_inv; [done|]. intros t d. rewrite Hds. case_decide; [|eauto].
  intros (d' & Hd' & E)%bind_Some. eauto.
Qed.

Lemma enumerate_valid c keys e :
  dsc_inv c -> valid_keys c keys -> e ∈ enumerate keys ->
  is_Some (datasamples c !! e.2.1) /\ is_Some (instance_map c !! e.2.2).
Proof.
  intros Hc Hv He. apply (list_elem_of_fmap_2 snd) in He. rewrite enumerate_snd in He. destruct e as [i [t k]].
  by eapply valid_keys_instance.
Qed.

(** [describes] is what [make_sample_info] says. *)
Lemma make_info_describes d imd rank mrs mrsic x :
  sample_info x = make_sample_info d imd rank mrs mrsic -> ds_value x = sample d -> describes d imd rank x.
Proof. unfold describes. by intros -> ->. Qed.

Lemma after_access_none c upd : dsc_inv c -> after_access c upd [] c.
Proof.
  intros Hc. split; [done|]. split; [done|]. split; [done|]. apply map_eq. intros k. rewrite lookup_accessed. unfold viewed. simpl.
  rewrite lookup_empty. by destruct (instance_map c !! k).
Qed.

(** A pass over the keys of the cache that starts from its samples. *)
Lemma cache_pass {E R} (loc : E -> Timestamp * K) upd (mk : E -> SampleWithMetaData D K -> list R) f c keys es :
  dsc_inv c -> valid_keys c keys -> loc <$> es = keys -> (forall d d', upd d = Some d' -> sample d' = sample d) ->
  (forall p e d imd, pass_samples p !! (loc e).1 = Some d -> instance_map c !! (loc e).2 = Some imd ->
     f p e = Ret (mkPass (partial_alter (fun _ => upd d) (loc e).1 (pass_samples p))
                    (record_instance_generation_viewed (pass_gens p) (generation_counts d) (loc e).2)
                    (pass_results p ++ mk e d))) ->
  exists p, outcome_fold f (mkPass (datasamples c) ∅ []) es = Ret p /\
    (forall t, pass_samples p !! t = if decide (t ∈ keys.*1) then datasamples c !! t ≫= upd else datasamples c !! t) /\
    pass_results p = concat ((fun e => default [] (mk e <$> datasamples c !! (loc e).1)) <$> es) /\
    mark_instances_viewed (instance_map c) (pass_gens p) = Ret (accessed (instance_map c) (viewed (datasamples c) keys)) /\
    after_access c upd keys (mkDSC (dsc_qos c) (pass_samples p) (accessed (instance_map c) (viewed (datasamples c) keys))).
Proof.
  intros Hc Hv <- Hu Hf. destruct (pass_run loc upd mk f (instance_map c) Hf es (mkPass (datasamples c) ∅ [])) as (p & Ep & Hs & Hg & Hr).
  - apply Hv.
  - intros e He. apply (list_elem_of_fmap_2 loc) in He. destruct (loc e) as [t k]. by eapply valid_keys_instance.
  - exists p. split; [done|]. split; [done|]. split; [done|]. split; [|by apply after_access_cache].
    change (pass_gens p = viewed (datasamples c) (loc <$> es)) in Hg. rewrite Hg. apply mark_instances_run.
    intros k. by apply viewed_known.
Qed.

Lemma take_run c keys :
  dsc_inv c -> valid_keys c keys ->
  exists res c', take_by_keys c keys = Ret (res, c') /\ answers c keys res /\ after_access c (fun _ => None) keys c'.
Proof.
  intros Hc Hv. unfold take_by_keys. destruct (Nat.eqb_spec (length keys) 0) as [E0%nil_length_inv|E0].
  { subst. exists [], c. split; [done|]. split; [constructor|by apply after_access_none]. }
  destruct (totals_run c keys Hc Hv) as (mrsic & mrs & -> & ->); [by destruct keys|]. cbn [mbind outcome_bind].
  set (info (e : nat * (Timestamp * K)) (d : SampleWithMetaData D K) imd := mkDataSample (make_sample_info d imd (Z.of_nat (length keys) - Z.of_nat e.1 - 1) mrs mrsic) (sample d)).
  destruct (cache_pass snd (fun _ => None) (fun e d => default [] ((fun imd => [info e d imd]) <$> instance_map c !! e.2.2))
    (take_step (instance_map c) (length keys) mrs mrsic) c keys (enumerate keys)) as (p & -> & Hs & Hr & Hm & Ha);
    [done|done|apply enumerate_snd|done| |].
  { intros p [i [t k]] d imd Hd Hi. simpl in *. by rewrite Hd, Hi. }
  cbn [mbind outcome_bind]. rewrite Hm. eexists _, _. split; [done|]. split; [|exact Ha].
  rewrite Hr. apply concat_Forall2. intros e He. destruct (enumerate_valid c keys e Hc Hv He) as [[d Hd] [imd Hi]].
  rewrite Hd, Hi. simpl. eexists. split; [done|]. exists d, imd. split; [done|]. split; [done|]. by eapply make_info_describes.
Qed.

Lemma read_run c keys :
  dsc_inv c -> valid_keys c keys ->
  exists res c', read_by_keys c keys = Ret (res, c') /\ answers c keys res /\ after_access c (fun d => Some (mark_read d)) keys c'.
Proof.
  intros Hc Hv. unfold read_by_keys. destruct (Nat.eqb_spec (length keys) 0) as [E0%nil_length_inv|E0].
  { subst. exists [], c. split; [done|]. split; [constructor|by apply after_access_none]. }
  destruct (totals_run c keys Hc Hv) as (mrsic & mrs & -> & ->); [by destruct keys|]. cbn [mbind outcome_bind].
  set (info (e : nat * (Timestamp * K)) (d : SampleWithMetaData D K) imd := make_sample_info d imd (Z.of_nat (length keys) - Z.of_nat e.1 - 1) mrs mrsic).
  destruct (cache_pass snd (fun d => Some (mark_read d)) (fun e d => default [] ((fun imd => [info e d imd]) <$> instance_map c !! e.2.2))
    (read_step (instance_map c) (length keys) mrs mrsic) c keys (enumerate keys)) as (p & -> & Hs & Hr & Hm & Ha);
    [done|done|apply enumerate_snd|by intros d d' [= <-]| |].
  { intros p [i [t k]] d imd Hd Hi. simpl in *. by rewrite Hd, Hi. }
  cbn [mbind outcome_bind]. rewrite Hm. cbn [mbind outcome_bind].
  set (Q (e : nat * (Timestamp * K)) x := exists d imd, datasamples c !! e.2.1 = Some d /\ instance_map c !! e.2.2 = Some imd /\ x = info e d imd).
  destruct (construct_run Q (pass_samples p) (enumerate keys) (pass_results p) []) as (out & Eout & Hout).
  { rewrite Hr. apply concat_Forall2. intros e He. destruct (enumerate_valid c keys e Hc Hv He) as [[d Hd] [imd Hi]].
    rewrite Hd, Hi. simpl. eexists. split; [done|]. exists d, imd. done. }
  { intros e He. rewrite Hs. destruct (enumerate_valid c keys e Hc Hv He) as [[d Hd] _]. rewrite Hd. by case_decide. }
  rewrite enumerate_snd in Eout. rewrite Eout. eexists _, _. split; [done|]. split; [|exact Ha].
  eapply Forall2_impl; [exact Hout|]. intros e x [(d & imd & Hd & Hi & Ex) (d' & Hd' & Ev)]. exists d, imd.
  split; [done|]. split; [done|]. eapply make_info_describes; [exact Ex|]. rewrite Ev.
  rewrite Hs, Hd in Hd'. case_decide; by injection Hd' as <-.
Qed.

Lemma take_bare_run c keys res c' :
  dsc_inv c -> valid_keys c keys -> take_by_keys c keys = Ret (res, c') -> take_bare_by_keys c keys = Ret (ds_value <$> res, c').
Proof.
  intros Hc Hv Ht. destruct (take_run c keys Hc Hv) as (res' & c'' & E & Ha & (_ & Eq & Hds & Hm)).
  rewrite E in Ht. injection Ht as -> ->. unfold take_bare_by_keys. unfold take_by_keys in E.
  destruct (Nat.eqb_spec (length keys) 0) as [E0%nil_length_inv|E0]; [by injection E as <- <-|]. clear E.
  destruct (cache_pass (fun e => e) (fun _ => None) (fun _ d => [sample d]) take_bare_step c keys keys) as (p & -> & Hs & Hr & Hmk & _);
    [done|done|apply list_fmap_id|done| |].
  { intros p [t k] d imd Hd Hi. simpl in *. by rewrite Hd. }
  cbn [mbind outcome_bind]. rewrite Hmk. cbn [mbind outcome_bind]. rewrite Hr, (answers_values c keys res Ha), <- Eq, <- Hm. f_equal. f_equal.
  - unfold values. clear -Hv. induction keys as [|e l IH]; csimpl; [done|]. destruct Hv as [Hnd Hv].
    destruct e as [t k]. destruct (Hv t k ltac:(set_solver)) as (d & Hd & _). simpl. rewrite Hd. simpl. f_equal. apply IH.
    split; [by apply NoDup_cons in Hnd as [_ ?]|]. intros; apply Hv. set_solver.
  - destruct c' as [q ds m]. simpl. f_equal. apply map_eq. intros t. by rewrite Hs, <- Hds.
Qed.

Lemma construct_bare_run (samples : gmap Timestamp (SampleWithMetaData D K)) keys res :
  (forall e, e ∈ keys -> is_Some (samples !! e.1)) ->
  outcome_fold (construct_bare samples) res keys = Ret (res ++ omap (fun e : Timestamp * K => sample <$> samples !! e.1) keys).
Proof.
  revert res. induction keys as [|e l IH]; intros res Hin; [by rewrite app_nil_r|].
  destruct (Hin e ltac:(set_solver)) as [d Hd]. cbn [outcome_fold].
  assert (construct_bare samples res e = Ret (res ++ [sample d])) as -> by (unfold construct_bare; by rewrite Hd).
  cbn [mbind outcome_bind]. rewrite IH by set_solver. csimpl. rewrite Hd. by rewrite <- app_assoc.
Qed.

Lemma read_bare_run c keys res c' :
  dsc_inv c -> valid_keys c keys -> read_by_keys c keys = Ret (res, c') -> read_bare_by_keys c keys = Ret (ds_value <$> res, c').
Proof.
  intros Hc Hv Ht. destruct (read_run c keys Hc Hv) as (res' & c'' & E & Ha & (_ & Eq & Hds & Hm)).
  rewrite E in Ht. injection Ht as -> ->. unfold read_bare_by_keys. unfold read_by_keys in E.
  destruct (Nat.eqb_spec (length keys) 0) as [E0%nil_length_inv|E0]; [by injection E as <- <-|]. clear E.
  destruct (cache_pass (fun e => e) (fun d => Some (mark_read d)) (fun _ _ => []) read_bare_step c keys keys) as (p & -> & Hs & _ & Hmk & _);
    [done|done|apply list_fmap_id|by intros d d' [= <-]| |].
  { intros p [t k] d imd Hd Hi. simpl in *. rewrite Hd, app_nil_r. done. }
  cbn [mbind outcome_bind]. rewrite Hmk. cbn [mbind outcome_bind].
  assert (forall e, e ∈ keys -> sample <$> pass_samples p !! e.1 = sample <$> datasamples c !! e.1) as Hsame.
  { intros e He. rewrite Hs. case_decide; [|done]. by destruct (datasamples c !! e.1). }
  rewrite construct_bare_run.
  - rewrite (answers_values c keys res Ha), <- Eq, <- Hm. cbn [mbind outcome_bind app]. f_equal. f_equal.
    + unfold values. clear -Hsame. induction keys as [|e l IH]; csimpl; [done|]. rewrite Hsame by set_solver. rewrite IH by set_solver. done.
    + destruct c' as [q ds m]. simpl. f_equal. apply map_eq. intros t. by rewrite Hs, <- Hds.
  - intros [t k] He. rewrite Hs. cbn [fst]. destruct (valid_keys_instance c keys t k Hc Hv He) as [[d Hd] _]. rewrite Hd. by case_decide.
Qed.

(** What an access leaves of the instances: those of the keys have as the
    generation last accessed that of the sample of theirs, among the keys, with the
    most generations; nothing else of them changes, and no other instance. *)
Definition instances_viewed c (keys : list (Timestamp * K)) c' : Prop :=
  forall k, match instance_map c !! k with
            | None => instance_map c' !! k = None
            | Some imd =>
                (k ∉ keys.*2 -> instance_map c' !! k = Some imd) /\
                (k ∈ keys.*2 -> exists ts d, (ts, k) ∈ keys /\ datasamples c !! ts = Some d /\
                   (forall ts' d', (ts', k) ∈ keys -> datasamples c !! ts' = Some d' ->
                      generations (generation_counts d') <= generations (generation_counts d)) /\
                   instance_map c' !! k = Some (mkIMD (instance_samples imd) (imd_instance_state imd)
                     (latest_generation_available imd) (generation_counts d)))
            end.

Lemma after_access_viewed c upd keys c' : valid_keys c keys -> after_access c upd keys c' -> instances_viewed c keys c'.
Proof.
  intros Hv (_ & _ & _ & Hm) k. rewrite Hm, lookup_accessed. destruct (instance_map c !! k) as [imd|]; [|done]. simpl.
  pose proof (viewed_spec c keys k Hv) as Hs. destruct (viewed (datasamples c) keys !! k) as [g|]; [|naive_solver].
  destruct Hs as (ts & d & Hin & Hd & -> & Hmax). split.
  - intros Hn. destruct Hn. apply list_elem_of_fmap. by exists (ts, k).
  - intros _. exists ts, d. eauto.
Qed.

(** C32: for keys that are in the cache, each once - any part of a selection -,
    taking and reading return without a panic. Each sample comes back once,
    unaltered and in the order of the keys, with the states, counts and writer it
    had before the call ([answers]); the variants without metadata return the same
    samples and leave the same cache. A take removes the samples of the keys, a
    read sets their read flag and changes nothing else of them; every other sample
    stays as it was. Of the instances, only the generation last accessed changes,
    and only for those that were accessed ([instances_viewed]). *)
Theorem access_correct c keys :
  dsc_inv c -> valid_keys c keys ->
  (exists res c', take_by_keys c keys = Ret (res, c') /\ take_bare_by_keys c keys = Ret (ds_value <$> res, c') /\
     answers c keys res /\ dsc_inv c' /\ dsc_qos c' = dsc_qos c /\ instances_viewed c keys c' /\
     forall t, datasamples c' !! t = if decide (t ∈ keys.*1) then None else datasamples c !! t) /\
  (exists res c', read_by_keys c keys = Ret (res, c') /\ read_bare_by_keys c keys = Ret (ds_value <$> res, c') /\
     answers c keys res /\ dsc_inv c' /\ dsc_qos c' = dsc_qos c /\ instances_viewed c keys c' /\
     (forall t, t ∉ keys.*1 -> datasamples c' !! t = datasamples c !! t) /\
     forall t d, t ∈ keys.*1 -> datasamples c !! t = Some d ->
       datasamples c' !! t = Some (mkSWMD (generation_counts d) (sw_writer_guid d) (sw_sequence_number d)
                                     (sw_write_options d) true (sample d))).
Proof.
  intros Hc Hv. split.
  - destruct (take_run c keys Hc Hv) as (res & c' & E & ? & Ha). exists res, c'. pose proof (take_bare_run c keys res c' Hc Hv E).
    pose proof (after_access_viewed _ _ _ _ Hv Ha). destruct Ha as (? & ? & Hds & _). split_and!; [done..|].
    intros t. rewrite Hds. case_decide; [by destruct (datasamples c !! t)|done].
  - destruct (read_run c keys Hc Hv) as (res & c' & E & ? & Ha). exists res, c'. pose proof (read_bare_run c keys res c' Hc Hv E).
    pose proof (after_access_viewed _ _ _ _ Hv Ha). destruct Ha as (? & ? & Hds & _). split_and!; [done..| |].
    + intros t Ht. by rewrite Hds, decide_False.
    + intros t d Ht Hd. by rewrite Hds, decide_True, Hd by done.
Qed.

(** Any part of a selection will do. *)
Lemma selection_valid c rc l n :
  dsc_inv c -> select_keys_for_access c rc = Ret l -> valid_keys c (take n l).
Proof.
  intros Hc. rewrite select_keys_run by done. intros [= <-]. split.
  - pose proof (selection_sorted c rc) as Hs. apply (StronglySorted_take _ n) in Hs. revert Hs.
    generalize (take n (omap (select_entry c rc) (bt_iter (datasamples c)))) as l. clear. intros l Hs.
    induction Hs as [|e l Hl IH He]; csimpl; [constructor|]. constructor; [|done].
    intros (e' & E & Hin)%list_elem_of_fmap. rewrite Forall_forall in He. specialize (He e' Hin). unfold earlier in He.
    rewrite <- E in He. by apply klt_irrefl in He.
  - intros ts k Hin%(subseteq_take _ _ (ts, k)). apply elem_of_selection in Hin as (d & imd & Hd & Hk & _). eauto.
Qed.

(** ** Where the cache does not do what it means to *)

(** With history KEEP_ALL and resource limits of LENGTH_UNLIMITED, the cache
    removes every sample of an instance, the new one too, as soon as it is added. *)
Theorem unlimited_drops_samples c s w sn ts wo m i :
  dsc_inv c -> unused c ts -> history (dsc_qos c) = Some KeepAll ->
  resource_limits (dsc_qos c) = Some (mkResourceLimits m i LENGTH_UNLIMITED) ->
  Z.of_nat (size (stamps_with c (sample_key s) ts)) < 2 ^ 31 - 1 ->
  exists c' imd, add_sample c s w sn ts wo = Ret c' /\ instance_map c' !! sample_key s = Some imd /\
    instance_samples imd = ∅ /\
    forall t, t ∈ stamps_with c (sample_key s) ts -> datasamples c' !! t = None.
Proof.
  intros Hc Hu Hh Hr Hsz. rewrite add_sample_run by (by apply unused_not_stored). set (S := stamps_with c (sample_key s) ts) in *.
  assert (forall t, t ∈ keys_to_remove (dsc_qos c) S <-> t ∈ S) as Hall.
  { intros t. unfold keys_to_remove, instance_keep_count. rewrite Hh, Hr. cbn [fmap option_fmap option_map max_samples_per_instance].
    unfold LENGTH_UNLIMITED. rewrite (wrap_s_id 32 (Z.of_nat (size S))) by bounds_lia. rewrite wrap_s_id by bounds_lia.
    destruct (Z.ltb_spec 0 (Z.of_nat (size S) - -1)); [|lia]. rewrite take_ge by (rewrite length_bs_iter; lia). apply elem_of_bs_iter. }
  eexists _, _. split; [done|]. simpl. rewrite lookup_insert_eq. split; [done|]. split; [simpl; set_solver|].
  intros t Ht. rewrite lookup_delete_all, decide_True by (by apply Hall). done.
Qed.

(** A sample that was taken still counts as one of the samples its instance
    keeps: when the time stamps of the instance exceed the depth by one, the oldest
    sample is pushed out, however few samples of the instance have been left there
    by a take. *)
Theorem taken_samples_count c keys res c' s w sn ts wo n t0 :
  let S := stamps_with c (sample_key s) ts in
  dsc_inv c -> valid_keys c keys -> take_by_keys c keys = Ret (res, c') -> unused c ts ->
  instance_keep_count (dsc_qos c) = Some n -> Z.of_nat (size S) = n + 1 -> n < 2 ^ 31 - 1 -> bs_first S = Some t0 ->
  exists c'', add_sample c' s w sn ts wo = Ret c'' /\ datasamples c'' !! t0 = None.
Proof.
  intros S Hc Hv Ht Hu Hn Hsz Hb Hf. destruct (take_run c keys Hc Hv) as (res' & c1 & E & _ & (Hc' & Eq & Hds & Hm)).
  rewrite E in Ht. injection Ht as -> ->.
  assert (forall k, instance_samples <$> instance_map c' !! k = instance_samples <$> instance_map c !! k) as Hsame.
  { intros k. rewrite Hm, lookup_accessed. destruct (instance_map c !! k); simpl; [|done]. by destruct (viewed _ _ !! k). }
  assert (stamps_with c' (sample_key s) ts = S) as ES by (unfold stamps_with; by rewrite Hsame).
  assert (unused c' ts) as Hu'.
  { intros k imd Hi. specialize (Hsame k). rewrite Hi in Hsame. simpl in Hsame. destruct (instance_map c !! k) as [j|] eqn:Ej; [|done].
    injection Hsame as ->. by eapply Hu. }
  rewrite add_sample_run by (by apply unused_not_stored). eexists. split; [done|]. rewrite ES, Eq. simpl.
  rewrite lookup_delete_all, decide_True; [done|]. unfold keys_to_remove. rewrite Hn, Hsz.
  rewrite (wrap_s_id 32 (n + 1)) by bounds_lia. replace (n + 1 - n) with 1 by lia. cbn.
  unfold bs_first in Hf. destruct (bs_iter S) as [|x l]; [done|]. injection Hf as ->. simpl. set_solver.
Qed.

(** Reading a sample of an old generation makes the newer generations of its
    instance new again, even if they had been read: the generation last accessed
    is that of the last call, not the latest of all. *)
Theorem view_state_reverts c t1 t2 d1 d2 :
  dsc_inv c -> datasamples c !! t1 = Some d1 -> datasamples c !! t2 = Some d2 ->
  sample_key (sample d2) = sample_key (sample d1) -> total (generation_counts d1) < total (generation_counts d2) ->
  exists res c', read_by_keys c [(t1, sample_key (sample d1))] = Ret (res, c') /\
    selected c' (mkRC SampleState_any (ViewState_bits VS_New) InstanceState_any) t2 (sample_key (sample d1)).
Proof.
  intros Hc H1 H2 Hk Hlt. set (k := sample_key (sample d1)) in *.
  assert (valid_keys c [(t1, k)]) as Hv.
  { split; [simpl; apply NoDup_singleton|]. intros ts k' [= -> ->]%list_elem_of_singleton. eauto. }
  destruct (read_run c _ Hc Hv) as (res & c' & E & _ & (Hc' & _ & Hds & Hm)). exists res, c'. split; [done|].
  destruct (di_listed c Hc t1 d1 H1) as (imd & Hi & _). fold k in Hi.
  assert (t2 <> t1) as Hne by (intros ->; simplify_eq; lia).
  exists d2, (mkIMD (instance_samples imd) (imd_instance_state imd) (latest_generation_available imd) (generation_counts d1)).
  split; [rewrite Hds, decide_False by set_solver; done|]. split; [done|]. split.
  - rewrite Hm, lookup_accessed, Hi. simpl. unfold viewed. simpl. rewrite H1. unfold record_instance_generation_viewed.
    by rewrite lookup_empty, lookup_insert_eq.
  - split; [by destruct (sample_has_been_read d2)|]. unfold is_new. simpl.
    split; [done|]. split; [intros Hn; destruct Hn; exact Hlt|]. by destruct (imd_instance_state imd).
Qed.
End cache.

(** ** A small cache: samples are pairs of a key and a value *)

#[local] Instance demo_keyed : Keyed (Z * Z) Z := fst.

Definition demo_keep (h : History) (rl : option ResourceLimits) : QosPolicies :=
  mkQos None None None None None None None None None (Some h) rl None.
Definition demo_wo : WriteOptions := mkWriteOptions None None None.
Definition demo_t (n : Z) : Timestamp := mkTimestamp n 0.

(** An instance disposed and written again: a sample of each of two generations. *)
Definition demo_swmd (gen : Z) (v : Z) : SampleWithMetaData (Z * Z) Z :=
  mkSWMD (mkGC gen 0) GUID_UNKNOWN v demo_wo true (Sample_Value (5, v)).
Definition demo_cache (q : QosPolicies) : DataSampleCache (Z * Z) Z :=
  mkDSC q {[demo_t 1 := demo_swmd 0 1; demo_t 2 := demo_swmd 1 2]}
    {[5 := mkIMD {[demo_t 1; demo_t 2]} IS_Alive (mkGC 1 0) (mkGC 1 0)]}.

Lemma demo_cache_inv q : dsc_inv (demo_cache q).
Proof.
  split; simpl.
  - intros ts d. rewrite lookup_insert_Some, lookup_singleton_Some. intros [[<- <-]|[_ [<- <-]]];
      (eexists; split; [apply lookup_singleton_eq|set_solver]).
  - intros k1 k2 i1 i2 ts [<- _]%lookup_singleton_Some [<- _]%lookup_singleton_Some. done.
Qed.

Lemma demo_cache_unused q : unused (demo_cache q) (demo_t 3).
Proof. intros k imd. cbn [demo_cache instance_map]. intros [_ <-]%lookup_singleton_Some. vm_compute. discriminate. Qed.

Definition demo_new : Sample (Z * Z) Z := Sample_Value (5, 3).

Lemma add_sample_correct_witness :
  exists c', add_sample (demo_cache (demo_keep (KeepLast 2) None)) demo_new GUID_UNKNOWN 3 (demo_t 3) demo_wo = Ret c' /\
    datasamples c' !! demo_t 1 = None /\ datasamples c' !! demo_t 2 = Some (demo_swmd 1 2).
Proof.
  destruct (add_sample_correct (demo_cache (demo_keep (KeepLast 2) None)) demo_new GUID_UNKNOWN 3 (demo_t 3) demo_wo)
    as (c' & imd & E & _ & _ & _ & _ & _ & _ & Hn & Hout & Hin & _).
  - apply demo_cache_inv.
  - apply demo_cache_unused.
  - split; [vm_compute; reflexivity|]. intros n [= <-]. split; [discriminate|reflexivity].
  - exists c'. split; [exact E|].
    assert (bs_iter (instance_samples imd) = [demo_t 2; demo_t 3]) as Hn' by (rewrite Hn; vm_compute; reflexivity).
    assert (forall t, t ∈ instance_samples imd <-> t ∈ [demo_t 2; demo_t 3]) as Hs
      by (intros t; rewrite <- elem_of_bs_iter, Hn'; reflexivity).
    split.
    + apply Hout; [vm_compute; reflexivity|]. rewrite Hs. set_solver.
    + rewrite Hin; [reflexivity|discriminate|]. right. apply Hs. set_solver.
Defined.

Lemma selection_correct_witness :
  exists l, select_keys_for_access (demo_cache (demo_keep (KeepLast 2) None)) (mkRC SampleState_any (ViewState_bits VS_NotNew) InstanceState_any) = Ret l /\
    (demo_t 1, 5) ∈ l.
Proof.
  destruct (selection_correct (demo_cache (demo_keep (KeepLast 2) None)) (mkRC SampleState_any (ViewState_bits VS_NotNew) InstanceState_any))
    as (l & E & _ & Hl & _).
  - apply demo_cache_inv.
  - exists l. split; [exact E|]. apply Hl. eexists _, _. split; [reflexivity|]. split; [reflexivity|]. split; [reflexivity|].
    split; [reflexivity|]. split; [intros Hn; vm_compute in Hn; discriminate Hn|]. split; [intros _; reflexivity|reflexivity].
Defined.

Lemma demo_keys_valid q : valid_keys (demo_cache q) [(demo_t 1, 5)].
Proof. split; [apply NoDup_singleton|]. intros ts k [= -> ->]%list_elem_of_singleton. exists (demo_swmd 0 1). done. Qed.

Lemma access_correct_witness :
  exists res c', take_by_keys (demo_cache (demo_keep (KeepLast 2) None)) [(demo_t 1, 5)] = Ret (res, c') /\
    ds_value <$> res = [Sample_Value (5, 1)] /\ datasamples c' !! demo_t 1 = None.
Proof.
  destruct (access_correct (demo_cache (demo_keep (KeepLast 2) None)) [(demo_t 1, 5)]) as [(res & c' & E & _ & Ha & _ & _ & _ & Hd) _].
  - apply demo_cache_inv.
  - apply demo_keys_valid.
  - exists res, c'. split; [exact E|]. split; [exact (answers_values _ _ _ Ha)|]. rewrite Hd. reflexivity.
Defined.

Definition demo_unlimited : QosPolicies :=
  demo_keep KeepAll (Some (mkResourceLimits LENGTH_UNLIMITED LENGTH_UNLIMITED LENGTH_UNLIMITED)).

Lemma unlimited_drops_samples_witness :
  exists c', add_sample (demo_cache demo_unlimited) demo_new GUID_UNKNOWN 3 (demo_t 3) demo_wo = Ret c' /\
    datasamples c' !! demo_t 3 = None.
Proof.
  destruct (unlimited_drops_samples (demo_cache demo_unlimited) demo_new GUID_UNKNOWN 3 (demo_t 3) demo_wo LENGTH_UNLIMITED LENGTH_UNLIMITED)
    as (c' & imd & E & _ & _ & Hn).
  - apply demo_cache_inv.
  - apply demo_cache_unused.
  - reflexivity.
  - reflexivity.
  - vm_compute. reflexivity.
  - exists c'. split; [exact E|]. apply Hn. vm_compute. reflexivity.
Defined.

Lemma taken_samples_count_witness :
  exists res c' c'', take_by_keys (demo_cache (demo_keep (KeepLast 2) None)) [(demo_t 2, 5)] = Ret (res, c') /\
    size (datasamples c') = 1%nat /\
    add_sample c' demo_new GUID_UNKNOWN 3 (demo_t 3) demo_wo = Ret c'' /\ datasamples c'' !! demo_t 1 = None.
Proof.
  assert (valid_keys (demo_cache (demo_keep (KeepLast 2) None)) [(demo_t 2, 5)]) as Hv.
  { split; [apply NoDup_singleton|]. intros ts k [= -> ->]%list_elem_of_singleton. exists (demo_swmd 1 2). done. }
  assert (exists x, take_by_keys (demo_cache (demo_keep (KeepLast 2) None)) [(demo_t 2, 5)] = Ret x /\ size (datasamples x.2) = 1%nat)
    as ([res c'] & Ht & Hs) by (eexists; split; [vm_compute; reflexivity|reflexivity]).
  destruct (taken_samples_count (demo_cache (demo_keep (KeepLast 2) None)) [(demo_t 2, 5)] res c' demo_new GUID_UNKNOWN 3 (demo_t 3) demo_wo 2 (demo_t 1))
    as (c'' & E & Hn).
  - apply demo_cache_inv.
  - exact Hv.
  - exact Ht.
  - apply demo_cache_unused.
  - reflexivity.
  - vm_compute. reflexivity.
  - reflexivity.
  - vm_compute. reflexivity.
  - exists res, c', c''. split; [exact Ht|]. split; [exact Hs|]. split; [exact E|exact Hn].
Defined.

Lemma view_state_reverts_witness :
  exists res c', read_by_keys (demo_cache (demo_keep (KeepLast 2) None)) [(demo_t 1, 5)] = Ret (res, c') /\
    selected c' (mkRC SampleState_any (ViewState_bits VS_New) InstanceState_any) (demo_t 2) 5.
Proof.
  destruct (view_state_reverts (demo_cache (demo_keep (KeepLast 2) None)) (demo_t 1) (demo_t 2) (demo_swmd 0 1) (demo_swmd 1 2))
    as (res & c' & E & Hs).
  - apply demo_cache_inv.
  - reflexivity.
  - reflexivity.
  - reflexivity.
  - vm_compute. reflexivity.
  - change (sample_key (sample (demo_swmd 0 1))) with 5 in E, Hs. exists res, c'. split; [exact E|exact Hs].
Defined.
