(* ===== verification/DataReader.v ===== *)
(** * The application's end: [SimpleDataReader] and [DataReader]

    [src/dds/with_key/simpledatareader.rs] takes the changes of a topic out of its
    cache one by one, keeps track of what was taken, and deserializes;
    [src/dds/with_key/datareader.rs] collects them in a [DataSampleCache] and gives
    the application access to it.

    The topic cache is shared with the RTPS reader and an argument of every call.
    Decoding is the application's and a class here.  Draining the notification
    channel has no effect on what is modelled, and the texts of errors are left
    out.  A loop that may not end takes fuel; [clock] gives the time that each of
    its rounds reads. *)

From S2P Require Import Prelude BTree Wire SequenceNumbers Time Guid Qos Payload Submessages DdsCache SampleCache.

(** The errors reading can return, of [src/dds/result.rs]. *)
Inductive ReadError := RE_Deserialization | RE_UnknownKey.
Definition ReadResult (A : Type) : Type := ReadError + A.

(** The traits [DeserializerAdapter] and [Key::hash_key]. *)
Class Decoder (D K : Type) := {
  supported_encodings : list RepresentationIdentifier;
  from_bytes : bytes -> RepresentationIdentifier -> option D;
  key_from_bytes : bytes -> RepresentationIdentifier -> option K;
  hash_key : K -> bool -> KeyHash;
}.

Record ReadState (K : Type) := mkReadState {
  latest_instant : Timestamp;
  last_read_sn : gmap GUID SequenceNumber;
  hash_to_key_map : gmap KeyHash K;
}.
Arguments mkReadState {K}.
Arguments latest_instant {K}.
Arguments last_read_sn {K}.
Arguments hash_to_key_map {K}.

(** [SimpleDataReader] and [DataReader]: the parts that are not handles. *)
Record SimpleDataReader (K : Type) := mkSDR { qos_policy : QosPolicies; read_state : ReadState K }.
Arguments mkSDR {K}.
Arguments qos_policy {K}.
Arguments read_state {K}.

Record DataReader (D K : Type) `{Countable K} := mkDR {
  simple_data_reader : SimpleDataReader K;
  datasample_cache : DataSampleCache D K;
}.
Arguments mkDR {D K EqDecision0 H}.
Arguments simple_data_reader {D K EqDecision0 H}.
Arguments datasample_cache {D K EqDecision0 H}.

Inductive SelectByKey := SelThis | SelNext.

Section reader.
Context {D K : Type} `{Countable K} `{!OrdKey K} `{!Keyed D K} `{!Decoder D K}.

Definition ReadState_new : ReadState K := mkReadState Timestamp_ZERO ∅ ∅.

(** [std::cmp::max] *)
Definition ts_max (a b : Timestamp) : Timestamp := if decide (kle a b) then b else a.

Definition try_take_undecoded (is_reliable : bool) (topic_cache : TopicCache) (latest : Timestamp)
    (last_read : gmap GUID SequenceNumber) (now : Timestamp) : outcome (list (Timestamp * CacheChange)) :=
  if is_reliable then Ret (get_changes_in_range_reliable topic_cache last_read)
  else get_changes_in_range_best_effort topic_cache latest now.

Definition update_hash_to_key_map (m : gmap KeyHash K) (deserialized : Sample D K) : gmap KeyHash K :=
  let instance_key := sample_key deserialized in
  <[hash_key instance_key false := instance_key]> m.

Definition deserialize_with (timestamp : Timestamp) (cc : CacheChange) (m : gmap KeyHash K)
  : ReadResult (DeserializedCacheChange D K) * gmap KeyHash K :=
  let result := DeserializedCacheChange_new timestamp cc in
  match cc_data_value cc with
  | DData serialized_payload =>
      match list_find (fun r => r = representation_identifier serialized_payload) supported_encodings with
      | Some (_, recognized_rep_id) =>
          match from_bytes (payload_value serialized_payload) recognized_rep_id with
          | Some payload =>
              let p := Sample_Value payload in (inr (result p), update_hash_to_key_map m p)
          | None => (inl RE_Deserialization, m)
          end
      | None => (inl RE_Deserialization, m)
      end
  | DDisposeByKey _ serialized_key =>
      match key_from_bytes (payload_value serialized_key) (representation_identifier serialized_key) with
      | Some key => let k := Sample_Dispose key in (inr (result k), update_hash_to_key_map m k)
      | None => (inl RE_Deserialization, m)
      end
  | DDisposeByKeyHash _ key_hash =>
      match m !! key_hash with
      | Some key => (inr (result (Sample_Dispose key)), m)
      | None => (inl RE_UnknownKey, m)
      end
  end.

(** The loop of [try_take_one_with]; the read pointers do not change in it. *)
Fixpoint take_loop (fuel : nat) (clock : nat -> Timestamp) (i : nat) (is_reliable : bool) (topic_cache : TopicCache)
    (st : ReadState K) : outcome (ReadResult (option (DeserializedCacheChange D K)) * ReadState K) :=
  match fuel with
  | O => Diverge
  | S fuel =>
      changes ← try_take_undecoded is_reliable topic_cache (latest_instant st) (last_read_sn st) (clock i);
      match head changes with
      | None => Ret (inr None, st)
      | Some (timestamp, cc) =>
          match deserialize_with timestamp cc (hash_to_key_map st) with
          | (inl RE_UnknownKey, m) =>
              take_loop fuel clock (S i) is_reliable topic_cache (mkReadState (latest_instant st) (last_read_sn st) m)
          | (result, m) =>
              Ret (match result with inl e => inl e | inr d => inr (Some d) end,
                   mkReadState (ts_max (latest_instant st) timestamp)
                     (<[cc_writer_guid cc := cc_sequence_number cc]> (last_read_sn st)) m)
          end
      end
  end.

Definition try_take_one (fuel : nat) (clock : nat -> Timestamp) (topic_cache : TopicCache) (r : SimpleDataReader K)
  : outcome (ReadResult (option (DeserializedCacheChange D K)) * SimpleDataReader K) :=
  res ← take_loop fuel clock 0 (is_reliable (qos_policy r)) topic_cache (read_state r);
  Ret (res.1, mkSDR (qos_policy r) res.2).

Definition DataReader_from_simple (r : SimpleDataReader K) : DataReader D K :=
  mkDR r (DataSampleCache_new (qos_policy r)).

(** [fill_and_lock_local_datasample_cache]: round [j] of the loop reads the times
    [clock j]. *)
Fixpoint fill_local_cache (fuel : nat) (clock : nat -> nat -> Timestamp) (j : nat) (topic_cache : TopicCache)
    (r : DataReader D K) : outcome (ReadResult unit * DataReader D K) :=
  match fuel with
  | O => Diverge
  | S fuel' =>
      res ← try_take_one fuel (clock j) topic_cache (simple_data_reader r);
      match res.1 with
      | inl e => Ret (inl e, mkDR res.2 (datasample_cache r))
      | inr None => Ret (inr tt, mkDR res.2 (datasample_cache r))
      | inr (Some dcc) =>
          c ← fill_from_deserialized_cache_change (datasample_cache r) dcc;
          fill_local_cache fuel' clock (S j) topic_cache (mkDR res.2 c)
      end
  end.

(** What every access has in common: fill the cache, select, truncate, access. *)
Definition filled_access {A} (fuel : nat) (clock : nat -> nat -> Timestamp) (topic_cache : TopicCache)
    (max_samples : Z) (select : DataSampleCache D K -> outcome (list (Timestamp * K)))
    (access : DataSampleCache D K -> list (Timestamp * K) -> outcome (list A * DataSampleCache D K))
    (r : DataReader D K) : outcome (ReadResult (list A) * DataReader D K) :=
  filled ← fill_local_cache fuel clock 0 topic_cache r;
  match filled.1 with
  | inl e => Ret (inl e, filled.2)
  | inr _ =>
      let c := datasample_cache filled.2 in
      selected ← select c;
      result ← access c (take (Z.to_nat max_samples) selected);
      Ret (inr result.1, mkDR (simple_data_reader filled.2) result.2)
  end.

Section calls.
Context (fuel : nat) (clock : nat -> nat -> Timestamp) (topic_cache : TopicCache).

Definition DataReader_read (max_samples : Z) (rc : ReadCondition) (r : DataReader D K)
  : outcome (ReadResult (list (DataSample D K)) * DataReader D K) :=
  filled_access fuel clock topic_cache max_samples (fun c => select_keys_for_access c rc) read_by_keys r.

Definition DataReader_take (max_samples : Z) (rc : ReadCondition) (r : DataReader D K)
  : outcome (ReadResult (list (DataSample D K)) * DataReader D K) :=
  filled_access fuel clock topic_cache max_samples (fun c => select_keys_for_access c rc) take_by_keys r.

Definition read_bare (max_samples : Z) (rc : ReadCondition) (r : DataReader D K)
  : outcome (ReadResult (list (Sample D K)) * DataReader D K) :=
  filled_access fuel clock topic_cache max_samples (fun c => select_keys_for_access c rc) read_bare_by_keys r.

Definition take_bare (max_samples : Z) (rc : ReadCondition) (r : DataReader D K)
  : outcome (ReadResult (list (Sample D K)) * DataReader D K) :=
  filled_access fuel clock topic_cache max_samples (fun c => select_keys_for_access c rc) take_bare_by_keys r.

(** [ds.pop()] of the result. *)
Definition pop_result {A} (res : ReadResult (list A) * DataReader D K) : ReadResult (option A) * DataReader D K :=
  (match res.1 with inl e => inl e | inr l => inr (last l) end, res.2).

Definition read_next_sample (r : DataReader D K) : outcome (ReadResult (option (DataSample D K)) * DataReader D K) :=
  res ← DataReader_read 1 ReadCondition_not_read r; Ret (pop_result res).
Definition take_next_sample (r : DataReader D K) : outcome (ReadResult (option (DataSample D K)) * DataReader D K) :=
  res ← DataReader_take 1 ReadCondition_not_read r; Ret (pop_result res).

Definition usize_max : Z := 2 ^ 64 - 1.

(** The iterators are lists. *)
Definition iterator (r : DataReader D K) : outcome (ReadResult (list (Sample D K)) * DataReader D K) :=
  read_bare usize_max ReadCondition_not_read r.
Definition conditional_iterator (rc : ReadCondition) (r : DataReader D K)
  : outcome (ReadResult (list (Sample D K)) * DataReader D K) := read_bare usize_max rc r.
Definition into_iterator (r : DataReader D K) : outcome (ReadResult (list (Sample D K)) * DataReader D K) :=
  take_bare usize_max ReadCondition_not_read r.
Definition into_conditional_iterator (rc : ReadCondition) (r : DataReader D K)
  : outcome (ReadResult (list (Sample D K)) * DataReader D K) := take_bare usize_max rc r.

Definition infer_key (c : DataSampleCache D K) (instance_key : option K) (this_or_next : SelectByKey) : option K :=
  match instance_key with
  | Some k => match this_or_next with SelThis => Some k | SelNext => next_key c k end
  | None => bt_first (instance_map c)
  end.

(** Without an instance nothing is selected, and nothing accessed. *)
Definition select_inferred (instance_key : option K) (this_or_next : SelectByKey) (rc : ReadCondition)
    (c : DataSampleCache D K) : outcome (list (Timestamp * K)) :=
  match infer_key c instance_key this_or_next with
  | Some k => Ret (select_instance_keys_for_access c k rc)
  | None => Ret []
  end.

Definition read_instance (max_samples : Z) (rc : ReadCondition) (instance_key : option K)
    (this_or_next : SelectByKey) (r : DataReader D K)
  : outcome (ReadResult (list (DataSample D K)) * DataReader D K) :=
  filled_access fuel clock topic_cache max_samples (select_inferred instance_key this_or_next rc) read_by_keys r.

Definition take_instance (max_samples : Z) (rc : ReadCondition) (instance_key : option K)
    (this_or_next : SelectByKey) (r : DataReader D K)
  : outcome (ReadResult (list (DataSample D K)) * DataReader D K) :=
  filled_access fuel clock topic_cache max_samples (select_inferred instance_key this_or_next rc) take_by_keys r.
End calls.
End reader.
