(* ===== verification/DataReaderTheorems.v ===== *)
(** * What the application gets

    Each change the topic cache releases to a reliable reader is handed over once
    and in order; a call on the [DataReader] ends and does on the sample cache what
    it says; and where an unknown key hash makes a call hang. *)

From S2P Require Import Prelude BTree Wire SequenceNumbers Time Guid Qos Payload Submessages DdsCache SampleCache SampleCacheTheorems DataReader.

(** ** Reading on in the topic cache *)

(** The read pointers are sequence numbers with a successor. *)
Definition pointers_ok (last : gmap GUID SequenceNumber) : Prop :=
  forall w sn, last !! w = Some sn -> i64_min <= sn < i64_max.

Lemma pointers_default last w : pointers_ok last -> i64_min <= default SequenceNumber_zero (last !! w) < i64_max.
Proof. intros H. destruct (last !! w) eqn:E; simpl; [by eapply H|vm_compute; done]. Qed.

Lemma filter_advance (l : list (SequenceNumber * Timestamp)) lo hi x xs :
  StronglySorted (fun p q => p.1 < q.1) l -> filter (fun p => lo < p.1 < hi) l = x :: xs ->
  filter (fun p => x.1 < p.1 < hi) l = xs.
Proof.
  intros Hs E. assert (lo < x.1 < hi) as Hx.
  { assert (x ∈ filter (fun p => lo < p.1 < hi) l) as Hin by (rewrite E; set_solver). by apply list_elem_of_filter in Hin as [? _]. }
  induction Hs as [|y l Hs IH Hy]; [done|]. rewrite filter_cons in E |- *. case_decide as Hd.
  - injection E as -> E. rewrite decide_False by lia. rewrite <- E. apply list_filter_ext.
    rewrite Forall_forall in Hy. intros p Hp. specialize (Hy p Hp). lia.
  - assert (x ∈ l) as Hin.
    { assert (x ∈ filter (fun p => lo < p.1 < hi) l) as Hin by (rewrite E; set_solver). by apply list_elem_of_filter in Hin as [_ ?]. }
    rewrite Forall_forall in Hy. specialize (Hy x Hin). rewrite decide_False by lia. by apply IH.
Qed.

(** The markers are sequence numbers. *)
Definition markers_ok (tc : TopicCache) : Prop := forall w, reliable_before tc w <= i64_max.

(** Within the changes of one writer, moving the pointer to the first leaves the
    others. *)
Lemma block_advance tc last w m t cc l :
  tc_inv tc -> markers_ok tc -> pointers_ok last -> sequence_numbers tc !! w = Some m ->
  reliable_block tc last (w, m) = (t, cc) :: l ->
  cc_writer_guid cc = w /\ i64_min <= cc_sequence_number cc < i64_max /\ tc_changes tc !! t = Some cc /\
  reliable_block tc (<[w := cc_sequence_number cc]> last) (w, m) = l.
Proof.
  intros [Hi _] Hmk Hp Hm E. unfold reliable_block, reliable_range in E |- *. rewrite lookup_insert_eq. cbn [default from_option id].
  pose proof (pointers_default last w Hp) as Hlo. specialize (Hmk w). set (lo := default SequenceNumber_zero (last !! w)) in *.
  rewrite sn_plus_1 in E by lia.
  assert (forall p, p ∈ bt_iter m -> exists cc', get_change tc p.2 = Some cc' /\ cc_is cc' w p.1) as Hall.
  { intros [sn t'] Hin%elem_of_bt_iter. apply Hi. unfold idx. by rewrite Hm. }
  assert (StronglySorted (fun p q : SequenceNumber * Timestamp => p.1 < q.1) (bt_iter m)) as Hs.
  { eapply StronglySorted_mono, bt_iter_sorted. intros p q. apply klt_Z. }
  destruct (filter (fun p => lo < p.1 < Z.max (reliable_before tc w) (lo + 1)) (bt_iter m)) as [|[sn t0] xs] eqn:Ef; [done|].
  assert ((sn, t0) ∈ bt_iter m /\ lo < sn < Z.max (reliable_before tc w) (lo + 1)) as [Hx Hr].
  { assert ((sn, t0) ∈ (sn, t0) :: xs) as Hin by set_solver. rewrite <- Ef in Hin. apply list_elem_of_filter in Hin as [? ?]. done. }
  destruct (Hall _ Hx) as (cc' & Hg & Hw & Hsn). cbn [fst snd] in Hg, Hsn. csimpl in E. rewrite Hg in E. csimpl in E.
  injection E as <- <- E. rewrite Hsn. split; [done|]. split; [lia|]. split; [exact Hg|]. change (id sn) with sn. rewrite sn_plus_1 by lia.
  replace (Z.max (reliable_before tc w) (sn + 1)) with (Z.max (reliable_before tc w) (lo + 1)) by lia.
  pose proof (filter_advance _ lo _ (sn, t0) xs Hs Ef) as Ha. cbn [fst] in Ha. by rewrite Ha.
Qed.

Lemma block_other tc last w sn e : e.1 <> w -> reliable_block tc (<[w := sn]> last) e = reliable_block tc last e.
Proof. destruct e as [w' m]. simpl. intros Hne. unfold reliable_block, reliable_range. by rewrite lookup_insert_ne. Qed.

(** Moving a read pointer to the first change that is released leaves the others,
    in their order. *)
Lemma reliable_advance tc last t cc l :
  tc_inv tc -> markers_ok tc -> pointers_ok last -> get_changes_in_range_reliable tc last = (t, cc) :: l ->
  tc_changes tc !! t = Some cc /\ i64_min <= cc_sequence_number cc < i64_max /\
  get_changes_in_range_reliable tc (<[cc_writer_guid cc := cc_sequence_number cc]> last) = l.
Proof.
  intros Hinv Hmk Hp. rewrite !reliable_blocks.
  assert (forall e, e ∈ bt_iter (sequence_numbers tc) -> sequence_numbers tc !! e.1 = Some e.2) as He
    by (intros [w m]; apply elem_of_bt_iter).
  pose proof (NoDup_bt_keys (sequence_numbers tc)) as Hnd. unfold bt_keys in Hnd.
  induction (bt_iter (sequence_numbers tc)) as [|[w m] es IH]; csimpl; [done|]. csimpl in Hnd. apply NoDup_cons in Hnd as [Hni Hnd].
  intros E. destruct (reliable_block tc last (w, m)) as [|[t0 cc0] b] eqn:Eb.
  - simpl in E. destruct (IH ltac:(set_solver) Hnd E) as (H1 & H2 & H3). split; [done|]. split; [done|].
    rewrite H3. rewrite block_other; [by rewrite Eb|]. simpl. intros ->.
    assert ((t, cc) ∈ concat (reliable_block tc last <$> es)) as Hin by (rewrite E; set_solver).
    apply list_elem_of_concat in Hin as (bl & Hbl & Hin). apply list_elem_of_fmap in Hbl as ([w' m'] & -> & Hes).
    destruct (reliable_block_sorted tc last w' m' Hinv (He (w', m') ltac:(set_solver))) as [Hw _]. rewrite Forall_forall in Hw.
    specialize (Hw _ Hin). simpl in Hw. apply Hni. rewrite Hw. by apply (list_elem_of_fmap_2 fst) in Hes.
  - simpl in E. injection E as <- <- <-. destruct (block_advance tc last w m t0 cc0 b) as (<- & H2 & H3 & H4);
      [done..|by apply (He (w, m)); set_solver|done|]. split; [done|]. split; [done|]. rewrite H4. f_equal. f_equal.
    apply list_fmap_ext. intros i e Hin%list_elem_of_lookup_2. apply block_other. intros Ee. apply Hni. rewrite <- Ee.
    by apply list_elem_of_fmap_2.
Qed.

Lemma pointers_advance last w sn : pointers_ok last -> i64_min <= sn < i64_max -> pointers_ok (<[w := sn]> last).
Proof. intros Hp Hsn w' sn'. rewrite lookup_insert_Some. intros [[_ <-]|[_ ?]]; [done|by eapply Hp]. Qed.

(** No time stamp is released twice. *)
Lemma reliable_NoDup tc last : tc_inv tc -> markers_ok tc -> pointers_ok last ->
  NoDup (get_changes_in_range_reliable tc last).*1.
Proof.
  intros Hinv Hmk Hp. remember (get_changes_in_range_reliable tc last) as l eqn:El. revert last Hp El.
  induction l as [|[t cc] l IH]; intros last Hp El; csimpl; [constructor|]. symmetry in El.
  destruct (reliable_advance tc last t cc l Hinv Hmk Hp El) as (Hc & Hsn & Hl).
  pose proof (pointers_advance last (cc_writer_guid cc) _ Hp Hsn) as Hp'. constructor; [|by eapply IH].
  intros ([t' cc'] & -> & Hin)%list_elem_of_fmap. rewrite <- Hl in Hin. apply elem_of_reliable in Hin as [Hc' [Hlt _]]; [|done..].
  simpl in Hc. rewrite Hc in Hc'. injection Hc' as <-. rewrite lookup_insert_eq in Hlt. simpl in Hlt. lia.
Qed.

Section reader.
Context {D K : Type} `{Countable K} `{!OrdKey K} `{!Keyed D K} `{!Decoder D K}.
Implicit Types (r : SimpleDataReader K) (dr : DataReader D K) (c : DataSampleCache D K).

(** ** Filling the cache *)

(** What becomes of the changes, if all can be decoded. *)
Fixpoint decode_all (m : gmap KeyHash K) (l : list (Timestamp * CacheChange))
  : option (list (DeserializedCacheChange D K) * gmap KeyHash K) :=
  match l with
  | [] => Some ([], m)
  | (t, cc) :: l =>
      match deserialize_with t cc m with
      | (inr d, m) => x ← decode_all m l; Some (d :: x.1, x.2)
      | _ => None
      end
  end.

(** The change that is decoded is the one that was received. *)
Lemma deserialize_instant t cc m d m' :
  deserialize_with t cc m = (inr d, m') ->
  receive_instant d = t /\ dcc_writer_guid d = cc_writer_guid cc /\ dcc_sequence_number d = cc_sequence_number cc.
Proof. unfold deserialize_with. intros E. by repeat case_match; simplify_eq. Qed.

Lemma decode_all_instants m l ds m' : decode_all m l = Some (ds, m') -> receive_instant <$> ds = l.*1.
Proof.
  revert m ds. induction l as [|[t cc] l IH]; intros m ds; simpl; [by intros [= <- <-]|].
  destruct (deserialize_with t cc m) as [[e|d] m1] eqn:E; [done|]. intros ([ds' m2] & E' & [= <- <-])%bind_Some.
  csimpl. apply deserialize_instant in E as (-> & _). f_equal. by eapply IH.
Qed.

(** Filling the local cache of a reliable reader adds every change that is
    released, in that order, and leaves none. *)
Lemma fill_reliable fuel clock j tc q st c ds m c' :
  is_reliable q = true -> tc_inv tc -> markers_ok tc -> pointers_ok (last_read_sn st) ->
  decode_all (hash_to_key_map st) (get_changes_in_range_reliable tc (last_read_sn st)) = Some (ds, m) ->
  outcome_fold fill_from_deserialized_cache_change c ds = Ret c' -> (length ds < fuel)%nat ->
  exists st', fill_local_cache fuel clock j tc (mkDR (mkSDR q st) c) = Ret (inr tt, mkDR (mkSDR q st') c') /\
    hash_to_key_map st' = m /\ pointers_ok (last_read_sn st') /\ get_changes_in_range_reliable tc (last_read_sn st') = [].
Proof.
  intros Hq Hinv Hmk. remember (get_changes_in_range_reliable tc (last_read_sn st)) as l eqn:El.
  revert fuel j st c ds El. induction l as [|[t cc] l IH]; intros [|fuel] j st c ds El Hp Hd Hc Hf; try (simpl in *; lia).
  - injection Hd as <- <-. injection Hc as <-. exists st. cbn [fill_local_cache]. unfold try_take_one. cbn [simple_data_reader qos_policy read_state].
    rewrite Hq. cbn [take_loop try_take_undecoded mbind outcome_bind]. rewrite <- El. done.
  - cbn [decode_all] in Hd. destruct (deserialize_with t cc (hash_to_key_map st)) as [[e|d] m1] eqn:E; [done|].
    apply bind_Some in Hd as ([ds' m2] & Hd & [= <- <-]). cbn [outcome_fold] in Hc. apply bind_Ret in Hc as (c1 & Hc1 & Hc).
    symmetry in El. destruct (reliable_advance tc _ t cc l Hinv Hmk Hp El) as (_ & Hsn & Hl).
    set (st1 := mkReadState (ts_max (latest_instant st) t) (<[cc_writer_guid cc := cc_sequence_number cc]> (last_read_sn st)) m1).
    destruct (IH fuel (S j) st1 c1 ds') as (st' & E' & Hrest); [done|by apply pointers_advance|done|done|simpl in Hf; lia|].
    exists st'. split; [|done]. cbn [fill_local_cache]. unfold try_take_one. cbn [simple_data_reader qos_policy read_state datasample_cache].
    rewrite Hq. cbn [take_loop try_take_undecoded mbind outcome_bind]. rewrite El. cbn [head]. rewrite E. cbn [mbind outcome_bind fst snd].
    rewrite Hc1. cbn [mbind outcome_bind]. exact E'.
Qed.

(** Adding samples with fresh and distinct time stamps to a cache without limits. *)
Lemma fill_unlimited c ds :
  dsc_inv c -> instance_keep_count (dsc_qos c) = None -> NoDup (receive_instant <$> ds) ->
  (forall d, d ∈ ds -> unused c (receive_instant d)) ->
  exists c', outcome_fold fill_from_deserialized_cache_change c ds = Ret c' /\ dsc_inv c' /\ dsc_qos c' = dsc_qos c /\
    (sample <$> bt_values (datasamples c')) ≡ₚ (dcc_sample <$> ds) ++ (sample <$> bt_values (datasamples c)).
Proof.
  revert c. induction ds as [|d ds IH]; intros c Hc Hk Hnd Hu; cbn [outcome_fold]; [by exists c|].
  csimpl in Hnd. apply NoDup_cons in Hnd as [Hni Hnd]. specialize (Hu d ltac:(set_solver)) as Hud.
  pose proof (unused_not_stored c _ Hc Hud) as Hn.
  assert (forall S, keys_to_remove (dsc_qos c) S = []) as Hno by (intros S; unfold keys_to_remove; by rewrite Hk).
  pose proof (add_sample_run c (dcc_sample d) (dcc_writer_guid d) (dcc_sequence_number d) (receive_instant d) (dcc_write_options d) Hn) as Ea.
  cbv zeta in Ea. rewrite Hno in Ea. fold (fill_from_deserialized_cache_change c d) in Ea. rewrite Ea. clear Ea. cbn [mbind outcome_bind].
  set (was := default _ _). set (sw := mkSWMD _ _ _ _ _ _). set (c1 := mkDSC _ _ _).
  assert (dsc_inv c1) as Hc1.
  { unfold c1. apply (add_sample_inv c (dcc_sample d) (receive_instant d) sw); [done|done|done|done|]. by intros t ?%elem_of_nil. }
  destruct (IH c1) as (c' & E & Hc' & Eq & Hperm); [done|done|done| |].
  - intros d' Hd' k imd. unfold c1. simpl. rewrite lookup_insert_Some. intros [[_ <-]|[_ Hi]]; [|by eapply Hu; [set_solver|]].
    simpl. rewrite elem_of_difference, elem_of_stamps_with. intros [[Et|(i & Hi & Ht)] _].
    + apply Hni. rewrite <- Et. by apply list_elem_of_fmap_2.
    + by eapply (Hu d' ltac:(set_solver)).
  - exists c'. split; [done|]. split; [done|]. split; [done|].
    assert (bt_values (datasamples c1) ≡ₚ sw :: bt_values (datasamples c)) as Hv.
    { unfold bt_values, c1. cbn [datasamples foldl]. rewrite !bt_iter_perm, map_to_list_insert by done. done. }
    rewrite Hperm, Hv. csimpl. by rewrite <- Permutation_middle.
Qed.

(** ** Taking *)

Lemma take_loop_nothing fuel clock i tc st :
  get_changes_in_range_reliable tc (last_read_sn st) = [] -> (0 < fuel)%nat ->
  take_loop fuel clock i true tc st = Ret (inr None, st).
Proof. intros E Hf. destruct fuel as [|fuel]; [lia|]. cbn [take_loop try_take_undecoded mbind outcome_bind]. by rewrite E. Qed.

(** Everything is selected by the condition that asks for nothing. *)
Lemma select_all c :
  dsc_inv c -> select_keys_for_access c ReadCondition_any =
    Ret ((fun e => (e.1, sample_key (sample e.2))) <$> bt_iter (datasamples c)).
Proof.
  intros Hc. rewrite select_keys_run by done. f_equal.
  assert (forall e, e ∈ bt_iter (datasamples c) -> is_Some (instance_map c !! sample_key (sample e.2))) as Hin.
  { intros [t d] Hin%elem_of_bt_iter. destruct (di_listed c Hc t d Hin) as (imd & Hi & _). by exists imd. }
  induction (bt_iter (datasamples c)) as [|e l IH]; csimpl; [done|]. unfold select_entry at 1.
  destruct (Hin e ltac:(set_solver)) as [imd ->]. simpl. f_equal. apply IH. set_solver.
Qed.

Lemma values_all c :
  values c ((fun e => (e.1, sample_key (sample e.2))) <$> bt_iter (datasamples c)) = sample <$> bt_values (datasamples c).
Proof.
  unfold values, bt_values. assert (forall e, e ∈ bt_iter (datasamples c) -> datasamples c !! e.1 = Some e.2) as Hin
    by (intros [t d]; apply elem_of_bt_iter).
  induction (bt_iter (datasamples c)) as [|e l IH]; csimpl; [done|]. rewrite (Hin e) by set_solver. simpl. f_equal. apply IH. set_solver.
Qed.

Lemma take_whole {A} (l : list A) n : Z.of_nat (length l) <= n -> take (Z.to_nat n) l = l.
Proof. intros Hl. apply take_ge. lia. Qed.

(** A take of everything from a cache without limits leaves nothing. *)
Lemma take_all c :
  dsc_inv c -> Z.of_nat (size (datasamples c)) <= usize_max ->
  exists keys res c', select_keys_for_access c ReadCondition_any = Ret keys /\
    take_by_keys c (take (Z.to_nat usize_max) keys) = Ret (res, c') /\ dsc_inv c' /\
    ds_value <$> res = sample <$> bt_values (datasamples c) /\ datasamples c' = ∅.
Proof.
  intros Hc Hsz. pose proof (select_all c Hc) as Hsel. set (keys := _ <$> bt_iter _) in Hsel.
  pose proof (selection_valid c ReadCondition_any keys (length keys) Hc Hsel) as Hv. rewrite take_ge in Hv by lia.
  destruct (take_run c keys Hc Hv) as (res & c' & E & Ha & (Hc' & _ & Hds & _)). exists keys, res, c'.
  rewrite take_whole by (unfold keys; rewrite length_fmap, length_bt_iter; done).
  split; [done|]. split; [done|]. split; [done|]. split; [by rewrite (answers_values c keys res Ha), values_all|].
  apply map_empty. intros t. rewrite Hds. case_decide as Hin; [by destruct (datasamples c !! t)|].
  destruct (datasamples c !! t) as [d|] eqn:Ed; [|done]. destruct Hin. apply elem_of_bt_iter in Ed.
  unfold keys. apply list_elem_of_fmap. exists (t, sample_key (sample d)). split; [done|].
  apply list_elem_of_fmap. by exists (t, d).
Qed.

Lemma omap_shorter {A B} (f : A -> option B) l : (length (omap f l) <= length l)%nat.
Proof. induction l as [|x l IH]; csimpl; [done|]. destruct (f x); csimpl; lia. Qed.
Lemma omap_all_none {A B} (f : A -> option B) l : (forall x, x ∈ l -> f x = None) -> omap f l = [].
Proof. induction l as [|x l IH]; intros Hf; csimpl; [done|]. rewrite Hf by set_solver. apply IH. set_solver. Qed.

(** The samples that have not been read, by time of reception. *)
Definition unread_samples c : list (Sample D K) :=
  sample <$> filter (fun d => sample_has_been_read d = false) (bt_values (datasamples c)).

Lemma selects_not_read imd (d : SampleWithMetaData D K) : sample_selector ReadCondition_not_read imd d = negb (sample_has_been_read d).
Proof. unfold sample_selector. destruct (sample_has_been_read d); vm_compute; done. Qed.

Lemma select_not_read c e :
  dsc_inv c -> e ∈ bt_iter (datasamples c) ->
  select_entry c ReadCondition_not_read e = if sample_has_been_read e.2 then None else Some (e.1, sample_key (sample e.2)).
Proof.
  intros Hc Hin. destruct e as [t d]. apply elem_of_bt_iter in Hin. destruct (di_listed c Hc t d Hin) as (imd & Hi & _).
  unfold select_entry. cbn [fst snd]. rewrite Hi. cbn [mbind option_bind]. rewrite selects_not_read. by destruct (sample_has_been_read d).
Qed.

Lemma unread_selected c :
  dsc_inv c -> values c (omap (select_entry c ReadCondition_not_read) (bt_iter (datasamples c))) = unread_samples c.
Proof.
  intros Hc. unfold values, unread_samples, bt_values.
  assert (forall e, e ∈ bt_iter (datasamples c) -> datasamples c !! e.1 = Some e.2 /\
    select_entry c ReadCondition_not_read e = if sample_has_been_read e.2 then None else Some (e.1, sample_key (sample e.2))) as Hin.
  { intros e He. split; [destruct e; by apply elem_of_bt_iter|by apply select_not_read]. }
  induction (bt_iter (datasamples c)) as [|e l IH]; csimpl; [done|]. destruct (Hin e) as [He Hs]; [set_solver|].
  rewrite Hs, filter_cons. destruct (sample_has_been_read e.2) eqn:Er; csimpl; rewrite ?He; csimpl; rewrite IH by set_solver; done.
Qed.

(** A take of all that is not read leaves nothing that is not read. *)
Lemma take_unread c :
  dsc_inv c -> Z.of_nat (size (datasamples c)) <= usize_max ->
  exists keys c', select_keys_for_access c ReadCondition_not_read = Ret keys /\
    take_bare_by_keys c (take (Z.to_nat usize_max) keys) = Ret (unread_samples c, c') /\ dsc_inv c' /\
    select_keys_for_access c' ReadCondition_not_read = Ret [].
Proof.
  intros Hc Hsz. pose proof (select_keys_run c ReadCondition_not_read Hc) as Hsel. set (keys := omap _ _) in Hsel.
  pose proof (selection_valid c ReadCondition_not_read keys (length keys) Hc Hsel) as Hv. rewrite take_ge in Hv by lia.
  destruct (take_run c keys Hc Hv) as (res & c' & E & Ha & (Hc' & _ & Hds & _)). exists keys, c'.
  assert (length keys <= size (datasamples c))%nat as Hlen by (unfold keys; rewrite <- length_bt_iter; apply omap_shorter).
  rewrite take_whole by lia. split; [done|]. split_and!; [|done|].
  - rewrite (take_bare_run c keys res c' Hc Hv E), (answers_values c keys res Ha). unfold keys. by rewrite unread_selected.
  - rewrite select_keys_run by done. f_equal. apply omap_all_none. intros [t d] Hin. rewrite select_not_read by done. cbn [snd fst].
    destruct (sample_has_been_read d) eqn:Er; [done|]. apply elem_of_bt_iter in Hin. rewrite Hds in Hin. case_decide as Hk; [by destruct (datasamples c !! t)|].
    destruct Hk. apply list_elem_of_fmap. exists (t, sample_key (sample d)). split; [done|]. apply list_elem_of_omap. exists (t, d).
    assert ((t, d) ∈ bt_iter (datasamples c)) as Hit by by apply elem_of_bt_iter. split; [done|]. rewrite select_not_read by done. cbn [snd fst]. by rewrite Er.
Qed.

(** The iterator that takes gives every sample that is not read, and leaves none. *)
Lemma into_iterator_exhausts fuel clock tc q st c ds m c1 :
  is_reliable q = true -> tc_inv tc -> markers_ok tc -> pointers_ok (last_read_sn st) ->
  decode_all (hash_to_key_map st) (get_changes_in_range_reliable tc (last_read_sn st)) = Some (ds, m) ->
  outcome_fold fill_from_deserialized_cache_change c ds = Ret c1 -> dsc_inv c1 -> (length ds < fuel)%nat ->
  Z.of_nat (size (datasamples c1)) <= usize_max ->
  exists dr', into_iterator fuel clock tc (mkDR (mkSDR q st) c) = Ret (inr (unread_samples c1), dr') /\
    forall fuel' clock', (0 < fuel')%nat -> into_iterator fuel' clock' tc dr' = Ret (inr [], dr').
Proof.
  intros Hq Hinv Hmk Hp Hd Hfill Hc1 Hf Hsz.
  destruct (fill_reliable fuel clock 0 tc q st c ds m c1) as (st' & E2 & _ & _ & Hnone); [done..|].
  destruct (take_unread c1 Hc1 Hsz) as (keys & c2 & Esel & Et & Hc2 & Hempty).
  exists (mkDR (mkSDR q st') c2). split.
  - unfold into_iterator, take_bare, filled_access. rewrite E2. cbn [mbind outcome_bind fst snd datasample_cache].
    rewrite Esel. cbn [mbind outcome_bind]. by rewrite Et.
  - intros fuel' clock' Hf'. unfold into_iterator, take_bare, filled_access. destruct fuel' as [|fuel']; [lia|].
    cbn [fill_local_cache]. unfold try_take_one. cbn [simple_data_reader qos_policy read_state]. rewrite Hq.
    rewrite take_loop_nothing by (done || lia). cbn [mbind outcome_bind fst snd datasample_cache].
    rewrite Hempty. cbn [mbind outcome_bind]. by rewrite take_nil.
Qed.


(** One [try_take_one] of a reliable reader.  Nothing released: nothing is
    returned.  Otherwise the first released change is decoded, the read pointer
    moves past it even if that fails, the others remain to be read in their order,
    and one round of the loop is enough; unless the change disposes an instance by
    a key hash that is not known, in which case the call never returns. *)
Theorem try_take_one_correct clock tc r :
  is_reliable (qos_policy r) = true -> tc_inv tc -> markers_ok tc -> pointers_ok (last_read_sn (read_state r)) ->
  match get_changes_in_range_reliable tc (last_read_sn (read_state r)) with
  | [] => forall fuel, (0 < fuel)%nat -> try_take_one (D:=D) fuel clock tc r = Ret (inr None, r)
  | (t, cc) :: rest =>
      match deserialize_with (D:=D) t cc (hash_to_key_map (read_state r)) with
      | (inl RE_UnknownKey, _) => forall fuel, try_take_one (D:=D) fuel clock tc r = Diverge
      | (result, m) => exists r', (forall fuel, (0 < fuel)%nat -> try_take_one fuel clock tc r =
            Ret (match result with inl e => inl e | inr d => inr (Some d) end, r')) /\
          get_changes_in_range_reliable tc (last_read_sn (read_state r')) = rest /\
          hash_to_key_map (read_state r') = m /\ qos_policy r' = qos_policy r
      end
  end.
Proof.
  intros Hq Hinv Hmk Hp. destruct r as [q st]. simpl in *. unfold try_take_one. cbn [qos_policy read_state]. rewrite Hq.
  destruct (get_changes_in_range_reliable tc (last_read_sn st)) as [|[t cc] rest] eqn:El.
  { intros fuel Hf. by rewrite take_loop_nothing. }
  destruct (reliable_advance tc _ t cc rest Hinv Hmk Hp El) as (_ & _ & Hl).
  assert (forall fuel i, take_loop (S fuel) clock i true tc st =
    match deserialize_with (D:=D) t cc (hash_to_key_map st) with
    | (inl RE_UnknownKey, m) => take_loop fuel clock (S i) true tc (mkReadState (latest_instant st) (last_read_sn st) m)
    | (result, m) => Ret (match result with inl e => inl e | inr d => inr (Some d) end,
                   mkReadState (ts_max (latest_instant st) t) (<[cc_writer_guid cc := cc_sequence_number cc]> (last_read_sn st)) m)
    end) as Hstep.
  { intros fuel i. cbn [take_loop try_take_undecoded mbind outcome_bind]. by rewrite El. }
  destruct (deserialize_with t cc (hash_to_key_map st)) as [[[]|d] m] eqn:E.
  - eexists (mkSDR q (mkReadState _ _ _)). split; [|by split; [exact Hl|]].
    intros [|fuel] Hf; [lia|]. rewrite Hstep. done.
  - assert (m = hash_to_key_map st) as -> by (unfold deserialize_with in E; by repeat case_match; simplify_eq).
    intros fuel. assert (forall i, take_loop fuel clock i true tc st = Diverge) as Hd; [|by rewrite Hd].
    induction fuel as [|fuel IH]; intros i; [done|]. rewrite Hstep. destruct st. apply IH.
  - eexists (mkSDR q (mkReadState _ _ _)). split; [|by split; [exact Hl|]].
    intros [|fuel] Hf; [lia|]. rewrite Hstep. done.
Qed.

(** ** The loop that does not end *)

(** The first change in a range of time is the first in a longer one. *)
Lemma best_effort_first tc start t0 t1 x l :
  get_changes_in_range_best_effort tc start t0 = Ret (x :: l) -> kle t0 t1 ->
  exists l', get_changes_in_range_best_effort tc start t1 = Ret (x :: l').
Proof.
  unfold get_changes_in_range_best_effort. intros (u & Hu & [= E])%bind_Ret Hle.
  assert (kle start t1) as Hst.
  { unfold rust_assert in Hu. case_bool_decide; [|done]. by etrans. }
  rewrite bool_decide_eq_true_2 by done. cbn [rust_assert mbind outcome_bind]. clear Hu.
  pose proof (bt_iter_sorted (tc_changes tc)) as Hs. induction Hs as [|y ys Hs IH Hy]; [done|].
  rewrite filter_cons in E |- *. case_decide as H0.
  - injection E as -> E. rewrite decide_True by (destruct H0; split; [done|by etrans]). eauto.
  - assert (x ∈ ys /\ klt start x.1 /\ kle x.1 t0) as (Hin & Hlt & Hx).
    { assert (x ∈ filter (fun p => klt start p.1 /\ kle p.1 t0) ys) as Hin by (rewrite E; set_solver).
      by apply list_elem_of_filter in Hin as [[? ?] ?]. }
    rewrite Forall_forall in Hy. specialize (Hy x Hin). rewrite decide_False; [by apply IH|].
    intros [H1 _]. apply H0. split; [done|]. etrans; [apply klt_kle, Hy|done].
Qed.

Lemma take_loop_hangs fuel clock i rel tc st t cc rest ck h :
  try_take_undecoded rel tc (latest_instant st) (last_read_sn st) (clock 0%nat) = Ret ((t, cc) :: rest) ->
  (forall n, kle (clock 0%nat) (clock n)) -> cc_data_value cc = DDisposeByKeyHash ck h -> hash_to_key_map st !! h = None ->
  take_loop (D:=D) fuel clock i rel tc st = Diverge.
Proof.
  intros E Hclk Hcc Hh. assert (forall n, exists l, try_take_undecoded rel tc (latest_instant st) (last_read_sn st) (clock n) = Ret ((t, cc) :: l)) as Hall.
  { intros n. destruct rel; simpl in E |- *; [eauto|]. by eapply best_effort_first. }
  revert i. induction fuel as [|fuel IH]; intros i; cbn [take_loop]; [done|]. destruct (Hall i) as [l ->].
  cbn [mbind outcome_bind head]. unfold deserialize_with. rewrite Hcc, Hh. destruct st. apply IH.
Qed.

(** C40: when the next change to be read disposes an instance by a key hash that
    the reader has not seen, and the clock does not fall behind its first reading,
    then for no amount of fuel does [try_take_one] of the simple reader return, nor
    any of the calls of the data reader that fill its cache first, reliable or not:
    the change is meant to be ignored, but the read pointer does not move past it,
    and the loop comes to the same change again. *)
Theorem unknown_key_hangs fuel clock tc dr t cc rest ck h :
  let r := simple_data_reader dr in
  try_take_undecoded (is_reliable (qos_policy r)) tc (latest_instant (read_state r)) (last_read_sn (read_state r))
    (clock 0%nat 0%nat) = Ret ((t, cc) :: rest) ->
  (forall n, kle (clock 0%nat 0%nat) (clock 0%nat n)) ->
  cc_data_value cc = DDisposeByKeyHash ck h -> hash_to_key_map (read_state r) !! h = None ->
  try_take_one (D:=D) fuel (clock 0%nat) tc r = Diverge /\
  (forall max rc, DataReader_read fuel clock tc max rc dr = Diverge /\ DataReader_take fuel clock tc max rc dr = Diverge /\
     read_bare fuel clock tc max rc dr = Diverge /\ take_bare fuel clock tc max rc dr = Diverge) /\
  read_next_sample fuel clock tc dr = Diverge /\ take_next_sample fuel clock tc dr = Diverge /\
  iterator fuel clock tc dr = Diverge /\ into_iterator fuel clock tc dr = Diverge /\
  (forall rc, conditional_iterator fuel clock tc rc dr = Diverge /\ into_conditional_iterator fuel clock tc rc dr = Diverge) /\
  (forall max rc key sel, read_instance fuel clock tc max rc key sel dr = Diverge /\
     take_instance fuel clock tc max rc key sel dr = Diverge).
Proof.
  intros r E Hclk Hcc Hh.
  assert (forall fuel, try_take_one (D:=D) fuel (clock 0%nat) tc r = Diverge) as Hone.
  { intros f. unfold try_take_one. by erewrite take_loop_hangs. }
  assert (fill_local_cache fuel clock 0 tc dr = Diverge) as Hfill.
  { destruct fuel as [|fuel']; [done|]. cbn [fill_local_cache]. fold r. by rewrite Hone. }
  assert (forall A max sel (acc : DataSampleCache D K -> list (Timestamp * K) -> outcome (list A * DataSampleCache D K)),
    filled_access fuel clock tc max sel acc dr = Diverge) as Hacc by (intros; unfold filled_access; by rewrite Hfill).
  split; [apply Hone|]. split_and!; intros; split_and?; try apply Hacc.
  - unfold read_next_sample, DataReader_read. by rewrite Hacc.
  - unfold take_next_sample, DataReader_take. by rewrite Hacc.
Qed.
End reader.

(** ** A small reader: samples are two bytes, a key and a value *)

#[local] Instance demo_pair_keyed : Keyed (Z * Z) Z := fst.
#[local] Instance demo_decoder : Decoder (Z * Z) Z := {|
  supported_encodings := [mkRepId (0, 1)];
  from_bytes bs _ := match bs with [a; b] => Some (a, b) | _ => None end;
  key_from_bytes bs _ := match bs with [a] => Some a | _ => None end;
  hash_key k _ := [k];
|}.

Definition demo_released (d : DDSData) : TopicCache :=
  mkTC "t" "d" qos_none (KeepLast 1) 1 {[mkTimestamp 9 0 := mkCacheChange GUID_UNKNOWN 1 demo_wo d]} Timestamp_ZERO
    {[GUID_UNKNOWN := {[1 := mkTimestamp 9 0]}]} {[GUID_UNKNOWN := 2]}.

Lemma demo_released_inv d : tc_inv (demo_released d).
Proof.
  split.
  - intros w sn t. unfold idx, cc_is. cbn [demo_released sequence_numbers tc_changes]. split.
    + destruct (decide (w = GUID_UNKNOWN)) as [->|Hw]; [|by rewrite lookup_singleton_ne].
      rewrite lookup_singleton_eq. simpl. intros [<- <-]%lookup_singleton_Some. eexists. rewrite lookup_singleton_eq. done.
    + intros (cc & [<- <-]%lookup_singleton_Some & <- & <-). simpl. by rewrite lookup_singleton_eq.
  - intros w s. cbn [demo_released sequence_numbers]. intros [_ <-]%lookup_singleton_Some. apply map_non_empty_singleton.
Qed.

Lemma demo_released_markers d : markers_ok (demo_released d).
Proof.
  intros w. unfold reliable_before. cbn [demo_released received_reliably_before].
  destruct (decide (w = GUID_UNKNOWN)) as [->|Hw]; [rewrite lookup_singleton_eq|rewrite lookup_singleton_ne by done]; vm_compute; discriminate.
Qed.

Definition demo_reliable_all : QosPolicies :=
  mkQos None None None None None None None (Some (Reliable Duration_ZERO)) None (Some KeepAll) None None.
Definition demo_sample : DDSData := DData (mkPayload (mkRepId (0, 1)) (0, 0) [5; 42]).
Definition demo_clock : nat -> nat -> Timestamp := fun _ _ => mkTimestamp 10 0.
Definition demo_fresh_reader : SimpleDataReader Z := mkSDR demo_reliable_all ReadState_new.
Definition demo_dcc : DeserializedCacheChange (Z * Z) Z :=
  mkDCC (mkTimestamp 9 0) GUID_UNKNOWN 1 demo_wo (Sample_Value (5, 42)).

Lemma demo_pointers : pointers_ok (last_read_sn (ReadState_new (K:=Z))).
Proof. by intros w sn. Qed.


(** A dispose by a hash nobody has seen. *)
Definition demo_stray : DDSData := DDisposeByKeyHash NotAliveDisposed [7].

Lemma try_take_one_correct_witness :
  try_take_one (D:=Z * Z) 100 (demo_clock 0) (demo_released demo_stray) demo_fresh_reader = Diverge.
Proof.
  pose proof (try_take_one_correct (D:=Z * Z) (demo_clock 0) (demo_released demo_stray) demo_fresh_reader eq_refl
    (demo_released_inv _) (demo_released_markers _) demo_pointers) as H.
  assert (get_changes_in_range_reliable (demo_released demo_stray) (last_read_sn (read_state demo_fresh_reader)) =
    [(mkTimestamp 9 0, mkCacheChange GUID_UNKNOWN 1 demo_wo demo_stray)]) as E by (vm_compute; reflexivity).
  rewrite E in H. exact (H 100%nat).
Defined.

Lemma unknown_key_hangs_witness :
  DataReader_take (D:=Z * Z) 100 demo_clock (demo_released demo_stray) 1 ReadCondition_any
    (mkDR demo_fresh_reader (DataSampleCache_new demo_reliable_all)) = Diverge.
Proof.
  destruct (unknown_key_hangs (D:=Z * Z) 100 demo_clock (demo_released demo_stray) (mkDR demo_fresh_reader (DataSampleCache_new demo_reliable_all))
    (mkTimestamp 9 0) (mkCacheChange GUID_UNKNOWN 1 demo_wo demo_stray) [] NotAliveDisposed [7]) as [_ [H _]].
  - vm_compute. reflexivity.
  - intros n. vm_compute. discriminate.
  - reflexivity.
  - reflexivity.
  - apply (H 1 ReadCondition_any).
Defined.
