(* ===== verification/ReaderProxy.v ===== *)
(** * The writer's view of a remote reader

    [src/rtps/rtps_reader_proxy.rs]: which sequence numbers a writer still has
    to send to one reader, which it will only ever report as a gap, up to where
    the reader has acknowledged, and which fragments the reader asked for. *)

From S2P Require Import Prelude BTree SequenceNumbers Guid Locator WriterProxy Qos Payload Submessages.

(** [AckSubmessage] of [src/messages/submessages/submessage.rs] *)
Inductive AckSubmessage :=
| Ack_AckNack (a : AckNack)
| Ack_NackFrag (n : NackFrag).

Record RtpsReaderProxy := mkRP {
  remote_reader_guid : GUID;
  remote_group_entity_id : EntityId;
  unicast_locator_list : list Locator;
  multicast_locator_list : list Locator;
  expects_in_line_qos : bool;
  is_active : bool;
  all_acked_before : SequenceNumber;
  unsent_changes : gset SequenceNumber;
  pending_gap : gset SequenceNumber;
  repair_mode : bool;
  rp_qos : QosPolicies;
  frags_requested : gmap SequenceNumber (list bool);
}.

Section setters.
Implicit Types rp : RtpsReaderProxy.

Definition rp_set_unsent rp (s : gset SequenceNumber) : RtpsReaderProxy :=
  mkRP (remote_reader_guid rp) (remote_group_entity_id rp) (unicast_locator_list rp) (multicast_locator_list rp)
    (expects_in_line_qos rp) (is_active rp) (all_acked_before rp) s (pending_gap rp) (repair_mode rp) (rp_qos rp)
    (frags_requested rp).
Definition rp_set_acked rp (sn : SequenceNumber) : RtpsReaderProxy :=
  mkRP (remote_reader_guid rp) (remote_group_entity_id rp) (unicast_locator_list rp) (multicast_locator_list rp)
    (expects_in_line_qos rp) (is_active rp) sn (unsent_changes rp) (pending_gap rp) (repair_mode rp) (rp_qos rp)
    (frags_requested rp).
Definition rp_set_pending_gap rp (s : gset SequenceNumber) : RtpsReaderProxy :=
  mkRP (remote_reader_guid rp) (remote_group_entity_id rp) (unicast_locator_list rp) (multicast_locator_list rp)
    (expects_in_line_qos rp) (is_active rp) (all_acked_before rp) (unsent_changes rp) s (repair_mode rp) (rp_qos rp)
    (frags_requested rp).
Definition rp_set_repair_mode rp (b : bool) : RtpsReaderProxy :=
  mkRP (remote_reader_guid rp) (remote_group_entity_id rp) (unicast_locator_list rp) (multicast_locator_list rp)
    (expects_in_line_qos rp) (is_active rp) (all_acked_before rp) (unsent_changes rp) (pending_gap rp) b (rp_qos rp)
    (frags_requested rp).
Definition rp_set_frags rp (f : gmap SequenceNumber (list bool)) : RtpsReaderProxy :=
  mkRP (remote_reader_guid rp) (remote_group_entity_id rp) (unicast_locator_list rp) (multicast_locator_list rp)
    (expects_in_line_qos rp) (is_active rp) (all_acked_before rp) (unsent_changes rp) (pending_gap rp)
    (repair_mode rp) (rp_qos rp) f.
End setters.

Definition RtpsReaderProxy_new (guid : GUID) (qos : QosPolicies) (expects : bool) : RtpsReaderProxy :=
  mkRP guid EntityId_UNKNOWN [] [] expects true SequenceNumber_zero ∅ ∅ false qos ∅.

Definition not_loopback (l : Locator) : bool := negb (Locator_is_loopback l).

(** A changed GUID or group id is only logged. *)
Definition RtpsReaderProxy_update (rp update : RtpsReaderProxy) : RtpsReaderProxy :=
  let locators_differ :=
    negb (bool_decide (unicast_locator_list rp = unicast_locator_list update))
    || negb (bool_decide (multicast_locator_list rp = multicast_locator_list update)) in
  mkRP (remote_reader_guid rp) (remote_group_entity_id rp)
    (if locators_differ then filter (fun l => not_loopback l = true) (unicast_locator_list update)
     else unicast_locator_list rp)
    (if locators_differ then multicast_locator_list update else multicast_locator_list rp)
    (expects_in_line_qos update) (is_active rp) (all_acked_before rp) (unsent_changes rp) (pending_gap rp)
    (repair_mode rp) (rp_qos update) (frags_requested rp).

Definition first_unsent_change (rp : RtpsReaderProxy) : option SequenceNumber := bs_first (unsent_changes rp).

Definition mark_change_sent (rp : RtpsReaderProxy) (seq_num : SequenceNumber) : RtpsReaderProxy :=
  rp_set_unsent rp (unsent_changes rp ∖ {[seq_num]}).

Definition remove_from_unsent_set_all_before (rp : RtpsReaderProxy) (before_seq_num : SequenceNumber)
  : RtpsReaderProxy := rp_set_unsent rp (bs_from before_seq_num (unsent_changes rp)).

(** The parts of [DiscoveredReaderData] that are used. *)
Record DiscoveredReaderProxy := mkDRP {
  drp_remote_reader_guid : GUID;
  drp_expects_inline_qos : bool;
  drp_unicast_locator_list : list Locator;
  drp_multicast_locator_list : list Locator;
  drp_qos : QosPolicies;
}.

Definition RtpsReaderProxy_from_discovered_reader_data (d : DiscoveredReaderProxy)
    (default_unicast default_multicast : list Locator) : RtpsReaderProxy :=
  mkRP (drp_remote_reader_guid d) EntityId_UNKNOWN
    (filter (fun l => not_loopback l = true) (discovered_or_default (drp_unicast_locator_list d) default_unicast))
    (discovered_or_default (drp_multicast_locator_list d) default_multicast)
    (drp_expects_inline_qos d) true SequenceNumber_zero ∅ ∅ false (drp_qos d) ∅.

Definition RtpsReaderProxy_handle_ack_nack (rp : RtpsReaderProxy) (ack_submessage : AckSubmessage)
    (last_available : SequenceNumber) : outcome RtpsReaderProxy :=
  match ack_submessage with
  | Ack_AckNack acknack =>
      let new_all_acked_before := NumberSet_base (reader_sn_state acknack) in
      let rp := remove_from_unsent_set_all_before rp new_all_acked_before in
      let rp := rp_set_acked rp new_all_acked_before in
      nacked ← NumberSet_to_list (reader_sn_state acknack);
      let rp := rp_set_unsent rp (foldl (fun s nack_sn => {[nack_sn]} ∪ s) (unsent_changes rp) nacked) in
      let rp := match bs_last (unsent_changes rp) with
                | Some high =>
                    if last_available <? high
                    then rp_set_unsent rp (bs_before (SequenceNumber_plus_1 last_available) (unsent_changes rp))
                    else rp
                | None => rp
                end in
      Ret (rp_set_pending_gap rp (bs_from (all_acked_before rp) (pending_gap rp)))
  | Ack_NackFrag _ => Ret rp
  end.

Definition insert_pending_gap (rp : RtpsReaderProxy) (seq_num : SequenceNumber) : RtpsReaderProxy :=
  rp_set_pending_gap rp ({[seq_num]} ∪ pending_gap rp).

Definition set_pending_gap_up_to (rp : RtpsReaderProxy) (last_gap_sn : SequenceNumber) : outcome RtpsReaderProxy :=
  gap_sns ← SequenceNumberRange_list (SequenceNumberRange_new (SequenceNumber_new 1) last_gap_sn);
  Ret (rp_set_pending_gap rp (pending_gap rp ∪ list_to_set gap_sns)).

Definition notify_new_cache_change (rp : RtpsReaderProxy) (sequence_number : SequenceNumber) : RtpsReaderProxy :=
  rp_set_unsent rp ({[sequence_number]} ∪ unsent_changes rp).

Definition acked_up_to_before (rp : RtpsReaderProxy) : SequenceNumber := all_acked_before rp.

(** ** Fragments *)

Definition mark_all_frags_requested (rp : RtpsReaderProxy) (seq_num : SequenceNumber) (frag_count : Z)
  : RtpsReaderProxy :=
  rp_set_frags rp (<[seq_num := replicate (Z.to_nat frag_count) true]> (frags_requested rp)).

(** [req_set.iter().next_back()] is the last bit of the set itself, read as 0 or 1. *)
Definition mark_frags_requested (rp : RtpsReaderProxy) (seq_num : SequenceNumber) (frag_nums : FragmentNumberSet)
  : outcome RtpsReaderProxy :=
  let req_set := default [] (frags_requested rp !! seq_num) in
  match last req_set with
  | Some b =>
      let max_fn_requested := Z.b2z b in
      let len := Z.of_nat (length req_set) in
      let req_set := if len <? max_fn_requested
                     then req_set ++ replicate (Z.to_nat (max_fn_requested - len)) false else req_set in
      fs ← NumberSet_to_list frag_nums;
      req_set ← outcome_fold (fun s f => bitvec_set s (u64 (f - 1)) true) req_set fs;
      Ret (rp_set_frags rp (<[seq_num := req_set]> (frags_requested rp)))
  | None => Ret (rp_set_frags rp (<[seq_num := req_set]> (frags_requested rp)))
  end.

Definition mark_frag_sent (rp : RtpsReaderProxy) (seq_num : SequenceNumber) (frag_num : FragmentNumber)
  : outcome RtpsReaderProxy :=
  match frags_requested rp !! seq_num with
  | Some frag_map =>
      frag_map ← bitvec_set frag_map (u64 (frag_num - 1)) false;
      Ret (if forallb negb frag_map then rp_set_frags rp (delete seq_num (frags_requested rp))
           else rp_set_frags rp (<[seq_num := frag_map]> (frags_requested rp)))
  | None => Ret rp
  end.

Record FragBitVecIterator := mkFragIter {
  fi_sequence_number : SequenceNumber;
  frag_count : FragmentNumber;
  fi_bitvec : list bool;
}.

Definition FragBitVecIterator_new (sn : SequenceNumber) (bv : list bool) : FragBitVecIterator :=
  mkFragIter sn (FragmentNumber_new 1) bv.

(** The [while] loop: skip the bits that are not set. *)
Fixpoint skip_unset (fuel : nat) (bv : list bool) (f : Z) : outcome Z :=
  if (f <=? Z.of_nat (length bv)) && bool_decide (bv !! Z.to_nat (u32 (f - 1)) = Some false) then
    match fuel with
    | O => Diverge
    | S fuel => skip_unset fuel bv (u32 (f + 1))
    end
  else Ret f.

Definition FragBitVecIterator_next (it : FragBitVecIterator)
  : outcome (option (SequenceNumber * FragmentNumber) * FragBitVecIterator) :=
  f ← skip_unset (length (fi_bitvec it)) (fi_bitvec it) (frag_count it);
  Ret (if Z.of_nat (length (fi_bitvec it)) <? f then (None, it)
       else (Some (fi_sequence_number it, FragmentNumber_new f),
             mkFragIter (fi_sequence_number it) (FragmentNumber_new (u32 (f + 1))) (fi_bitvec it))).

(** [iterator.take(n)] collected *)
Fixpoint FragBitVecIterator_take (n : nat) (it : FragBitVecIterator)
  : outcome (list (SequenceNumber * FragmentNumber)) :=
  match n with
  | O => Ret []
  | S n =>
      r ← FragBitVecIterator_next it;
      match r with
      | (None, _) => Ret []
      | (Some x, it) => l ← FragBitVecIterator_take n it; Ret (x :: l)
      end
  end.

Definition frags_requested_iterator (rp : RtpsReaderProxy) : FragBitVecIterator :=
  match head (bt_iter (frags_requested rp)) with
  | None => FragBitVecIterator_new SequenceNumber_default []
  | Some (sn, bv) => FragBitVecIterator_new sn bv
  end.

Definition repair_frags_requested (rp : RtpsReaderProxy) : bool :=
  existsb (existsb id) (bt_values (frags_requested rp)).

(** ** Acknowledgments *)

Lemma elem_of_foldl_insert (l : list Z) (s : gset Z) x :
  x ∈ foldl (fun s y => {[y]} ∪ s) s l <-> x ∈ l \/ x ∈ s.
Proof. revert s. induction l as [|y l IH]; intros s; simpl; [set_solver|]. rewrite IH. set_solver. Qed.

(** The acknowledgment does nothing but move the bound, replace what is unsent
    and forget the gaps below the bound. *)
Lemma handle_ack_nack_spec rp an last :
  ns_shape (reader_sn_state an) -> ns_in_range (reader_sn_state an) -> i64_min <= last < i64_max ->
  exists unsent,
    RtpsReaderProxy_handle_ack_nack rp (Ack_AckNack an) last
    = Ret (rp_set_pending_gap (rp_set_unsent (rp_set_acked rp (bitmap_base (reader_sn_state an))) unsent)
             (bs_from (bitmap_base (reader_sn_state an)) (pending_gap rp))) /\
    forall x, x ∈ unsent <->
      ((x ∈ unsent_changes rp /\ bitmap_base (reader_sn_state an) <= x) \/ ns_mem (reader_sn_state an) x) /\ x <= last.
Proof.
  intros Hsh Hr Hlast. destruct (NumberSet_to_list_members _ Hsh Hr) as (l & E & _ & Hl). simpl.
  rewrite E. simpl. set (s := foldl _ _ l).
  assert (forall x, x ∈ s <-> (x ∈ unsent_changes rp /\ bitmap_base (reader_sn_state an) <= x) \/ ns_mem (reader_sn_state an) x) as Hs.
  { intros x. unfold s. rewrite elem_of_foldl_insert, Hl, elem_of_bs_from, kle_Z. tauto. }
  destruct (bs_last s) as [high|] eqn:Eh; [zcases|].
  - eexists. split; [done|]. intros x. rewrite elem_of_bs_before, klt_Z, Hs.
    rewrite sn_plus_1 by lia. split; intros [? ?]; split; (done || lia).
  - exists s. split; [done|]. intros x. rewrite Hs. split; [|by intros [? _]]. intros Hx. split; [done|].
    apply bs_last_Some in Eh as [_ Hm]. apply Hs in Hx. specialize (Hm x Hx). rewrite kle_Z in Hm. lia.
  - exists s. split; [done|]. intros x. rewrite Hs. split; [|by intros [? _]]. intros Hx%Hs.
    unfold bs_last in Eh. apply last_None in Eh. apply bs_iter_None in Eh. set_solver.
Qed.

(** ** Fragments *)

(** The numbers of the set bits, counted from 1, from [f] on. *)
Definition ones_from (f : Z) (bv : list bool) : list Z :=
  filter (fun g => bv !! Z.to_nat (g - 1) = Some true) (seqZ f (Z.of_nat (length bv) + 1 - f)).
Definition ones (bv : list bool) : list Z := ones_from 1 bv.

Lemma elem_of_ones bv f : f ∈ ones bv <-> 1 <= f /\ bv !! Z.to_nat (f - 1) = Some true.
Proof.
  unfold ones, ones_from. rewrite list_elem_of_filter, elem_of_seqZ. split.
  - intros [? ?]. split; [lia|done].
  - intros [? Hb]. split; [done|]. apply lookup_lt_Some in Hb. lia.
Qed.

Lemma ones_sorted bv : StronglySorted Z.lt (ones bv).
Proof. apply StronglySorted_filter, seqZ_sorted. Qed.

Lemma ones_nil bv : ones bv = [] <-> forallb negb bv = true.
Proof.
  rewrite <- Is_true_true, forallb_True, Forall_lookup. split.
  - intros E i b Hb. destruct b; [|done]. assert (Z.of_nat i + 1 ∈ ones bv) as Hin; [|rewrite E in Hin; set_solver].
    apply elem_of_ones. split; [lia|]. by replace (Z.to_nat (Z.of_nat i + 1 - 1)) with i by lia.
  - intros H. destruct (ones bv) as [|f l] eqn:E; [done|].
    assert (f ∈ ones bv) as [_ Hb]%elem_of_ones by (rewrite E; set_solver). by apply H in Hb.
Qed.

Lemma ones_from_end f bv : Z.of_nat (length bv) < f -> ones_from f bv = [].
Proof. intros. unfold ones_from. by rewrite seqZ_nil by lia. Qed.

Lemma skip_unset_spec fuel bv f :
  1 <= f -> Z.of_nat (length bv) < 2 ^ 32 - 1 -> f <= Z.of_nat (length bv) + 1 ->
  (Z.to_nat (Z.of_nat (length bv) + 1 - f) <= fuel)%nat ->
  exists g, skip_unset fuel bv f = Ret g /\ f <= g <= Z.of_nat (length bv) + 1 /\
    ones_from f bv = (if g <=? Z.of_nat (length bv) then [g] else []) ++ ones_from (g + 1) bv.
Proof.
  revert f. induction fuel as [|fuel IH]; intros f Hf Hl Hle Hfuel; simpl.
  - assert (f = Z.of_nat (length bv) + 1) as -> by lia. exists (Z.of_nat (length bv) + 1).
    destruct (Z.leb_spec (Z.of_nat (length bv) + 1) (Z.of_nat (length bv))); [lia|].
    split; [done|]. split; [lia|]. by rewrite !ones_from_end by lia.
  - destruct (Z.leb_spec f (Z.of_nat (length bv))) as [Hin|]; simpl.
    2: { exists f. destruct (Z.leb_spec f (Z.of_nat (length bv))); [lia|].
         split; [done|]. split; [lia|]. by rewrite !ones_from_end by lia. }
    rewrite (wrap_u_id 32 (f - 1)), (wrap_u_id 32 (f + 1)) by bounds_lia.
    destruct (lookup_lt_is_Some_2 bv (Z.to_nat (f - 1))) as [b Hb]; [lia|]. rewrite Hb.
    assert (ones_from f bv = (if b then [f] else []) ++ ones_from (f + 1) bv) as Hone.
    { unfold ones_from. rewrite (seqZ_cons f) by lia. rewrite filter_cons, Hb.
      replace (Z.pred (Z.of_nat (length bv) + 1 - f)) with (Z.of_nat (length bv) + 1 - (f + 1)) by lia.
      unfold Z.succ. destruct b; [by rewrite decide_True by done|by rewrite decide_False by done]. }
    rewrite Hone. destruct b; simpl.
    + exists f. split; [done|]. split; [lia|]. zcases; lia.
    + destruct (IH (f + 1)) as (g & -> & Hg & Ho); [lia..|]. exists g. split; [done|]. split; [lia|done].
Qed.

Lemma frag_take_spec n sn bv f :
  1 <= f <= Z.of_nat (length bv) + 1 -> Z.of_nat (length bv) < 2 ^ 32 - 1 ->
  FragBitVecIterator_take n (mkFragIter sn f bv) = Ret (take n ((sn,.) <$> ones_from f bv)).
Proof.
  revert f. induction n as [|n IH]; intros f Hf Hl; [done|]. cbn [FragBitVecIterator_take].
  unfold FragBitVecIterator_next; simpl.
  destruct (skip_unset_spec (length bv) bv f) as (g & -> & Hg & ->); [lia..|]. simpl.
  destruct (Z.ltb_spec (Z.of_nat (length bv)) g), (Z.leb_spec g (Z.of_nat (length bv))); try lia; simpl.
  - unfold ones_from. by rewrite seqZ_nil by lia.
  - rewrite (wrap_u_id 32) by bounds_lia. unfold FragmentNumber_new. rewrite IH by lia. done.
Qed.

(** The fragments the writer will send next: of the first sample with an entry. *)
Lemma frags_requested_iterator_take n rp :
  (forall sn bv, frags_requested rp !! sn = Some bv -> Z.of_nat (length bv) < 2 ^ 32 - 1) ->
  FragBitVecIterator_take n (frags_requested_iterator rp) =
  Ret (match head (bt_iter (frags_requested rp)) with
       | Some (sn, bv) => take n ((sn,.) <$> ones bv)
       | None => []
       end).
Proof.
  intros Hb. unfold frags_requested_iterator. destruct (head _) as [[sn bv]|] eqn:E.
  - apply frag_take_spec; [unfold FragmentNumber_new; lia|]. apply (Hb sn), elem_of_bt_iter. rewrite head_lookup in E.
    by eapply list_elem_of_lookup_2.
  - unfold FragBitVecIterator_new, FragmentNumber_new. rewrite frag_take_spec by (simpl; lia).
    unfold ones_from. simpl. by destruct n.
Qed.

(** A fragment is waiting to be sent. *)
Definition frag_requested (rp : RtpsReaderProxy) (sn : SequenceNumber) (f : FragmentNumber) : Prop :=
  exists bv, frags_requested rp !! sn = Some bv /\ f ∈ ones bv.

(** Every bit vector that is kept has a bit set, and fits the fragment numbers. *)
Definition frags_inv (rp : RtpsReaderProxy) : Prop :=
  forall sn bv, frags_requested rp !! sn = Some bv -> ones bv <> [] /\ Z.of_nat (length bv) < 2 ^ 32 - 1.

Lemma elem_of_ones_insert bv f g :
  f ∈ ones bv -> g ∈ ones (<[Z.to_nat (f - 1) := false]> bv) <-> g ∈ ones bv /\ g <> f.
Proof.
  rewrite !elem_of_ones. intros [Hf Hb]. destruct (decide (g = f)) as [->|Hne].
  - rewrite list_lookup_insert_eq by (by eapply lookup_lt_Some). naive_solver.
  - split.
    + intros [Hg H]. rewrite list_lookup_insert_ne in H by lia. done.
    + intros [[Hg H] _]. rewrite list_lookup_insert_ne by lia. done.
Qed.

Lemma mark_frag_sent_spec rp sn f :
  frags_inv rp -> frag_requested rp sn f ->
  exists m, mark_frag_sent rp sn f = Ret (rp_set_frags rp m) /\ frags_inv (rp_set_frags rp m) /\
    (forall sn' g, frag_requested (rp_set_frags rp m) sn' g <-> frag_requested rp sn' g /\ ~ (sn' = sn /\ g = f)).
Proof.
  intros Hinv (bv & Hbv & Hf). pose proof Hf as [Hf1 Hb]%elem_of_ones. pose proof (lookup_lt_Some _ _ _ Hb) as Hlen.
  destruct (Hinv _ _ Hbv) as [_ Hl]. unfold mark_frag_sent. rewrite Hbv.
  rewrite (wrap_u_id 64), bitvec_set_in by bounds_lia. simpl. set (bv' := <[_ := false]> bv).
  assert (forall g, g ∈ ones bv' <-> g ∈ ones bv /\ g <> f) as Hones by (intros; by apply elem_of_ones_insert).
  assert (Z.of_nat (length bv') < 2 ^ 32 - 1) as Hl' by (unfold bv'; by rewrite length_insert).
  destruct (forallb negb bv') eqn:E.
  - exists (delete sn (frags_requested rp)). split; [done|]. apply ones_nil in E. split.
    + intros sn' b. simpl. rewrite lookup_delete_Some. intros [_ ?]. by apply (Hinv sn').
    + intros sn' g. unfold frag_requested; simpl. setoid_rewrite lookup_delete_Some. rewrite E in Hones.
      assert (forall g, g ∈ ones bv -> g = f) as Honly.
      { intros g0 Hg0. destruct (decide (g0 = f)) as [|Hd]; [done|].
        exfalso. by apply (not_elem_of_nil g0), Hones. }
      split; [naive_solver|]. intros [(b & Hbb & Hg) Hne]. exists b. split; [|done]. split; [|done].
      intros <-. rewrite Hbv in Hbb. injection Hbb as <-. apply Hne. split; [done|by apply Honly].
  - exists (<[sn := bv']> (frags_requested rp)). split; [done|]. split.
    + intros sn' b. simpl. rewrite lookup_insert_Some. intros [[_ <-]|[_ ?]]; [|by apply (Hinv sn')].
      split; [|done]. intros H%ones_nil. congruence.
    + intros sn' g. unfold frag_requested; simpl. setoid_rewrite lookup_insert_Some. split.
      * intros (b & [[<- <-]|[Hne ?]] & Hg); [apply Hones in Hg as [? ?]; split; [by eauto|tauto]|].
        split; [by eauto|naive_solver].
      * intros [(b & Hbb & Hg) Hne]. destruct (decide (sn = sn')) as [<-|]; [|by eauto].
        rewrite Hbv in Hbb. injection Hbb as <-. exists bv'. split; [by left|]. apply Hones. naive_solver.
Qed.

Lemma mark_all_frags_requested_spec rp sn n :
  frags_inv rp -> 0 < n < 2 ^ 32 - 1 ->
  frags_inv (mark_all_frags_requested rp sn n) /\
  forall sn' f, frag_requested (mark_all_frags_requested rp sn n) sn' f <->
    (sn' = sn /\ 1 <= f <= n) \/ (sn' <> sn /\ frag_requested rp sn' f).
Proof.
  intros Hinv Hn.
  assert (forall f, f ∈ ones (replicate (Z.to_nat n) true) <-> 1 <= f <= n) as Ho.
  { intros f. rewrite elem_of_ones, lookup_replicate. lia. }
  split.
  - intros sn' b. simpl. rewrite lookup_insert_Some. intros [[_ <-]|[_ ?]]; [|by apply (Hinv sn')].
    rewrite length_replicate. split; [|lia]. intros E. assert (1 ∈ ones (replicate (Z.to_nat n) true)) as Hin
      by (apply Ho; lia). rewrite E in Hin. set_solver.
  - intros sn' f. unfold frag_requested; simpl. setoid_rewrite lookup_insert_Some. split.
    + intros (b & [[<- <-]|[? ?]] & Hf); [left; by rewrite <- Ho|right; by eauto].
    + intros [[-> Hf]|[? (b & ? & ?)]]; [exists (replicate (Z.to_nat n) true); rewrite Ho; by auto|exists b; auto].
Qed.

(** A NACKFRAG for a sample of which nothing was requested yet leaves an empty
    bit vector behind, whatever fragments it asks for. *)
Lemma mark_frags_requested_fresh rp sn fs :
  frags_requested rp !! sn = None ->
  mark_frags_requested rp sn fs = Ret (rp_set_frags rp (<[sn := []]> (frags_requested rp))).
Proof. intros E. unfold mark_frags_requested. by rewrite E. Qed.

(** A NACKFRAG that asks for a fragment past the end of the sample panics. *)
Lemma mark_frags_requested_overrun rp sn bv fs f :
  frags_requested rp !! sn = Some bv -> bv <> [] ->
  NumberSet_to_list fs = Ret [f] -> Z.of_nat (length bv) < f < 2 ^ 32 ->
  mark_frags_requested rp sn fs = Panic "index out of bounds".
Proof.
  intros E Hbv Hfs Hf. unfold mark_frags_requested. rewrite E. simpl (default _ _).
  destruct (last bv) as [b|] eqn:El; [|by apply last_None in El].
  assert (0 < Z.of_nat (length bv)) by (destruct bv; simpl; [done|lia]).
  destruct (Z.ltb_spec (Z.of_nat (length bv)) (Z.b2z b)); [destruct b; simpl in *; lia|].
  rewrite Hfs. cbn -[bitvec_set]. rewrite (wrap_u_id 64) by bounds_lia. by rewrite bitvec_set_out by lia.
Qed.
