(* ===== verification/DiscoveryData.v ===== *)
(** * The data that discovery exchanges

    [src/discovery/sedp_messages.rs], [src/discovery/spdp_participant_data.rs]
    and [src/discovery/builtin_endpoint.rs]: descriptions of remote readers,
    writers, topics and participants, how they are built from a QoS and
    projected back to one, and the proxies that endpoints make of them.
    [Instant] and [DateTime<Utc>] are counts of nanoseconds. *)

From S2P Require Import Prelude BTree SequenceNumbers Time Guid Locator Headers WriterProxy Qos StatusEvents ReaderProxy.

(** ** Proxies *)

Record ReaderProxy := mkReaderProxy {
  rpx_remote_reader_guid : GUID;
  rpx_expects_inline_qos : bool;
  rpx_unicast_locator_list : list Locator;
  rpx_multicast_locator_list : list Locator;
}.

Definition ReaderProxy_from (p : RtpsReaderProxy) : ReaderProxy :=
  mkReaderProxy (remote_reader_guid p) (expects_in_line_qos p) (unicast_locator_list p) (multicast_locator_list p).

Record WriterProxy := mkWriterProxy {
  wpx_remote_writer_guid : GUID;
  wpx_unicast_locator_list : list Locator;
  wpx_multicast_locator_list : list Locator;
  wpx_data_max_size_serialized : option Z;
}.

Definition WriterProxy_new (guid : GUID) (multicast unicast : list Locator) : WriterProxy :=
  mkWriterProxy guid unicast multicast None.

Definition WriterProxy_from (p : RtpsWriterProxy) : WriterProxy :=
  mkWriterProxy (wp_remote_writer_guid p) (wp_unicast_locator_list p) (wp_multicast_locator_list p) None.

Record ContentFilterProperty := mkContentFilter {
  content_filtered_topic_name : string;
  related_topic_name : string;
  filter_class_name : string;
  filter_expression : string;
  expression_parameters : list string;
}.

(** ** Topics *)

Record TopicBuiltinTopicData := mkTBTD {
  tbtd_key : option GUID;
  tbtd_name : string;
  tbtd_type_name : string;
  tbtd_durability : option Durability;
  tbtd_deadline : option Deadline;
  tbtd_latency_budget : option LatencyBudget;
  tbtd_liveliness : option Liveliness;
  tbtd_reliability : option Reliability;
  tbtd_lifespan : option Lifespan;
  tbtd_destination_order : option DestinationOrder;
  tbtd_presentation : option Presentation;
  tbtd_history : option History;
  tbtd_resource_limits : option ResourceLimits;
  tbtd_ownership : option Ownership;
}.

Definition TopicBuiltinTopicData_new (key : option GUID) (name type_name : string) (qos : QosPolicies)
  : TopicBuiltinTopicData :=
  {| tbtd_key := key; tbtd_name := name; tbtd_type_name := type_name;
     tbtd_durability := durability qos; tbtd_deadline := deadline qos;
     tbtd_latency_budget := latency_budget qos; tbtd_liveliness := liveliness qos;
     tbtd_reliability := reliability qos; tbtd_lifespan := lifespan qos;
     tbtd_destination_order := destination_order qos; tbtd_presentation := presentation qos;
     tbtd_history := history qos; tbtd_resource_limits := resource_limits qos;
     tbtd_ownership := ownership qos |}.

Definition TopicBuiltinTopicData_qos (t : TopicBuiltinTopicData) : QosPolicies :=
  {| durability := tbtd_durability t; presentation := tbtd_presentation t; deadline := tbtd_deadline t;
     latency_budget := tbtd_latency_budget t; ownership := tbtd_ownership t; liveliness := tbtd_liveliness t;
     time_based_filter := None; reliability := tbtd_reliability t;
     destination_order := tbtd_destination_order t; history := tbtd_history t;
     resource_limits := tbtd_resource_limits t; lifespan := tbtd_lifespan t |}.

Definition TopicData_from (t : TopicBuiltinTopicData) : TopicData :=
  mkTopicData (tbtd_name t) (tbtd_type_name t) (TopicBuiltinTopicData_qos t).

Definition topics_inconsistent (t1 t2 : TopicBuiltinTopicData) : bool :=
  bool_decide (tbtd_type_name t1 <> tbtd_type_name t2).

Record DiscoveredTopicData := mkDTD { dtd_updated_time : Z; dtd_topic_data : TopicBuiltinTopicData }.

Definition DiscoveredTopicData_key (d : DiscoveredTopicData) : GUID :=
  match tbtd_key (dtd_topic_data d) with Some k => k | None => GUID_UNKNOWN end.

(** ** Readers *)

Record SubscriptionBuiltinTopicData := mkSBTD {
  sbtd_key : GUID;
  sbtd_participant_key : option GUID;
  sbtd_topic_name : string;
  sbtd_type_name : string;
  sbtd_durability : option Durability;
  sbtd_deadline : option Deadline;
  sbtd_latency_budget : option LatencyBudget;
  sbtd_liveliness : option Liveliness;
  sbtd_reliability : option Reliability;
  sbtd_ownership : option Ownership;
  sbtd_destination_order : option DestinationOrder;
  sbtd_time_based_filter : option TimeBasedFilter;
  sbtd_presentation : option Presentation;
  sbtd_lifespan : option Lifespan;
  sbtd_service_instance_name : option string;
  sbtd_related_datawriter_key : option GUID;
  sbtd_topic_aliases : option (list string);
}.

Definition SubscriptionBuiltinTopicData_set_qos (s : SubscriptionBuiltinTopicData) (qos : QosPolicies)
  : SubscriptionBuiltinTopicData :=
  {| sbtd_key := sbtd_key s; sbtd_participant_key := sbtd_participant_key s;
     sbtd_topic_name := sbtd_topic_name s; sbtd_type_name := sbtd_type_name s;
     sbtd_durability := durability qos; sbtd_deadline := deadline qos;
     sbtd_latency_budget := latency_budget qos; sbtd_liveliness := liveliness qos;
     sbtd_reliability := reliability qos; sbtd_ownership := ownership qos;
     sbtd_destination_order := destination_order qos; sbtd_time_based_filter := time_based_filter qos;
     sbtd_presentation := presentation qos; sbtd_lifespan := lifespan qos;
     sbtd_service_instance_name := sbtd_service_instance_name s;
     sbtd_related_datawriter_key := sbtd_related_datawriter_key s;
     sbtd_topic_aliases := sbtd_topic_aliases s |}.

Definition SubscriptionBuiltinTopicData_new (key : GUID) (participant_key : option GUID)
    (topic_name type_name : string) (qos : QosPolicies) : SubscriptionBuiltinTopicData :=
  SubscriptionBuiltinTopicData_set_qos
    (mkSBTD key participant_key topic_name type_name
       None None None None None None None None None None None None None) qos.

Definition SubscriptionBuiltinTopicData_qos (s : SubscriptionBuiltinTopicData) : QosPolicies :=
  {| durability := sbtd_durability s; presentation := sbtd_presentation s; deadline := sbtd_deadline s;
     latency_budget := sbtd_latency_budget s; ownership := sbtd_ownership s; liveliness := sbtd_liveliness s;
     time_based_filter := sbtd_time_based_filter s; reliability := sbtd_reliability s;
     destination_order := sbtd_destination_order s; history := None; resource_limits := None;
     lifespan := sbtd_lifespan s |}.

Definition SubscriptionBuiltinTopicData_to_topic_data (s : SubscriptionBuiltinTopicData) : TopicBuiltinTopicData :=
  TopicBuiltinTopicData_new None (sbtd_topic_name s) (sbtd_type_name s) (SubscriptionBuiltinTopicData_qos s).

Record DiscoveredReaderData := mkDRD {
  drd_reader_proxy : ReaderProxy;
  drd_subscription_topic_data : SubscriptionBuiltinTopicData;
  drd_content_filter : option ContentFilterProperty;
}.

(** What [RtpsReaderProxy::from_discovered_reader_data] reads of its argument. *)
Definition drd_proxy (d : DiscoveredReaderData) : DiscoveredReaderProxy :=
  let p := drd_reader_proxy d in
  mkDRP (rpx_remote_reader_guid p) (rpx_expects_inline_qos p) (rpx_unicast_locator_list p)
    (rpx_multicast_locator_list p) (SubscriptionBuiltinTopicData_qos (drd_subscription_topic_data d)).

(** ** Writers *)

Record PublicationBuiltinTopicData := mkPBTD {
  pbtd_key : GUID;
  pbtd_participant_key : option GUID;
  pbtd_topic_name : string;
  pbtd_type_name : string;
  pbtd_durability : option Durability;
  pbtd_deadline : option Deadline;
  pbtd_latency_budget : option LatencyBudget;
  pbtd_liveliness : option Liveliness;
  pbtd_reliability : option Reliability;
  pbtd_lifespan : option Lifespan;
  pbtd_time_based_filter : option TimeBasedFilter;
  pbtd_ownership : option Ownership;
  pbtd_destination_order : option DestinationOrder;
  pbtd_presentation : option Presentation;
  pbtd_service_instance_name : option string;
  pbtd_related_datareader_key : option GUID;
  pbtd_topic_aliases : option (list string);
}.

Definition PublicationBuiltinTopicData_new (guid : GUID) (participant_guid : option GUID)
    (topic_name type_name : string) : PublicationBuiltinTopicData :=
  mkPBTD guid participant_guid topic_name type_name
    None None None None None None None None None None None None None.

Definition PublicationBuiltinTopicData_set_qos (p : PublicationBuiltinTopicData) (qos : QosPolicies)
  : PublicationBuiltinTopicData :=
  {| pbtd_key := pbtd_key p; pbtd_participant_key := pbtd_participant_key p;
     pbtd_topic_name := pbtd_topic_name p; pbtd_type_name := pbtd_type_name p;
     pbtd_durability := durability qos; pbtd_deadline := deadline qos;
     pbtd_latency_budget := latency_budget qos; pbtd_liveliness := liveliness qos;
     pbtd_reliability := reliability qos; pbtd_lifespan := lifespan qos;
     pbtd_time_based_filter := time_based_filter qos; pbtd_ownership := ownership qos;
     pbtd_destination_order := destination_order qos; pbtd_presentation := presentation qos;
     pbtd_service_instance_name := pbtd_service_instance_name p;
     pbtd_related_datareader_key := pbtd_related_datareader_key p;
     pbtd_topic_aliases := pbtd_topic_aliases p |}.

Definition PublicationBuiltinTopicData_new_with_qos (guid : GUID) (participant_guid : option GUID)
    (topic_name type_name : string) (qos : QosPolicies) : PublicationBuiltinTopicData :=
  PublicationBuiltinTopicData_set_qos
    (PublicationBuiltinTopicData_new guid participant_guid topic_name type_name) qos.

Definition PublicationBuiltinTopicData_qos (p : PublicationBuiltinTopicData) : QosPolicies :=
  {| durability := pbtd_durability p; presentation := pbtd_presentation p; deadline := pbtd_deadline p;
     latency_budget := pbtd_latency_budget p; ownership := pbtd_ownership p; liveliness := pbtd_liveliness p;
     time_based_filter := pbtd_time_based_filter p; reliability := pbtd_reliability p;
     destination_order := pbtd_destination_order p; history := None; resource_limits := None;
     lifespan := pbtd_lifespan p |}.

Definition PublicationBuiltinTopicData_to_topic_data (p : PublicationBuiltinTopicData) : TopicBuiltinTopicData :=
  TopicBuiltinTopicData_new None (pbtd_topic_name p) (pbtd_type_name p) (PublicationBuiltinTopicData_qos p).

Record DiscoveredWriterData := mkDWD {
  dwd_last_updated : Z;
  dwd_writer_proxy : WriterProxy;
  dwd_publication_topic_data : PublicationBuiltinTopicData;
}.

(** What [RtpsWriterProxy::from_discovered_writer_data] reads of its argument. *)
Definition dwd_proxy (d : DiscoveredWriterData) : DiscoveredWriterProxy :=
  let p := dwd_writer_proxy d in
  {| dwp_remote_writer_guid := wpx_remote_writer_guid p;
     dwp_unicast_locator_list := wpx_unicast_locator_list p;
     dwp_multicast_locator_list := wpx_multicast_locator_list p |}.

(** ** Participants *)

Record SpdpDiscoveredParticipantData := mkSPDP {
  spdp_updated_time : Z;
  spdp_protocol_version : ProtocolVersion;
  spdp_vendor_id : VendorId;
  spdp_expects_inline_qos : bool;
  spdp_participant_guid : GUID;
  spdp_metatraffic_unicast_locators : list Locator;
  spdp_metatraffic_multicast_locators : list Locator;
  spdp_default_unicast_locators : list Locator;
  spdp_default_multicast_locators : list Locator;
  spdp_available_builtin_endpoints : Z;
  spdp_lease_duration : option Duration;
  spdp_manual_liveliness_count : Z;
  spdp_builtin_endpoint_qos : option Z;
  spdp_entity_name : option string;
}.

Definition ParticipantDescription_from (d : SpdpDiscoveredParticipantData) : ParticipantDescription :=
  mkParticipantDescription (spdp_updated_time d) (spdp_protocol_version d) (spdp_vendor_id d)
    (spdp_participant_guid d) (spdp_lease_duration d) (spdp_entity_name d).

Definition as_reader_proxy (d : SpdpDiscoveredParticipantData) (is_metatraffic : bool) (entity_id : option EntityId)
  : RtpsReaderProxy :=
  let guid := GUID_new (prefix (spdp_participant_guid d))
    (match entity_id with Some id => id | None => SPDP_BUILTIN_PARTICIPANT_READER end) in
  let '(uni, multi) :=
    if is_metatraffic then (spdp_metatraffic_unicast_locators d, spdp_metatraffic_multicast_locators d)
    else (spdp_default_unicast_locators d, spdp_default_multicast_locators d) in
  let p := RtpsReaderProxy_new guid qos_none (spdp_expects_inline_qos d) in
  mkRP (remote_reader_guid p) (remote_group_entity_id p) uni multi (expects_in_line_qos p) (is_active p)
    (all_acked_before p) (unsent_changes p) (pending_gap p) (repair_mode p) (rp_qos p) (frags_requested p).

Definition as_writer_proxy (d : SpdpDiscoveredParticipantData) (is_metatraffic : bool) (entity_id : option EntityId)
  : RtpsWriterProxy :=
  let guid := GUID_new (prefix (spdp_participant_guid d))
    (match entity_id with Some id => id | None => SPDP_BUILTIN_PARTICIPANT_WRITER end) in
  RtpsWriterProxy_new guid
    (if is_metatraffic then spdp_metatraffic_unicast_locators d else spdp_default_unicast_locators d) []
    EntityId_UNKNOWN.

(** ** Built-in endpoints *)

Definition PARTICIPANT_ANNOUNCER : Z := 0x00000001.
Definition PARTICIPANT_DETECTOR : Z := 0x00000002.
Definition PUBLICATIONS_ANNOUNCER : Z := 0x00000004.
Definition PUBLICATIONS_DETECTOR : Z := 0x00000008.
Definition SUBSCRIPTIONS_ANNOUNCER : Z := 0x00000010.
Definition SUBSCRIPTIONS_DETECTOR : Z := 0x00000020.
Definition PARTICIPANT_MESSAGE_DATA_WRITER : Z := 0x00000400.
Definition PARTICIPANT_MESSAGE_DATA_READER : Z := 0x00000800.
Definition TOPICS_ANNOUNCER : Z := 0x08000000.
Definition TOPICS_DETECTOR : Z := 0x10000000.

Definition BuiltinEndpointSet_contains (value other : Z) : bool := Z.land value other =? other.
Definition BEST_EFFORT_PARTICIPANT_MESSAGE_DATA_READER : Z := 0x00000001.
Definition BuiltinEndpointQos_is_best_effort (value : Z) : bool :=
  value =? BEST_EFFORT_PARTICIPANT_MESSAGE_DATA_READER.

(** ** The local participant and its endpoints *)

(** Tokens of the listeners, by which the participant's own locators are
    filed ([src/rtps/constant.rs]). *)
Definition PTB : Z := 0x40.
Definition DISCOVERY_LISTENER_TOKEN : Z := 6 + PTB.
Definition DISCOVERY_MUL_LISTENER_TOKEN : Z := 7 + PTB.
Definition USER_TRAFFIC_LISTENER_TOKEN : Z := 8 + PTB.
Definition USER_TRAFFIC_MUL_LISTENER_TOKEN : Z := 9 + PTB.

Inductive TopicKind := NoKey | WithKey.

#[export] Instance TopicKind_eq_dec : EqDecision TopicKind.
Proof. solve_decision. Defined.

(** A [Topic] without its handle to the participant, and what is used of the
    local [DomainParticipant]. *)
Record Topic := mkTopic { t_name : string; t_type_name : string; t_qos : QosPolicies; t_kind : TopicKind }.
Record DomainParticipant := mkParticipant { dp_guid : GUID; dp_self_locators : gmap Z (list Locator) }.

Definition locators_at (dp : DomainParticipant) (token : Z) : list Locator :=
  default [] (dp_self_locators dp !! token).

Definition from_local_participant (utc_now : Z) (dp : DomainParticipant) (lease_duration : Duration)
  : SpdpDiscoveredParticipantData :=
  {| spdp_updated_time := utc_now;
     spdp_protocol_version := mkVersion 2 3;
     spdp_vendor_id := VendorId_THIS_IMPLEMENTATION;
     spdp_expects_inline_qos := false;
     spdp_participant_guid := dp_guid dp;
     spdp_metatraffic_unicast_locators := locators_at dp DISCOVERY_LISTENER_TOKEN;
     spdp_metatraffic_multicast_locators := locators_at dp DISCOVERY_MUL_LISTENER_TOKEN;
     spdp_default_unicast_locators := locators_at dp USER_TRAFFIC_LISTENER_TOKEN;
     spdp_default_multicast_locators := locators_at dp USER_TRAFFIC_MUL_LISTENER_TOKEN;
     spdp_available_builtin_endpoints :=
       foldl Z.lor PARTICIPANT_ANNOUNCER
         [PARTICIPANT_DETECTOR; PUBLICATIONS_ANNOUNCER; PUBLICATIONS_DETECTOR; SUBSCRIPTIONS_ANNOUNCER;
          SUBSCRIPTIONS_DETECTOR; PARTICIPANT_MESSAGE_DATA_WRITER; PARTICIPANT_MESSAGE_DATA_READER;
          TOPICS_ANNOUNCER; TOPICS_DETECTOR];
     spdp_lease_duration := Some lease_duration;
     spdp_manual_liveliness_count := 0;
     spdp_builtin_endpoint_qos := None;
     spdp_entity_name := None |}.

(** [RtpsReaderProxy::from_reader] *)
Definition RtpsReaderProxy_from_reader (guid : GUID) (qos_policy : QosPolicies) (dp : DomainParticipant)
  : RtpsReaderProxy :=
  mkRP guid EntityId_UNKNOWN (locators_at dp USER_TRAFFIC_LISTENER_TOKEN)
    (locators_at dp USER_TRAFFIC_MUL_LISTENER_TOKEN) false true SequenceNumber_zero ∅ ∅ false qos_policy ∅.

(** [DiscoveredWriterData::new]; the local unicast locators come from the
    network interfaces. *)
Definition DiscoveredWriterData_new (now : Z) (unicast_addresses : list Locator) (writer_guid : GUID)
    (writer_qos : QosPolicies) (topic : Topic) (dp : DomainParticipant) : DiscoveredWriterData :=
  mkDWD now (WriterProxy_new writer_guid [] unicast_addresses)
    (PublicationBuiltinTopicData_new_with_qos writer_guid (Some (dp_guid dp)) (t_name topic) (t_type_name topic)
       writer_qos).

(** ** Projections *)

(** An endpoint's description carries the endpoint's QoS but for the two
    policies that no endpoint announces. *)
Definition announced_qos (q : QosPolicies) : QosPolicies :=
  {| durability := durability q; presentation := presentation q; deadline := deadline q;
     latency_budget := latency_budget q; ownership := ownership q; liveliness := liveliness q;
     time_based_filter := time_based_filter q; reliability := reliability q;
     destination_order := destination_order q; history := None; resource_limits := None;
     lifespan := lifespan q |}.

Lemma subscription_qos key pk tn ty q :
  SubscriptionBuiltinTopicData_qos (SubscriptionBuiltinTopicData_new key pk tn ty q) = announced_qos q.
Proof. done. Qed.

Lemma publication_qos key pk tn ty q :
  PublicationBuiltinTopicData_qos (PublicationBuiltinTopicData_new_with_qos key pk tn ty q) = announced_qos q.
Proof. done. Qed.
