(* ===== verification/DiscoveryWire.v ===== *)
(** * Discovery data on the wire

    Readers, writers, topics and participants are announced as parameter lists
    ([PL_CDR]): [impl PlCdrSerialize] and [impl PlCdrDeserialize] in
    [src/discovery/sedp_messages.rs] and [spdp_participant_data.rs], with the
    helpers of [src/serialization/speedy_pl_cdr_helpers.rs] and
    [src/discovery/content_filter_property.rs]. *)

From S2P Require Import Prelude BTree Wire SequenceNumbers Time Guid Locator ParameterList Qos Payload Submessages Headers StatusEvents MessageWire InlineQos WriterProxy ReaderProxy DiscoveryData.

Definition PID_TOPIC_NAME : ParameterId := 0x0005.
Definition PID_TYPE_NAME : ParameterId := 0x0007.
Definition PID_PROTOCOL_VERSION : ParameterId := 0x0015.
Definition PID_VENDOR_ID : ParameterId := 0x0016.
Definition PID_UNICAST_LOCATOR : ParameterId := 0x002f.
Definition PID_MULTICAST_LOCATOR : ParameterId := 0x0030.
Definition PID_DEFAULT_UNICAST_LOCATOR : ParameterId := 0x0031.
Definition PID_DEFAULT_MULTICAST_LOCATOR : ParameterId := 0x0048.
Definition PID_METATRAFFIC_UNICAST_LOCATOR : ParameterId := 0x0032.
Definition PID_METATRAFFIC_MULTICAST_LOCATOR : ParameterId := 0x0033.
Definition PID_EXPECTS_INLINE_QOS : ParameterId := 0x0043.
Definition PID_PARTICIPANT_MANUAL_LIVELINESS_COUNT : ParameterId := 0x0034.
Definition PID_PARTICIPANT_LEASE_DURATION : ParameterId := 0x0002.
Definition PID_CONTENT_FILTER_PROPERTY : ParameterId := 0x0035.
Definition PID_PARTICIPANT_GUID : ParameterId := 0x0050.
Definition PID_BUILTIN_ENDPOINT_SET : ParameterId := 0x0058.
Definition PID_ENDPOINT_GUID : ParameterId := 0x005a.
Definition PID_BUILTIN_ENDPOINT_QOS : ParameterId := 0x0077.
Definition PID_TYPE_MAX_SIZE_SERIALIZED : ParameterId := 0x0060.
Definition PID_ENTITY_NAME : ParameterId := 0x0062.
Definition PID_SERVICE_INSTANCE_NAME : ParameterId := 0x0080.
Definition PID_RELATED_ENTITY_GUID : ParameterId := 0x0081.
Definition PID_TOPIC_ALIASES : ParameterId := 0x0082.

(** ** Strings *)

(** A Rust [String] is the sequence of its bytes, which is valid UTF-8. *)
Definition bytes_string (bs : bytes) : string :=
  String.string_of_list_ascii ((fun b => Ascii.ascii_of_nat (Z.to_nat b)) <$> bs).

Definition in_bytes (lo hi b : Z) : bool := (lo <=? b) && (b <=? hi).
Definition continuation (b : Z) : bool := in_bytes 0x80 0xBF b.

Fixpoint utf8_valid (bs : bytes) : bool :=
  match bs with
  | [] => true
  | b0 :: r =>
      if in_bytes 0 0x7F b0 then utf8_valid r
      else match r with
      | [] => false
      | b1 :: r =>
          if in_bytes 0xC2 0xDF b0 then continuation b1 && utf8_valid r
          else match r with
          | [] => false
          | b2 :: r =>
              if in_bytes 0xE0 0xEF b0 then
                in_bytes (if b0 =? 0xE0 then 0xA0 else 0x80) (if b0 =? 0xED then 0x9F else 0xBF) b1
                && continuation b2 && utf8_valid r
              else match r with
              | [] => false
              | b3 :: r =>
                  in_bytes 0xF0 0xF4 b0
                  && in_bytes (if b0 =? 0xF0 then 0x90 else 0x80) (if b0 =? 0xF4 then 0x8F else 0xBF) b1
                  && continuation b2 && continuation b3 && utf8_valid r
              end
          end
      end
  end.

(** [String::pop]: without the last character, which is a byte that does not
    continue one, and the continuation bytes after it. *)
Fixpoint drop_continuations (bs : bytes) : bytes :=
  match bs with
  | b :: r => if continuation b then drop_continuations r else bs
  | [] => []
  end.
Definition String_pop (s : string) : string :=
  bytes_string (rev (tail (drop_continuations (rev (string_bytes s))))).

Definition string_len (s : string) : Z := Z.of_nat (length (string_bytes s)).

(** Reading a [String] is [speedy]'s: a 32-bit length and that many bytes, which
    have to be valid UTF-8. *)
Class SpeedyString : Type := { sp_read_string : Endianness -> reader string }.
Class SpeedyStringLaws (S : Speedy) (SS : SpeedyString) : Prop := {
  sp_read_string_written e s rest :
    utf8_valid (string_bytes s) = true -> in_u 32 (string_len s) ->
    sp_read_string e (write_u32 e (string_len s) ++ string_bytes s ++ rest) = Some (s, rest);
}.

#[export] Instance std_speedy_string : SpeedyString := {|
  sp_read_string e :=
    n ← read_u32 e; b ← read_bytes (Z.to_nat n);
    if utf8_valid b then mret (bytes_string b) else reader_fail;
|}.

(** ** Results *)

Inductive PlCdrDeserializeError :=
| PlNotSupported
| PlSpeedy
| PlMissingField (pid : ParameterId).

(** [Result<A, PlCdrDeserializeError>], by code that could panic. *)
Definition pl_result (A : Type) : Type := outcome (A + PlCdrDeserializeError).
#[export] Instance pl_ret : MRet pl_result := λ A a, Ret (inl a).
#[export] Instance pl_bind : MBind pl_result := λ A B f m,
  match m with
  | Ret (inl a) => f a
  | Ret (inr err) => Ret (inr err)
  | Panic w => Panic w
  | Diverge => Diverge
  end.
Definition pl_err {A} (err : PlCdrDeserializeError) : pl_result A := Ret (inr err).
Definition pl_option {A} (err : PlCdrDeserializeError) (o : option A) : pl_result A :=
  match o with Some a => mret a | None => pl_err err end.
Definition pl_outcome {A} (o : outcome A) : pl_result A := a ← o; Ret (inl a).

Section helpers.
Context `{SP : Speedy, SS : SpeedyString}.
Implicit Types (m : gmap ParameterId (list RtpsParameter)) (e : Endianness).

(** The conversion of the length to [u32] panics at 4 GiB. *)
Definition StringWithNul_write e (s : string) : outcome bytes :=
  let n := string_len s + 1 in
  if n <? 2 ^ 32 then Ret (write_u32 e n ++ string_bytes s ++ write_u8 e 0)
  else Panic "called Result::unwrap() on an Err value".

(** The last character is dropped whatever it is; if it is not NUL, that is
    logged. *)
Definition StringWithNul_read e : reader string := s ← sp_read_string e; mret (String_pop s).

Definition StringWithNul_len (s : string) : Z := string_len s + 1.

Definition read_pad (read_length : Z) : reader unit :=
  let m := read_length mod 4 in
  if 0 <? m then (_ ← read_bytes (Z.to_nat (4 - m)); mret tt) else mret tt.

Definition write_pad e (previous_length : Z) : bytes :=
  let m := previous_length mod 4 in
  if 0 <? m then concat (replicate (Z.to_nat (4 - m)) (write_u8 e 0)) else [].

Definition get_first_from_pl_map {D} m (r : reader D) (pid : ParameterId) : pl_result D :=
  match m !! pid ≫= head with
  | None => pl_err (PlMissingField pid)
  | Some p => pl_option PlSpeedy (read_from_buffer r (value p))
  end.

Definition get_opt_from_pl_map {D} m (r : reader D) (pid : ParameterId) : pl_result (option D) :=
  pl_option PlSpeedy (get_option_from_pl_map m r pid).

Definition get_all_from_pl_map {D} m (r : reader D) (pid : ParameterId) : pl_result (list D) :=
  pl_option PlSpeedy (mapM (fun p => read_from_buffer r (value p)) (default [] (m !! pid))).

Definition get_locators_from_pl_map m e (pid : ParameterId) : pl_result (list Locator) :=
  ls ← get_all_from_pl_map m (Locator_read e) pid; pl_outcome (outcome_all ls).

Definition GUID_write e (g : GUID) : bytes := GuidPrefix_write e (prefix g) ++ EntityId_write e (entity_id g).

(** ** Content filters *)

Fixpoint read_expression_parameters (count : nat) (prev_len : Z) e : reader (list string) :=
  match count with
  | O => mret []
  | S count =>
      _ ← read_pad prev_len;
      s ← StringWithNul_read e;
      eps ← read_expression_parameters count (StringWithNul_len s) e;
      mret (s :: eps)
  end.

Definition ContentFilterProperty_read e : reader ContentFilterProperty :=
  cftn ← StringWithNul_read e;
  _ ← read_pad (StringWithNul_len cftn);
  rtn ← StringWithNul_read e;
  _ ← read_pad (StringWithNul_len rtn);
  fcn ← StringWithNul_read e;
  _ ← read_pad (StringWithNul_len fcn);
  fe ← StringWithNul_read e;
  _ ← read_pad (StringWithNul_len fe);
  count ← read_u32 e;
  eps ← read_expression_parameters (Z.to_nat count) 0 e;
  mret (mkContentFilter cftn rtn fcn fe eps).

Fixpoint write_expression_parameters (eps : list string) (prev_len : Z) e : outcome bytes :=
  match eps with
  | [] => Ret []
  | ep :: eps =>
      s ← StringWithNul_write e ep;
      r ← write_expression_parameters eps (StringWithNul_len ep) e;
      Ret (write_pad e prev_len ++ s ++ r)
  end.

Definition ContentFilterProperty_write e (c : ContentFilterProperty) : outcome bytes :=
  s1 ← StringWithNul_write e (content_filtered_topic_name c);
  s2 ← StringWithNul_write e (related_topic_name c);
  s3 ← StringWithNul_write e (filter_class_name c);
  s4 ← StringWithNul_write e (filter_expression c);
  r ← write_expression_parameters (expression_parameters c) 0 e;
  Ret (s1 ++ write_pad e (StringWithNul_len (content_filtered_topic_name c))
       ++ s2 ++ write_pad e (StringWithNul_len (related_topic_name c))
       ++ s3 ++ write_pad e (StringWithNul_len (filter_class_name c))
       ++ s4 ++ write_pad e (StringWithNul_len (filter_expression c))
       ++ write_u32 e (u32 (Z.of_nat (length (expression_parameters c)))) ++ r).

(** ** Emission *)

(** [emit_option!] with a writer that can panic *)
Definition emit_option_m {A} (pid : ParameterId) (write : A -> outcome bytes) (m : option A) : outcome (list RtpsParameter) :=
  match m with Some m => v ← write m; Ret (emit pid v) | None => Ret [] end.

(** [for x in xs { emit!(pid, x) }] *)
Definition emit_all {A} (pid : ParameterId) (write : A -> bytes) (xs : list A) : list RtpsParameter :=
  xs ≫= (fun x => emit pid (write x)).

Fixpoint emit_strings (pid : ParameterId) e (xs : list string) : outcome (list RtpsParameter) :=
  match xs with
  | [] => Ret []
  | x :: xs => v ← StringWithNul_write e x; r ← emit_strings pid e xs; Ret (emit pid v ++ r)
  end.
End helpers.

(** ** Readers, writers and topics *)

(** [Result<A, PlCdrSerializeError>]: [None] for an encoding that is not
    supported. *)
Definition ser_result (A : Type) : Type := outcome (option A).

Section endpoints.
Context `{SP : Speedy, SS : SpeedyString}.
Implicit Types (e : Endianness) (encoding : RepresentationIdentifier).

Definition pl_cdr_rep_id_to_speedy encoding : option Endianness :=
  if decide (encoding = RepId_PL_CDR_LE) then Some LittleEndian
  else if decide (encoding = RepId_PL_CDR_BE) then Some BigEndian
  else if decide (encoding = RepId_CDR_LE) then Some LittleEndian
  else if decide (encoding = RepId_CDR_BE) then Some BigEndian
  else None.

(** [to_pl_cdr_bytes], for the type whose [to_parameter_list] is [f] *)
Definition serialize_with {D} (f : Endianness -> D -> outcome (list RtpsParameter)) (d : D) encoding : ser_result bytes :=
  match pl_cdr_rep_id_to_speedy encoding with
  | None => Ret None
  | Some ctx => pl ← f ctx d; Ret (Some (ParameterList_write ctx (mkPL pl)))
  end.

(** The beginning of every [from_pl_cdr_bytes] *)
Definition parse_pl_cdr (input_bytes : bytes) encoding
  : pl_result (Endianness * gmap ParameterId (list RtpsParameter)) :=
  ctx ← pl_option PlNotSupported (pl_cdr_rep_id_to_speedy_d encoding);
  pl ← pl_option PlSpeedy (read_from_buffer (ParameterList_read ctx) input_bytes);
  mret (ctx, ParameterList_to_map pl).

Definition Endpoint_GUID_to_pl_cdr_bytes (g : GUID) encoding : ser_result bytes :=
  serialize_with (fun ctx g => Ret (emit PID_ENDPOINT_GUID (GUID_write ctx g))) g encoding.

Definition Endpoint_GUID_from_pl_cdr_bytes (input_bytes : bytes) encoding : pl_result GUID :=
  '(ctx, pl_map) ← parse_pl_cdr input_bytes encoding;
  get_first_from_pl_map pl_map (GUID_read ctx) PID_ENDPOINT_GUID.

Definition DiscoveredReaderData_to_parameter_list e (d : DiscoveredReaderData) : outcome (list RtpsParameter) :=
  let p := drd_reader_proxy d in
  let s := drd_subscription_topic_data d in
  topic_name ← StringWithNul_write e (sbtd_topic_name s);
  type_name ← StringWithNul_write e (sbtd_type_name s);
  service_instance_name ← emit_option_m PID_SERVICE_INSTANCE_NAME (StringWithNul_write e) (sbtd_service_instance_name s);
  topic_aliases ← emit_strings PID_TOPIC_ALIASES e (default [] (sbtd_topic_aliases s));
  content_filter ← emit_option_m PID_CONTENT_FILTER_PROPERTY (ContentFilterProperty_write e) (drd_content_filter d);
  Ret (emit PID_EXPECTS_INLINE_QOS (sp_write_bool e (rpx_expects_inline_qos p))
       ++ emit PID_ENDPOINT_GUID (GUID_write e (rpx_remote_reader_guid p))
       ++ emit_all PID_UNICAST_LOCATOR (Locator_write e) (rpx_unicast_locator_list p)
       ++ emit_all PID_MULTICAST_LOCATOR (Locator_write e) (rpx_multicast_locator_list p)
       ++ emit_option PID_PARTICIPANT_GUID (GUID_write e) (sbtd_participant_key s)
       ++ emit PID_TOPIC_NAME topic_name
       ++ emit PID_TYPE_NAME type_name
       ++ to_parameter_list e (SubscriptionBuiltinTopicData_qos s)
       ++ service_instance_name
       ++ emit_option PID_RELATED_ENTITY_GUID (GUID_write e) (sbtd_related_datawriter_key s)
       ++ topic_aliases
       ++ content_filter).

Definition DiscoveredReaderData_to_pl_cdr_bytes (d : DiscoveredReaderData) encoding : ser_result bytes :=
  serialize_with DiscoveredReaderData_to_parameter_list d encoding.

Definition DiscoveredReaderData_from_pl_cdr_bytes (input_bytes : bytes) encoding : pl_result DiscoveredReaderData :=
  '(ctx, pl_map) ← parse_pl_cdr input_bytes encoding;
  guid ← get_first_from_pl_map pl_map (GUID_read ctx) PID_ENDPOINT_GUID;
  participant_guid ← get_opt_from_pl_map pl_map (GUID_read ctx) PID_PARTICIPANT_GUID;
  expects_inline_qos ← get_opt_from_pl_map pl_map (sp_read_bool ctx) PID_EXPECTS_INLINE_QOS;
  unicast_locator_list ← get_locators_from_pl_map pl_map ctx PID_UNICAST_LOCATOR;
  multicast_locator_list ← get_locators_from_pl_map pl_map ctx PID_MULTICAST_LOCATOR;
  topic_name ← get_first_from_pl_map pl_map (StringWithNul_read ctx) PID_TOPIC_NAME;
  type_name ← get_first_from_pl_map pl_map (StringWithNul_read ctx) PID_TYPE_NAME;
  content_filter ← get_opt_from_pl_map pl_map (ContentFilterProperty_read ctx) PID_CONTENT_FILTER_PROPERTY;
  qos ← pl_option PlSpeedy (from_parameter_list ctx pl_map);
  mret (mkDRD (mkReaderProxy guid (default false expects_inline_qos) unicast_locator_list multicast_locator_list)
          (SubscriptionBuiltinTopicData_new guid participant_guid topic_name type_name qos) content_filter).

Definition DiscoveredWriterData_to_parameter_list e (d : DiscoveredWriterData) : outcome (list RtpsParameter) :=
  let p := dwd_writer_proxy d in
  let s := dwd_publication_topic_data d in
  topic_name ← StringWithNul_write e (pbtd_topic_name s);
  type_name ← StringWithNul_write e (pbtd_type_name s);
  service_instance_name ← emit_option_m PID_SERVICE_INSTANCE_NAME (StringWithNul_write e) (pbtd_service_instance_name s);
  topic_aliases ← emit_strings PID_TOPIC_ALIASES e (default [] (pbtd_topic_aliases s));
  Ret (emit_option PID_TYPE_MAX_SIZE_SERIALIZED (write_u32 e) (wpx_data_max_size_serialized p)
       ++ emit PID_ENDPOINT_GUID (GUID_write e (wpx_remote_writer_guid p))
       ++ emit_all PID_UNICAST_LOCATOR (Locator_write e) (wpx_unicast_locator_list p)
       ++ emit_all PID_MULTICAST_LOCATOR (Locator_write e) (wpx_multicast_locator_list p)
       ++ emit_option PID_PARTICIPANT_GUID (GUID_write e) (pbtd_participant_key s)
       ++ emit PID_TOPIC_NAME topic_name
       ++ emit PID_TYPE_NAME type_name
       ++ to_parameter_list e (PublicationBuiltinTopicData_qos s)
       ++ service_instance_name
       ++ emit_option PID_RELATED_ENTITY_GUID (GUID_write e) (pbtd_related_datareader_key s)
       ++ topic_aliases).

Definition DiscoveredWriterData_to_pl_cdr_bytes (d : DiscoveredWriterData) encoding : ser_result bytes :=
  serialize_with DiscoveredWriterData_to_parameter_list d encoding.

(** [now] is the time of reception. *)
Definition DiscoveredWriterData_from_pl_cdr_bytes (now : Z) (input_bytes : bytes) encoding
  : pl_result DiscoveredWriterData :=
  '(ctx, pl_map) ← parse_pl_cdr input_bytes encoding;
  guid ← get_first_from_pl_map pl_map (GUID_read ctx) PID_ENDPOINT_GUID;
  participant_guid ← get_opt_from_pl_map pl_map (GUID_read ctx) PID_PARTICIPANT_GUID;
  unicast_locator_list ← get_locators_from_pl_map pl_map ctx PID_UNICAST_LOCATOR;
  multicast_locator_list ← get_locators_from_pl_map pl_map ctx PID_MULTICAST_LOCATOR;
  topic_name ← get_first_from_pl_map pl_map (StringWithNul_read ctx) PID_TOPIC_NAME;
  type_name ← get_first_from_pl_map pl_map (StringWithNul_read ctx) PID_TYPE_NAME;
  data_max_size_serialized ← get_opt_from_pl_map pl_map (read_u32 ctx) PID_TYPE_MAX_SIZE_SERIALIZED;
  qos ← pl_option PlSpeedy (from_parameter_list ctx pl_map);
  mret (mkDWD now (mkWriterProxy guid unicast_locator_list multicast_locator_list data_max_size_serialized)
          (PublicationBuiltinTopicData_new_with_qos guid participant_guid topic_name type_name qos)).

Definition DiscoveredTopicData_to_parameter_list e (d : DiscoveredTopicData) : outcome (list RtpsParameter) :=
  let t := dtd_topic_data d in
  name ← StringWithNul_write e (tbtd_name t);
  type_name ← StringWithNul_write e (tbtd_type_name t);
  Ret (emit_option PID_ENDPOINT_GUID (GUID_write e) (tbtd_key t)
       ++ emit PID_TOPIC_NAME name
       ++ emit PID_TYPE_NAME type_name
       ++ to_parameter_list e (TopicBuiltinTopicData_qos t)).

Definition DiscoveredTopicData_to_pl_cdr_bytes (d : DiscoveredTopicData) encoding : ser_result bytes :=
  serialize_with DiscoveredTopicData_to_parameter_list d encoding.

Definition DiscoveredTopicData_from_pl_cdr_bytes (utc_now : Z) (input_bytes : bytes) encoding
  : pl_result DiscoveredTopicData :=
  '(ctx, pl_map) ← parse_pl_cdr input_bytes encoding;
  key ← get_opt_from_pl_map pl_map (GUID_read ctx) PID_ENDPOINT_GUID;
  name ← get_first_from_pl_map pl_map (StringWithNul_read ctx) PID_TOPIC_NAME;
  type_name ← get_first_from_pl_map pl_map (StringWithNul_read ctx) PID_TYPE_NAME;
  qos ← pl_option PlSpeedy (from_parameter_list ctx pl_map);
  mret (mkDTD utc_now (TopicBuiltinTopicData_new key name type_name qos)).

(** ** Participants *)

Definition Participant_GUID_to_pl_cdr_bytes (g : GUID) encoding : ser_result bytes :=
  serialize_with (fun ctx g => Ret (emit PID_PARTICIPANT_GUID (GUID_write ctx g))) g encoding.

Definition Participant_GUID_from_pl_cdr_bytes (input_bytes : bytes) encoding : pl_result GUID :=
  '(ctx, pl_map) ← parse_pl_cdr input_bytes encoding;
  get_first_from_pl_map pl_map (GUID_read ctx) PID_PARTICIPANT_GUID.

Definition SpdpDiscoveredParticipantData_to_parameter_list e (d : SpdpDiscoveredParticipantData)
  : outcome (list RtpsParameter) :=
  entity_name ← emit_option_m PID_ENTITY_NAME (StringWithNul_write e) (spdp_entity_name d);
  Ret (emit PID_PROTOCOL_VERSION (ProtocolVersion_write e (spdp_protocol_version d))
       ++ emit PID_VENDOR_ID (VendorId_write e (spdp_vendor_id d))
       ++ emit PID_EXPECTS_INLINE_QOS (sp_write_bool e (spdp_expects_inline_qos d))
       ++ emit PID_PARTICIPANT_GUID (GUID_write e (spdp_participant_guid d))
       ++ emit_all PID_METATRAFFIC_UNICAST_LOCATOR (Locator_write e) (spdp_metatraffic_unicast_locators d)
       ++ emit_all PID_METATRAFFIC_MULTICAST_LOCATOR (Locator_write e) (spdp_metatraffic_multicast_locators d)
       ++ emit_all PID_DEFAULT_UNICAST_LOCATOR (Locator_write e) (spdp_default_unicast_locators d)
       ++ emit_all PID_DEFAULT_MULTICAST_LOCATOR (Locator_write e) (spdp_default_multicast_locators d)
       ++ emit PID_BUILTIN_ENDPOINT_SET (write_u32 e (spdp_available_builtin_endpoints d))
       ++ emit_option PID_PARTICIPANT_LEASE_DURATION (Duration_write e) (spdp_lease_duration d)
       ++ emit PID_PARTICIPANT_MANUAL_LIVELINESS_COUNT (write_i32 e (spdp_manual_liveliness_count d))
       ++ emit_option PID_BUILTIN_ENDPOINT_QOS (write_u32 e) (spdp_builtin_endpoint_qos d)
       ++ entity_name).

Definition SpdpDiscoveredParticipantData_to_pl_cdr_bytes (d : SpdpDiscoveredParticipantData) encoding : ser_result bytes :=
  serialize_with SpdpDiscoveredParticipantData_to_parameter_list d encoding.

Definition SpdpDiscoveredParticipantData_from_pl_cdr_bytes (utc_now : Z) (input_bytes : bytes) encoding
  : pl_result SpdpDiscoveredParticipantData :=
  '(ctx, pl_map) ← parse_pl_cdr input_bytes encoding;
  protocol_version ← get_first_from_pl_map pl_map (ProtocolVersion_read ctx) PID_PROTOCOL_VERSION;
  vendor_id ← get_first_from_pl_map pl_map (VendorId_read ctx) PID_VENDOR_ID;
  expects_inline_qos ← get_opt_from_pl_map pl_map (sp_read_bool ctx) PID_EXPECTS_INLINE_QOS;
  participant_guid ← get_first_from_pl_map pl_map (GUID_read ctx) PID_PARTICIPANT_GUID;
  metatraffic_unicast_locators ← get_locators_from_pl_map pl_map ctx PID_METATRAFFIC_UNICAST_LOCATOR;
  metatraffic_multicast_locators ← get_locators_from_pl_map pl_map ctx PID_METATRAFFIC_MULTICAST_LOCATOR;
  default_unicast_locators ← get_locators_from_pl_map pl_map ctx PID_DEFAULT_UNICAST_LOCATOR;
  default_multicast_locators ← get_locators_from_pl_map pl_map ctx PID_DEFAULT_MULTICAST_LOCATOR;
  lease_duration ← get_opt_from_pl_map pl_map (Duration_read ctx) PID_PARTICIPANT_LEASE_DURATION;
  manual_liveliness_count ← get_opt_from_pl_map pl_map (read_i32 ctx) PID_PARTICIPANT_MANUAL_LIVELINESS_COUNT;
  available_builtin_endpoints ← get_first_from_pl_map pl_map (read_u32 ctx) PID_BUILTIN_ENDPOINT_SET;
  builtin_endpoint_qos ← get_opt_from_pl_map pl_map (read_u32 ctx) PID_BUILTIN_ENDPOINT_QOS;
  entity_name ← get_opt_from_pl_map pl_map (StringWithNul_read ctx) PID_ENTITY_NAME;
  mret (mkSPDP utc_now protocol_version vendor_id (default false expects_inline_qos) participant_guid
          metatraffic_unicast_locators metatraffic_multicast_locators default_unicast_locators default_multicast_locators
          available_builtin_endpoints lease_duration (default 0 manual_liveliness_count) builtin_endpoint_qos entity_name).
End endpoints.
