(* ===== verification/DiscoveryWireTheorems.v ===== *)
(** * Round trips of discovery data

    What one participant announces of itself, its readers, writers and topics
    is what another one learns. *)

From S2P Require Import Prelude BTree Wire SequenceNumbers Time Guid Locator ParameterList Qos Payload Submessages Headers StatusEvents MessageWire InlineQos WriterProxy ReaderProxy DiscoveryData DiscoveryWire.

(** ** Strings *)

Lemma string_bytes_range s : Forall (in_u 8) (string_bytes s).
Proof.
  unfold string_bytes. apply Forall_fmap, Forall_true. intros a. simpl.
  pose proof (Ascii.nat_ascii_bounded a). unfold in_u. pow2. lia.
Qed.

Lemma bytes_string_of_string s : bytes_string (string_bytes s) = s.
Proof.
  unfold bytes_string, string_bytes. rewrite <- list_fmap_compose.
  rewrite <- (String.string_of_list_ascii_of_string s) at 2. f_equal.
  rewrite <- (list_fmap_id (String.list_ascii_of_string s)) at 2. apply list_fmap_ext. intros i a _. simpl.
  by rewrite Nat2Z.id, Ascii.ascii_nat_embedding.
Qed.

Lemma string_bytes_of_bytes bs : Forall (in_u 8) bs -> string_bytes (bytes_string bs) = bs.
Proof.
  intros Hbs. unfold bytes_string, string_bytes. rewrite String.list_ascii_of_string_of_list_ascii.
  rewrite <- list_fmap_compose. rewrite <- (list_fmap_id bs) at 2. apply list_fmap_ext. intros i b Hb. simpl.
  assert (in_u 8 b) as [H0 H1] by (rewrite Forall_forall in Hbs; apply Hbs; by eapply list_elem_of_lookup_2).
  change (2 ^ 8) with 256 in H1. rewrite Ascii.nat_ascii_embedding; lia.
Qed.

Lemma utf8_valid_app n bs bs' :
  (length bs <= n)%nat -> utf8_valid bs = true -> utf8_valid bs' = true -> utf8_valid (bs ++ bs') = true.
Proof.
  intros Hn Hv Hv'. revert bs Hn Hv. induction n as [|n IH]; intros [|b0 r] Hn Hv; simpl in Hn; try lia; try done.
  cbn [utf8_valid app] in *. destruct (in_bytes 0 127 b0); [apply IH; [lia|done]|].
  destruct r as [|b1 r]; [done|]. cbn [app length] in *.
  destruct (in_bytes 194 223 b0).
  { rewrite andb_true_iff in *. destruct Hv. split; [done|]. apply IH; [lia|done]. }
  destruct r as [|b2 r]; [done|]. cbn [app length] in *.
  destruct (in_bytes 224 239 b0).
  { rewrite !andb_true_iff in *. destruct Hv as [? Hv]. split; [done|]. apply IH; [lia|done]. }
  destruct r as [|b3 r]; [done|]. cbn [app length] in *.
  rewrite !andb_true_iff in *. destruct Hv as [? Hv]. split; [done|]. apply IH; [lia|done].
Qed.

(** A Rust string. *)
Definition string_ok (s : string) : Prop := utf8_valid (string_bytes s) = true.
(** Short enough for a parameter, whose length is a 16-bit number. *)
Definition name_ok (s : string) : Prop := string_ok s /\ string_len s <= 65527.

Section strings.
Context `{SP : Speedy, !SpeedyLaws SP, SS : SpeedyString, !SpeedyStringLaws SP SS}.

(** A string as it is written. *)
Definition nul_bytes (e : Endianness) (s : string) : bytes :=
  write_u32 e (string_len s + 1) ++ string_bytes s ++ write_u8 e 0.

Lemma string_len_nonneg s : 0 <= string_len s.
Proof. unfold string_len. lia. Qed.

Lemma length_nul_bytes e s : Z.of_nat (length (nul_bytes e s)) = string_len s + 5.
Proof. unfold nul_bytes, string_len, write_u32, write_u8. rewrite !length_app, !sp_length. lia. Qed.

Lemma StringWithNul_write_ok e s : string_len s < 2 ^ 32 - 1 -> StringWithNul_write e s = Ret (nul_bytes e s).
Proof. intros Hs. unfold StringWithNul_write. cbv zeta. by rewrite (proj2 (Z.ltb_lt _ _)) by lia. Qed.

Lemma StringWithNul_roundtrip e s rest :
  string_ok s -> string_len s < 2 ^ 32 - 1 -> StringWithNul_read e (nul_bytes e s ++ rest) = Some (s, rest).
Proof.
  intros Hok Hlen. set (t := bytes_string (string_bytes s ++ [0])).
  assert (string_bytes t = string_bytes s ++ [0]) as Ht.
  { apply string_bytes_of_bytes, Forall_app. split; [apply string_bytes_range|]. constructor; [|done]. unfold in_u. pow2. lia. }
  assert (string_len t = string_len s + 1) as Hl by (unfold string_len; rewrite Ht, length_app; simpl; lia).
  pose proof (string_len_nonneg s) as H0.
  assert (nul_bytes e s ++ rest = write_u32 e (string_len t) ++ string_bytes t ++ rest) as ->.
  { unfold nul_bytes, write_u8. rewrite Hl, Ht, sp_write_byte by (unfold in_u; pow2; lia). by rewrite <- !app_assoc. }
  unfold StringWithNul_read, mbind, reader_bind. rewrite sp_read_string_written.
  - unfold String_pop. rewrite Ht, rev_app_distr. cbn [rev app drop_continuations tail].
    change (continuation 0) with false. cbn [tail]. by rewrite rev_involutive, bytes_string_of_string.
  - rewrite Ht. by eapply utf8_valid_app.
  - unfold in_u. rewrite Hl. lia.
Qed.

Lemma name_len s : name_ok s -> string_len s < 2 ^ 32 - 1.
Proof. intros [_ ?]. pow2. lia. Qed.

Lemma name_roundtrip e s rest : name_ok s -> StringWithNul_read e (nul_bytes e s ++ rest) = Some (s, rest).
Proof. intros Hs. apply StringWithNul_roundtrip; [apply Hs|by apply name_len]. Qed.

(** ** Content filters *)

Lemma read_write_pad e n rest : read_pad n (write_pad e n ++ rest) = Some (tt, rest).
Proof.
  unfold read_pad, write_pad. cbv zeta. destruct (0 <? n mod 4); [|done]. unfold mbind, reader_bind. rewrite read_bytes_app; [done|].
  generalize (Z.to_nat (4 - n mod 4)) as k. induction k as [|k IH]; csimpl; [done|].
  unfold write_u8 at 1. rewrite length_app, sp_length. simpl in *. lia.
Qed.

Fixpoint eps_bytes (eps : list string) (prev_len : Z) (e : Endianness) : bytes :=
  match eps with
  | [] => []
  | ep :: eps => write_pad e prev_len ++ nul_bytes e ep ++ eps_bytes eps (StringWithNul_len ep) e
  end.

Definition cf_strings (c : ContentFilterProperty) : list string :=
  [content_filtered_topic_name c; related_topic_name c; filter_class_name c; filter_expression c]
  ++ expression_parameters c.

Definition cf_bytes (e : Endianness) (c : ContentFilterProperty) : bytes :=
  let part s := nul_bytes e s ++ write_pad e (StringWithNul_len s) in
  part (content_filtered_topic_name c) ++ part (related_topic_name c) ++ part (filter_class_name c)
  ++ part (filter_expression c)
  ++ write_u32 e (Z.of_nat (length (expression_parameters c))) ++ eps_bytes (expression_parameters c) 0 e.

Definition cf_ok (c : ContentFilterProperty) : Prop :=
  Forall string_ok (cf_strings c) /\ forall e, Z.of_nat (length (cf_bytes e c)) <= 65532.

(** The bytes of the filter bound its strings. *)
Lemma eps_bytes_bound eps p e s :
  s ∈ eps -> string_len s <= Z.of_nat (length (eps_bytes eps p e)).
Proof.
  revert p. induction eps as [|s' eps IH]; intros p; [by intros ?%elem_of_nil|]. cbn [eps_bytes]. rewrite !length_app.
  pose proof (length_nul_bytes e s'). intros [->|Hs]%elem_of_cons; [lia|]. specialize (IH (StringWithNul_len s') Hs). lia.
Qed.

Lemma eps_count_bound eps p e : Z.of_nat (length eps) <= Z.of_nat (length (eps_bytes eps p e)).
Proof.
  revert p. induction eps as [|s eps IH]; intros p; [done|]. cbn [eps_bytes length]. rewrite !length_app.
  pose proof (length_nul_bytes e s). pose proof (string_len_nonneg s). specialize (IH (StringWithNul_len s)). lia.
Qed.

Lemma cf_short c : cf_ok c -> Forall (fun s => string_len s < 2 ^ 32 - 1) (cf_strings c).
Proof.
  intros [_ Hlen]. specialize (Hlen LittleEndian). set (e := LittleEndian) in *. apply Forall_forall. intros s Hs.
  enough (string_len s <= Z.of_nat (length (cf_bytes e c))) by (pow2; lia).
  unfold cf_strings in Hs. rewrite !elem_of_app in Hs. unfold cf_bytes. rewrite !length_app.
  destruct Hs as [Hs|Hs]; [|apply (eps_bytes_bound _ 0 e) in Hs; lia].
  rewrite !elem_of_cons, elem_of_nil in Hs.
  pose proof (fun s => length_nul_bytes e s) as Hn. pose proof string_len_nonneg.
  destruct Hs as [->|[->|[->|[->|[]]]]]; pose proof (Hn (content_filtered_topic_name c));
    pose proof (Hn (related_topic_name c)); pose proof (Hn (filter_class_name c)); pose proof (Hn (filter_expression c)); lia.
Qed.

Lemma write_eps_ok eps p e :
  Forall (fun s => string_len s < 2 ^ 32 - 1) eps -> write_expression_parameters eps p e = Ret (eps_bytes eps p e).
Proof.
  intros Heps. revert p. induction Heps as [|s eps Hs _ IH]; intros p; [done|]. cbn [write_expression_parameters].
  rewrite StringWithNul_write_ok by done. cbn [mbind outcome_bind]. by rewrite IH.
Qed.

Lemma ContentFilterProperty_write_ok e c : cf_ok c -> ContentFilterProperty_write e c = Ret (cf_bytes e c).
Proof.
  intros Hc. pose proof (cf_short c Hc) as Hs. unfold cf_strings in Hs. rewrite Forall_app, !Forall_cons in Hs.
  destruct Hs as [(H1 & H2 & H3 & H4 & _) H5]. unfold ContentFilterProperty_write.
  rewrite !StringWithNul_write_ok, write_eps_ok by done. cbn [mbind outcome_bind]. unfold cf_bytes. f_equal.
  rewrite wrap_u_id; [by rewrite <- !app_assoc|]. destruct Hc as [_ Hlen]. specialize (Hlen e).
  unfold cf_bytes in Hlen. rewrite !length_app in Hlen. pose proof (eps_count_bound (expression_parameters c) 0 e).
  unfold in_u. pow2. lia.
Qed.

Lemma read_eps_written e eps p rest :
  Forall string_ok eps -> Forall (fun s => string_len s < 2 ^ 32 - 1) eps ->
  read_expression_parameters (length eps) p e (eps_bytes eps p e ++ rest) = Some (eps, rest).
Proof.
  intros Hok Hlen. revert p. induction eps as [|s eps IH]; intros p; [done|].
  apply Forall_cons in Hok as [Hs Hok]. apply Forall_cons in Hlen as [Hl Hlen].
  cbn [length read_expression_parameters eps_bytes]. unfold mbind, reader_bind. rewrite <- !app_assoc, read_write_pad.
  rewrite StringWithNul_roundtrip by done. by rewrite IH.
Qed.

Lemma ContentFilterProperty_roundtrip e c rest :
  cf_ok c -> ContentFilterProperty_read e (cf_bytes e c ++ rest) = Some (c, rest).
Proof.
  intros Hc. pose proof (cf_short c Hc) as Hs. pose proof (proj1 Hc) as Hk. pose proof (proj2 Hc e) as Hlen.
  unfold cf_strings in Hs, Hk. rewrite Forall_app, !Forall_cons in Hs, Hk.
  destruct Hs as [(H1 & H2 & H3 & H4 & _) H5], Hk as [(K1 & K2 & K3 & K4 & _) K5].
  unfold cf_bytes in *. rewrite !length_app in Hlen. pose proof (eps_count_bound (expression_parameters c) 0 e).
  unfold ContentFilterProperty_read, mbind, reader_bind. rewrite <- !app_assoc.
  do 4 (rewrite StringWithNul_roundtrip by done; rewrite read_write_pad).
  rewrite read_write_u32 by (unfold in_u; pow2; lia). rewrite Nat2Z.id, read_eps_written by done. by destruct c.
Qed.
End strings.

(** ** Parameters in a list *)

Section segments.
Context `{SP : Speedy, !SpeedyLaws SP}.
Implicit Types (pid : ParameterId) (l : list RtpsParameter).

Abbreviation at_pid pid := (filter (fun p => parameter_id p = pid)).

Lemma at_emit pid pid' v : at_pid pid (emit pid' v) = if pid' =? pid then emit pid' v else [].
Proof. unfold emit. rewrite filter_cons, filter_nil. cbn [parameter_id]. destruct (Z.eqb_spec pid' pid); by case_decide. Qed.

Lemma at_emit_option {A} pid pid' (w : A -> bytes) m :
  at_pid pid (emit_option pid' w m) = if pid' =? pid then emit_option pid' w m else [].
Proof. destruct m; [apply at_emit|]. by destruct (pid' =? pid). Qed.

Lemma at_emit_all {A} pid pid' (w : A -> bytes) xs :
  at_pid pid (emit_all pid' w xs) = if pid' =? pid then emit_all pid' w xs else [].
Proof.
  induction xs as [|x xs IH]; [by destruct (pid' =? pid)|].
  change (emit_all pid' w (x :: xs)) with (emit pid' (w x) ++ emit_all pid' w xs).
  rewrite filter_app, at_emit, IH. by destruct (pid' =? pid).
Qed.

Definition qos_pids : list ParameterId :=
  [PID_DURABILITY; PID_PRESENTATION; PID_DEADLINE; PID_LATENCY_BUDGET; PID_OWNERSHIP; PID_OWNERSHIP_STRENGTH;
   PID_LIVELINESS; PID_TIME_BASED_FILTER; PID_RELIABILITY; PID_DESTINATION_ORDER; PID_HISTORY; PID_RESOURCE_LIMITS;
   PID_LIFESPAN].

Lemma at_qos pid e q : bool_decide (pid ∈ qos_pids) = false -> at_pid pid (to_parameter_list e q) = [].
Proof.
  intros Hpid%bool_decide_eq_false. unfold qos_pids in Hpid. rewrite !elem_of_cons in Hpid.
  unfold to_parameter_list. rewrite !filter_app, filter_ownership, !filter_emit_ne by naive_solver.
  by rewrite !decide_False by naive_solver.
Qed.

(** What is read of a parameter depends on the parameters of that id only. *)
Lemma get_option_ext {D} l l' (r : reader D) pid :
  at_pid pid l = at_pid pid l' ->
  get_option_from_pl_map (ParameterList_to_map (mkPL l)) r pid = get_option_from_pl_map (ParameterList_to_map (mkPL l')) r pid.
Proof. intros Hl. unfold get_option_from_pl_map. rewrite !to_map_first. simpl. by rewrite Hl. Qed.

Lemma from_parameter_list_ext e l l' :
  (forall pid, pid ∈ qos_pids -> at_pid pid l = at_pid pid l') ->
  from_parameter_list e (ParameterList_to_map (mkPL l)) = from_parameter_list e (ParameterList_to_map (mkPL l')).
Proof.
  intros Hl. unfold from_parameter_list.
  rewrite !(fun D r => get_option_ext (D:=D) l l' r) by (apply Hl; unfold qos_pids; set_solver). done.
Qed.

(** ** Reading back what was emitted *)

Abbreviation received e l := (ParameterList_to_map (mkPL (padded e <$> l))).

Lemma get_first_emitted {D} e l pid v (r : reader D) x :
  at_pid pid l = emit pid v -> (forall rest, r (v ++ rest) = Some (x, rest)) ->
  get_first_from_pl_map (received e l) r pid = mret x.
Proof.
  intros Hl Hr. unfold get_first_from_pl_map, read_from_buffer. rewrite to_map_first. cbn [parameters].
  rewrite filter_padded, Hl. simpl. by rewrite Hr.
Qed.

Lemma get_opt_emitted {A} e l pid (w : A -> bytes) (r : reader A) m :
  at_pid pid l = emit_option pid w m -> (forall x rest, m = Some x -> r (w x ++ rest) = Some (x, rest)) ->
  get_opt_from_pl_map (received e l) r pid = mret m.
Proof.
  intros Hl Hr. unfold get_opt_from_pl_map. rewrite (get_emitted e l pid w r id m Hl Hr). by rewrite option_fmap_id.
Qed.

Lemma outcome_all_fmap {A} (xs : list A) : outcome_all (Ret <$> xs) = Ret xs.
Proof. induction xs as [|x xs IH]; [done|]. cbn [fmap list_fmap outcome_all]. by rewrite IH. Qed.

Lemma get_locators_emitted e l pid ls :
  at_pid pid l = emit_all pid (Locator_write e) ls -> Forall Locator_ok ls ->
  get_locators_from_pl_map (received e l) e pid = mret ls.
Proof.
  intros Hl Hls. unfold get_locators_from_pl_map, get_all_from_pl_map. rewrite to_map_lookup. cbn [parameters].
  rewrite filter_padded, Hl. clear Hl.
  assert (mapM (fun p => read_from_buffer (Locator_read e) (value p)) (padded e <$> emit_all pid (Locator_write e) ls)
          = Some (Ret <$> ls)) as ->.
  { induction Hls as [|x ls Hx _ IH]; [done|].
    change (emit_all pid _ (x :: ls)) with (emit pid (Locator_write e x) ++ emit_all pid (Locator_write e) ls).
    rewrite fmap_app. cbn [emit fmap list_fmap app mapM padded value]. rewrite IH. unfold read_from_buffer.
    by rewrite read_write_Locator by done. }
  cbn [pl_option mbind pl_bind mret pl_ret]. by rewrite outcome_all_fmap.
Qed.

Lemma get_qos_emitted e l q :
  (forall pid, pid ∈ qos_pids -> at_pid pid l = at_pid pid (to_parameter_list e q)) -> qos_ok q ->
  pl_option PlSpeedy (from_parameter_list e (received e l)) = mret q.
Proof.
  intros Hl Hq. rewrite (from_parameter_list_ext e _ (padded e <$> to_parameter_list e q)).
  - by rewrite read_from_parameter_list.
  - intros pid Hpid. rewrite !filter_padded. by rewrite Hl.
Qed.

(** ** Guids *)

Definition guid_wire_ok (g : GUID) : Prop := prefix_ok (prefix g) /\ EntityId_ok (entity_id g).

Lemma read_write_GUID e g rest : guid_wire_ok g -> GUID_read e (GUID_write e g ++ rest) = Some (g, rest).
Proof.
  intros [Hp He]. unfold GUID_read, GUID_write, mbind, reader_bind. rewrite <- app_assoc.
  rewrite read_write_GuidPrefix, read_write_EntityId by done. by destruct g.
Qed.

Lemma length_GUID_write e g : prefix_ok (prefix g) -> length (GUID_write e g) = 16%nat.
Proof.
  intros [Hp _]. unfold GUID_write, GuidPrefix_write. by rewrite length_app, length_write_u8s, length_EntityId_write, Hp.
Qed.

Lemma length_Locator_write e x : Locator_ok x -> length (Locator_write e x) = 24%nat.
Proof.
  intros Hx. destruct (Locator_to_repr_ok x Hx) as (_ & _ & Hn & _).
  unfold Locator_write, repr_Locator_write, write_i32, write_u32. by rewrite !length_app, !sp_length, length_write_u8s, Hn.
Qed.

(** ** Parameters that can be written *)

Lemma Forall_ok_emit pid v :
  in_u 16 pid -> pid <> PID_SENTINEL -> Z.of_nat (length v) <= 65532 -> Forall Parameter_ok (emit pid v).
Proof. intros ? ? ?. apply Forall_singleton. by split_and!. Qed.

Lemma Forall_ok_emit_option {A} pid (w : A -> bytes) m :
  in_u 16 pid -> pid <> PID_SENTINEL -> (forall x, m = Some x -> Z.of_nat (length (w x)) <= 65532) ->
  Forall Parameter_ok (emit_option pid w m).
Proof. intros ? ? Hm. destruct m; [|constructor]. apply Forall_ok_emit; auto. Qed.

Lemma Forall_ok_emit_all {A} pid (w : A -> bytes) xs :
  in_u 16 pid -> pid <> PID_SENTINEL -> Forall (fun x => Z.of_nat (length (w x)) <= 65532) xs ->
  Forall Parameter_ok (emit_all pid w xs).
Proof.
  intros ? ? Hxs. induction Hxs as [|x xs Hx _ IH]; [constructor|].
  change (emit_all pid w (x :: xs)) with (emit pid (w x) ++ emit_all pid w xs).
  apply Forall_app. split; [by apply Forall_ok_emit|done].
Qed.

(** A list that is written is parsed again. *)
Lemma parse_written encoding e (l : list RtpsParameter) :
  pl_cdr_rep_id_to_speedy encoding = Some e -> Forall Parameter_ok l ->
  parse_pl_cdr (ParameterList_write e (mkPL l)) encoding = mret (e, received e l).
Proof.
  intros He Hl. unfold parse_pl_cdr. change (pl_cdr_rep_id_to_speedy_d encoding) with (pl_cdr_rep_id_to_speedy encoding).
  rewrite He. cbn [pl_option mbind pl_bind mret pl_ret]. unfold read_from_buffer.
  pose proof (ParameterList_roundtrip e (mkPL l) [] Hl) as Hr. rewrite app_nil_r in Hr. rewrite Hr. done.
Qed.
End segments.

(** Definitions of lists of emissions. *)
Create HintDb emissions.

(** The parameters of one id in a list of emissions. *)
Ltac at_segments :=
  autounfold with emissions; rewrite !filter_app, ?at_emit, ?at_emit_option, ?at_emit_all;
  repeat (rewrite at_qos by reflexivity);
  repeat match goal with
  | |- context [Z.eqb ?a ?b] => let v := eval vm_compute in (Z.eqb a b) in change (Z.eqb a b) with v; cbv iota
  end;
  rewrite ?app_nil_r; cbn [app]; try reflexivity.

(** The same for each policy. *)
Ltac at_policies :=
  intros pid Hpid; unfold qos_pids in Hpid; rewrite !elem_of_cons, elem_of_nil in Hpid;
  decompose [or] Hpid; subst; try tauto; at_segments.

(** Read back a parameter: a GUID, a name, and so on. *)
Ltac got_guid e pid g :=
  rewrite (get_first_emitted e _ pid (GUID_write e g) _ g); [|at_segments|intros; by apply read_write_GUID].
Ltac got_opt_guid e pid m :=
  rewrite (get_opt_emitted e _ pid (GUID_write e) _ m); [|at_segments|intros; apply read_write_GUID; auto].
Ltac got_bool e pid b :=
  rewrite (get_opt_emitted e _ pid (sp_write_bool e) _ (Some b)); [|at_segments|intros; apply sp_read_write_bool].
Ltac got_locators e pid ls := rewrite (get_locators_emitted e _ pid ls); [|at_segments|done].
Ltac got_name e pid s :=
  rewrite (get_first_emitted e _ pid (nul_bytes e s) _ s); [|at_segments|intros; by apply name_roundtrip].
Ltac got_qos e q := rewrite (get_qos_emitted e _ q); [|at_policies|done].

(** Every parameter of a list of emissions can be written: the lengths remain. *)
Ltac emissions_ok :=
  autounfold with emissions; rewrite !Forall_app; split_and!;
  first [ apply to_parameter_list_ok
        | (apply Forall_ok_emit_all || apply Forall_ok_emit_option || apply Forall_ok_emit);
          [cbv; split; [discriminate|reflexivity]|cbv; discriminate|] ].

Section roundtrips.
Context `{SP : Speedy, !SpeedyLaws SP, SS : SpeedyString, !SpeedyStringLaws SP SS}.
Implicit Types (e : Endianness).

Lemma emit_option_m_ok {A} pid (w : A -> outcome bytes) (w' : A -> bytes) m :
  (forall x, m = Some x -> w x = Ret (w' x)) -> emit_option_m pid w m = Ret (emit_option pid w' m).
Proof. intros Hw. destruct m as [x|]; [|done]. simpl. by rewrite Hw. Qed.

Lemma emit_strings_ok pid e xs :
  Forall name_ok xs -> emit_strings pid e xs = Ret (emit_all pid (nul_bytes e) xs).
Proof.
  intros Hxs. induction Hxs as [|x xs Hx _ IH]; [done|]. cbn [emit_strings].
  rewrite StringWithNul_write_ok by by apply name_len. cbn [mbind outcome_bind]. by rewrite IH.
Qed.

Lemma length_name e s : name_ok s -> Z.of_nat (length (nul_bytes e s)) <= 65532.
Proof. intros [_ ?]. rewrite length_nul_bytes. lia. Qed.

Lemma length_guid e g : guid_wire_ok g -> Z.of_nat (length (GUID_write e g)) <= 65532.
Proof. intros [? _]. by rewrite length_GUID_write. Qed.

Lemma Forall_locators e ls :
  Forall Locator_ok ls -> Forall (fun x => Z.of_nat (length (Locator_write e x)) <= 65532) ls.
Proof. intros Hls. eapply Forall_impl; [done|]. intros x Hx. by rewrite length_Locator_write. Qed.

Lemma Forall_names e xs : Forall name_ok xs -> Forall (fun s => Z.of_nat (length (nul_bytes e s)) <= 65532) xs.
Proof. intros Hxs. eapply Forall_impl; [done|]. intros s. apply length_name. Qed.

(** ** Readers *)

Definition option_ok {A} (P : A -> Prop) (m : option A) : Prop := forall x, m = Some x -> P x.

Definition drd_wire_ok (d : DiscoveredReaderData) : Prop :=
  let p := drd_reader_proxy d in
  let s := drd_subscription_topic_data d in
  guid_wire_ok (rpx_remote_reader_guid p) /\
  Forall Locator_ok (rpx_unicast_locator_list p) /\ Forall Locator_ok (rpx_multicast_locator_list p) /\
  option_ok guid_wire_ok (sbtd_participant_key s) /\
  name_ok (sbtd_topic_name s) /\ name_ok (sbtd_type_name s) /\
  qos_ok (SubscriptionBuiltinTopicData_qos s) /\
  option_ok name_ok (sbtd_service_instance_name s) /\ option_ok guid_wire_ok (sbtd_related_datawriter_key s) /\
  Forall name_ok (default [] (sbtd_topic_aliases s)) /\ option_ok cf_ok (drd_content_filter d).

Definition reader_parameters e (d : DiscoveredReaderData) : list RtpsParameter :=
  let p := drd_reader_proxy d in
  let s := drd_subscription_topic_data d in
  emit PID_EXPECTS_INLINE_QOS (sp_write_bool e (rpx_expects_inline_qos p))
  ++ emit PID_ENDPOINT_GUID (GUID_write e (rpx_remote_reader_guid p))
  ++ emit_all PID_UNICAST_LOCATOR (Locator_write e) (rpx_unicast_locator_list p)
  ++ emit_all PID_MULTICAST_LOCATOR (Locator_write e) (rpx_multicast_locator_list p)
  ++ emit_option PID_PARTICIPANT_GUID (GUID_write e) (sbtd_participant_key s)
  ++ emit PID_TOPIC_NAME (nul_bytes e (sbtd_topic_name s))
  ++ emit PID_TYPE_NAME (nul_bytes e (sbtd_type_name s))
  ++ to_parameter_list e (SubscriptionBuiltinTopicData_qos s)
  ++ emit_option PID_SERVICE_INSTANCE_NAME (nul_bytes e) (sbtd_service_instance_name s)
  ++ emit_option PID_RELATED_ENTITY_GUID (GUID_write e) (sbtd_related_datawriter_key s)
  ++ emit_all PID_TOPIC_ALIASES (nul_bytes e) (default [] (sbtd_topic_aliases s))
  ++ emit_option PID_CONTENT_FILTER_PROPERTY (cf_bytes e) (drd_content_filter d).

Hint Unfold reader_parameters : emissions.

Lemma reader_parameters_written e d :
  drd_wire_ok d -> DiscoveredReaderData_to_parameter_list e d = Ret (reader_parameters e d).
Proof.
  intros (_ & _ & _ & _ & Htn & Hty & _ & Hs & _ & Ha & Hc). unfold DiscoveredReaderData_to_parameter_list.
  rewrite !StringWithNul_write_ok by by apply name_len.
  rewrite (emit_option_m_ok _ _ (nul_bytes e)) by (intros x Hx; apply StringWithNul_write_ok, name_len; auto).
  rewrite emit_strings_ok by done.
  rewrite (emit_option_m_ok _ _ (cf_bytes e)) by (intros x Hx; apply ContentFilterProperty_write_ok; auto). done.
Qed.

Lemma reader_parameters_ok e d : drd_wire_ok d -> Forall Parameter_ok (reader_parameters e d).
Proof.
  intros (Hg & Hu & Hm & Hpk & Htn & Hty & _ & Hs & Hr & Ha & Hc). emissions_ok.
  - by rewrite sp_bool_length.
  - by apply length_guid.
  - by apply Forall_locators.
  - by apply Forall_locators.
  - intros g ?. apply length_guid. auto.
  - by apply length_name.
  - by apply length_name.
  - intros x ?. apply length_name. auto.
  - intros g ?. apply length_guid. auto.
  - by apply Forall_names.
  - intros c ?. by apply Hc.
Qed.

(** What the receiver makes of it: the GUID of the endpoint is the key, and the
    parts about remote procedure calls are not read. *)
Definition drd_received (d : DiscoveredReaderData) : DiscoveredReaderData :=
  let p := drd_reader_proxy d in
  let s := drd_subscription_topic_data d in
  mkDRD p
    (SubscriptionBuiltinTopicData_new (rpx_remote_reader_guid p) (sbtd_participant_key s) (sbtd_topic_name s)
       (sbtd_type_name s) (SubscriptionBuiltinTopicData_qos s))
    (drd_content_filter d).

Lemma reader_parameters_read e d encoding :
  pl_cdr_rep_id_to_speedy encoding = Some e -> drd_wire_ok d ->
  DiscoveredReaderData_from_pl_cdr_bytes (ParameterList_write e (mkPL (reader_parameters e d))) encoding
  = mret (drd_received d).
Proof.
  intros He Hok. unfold DiscoveredReaderData_from_pl_cdr_bytes.
  rewrite (parse_written _ e) by auto using reader_parameters_ok. cbn [mbind pl_bind mret pl_ret].
  destruct Hok as (Hg & Hu & Hm & Hpk & Htn & Hty & Hq & Hs & Hr & Ha & Hc).
  set (p := drd_reader_proxy d) in *. set (s := drd_subscription_topic_data d) in *.
  got_guid e PID_ENDPOINT_GUID (rpx_remote_reader_guid p). got_opt_guid e PID_PARTICIPANT_GUID (sbtd_participant_key s).
  got_bool e PID_EXPECTS_INLINE_QOS (rpx_expects_inline_qos p).
  got_locators e PID_UNICAST_LOCATOR (rpx_unicast_locator_list p).
  got_locators e PID_MULTICAST_LOCATOR (rpx_multicast_locator_list p).
  got_name e PID_TOPIC_NAME (sbtd_topic_name s). got_name e PID_TYPE_NAME (sbtd_type_name s).
  rewrite (get_opt_emitted e _ PID_CONTENT_FILTER_PROPERTY (cf_bytes e) _ (drd_content_filter d));
    [|at_segments|intros; apply ContentFilterProperty_roundtrip; auto].
  got_qos e (SubscriptionBuiltinTopicData_qos s).
  cbn [mbind pl_bind mret pl_ret default]. unfold drd_received. fold p s. by destruct p.
Qed.

(** ** Writers *)

Definition dwd_wire_ok (d : DiscoveredWriterData) : Prop :=
  let p := dwd_writer_proxy d in
  let s := dwd_publication_topic_data d in
  guid_wire_ok (wpx_remote_writer_guid p) /\
  Forall Locator_ok (wpx_unicast_locator_list p) /\ Forall Locator_ok (wpx_multicast_locator_list p) /\
  option_ok (in_u 32) (wpx_data_max_size_serialized p) /\
  option_ok guid_wire_ok (pbtd_participant_key s) /\
  name_ok (pbtd_topic_name s) /\ name_ok (pbtd_type_name s) /\
  qos_ok (PublicationBuiltinTopicData_qos s) /\
  option_ok name_ok (pbtd_service_instance_name s) /\ option_ok guid_wire_ok (pbtd_related_datareader_key s) /\
  Forall name_ok (default [] (pbtd_topic_aliases s)).

Definition writer_parameters e (d : DiscoveredWriterData) : list RtpsParameter :=
  let p := dwd_writer_proxy d in
  let s := dwd_publication_topic_data d in
  emit_option PID_TYPE_MAX_SIZE_SERIALIZED (write_u32 e) (wpx_data_max_size_serialized p)
  ++ emit PID_ENDPOINT_GUID (GUID_write e (wpx_remote_writer_guid p))
  ++ emit_all PID_UNICAST_LOCATOR (Locator_write e) (wpx_unicast_locator_list p)
  ++ emit_all PID_MULTICAST_LOCATOR (Locator_write e) (wpx_multicast_locator_list p)
  ++ emit_option PID_PARTICIPANT_GUID (GUID_write e) (pbtd_participant_key s)
  ++ emit PID_TOPIC_NAME (nul_bytes e (pbtd_topic_name s))
  ++ emit PID_TYPE_NAME (nul_bytes e (pbtd_type_name s))
  ++ to_parameter_list e (PublicationBuiltinTopicData_qos s)
  ++ emit_option PID_SERVICE_INSTANCE_NAME (nul_bytes e) (pbtd_service_instance_name s)
  ++ emit_option PID_RELATED_ENTITY_GUID (GUID_write e) (pbtd_related_datareader_key s)
  ++ emit_all PID_TOPIC_ALIASES (nul_bytes e) (default [] (pbtd_topic_aliases s)).
Hint Unfold writer_parameters : emissions.

Lemma writer_parameters_written e d :
  dwd_wire_ok d -> DiscoveredWriterData_to_parameter_list e d = Ret (writer_parameters e d).
Proof.
  intros (_ & _ & _ & _ & _ & Htn & Hty & _ & Hs & _ & Ha). unfold DiscoveredWriterData_to_parameter_list.
  rewrite !StringWithNul_write_ok by by apply name_len.
  rewrite (emit_option_m_ok _ _ (nul_bytes e)) by (intros x Hx; apply StringWithNul_write_ok, name_len; auto).
  by rewrite emit_strings_ok.
Qed.

Lemma length_u32 e z : Z.of_nat (length (write_u32 e z)) <= 65532.
Proof. unfold write_u32. by rewrite sp_length. Qed.

Lemma writer_parameters_ok e d : dwd_wire_ok d -> Forall Parameter_ok (writer_parameters e d).
Proof.
  intros (Hg & Hu & Hm & _ & Hpk & Htn & Hty & _ & Hs & Hr & Ha). emissions_ok.
  - intros x _. apply length_u32.
  - by apply length_guid.
  - by apply Forall_locators.
  - by apply Forall_locators.
  - intros g ?. apply length_guid. auto.
  - by apply length_name.
  - by apply length_name.
  - intros x ?. apply length_name. auto.
  - intros g ?. apply length_guid. auto.
  - by apply Forall_names.
Qed.

(** What the receiver makes of it, at time [now]. *)
Definition dwd_received (now : Z) (d : DiscoveredWriterData) : DiscoveredWriterData :=
  let p := dwd_writer_proxy d in
  let s := dwd_publication_topic_data d in
  mkDWD now p
    (PublicationBuiltinTopicData_new_with_qos (wpx_remote_writer_guid p) (pbtd_participant_key s) (pbtd_topic_name s)
       (pbtd_type_name s) (PublicationBuiltinTopicData_qos s)).

Lemma writer_parameters_read now e d encoding :
  pl_cdr_rep_id_to_speedy encoding = Some e -> dwd_wire_ok d ->
  DiscoveredWriterData_from_pl_cdr_bytes now (ParameterList_write e (mkPL (writer_parameters e d))) encoding
  = mret (dwd_received now d).
Proof.
  intros He Hok. unfold DiscoveredWriterData_from_pl_cdr_bytes.
  rewrite (parse_written _ e) by auto using writer_parameters_ok. cbn [mbind pl_bind mret pl_ret].
  destruct Hok as (Hg & Hu & Hm & Hsz & Hpk & Htn & Hty & Hq & Hs & Hr & Ha).
  set (p := dwd_writer_proxy d) in *. set (s := dwd_publication_topic_data d) in *.
  got_guid e PID_ENDPOINT_GUID (wpx_remote_writer_guid p). got_opt_guid e PID_PARTICIPANT_GUID (pbtd_participant_key s).
  got_locators e PID_UNICAST_LOCATOR (wpx_unicast_locator_list p).
  got_locators e PID_MULTICAST_LOCATOR (wpx_multicast_locator_list p).
  got_name e PID_TOPIC_NAME (pbtd_topic_name s). got_name e PID_TYPE_NAME (pbtd_type_name s).
  rewrite (get_opt_emitted e _ PID_TYPE_MAX_SIZE_SERIALIZED (write_u32 e) _ (wpx_data_max_size_serialized p));
    [|at_segments|intros; apply read_write_u32; auto].
  got_qos e (PublicationBuiltinTopicData_qos s).
  cbn [mbind pl_bind mret pl_ret]. unfold dwd_received. fold p s. by destruct p.
Qed.

(** ** Topics *)

Definition dtd_wire_ok (d : DiscoveredTopicData) : Prop :=
  let t := dtd_topic_data d in
  option_ok guid_wire_ok (tbtd_key t) /\ name_ok (tbtd_name t) /\ name_ok (tbtd_type_name t) /\
  qos_ok (TopicBuiltinTopicData_qos t).

Definition topic_parameters e (d : DiscoveredTopicData) : list RtpsParameter :=
  let t := dtd_topic_data d in
  emit_option PID_ENDPOINT_GUID (GUID_write e) (tbtd_key t)
  ++ emit PID_TOPIC_NAME (nul_bytes e (tbtd_name t))
  ++ emit PID_TYPE_NAME (nul_bytes e (tbtd_type_name t))
  ++ to_parameter_list e (TopicBuiltinTopicData_qos t).
Hint Unfold topic_parameters : emissions.

Lemma topic_parameters_ok e d : dtd_wire_ok d -> Forall Parameter_ok (topic_parameters e d).
Proof.
  intros (Hk & Hn & Hty & _). emissions_ok.
  - intros g ?. apply length_guid. auto.
  - by apply length_name.
  - by apply length_name.
Qed.

Lemma topic_parameters_read now e d encoding :
  pl_cdr_rep_id_to_speedy encoding = Some e -> dtd_wire_ok d ->
  DiscoveredTopicData_from_pl_cdr_bytes now (ParameterList_write e (mkPL (topic_parameters e d))) encoding
  = mret (mkDTD now (dtd_topic_data d)).
Proof.
  intros He Hok. unfold DiscoveredTopicData_from_pl_cdr_bytes.
  rewrite (parse_written _ e) by auto using topic_parameters_ok. cbn [mbind pl_bind mret pl_ret].
  destruct Hok as (Hk & Hn & Hty & Hq). set (t := dtd_topic_data d) in *.
  got_opt_guid e PID_ENDPOINT_GUID (tbtd_key t). got_name e PID_TOPIC_NAME (tbtd_name t).
  got_name e PID_TYPE_NAME (tbtd_type_name t). got_qos e (TopicBuiltinTopicData_qos t).
  cbn [mbind pl_bind mret pl_ret]. by destruct t.
Qed.

(** ** Participants *)

Definition spdp_wire_ok (d : SpdpDiscoveredParticipantData) : Prop :=
  version_ok (spdp_protocol_version d) /\ vendor_ok (spdp_vendor_id d) /\ guid_wire_ok (spdp_participant_guid d) /\
  Forall Locator_ok (spdp_metatraffic_unicast_locators d) /\ Forall Locator_ok (spdp_metatraffic_multicast_locators d) /\
  Forall Locator_ok (spdp_default_unicast_locators d) /\ Forall Locator_ok (spdp_default_multicast_locators d) /\
  in_u 32 (spdp_available_builtin_endpoints d) /\ option_ok Duration_ok (spdp_lease_duration d) /\
  in_s 32 (spdp_manual_liveliness_count d) /\ option_ok (in_u 32) (spdp_builtin_endpoint_qos d) /\
  option_ok name_ok (spdp_entity_name d).

Definition participant_parameters e (d : SpdpDiscoveredParticipantData) : list RtpsParameter :=
  emit PID_PROTOCOL_VERSION (ProtocolVersion_write e (spdp_protocol_version d))
  ++ emit PID_VENDOR_ID (VendorId_write e (spdp_vendor_id d))
  ++ emit PID_EXPECTS_INLINE_QOS (sp_write_bool e (spdp_expects_inline_qos d))
  ++ emit PID_PARTICIPANT_GUID (GUID_write e (spdp_participant_guid d))
  ++ emit_all PID_METATRAFFIC_UNICAST_LOCATOR (Locator_write e) (spdp_metatraffic_unicast_locators d)
  ++ emit_all PID_METATRAFFIC_MULTICAST_LOCATOR (Locator_write e) (spdp_metatraffic_multicast_locators d)
  ++ emit_all PID_DEFAULT_UNICAST_LOCATOR (Locator_write e) (spdp_default_unicast_locators d)
  ++ emit_all PID_DEFAULT_MULTICAST_LOCATOR (Locator_write e) (spdp_default_multicast_locators d)
  ++ emit PID_BUILTIN_ENDPOINT_SET (write_u32 e (spdp_available_builtin_endpoints d))
  ++ emit_option PID_PARTICIPANT_LEASE_DURATION (Duration_write e) (spdp_lease_duration d)
  ++ emit PID_PARTICIPANT_MANUAL_LIVELINESS_COUNT (write_i32 e (spdp_manual_liveliness_count d))
  ++ emit_option PID_BUILTIN_ENDPOINT_QOS (write_u32 e) (spdp_builtin_endpoint_qos d)
  ++ emit_option PID_ENTITY_NAME (nul_bytes e) (spdp_entity_name d).
Hint Unfold participant_parameters : emissions.

Lemma participant_parameters_ok e d : spdp_wire_ok d -> Forall Parameter_ok (participant_parameters e d).
Proof.
  intros (_ & _ & Hg & H1 & H2 & H3 & H4 & _ & _ & _ & _ & Hn).
  assert (forall z, Z.of_nat (length (sp_write 4 e z)) = 4) as H4b by (intros; by rewrite sp_length).
  emissions_ok; try by apply Forall_locators.
  - unfold ProtocolVersion_write, write_u8. by rewrite length_app, !sp_length.
  - unfold VendorId_write, write_u8. by rewrite length_app, !sp_length.
  - by rewrite sp_bool_length.
  - by apply length_guid.
  - apply length_u32.
  - intros x _. unfold Duration_write, write_i32, write_u32. rewrite length_app, Nat2Z.inj_add, !H4b. lia.
  - unfold write_i32. rewrite H4b. lia.
  - intros x _. apply length_u32.
  - intros x ?. apply length_name. auto.
Qed.

(** The description with the time of its reception. *)
Definition spdp_at (now : Z) (d : SpdpDiscoveredParticipantData) : SpdpDiscoveredParticipantData :=
  mkSPDP now (spdp_protocol_version d) (spdp_vendor_id d) (spdp_expects_inline_qos d) (spdp_participant_guid d)
    (spdp_metatraffic_unicast_locators d) (spdp_metatraffic_multicast_locators d)
    (spdp_default_unicast_locators d) (spdp_default_multicast_locators d)
    (spdp_available_builtin_endpoints d) (spdp_lease_duration d) (spdp_manual_liveliness_count d)
    (spdp_builtin_endpoint_qos d) (spdp_entity_name d).

Lemma participant_parameters_read now e d encoding :
  pl_cdr_rep_id_to_speedy encoding = Some e -> spdp_wire_ok d ->
  SpdpDiscoveredParticipantData_from_pl_cdr_bytes now (ParameterList_write e (mkPL (participant_parameters e d))) encoding
  = mret (spdp_at now d).
Proof.
  intros He Hok. unfold SpdpDiscoveredParticipantData_from_pl_cdr_bytes.
  rewrite (parse_written _ e) by auto using participant_parameters_ok. cbn [mbind pl_bind mret pl_ret].
  destruct Hok as (Hv & Hvd & Hg & H1 & H2 & H3 & H4 & Hb & Hl & Hm & Hq & Hn).
  rewrite (get_first_emitted e _ PID_PROTOCOL_VERSION (ProtocolVersion_write e (spdp_protocol_version d)) _ (spdp_protocol_version d));
    [|at_segments|intros; by apply read_write_version].
  rewrite (get_first_emitted e _ PID_VENDOR_ID (VendorId_write e (spdp_vendor_id d)) _ (spdp_vendor_id d));
    [|at_segments|intros; by apply read_write_vendor].
  got_bool e PID_EXPECTS_INLINE_QOS (spdp_expects_inline_qos d). got_guid e PID_PARTICIPANT_GUID (spdp_participant_guid d).
  got_locators e PID_METATRAFFIC_UNICAST_LOCATOR (spdp_metatraffic_unicast_locators d).
  got_locators e PID_METATRAFFIC_MULTICAST_LOCATOR (spdp_metatraffic_multicast_locators d).
  got_locators e PID_DEFAULT_UNICAST_LOCATOR (spdp_default_unicast_locators d).
  got_locators e PID_DEFAULT_MULTICAST_LOCATOR (spdp_default_multicast_locators d).
  rewrite (get_opt_emitted e _ PID_PARTICIPANT_LEASE_DURATION (Duration_write e) _ (spdp_lease_duration d));
    [|at_segments|intros; apply Duration_roundtrip; auto].
  rewrite (get_opt_emitted e _ PID_PARTICIPANT_MANUAL_LIVELINESS_COUNT (write_i32 e) _ (Some (spdp_manual_liveliness_count d)));
    [|at_segments|intros ? ? [= <-]; by apply read_write_i32].
  rewrite (get_first_emitted e _ PID_BUILTIN_ENDPOINT_SET (write_u32 e (spdp_available_builtin_endpoints d)) _ (spdp_available_builtin_endpoints d));
    [|at_segments|intros; by apply read_write_u32].
  rewrite (get_opt_emitted e _ PID_BUILTIN_ENDPOINT_QOS (write_u32 e) _ (spdp_builtin_endpoint_qos d));
    [|at_segments|intros; apply read_write_u32; auto].
  rewrite (get_opt_emitted e _ PID_ENTITY_NAME (nul_bytes e) _ (spdp_entity_name d));
    [|at_segments|intros; apply name_roundtrip; auto].
  done.
Qed.

Lemma serialize_written {D} (f : Endianness -> D -> outcome (list RtpsParameter)) d encoding e l :
  pl_cdr_rep_id_to_speedy encoding = Some e -> f e d = Ret l ->
  serialize_with f d encoding = Ret (Some (ParameterList_write e (mkPL l))).
Proof. intros He Hf. unfold serialize_with. by rewrite He, Hf. Qed.

(** C35: in each of the four encodings, the announcement of a reader or of a
    writer is read back as the same description.  The key of the description is
    then the GUID of the endpoint, the time is that of the reception, and the
    parts about remote procedure calls are gone; a description as the
    constructors make it is read back unchanged. *)
Theorem announced_endpoints_learned encoding e now dr dw :
  pl_cdr_rep_id_to_speedy encoding = Some e -> drd_wire_ok dr -> dwd_wire_ok dw ->
  (exists bs, DiscoveredReaderData_to_pl_cdr_bytes dr encoding = Ret (Some bs) /\
     DiscoveredReaderData_from_pl_cdr_bytes bs encoding = mret (drd_received dr)) /\
  (exists bs, DiscoveredWriterData_to_pl_cdr_bytes dw encoding = Ret (Some bs) /\
     DiscoveredWriterData_from_pl_cdr_bytes now bs encoding = mret (dwd_received now dw)) /\
  (forall pk tn ty q,
     drd_subscription_topic_data dr = SubscriptionBuiltinTopicData_new (rpx_remote_reader_guid (drd_reader_proxy dr)) pk tn ty q ->
     drd_received dr = dr) /\
  (forall pk tn ty q,
     dwd_publication_topic_data dw = PublicationBuiltinTopicData_new_with_qos (wpx_remote_writer_guid (dwd_writer_proxy dw)) pk tn ty q ->
     dwd_received (dwd_last_updated dw) dw = dw).
Proof.
  intros He Hr Hw. split_and!.
  - eexists. split; [apply (serialize_written _ _ _ e), reader_parameters_written; done|].
    by apply reader_parameters_read.
  - eexists. split; [apply (serialize_written _ _ _ e), writer_parameters_written; done|].
    by apply writer_parameters_read.
  - intros pk tn ty q Hs. unfold drd_received. rewrite Hs. destruct dr; simpl in *. by rewrite Hs.
  - intros pk tn ty q Hs. unfold dwd_received. rewrite Hs. destruct dw; simpl in *. by rewrite Hs.
Qed.

(** In each of the four encodings, the announcement of a participant and that
    of a topic are read back as the same description, with the time of the
    reception. *)
Theorem announced_participant_learned encoding e now d t :
  pl_cdr_rep_id_to_speedy encoding = Some e -> spdp_wire_ok d -> dtd_wire_ok t ->
  (exists bs, SpdpDiscoveredParticipantData_to_pl_cdr_bytes d encoding = Ret (Some bs) /\
     SpdpDiscoveredParticipantData_from_pl_cdr_bytes now bs encoding = mret (spdp_at now d)) /\
  (exists bs, DiscoveredTopicData_to_pl_cdr_bytes t encoding = Ret (Some bs) /\
     DiscoveredTopicData_from_pl_cdr_bytes now bs encoding = mret (mkDTD now (dtd_topic_data t))).
Proof.
  intros He Hd Ht. split.
  - eexists. split.
    + apply (serialize_written _ _ _ e (participant_parameters e d)); [done|].
      unfold SpdpDiscoveredParticipantData_to_parameter_list.
      rewrite (emit_option_m_ok _ _ (nul_bytes e)); [done|].
      intros x Hx. apply StringWithNul_write_ok, name_len. by apply Hd.
    + by apply participant_parameters_read.
  - eexists. split.
    + apply (serialize_written _ _ _ e (topic_parameters e t)); [done|]. destruct Ht as (_ & Hn & Hty & _).
      unfold DiscoveredTopicData_to_parameter_list. by rewrite !StringWithNul_write_ok by by apply name_len.
    + by apply topic_parameters_read.
Qed.
End roundtrips.

(** ** Announcements from the network *)

Section total.
Context `{SP : Speedy, !SpeedyLaws SP, SS : SpeedyString}.

Definition pl_total {A} (m : pl_result A) : Prop := exists r, m = Ret r.

Lemma total_bind {A B} (m : pl_result A) (f : A -> pl_result B) :
  pl_total m -> (forall a, pl_total (f a)) -> pl_total (m ≫= f).
Proof. intros [[a|err] ->] Hf; [apply Hf|by eexists]. Qed.

Lemma total_ret {A} (a : A) : pl_total (mret a).
Proof. by eexists. Qed.

Lemma total_option {A} err (o : option A) : pl_total (pl_option err o).
Proof. destruct o; by eexists. Qed.

Lemma total_first {D} m (r : reader D) pid : pl_total (get_first_from_pl_map m r pid).
Proof. unfold get_first_from_pl_map. destruct (m !! pid ≫= head); [apply total_option|by eexists]. Qed.

Lemma total_locators m e pid : pl_total (get_locators_from_pl_map m e pid).
Proof.
  unfold get_locators_from_pl_map, get_all_from_pl_map.
  destruct (mapM _ (default [] (m !! pid))) as [ls|] eqn:E; [|by eexists].
  apply mapM_Some in E. cbn [pl_option mbind pl_bind mret pl_ret].
  destruct (outcome_all_ret ls) as [xs ->]; [|by eexists].
  induction E as [|p o ps ls Hp _ IH]; constructor; [|done].
  unfold read_from_buffer in Hp. destruct (Locator_read e (value p)) as [[o' rest]|] eqn:Er; [|done].
  injection Hp as <-. by apply Locator_read_ret in Er.
Qed.
End total.

Create HintDb pl_total.
#[export] Hint Resolve total_ret total_option total_first total_locators : pl_total.

(** Every step of a deserializer returns. *)
Ltac solve_total :=
  repeat (apply total_bind; [unfold get_opt_from_pl_map; auto with pl_total|intros]); auto with pl_total.

(** The four encodings of announcements and their byte orders. *)
Definition announcement_encoding (encoding : RepresentationIdentifier) (e : Endianness) : Prop :=
  match e with
  | LittleEndian => encoding = RepId_PL_CDR_LE \/ encoding = RepId_CDR_LE
  | BigEndian => encoding = RepId_PL_CDR_BE \/ encoding = RepId_CDR_BE
  end.

Lemma announcement_encoding_read encoding e : pl_cdr_rep_id_to_speedy encoding = Some e <-> announcement_encoding encoding e.
Proof.
  unfold pl_cdr_rep_id_to_speedy. split.
  - repeat case_decide; intros [= <-]; simpl; auto.
  - destruct e; simpl; intros [->| ->]; reflexivity.
Qed.

(** All four kinds of announcements are refused with the same error. *)
Definition announcements_refused `{SP : Speedy, SS : SpeedyString} (now : Z) (bs : bytes)
    (encoding : RepresentationIdentifier) (err : PlCdrDeserializeError) : Prop :=
  SpdpDiscoveredParticipantData_from_pl_cdr_bytes now bs encoding = pl_err err /\
  DiscoveredReaderData_from_pl_cdr_bytes bs encoding = pl_err err /\
  DiscoveredWriterData_from_pl_cdr_bytes now bs encoding = pl_err err /\
  DiscoveredTopicData_from_pl_cdr_bytes now bs encoding = pl_err err.

Lemma parse_error_refused `{SP : Speedy, SS : SpeedyString} now bs encoding err :
  parse_pl_cdr bs encoding = pl_err err -> announcements_refused now bs encoding err.
Proof.
  intros Herr. unfold announcements_refused, SpdpDiscoveredParticipantData_from_pl_cdr_bytes,
    DiscoveredReaderData_from_pl_cdr_bytes, DiscoveredWriterData_from_pl_cdr_bytes, DiscoveredTopicData_from_pl_cdr_bytes.
  by rewrite Herr.
Qed.

(** C37: whatever bytes arrive as the announcement of a participant, a reader, a
    writer or a topic, the loop that reads their parameters ends: in one of the
    four encodings, it has the same result with any fuel beyond the number of
    bytes, never running out of it. Either the bytes start with a parameter list
    ([parameter_list_at], a grammar without fuel), the result is that list, and each
    of the four deserializers returns a description or an error, without a panic;
    or they do not, and all four return the reading error. In another encoding all
    four return the error for an unsupported encoding. *)
Theorem announcements_read_total `{SP : Speedy, !SpeedyLaws SP, SS : SpeedyString} now bs encoding :
  (forall e, announcement_encoding encoding e ->
     exists r, (forall fuel, (length bs < fuel)%nat -> ParameterList_read_loop fuel e bs = Ret r) /\
       ((exists ps rest, r = Some (ps, rest) /\ parameter_list_at e bs ps rest /\
           (exists p, SpdpDiscoveredParticipantData_from_pl_cdr_bytes now bs encoding = Ret p) /\
           (exists d, DiscoveredReaderData_from_pl_cdr_bytes bs encoding = Ret d) /\
           (exists d, DiscoveredWriterData_from_pl_cdr_bytes now bs encoding = Ret d) /\
           (exists d, DiscoveredTopicData_from_pl_cdr_bytes now bs encoding = Ret d)) \/
        (r = None /\ (forall ps rest, ~ parameter_list_at e bs ps rest) /\
           announcements_refused now bs encoding PlSpeedy))) /\
  ((forall e, ~ announcement_encoding encoding e) -> announcements_refused now bs encoding PlNotSupported).
Proof.
  assert (pl_total (parse_pl_cdr bs encoding)) as Hp by (unfold parse_pl_cdr; solve_total).
  split.
  - intros e He%announcement_encoding_read. destruct (ParameterList_read_loop_ends e bs) as (r & Hr & Hdec).
    exists r. split; [exact Hr|]. destruct r as [[ps rest]|].
    + left. exists ps, rest. split; [done|]. split; [by apply Hdec|]. split_and!; (apply total_bind; [done|]; intros [ctx m]; solve_total).
    + right. split; [done|]. split; [intros ps rest H%Hdec; done|]. apply parse_error_refused.
      unfold parse_pl_cdr, read_from_buffer, ParameterList_read.
      change (pl_cdr_rep_id_to_speedy_d encoding) with (pl_cdr_rep_id_to_speedy encoding).
      rewrite He. cbn [pl_option mbind pl_bind mret pl_ret]. by rewrite (Hr (S (length bs))) by lia.
  - intros He. apply parse_error_refused. unfold parse_pl_cdr.
    change (pl_cdr_rep_id_to_speedy_d encoding) with (pl_cdr_rep_id_to_speedy encoding).
    destruct (pl_cdr_rep_id_to_speedy encoding) as [e|] eqn:E; [|done]. by apply announcement_encoding_read, He in E.
Qed.

(** ** The usual encoding *)

#[export] Instance std_speedy_string_laws : SpeedyStringLaws std_speedy std_speedy_string.
Proof.
  split. intros e s rest Hu Hl. unfold sp_read_string, std_speedy_string, mbind, reader_bind. rewrite read_write_u32 by done.
  unfold string_len. rewrite Nat2Z.id, read_bytes_app by done. rewrite Hu. by rewrite bytes_string_of_string.
Qed.

Definition demo_guid (k : Z) : GUID := mkGUID (mkPrefix (replicate 12 7)) (mkEntityId (0, 0, 1) k).
Definition demo_locator : Locator := Locator_UdpV4 (mkV4 (192, 168, 1, 7) 7411).
Definition demo_drd : DiscoveredReaderData :=
  mkDRD (mkReaderProxy (demo_guid READER_WITH_KEY_USER_DEFINED) true [demo_locator] [])
    (SubscriptionBuiltinTopicData_new (demo_guid READER_WITH_KEY_USER_DEFINED) None "Square" "ShapeType" qos_none)
    (Some (mkContentFilter "SmallSquare" "Square" "DDSSQL" "x < %0" ["20"])).
Definition demo_dwd : DiscoveredWriterData :=
  mkDWD 5 (mkWriterProxy (demo_guid WRITER_WITH_KEY_USER_DEFINED) [demo_locator] [] (Some 100))
    (PublicationBuiltinTopicData_new_with_qos (demo_guid WRITER_WITH_KEY_USER_DEFINED) None "Square" "ShapeType" qos_none).

Lemma demo_guid_ok k : in_u 8 k -> guid_wire_ok (demo_guid k).
Proof.
  intros Hk. split; [split; [done|]|]; cbn.
  - repeat constructor; cbv; discriminate || done.
  - split_and!; try done; cbv; split; discriminate || done.
Qed.

Lemma demo_name_ok s : utf8_valid (string_bytes s) = true -> (string_len s <=? 65527) = true -> name_ok s.
Proof. intros Hu Hl. split; [done|]. by apply Z.leb_le. Qed.

Lemma qos_none_ok : qos_ok qos_none.
Proof. unfold qos_ok, qos_durations_ok. split_and!; simpl; intros; discriminate. Qed.

Lemma demo_locator_ok : Forall Locator_ok [demo_locator].
Proof. repeat constructor; cbv; discriminate || done. Qed.

Lemma demo_drd_ok : drd_wire_ok demo_drd.
Proof.
  assert (option_ok guid_wire_ok None) as Hn by done. assert (option_ok name_ok None) as Hn' by done.
  split_and!; try done; try apply demo_locator_ok; try apply qos_none_ok; try (by apply demo_guid_ok); try (by apply demo_name_ok).
  intros c [= <-]. split; [repeat constructor; by vm_compute|]. intros []; by vm_compute.
Qed.

Lemma demo_dwd_ok : dwd_wire_ok demo_dwd.
Proof.
  assert (option_ok guid_wire_ok None) as Hn by done. assert (option_ok name_ok None) as Hn' by done.
  split_and!; try done; try apply demo_locator_ok; try apply qos_none_ok; try (by apply demo_guid_ok); try (by apply demo_name_ok).
  intros x [= <-]. done.
Qed.

Lemma announced_endpoints_learned_witness :
  exists bs, DiscoveredReaderData_to_pl_cdr_bytes demo_drd RepId_PL_CDR_LE = Ret (Some bs) /\
    DiscoveredReaderData_from_pl_cdr_bytes bs RepId_PL_CDR_LE = mret demo_drd.
Proof.
  destruct (announced_endpoints_learned RepId_PL_CDR_LE LittleEndian 0 demo_drd demo_dwd eq_refl demo_drd_ok demo_dwd_ok)
    as [(bs & Hto & Hfrom) _].
  exists bs. split; [exact Hto|exact Hfrom].
Defined.

Definition demo_spdp : SpdpDiscoveredParticipantData :=
  mkSPDP 3 (mkVersion 2 3) VendorId_THIS_IMPLEMENTATION false (demo_guid PARTICIPANT_BUILT_IN)
    [demo_locator] [] [demo_locator] [] 63 (Some (Duration_from_secs 10)) 0 None (Some "talker").
Definition demo_dtd : DiscoveredTopicData := mkDTD 3 (TopicBuiltinTopicData_new None "Square" "ShapeType" qos_none).

Lemma announced_participant_learned_witness :
  exists bs, SpdpDiscoveredParticipantData_to_pl_cdr_bytes demo_spdp RepId_PL_CDR_BE = Ret (Some bs) /\
    SpdpDiscoveredParticipantData_from_pl_cdr_bytes 3 bs RepId_PL_CDR_BE = mret demo_spdp.
Proof.
  destruct (announced_participant_learned RepId_PL_CDR_BE BigEndian 3 demo_spdp demo_dtd) as [(bs & Hto & Hfrom) _].
  - done.
  - assert (option_ok (in_u 32) None) as Hn by done. split_and!; try done; try apply demo_locator_ok; try (by apply demo_guid_ok).
    all: intros x [= <-]; done || by apply demo_name_ok.
  - split_and!; [done|by apply demo_name_ok|by apply demo_name_ok|apply qos_none_ok].
  - exists bs. split; [exact Hto|exact Hfrom].
Defined.

(** Two bytes are too short for a parameter list, and 17 is no encoding. *)
Lemma announcements_read_total_witness :
  announcements_refused 3 [1; 2] RepId_PL_CDR_LE PlSpeedy /\ announcements_refused 3 [1; 2] (mkRepId (17, 17)) PlNotSupported.
Proof.
  split.
  - destruct (announcements_read_total 3 [1; 2] RepId_PL_CDR_LE) as [H _].
    destruct (H LittleEndian (or_introl eq_refl)) as (r & Hr & [(ps & rest & -> & _)|(_ & _ & Hx)]); [|exact Hx].
    specialize (Hr 3%nat ltac:(simpl; lia)). vm_compute in Hr. discriminate Hr.
  - apply (announcements_read_total 3 [1; 2] (mkRepId (17, 17))). intros [] [H|H]; discriminate H.
Defined.
