(* ===== verification/DiscoveryDB.v ===== *)
(** * The discovery database

    [src/discovery/discovery_db.rs]: the participants, readers, writers and
    topics that discovery knows, the "attic" that keeps the endpoints of a
    participant lost by time-out, and the cleaning that follows leases.
    Operations that send status events or wake up waiters are handlers, the
    others functions on the state.  The clock is an argument. *)

From S2P Require Import Prelude BTree SequenceNumbers Time Guid Locator Headers WriterProxy Qos StatusEvents ReaderProxy DiscoveryData.

Definition DEFAULT_PARTICIPANT_LEASE_DURATION : Duration := Duration_from_secs 60.
Definition PARTICIPANT_LEASE_DURATION_TOLERANCE : Duration := Duration_from_secs 0.

Inductive DiscoveredVia := ViaTopic | ViaPublication | ViaSubscription | ViaSelfDefined.
#[export] Instance DiscoveredVia_eq_dec : EqDecision DiscoveredVia.
Proof. solve_decision. Defined.

Record DiscoveryDB := mkDB {
  db_my_guid : GUID;
  participant_proxies : gmap GuidPrefix SpdpDiscoveredParticipantData;
  participant_last_life_signs : gmap GuidPrefix Z;
  local_topic_writers : gmap GUID DiscoveredWriterData;
  local_topic_readers : gmap GUID DiscoveredReaderData;
  external_topic_readers : gmap GUID DiscoveredReaderData;
  external_topic_writers : gmap GUID DiscoveredWriterData;
  external_topic_readers_attic : gmap GUID DiscoveredReaderData;
  external_topic_writers_attic : gmap GUID DiscoveredWriterData;
  topics : gmap string (gmap GUID (DiscoveredVia * DiscoveredTopicData));
}.

(** What leaves the database: a status event for the application, and the
    wake-up of those who wait in [find_topic]. *)
Inductive DbEvent :=
| DbStatus (ev : DomainParticipantStatusEvent)
| DbTopicUpdated.

Section setters.
Implicit Types db : DiscoveryDB.

Definition db_set_participants db pp ll : DiscoveryDB :=
  mkDB (db_my_guid db) pp ll (local_topic_writers db) (local_topic_readers db) (external_topic_readers db)
    (external_topic_writers db) (external_topic_readers_attic db) (external_topic_writers_attic db) (topics db).
Definition db_set_local db lw lr : DiscoveryDB :=
  mkDB (db_my_guid db) (participant_proxies db) (participant_last_life_signs db) lw lr (external_topic_readers db)
    (external_topic_writers db) (external_topic_readers_attic db) (external_topic_writers_attic db) (topics db).
Definition db_set_readers db er ra : DiscoveryDB :=
  mkDB (db_my_guid db) (participant_proxies db) (participant_last_life_signs db) (local_topic_writers db)
    (local_topic_readers db) er (external_topic_writers db) ra (external_topic_writers_attic db) (topics db).
Definition db_set_writers db ew wa : DiscoveryDB :=
  mkDB (db_my_guid db) (participant_proxies db) (participant_last_life_signs db) (local_topic_writers db)
    (local_topic_readers db) (external_topic_readers db) ew (external_topic_readers_attic db) wa (topics db).
Definition db_set_topics db ts : DiscoveryDB :=
  mkDB (db_my_guid db) (participant_proxies db) (participant_last_life_signs db) (local_topic_writers db)
    (local_topic_readers db) (external_topic_readers db) (external_topic_writers db)
    (external_topic_readers_attic db) (external_topic_writers_attic db) ts.
End setters.

Definition DiscoveryDB_new (my_guid : GUID) : DiscoveryDB := mkDB my_guid ∅ ∅ ∅ ∅ ∅ ∅ ∅ ∅ ∅.

(** [m.range(prefix.range())], its keys *)
Definition keys_in_range {D} (p : GuidPrefix) (m : gmap GUID D) : list GUID :=
  filter (in_range (GuidPrefix_range p)) (bt_keys m).

Definition move_by_guid_prefix {D} (guid_prefix : GuidPrefix) (from to : gmap GUID D)
  : gmap GUID D * gmap GUID D :=
  foldl (fun '(from, to) guid =>
           match from !! guid with
           | Some d => (delete guid from, <[guid := d]> to)
           | None => (from, to)
           end)
    (from, to) (keys_in_range guid_prefix from).

(** ** Participants *)

Definition find_participant_proxy (db : DiscoveryDB) (guid_prefix : GuidPrefix)
  : option SpdpDiscoveredParticipantData :=
  participant_proxies db !! guid_prefix.

Definition update_participant (now : Z) (data : SpdpDiscoveredParticipantData) (db : DiscoveryDB)
  : bool * DiscoveryDB :=
  let guid := spdp_participant_guid data in
  if bool_decide (entity_id guid <> EntityId_PARTICIPANT) then (false, db)
  else
    let '(new_participant, db) :=
      match participant_proxies db !! prefix guid with
      | Some _ => (false, db)
      | None =>
          let '(ra, er) := move_by_guid_prefix (prefix guid) (external_topic_readers_attic db) (external_topic_readers db) in
          let '(wa, ew) := move_by_guid_prefix (prefix guid) (external_topic_writers_attic db) (external_topic_writers db) in
          (bool_decide (guid <> db_my_guid db), db_set_writers (db_set_readers db er ra) ew wa)
      end in
    (new_participant,
     db_set_participants db (<[prefix guid := data]> (participant_proxies db))
       (<[prefix guid := now]> (participant_last_life_signs db))).

Definition participant_is_alive (now : Z) (guid_prefix : GuidPrefix) (db : DiscoveryDB) : DiscoveryDB :=
  match participant_last_life_signs db !! guid_prefix with
  | Some _ =>
      db_set_participants db (participant_proxies db) (<[guid_prefix := now]> (participant_last_life_signs db))
  | None => db
  end.

Definition remove_keys {D} (keys : list GUID) (m : gmap GUID D) : gmap GUID D :=
  foldl (fun m guid => delete guid m) m keys.

Definition remove_topic_reader_with_prefix (guid_prefix : GuidPrefix) (db : DiscoveryDB) : DiscoveryDB :=
  db_set_readers db
    (remove_keys (keys_in_range guid_prefix (external_topic_readers db)) (external_topic_readers db))
    (external_topic_readers_attic db).

Definition remove_topic_writer_with_prefix (guid_prefix : GuidPrefix) (db : DiscoveryDB) : DiscoveryDB :=
  db_set_writers db
    (remove_keys (keys_in_range guid_prefix (external_topic_writers db)) (external_topic_writers db))
    (external_topic_writers_attic db).

Definition remove_participant (guid_prefix : GuidPrefix) (active_disposal : bool) (db : DiscoveryDB) : DiscoveryDB :=
  let db := db_set_participants db (delete guid_prefix (participant_proxies db))
              (delete guid_prefix (participant_last_life_signs db)) in
  if active_disposal then
    remove_topic_writer_with_prefix guid_prefix (remove_topic_reader_with_prefix guid_prefix db)
  else
    let '(er, ra) := move_by_guid_prefix guid_prefix (external_topic_readers db) (external_topic_readers_attic db) in
    let '(ew, wa) := move_by_guid_prefix guid_prefix (external_topic_writers db) (external_topic_writers_attic db) in
    db_set_writers (db_set_readers db er ra) ew wa.

(** [Instant::duration_since] is zero when the clock seems to go back. *)
Definition instant_elapsed (now earlier : Z) : Duration :=
  let n := Z.max 0 (now - earlier) in
  Duration_from_std (n / 1000000000) (n mod 1000000000).

(** The participant's lease, and how long it has been silent, if that is too
    long; a participant without a life sign is reported and kept. *)
Definition lease_expired (db : DiscoveryDB) (now : Z) (guid : GuidPrefix) (sp : SpdpDiscoveredParticipantData)
  : option LostReason :=
  let lease_duration := default DEFAULT_PARTICIPANT_LEASE_DURATION (spdp_lease_duration sp) in
  match participant_last_life_signs db !! guid with
  | Some last_life =>
      let elapsed := instant_elapsed now last_life in
      if bool_decide (kle elapsed (Duration_add lease_duration PARTICIPANT_LEASE_DURATION_TOLERANCE)) then None
      else Some (Timeout lease_duration elapsed)
  | None => None
  end.

Definition participant_cleanup (now : Z) (db : DiscoveryDB) : list (GuidPrefix * LostReason) * DiscoveryDB :=
  let to_remove :=
    omap (fun '(guid, sp) => (fun r => (guid, r)) <$> lease_expired db now guid sp) (bt_iter (participant_proxies db)) in
  (to_remove, foldl (fun db '(guid, _) => remove_participant guid false db) db to_remove).

(** ** Topics *)

Definition topic_has_writers_or_readers (db : DiscoveryDB) (topic_name : string) : bool :=
  let on_reader (p : DiscoveredReaderData) := bool_decide (sbtd_topic_name (drd_subscription_topic_data p) = topic_name) in
  let on_writer (p : DiscoveredWriterData) := bool_decide (pbtd_topic_name (dwd_publication_topic_data p) = topic_name) in
  if existsb on_reader (bt_values (local_topic_readers db)) then true
  else if existsb on_writer (bt_values (local_topic_writers db)) then true
  else if existsb on_reader (bt_values (external_topic_readers db)) then true
  else if existsb on_writer (bt_values (external_topic_writers db)) then true
  else false.

Definition topic_cleanup (db : DiscoveryDB) : DiscoveryDB :=
  let dead_topics := filter (fun tn => topic_has_writers_or_readers db tn = false) (bt_keys (topics db)) in
  db_set_topics db (foldl (fun ts dt => delete dt ts) (topics db) dead_topics).

Definition inconsistent_topic (old : DiscoveredTopicData) (old_source : GUID) (new : DiscoveredTopicData)
    (new_source : GUID) : DomainParticipantStatusEvent :=
  InconsistentTopic (TopicData_from (dtd_topic_data old)) old_source (TopicData_from (dtd_topic_data new)) new_source.

(** The loop over the other sources of the topic: the last inconsistency found
    is the one reported. *)
Definition inconsistency_with (t : gmap GUID (DiscoveredVia * DiscoveredTopicData)) (dtd : DiscoveredTopicData)
    (updater : GUID) : option DomainParticipantStatusEvent :=
  foldl (fun acc '(source_guid, (_, existing)) =>
           if topics_inconsistent (dtd_topic_data existing) (dtd_topic_data dtd)
           then Some (inconsistent_topic existing source_guid dtd updater) else acc)
    None (bt_iter t).

Definition update_topic_data (dtd : DiscoveredTopicData) (updater : GUID) (discovered_via : DiscoveredVia)
  : act DiscoveryDB DbEvent unit :=
  db ← get_st;
  let topic_name := tbtd_name (dtd_topic_data dtd) in
  let put t := modify_st (fun db => db_set_topics db (<[topic_name := <[updater := (discovered_via, dtd)]> t]> (topics db))) in
  '(notify, inconsistency_event_to_send) ←
    match topics db !! topic_name with
    | Some t =>
        match t !! updater with
        | Some (_, old_dtd) =>
            if negb (topics_inconsistent (dtd_topic_data dtd) (dtd_topic_data old_dtd)) then
              if bool_decide (discovered_via = ViaTopic) then _ ← put t; mret (true, None)
              else mret (false, None)
            else mret (false, Some (inconsistent_topic old_dtd updater dtd updater))
        | None =>
            let inconsistency := inconsistency_with t dtd updater in
            _ ← put t; mret (true, inconsistency)
        end
    | None =>
        _ ← put ∅;
        _ ← emit_ev (DbStatus (TopicDetected topic_name (tbtd_type_name (dtd_topic_data dtd))));
        mret (false, None)
    end;
  _ ← match inconsistency_event_to_send with Some ev => emit_ev (DbStatus ev) | None => mret tt end;
  if (notify : bool) then emit_ev DbTopicUpdated else mret tt.

Definition update_topic_data_p (utc_now : Z) (topic : Topic) : act DiscoveryDB DbEvent unit :=
  db ← get_st;
  update_topic_data
    (mkDTD utc_now (TopicBuiltinTopicData_new None (t_name topic) (t_type_name topic) (t_qos topic)))
    (db_my_guid db) ViaSelfDefined.

(** ** Remote endpoints *)

Definition remove_topic_reader (guid : GUID) (db : DiscoveryDB) : DiscoveryDB :=
  db_set_readers db (delete guid (external_topic_readers db)) (external_topic_readers_attic db).

Definition remove_topic_writer (guid : GUID) (db : DiscoveryDB) : DiscoveryDB :=
  db_set_writers db (delete guid (external_topic_writers db)) (external_topic_writers_attic db).

Definition default_locator_lists (db : DiscoveryDB) (p : GuidPrefix) : list Locator * list Locator :=
  match find_participant_proxy db p with
  | Some pp => (spdp_default_unicast_locators pp, spdp_default_multicast_locators pp)
  | None => ([], [])
  end.

Definition update_subscription (utc_now : Z) (data : DiscoveredReaderData)
  : act DiscoveryDB DbEvent DiscoveredReaderData :=
  let guid := rpx_remote_reader_guid (drd_reader_proxy data) in
  _ ← modify_st (fun db => db_set_readers db (<[guid := data]> (external_topic_readers db)) (external_topic_readers_attic db));
  db ← get_st;
  let '(uni, multi) := default_locator_lists db (prefix guid) in
  let dtd := SubscriptionBuiltinTopicData_to_topic_data (drd_subscription_topic_data data) in
  _ ← update_topic_data (mkDTD utc_now dtd) guid ViaSubscription;
  mret (mkDRD (ReaderProxy_from (RtpsReaderProxy_from_discovered_reader_data (drd_proxy data) uni multi))
          (drd_subscription_topic_data data) (drd_content_filter data)).

Definition update_publication (utc_now : Z) (data : DiscoveredWriterData)
  : act DiscoveryDB DbEvent DiscoveredWriterData :=
  let guid := wpx_remote_writer_guid (dwd_writer_proxy data) in
  _ ← modify_st (fun db => db_set_writers db (<[guid := data]> (external_topic_writers db)) (external_topic_writers_attic db));
  db ← get_st;
  let '(uni, multi) := default_locator_lists db (prefix guid) in
  let dtd := PublicationBuiltinTopicData_to_topic_data (dwd_publication_topic_data data) in
  _ ← update_topic_data (mkDTD utc_now dtd) guid ViaPublication;
  mret (mkDWD (dwd_last_updated data)
          (WriterProxy_from (WriterProxy_from_discovered_writer_data (dwd_proxy data) uni multi))
          (dwd_publication_topic_data data)).

(** A liveliness message of a participant: its writers are up to date. *)
Definition update_lease_duration (now : Z) (p : GuidPrefix) (db : DiscoveryDB) : DiscoveryDB :=
  db_set_writers db
    (map_imap (fun g d => Some (if decide (in_range (GuidPrefix_range p) g)
                                then mkDWD now (dwd_writer_proxy d) (dwd_publication_topic_data d) else d))
       (external_topic_writers db))
    (external_topic_writers_attic db).

(** ** Local endpoints *)

Definition update_local_topic_writer (writer : DiscoveredWriterData) (db : DiscoveryDB) : DiscoveryDB :=
  db_set_local db (<[wpx_remote_writer_guid (dwd_writer_proxy writer) := writer]> (local_topic_writers db))
    (local_topic_readers db).

Definition remove_local_topic_writer (guid : GUID) (db : DiscoveryDB) : DiscoveryDB :=
  db_set_local db (delete guid (local_topic_writers db)) (local_topic_readers db).

Definition update_local_topic_reader (dp : DomainParticipant) (topic : Topic) (reader_guid : GUID)
    (reader_qos : QosPolicies) (db : DiscoveryDB) : DiscoveryDB :=
  let data :=
    mkDRD (ReaderProxy_from (RtpsReaderProxy_from_reader reader_guid reader_qos dp))
      (SubscriptionBuiltinTopicData_new reader_guid (Some (dp_guid dp)) (t_name topic) (t_type_name topic) (t_qos topic))
      None in
  db_set_local db (local_topic_writers db) (<[reader_guid := data]> (local_topic_readers db)).

Definition remove_local_topic_reader (guid : GUID) (db : DiscoveryDB) : DiscoveryDB :=
  db_set_local db (local_topic_writers db) (delete guid (local_topic_readers db)).

(** ** Queries *)

Definition get_local_topic_reader (db : DiscoveryDB) (guid : GUID) : option DiscoveredReaderData :=
  local_topic_readers db !! guid.
Definition get_local_topic_writer (db : DiscoveryDB) (guid : GUID) : option DiscoveredWriterData :=
  local_topic_writers db !! guid.
Definition get_all_local_topic_readers (db : DiscoveryDB) : list DiscoveredReaderData := bt_values (local_topic_readers db).
Definition get_all_local_topic_writers (db : DiscoveryDB) : list DiscoveredWriterData := bt_values (local_topic_writers db).

Definition all_user_topics (db : DiscoveryDB) : list DiscoveredTopicData :=
  '(_, gm) ← filter (fun st => String.prefix "DCPS" st.1 = false) (bt_iter (topics db));
  (fun dtd => dtd.2.2) <$> bt_iter gm.

Definition get_topic (db : DiscoveryDB) (topic_name : string) : option DiscoveredTopicData :=
  m ← topics db !! topic_name;
  snd <$> head (bt_values m).

Definition writers_on_topic_and_participant (db : DiscoveryDB) (topic_name : string) (participant : GuidPrefix)
  : list DiscoveredWriterData :=
  filter (fun dwd => pbtd_topic_name (dwd_publication_topic_data dwd) = topic_name)
    (snd <$> filter (fun gd => in_range (GuidPrefix_range participant) gd.1) (bt_iter (external_topic_writers db))).

Definition readers_on_topic_and_participant (db : DiscoveryDB) (topic_name : string) (participant : GuidPrefix)
  : list DiscoveredReaderData :=
  filter (fun drd => sbtd_topic_name (drd_subscription_topic_data drd) = topic_name)
    (snd <$> filter (fun gd => in_range (GuidPrefix_range participant) gd.1) (bt_iter (external_topic_readers db))).
