(* ===== verification/DiscoveryDBTheorems.v ===== *)
(** * Correctness of the discovery database

    The invariant of the database under every sequence of its operations, the
    life of a participant (discovery, silence, return, disposal), what the
    cleanings remove, and what an update tells the rest of the system. *)

From S2P Require Import Prelude BTree SequenceNumbers Time Guid Locator Headers WriterProxy Qos StatusEvents ReaderProxy DiscoveryData DiscoveryDB.

(** ** Moving and removing by prefix *)

Section by_prefix.
Context {D : Type}.
Implicit Types (m from to : gmap GUID D) (p : GuidPrefix) (g : GUID).

Definition keys_ok m : Prop := forall g, is_Some (m !! g) -> GUID_ok g.

Lemma elem_of_keys_in_range p m g :
  keys_ok m -> g ∈ keys_in_range p m <-> is_Some (m !! g) /\ prefix g = p.
Proof.
  intros Hok. unfold keys_in_range. rewrite list_elem_of_filter, elem_of_bt_keys. split.
  - intros [Hr Hs]. split; [done|]. apply in_prefix_range in Hr; auto.
  - intros [Hs Hp]. split; [|done]. apply in_prefix_range; auto.
Qed.

Lemma lookup_remove_keys ks m g : remove_keys ks m !! g = if decide (g ∈ ks) then None else m !! g.
Proof.
  unfold remove_keys. revert m. induction ks as [|k ks IH]; intros m; simpl; [done|].
  rewrite IH. destruct (decide (g = k)) as [->|Hne].
  - rewrite lookup_delete_eq. repeat case_decide; set_solver.
  - rewrite lookup_delete_ne by done. repeat case_decide; set_solver.
Qed.

Lemma lookup_remove_prefix p m g :
  keys_ok m -> remove_keys (keys_in_range p m) m !! g = if decide (prefix g = p) then None else m !! g.
Proof.
  intros Hok. rewrite lookup_remove_keys.
  destruct (decide (g ∈ keys_in_range p m)) as [Hin|Hin]; rewrite elem_of_keys_in_range in Hin by done.
  - by rewrite decide_True by tauto.
  - destruct (m !! g) eqn:E; case_decide; naive_solver.
Qed.

Lemma lookup_move p from to g :
  keys_ok from ->
  (move_by_guid_prefix p from to).1 !! g = (if decide (prefix g = p) then None else from !! g) /\
  (move_by_guid_prefix p from to).2 !! g = (if decide (prefix g = p) then from !! g ∪ to !! g else to !! g).
Proof.
  intros Hok. unfold move_by_guid_prefix.
  set (step := fun '(from, to) guid => _).
  assert (forall ks f t,
    (foldl step (f, t) ks).1 !! g = (if decide (g ∈ ks) then None else f !! g) /\
    (foldl step (f, t) ks).2 !! g = (if decide (g ∈ ks) then f !! g ∪ t !! g else t !! g)) as Hfold.
  { induction ks as [|k ks IH]; intros f t; simpl; [done|].
    destruct (f !! k) as [d|] eqn:E.
    - destruct (IH (delete k f) (<[k:=d]> t)) as [-> ->]. clear IH. destruct (decide (g = k)) as [->|Hne].
      + rewrite E, lookup_delete_eq, lookup_insert_eq, !(decide_True (P:=k ∈ k :: ks)) by set_solver.
        split; [by case_decide|]. case_decide; by destruct (t !! k).
      + rewrite lookup_delete_ne, lookup_insert_ne by done. repeat case_decide; set_solver.
    - destruct (IH f t) as [-> ->]. clear IH. destruct (decide (g = k)) as [->|Hne].
      + rewrite E, !(decide_True (P:=k ∈ k :: ks)) by set_solver. split; [by case_decide|]. case_decide; by destruct (t !! k).
      + repeat case_decide; set_solver. }
  destruct (Hfold (keys_in_range p from) from to) as [-> ->]. clear Hfold.
  destruct (decide (g ∈ keys_in_range p from)) as [Hin|Hin]; rewrite elem_of_keys_in_range in Hin by done.
  - by rewrite !decide_True by tauto.
  - destruct (from !! g) eqn:E; repeat case_decide; try naive_solver. by destruct (to !! g).
Qed.
End by_prefix.

(** ** Stores: the known endpoints of one kind and their attic *)

Section store.
Context {D : Type} (key : D -> GUID).
Implicit Types (act att m : gmap GUID D) (pp : gmap GuidPrefix SpdpDiscoveredParticipantData) (p : GuidPrefix) (g : GUID).

(** Every entry is filed under its own GUID. *)
Definition keyed m : Prop := forall g d, m !! g = Some d -> key d = g /\ GUID_ok g.

(** No participant that is known has an endpoint in the attic. *)
Definition store_ok pp act att : Prop :=
  keyed act /\ keyed att /\ forall g, is_Some (att !! g) -> pp !! prefix g = None.

Lemma keyed_keys_ok m : keyed m -> keys_ok m.
Proof. intros Hm g [d Hd]. exact (proj2 (Hm _ _ Hd)). Qed.

Lemma keyed_insert m g d : key d = g -> GUID_ok g -> keyed m -> keyed (<[g := d]> m).
Proof. intros <- Hok Hm g1 d1 Hl. apply lookup_insert_Some in Hl as [[<- <-]|[_ Hl]]; [done|by apply Hm]. Qed.

Lemma keyed_delete m g : keyed m -> keyed (delete g m).
Proof. intros Hm g' d [_ ?]%lookup_delete_Some. auto. Qed.

Lemma keyed_move p from to :
  keyed from -> keyed to ->
  keyed (move_by_guid_prefix p from to).1 /\ keyed (move_by_guid_prefix p from to).2.
Proof.
  intros Hf Ht. split; intros g d Hl; destruct (lookup_move p from to g (keyed_keys_ok _ Hf)) as [H1 H2].
  - rewrite H1 in Hl. case_decide; [done|auto].
  - rewrite H2 in Hl. case_decide; [|auto]. apply union_Some in Hl as [?|[_ ?]]; auto.
Qed.

Lemma store_pp_mono pp pp' act att :
  (forall p, pp !! p = None -> pp' !! p = None) -> store_ok pp act att -> store_ok pp' act att.
Proof. intros Hpp (Ha & Ht & Hd). split_and!; auto. Qed.

Lemma store_insert pp act att d : GUID_ok (key d) -> store_ok pp act att -> store_ok pp (<[key d := d]> act) att.
Proof. intros Hok (Ha & Ht & Hd). split_and!; auto using keyed_insert. Qed.

Lemma store_delete pp act att g : store_ok pp act att -> store_ok pp (delete g act) att.
Proof. intros (Ha & Ht & Hd). split_and!; auto using keyed_delete. Qed.

Lemma store_dispose pp act att p : store_ok pp act att -> store_ok (delete p pp) (remove_keys (keys_in_range p act) act) att.
Proof.
  intros (Ha & Ht & Hd). split_and!; [|done|intros g Hg; rewrite lookup_delete_None; auto].
  intros g d Hg. rewrite lookup_remove_prefix in Hg by auto using keyed_keys_ok. case_decide; [done|auto].
Qed.

Lemma store_timeout pp act att p :
  store_ok pp act att ->
  store_ok (delete p pp) (move_by_guid_prefix p act att).1 (move_by_guid_prefix p act att).2.
Proof.
  intros (Ha & Ht & Hd). destruct (keyed_move p _ _ Ha Ht) as [H1 H2]. split_and!; [done|done|].
  intros g Hg. rewrite (proj2 (lookup_move p act att g (keyed_keys_ok _ Ha))) in Hg.
  rewrite lookup_delete_None. case_decide; auto.
Qed.

Lemma store_return pp act att p x :
  store_ok pp act att ->
  store_ok (<[p := x]> pp) (move_by_guid_prefix p att act).2 (move_by_guid_prefix p att act).1.
Proof.
  intros (Ha & Ht & Hd). destruct (keyed_move p _ _ Ht Ha) as [H1 H2]. split_and!; [done|done|].
  intros g Hg. rewrite (proj1 (lookup_move p att act g (keyed_keys_ok _ Ht))) in Hg.
  case_decide; [by destruct Hg|]. rewrite lookup_insert_ne by done. auto.
Qed.

Lemma store_map pp act att (f : GUID -> D -> D) :
  (forall g d, key (f g d) = key d) ->
  store_ok pp act att -> store_ok pp (map_imap (fun g d => Some (f g d)) act) att.
Proof.
  intros Hf (Ha & Ht & Hd). split_and!; [|done|done].
  intros g d Hl. rewrite map_lookup_imap in Hl. destruct (act !! g) as [d'|] eqn:E; simplify_eq/=.
  rewrite Hf. auto.
Qed.
End store.

(** ** The invariant *)

Definition drd_guid (d : DiscoveredReaderData) : GUID := rpx_remote_reader_guid (drd_reader_proxy d).
Definition dwd_guid (d : DiscoveredWriterData) : GUID := wpx_remote_writer_guid (dwd_writer_proxy d).

Definition topics_ok (ts : gmap string (gmap GUID (DiscoveredVia * DiscoveredTopicData))) : Prop :=
  forall n t, ts !! n = Some t ->
    t <> ∅ /\ forall u v d, t !! u = Some (v, d) -> tbtd_name (dtd_topic_data d) = n.

Record db_inv (db : DiscoveryDB) : Prop := {
  inv_life : forall p, is_Some (participant_proxies db !! p) <-> is_Some (participant_last_life_signs db !! p);
  inv_participants : forall p d, participant_proxies db !! p = Some d ->
    spdp_participant_guid d = GUID_new p EntityId_PARTICIPANT;
  inv_readers : store_ok drd_guid (participant_proxies db) (external_topic_readers db) (external_topic_readers_attic db);
  inv_writers : store_ok dwd_guid (participant_proxies db) (external_topic_writers db) (external_topic_writers_attic db);
  inv_local_readers : keyed drd_guid (local_topic_readers db);
  inv_local_writers : keyed dwd_guid (local_topic_writers db);
  inv_topics : topics_ok (topics db);
}.

Lemma store_empty {D} (key : D -> GUID) pp : store_ok key pp ∅ ∅.
Proof.
  split; [|split]; intros g; [intros d; by rewrite lookup_empty..|]. rewrite lookup_empty. by intros [].
Qed.

Lemma DiscoveryDB_new_inv g : db_inv (DiscoveryDB_new g).
Proof.
  constructor; simpl; try exact (store_empty _ _).
  - intros p. by rewrite !lookup_empty.
  - intros p d. by rewrite lookup_empty.
  - intros x d. by rewrite lookup_empty.
  - intros x d. by rewrite lookup_empty.
  - intros n t. by rewrite lookup_empty.
Qed.

Lemma inv_set_readers db er ra :
  db_inv db -> store_ok drd_guid (participant_proxies db) er ra -> db_inv (db_set_readers db er ra).
Proof. intros [] Hs. by constructor. Qed.

Lemma inv_set_writers db ew wa :
  db_inv db -> store_ok dwd_guid (participant_proxies db) ew wa -> db_inv (db_set_writers db ew wa).
Proof. intros [] Hs. by constructor. Qed.

Lemma inv_set_topics db ts : db_inv db -> topics_ok ts -> db_inv (db_set_topics db ts).
Proof. intros [] Hs. by constructor. Qed.

Lemma inv_set_local db lw lr :
  db_inv db -> keyed dwd_guid lw -> keyed drd_guid lr -> db_inv (db_set_local db lw lr).
Proof. intros [] Hw Hr. by constructor. Qed.

(** The stores of the state after a participant was removed. *)
Lemma remove_participant_fields p active db :
  participant_proxies (remove_participant p active db) = delete p (participant_proxies db) /\
  participant_last_life_signs (remove_participant p active db) = delete p (participant_last_life_signs db) /\
  local_topic_readers (remove_participant p active db) = local_topic_readers db /\
  local_topic_writers (remove_participant p active db) = local_topic_writers db /\
  topics (remove_participant p active db) = topics db /\
  (external_topic_readers (remove_participant p active db), external_topic_readers_attic (remove_participant p active db)) =
    (if active then (remove_keys (keys_in_range p (external_topic_readers db)) (external_topic_readers db), external_topic_readers_attic db)
     else move_by_guid_prefix p (external_topic_readers db) (external_topic_readers_attic db)) /\
  (external_topic_writers (remove_participant p active db), external_topic_writers_attic (remove_participant p active db)) =
    (if active then (remove_keys (keys_in_range p (external_topic_writers db)) (external_topic_writers db), external_topic_writers_attic db)
     else move_by_guid_prefix p (external_topic_writers db) (external_topic_writers_attic db)).
Proof.
  unfold remove_participant. destruct active; [done|]. simpl.
  destruct (move_by_guid_prefix p (external_topic_readers db) _) as [er ra].
  by destruct (move_by_guid_prefix p (external_topic_writers db) _) as [ew wa].
Qed.

Lemma store_removed {D} (key : D -> GUID) (active : bool) pp act att p er ra :
  (er, ra) = (if active then (remove_keys (keys_in_range p act) act, att) else move_by_guid_prefix p act att) ->
  store_ok key pp act att -> store_ok key (delete p pp) er ra.
Proof.
  intros Heq Hs. destruct active; simplify_eq; [by apply store_dispose|].
  pose proof (store_timeout key pp act att p Hs) as Ht. by rewrite <- Heq in Ht.
Qed.

Lemma remove_participant_inv p active db : db_inv db -> db_inv (remove_participant p active db).
Proof.
  intros Hinv. destruct (remove_participant_fields p active db) as (Hpp & Hll & Hlr & Hlw & Ht & Hr & Hw).
  constructor; rewrite ?Hpp, ?Hll, ?Hlr, ?Hlw, ?Ht; try apply Hinv.
  - intros q. destruct (decide (q = p)) as [->|].
    + rewrite !lookup_delete_eq. split; by intros [].
    + rewrite !lookup_delete_ne by done. apply Hinv.
  - intros q d [_ Hd]%lookup_delete_Some. by apply (inv_participants _ Hinv).
  - eapply store_removed; [exact Hr|apply Hinv].
  - eapply store_removed; [exact Hw|apply Hinv].
Qed.

Lemma participant_cleanup_inv now db : db_inv db -> db_inv (participant_cleanup now db).2.
Proof.
  intros Hinv. unfold participant_cleanup; cbn [snd]. apply foldl_ind; [done|].
  intros db' [q r] _ Hdb'. by apply remove_participant_inv.
Qed.

(** The state after an announcement of a participant; anything but a
    participant's GUID is refused. *)
Lemma update_participant_fields now data db :
  let p := prefix (spdp_participant_guid data) in
  let db' := (update_participant now data db).2 in
  entity_id (spdp_participant_guid data) = EntityId_PARTICIPANT ->
  participant_proxies db' = <[p := data]> (participant_proxies db) /\
  participant_last_life_signs db' = <[p := now]> (participant_last_life_signs db) /\
  local_topic_readers db' = local_topic_readers db /\
  local_topic_writers db' = local_topic_writers db /\
  topics db' = topics db /\
  (external_topic_readers_attic db', external_topic_readers db') =
    match participant_proxies db !! p with
    | Some _ => (external_topic_readers_attic db, external_topic_readers db)
    | None => move_by_guid_prefix p (external_topic_readers_attic db) (external_topic_readers db)
    end /\
  (external_topic_writers_attic db', external_topic_writers db') =
    match participant_proxies db !! p with
    | Some _ => (external_topic_writers_attic db, external_topic_writers db)
    | None => move_by_guid_prefix p (external_topic_writers_attic db) (external_topic_writers db)
    end.
Proof.
  intros p db' He. unfold db', update_participant. rewrite bool_decide_false by auto. fold p.
  destruct (participant_proxies db !! p); [done|].
  destruct (move_by_guid_prefix p (external_topic_readers_attic db) _) as [ra er].
  by destruct (move_by_guid_prefix p (external_topic_writers_attic db) _) as [wa ew].
Qed.

Lemma store_updated {D} (key : D -> GUID) pp act att p x er ra :
  (ra, er) = match pp !! p with Some _ => (att, act) | None => move_by_guid_prefix p att act end ->
  store_ok key pp act att -> store_ok key (<[p := x]> pp) er ra.
Proof.
  intros Heq Hs. destruct (pp !! p) eqn:E; simplify_eq.
  - eapply store_pp_mono; [|done]. intros q Hq. rewrite lookup_insert_ne; [done|]. congruence.
  - pose proof (store_return key pp act att p x Hs) as Ht. by rewrite <- Heq in Ht.
Qed.

Lemma update_participant_inv now data db : db_inv db -> db_inv (update_participant now data db).2.
Proof.
  intros Hinv. destruct (decide (entity_id (spdp_participant_guid data) = EntityId_PARTICIPANT)) as [He|He].
  2:{ unfold update_participant. by rewrite bool_decide_true by done. }
  destruct (update_participant_fields now data db He) as (Hpp & Hll & Hlr & Hlw & Ht & Hr & Hw).
  constructor; rewrite ?Hpp, ?Hll, ?Hlr, ?Hlw, ?Ht; try apply Hinv.
  - intros q. rewrite !lookup_insert_is_Some, (inv_life _ Hinv). tauto.
  - intros q d [[<- <-]|[_ Hd]]%lookup_insert_Some; [|by apply (inv_participants _ Hinv)].
    destruct (spdp_participant_guid data); simpl in *. by rewrite He.
  - eapply store_updated; [exact Hr|apply Hinv].
  - eapply store_updated; [exact Hw|apply Hinv].
Qed.

(** ** Topic updates *)

(** The topic table and the events after an update. *)
Definition topic_update (ts : gmap string (gmap GUID (DiscoveredVia * DiscoveredTopicData))) (dtd : DiscoveredTopicData)
    (updater : GUID) (via : DiscoveredVia) : gmap string (gmap GUID (DiscoveredVia * DiscoveredTopicData)) * list DbEvent :=
  let n := tbtd_name (dtd_topic_data dtd) in
  let put t := <[n := <[updater := (via, dtd)]> t]> ts in
  match ts !! n with
  | None => (put ∅, [DbStatus (TopicDetected n (tbtd_type_name (dtd_topic_data dtd)))])
  | Some t =>
      match t !! updater with
      | None => (put t, match inconsistency_with t dtd updater with Some ev => [DbStatus ev] | None => [] end ++ [DbTopicUpdated])
      | Some (_, old) =>
          if decide (tbtd_type_name (dtd_topic_data dtd) = tbtd_type_name (dtd_topic_data old)) then
            if decide (via = ViaTopic) then (put t, [DbTopicUpdated]) else (ts, [])
          else (ts, [DbStatus (inconsistent_topic old updater dtd updater)])
      end
  end.

Lemma update_topic_data_run dtd updater via db :
  update_topic_data dtd updater via db =
  Ret (tt, db_set_topics db (topic_update (topics db) dtd updater via).1, (topic_update (topics db) dtd updater via).2).
Proof.
  assert (db_set_topics db (topics db) = db) as Hid by by destruct db.
  unfold update_topic_data, topic_update, topics_inconsistent.
  unfold mbind, act_bind, get_st, modify_st, emit_ev, mret, act_ret; cbn beta iota zeta.
  destruct (topics db !! _) as [t|]; [|done].
  destruct (t !! updater) as [[v old]|].
  - rewrite bool_decide_not. case_decide as Heq.
    + rewrite bool_decide_true by done. simpl. case_decide as Hv.
      * by rewrite bool_decide_true by done.
      * rewrite bool_decide_false by done. simpl. by rewrite Hid.
    + rewrite bool_decide_false by done. simpl. by rewrite Hid.
  - simpl. destruct (inconsistency_with t dtd updater); done.
Qed.

Lemma topics_ok_put ts dtd updater via t :
  let n := tbtd_name (dtd_topic_data dtd) in
  topics_ok ts -> (t = ∅ \/ ts !! n = Some t) -> topics_ok (<[n := <[updater := (via, dtd)]> t]> ts).
Proof.
  intros n Hts Ht m t' [[<- <-]|[_ Hl]]%lookup_insert_Some; [|by apply Hts].
  split; [apply insert_non_empty|]. intros u v d [[_ ?]|[_ Hd]]%lookup_insert_Some; simplify_eq; [done|].
  destruct Ht as [->|Ht]; [by rewrite lookup_empty in Hd|]. by apply (Hts _ _ Ht) in Hd.
Qed.

Lemma topic_update_ok ts dtd updater via : topics_ok ts -> topics_ok (topic_update ts dtd updater via).1.
Proof.
  intros Hts. unfold topic_update. destruct (ts !! _) as [t|] eqn:E; [|by apply topics_ok_put; auto].
  destruct (t !! updater) as [[v old]|]; [|by apply topics_ok_put; auto].
  case_decide; [|done]. case_decide; [|done]. apply topics_ok_put; auto.
Qed.

Lemma wp_update_topic_data dtd updater via db (Q : unit -> DiscoveryDB -> list DbEvent -> Prop) :
  Q tt (db_set_topics db (topic_update (topics db) dtd updater via).1) (topic_update (topics db) dtd updater via).2 ->
  wp (update_topic_data dtd updater via) db Q.
Proof. intros HQ. unfold wp. by rewrite update_topic_data_run. Qed.

(** ** Sequences of operations *)

Inductive db_op :=
| OpUpdateParticipant (now : Z) (data : SpdpDiscoveredParticipantData)
| OpParticipantIsAlive (now : Z) (p : GuidPrefix)
| OpRemoveParticipant (p : GuidPrefix) (active_disposal : bool)
| OpParticipantCleanup (now : Z)
| OpRemoveTopicReader (g : GUID)
| OpRemoveTopicWriter (g : GUID)
| OpUpdateSubscription (utc_now : Z) (data : DiscoveredReaderData)
| OpUpdatePublication (utc_now : Z) (data : DiscoveredWriterData)
| OpUpdateLeaseDuration (now : Z) (p : GuidPrefix)
| OpUpdateTopicData (dtd : DiscoveredTopicData) (updater : GUID) (via : DiscoveredVia)
| OpUpdateTopicDataP (utc_now : Z) (topic : Topic)
| OpTopicCleanup
| OpUpdateLocalWriter (d : DiscoveredWriterData)
| OpRemoveLocalWriter (g : GUID)
| OpUpdateLocalReader (dp : DomainParticipant) (topic : Topic) (g : GUID) (qos : QosPolicies)
| OpRemoveLocalReader (g : GUID).

Definition db_step (o : db_op) : act DiscoveryDB DbEvent unit :=
  match o with
  | OpUpdateParticipant now data => modify_st (fun db => (update_participant now data db).2)
  | OpParticipantIsAlive now p => modify_st (participant_is_alive now p)
  | OpRemoveParticipant p active => modify_st (remove_participant p active)
  | OpParticipantCleanup now => modify_st (fun db => (participant_cleanup now db).2)
  | OpRemoveTopicReader g => modify_st (remove_topic_reader g)
  | OpRemoveTopicWriter g => modify_st (remove_topic_writer g)
  | OpUpdateSubscription utc data => _ ← update_subscription utc data; mret tt
  | OpUpdatePublication utc data => _ ← update_publication utc data; mret tt
  | OpUpdateLeaseDuration now p => modify_st (update_lease_duration now p)
  | OpUpdateTopicData dtd updater via => update_topic_data dtd updater via
  | OpUpdateTopicDataP utc topic => update_topic_data_p utc topic
  | OpTopicCleanup => modify_st topic_cleanup
  | OpUpdateLocalWriter d => modify_st (update_local_topic_writer d)
  | OpRemoveLocalWriter g => modify_st (remove_local_topic_writer g)
  | OpUpdateLocalReader dp topic g qos => modify_st (update_local_topic_reader dp topic g qos)
  | OpRemoveLocalReader g => modify_st (remove_local_topic_reader g)
  end.

(** The GUIDs that operations bring in are byte sequences of the right length,
    which the types of the code guarantee. *)
Definition op_ok (o : db_op) : Prop :=
  match o with
  | OpUpdateSubscription _ d => GUID_ok (drd_guid d)
  | OpUpdatePublication _ d | OpUpdateLocalWriter d => GUID_ok (dwd_guid d)
  | OpUpdateLocalReader _ _ g _ => GUID_ok g
  | _ => True
  end.

Lemma wp_update_subscription utc data db (Q : DiscoveredReaderData -> DiscoveryDB -> list DbEvent -> Prop) :
  let guid := drd_guid data in
  let dtd := mkDTD utc (SubscriptionBuiltinTopicData_to_topic_data (drd_subscription_topic_data data)) in
  let upd := topic_update (topics db) dtd guid ViaSubscription in
  let ls := default_locator_lists db (prefix guid) in
  Q (mkDRD (ReaderProxy_from (RtpsReaderProxy_from_discovered_reader_data (drd_proxy data) ls.1 ls.2))
       (drd_subscription_topic_data data) (drd_content_filter data))
    (db_set_topics (db_set_readers db (<[guid := data]> (external_topic_readers db)) (external_topic_readers_attic db)) upd.1)
    upd.2 ->
  wp (update_subscription utc data) db Q.
Proof.
  intros guid dtd upd ls HQ. unfold update_subscription. apply wp_bind, wp_modify, wp_bind, wp_get.
  change (default_locator_lists (db_set_readers db _ _) _) with ls. destruct ls as [uni multi].
  apply wp_bind, wp_update_topic_data, wp_ret. simpl. by rewrite app_nil_r.
Qed.

Lemma wp_update_publication utc data db (Q : DiscoveredWriterData -> DiscoveryDB -> list DbEvent -> Prop) :
  let guid := dwd_guid data in
  let dtd := mkDTD utc (PublicationBuiltinTopicData_to_topic_data (dwd_publication_topic_data data)) in
  let upd := topic_update (topics db) dtd guid ViaPublication in
  let ls := default_locator_lists db (prefix guid) in
  Q (mkDWD (dwd_last_updated data)
       (WriterProxy_from (WriterProxy_from_discovered_writer_data (dwd_proxy data) ls.1 ls.2))
       (dwd_publication_topic_data data))
    (db_set_topics (db_set_writers db (<[guid := data]> (external_topic_writers db)) (external_topic_writers_attic db)) upd.1)
    upd.2 ->
  wp (update_publication utc data) db Q.
Proof.
  intros guid dtd upd ls HQ. unfold update_publication. apply wp_bind, wp_modify, wp_bind, wp_get.
  change (default_locator_lists (db_set_writers db _ _) _) with ls. destruct ls as [uni multi].
  apply wp_bind, wp_update_topic_data, wp_ret. simpl. by rewrite app_nil_r.
Qed.

(** ** Cleaning of topics *)

Lemma existsb_bt_values `{Countable K} `{!OrdKey K} {V} (f : V -> bool) (m : gmap K V) :
  existsb f (bt_values m) = true <-> exists k v, m !! k = Some v /\ f v = true.
Proof.
  rewrite existsb_exists. setoid_rewrite <- list_elem_of_In. setoid_rewrite elem_of_bt_values. naive_solver.
Qed.

(** An endpoint on the topic: local, or remote and not in the attic. *)
Definition endpoint_on (db : DiscoveryDB) (n : string) : Prop :=
  (exists g d, (local_topic_readers db !! g = Some d \/ external_topic_readers db !! g = Some d) /\
     sbtd_topic_name (drd_subscription_topic_data d) = n) \/
  (exists g d, (local_topic_writers db !! g = Some d \/ external_topic_writers db !! g = Some d) /\
     pbtd_topic_name (dwd_publication_topic_data d) = n).

Lemma topic_has_endpoint db n : topic_has_writers_or_readers db n = true <-> endpoint_on db n.
Proof.
  unfold topic_has_writers_or_readers, endpoint_on.
  set (r := fun p : DiscoveredReaderData => bool_decide _). set (w := fun p : DiscoveredWriterData => bool_decide _).
  transitivity (existsb r (bt_values (local_topic_readers db)) = true \/ existsb w (bt_values (local_topic_writers db)) = true \/
                existsb r (bt_values (external_topic_readers db)) = true \/ existsb w (bt_values (external_topic_writers db)) = true).
  { repeat match goal with |- context [existsb ?f ?l] => destruct (existsb f l) end; naive_solver. }
  rewrite !existsb_bt_values. unfold r, w. setoid_rewrite bool_decide_eq_true. naive_solver.
Qed.

Lemma lookup_delete_list {V} (ks : list string) (m : gmap string V) n :
  foldl (fun m k => delete k m) m ks !! n = if decide (n ∈ ks) then None else m !! n.
Proof.
  revert m. induction ks as [|k ks IH]; intros m; simpl; [done|]. rewrite IH.
  destruct (decide (n = k)) as [->|]; [rewrite lookup_delete_eq|rewrite lookup_delete_ne by done].
  all: repeat case_decide; set_solver.
Qed.

Lemma lookup_topic_cleanup db n :
  topics (topic_cleanup db) !! n = if topic_has_writers_or_readers db n then topics db !! n else None.
Proof.
  unfold topic_cleanup. cbn [topics db_set_topics]. rewrite lookup_delete_list. case_decide as Hin.
  - rewrite list_elem_of_filter in Hin. by destruct Hin as [-> _].
  - rewrite list_elem_of_filter, elem_of_bt_keys in Hin. destruct (topics db !! n) eqn:E.
    + destruct (topic_has_writers_or_readers db n); [done|]. destruct Hin. by split; [|eexists].
    + by destruct (topic_has_writers_or_readers db n).
Qed.

Lemma topic_cleanup_inv db : db_inv db -> db_inv (topic_cleanup db).
Proof.
  intros Hinv. apply inv_set_topics; [done|]. intros n t Ht.
  pose proof (lookup_topic_cleanup db n) as Hl. unfold topic_cleanup in Hl; cbn [topics db_set_topics] in Hl.
  rewrite Hl in Ht. destruct (topic_has_writers_or_readers db n); [|done]. by apply (inv_topics _ Hinv).
Qed.

(** ** Every operation keeps the invariant *)

Lemma db_step_inv o db : op_ok o -> db_inv db -> wp (db_step o) db (fun _ db' _ => db_inv db').
Proof.
  intros Hok Hinv. destruct o as [now data|now p|p a|now|g|g|utc d|utc d|now p|dtd u via|utc topic| |d|g|dp topic g qos|g];
    simpl in *; try apply wp_modify.
  - by apply update_participant_inv.
  - unfold participant_is_alive. destruct (_ !! p) eqn:E; [|done].
    constructor; try apply Hinv. intros q. simpl. rewrite lookup_insert_is_Some, (inv_life _ Hinv).
    destruct (decide (p = q)) as [<-|]; [|tauto]. split; [by left|]. intros [?|?]; [by eexists|tauto].
  - by apply remove_participant_inv.
  - by apply participant_cleanup_inv.
  - apply inv_set_readers; [done|]. apply store_delete, Hinv.
  - apply inv_set_writers; [done|]. apply store_delete, Hinv.
  - apply wp_bind, wp_update_subscription. apply wp_ret.
    apply inv_set_topics; [|apply topic_update_ok, Hinv].
    apply inv_set_readers; [done|]. apply (store_insert drd_guid); [done|apply Hinv].
  - apply wp_bind, wp_update_publication. apply wp_ret.
    apply inv_set_topics; [|apply topic_update_ok, Hinv].
    apply inv_set_writers; [done|]. apply (store_insert dwd_guid); [done|apply Hinv].
  - apply inv_set_writers; [done|].
    apply (store_map dwd_guid _ _ _ (fun g d => if decide (in_range (GuidPrefix_range p) g) then _ else _)); [|apply Hinv].
    intros g d. by case_decide.
  - apply wp_update_topic_data. apply inv_set_topics; [done|apply topic_update_ok, Hinv].
  - unfold update_topic_data_p. apply wp_bind, wp_get, wp_update_topic_data.
    apply inv_set_topics; [done|apply topic_update_ok, Hinv].
  - by apply topic_cleanup_inv.
  - apply inv_set_local; [done| |apply Hinv]. apply (keyed_insert dwd_guid); [done..|apply Hinv].
  - apply inv_set_local; [done| |apply Hinv]. apply keyed_delete, Hinv.
  - apply inv_set_local; [done|apply Hinv|].
    apply (keyed_insert drd_guid); [done..|apply Hinv].
  - apply inv_set_local; [done|apply Hinv|]. apply keyed_delete, Hinv.
Qed.

Lemma db_run_inv ops db :
  Forall op_ok ops -> db_inv db -> wp (act_for ops db_step) db (fun _ db' _ => db_inv db').
Proof.
  intros Hok Hinv. apply (wp_for (fun db _ => db_inv db)); [done|].
  intros o db' evs Hin Hdb'. apply db_step_inv; [|done]. by eapply Forall_forall in Hok.
Qed.

(** C36: whatever sequence of operations is applied to a new database, every
    operation returns and the database stays consistent: a participant is
    known exactly when it has a life sign, every record is filed under its own
    GUID or topic name, no topic is without a source, and no endpoint of a
    known participant is in the attic. *)
Theorem db_reachable_inv my_guid ops :
  Forall op_ok ops -> wp (act_for ops db_step) (DiscoveryDB_new my_guid) (fun _ db _ => db_inv db).
Proof. intros Hok. apply db_run_inv; [done|apply DiscoveryDB_new_inv]. Qed.

(** ** The life of a participant *)

(** The operation names the participant or one of its endpoints. *)
Definition op_concerns (p : GuidPrefix) (o : db_op) : Prop :=
  match o with
  | OpUpdateParticipant _ d => prefix (spdp_participant_guid d) = p
  | OpRemoveParticipant q _ | OpUpdateLeaseDuration _ q => q = p
  | OpRemoveTopicReader g | OpRemoveTopicWriter g => prefix g = p
  | OpUpdateSubscription _ d => prefix (drd_guid d) = p
  | OpUpdatePublication _ d => prefix (dwd_guid d) = p
  | _ => False
  end.

(** What the database holds of the endpoints of one participant. *)
Definition same_endpoints (p : GuidPrefix) (db db' : DiscoveryDB) : Prop :=
  forall g, prefix g = p ->
    external_topic_readers db' !! g = external_topic_readers db !! g /\
    external_topic_readers_attic db' !! g = external_topic_readers_attic db !! g /\
    external_topic_writers db' !! g = external_topic_writers db !! g /\
    external_topic_writers_attic db' !! g = external_topic_writers_attic db !! g.

Lemma move_other {D} (key : D -> GUID) p q from to f t g :
  (f, t) = move_by_guid_prefix q from to -> keyed key from -> prefix g = p -> q <> p ->
  f !! g = from !! g /\ t !! g = to !! g.
Proof.
  intros Heq Hk Hg Hq. destruct (lookup_move q from to g (keyed_keys_ok _ _ Hk)) as [H1 H2].
  rewrite <- Heq in H1, H2. simpl in H1, H2. rewrite H1, H2. by rewrite !decide_False by congruence.
Qed.

Lemma remove_participant_frame p q active db :
  q <> p -> db_inv db -> same_endpoints p db (remove_participant q active db).
Proof.
  intros Hq Hinv g Hg. destruct (remove_participant_fields q active db) as (_ & _ & _ & _ & _ & Hr & Hw).
  destruct (inv_readers _ Hinv) as (Hkr & _). destruct (inv_writers _ Hinv) as (Hkw & _).
  destruct active.
  - clear Hr Hw. simpl.
    rewrite !lookup_remove_prefix by eauto using keyed_keys_ok. by rewrite !decide_False by congruence.
  - destruct (move_other _ _ _ _ _ _ _ _ Hr Hkr Hg Hq) as [-> ->].
    by destruct (move_other _ _ _ _ _ _ _ _ Hw Hkw Hg Hq) as [-> ->].
Qed.

Lemma same_endpoints_trans p db1 db2 db3 :
  same_endpoints p db1 db2 -> same_endpoints p db2 db3 -> same_endpoints p db1 db3.
Proof.
  intros H1 H2 g Hg. destruct (H1 g Hg) as (<- & <- & <- & <-). by apply H2.
Qed.

Lemma update_participant_frame p now data db :
  prefix (spdp_participant_guid data) <> p -> db_inv db ->
  same_endpoints p db (update_participant now data db).2 /\
  participant_proxies (update_participant now data db).2 !! p = participant_proxies db !! p.
Proof.
  intros Hne Hinv. destruct (decide (entity_id (spdp_participant_guid data) = EntityId_PARTICIPANT)) as [He|He].
  2:{ unfold update_participant. by rewrite bool_decide_true by done. }
  destruct (update_participant_fields now data db He) as (Hpp & _ & _ & _ & _ & Hr & Hw).
  split; [|by rewrite Hpp, lookup_insert_ne].
  intros g Hg. destruct (inv_readers _ Hinv) as (_ & Hkr & _). destruct (inv_writers _ Hinv) as (_ & Hkw & _).
  destruct (participant_proxies db !! _).
  - injection Hr as -> ->. by injection Hw as -> ->.
  - destruct (move_other _ _ _ _ _ _ _ _ Hr Hkr Hg Hne) as [-> ->].
    by destruct (move_other _ _ _ _ _ _ _ _ Hw Hkw Hg Hne) as [-> ->].
Qed.

(** Cleaning touches known participants only. *)
Lemma cleanup_frame p now db :
  participant_proxies db !! p = None -> db_inv db ->
  same_endpoints p db (participant_cleanup now db).2 /\ participant_proxies (participant_cleanup now db).2 !! p = None.
Proof.
  intros Hp Hinv. unfold participant_cleanup; cbn [snd].
  set (l := omap _ _). assert (forall q r, (q, r) ∈ l -> q <> p) as Hl.
  { intros q r ([q' sp] & Hin & Hr)%list_elem_of_omap ->. apply elem_of_bt_iter in Hin.
    by destruct (lease_expired db now q' sp); simplify_eq/=. }
  enough (same_endpoints p db (foldl (fun db '(guid, _) => remove_participant guid false db) db l) /\
          participant_proxies (foldl (fun db '(guid, _) => remove_participant guid false db) db l) !! p = None /\
          db_inv (foldl (fun db '(guid, _) => remove_participant guid false db) db l)) by tauto.
  apply (foldl_ind (fun db' => same_endpoints p db db' /\ participant_proxies db' !! p = None /\ db_inv db')); [done|].
  intros db' [q r] Hin (Hs & Hp' & Hinv'). split_and!.
  - eapply same_endpoints_trans; [done|]. apply remove_participant_frame; eauto.
  - destruct (remove_participant_fields q false db') as (-> & _). by rewrite lookup_delete_None; right.
  - by apply remove_participant_inv.
Qed.

Lemma db_step_frame p o db :
  ~ op_concerns p o -> participant_proxies db !! p = None -> db_inv db ->
  wp (db_step o) db (fun _ db' _ => same_endpoints p db db' /\ participant_proxies db' !! p = None).
Proof.
  intros Hc Hp Hinv.
  destruct o as [now data|now q|q a|now|g|g|utc d|utc d|now q|dtd u via|utc topic| |d|g|dp topic g qos|g];
    simpl in *; try apply wp_modify; try done.
  - rewrite <- Hp. by apply update_participant_frame.
  - unfold participant_is_alive. by destruct (_ !! q).
  - split; [by apply remove_participant_frame|].
    destruct (remove_participant_fields q a db) as (-> & _). by rewrite lookup_delete_ne.
  - by apply cleanup_frame.
  - split; [|done]. intros g' Hg'. split_and!; try done. simpl. rewrite lookup_delete_ne; [done|congruence].
  - split; [|done]. intros g' Hg'. split_and!; try done. simpl. rewrite lookup_delete_ne; [done|congruence].
  - apply wp_bind, wp_update_subscription. apply wp_ret. split; [|done].
    intros g' Hg'. split_and!; try done. simpl. rewrite lookup_insert_ne; [done|congruence].
  - apply wp_bind, wp_update_publication. apply wp_ret. split; [|done].
    intros g' Hg'. split_and!; try done. simpl. rewrite lookup_insert_ne; [done|congruence].
  - split; [|done]. intros g' Hg'. split_and!; try done. simpl. rewrite map_lookup_imap.
    destruct (external_topic_writers db !! g') eqn:E; [|done]. simpl. rewrite decide_False; [done|].
    rewrite in_prefix_range; [congruence|]. by apply (inv_writers _ Hinv) in E as [_ ?].
  - by apply wp_update_topic_data.
  - unfold update_topic_data_p. by apply wp_bind, wp_get, wp_update_topic_data.
Qed.

Lemma db_run_frame p ops db :
  Forall op_ok ops -> Forall (fun o => ~ op_concerns p o) ops -> participant_proxies db !! p = None -> db_inv db ->
  wp (act_for ops db_step) db (fun _ db' _ =>
    same_endpoints p db db' /\ participant_proxies db' !! p = None /\ db_inv db').
Proof.
  intros Hok Hc Hp Hinv.
  apply (wp_for (fun db' _ => same_endpoints p db db' /\ participant_proxies db' !! p = None /\ db_inv db')); [done|].
  intros o db' evs Hin (Hs & Hp' & Hinv'). rewrite Forall_forall in Hok, Hc.
  pose proof (db_step_frame p o db' (Hc _ Hin) Hp' Hinv') as Hf. pose proof (db_step_inv o db' (Hok _ Hin) Hinv') as Hi.
  unfold wp in *. destruct (db_step o db') as [[[? ?] ?]|w|]; [|done|done].
  destruct Hf as [Hf1 Hf2]. split_and!; [|done..]. by eapply same_endpoints_trans.
Qed.

(** The endpoints of a known participant after its removal. *)
Lemma store_removed_lookup {D} (key : D -> GUID) (active : bool) pp act att p er ra g :
  (er, ra) = (if active then (remove_keys (keys_in_range p act) act, att) else move_by_guid_prefix p act att) ->
  store_ok key pp act att -> is_Some (pp !! p) -> prefix g = p ->
  er !! g = None /\ ra !! g = if active then None else act !! g.
Proof.
  intros Heq (Ha & _ & Hd) [x Hx] Hg.
  assert (att !! g = None) as Hn by (apply eq_None_not_Some; intros Hs; apply Hd in Hs; congruence).
  destruct active; simplify_eq.
  - by rewrite lookup_remove_prefix, decide_True by eauto using keyed_keys_ok.
  - destruct (lookup_move (prefix g) act att g (keyed_keys_ok _ _ Ha)) as [H1 H2].
    rewrite <- Heq in H1, H2. simpl in *. rewrite H1, H2, Hn, !decide_True by done.
    by destruct (act !! g).
Qed.

(** The endpoints of an unknown participant after its announcement. *)
Lemma store_updated_lookup {D} (key : D -> GUID) pp act att p er ra g :
  (ra, er) = match pp !! p with Some _ => (att, act) | None => move_by_guid_prefix p att act end ->
  store_ok key pp act att -> pp !! p = None -> prefix g = p ->
  er !! g = att !! g ∪ act !! g /\ ra !! g = None.
Proof.
  intros Heq (_ & Ht & _) Hp Hg. rewrite Hp in Heq.
  destruct (lookup_move p att act g (keyed_keys_ok _ _ Ht)) as [H1 H2].
  rewrite <- Heq in H1, H2. simpl in *. by rewrite H1, H2, !decide_True by done.
Qed.

Definition forgotten (p : GuidPrefix) (db : DiscoveryDB) : Prop :=
  forall g, prefix g = p -> external_topic_readers db !! g = None /\ external_topic_writers db !! g = None.

(** C34: when a known participant is lost, its readers and writers are no longer
    among the known endpoints; when it is announced again, after any
    operations that concern other participants only, exactly the readers and
    writers it had are known again if it was lost by time-out, and none of them
    if it had disposed itself. *)
Theorem lost_participant_returns p (active : bool) ops now data db :
  db_inv db -> is_Some (participant_proxies db !! p) ->
  Forall op_ok ops -> Forall (fun o => ~ op_concerns p o) ops ->
  spdp_participant_guid data = GUID_new p EntityId_PARTICIPANT ->
  wp (act_for (OpRemoveParticipant p active :: ops) db_step) db (fun _ db1 _ =>
    participant_proxies db1 !! p = None /\ forgotten p db1 /\
    let db2 := (update_participant now data db1).2 in
    participant_proxies db2 !! p = Some data /\
    forall g, prefix g = p ->
      external_topic_readers db2 !! g = (if active then None else external_topic_readers db !! g) /\
      external_topic_writers db2 !! g = (if active then None else external_topic_writers db !! g)).
Proof.
  intros Hinv Hp Hok Hc Hdata. cbn [act_for db_step]. apply wp_bind, wp_modify.
  destruct (remove_participant_fields p active db) as (Hpp & _ & _ & _ & _ & Hr & Hw).
  set (db0 := remove_participant p active db) in *.
  assert (db_inv db0) as Hinv0 by by apply remove_participant_inv.
  eapply wp_mono; [apply (db_run_frame p ops db0); [done|done| |done]|].
  { rewrite Hpp. apply lookup_delete_eq. }
  intros [] db1 evs (Hs & Hp1 & Hinv1). split; [done|].
  assert (forall g, prefix g = p ->
    (external_topic_readers db1 !! g = None /\
     external_topic_readers_attic db1 !! g = if active then None else external_topic_readers db !! g) /\
    external_topic_writers db1 !! g = None /\
    external_topic_writers_attic db1 !! g = if active then None else external_topic_writers db !! g) as H1.
  { intros g Hg. destruct (Hs g Hg) as (-> & -> & -> & ->). split.
    - eapply store_removed_lookup; [exact Hr|apply Hinv|done|done].
    - eapply store_removed_lookup; [exact Hw|apply Hinv|done|done]. }
  split; [intros g Hg; by apply H1 in Hg as [[-> _] [-> _]]|]. set (db2 := (update_participant now data db1).2).
  destruct (update_participant_fields now data db1) as (Hpp2 & _ & _ & _ & _ & Hr2 & Hw2); [by rewrite Hdata|].
  fold db2 in Hpp2, Hr2, Hw2. rewrite Hdata in Hpp2, Hr2, Hw2. simpl in *.
  split; [by rewrite Hpp2, lookup_insert_eq|]. intros g Hg. destruct (H1 g Hg) as [[Hr1 Hr1'] [Hw1 Hw1']].
  destruct (store_updated_lookup drd_guid _ _ _ _ _ _ g Hr2 (inv_readers _ Hinv1) Hp1 Hg) as [-> _].
  destruct (store_updated_lookup dwd_guid _ _ _ _ _ _ g Hw2 (inv_writers _ Hinv1) Hp1 Hg) as [-> _].
  rewrite Hr1, Hr1', Hw1, Hw1'. destruct active; [done|].
  by destruct (external_topic_readers db !! g), (external_topic_writers db !! g).
Qed.

(** The attic wins over newer data.  When the description of a reader
    arrives while its participant is lost by time-out, the announcement of the
    participant replaces it by the description from before the loss. *)
Theorem attic_overwrites_newer g old new utc now data db :
  db_inv db -> external_topic_readers_attic db !! g = Some old -> drd_guid new = g ->
  spdp_participant_guid data = GUID_new (prefix g) EntityId_PARTICIPANT ->
  wp (update_subscription utc new) db (fun _ db1 _ =>
    external_topic_readers db1 !! g = Some new /\
    external_topic_readers (update_participant now data db1).2 !! g = Some old).
Proof.
  intros Hinv Hold Hg Hdata. destruct (inv_readers _ Hinv) as (Ha & Ht & Hd).
  assert (participant_proxies db !! prefix g = None) as Hp by (apply Hd; by eexists).
  assert (GUID_ok g) as Hok by by apply Ht in Hold as [_ ?].
  apply wp_update_subscription. rewrite Hg. set (db1 := db_set_topics _ _).
  assert (store_ok drd_guid (participant_proxies db1) (external_topic_readers db1) (external_topic_readers_attic db1)) as Hs.
  { simpl. rewrite <- Hg. apply store_insert; [by rewrite Hg|done]. }
  split; [apply lookup_insert_eq|].
  destruct (update_participant_fields now data db1) as (_ & _ & _ & _ & _ & Hr & _); [by rewrite Hdata|].
  rewrite Hdata in Hr.
  destruct (store_updated_lookup drd_guid _ _ _ _ _ _ g Hr Hs Hp eq_refl) as [-> _].
  simpl. rewrite Hold, lookup_insert_eq. done.
Qed.

(** ** Leases *)

Lemma from_std_ticks n :
  0 <= n < 2 ^ 31 * 1000000000 ->
  let d := Duration_from_std (n / 1000000000) (n mod 1000000000) in
  Duration_ok d /\ Duration_to_ticks d = n * 2 ^ 32 / 1000000000.
Proof.
  intros Hn d.
  pose proof (Z.div_mod n 1000000000 ltac:(lia)) as Hdm. pose proof (Z.mod_pos_bound n 1000000000 ltac:(lia)) as Hm.
  set (s := n / 1000000000) in *. set (r := n mod 1000000000) in *.
  assert (0 <= s < 2 ^ 31) as Hs by (pow2; lia).
  assert (d = mkDuration s (r * 2 ^ 32 / 1000000000)) as Hd.
  { unfold d, Duration_from_std. rewrite Z.shiftl_mul_pow2 by lia.
    rewrite wrap_s_id by bounds_lia. rewrite (wrap_u_id 64) by bounds_lia. rewrite wrap_u_id; [done|].
    unfold in_u. pow2. split; [apply Z.div_pos; lia|apply Z.div_lt_upper_bound; lia]. }
  assert (Duration_ok d) as Hok.
  { rewrite Hd. split; simpl; [bounds_lia|]. unfold in_u. pow2. split; [apply Z.div_pos; lia|apply Z.div_lt_upper_bound; lia]. }
  split; [done|]. rewrite Duration_to_ticks_eq by done. rewrite Hd; simpl.
  replace (n * 2 ^ 32) with (r * 2 ^ 32 + s * 2 ^ 32 * 1000000000) by lia. rewrite Z.div_add by lia. lia.
Qed.

Lemma Duration_add_none d : Duration_ok d -> Duration_to_ticks (Duration_add d PARTICIPANT_LEASE_DURATION_TOLERANCE) = Duration_to_ticks d
  /\ Duration_ok (Duration_add d PARTICIPANT_LEASE_DURATION_TOLERANCE).
Proof.
  intros Hok. pose proof (Duration_ticks_range d Hok) as Hr. unfold Duration_add.
  change (Duration_to_ticks PARTICIPANT_LEASE_DURATION_TOLERANCE) with 0.
  rewrite Z.add_0_r, wrap_s_id by done || lia. by apply Duration_to_from_ticks.
Qed.

(** The lease of a participant, in nanoseconds times 2^32: it is over when the
    silence, rounded down to ticks, is longer. *)
Definition lease_of (sp : SpdpDiscoveredParticipantData) : Duration :=
  default DEFAULT_PARTICIPANT_LEASE_DURATION (spdp_lease_duration sp).

Definition silent_too_long (db : DiscoveryDB) (now : Z) (p : GuidPrefix) : Prop :=
  exists sp t, participant_proxies db !! p = Some sp /\ participant_last_life_signs db !! p = Some t /\
    (Duration_to_ticks (lease_of sp) + 1) * 1000000000 <= (now - t) * 2 ^ 32.

(** The clock has not run backwards, nor for 68 years since a life sign, and
    the leases are 32-bit pairs. *)
Definition clock_ok (db : DiscoveryDB) (now : Z) : Prop :=
  (forall p t, participant_last_life_signs db !! p = Some t -> 0 <= now - t < 2 ^ 31 * 1000000000) /\
  (forall p sp, participant_proxies db !! p = Some sp -> Duration_ok (lease_of sp)).

Lemma lease_expired_iff db now p sp :
  clock_ok db now -> participant_proxies db !! p = Some sp ->
  is_Some (lease_expired db now p sp) <-> silent_too_long db now p.
Proof.
  intros [Hclock Hlease] Hp. unfold lease_expired, silent_too_long, instant_elapsed. fold (lease_of sp).
  destruct (participant_last_life_signs db !! p) as [t|] eqn:E; [|split; [by intros []|naive_solver]].
  pose proof (Hclock _ _ E) as Hn. rewrite Z.max_r by lia.
  destruct (from_std_ticks _ Hn) as [Hok Ht]. destruct (Duration_add_none _ (Hlease _ _ Hp)) as [Ha Haok].
  set (el := Duration_from_std _ _) in *. set (le := Duration_add _ _) in *.
  assert (kle el le <-> (now - t) * 2 ^ 32 < (Duration_to_ticks (lease_of sp) + 1) * 1000000000) as Hk.
  { rewrite kle_nlt, Duration_lt_ticks, Ht, Ha by done. rewrite Z.nlt_ge, <- Z.lt_succ_r.
    split; intros H; [|apply Z.div_lt_upper_bound; lia].
    pose proof (Z.mul_succ_div_gt ((now - t) * 2 ^ 32) 1000000000 ltac:(lia)). nia. }
  case_bool_decide as Hle; rewrite Hk in Hle.
  - split; [by intros []|]. intros (sp' & t' & ? & ? & ?); simplify_eq. lia.
  - split; [|by eexists]. intros _. exists sp, t. split_and!; [done|done|lia].
Qed.

(** The stores after the participants of [l] have timed out. *)
Definition timed_out_store {D} (l : list GuidPrefix) (act att act' att' : gmap GUID D) : Prop :=
  forall g, act' !! g = (if decide (prefix g ∈ l) then None else act !! g) /\
            att' !! g = (if decide (prefix g ∈ l) then act !! g ∪ att !! g else att !! g).

Lemma timed_out_cons {D} (key : D -> GUID) p l pp (act att act1 att1 act2 att2 : gmap GUID D) :
  store_ok key pp act att -> (act1, att1) = move_by_guid_prefix p act att ->
  timed_out_store l act1 att1 act2 att2 -> timed_out_store (p :: l) act att act2 att2.
Proof.
  intros (Ha & _) Heq H2 g. destruct (lookup_move p act att g (keyed_keys_ok _ _ Ha)) as [H1a H1t].
  rewrite <- Heq in H1a, H1t. simpl in H1a, H1t. destruct (H2 g) as [-> ->]. rewrite H1a, H1t.
  destruct (decide (prefix g = p)) as [->|].
  - rewrite !(decide_True (P := p ∈ p :: l)) by set_solver.
    split; case_decide; try done; by destruct (act !! g), (att !! g).
  - split; repeat case_decide; set_solver.
Qed.

Lemma cleanup_stores (l : list (GuidPrefix * LostReason)) db :
  let db' := foldl (fun db '(guid, _) => remove_participant guid false db) db l in
  db_inv db ->
  (forall p, participant_proxies db' !! p = if decide (p ∈ l.*1) then None else participant_proxies db !! p) /\
  timed_out_store l.*1 (external_topic_readers db) (external_topic_readers_attic db)
    (external_topic_readers db') (external_topic_readers_attic db') /\
  timed_out_store l.*1 (external_topic_writers db) (external_topic_writers_attic db)
    (external_topic_writers db') (external_topic_writers_attic db') /\
  local_topic_readers db' = local_topic_readers db /\ local_topic_writers db' = local_topic_writers db /\
  topics db' = topics db.
Proof.
  revert db. induction l as [|[p r] l IH]; intros db db' Hinv; [by split_and!|]. unfold db'; clear db'. cbn [foldl].
  destruct (remove_participant_fields p false db) as (Hpp & _ & Hlr & Hlw & Ht & Hr & Hw).
  destruct (IH _ (remove_participant_inv p false db Hinv)) as (IHp & IHr & IHw & -> & -> & ->).
  split_and!; [| | |done..].
  - intros q. rewrite IHp, Hpp. cbn [fmap list_fmap fst]. destruct (decide (q = p)) as [->|].
    + rewrite lookup_delete_eq. repeat case_decide; set_solver.
    + rewrite lookup_delete_ne by done. repeat case_decide; set_solver.
  - eapply timed_out_cons; [apply (inv_readers _ Hinv)|exact Hr|done].
  - eapply timed_out_cons; [apply (inv_writers _ Hinv)|exact Hw|done].
Qed.

Lemma elem_of_cleanup now db p r :
  (p, r) ∈ (participant_cleanup now db).1 <->
  exists sp, participant_proxies db !! p = Some sp /\ lease_expired db now p sp = Some r.
Proof.
  unfold participant_cleanup; cbn [fst]. rewrite list_elem_of_omap. split.
  - intros ([q sp] & Hin & Hr). apply elem_of_bt_iter in Hin.
    destruct (lease_expired db now q sp) eqn:E; simplify_eq/=. eauto.
  - intros (sp & Hsp & Hr). exists (p, sp). rewrite elem_of_bt_iter, Hr. done.
Qed.

(** The cleaning of participants removes exactly those that have been
    silent for longer than their lease (to a tick, 2^-32 s), reports each with
    its lease, and moves exactly their endpoints to the attic; other
    participants, other endpoints, the local endpoints and the topics stay. *)
Theorem participant_cleanup_correct now db :
  db_inv db -> clock_ok db now ->
  let '(removed, db') := participant_cleanup now db in
  (forall p, p ∈ removed.*1 <-> silent_too_long db now p) /\
  (forall p r, (p, r) ∈ removed -> exists sp t, participant_proxies db !! p = Some sp /\
     participant_last_life_signs db !! p = Some t /\ r = Timeout (lease_of sp) (instant_elapsed now t)) /\
  (forall p, participant_proxies db' !! p = if decide (p ∈ removed.*1) then None else participant_proxies db !! p) /\
  (forall g, prefix g ∈ removed.*1 ->
     external_topic_readers db' !! g = None /\ external_topic_readers_attic db' !! g = external_topic_readers db !! g /\
     external_topic_writers db' !! g = None /\ external_topic_writers_attic db' !! g = external_topic_writers db !! g) /\
  (forall p, p ∉ removed.*1 -> same_endpoints p db db') /\
  local_topic_readers db' = local_topic_readers db /\ local_topic_writers db' = local_topic_writers db /\
  topics db' = topics db.
Proof.
  intros Hinv Hclock. destruct (participant_cleanup now db) as [removed db'] eqn:Ecl.
  assert (removed = (participant_cleanup now db).1) as Hrem by by rewrite Ecl.
  assert (db' = foldl (fun db '(guid, _) => remove_participant guid false db) db removed) as Hdb'.
  { unfold participant_cleanup in Ecl. by simplify_eq. }
  assert (forall p r, (p, r) ∈ removed <-> exists sp, participant_proxies db !! p = Some sp /\ lease_expired db now p sp = Some r)
    as Hin by (intros; rewrite Hrem; apply elem_of_cleanup).
  destruct (cleanup_stores removed db Hinv) as (Hp & Hr & Hw & Hl). rewrite <- Hdb' in Hp, Hr, Hw, Hl.
  assert (forall g, prefix g ∈ removed.*1 -> is_Some (participant_proxies db !! prefix g)) as Hknown.
  { intros g ([q r] & -> & (sp & ? & _)%Hin)%list_elem_of_fmap. by eexists. }
  split_and!; try done; try apply Hl.
  - intros p. rewrite list_elem_of_fmap. split.
    + intros ([q r] & -> & (sp & Hsp & Hex)%Hin). apply (lease_expired_iff _ _ _ sp); eauto.
    + intros Hs. pose proof Hs as (sp & t & Hsp & _). destruct (proj2 (lease_expired_iff db now p sp Hclock Hsp) Hs) as [r Hex].
      exists (p, r). split; [done|]. apply Hin. eauto.
  - intros p r (sp & Hsp & Hex)%Hin. unfold lease_expired in Hex. fold (lease_of sp) in Hex.
    destruct (participant_last_life_signs db !! p) as [t|]; [|done]. case_bool_decide; simplify_eq. eauto.
  - intros g Hg. destruct (Hr g) as [-> ->], (Hw g) as [-> ->]. rewrite !decide_True by done.
    pose proof (Hknown g Hg) as [x Hx].
    assert (external_topic_readers_attic db !! g = None) as ->.
    { apply eq_None_not_Some. intros Hs. apply (inv_readers _ Hinv) in Hs. congruence. }
    assert (external_topic_writers_attic db !! g = None) as ->.
    { apply eq_None_not_Some. intros Hs. apply (inv_writers _ Hinv) in Hs. congruence. }
    by destruct (external_topic_readers db !! g), (external_topic_writers db !! g).
  - intros p Hnp g <-. destruct (Hr g) as [-> ->], (Hw g) as [-> ->]. by rewrite !decide_False by done.
Qed.

(** ** What an update of a topic does and tells *)

Lemma inconsistency_with_spec t dtd u :
  match inconsistency_with t dtd u with
  | None => forall s v d, t !! s = Some (v, d) -> tbtd_type_name (dtd_topic_data d) = tbtd_type_name (dtd_topic_data dtd)
  | Some ev => exists s v d, t !! s = Some (v, d) /\ tbtd_type_name (dtd_topic_data d) <> tbtd_type_name (dtd_topic_data dtd) /\
      ev = inconsistent_topic d s dtd u
  end.
Proof.
  unfold inconsistency_with. set (step := fun acc '(source_guid, (_, existing)) => _).
  assert (forall l acc, match foldl step acc l with
    | None => acc = None /\ forall s v d, (s, (v, d)) ∈ l -> tbtd_type_name (dtd_topic_data d) = tbtd_type_name (dtd_topic_data dtd)
    | Some ev => acc = Some ev \/ exists s v d, (s, (v, d)) ∈ l /\
        tbtd_type_name (dtd_topic_data d) <> tbtd_type_name (dtd_topic_data dtd) /\ ev = inconsistent_topic d s dtd u
    end) as Hl.
  { induction l as [|[s [v d]] l IH]; intros acc; cbn [foldl].
    - destruct acc; [by left|]. split; [done|]. set_solver.
    - specialize (IH (step acc (s, (v, d)))). destruct (foldl step _ l) as [ev|].
      + destruct IH as [IH|(s' & v' & d' & Hin & ?)]; [|right; exists s', v', d'; set_solver].
        unfold step, topics_inconsistent in IH. case_bool_decide; [|by left]. right. exists s, v, d. simplify_eq. set_solver.
      + destruct IH as [IH Hall]. unfold step, topics_inconsistent in IH. case_bool_decide as Hc; [done|].
        split; [done|]. intros s' v' d' [?|?]%elem_of_cons; simplify_eq; [|eauto].
        by destruct (decide (tbtd_type_name (dtd_topic_data d) = tbtd_type_name (dtd_topic_data dtd))). }
  specialize (Hl (bt_iter t) None). destruct (foldl step None (bt_iter t)) as [ev|].
  - destruct Hl as [?|(s & v & d & Hin & ?)]; [done|]. apply elem_of_bt_iter in Hin. eauto 6.
  - destruct Hl as [_ Hall]. intros s v d Hs. eapply Hall. by apply elem_of_bt_iter.
Qed.

(** What source [u] says of topic [n]. *)
Definition topic_record (db : DiscoveryDB) (n : string) (u : GUID) : option (DiscoveredVia * DiscoveredTopicData) :=
  t ← topics db !! n; t !! u.

(** The record is written: the source is new, or it repeats what it said
    through the topic about topics. *)
Definition record_written (db : DiscoveryDB) (dtd : DiscoveredTopicData) (u : GUID) (via : DiscoveredVia) : Prop :=
  match topic_record db (tbtd_name (dtd_topic_data dtd)) u with
  | None => True
  | Some (_, old) => tbtd_type_name (dtd_topic_data old) = tbtd_type_name (dtd_topic_data dtd) /\ via = ViaTopic
  end.

#[export] Instance record_written_dec db dtd u via : Decision (record_written db dtd u via).
Proof. unfold record_written. destruct (topic_record _ _ _) as [[v old]|]; apply _. Defined.

(** The sources whose types the new record is compared with. *)
Definition compared_with (db : DiscoveryDB) (dtd : DiscoveredTopicData) (u s : GUID) : Prop :=
  is_Some (topic_record db (tbtd_name (dtd_topic_data dtd)) u) -> s = u.

Lemma topic_record_put db n t (via : DiscoveredVia) dtd u n' u' :
  (topics db !! n = Some t \/ topics db !! n = None /\ t = ∅) ->
  topic_record (db_set_topics db (<[n := <[u := (via, dtd)]> t]> (topics db))) n' u' =
  if decide ((n', u') = (n, u)) then Some (via, dtd) else topic_record db n' u'.
Proof.
  intros Ht. unfold topic_record; cbn [topics db_set_topics]. destruct (decide (n' = n)) as [->|Hn].
  - rewrite lookup_insert_eq. simpl. destruct (decide (u' = u)) as [->|Hu].
    + by rewrite lookup_insert_eq, decide_True.
    + rewrite lookup_insert_ne, decide_False by congruence. by destruct Ht as [->|[-> ->]].
  - by rewrite lookup_insert_ne, decide_False by congruence.
Qed.

(** The table after an update. *)
Lemma topic_update_records dtd u via db n' u' :
  let n := tbtd_name (dtd_topic_data dtd) in
  let db' := db_set_topics db (topic_update (topics db) dtd u via).1 in
  (record_written db dtd u via ->
     topic_record db' n' u' = if decide ((n', u') = (n, u)) then Some (via, dtd) else topic_record db n' u') /\
  (~ record_written db dtd u via -> topic_record db' n' u' = topic_record db n' u').
Proof.
  intros n db'. unfold db', record_written, topic_update. fold n.
  assert (topic_record db n u = t ← topics db !! n; t !! u) as Hrec by done. revert Hrec.
  destruct (topics db !! n) as [t|] eqn:Et; simpl; intros ->.
  2:{ split; [|tauto]. intros _. apply topic_record_put; auto. }
  destruct (t !! u) as [[v old]|] eqn:Eu; [|split; [|tauto]; intros _; apply topic_record_put; auto].
  case_decide; [case_decide|]; (split; [intros [? ?]|]); try congruence; intros; try by apply topic_record_put; auto.
  all: done || naive_solver.
Qed.

(** The events of an update. *)
Lemma topic_update_events dtd u via db ev :
  let n := tbtd_name (dtd_topic_data dtd) in
  ev ∈ (topic_update (topics db) dtd u via).2 <->
  (ev = DbTopicUpdated /\ is_Some (topics db !! n) /\ record_written db dtd u via) \/
  (ev = DbStatus (TopicDetected n (tbtd_type_name (dtd_topic_data dtd))) /\ topics db !! n = None) \/
  (exists v old, topic_record db n u = Some (v, old) /\
     tbtd_type_name (dtd_topic_data dtd) <> tbtd_type_name (dtd_topic_data old) /\
     ev = DbStatus (inconsistent_topic old u dtd u)) \/
  (exists t e, topics db !! n = Some t /\ topic_record db n u = None /\
     inconsistency_with t dtd u = Some e /\ ev = DbStatus e).
Proof.
  intros n. unfold topic_update, record_written. fold n.
  assert (topic_record db n u = t ← topics db !! n; t !! u) as Hrec by done. revert Hrec.
  destruct (topics db !! n) as [t|] eqn:Et; simpl; intros ->; [|rewrite list_elem_of_singleton; naive_solver].
  destruct (t !! u) as [[v old]|] eqn:Eu.
  - case_decide; [case_decide|]; cbn [snd]; rewrite ?list_elem_of_singleton, ?elem_of_nil; naive_solver.
  - cbn [snd]. rewrite elem_of_app, list_elem_of_singleton.
    destruct (inconsistency_with t dtd u) eqn:Ei; rewrite ?list_elem_of_singleton, ?elem_of_nil; naive_solver.
Qed.

(** An update of a topic by a source writes the record of that source, if
    the source is new or the news come through the topic about topics and keep
    the type, and no other record.  A conflict of types is reported exactly
    when there is one, with one of the conflicting sources; a topic is reported
    as detected exactly when its name is new.  Those who wait for a topic are
    woken exactly when a record of a known topic is written: a new topic does
    not wake them. *)
Theorem topic_update_correct dtd u via db :
  let n := tbtd_name (dtd_topic_data dtd) in
  wp (update_topic_data dtd u via) db (fun _ db' evs =>
    (record_written db dtd u via -> topic_record db' n u = Some (via, dtd)) /\
    (~ record_written db dtd u via -> topic_record db' n u = topic_record db n u) /\
    (forall n' u', (n', u') <> (n, u) -> topic_record db' n' u' = topic_record db n' u') /\
    (DbTopicUpdated ∈ evs <-> is_Some (topics db !! n) /\ record_written db dtd u via) /\
    (forall ty, DbStatus (TopicDetected n ty) ∈ evs <-> topics db !! n = None /\ ty = tbtd_type_name (dtd_topic_data dtd)) /\
    (forall ev, DbStatus ev ∈ evs -> ev = TopicDetected n (tbtd_type_name (dtd_topic_data dtd)) \/
       exists s v old, topic_record db n s = Some (v, old) /\ compared_with db dtd u s /\
         tbtd_type_name (dtd_topic_data old) <> tbtd_type_name (dtd_topic_data dtd) /\ ev = inconsistent_topic old s dtd u) /\
    ((exists s v old, topic_record db n s = Some (v, old) /\ compared_with db dtd u s /\
         tbtd_type_name (dtd_topic_data old) <> tbtd_type_name (dtd_topic_data dtd)) ->
     exists s old, DbStatus (inconsistent_topic old s dtd u) ∈ evs)).
Proof.
  intros n. apply wp_update_topic_data.
  pose proof (topic_update_records dtd u via db) as Hrec. pose proof (topic_update_events dtd u via db) as Hev.
  fold n in Hrec, Hev. simpl in Hrec, Hev. split_and!.
  - intros Hw. by rewrite (proj1 (Hrec n u) Hw), decide_True.
  - intros Hw. by rewrite (proj2 (Hrec n u) Hw).
  - intros n' u' Hne. destruct (decide (record_written db dtd u via)) as [Hw|Hw].
    + by rewrite (proj1 (Hrec n' u') Hw), decide_False.
    + by rewrite (proj2 (Hrec n' u') Hw).
  - rewrite Hev. naive_solver.
  - intros ty. rewrite Hev. split; [|by intros [? ->]; right; left].
    intros [?|[?|[(v & old & ? & ? & He)|(t & e & ? & ? & Hi & He)]]]; [naive_solver..|done|].
    pose proof (inconsistency_with_spec t dtd u) as Hs. rewrite Hi in Hs. destruct Hs as (? & ? & ? & _ & _ & ->). done.
  - intros ev [?|[?|[(v & old & Hr & ? & ?)|(t & e & Ht & Hr & Hi & He)]]]%Hev; [naive_solver..| |].
    + right. exists u, v, old. split_and!; [done|by intros _|congruence|congruence].
    + right. pose proof (inconsistency_with_spec t dtd u) as Hs. rewrite Hi in Hs.
      destruct Hs as (s & v & d & Hs & Hty & ->). exists s, v, d. split_and!; [|unfold compared_with; fold n; rewrite Hr; by intros []|done|naive_solver].
      unfold topic_record. by rewrite Ht.
  - intros (s & v & old & Hr & Hc & Hty). unfold compared_with in Hc. fold n in Hc.
    destruct (topic_record db n u) as [[v' old']|] eqn:Eu.
    + rewrite Hc, Eu in Hr by eauto. injection Hr as -> ->. exists u, old. apply Hev. right. right. left. exists v, old. auto.
    + pose proof Hr as Hr2. unfold topic_record in Hr2. destruct (topics db !! n) as [t|] eqn:Et; [|done]. simpl in Hr2.
      pose proof (inconsistency_with_spec t dtd u) as Hs.
      destruct (inconsistency_with t dtd u) as [e|] eqn:Ei; [|by apply Hs in Hr2].
      destruct Hs as (s' & v' & d & _ & _ & ->). exists s', d. apply Hev. right. right. right. by exists t, (inconsistent_topic d s' dtd u).
Qed.

(** The cleaning of topics keeps exactly the topics on which there is a local
    endpoint or a remote one that is not in the attic, with all their records,
    and changes nothing else. *)
Theorem topic_cleanup_correct db :
  let db' := topic_cleanup db in
  (forall n, endpoint_on db n -> topics db' !! n = topics db !! n) /\
  (forall n, ~ endpoint_on db n -> topics db' !! n = None) /\
  db_set_topics db' (topics db) = db.
Proof.
  intros db'. unfold db'. split_and!; [| |by destruct db].
  - intros n Hn%topic_has_endpoint. by rewrite lookup_topic_cleanup, Hn.
  - intros n Hn. rewrite <- topic_has_endpoint in Hn. rewrite lookup_topic_cleanup.
    by destruct (topic_has_writers_or_readers db n).
Qed.

(** ** The description of a local reader *)

(** What the participant announces of its own reader does not depend on the
    QoS of the reader: it is the QoS of the topic.  So there is a reader that
    refuses a writer, while the writer finds the announced QoS compatible with
    its own. *)
Theorem local_reader_announces_topic_qos :
  (forall dp topic g qos qos' db,
     update_local_topic_reader dp topic g qos db = update_local_topic_reader dp topic g qos' db /\
     exists d, get_local_topic_reader (update_local_topic_reader dp topic g qos db) g = Some d /\
       SubscriptionBuiltinTopicData_qos (drd_subscription_topic_data d) = announced_qos (t_qos topic)) /\
  exists topic qos offered,
    compliance_failure_wrt offered (announced_qos (t_qos topic)) = None /\
    compliance_failure_wrt offered (modify_by (t_qos topic) qos) = Some PReliability.
Proof.
  split.
  - intros dp topic g qos qos' db. split; [done|]. eexists. split; [apply lookup_insert_eq|]. apply subscription_qos.
  - exists (mkTopic "Square" "ShapeType" qos_none WithKey), demo_requested, demo_offered. by vm_compute.
Qed.

(** ** Witnesses: one remote participant with a reader *)

Definition demo_prefix : GuidPrefix := mkPrefix (replicate 12 7).
Definition demo_reader_guid : GUID := mkGUID demo_prefix (mkEntityId (0, 0, 1) READER_WITH_KEY_USER_DEFINED).
Definition demo_participant : SpdpDiscoveredParticipantData :=
  mkSPDP 0 (mkVersion 2 3) VendorId_THIS_IMPLEMENTATION false (GUID_new demo_prefix EntityId_PARTICIPANT)
    [] [] [] [] 63 (Some (Duration_from_secs 10)) 0 None None.
Definition demo_reader_data (ty : string) : DiscoveredReaderData :=
  mkDRD (mkReaderProxy demo_reader_guid false [] [])
    (SubscriptionBuiltinTopicData_new demo_reader_guid None "Square" ty qos_none) None.
Definition demo_db_ops : list db_op :=
  [OpUpdateParticipant 0 demo_participant; OpUpdateSubscription 0 (demo_reader_data "ShapeType")].
Definition demo_db : DiscoveryDB :=
  match act_for demo_db_ops db_step (DiscoveryDB_new GUID_UNKNOWN) with
  | Ret (_, db, _) => db
  | _ => DiscoveryDB_new GUID_UNKNOWN
  end.
(** After 11 seconds of silence. *)
Definition demo_lost_db : DiscoveryDB := (participant_cleanup 11000000000 demo_db).2.

Lemma demo_db_ops_ok : Forall op_ok demo_db_ops.
Proof. repeat constructor; by vm_compute. Qed.

Lemma demo_db_inv : db_inv demo_db.
Proof.
  pose proof (db_run_inv demo_db_ops _ demo_db_ops_ok (DiscoveryDB_new_inv GUID_UNKNOWN)) as H.
  unfold wp in H. unfold demo_db. by destruct (act_for _ _ _) as [[[? ?] ?]|w|].
Qed.

Lemma demo_clock : clock_ok demo_db 11000000000.
Proof.
  assert (participant_last_life_signs demo_db = {[demo_prefix := 0]}) as Hl by by vm_compute.
  assert (participant_proxies demo_db = {[demo_prefix := demo_participant]}) as Hp by by vm_compute.
  split; intros p x; [rewrite Hl|rewrite Hp]; intros [<- <-]%lookup_singleton_Some; by vm_compute.
Qed.

Lemma db_reachable_inv_witness :
  wp (act_for demo_db_ops db_step) (DiscoveryDB_new GUID_UNKNOWN) (fun _ db _ => db_inv db).
Proof. apply db_reachable_inv. exact demo_db_ops_ok. Defined.

Lemma lost_participant_returns_witness :
  wp (act_for [OpRemoveParticipant demo_prefix false; OpParticipantCleanup 5; OpTopicCleanup] db_step) demo_db
    (fun _ db1 _ => external_topic_readers (update_participant 9 demo_participant db1).2 !! demo_reader_guid =
                    Some (demo_reader_data "ShapeType")).
Proof.
  eapply wp_mono.
  - apply (lost_participant_returns demo_prefix false [OpParticipantCleanup 5; OpTopicCleanup] 9 demo_participant demo_db).
    + exact demo_db_inv.
    + eexists. by vm_compute.
    + repeat constructor.
    + repeat constructor; simpl; tauto.
    + done.
  - intros u db1 evs (_ & _ & _ & H). destruct (H demo_reader_guid eq_refl) as [-> _]. by vm_compute.
Defined.

Lemma attic_overwrites_newer_witness :
  wp (update_subscription 12 (demo_reader_data "NewType")) demo_lost_db (fun _ db1 _ =>
    external_topic_readers db1 !! demo_reader_guid = Some (demo_reader_data "NewType") /\
    external_topic_readers (update_participant 13 demo_participant db1).2 !! demo_reader_guid =
      Some (demo_reader_data "ShapeType")).
Proof.
  apply attic_overwrites_newer.
  - apply participant_cleanup_inv, demo_db_inv.
  - by vm_compute.
  - done.
  - done.
Defined.

Lemma participant_cleanup_correct_witness :
  demo_prefix ∈ (participant_cleanup 11000000000 demo_db).1.*1 /\
  external_topic_readers_attic demo_lost_db !! demo_reader_guid = Some (demo_reader_data "ShapeType").
Proof.
  pose proof (participant_cleanup_correct 11000000000 demo_db demo_db_inv demo_clock) as H.
  unfold demo_lost_db. destruct (participant_cleanup 11000000000 demo_db) as [removed db'] eqn:E.
  destruct H as (Hin & _ & _ & Hg & _).
  assert (demo_prefix ∈ removed.*1) as Hr.
  { apply Hin. exists demo_participant, 0. split; [by vm_compute|]. split; [by vm_compute|]. by vm_compute. }
  split; [done|]. destruct (Hg demo_reader_guid Hr) as (_ & Ha & _). cbn [snd]. rewrite Ha. by vm_compute.
Defined.
