(* ===== verification/HistoryBuffer.v ===== *)
(** * The writer's history buffer

    [AckWaiter] and [HistoryBuffer] of [src/rtps/writer.rs]: the changes a
    writer can still send, found by sequence number through the time stamp they
    were added at.  Refined to a finite map from sequence numbers to changes. *)

From S2P Require Import Prelude BTree SequenceNumbers Time Guid Payload.

Record HistoryBuffer := mkHist {
  first_seq : SequenceNumber;
  last_seq : SequenceNumber;
  sequence_number_to_instant : gmap SequenceNumber Timestamp;
  hist_changes : gmap Timestamp CacheChange;
}.

Definition HistoryBuffer_new : HistoryBuffer := mkHist (SequenceNumber_new 1) (SequenceNumber_new 0) ∅ ∅.

Definition last_change_sequence_number (h : HistoryBuffer) : SequenceNumber := last_seq h.
Definition first_change_sequence_number (h : HistoryBuffer) : SequenceNumber := first_seq h.
Definition HistoryBuffer_get_change (h : HistoryBuffer) (ts : Timestamp) : option CacheChange := hist_changes h !! ts.
Definition get_by_sn (h : HistoryBuffer) (sn : SequenceNumber) : option CacheChange :=
  ts ← sequence_number_to_instant h !! sn; HistoryBuffer_get_change h ts.

Definition HistoryBuffer_add_change (h : HistoryBuffer) (timestamp : Timestamp) (new_cache_change : CacheChange)
  : HistoryBuffer :=
  let new_seq := cc_sequence_number new_cache_change in
  mkHist (first_seq h) (if last_change_sequence_number h <? new_seq then new_seq else last_seq h)
    (<[new_seq := timestamp]> (sequence_number_to_instant h))
    (<[timestamp := new_cache_change]> (hist_changes h)).

Definition HistoryBuffer_remove_changes_before (h : HistoryBuffer) (remove_before_seq : SequenceNumber)
  : HistoryBuffer :=
  match sequence_number_to_instant h !! remove_before_seq with
  | Some remove_before =>
      mkHist (if first_seq h <=? remove_before_seq then remove_before_seq else first_seq h) (last_seq h)
        (bt_from remove_before_seq (sequence_number_to_instant h)) (bt_from remove_before (hist_changes h))
  | None => h
  end.

(** The waiter's channel is a number that identifies it. *)
Record AckWaiter := mkAckWaiter {
  wait_until : SequenceNumber;
  complete_channel : Z;
  readers_pending : gset GUID;
}.

Definition reader_acked_or_lost (aw : AckWaiter) (guid : GUID) (acked_before : option SequenceNumber)
  : bool * AckWaiter :=
  let pending := match acked_before with
                 | None => readers_pending aw ∖ {[guid]}
                 | Some acked_before =>
                     if wait_until aw <? acked_before then readers_pending aw ∖ {[guid]} else readers_pending aw
                 end in
  (bool_decide (pending = ∅), mkAckWaiter (wait_until aw) (complete_channel aw) pending).

(** ** Refinement to a map from sequence numbers *)

(** Index and changes agree, time stamps ascend with sequence numbers, and
    everything is between the advertised first and last number. *)
Record hist_inv (h : HistoryBuffer) : Prop := {
  hist_bounds : 1 <= first_seq h <= last_seq h + 1 /\ last_seq h < i64_max;
  hist_index : forall sn t, sequence_number_to_instant h !! sn = Some t ->
    first_seq h <= sn <= last_seq h /\ exists cc, hist_changes h !! t = Some cc /\ cc_sequence_number cc = sn;
  hist_indexed : forall t cc, hist_changes h !! t = Some cc ->
    sequence_number_to_instant h !! cc_sequence_number cc = Some t;
  hist_order : forall sn1 sn2 t1 t2, sequence_number_to_instant h !! sn1 = Some t1 ->
    sequence_number_to_instant h !! sn2 = Some t2 -> sn1 < sn2 -> klt t1 t2;
}.

(** The clock has advanced past every stored time stamp. *)
Definition fresh_time (h : HistoryBuffer) (now : Timestamp) : Prop :=
  forall t, is_Some (hist_changes h !! t) -> klt t now.

Lemma hist_new_inv : hist_inv HistoryBuffer_new.
Proof. split; simpl; [done|intros *; rewrite lookup_empty; done..]. Qed.

Lemma get_by_sn_Some h sn cc :
  hist_inv h -> get_by_sn h sn = Some cc <->
  exists t, sequence_number_to_instant h !! sn = Some t /\ hist_changes h !! t = Some cc.
Proof. intros _. unfold get_by_sn. rewrite bind_Some. done. Qed.

Lemma get_by_sn_bounds h sn cc :
  hist_inv h -> get_by_sn h sn = Some cc -> first_seq h <= sn <= last_seq h /\ cc_sequence_number cc = sn.
Proof.
  intros Hi (t & Ht & Hc)%get_by_sn_Some; [|done]. destruct (hist_index h Hi sn t Ht) as [? (cc' & Hc' & <-)].
  split; [done|congruence].
Qed.

Lemma hist_add_fresh_index h now sn t :
  hist_inv h -> fresh_time h now -> sequence_number_to_instant h !! sn = Some t -> klt t now.
Proof. intros Hi Hf Ht. destruct (hist_index h Hi sn t Ht) as [_ (cc & Hc & _)]. apply Hf. by eexists. Qed.

Lemma hist_add_inv h now cc :
  hist_inv h -> fresh_time h now -> last_seq h < cc_sequence_number cc < i64_max ->
  hist_inv (HistoryBuffer_add_change h now cc).
Proof.
  intros Hi Hf Hsn. pose proof (hist_bounds h Hi) as [Hb Hb2].
  assert (hist_changes h !! now = None) as Hnow.
  { destruct (hist_changes h !! now) eqn:E; [|done]. destruct (irreflexivity klt now). apply Hf. by eexists. }
  unfold HistoryBuffer_add_change, last_change_sequence_number. destruct (Z.ltb_spec (last_seq h) (cc_sequence_number cc)); [|lia].
  split; simpl.
  - lia.
  - intros sn t. rewrite lookup_insert_Some. intros [[<- <-]|[Hne Ht]].
    + split; [lia|]. exists cc. by rewrite lookup_insert_eq.
    + destruct (hist_index h Hi sn t Ht) as [? (cc' & Hc' & <-)]. split; [lia|]. exists cc'.
      split; [|done]. rewrite lookup_insert_ne; [done|]. intros <-. congruence.
  - intros t c. rewrite lookup_insert_Some. intros [[<- <-]|[Hne Hc]]; [by rewrite lookup_insert_eq|].
    pose proof (hist_indexed h Hi t c Hc) as Hx. pose proof (hist_index h Hi _ _ Hx) as [? _].
    rewrite lookup_insert_ne by lia. done.
  - intros sn1 sn2 t1 t2. rewrite !lookup_insert_Some. intros [[<- <-]|[? H1]] [[<- <-]|[? H2]] Hlt.
    + lia.
    + pose proof (hist_index h Hi _ _ H2) as [? _]. lia.
    + by eapply hist_add_fresh_index.
    + by eapply (hist_order h Hi sn1 sn2).
Qed.

Lemma get_by_sn_add h now cc sn :
  hist_inv h -> fresh_time h now ->
  get_by_sn (HistoryBuffer_add_change h now cc) sn
  = if decide (sn = cc_sequence_number cc) then Some cc else get_by_sn h sn.
Proof.
  intros Hi Hf. unfold get_by_sn, HistoryBuffer_get_change; simpl. case_decide as Hd.
  - subst. rewrite lookup_insert_eq. simpl. by rewrite lookup_insert_eq.
  - rewrite lookup_insert_ne by done. destruct (sequence_number_to_instant h !! sn) as [t|] eqn:E; simpl; [|done].
    rewrite lookup_insert_ne; [done|]. intros <-. apply (irreflexivity klt now). by eapply hist_add_fresh_index.
Qed.

(** Time stamps and sequence numbers order the entries the same way. *)
Lemma hist_order_iff h sn1 sn2 t1 t2 :
  hist_inv h -> sequence_number_to_instant h !! sn1 = Some t1 ->
  sequence_number_to_instant h !! sn2 = Some t2 -> kle t1 t2 <-> sn1 <= sn2.
Proof.
  intros Hi H1 H2. split.
  - intros Hle. destruct (decide (sn2 < sn1)) as [Hlt|]; [|lia].
    pose proof (hist_order h Hi _ _ _ _ H2 H1 Hlt) as Hk. by apply klt_nle in Hk.
  - intros Hle. destruct (decide (sn1 = sn2)) as [->|]; [assert (t1 = t2) as -> by congruence; by apply kle_lteq; right|].
    apply klt_kle. eapply (hist_order h Hi); [done..|lia].
Qed.

Lemma get_by_sn_remove h before sn :
  hist_inv h ->
  get_by_sn (HistoryBuffer_remove_changes_before h before) sn
  = if decide (is_Some (get_by_sn h before) /\ sn < before) then None else get_by_sn h sn.
Proof.
  intros Hi. unfold HistoryBuffer_remove_changes_before.
  destruct (sequence_number_to_instant h !! before) as [tb|] eqn:Eb.
  2: { rewrite decide_False; [done|]. unfold get_by_sn. rewrite Eb. by intros [[? [=]] _]. }
  assert (is_Some (get_by_sn h before)) as Hsome.
  { destruct (hist_index h Hi _ _ Eb) as [_ (cc & Hc & _)]. exists cc. apply get_by_sn_Some; by eauto. }
  unfold get_by_sn at 1, HistoryBuffer_get_change; simpl. rewrite lookup_bt_from.
  case_decide as Hle; rewrite kle_Z in Hle.
  - rewrite (decide_False (P := _ /\ _)) by lia. unfold get_by_sn.
    destruct (sequence_number_to_instant h !! sn) as [t|] eqn:E; simpl; [|done].
    rewrite lookup_bt_from, decide_True; [done|]. by eapply hist_order_iff.
  - rewrite (decide_True (P := _ /\ _)) by (split; [done|lia]). done.
Qed.

Lemma hist_remove_inv h before : hist_inv h -> hist_inv (HistoryBuffer_remove_changes_before h before).
Proof.
  intros Hi. unfold HistoryBuffer_remove_changes_before.
  destruct (sequence_number_to_instant h !! before) as [tb|] eqn:Eb; [|done].
  pose proof (hist_bounds h Hi) as [Hb Hb2]. pose proof (hist_index h Hi _ _ Eb) as [Hbb _].
  destruct (Z.leb_spec (first_seq h) before); [|lia]. split; simpl.
  - lia.
  - intros sn t. rewrite lookup_bt_from. case_decide as Hle; rewrite kle_Z in Hle; [|done]. intros Ht.
    destruct (hist_index h Hi _ _ Ht) as [? (cc & Hc & Hcc)]. split; [lia|]. exists cc. split; [|done].
    rewrite lookup_bt_from, decide_True; [done|]. by eapply hist_order_iff.
  - intros t cc. rewrite !lookup_bt_from. case_decide as Hk; [|done]. intros Hc.
    pose proof (hist_indexed h Hi _ _ Hc) as Hx. rewrite decide_True; [done|]. rewrite kle_Z. by eapply hist_order_iff.
  - intros sn1 sn2 t1 t2. rewrite !lookup_bt_from. repeat case_decide; try done. by apply (hist_order h Hi).
Qed.

(** The abstract history: a map from sequence numbers to changes. *)
Definition hist_map (h : HistoryBuffer) : gmap SequenceNumber CacheChange :=
  omap (fun t => hist_changes h !! t) (sequence_number_to_instant h).

Inductive hist_op :=
| HAdd (now : Timestamp) (cc : CacheChange)
| HRemoveBefore (sn : SequenceNumber).

Definition hist_step (h : HistoryBuffer) (op : hist_op) : HistoryBuffer :=
  match op with
  | HAdd now cc => HistoryBuffer_add_change h now cc
  | HRemoveBefore sn => HistoryBuffer_remove_changes_before h sn
  end.

(** A removal up to a number that is not there is ignored. *)
Definition spec_step (m : gmap SequenceNumber CacheChange) (op : hist_op) : gmap SequenceNumber CacheChange :=
  match op with
  | HAdd _ cc => <[cc_sequence_number cc := cc]> m
  | HRemoveBefore sn => if decide (is_Some (m !! sn)) then bt_from sn m else m
  end.

(** The clock advances and sequence numbers ascend at every addition. *)
Fixpoint hist_valid (h : HistoryBuffer) (ops : list hist_op) : Prop :=
  match ops with
  | [] => True
  | op :: ops =>
      match op with
      | HAdd now cc => fresh_time h now /\ last_seq h < cc_sequence_number cc < i64_max
      | HRemoveBefore _ => True
      end /\ hist_valid (hist_step h op) ops
  end.

Lemma lookup_hist_map h sn : hist_map h !! sn = get_by_sn h sn.
Proof. unfold hist_map. by rewrite lookup_omap. Qed.

Lemma hist_step_refines h op :
  hist_inv h -> hist_valid h [op] ->
  hist_inv (hist_step h op) /\ hist_map (hist_step h op) = spec_step (hist_map h) op.
Proof.
  intros Hi. destruct op as [now cc|before]; simpl.
  - intros [[Hf Hsn] _]. split; [by apply hist_add_inv|]. apply map_eq. intros sn.
    rewrite lookup_hist_map, get_by_sn_add by done. case_decide as Hd.
    + subst. by rewrite lookup_insert_eq.
    + by rewrite lookup_insert_ne, lookup_hist_map by done.
  - intros _. split; [by apply hist_remove_inv|]. apply map_eq. intros sn.
    rewrite lookup_hist_map, get_by_sn_remove by done.
    destruct (decide (is_Some (hist_map h !! before))) as [Hs|Hs]; rewrite lookup_hist_map in Hs.
    + rewrite lookup_bt_from. repeat case_decide; rewrite ?kle_Z, ?lookup_hist_map in *; try done; (lia || naive_solver lia).
    + rewrite decide_False by tauto. by rewrite lookup_hist_map.
Qed.

(** C17: with a clock that advances and ascending sequence numbers, the two maps
    of the history buffer behave as one map from sequence numbers to changes:
    adding stores under the number of the change, and cleaning before a stored
    number removes exactly the smaller ones; all stored numbers lie within the
    range the writer advertises. *)
Theorem history_buffer_refines h ops :
  hist_inv h -> hist_valid h ops ->
  hist_inv (foldl hist_step h ops) /\
  hist_map (foldl hist_step h ops) = foldl spec_step (hist_map h) ops /\
  (forall sn cc, hist_map (foldl hist_step h ops) !! sn = Some cc ->
     first_seq (foldl hist_step h ops) <= sn <= last_seq (foldl hist_step h ops) /\ cc_sequence_number cc = sn).
Proof.
  intros Hi Hv.
  assert (hist_inv (foldl hist_step h ops) /\ hist_map (foldl hist_step h ops) = foldl spec_step (hist_map h) ops)
    as [Hi' Hm].
  { revert h Hi Hv. induction ops as [|op ops IH]; intros h Hi Hv; [done|]. simpl in *.
    destruct Hv as [Hop Hv]. destruct (hist_step_refines h op Hi) as [Hi' Hm]; [by destruct op|].
    rewrite <- Hm. by apply IH. }
  split; [done|]. split; [done|]. intros sn cc. rewrite lookup_hist_map. by apply get_by_sn_bounds.
Qed.

Definition demo_hcc (sn : SequenceNumber) : CacheChange :=
  mkCacheChange GUID_UNKNOWN sn (mkWriteOptions None None None) (DData (mkPayload (mkRepId (0, 1)) (0, 0) [sn])).
Definition demo_hops : list hist_op :=
  [HAdd (mkTimestamp 1 0) (demo_hcc 1); HAdd (mkTimestamp 2 0) (demo_hcc 2); HRemoveBefore 2].

Lemma history_buffer_refines_witness :
  hist_map (foldl hist_step HistoryBuffer_new demo_hops) = {[2 := demo_hcc 2]}.
Proof.
  destruct (history_buffer_refines HistoryBuffer_new demo_hops) as (_ & -> & _).
  - apply hist_new_inv.
  - split; [split|split; [split|split; [exact I|exact I]]].
    + intros t [c Hc]. discriminate Hc.
    + vm_compute. split; reflexivity.
    + intros t [c Hc]. cbn in Hc. apply lookup_insert_Some in Hc as [[<- _]|[_ Hc]]; [reflexivity|discriminate Hc].
    + vm_compute. split; reflexivity.
  - vm_compute. reflexivity.
Defined.

(** When the clock steps back between two additions, cleaning before the first
    of them loses the second, which stays in the index. *)
Example clock_step_back_loses_change :
  let h := HistoryBuffer_add_change (HistoryBuffer_add_change HistoryBuffer_new (mkTimestamp 10 0) (demo_hcc 1))
             (mkTimestamp 5 0) (demo_hcc 2) in
  get_by_sn h 2 = Some (demo_hcc 2) /\ get_by_sn (HistoryBuffer_remove_changes_before h 1) 2 = None /\
  last_seq (HistoryBuffer_remove_changes_before h 1) = 2.
Proof. vm_compute. done. Qed.
