(* ===== verification/Writer.v ===== *)
(** * The stateful writer

    [src/rtps/writer.rs]: the RTPS writer that keeps a history of changes, a
    proxy for every matched reader, and reacts to commands from the application,
    to timers, and to ACKNACK and NACKFRAG submessages.  What leaves the writer
    - datagrams, timers, status notifications - is a list of events.  Clock
    readings and the commands waiting in the channel are arguments; the delays
    of [std::time] are nanosecond counts.  Built without the [security] feature,
    which encodes messages on their way out. *)

From S2P Require Import Prelude BTree Wire SequenceNumbers Time Guid Locator Qos StatusEvents Payload Submessages Headers MessageBuilder ReaderProxy HistoryBuffer.

Inductive DeliveryMode := Unicast | Multicast.

Inductive TimedEvent :=
| TEHeartbeat
| TECacheCleaning
| TESendRepairData (to_reader : GUID)
| TESendRepairFrags (to_reader : GUID).

#[export] Instance TimedEvent_eq_dec : EqDecision TimedEvent.
Proof. solve_decision. Defined.

Inductive WriterEvent :=
| EvSend (m : Message) (loc : Locator)
| EvSetTimeout (delay : Z) (e : TimedEvent)
| EvStatus (s : DataWriterStatus)
| EvParticipantStatus (s : DomainParticipantStatusEvent)
| EvAllAcked (channel : Z).

Inductive WriterCommand :=
| WCData (ddsdata : DDSData) (write_options : WriteOptions) (sequence_number : SequenceNumber)
| WCWaitForAcknowledgments (all_acked : Z).

Record Writer := mkWriter {
  endianness : Endianness;
  heartbeat_message_counter : Z;
  push_mode : bool;
  heartbeat_period : option Duration;
  cache_cleaning_period : Duration;
  nack_response_delay : Z;
  nackfrag_response_delay : Z;
  repairfrags_continue_delay : Z;
  data_max_size_serialized : Z;
  w_my_guid : GUID;
  readers : gmap GUID RtpsReaderProxy;
  matched_readers_count_total : Z;
  requested_incompatible_qos_count : Z;
  like_stateless : bool;
  w_topic_name : string;
  w_history : HistoryBuffer;
  w_qos : QosPolicies;
  ack_waiter : option AckWaiter;
}.

Section setters.
Implicit Types w : Writer.
Definition w_set_counter w (x : Z) : Writer :=
  mkWriter (endianness w) x (push_mode w) (heartbeat_period w) (cache_cleaning_period w)
    (nack_response_delay w) (nackfrag_response_delay w) (repairfrags_continue_delay w)
    (data_max_size_serialized w) (w_my_guid w) (readers w) (matched_readers_count_total w)
    (requested_incompatible_qos_count w) (like_stateless w) (w_topic_name w) (w_history w)
    (w_qos w) (ack_waiter w).
Definition w_set_readers w (x : gmap GUID RtpsReaderProxy) : Writer :=
  mkWriter (endianness w) (heartbeat_message_counter w) (push_mode w) (heartbeat_period w)
    (cache_cleaning_period w) (nack_response_delay w) (nackfrag_response_delay w)
    (repairfrags_continue_delay w) (data_max_size_serialized w) (w_my_guid w) x
    (matched_readers_count_total w) (requested_incompatible_qos_count w) (like_stateless w)
    (w_topic_name w) (w_history w) (w_qos w) (ack_waiter w).
Definition w_set_matched w (x : Z) : Writer :=
  mkWriter (endianness w) (heartbeat_message_counter w) (push_mode w) (heartbeat_period w)
    (cache_cleaning_period w) (nack_response_delay w) (nackfrag_response_delay w)
    (repairfrags_continue_delay w) (data_max_size_serialized w) (w_my_guid w) (readers w) x
    (requested_incompatible_qos_count w) (like_stateless w) (w_topic_name w) (w_history w)
    (w_qos w) (ack_waiter w).
Definition w_set_incompatible w (x : Z) : Writer :=
  mkWriter (endianness w) (heartbeat_message_counter w) (push_mode w) (heartbeat_period w)
    (cache_cleaning_period w) (nack_response_delay w) (nackfrag_response_delay w)
    (repairfrags_continue_delay w) (data_max_size_serialized w) (w_my_guid w) (readers w)
    (matched_readers_count_total w) x (like_stateless w) (w_topic_name w) (w_history w) (w_qos w)
    (ack_waiter w).
Definition w_set_history w (x : HistoryBuffer) : Writer :=
  mkWriter (endianness w) (heartbeat_message_counter w) (push_mode w) (heartbeat_period w)
    (cache_cleaning_period w) (nack_response_delay w) (nackfrag_response_delay w)
    (repairfrags_continue_delay w) (data_max_size_serialized w) (w_my_guid w) (readers w)
    (matched_readers_count_total w) (requested_incompatible_qos_count w) (like_stateless w)
    (w_topic_name w) x (w_qos w) (ack_waiter w).
Definition w_set_ack_waiter w (x : option AckWaiter) : Writer :=
  mkWriter (endianness w) (heartbeat_message_counter w) (push_mode w) (heartbeat_period w)
    (cache_cleaning_period w) (nack_response_delay w) (nackfrag_response_delay w)
    (repairfrags_continue_delay w) (data_max_size_serialized w) (w_my_guid w) (readers w)
    (matched_readers_count_total w) (requested_incompatible_qos_count w) (like_stateless w)
    (w_topic_name w) (w_history w) (w_qos w) x.
End setters.

Abbreviation W := (act Writer WriterEvent).

Definition NACK_RESPONSE_DELAY : Z := 200 * 1000000.

(** The ingredients that matter: GUID, topic, statelessness, policies. *)
Definition Writer_new (guid : GUID) (topic_name : string) (stateless : bool) (qos : QosPolicies)
  : outcome (Writer * list WriterEvent) :=
  if stateless && is_reliable qos
  then Panic "Attempted to create a stateless-like Writer with other than BestEffort reliability"
  else
    period ← match reliability qos with
             | Some (Reliable _) =>
                 match liveliness qos with
                 | Some (ManualByTopic lease_duration) => d ← Duration_div lease_duration 3; Ret (Some d)
                 | _ => Ret (Some (Duration_from_secs 1))
                 end
             | _ => Ret None
             end;
    let cleaning := Duration_from_secs (2 * 60) in
    Ret (mkWriter LittleEndian 1 true period cleaning NACK_RESPONSE_DELAY NACK_RESPONSE_DELAY 1000000
           1024 guid ∅ 0 0 stateless topic_name HistoryBuffer_new qos None,
         match period with
         | Some p => [EvSetTimeout (Duration_to_std_nanos p) TEHeartbeat]
         | None => []
         end ++ [EvSetTimeout (Duration_to_std_nanos cleaning) TECacheCleaning]).

Definition w_entity_id (w : Writer) : EntityId := entity_id (w_my_guid w).

Definition local_readers (w : Writer) : list EntityId :=
  let min := mkGUID (prefix (w_my_guid w)) EntityId_MIN in
  let max := mkGUID (prefix (w_my_guid w)) EntityId_MAX in
  omap (fun g => if decide (prefix g = prefix (w_my_guid w)) then Some (entity_id g) else None)
    (filter (in_range (min, max)) (bt_keys (readers w))).

(** ** Sending *)

(** The locators chosen for one reader. *)
Definition locators_for (preferred_mode : DeliveryMode) (rp : RtpsReaderProxy) : list Locator :=
  let uc := existsb Locator_is_udp (unicast_locator_list rp) in
  let mc := existsb Locator_is_udp (multicast_locator_list rp) in
  match preferred_mode, uc, mc with
  | Multicast, _, true => multicast_locator_list rp
  | Unicast, true, _ => unicast_locator_list rp
  | _, _, true => multicast_locator_list rp
  | _, true, _ => unicast_locator_list rp
  | _, false, false => []
  end.

(** [send_unless_sent_and_mark!]: the locators sent to so far, in order. *)
Definition send_unless_sent_and_mark (already_sent_to locs : list Locator) : list Locator :=
  foldl (fun sent loc => if decide (loc ∈ sent) then sent else sent ++ [loc]) already_sent_to locs.

Definition send_targets (preferred_mode : DeliveryMode) (rps : list RtpsReaderProxy) : list Locator :=
  foldl (fun sent rp => send_unless_sent_and_mark sent (locators_for preferred_mode rp)) [] rps.

Definition send_message_to_readers (preferred_mode : DeliveryMode) (message : Message)
    (rps : list RtpsReaderProxy) : W unit :=
  act_for (send_targets preferred_mode rps) (fun loc => emit_ev (EvSend message loc)).

(** [AtomicI32::fetch_add] *)
Definition next_heartbeat_count : W Z :=
  w ← get_st;
  _ ← modify_st (fun w => w_set_counter w (i32 (heartbeat_message_counter w + 1)));
  mret (heartbeat_message_counter w).

Definition num_frags_and_frag_size (w : Writer) (payload_size : Z) : outcome (Z * Z) :=
  let fragment_size := u32 (data_max_size_serialized w) in
  let data_size := u32 payload_size in
  _ ← rust_assert (negb (fragment_size =? 0)) "attempt to divide by zero";
  let num_frags := u32 (data_size / fragment_size + (if data_size mod fragment_size =? 0 then 0 else 1)) in
  Ret (num_frags, u16 fragment_size).

Section writer.
Context `{SP : Speedy}.

(** A HEARTBEAT of the present range, to [reader_entity_id]. *)
Definition push_heartbeat (mb : MessageBuilder) (reader_entity_id : EntityId) (liveliness_flag : bool)
  : W MessageBuilder :=
  w ← get_st;
  c ← next_heartbeat_count;
  mret (heartbeat_msg mb (w_entity_id w) (first_change_sequence_number (w_history w))
          (last_change_sequence_number (w_history w)) c (endianness w) reader_entity_id false liveliness_flag).

(** May the change be sent to the target? *)
Definition target_allowed (cc : CacheChange) (target_reader_opt : option RtpsReaderProxy) : bool :=
  match to_single_reader (cc_write_options cc), target_reader_opt with
  | Some _, None => false
  | Some single_reader_guid, Some target_reader =>
      bool_decide (single_reader_guid = remote_reader_guid target_reader)
  | None, _ => true
  end.

Definition push_source_timestamp (w : Writer) (mb : MessageBuilder) (cc : CacheChange) : MessageBuilder :=
  match source_timestamp (cc_write_options cc) with
  | Some src_ts => ts_msg mb (endianness w) (Some src_ts)
  | None => mb
  end.

Definition push_destination (w : Writer) (mb : MessageBuilder) (target : option RtpsReaderProxy) : MessageBuilder :=
  match target with
  | Some reader => dst_submessage mb (endianness w) (prefix (remote_reader_guid reader))
  | None => mb
  end.

(** A GAP for what the reader is pending, if anything. *)
Definition push_pending_gap (w : Writer) (mb : MessageBuilder) (reader : RtpsReaderProxy) : outcome MessageBuilder :=
  if decide (pending_gap reader = ∅) then Ret mb
  else gap_msg mb (pending_gap reader) (w_entity_id w) (endianness w) (remote_reader_guid reader).

(** The DATA message of a change that needs no fragmentation. *)
Definition data_message (cc : CacheChange) (send_also_heartbeat : bool)
    (target : option RtpsReaderProxy) (reader_entity_id : EntityId) : W Message :=
  w ← get_st;
  let mb := push_destination w (push_source_timestamp w [] cc) target in
  mb ← lift_outcome (match target with Some reader => push_pending_gap w mb reader | None => Ret mb end);
  let mb := data_msg mb cc reader_entity_id (w_my_guid w) (endianness w) in
  mb ← (if send_also_heartbeat && negb (like_stateless w)
        then push_heartbeat mb reader_entity_id false else mret mb);
  mret (add_header_and_build mb (prefix (w_my_guid w))).

(** The messages of a change that is sent in fragments. *)
Definition frag_messages (w : Writer) (cc : CacheChange) (target : option RtpsReaderProxy)
    (reader_entity_id : EntityId) (data_size : Z) : outcome (list Message) :=
  '(num_frags, fragment_size) ← num_frags_and_frag_size w data_size;
  frag_nums ← FragmentNumberRange_list (FragmentNumber_new 1) (FragmentNumber_new num_frags);
  outcome_fold (fun msgs frag_num =>
    let mb := push_destination w (push_source_timestamp w [] cc) target in
    _ ← rust_assert (data_size <? 2 ^ 32) "called `Result::unwrap()` on an `Err` value";
    mb ← data_frag_msg mb cc reader_entity_id (w_my_guid w) frag_num fragment_size data_size (endianness w);
    Ret (msgs ++ [add_header_and_build mb (prefix (w_my_guid w))])) [] frag_nums.

Definition frag_gap_message (w : Writer) (target : option RtpsReaderProxy) : outcome (list Message) :=
  match target with
  | Some reader =>
      if decide (pending_gap reader = ∅) then Ret []
      else mb ← gap_msg (dst_submessage [] (endianness w) (prefix (remote_reader_guid reader)))
                  (pending_gap reader) (w_entity_id w) (endianness w) (remote_reader_guid reader);
           Ret [add_header_and_build mb (prefix (w_my_guid w))]
  | None => Ret []
  end.

(** Returns whether the data had to be fragmented. *)
Definition send_cache_change (cc : CacheChange) (send_also_heartbeat : bool)
    (target_reader_opt : option RtpsReaderProxy) : W bool :=
  if negb (target_allowed cc target_reader_opt) then mret false
  else
    w ← get_st;
    let reader_entity_id := match target_reader_opt with
                            | Some p => entity_id (remote_reader_guid p) | None => EntityId_UNKNOWN end in
    let data_size := DDSData_payload_size (cc_data_value cc) in
    let fragmentation_needed := data_max_size_serialized w <? data_size in
    messages_to_send ←
      (if negb fragmentation_needed then
         m ← data_message cc send_also_heartbeat target_reader_opt reader_entity_id; mret [m]
       else
         gaps ← lift_outcome (frag_gap_message w target_reader_opt);
         frags ← lift_outcome (frag_messages w cc target_reader_opt reader_entity_id data_size);
         hb ← (if send_also_heartbeat && negb (like_stateless w) then
                 mb ← push_heartbeat [] reader_entity_id false;
                 mret [add_header_and_build mb (prefix (w_my_guid w))]
               else mret []);
         mret (gaps ++ frags ++ hb));
    _ ← act_for messages_to_send (fun msg =>
          match target_reader_opt with
          | None => send_message_to_readers Multicast msg (bt_values (readers w))
          | Some reader_proxy => send_message_to_readers Unicast msg [reader_proxy]
          end);
    mret fragmentation_needed.

(** ** Commands from the application *)

Definition insert_to_history_buffer (now : Timestamp) (data : DDSData) (write_options : WriteOptions)
    (new_sequence_number : SequenceNumber) : W Timestamp :=
  _ ← lift_outcome (rust_assert (SequenceNumber_zero <? new_sequence_number)
        "assertion failed: new_sequence_number > SequenceNumber::zero()");
  _ ← modify_st (fun w => w_set_history w
        (HistoryBuffer_add_change (w_history w) now
           (mkCacheChange (w_my_guid w) new_sequence_number write_options data)));
  mret now.

(** What a new change does to one reader proxy. *)
Definition notify_reader (write_options : WriteOptions) (sequence_number : SequenceNumber)
    (reader : RtpsReaderProxy) : RtpsReaderProxy :=
  let reader := notify_new_cache_change reader sequence_number in
  match to_single_reader write_options with
  | Some single_reader_guid =>
      if decide (remote_reader_guid reader = single_reader_guid) then reader
      else insert_pending_gap reader sequence_number
  | None => reader
  end.

Definition process_data_command (now : Timestamp) (dds_data : DDSData) (write_options : WriteOptions)
    (sequence_number : SequenceNumber) : W unit :=
  timestamp ← insert_to_history_buffer now dds_data write_options sequence_number;
  _ ← modify_st (fun w =>
        if like_stateless w then w else w_set_readers w (notify_reader write_options sequence_number <$> readers w));
  w ← get_st;
  if push_mode w then
    match HistoryBuffer_get_change (w_history w) timestamp with
    | Some cc =>
        let target_reader_opt := to_single_reader write_options ≫= (readers w !!.) in
        _ ← send_cache_change cc true target_reader_opt; mret tt
    | None => mret tt
    end
  else
    mb ← push_heartbeat [] EntityId_UNKNOWN false;
    send_message_to_readers Multicast (add_header_and_build mb (prefix (w_my_guid w))) (bt_values (readers w)).

(** The readers that have yet to acknowledge everything up to [wait_until]. *)
Definition waiting_for (w : Writer) (wait_until : SequenceNumber) : gset GUID :=
  list_to_set (omap (fun e => if is_reliable (rp_qos e.2) && (all_acked_before e.2 <=? wait_until)
                              then Some e.1 else None) (bt_iter (readers w))).

(** [false]: stop processing the queue. *)
Definition process_wait_command (all_acked : Z) : W bool :=
  w ← get_st;
  if like_stateless w then _ ← emit_ev (EvAllAcked all_acked); mret false
  else
    let until := last_change_sequence_number (w_history w) in
    let pending := waiting_for w until in
    _ ← (if decide (pending = ∅)
         then _ ← emit_ev (EvAllAcked all_acked); modify_st (fun w => w_set_ack_waiter w None)
         else modify_st (fun w => w_set_ack_waiter w (Some (mkAckWaiter until all_acked pending))));
    mret true.

(** The commands in the channel with the clock reading at each; returns those
    left in it. *)
Fixpoint process_writer_command (queue : list (Timestamp * WriterCommand)) : W (list (Timestamp * WriterCommand)) :=
  match queue with
  | [] => mret []
  | (now, WCData data opts sn) :: queue => _ ← process_data_command now data opts sn; process_writer_command queue
  | (_, WCWaitForAcknowledgments ch) :: queue =>
      go_on ← process_wait_command ch;
      if go_on : bool then process_writer_command queue else mret queue
  end.

(** ** Heartbeats *)

Definition handle_heartbeat_tick (now : Timestamp) (is_manual_assertion : bool) : W unit :=
  w ← get_st;
  if like_stateless w then mret tt
  else
    let last_change := last_change_sequence_number (w_history w) in
    if forallb (fun rp => last_change <? all_acked_before rp) (bt_values (readers w)) then mret tt
    else
      mb ← push_heartbeat (ts_msg [] (endianness w) (Some now)) EntityId_UNKNOWN is_manual_assertion;
      let hb_message := add_header_and_build mb (prefix (w_my_guid w)) in
      if decide (w_entity_id w = P2P_BUILTIN_PARTICIPANT_VOLATILE_SECURE_WRITER) then
        act_for (bt_values (readers w)) (fun rp =>
          if last_change <? all_acked_before rp then mret tt
          else send_message_to_readers Unicast hb_message [rp])
      else send_message_to_readers Multicast hb_message (bt_values (readers w)).

(** ** Acknowledgments *)

Definition update_ack_waiters (guid : GUID) (acked_before : option SequenceNumber) : W unit :=
  w ← get_st;
  match ack_waiter w with
  | None => mret tt
  | Some aw =>
      let '(completed, aw) := reader_acked_or_lost aw guid acked_before in
      if completed : bool
      then _ ← emit_ev (EvAllAcked (complete_channel aw)); modify_st (fun w => w_set_ack_waiter w None)
      else modify_st (fun w => w_set_ack_waiter w (Some aw))
  end.

Definition set_reader (g : GUID) (rp : RtpsReaderProxy) : W unit :=
  modify_st (fun w => w_set_readers w (<[g := rp]> (readers w))).

Definition handle_ack_nack (reader_guid_prefix : GuidPrefix) (ack_submessage : AckSubmessage) : W unit :=
  w ← get_st;
  if negb (is_reliable (w_qos w)) || like_stateless w then mret tt
  else
    match ack_submessage with
    | Ack_AckNack an =>
        let last_seq := last_change_sequence_number (w_history w) in
        _ ← lift_outcome (NumberSetIter_next (NumberSet_iter (reader_sn_state an)));
        let reader_guid := GUID_new reader_guid_prefix (an_reader_id an) in
        _ ← update_ack_waiters reader_guid (Some (NumberSet_base (reader_sn_state an)));
        _ ← match readers w !! reader_guid with
            | Some rp =>
                rp ← lift_outcome (RtpsReaderProxy_handle_ack_nack rp ack_submessage last_seq);
                if last_seq <? all_acked_before rp then set_reader reader_guid (rp_set_repair_mode rp false)
                else
                  _ ← set_reader reader_guid (rp_set_repair_mode rp true);
                  emit_ev (EvSetTimeout (nack_response_delay w) (TESendRepairData (remote_reader_guid rp)))
            | None => mret tt
            end;
        w ← get_st;
        match readers w !! reader_guid with
        | Some rp =>
            if decide (pending_gap rp = ∅) then mret tt
            else
              mb ← lift_outcome (gap_msg [] (pending_gap rp) (w_entity_id w) (endianness w) reader_guid);
              send_message_to_readers Unicast (add_header_and_build mb (prefix (w_my_guid w))) [rp]
        | None => mret tt
        end
    | Ack_NackFrag nackfrag =>
        let reader_guid := GUID_new reader_guid_prefix (nf_reader_id nackfrag) in
        _ ← match readers w !! reader_guid with
            | Some rp =>
                rp ← lift_outcome (mark_frags_requested rp (nf_writer_sn nackfrag) (fragment_number_state nackfrag));
                set_reader reader_guid rp
            | None => mret tt
            end;
        emit_ev (EvSetTimeout (nackfrag_response_delay w) (TESendRepairFrags reader_guid))
    end.

(** ** Repairs *)

(** The GAP message for what turned out not to be available, and what it marks
    as sent. *)
Definition repair_gap (rp : RtpsReaderProxy) (no_longer_relevant : gset SequenceNumber)
    (all_irrelevant_before : option SequenceNumber) : W RtpsReaderProxy :=
  w ← get_st;
  if decide (no_longer_relevant = ∅ /\ all_irrelevant_before = None) then mret rp
  else
    let reader_guid := remote_reader_guid rp in
    let mb := dst_submessage [] (endianness w) (prefix reader_guid) in
    let '(mb, rp) := match all_irrelevant_before with
      | Some before => (gap_msg_before mb before (w_entity_id w) (endianness w) reader_guid,
                        remove_from_unsent_set_all_before rp before)
      | None => (mb, rp)
      end in
    '(mb, rp) ← (if decide (no_longer_relevant = ∅) then mret (mb, rp)
                 else mb ← lift_outcome (gap_msg mb no_longer_relevant (w_entity_id w) (endianness w) reader_guid);
                      mret (mb, foldl mark_change_sent rp (bs_iter no_longer_relevant)));
    _ ← send_message_to_readers Unicast (add_header_and_build mb (prefix (w_my_guid w))) [rp];
    mret rp.

(** The change was found: send it, in fragments if it is large. *)
Definition repair_send (rp : RtpsReaderProxy) (unsent_sn : SequenceNumber) (cc : CacheChange) : W RtpsReaderProxy :=
  w ← get_st;
  data_was_fragmented ← send_cache_change cc false (Some rp);
  rp ← (if data_was_fragmented : bool then
          '(num_frags, _) ← lift_outcome (num_frags_and_frag_size w (DDSData_payload_size (cc_data_value cc)));
          _ ← emit_ev (EvSetTimeout (repairfrags_continue_delay w) (TESendRepairFrags (remote_reader_guid rp)));
          mret (mark_all_frags_requested rp unsent_sn num_frags)
        else mret rp);
  mret (mark_change_sent rp unsent_sn).

Definition handle_repair_data_send_worker (rp : RtpsReaderProxy) : W RtpsReaderProxy :=
  w ← get_st;
  match first_unsent_change rp with
  | None => mret (rp_set_repair_mode rp false)
  | Some unsent_sn =>
      let first_available := first_change_sequence_number (w_history w) in
      let all_irrelevant_before := if unsent_sn <? first_available then Some first_available else None in
      if bool_decide (unsent_sn ∈ pending_gap rp) || bool_decide (is_Some all_irrelevant_before)
      then repair_gap rp (pending_gap rp) all_irrelevant_before
      else
        match get_by_sn (w_history w) unsent_sn with
        | Some cc => rp ← repair_send rp unsent_sn cc; repair_gap rp ∅ all_irrelevant_before
        | None => repair_gap rp {[unsent_sn]} all_irrelevant_before
        end
  end.

(** The proxy is taken out of the map while it is worked on. *)
Definition with_reader_removed (to_reader : GUID) (worker : RtpsReaderProxy -> W RtpsReaderProxy) : W unit :=
  w ← get_st;
  if like_stateless w then mret tt
  else
    match readers w !! to_reader with
    | None => mret tt
    | Some rp =>
        _ ← modify_st (fun w => w_set_readers w (delete to_reader (readers w)));
        rp ← worker rp;
        set_reader (remote_reader_guid rp) rp
    end.

Definition handle_repair_data_send (to_reader : GUID) : W unit :=
  with_reader_removed to_reader handle_repair_data_send_worker.

(** The [for] loop over the fragments to send; an early [return] keeps the rest. *)
Fixpoint repair_frags_loop (rp : RtpsReaderProxy) (frags : list (SequenceNumber * FragmentNumber))
  : W RtpsReaderProxy :=
  match frags with
  | [] => mret rp
  | (seq_num, frag_num) :: frags =>
      w ← get_st;
      match get_by_sn (w_history w) seq_num with
      | Some cache_change =>
          if match to_single_reader (cc_write_options cache_change) with
             | Some g => negb (bool_decide (g = remote_reader_guid rp))
             | None => false
             end
          then mret rp
          else
            let fragment_size := u32 (data_max_size_serialized w) in
            let data_size := u32 (DDSData_payload_size (cc_data_value cache_change)) in
            mb ← lift_outcome (data_frag_msg (push_source_timestamp w [] cache_change) cache_change
                   (entity_id (remote_reader_guid rp)) (w_my_guid w) frag_num (u16 fragment_size) data_size
                   (endianness w));
            _ ← send_message_to_readers Unicast (add_header_and_build mb (prefix (w_my_guid w))) [rp];
            rp ← lift_outcome (mark_frag_sent rp seq_num frag_num);
            repair_frags_loop rp frags
      | None =>
          rp ← lift_outcome (mark_frag_sent rp seq_num frag_num);
          repair_frags_loop rp frags
      end
  end.

Definition max_send_count : nat := 8.

Definition handle_repair_frags_send_worker (rp : RtpsReaderProxy) : W RtpsReaderProxy :=
  frags ← lift_outcome (FragBitVecIterator_take max_send_count (frags_requested_iterator rp));
  repair_frags_loop rp frags.

Definition handle_repair_frags_send (to_reader : GUID) : W unit :=
  with_reader_removed to_reader handle_repair_frags_send_worker.

(** ** Cache cleaning *)

(** [Iterator::min] of the acknowledged bounds *)
Definition acked_by_all_readers (w : Writer) : SequenceNumber :=
  match acked_up_to_before <$> bt_values (readers w) with
  | [] => SequenceNumber_zero
  | a :: l => foldl Z.min a l
  end.

Definition remove_all_acked_changes_but_keep_depth (w : Writer) (depth : Z) : Writer :=
  let first_keeper :=
    if negb (like_stateless w)
    then Z.max (SequenceNumber_sub (acked_by_all_readers w) (SequenceNumber_from_usize depth))
           (first_change_sequence_number (w_history w))
    else first_change_sequence_number (w_history w) in
  w_set_history w (HistoryBuffer_remove_changes_before (w_history w) first_keeper).

Definition handle_cache_cleaning (w : Writer) : Writer :=
  let resource_limit := 32 in
  match history (w_qos w) with
  | None => remove_all_acked_changes_but_keep_depth w 1
  | Some KeepAll => remove_all_acked_changes_but_keep_depth w resource_limit
  | Some (KeepLast d) => remove_all_acked_changes_but_keep_depth w (Z.min (u64 d) resource_limit)
  end.

(** ** Timers *)

(** One timed event, with the clock reading. *)
Definition handle_one_timed_event (now : Timestamp) (e : TimedEvent) : W unit :=
  match e with
  | TEHeartbeat =>
      _ ← handle_heartbeat_tick now false;
      w ← get_st;
      match heartbeat_period w with
      | Some period => emit_ev (EvSetTimeout (Duration_to_std_nanos period) TEHeartbeat)
      | None => mret tt
      end
  | TECacheCleaning =>
      _ ← modify_st handle_cache_cleaning;
      w ← get_st;
      emit_ev (EvSetTimeout (Duration_to_std_nanos (cache_cleaning_period w)) TECacheCleaning)
  | TESendRepairData reader_guid =>
      _ ← handle_repair_data_send reader_guid;
      w ← get_st;
      match readers w !! reader_guid with
      | Some rp =>
          if repair_mode rp then
            delay ← lift_outcome (Duration_div
                      match deadline (w_qos w) with
                      | Some dl => deadline_period dl
                      | None => Duration_from_millis 100
                      end 5);
            emit_ev (EvSetTimeout (Duration_to_std_nanos delay) (TESendRepairData reader_guid))
          else mret tt
      | None => mret tt
      end
  | TESendRepairFrags reader_guid =>
      _ ← handle_repair_frags_send reader_guid;
      w ← get_st;
      match readers w !! reader_guid with
      | Some rp =>
          if repair_frags_requested rp
          then emit_ev (EvSetTimeout (repairfrags_continue_delay w) (TESendRepairFrags reader_guid))
          else mret tt
      | None => mret tt
      end
  end.

Definition handle_timed_event (due : list (Timestamp * TimedEvent)) : W unit :=
  act_for due (fun d => handle_one_timed_event d.1 d.2).

(** ** Matching readers *)

Definition matched_reader_update (updated : RtpsReaderProxy) : W Z :=
  w ← get_st;
  match readers w !! remote_reader_guid updated with
  | Some rp => _ ← set_reader (remote_reader_guid updated) (RtpsReaderProxy_update rp updated); mret 0
  | None =>
      new_proxy ← lift_outcome (if is_volatile (w_qos w)
                    then set_pending_gap_up_to updated (last_change_sequence_number (w_history w))
                    else Ret updated);
      _ ← set_reader (remote_reader_guid updated) new_proxy; mret 1
  end.

Definition update_reader_proxy (rp : RtpsReaderProxy) (requested_qos : QosPolicies) : W unit :=
  w ← get_st;
  match compliance_failure_wrt (w_qos w) requested_qos with
  | None =>
      change ← matched_reader_update rp;
      if 0 <? change then
        _ ← modify_st (fun w => w_set_matched w (i32 (matched_readers_count_total w + change)));
        w ← get_st;
        _ ← emit_ev (EvStatus (PublicationMatched (mkCount (matched_readers_count_total w) change)
              (mkCount (i32 (Z.of_nat (size (readers w)))) change) (remote_reader_guid rp)));
        emit_ev (EvParticipantStatus (RemoteReaderMatched (w_my_guid w) (remote_reader_guid rp)))
      else mret tt
  | Some bad_policy_id =>
      _ ← modify_st (fun w => w_set_incompatible w (i32 (requested_incompatible_qos_count w + 1)));
      w ← get_st;
      _ ← emit_ev (EvStatus (OfferedIncompatibleQos (mkCount (requested_incompatible_qos_count w) 1) bad_policy_id
            (remote_reader_guid rp) requested_qos (w_qos w)));
      emit_ev (EvParticipantStatus (RemoteReaderQosIncompatible (w_my_guid w) (remote_reader_guid rp)
            requested_qos (w_qos w)))
  end.

Definition reader_lost (guid : GUID) : W unit :=
  w ← get_st;
  _ ← (if decide (is_Some (readers w !! guid)) then
         _ ← modify_st (fun w => w_set_readers w (delete guid (readers w)));
         w ← get_st;
         emit_ev (EvStatus (PublicationMatched (mkCount (matched_readers_count_total w) 0)
           (mkCount (i32 (Z.of_nat (size (readers w)))) (-1)) guid))
       else mret tt);
  update_ack_waiters guid None.

Definition participant_lost (guid_prefix : GuidPrefix) : W unit :=
  w ← get_st;
  act_for (filter (in_range (GuidPrefix_range guid_prefix)) (bt_keys (readers w))) reader_lost.
End writer.
