(* ===== verification/WriterCorrect.v ===== *)
(** * Correctness of the stateful writer

    What the messages of a writer say is true of its history, what a reader
    asks for is served, acknowledgment waits end when they should, and cleaning
    keeps what is not acknowledged. *)

From S2P Require Import Prelude BTree Wire SequenceNumbers Time Guid Locator ParameterList Qos Payload Submessages Headers MessageBuilder FragmentAssembler ReaderProxy HistoryBuffer Writer.

(** ** Where messages go *)

Lemma elem_of_send_unless_sent sent locs l :
  l ∈ send_unless_sent_and_mark sent locs <-> l ∈ sent \/ l ∈ locs.
Proof.
  unfold send_unless_sent_and_mark. revert sent. induction locs as [|x locs IH]; intros sent; simpl; [set_solver|].
  rewrite IH. case_decide; set_solver.
Qed.

Lemma NoDup_send_unless_sent sent locs : NoDup sent -> NoDup (send_unless_sent_and_mark sent locs).
Proof.
  unfold send_unless_sent_and_mark. revert sent. induction locs as [|x locs IH]; intros sent Hs; simpl; [done|].
  apply IH. case_decide; [done|]. apply NoDup_app. split; [done|]. split; [set_solver|apply NoDup_singleton].
Qed.

Lemma elem_of_send_targets mode rps l :
  l ∈ send_targets mode rps <-> exists rp, rp ∈ rps /\ l ∈ locators_for mode rp.
Proof.
  unfold send_targets. enough (forall sent, l ∈ foldl (fun sent rp => send_unless_sent_and_mark sent (locators_for mode rp)) sent rps
    <-> l ∈ sent \/ exists rp, rp ∈ rps /\ l ∈ locators_for mode rp) as H by (rewrite H; set_solver).
  induction rps as [|rp rps IH]; intros sent; simpl; [set_solver|]. rewrite IH, elem_of_send_unless_sent. set_solver.
Qed.

Lemma NoDup_send_targets mode rps : NoDup (send_targets mode rps).
Proof. unfold send_targets. apply foldl_ind; [constructor|]. intros. by apply NoDup_send_unless_sent. Qed.

Lemma act_for_emit {St Ev A} (g : A -> Ev) l (st : St) : act_for l (fun x => emit_ev (g x)) st = Ret (tt, st, g <$> l).
Proof.
  induction l as [|x l IH]; [done|]. cbn [act_for]. unfold mbind, act_bind. simpl. by rewrite IH.
Qed.

Lemma send_message_run mode m rps w :
  send_message_to_readers mode m rps w = Ret (tt, w, EvSend m <$> send_targets mode rps).
Proof. apply act_for_emit. Qed.

(** The messages [msgs] went to every one of the locators [tgts], and nothing
    else happened. *)
Definition sent_exactly (msgs : list Message) (tgts : list Locator) (evs : list WriterEvent) : Prop :=
  forall ev, ev ∈ evs <-> exists m loc, m ∈ msgs /\ loc ∈ tgts /\ ev = EvSend m loc.

Lemma send_all_wp (msgs : list Message) mode rps w (Q : unit -> Writer -> list WriterEvent -> Prop) :
  (forall evs, sent_exactly msgs (send_targets mode rps) evs -> Q tt w evs) ->
  wp (act_for msgs (fun m => send_message_to_readers mode m rps)) w Q.
Proof.
  intros HQ. apply wp_run.
  enough (exists evs, act_for msgs (fun m => send_message_to_readers mode m rps) w = Ret (tt, w, evs) /\
    sent_exactly msgs (send_targets mode rps) evs) as (evs & E & He) by (exists tt, w, evs; auto).
  clear HQ Q. induction msgs as [|m msgs (evs & E & He)].
  - exists []. split; [done|]. intros ev. set_solver.
  - exists ((EvSend m <$> send_targets mode rps) ++ evs). split.
    + cbn [act_for]. unfold mbind, act_bind. rewrite send_message_run. by rewrite E.
    + intros ev. rewrite elem_of_app, list_elem_of_fmap. specialize (He ev). rewrite He. set_solver.
Qed.

Lemma send_one_wp (m : Message) mode rps w (Q : unit -> Writer -> list WriterEvent -> Prop) :
  (forall evs, sent_exactly [m] (send_targets mode rps) evs -> Q tt w evs) ->
  wp (send_message_to_readers mode m rps) w Q.
Proof.
  intros HQ. unfold wp. rewrite send_message_run. apply HQ. intros ev. rewrite list_elem_of_fmap. set_solver.
Qed.

Lemma locators_for_reachable mode rp l :
  l ∈ unicast_locator_list rp ++ multicast_locator_list rp -> Locator_is_udp l = true ->
  exists l', l' ∈ locators_for mode rp /\ Locator_is_udp l' = true.
Proof.
  intros [Hl|Hl]%elem_of_app Hu.
  - assert (existsb Locator_is_udp (unicast_locator_list rp) = true) as E
      by (apply existsb_exists; exists l; split; [by apply list_elem_of_In|done]).
    unfold locators_for. rewrite E. destruct (existsb Locator_is_udp (multicast_locator_list rp)) eqn:Em.
    + apply existsb_exists in Em as (l2 & Hl2%list_elem_of_In & ?). destruct mode; by eauto.
    + destruct mode; by eauto.
  - assert (existsb Locator_is_udp (multicast_locator_list rp) = true) as E
      by (apply existsb_exists; exists l; split; [by apply list_elem_of_In|done]).
    unfold locators_for. rewrite E. destruct (existsb Locator_is_udp (unicast_locator_list rp)) eqn:Em.
    + apply existsb_exists in Em as (l2 & Hl2%list_elem_of_In & ?). destruct mode; by eauto.
    + destruct mode; by eauto.
Qed.

(** A message sent to a group of readers goes to every reader that has any
    UDP locator, only to locators of those readers, and at most once to any one
    locator even when readers share it. *)
Theorem send_message_reaches_readers mode m rps w :
  exists locs, send_message_to_readers mode m rps w = Ret (tt, w, EvSend m <$> locs) /\ NoDup locs /\
    (forall l, l ∈ locs -> exists rp, rp ∈ rps /\ l ∈ unicast_locator_list rp ++ multicast_locator_list rp) /\
    (forall rp l, rp ∈ rps -> l ∈ unicast_locator_list rp ++ multicast_locator_list rp -> Locator_is_udp l = true ->
       exists l', l' ∈ locs /\ l' ∈ unicast_locator_list rp ++ multicast_locator_list rp /\ Locator_is_udp l' = true).
Proof.
  assert (forall rp l, l ∈ locators_for mode rp -> l ∈ unicast_locator_list rp ++ multicast_locator_list rp) as Hsub.
  { intros rp l. unfold locators_for. destruct mode, (existsb Locator_is_udp (unicast_locator_list rp)), (existsb Locator_is_udp (multicast_locator_list rp)); set_solver. }
  exists (send_targets mode rps). split; [apply send_message_run|]. split; [apply NoDup_send_targets|]. split.
  - intros l (rp & ? & ?)%elem_of_send_targets. exists rp. auto.
  - intros rp l Hrp Hl Hu. destruct (locators_for_reachable mode rp l Hl Hu) as (l' & Hl' & Hu').
    exists l'. split; [apply elem_of_send_targets; by eauto|]. auto.
Qed.

(** ** Sending a change *)

Section sending.
Context `{SP : Speedy}.

Lemma push_heartbeat_wp mb rid live w (Q : MessageBuilder -> Writer -> list WriterEvent -> Prop) :
  Q (heartbeat_msg mb (w_entity_id w) (first_seq (w_history w)) (last_seq (w_history w))
       (heartbeat_message_counter w) (endianness w) rid false live)
    (w_set_counter w (i32 (heartbeat_message_counter w + 1))) [] ->
  wp (push_heartbeat mb rid live) w Q.
Proof. intros HQ. unfold push_heartbeat, next_heartbeat_count. wp_steps. exact HQ. Qed.

(** Numbers a GAP may be built for. *)
Definition gap_range (s : gset SequenceNumber) : Prop := forall x, x ∈ s -> 1 <= x < i64_max.

(** The GAP for a non-empty set declares only its members, and the ones up to
    255 past the first. *)
Lemma gap_msg_run mb s wid e r :
  s <> ∅ -> gap_range s ->
  exists g, gap_msg mb s wid e r = Ret (mb ++ [Gap_create_submessage g (from_endianness e)]) /\
    gap_reader_id g = entity_id r /\
    (forall sn, gap_declares g sn -> sn ∈ s) /\
    (forall sn start, bs_first s = Some start -> sn ∈ s -> sn <= start + 256 -> gap_declares g sn).
Proof.
  intros Hne HS. unfold gap_msg. destruct (bs_first s) as [start|] eqn:Hf; [|by apply bs_first_None in Hf].
  destruct (bs_last s) as [l|] eqn:Hl.
  2: { unfold bs_last in Hl. apply last_None, bs_iter_None in Hl. done. }
  destruct (gap_of_spec s start wid r Hf HS) as (g & E & _ & _ & _ & Hlt & Hd). rewrite E. exists g. simpl.
  split; [done|]. split.
  - unfold gap_of in E. apply bind_Ret in E as (b & _ & E). by apply bind_Ret in E as (gl & _ & [= <-]).
  - split; [intros sn ?%Hd; tauto|]. intros sn start' [= <-] Hsn Hle. apply Hd. split; [done|lia].
Qed.

(** A submessage that speaks of the change [cc], of the writer's range, or of
    what the target is pending. *)
Definition about_change (h : HistoryBuffer) (cc : CacheChange) (target : option RtpsReaderProxy) (sm : Submessage) : Prop :=
  match sm_body sm with
  | SmData d => data_writer_sn d = cc_sequence_number cc /\
      data_serialized_payload d = match cc_data_value cc with DDisposeByKeyHash _ _ => None | v => Some (DDSData_bytes v) end
  | SmDataFrag d => df_writer_sn d = cc_sequence_number cc
  | SmHeartbeat hb => first_sn hb = first_seq h /\ last_sn hb = last_seq h
  | SmGap g => exists rp, target = Some rp /\ gap_reader_id g = entity_id (remote_reader_guid rp) /\
      forall sn, gap_declares g sn -> sn ∈ pending_gap rp
  | SmInfoDestination _ | SmInfoTimestamp _ => True
  | SmAckNack _ | SmNackFrag _ | SmHeartbeatFrag _ | SmInfoSource _ | SmInfoReply _ => False
  end.

(** The change is carried whole: in one DATA, or in all its fragments. *)
Definition carries (dm : Z) (cc : CacheChange) (msgs : list Message) : Prop :=
  if dm <? DDSData_payload_size (cc_data_value cc) then
    forall k, 1 <= k <= n_frags (sample_bytes cc) dm ->
      exists m sm d, m ∈ msgs /\ sm ∈ submessages m /\ sm_body sm = SmDataFrag d /\
        is_frag (sample_bytes cc) dm (cc_sequence_number cc) k d
  else exists m sm d, m ∈ msgs /\ sm ∈ submessages m /\ sm_body sm = SmData d /\
         data_writer_sn d = cc_sequence_number cc.

(** A change the writer can send: the size of its serialized form is a [u32]. *)
Definition sendable (cc : CacheChange) : Prop := DDSData_payload_size (cc_data_value cc) < 2 ^ 32.

Lemma about_push_source_timestamp h cc target w mb :
  Forall (about_change h cc target) mb -> Forall (about_change h cc target) (push_source_timestamp w mb cc).
Proof. unfold push_source_timestamp, ts_msg. destruct (source_timestamp _); [|done]. intros. apply Forall_app. split; [done|]. by repeat constructor. Qed.

Lemma about_push_destination h cc target w mb tgt :
  Forall (about_change h cc target) mb -> Forall (about_change h cc target) (push_destination w mb tgt).
Proof. unfold push_destination, dst_submessage. destruct tgt; [|done]. intros. apply Forall_app. split; [done|]. by repeat constructor. Qed.

Lemma about_data_msg h cc target mb rid g e :
  Forall (about_change h cc target) mb -> Forall (about_change h cc target) (data_msg mb cc rid g e) /\
  exists sm d, sm ∈ data_msg mb cc rid g e /\ sm_body sm = SmData d /\ data_writer_sn d = cc_sequence_number cc.
Proof.
  intros Hmb. unfold data_msg. cbv zeta. split.
  - apply Forall_app. split; [done|]. constructor; [|done]. unfold about_change; simpl. split; [done|].
    by destruct (cc_data_value cc).
  - eexists _, _. split; [apply elem_of_app; right; by left|]. by simpl.
Qed.

(** Clamping makes every fragment number harmless; those of the sample yield
    its fragments. *)
Lemma data_frag_msg_run mb cc rid g k fs size e :
  0 <= size -> exists mb', data_frag_msg mb cc rid g k fs size e = Ret (mb ++ mb') /\
    forall sm, sm ∈ mb' -> exists d, sm_body sm = SmDataFrag d /\ df_writer_sn d = cc_sequence_number cc.
Proof.
  intros Hs. unfold data_frag_msg, data_frag_of.
  set (from := u64 (u64 (k - 1) * fs)). set (to := Z.min (u64 (k * fs)) size).
  assert (0 <= from) by (unfold from; pose proof (wrap_u_range 64 (u64 (k - 1) * fs)); unfold in_u in *; lia).
  assert (0 <= to) by (unfold to; pose proof (wrap_u_range 64 (k * fs)); unfold in_u in *; lia).
  destruct (cc_data_value cc) as [sp|ck sp|ck hh] eqn:Ev.
  3: { exists []. simpl. rewrite app_nil_r. split; [done|]. set_solver. }
  all: rewrite DDSData_bytes_slice_spec, slice_Ret by lia; simpl; eexists; split; [done|];
    intros sm ->%list_elem_of_singleton; by eexists.
Qed.

(** The fragment size a writer is configured with. *)
Definition frag_config (w : Writer) : Prop := 16 <= data_max_size_serialized w < 2 ^ 16.

Lemma large_not_hash w cc :
  frag_config w -> data_max_size_serialized w < DDSData_payload_size (cc_data_value cc) ->
  forall k h, cc_data_value cc <> DDisposeByKeyHash k h.
Proof. intros [? _] Hl k h E. rewrite E in Hl. simpl in Hl. lia. Qed.

Lemma num_frags_run w cc :
  frag_config w -> sendable cc -> data_max_size_serialized w < DDSData_payload_size (cc_data_value cc) ->
  num_frags_and_frag_size w (DDSData_payload_size (cc_data_value cc))
  = Ret (n_frags (sample_bytes cc) (data_max_size_serialized w), data_max_size_serialized w) /\
  1 <= n_frags (sample_bytes cc) (data_max_size_serialized w) < 2 ^ 32 - 1.
Proof.
  intros Hc Hs Hl. pose proof (large_not_hash w cc Hc Hl) as Hk. destruct Hc as [Hc1 Hc2]. unfold sendable in Hs.
  assert (n_bytes (sample_bytes cc) = DDSData_payload_size (cc_data_value cc)) as En by (by apply n_bytes_sample).
  assert (1 <= n_frags (sample_bytes cc) (data_max_size_serialized w) < 2 ^ 32 - 1) as Hn.
  { pose proof (n_frags_bounds (sample_bytes cc) (data_max_size_serialized w) ltac:(lia)
      ltac:(apply Hsize_bytes; [done|unfold sample_size; lia])) as [? [? ?]]. nia. }
  split; [|done]. unfold num_frags_and_frag_size. rewrite (wrap_u_id 32 (data_max_size_serialized w)), (wrap_u_id 32 (DDSData_payload_size _)) by bounds_lia.
  destruct (Z.eqb_spec (data_max_size_serialized w) 0); [lia|]. simpl. rewrite (wrap_u_id 16) by (unfold in_u; lia).
  do 2 f_equal. unfold n_frags in *. rewrite En in *. set (dm := data_max_size_serialized w) in *.
  set (sz := DDSData_payload_size _) in *. pose proof (Z.mod_pos_bound sz dm ltac:(lia)).
  assert ((if sz mod dm =? 0 then 0 else 1) = (if 0 <? sz mod dm then 1 else 0)) as -> by (zcases; lia).
  apply wrap_u_id. unfold in_u. lia.
Qed.

Lemma frag_messages_run h w cc target rid :
  frag_config w -> sendable cc -> data_max_size_serialized w < DDSData_payload_size (cc_data_value cc) ->
  exists msgs, frag_messages w cc target rid (DDSData_payload_size (cc_data_value cc)) = Ret msgs /\
    Forall (fun m => Forall (about_change h cc target) (submessages m)) msgs /\
    carries (data_max_size_serialized w) cc msgs.
Proof.
  intros Hc Hs Hl. destruct (num_frags_run w cc Hc Hs Hl) as [En Hn]. pose proof (large_not_hash w cc Hc Hl) as Hk.
  unfold frag_messages. rewrite En. cbn [mbind outcome_bind]. unfold FragmentNumber_new.
  rewrite FragmentNumberRange_list_seqZ by lia. cbn [mbind outcome_bind].
  set (dm := data_max_size_serialized w) in *. set (n := n_frags (sample_bytes cc) dm) in *.
  unfold carries. destruct (Z.ltb_spec dm (DDSData_payload_size (cc_data_value cc))); [|lia].
  set (mb0 := push_destination w (push_source_timestamp w [] cc) target).
  assert (Forall (about_change h cc target) mb0) as Hmb0
    by (apply about_push_destination, about_push_source_timestamp; constructor).
  set (good := fun k m => Forall (about_change h cc target) (submessages m) /\
    exists sm d, sm ∈ submessages m /\ sm_body sm = SmDataFrag d /\ is_frag (sample_bytes cc) dm (cc_sequence_number cc) k d).
  destruct (outcome_fold_collect good
    (fun msgs frag_num =>
       _ ← rust_assert (DDSData_payload_size (cc_data_value cc) <? 2 ^ 32) "called `Result::unwrap()` on an `Err` value";
       mb ← data_frag_msg mb0 cc rid (w_my_guid w) frag_num dm (DDSData_payload_size (cc_data_value cc)) (endianness w);
       Ret (msgs ++ [add_header_and_build mb (prefix (w_my_guid w))])) [] (seqZ 1 (n - 1 + 1))) as (msgs & E & Hm).
  - intros msgs k Hkn%elem_of_seqZ. destruct (Z.ltb_spec (DDSData_payload_size (cc_data_value cc)) (2 ^ 32)); [|unfold sendable in Hs; lia].
    simpl. unfold data_frag_msg.
    destruct (data_frag_of_is_frag cc rid (w_my_guid w) dm (endianness w) Hk) with (k := k) as (d & fl & E & Hf & _);
      [unfold frag_config in Hc; lia|unfold sample_size, sendable in *; lia|lia|]. unfold sample_size in E. rewrite E. simpl.
    eexists. split; [done|]. split; simpl.
    + apply Forall_app. split; [done|]. constructor; [by destruct Hf|done].
    + eexists _, d. split; [apply elem_of_app; right; by left|]. done.
  - exists msgs. split; [exact E|]. split.
    + apply Forall_forall. intros m Hin. apply list_elem_of_lookup in Hin as [i Hi].
      destruct (Forall2_lookup_r _ _ _ _ _ Hm Hi) as (k & _ & [? _]). done.
    + intros k Hkn. destruct (Forall2_lookup_l good (seqZ 1 (n - 1 + 1)) msgs (Z.to_nat (k - 1)) k Hm) as (m & Hi & _ & sm & d & ?).
      * apply lookup_seqZ. lia.
      * exists m, sm, d. split; [by eapply list_elem_of_lookup_2|done].
Qed.

Definition target_ok (target : option RtpsReaderProxy) : Prop :=
  forall rp, target = Some rp -> gap_range (pending_gap rp).

(** Messages about the change only, which carry it whole. *)
Definition change_messages (w : Writer) (cc : CacheChange) (target : option RtpsReaderProxy) (msgs : list Message) : Prop :=
  Forall (fun m => Forall (about_change (w_history w) cc target) (submessages m)) msgs /\
  carries (data_max_size_serialized w) cc msgs.

Lemma about_gap_msg h cc rp mb wid e :
  gap_range (pending_gap rp) -> pending_gap rp <> ∅ -> Forall (about_change h cc (Some rp)) mb ->
  exists mb', gap_msg mb (pending_gap rp) wid e (remote_reader_guid rp) = Ret mb' /\ Forall (about_change h cc (Some rp)) mb'.
Proof.
  intros Hr Hne Hmb. destruct (gap_msg_run mb (pending_gap rp) wid e (remote_reader_guid rp) Hne Hr) as (g & -> & Hg & Hd & _).
  eexists. split; [done|]. apply Forall_app. split; [done|]. constructor; [|done]. exists rp. done.
Qed.

Lemma about_push_pending_gap h cc rp w mb :
  gap_range (pending_gap rp) -> Forall (about_change h cc (Some rp)) mb ->
  exists mb', push_pending_gap w mb rp = Ret mb' /\ Forall (about_change h cc (Some rp)) mb'.
Proof. intros Hr Hmb. unfold push_pending_gap. case_decide; [by eauto|]. by apply about_gap_msg. Qed.

Lemma about_heartbeat w cc target mb rid live :
  Forall (about_change (w_history w) cc target) mb ->
  Forall (about_change (w_history w) cc target)
    (heartbeat_msg mb (w_entity_id w) (first_seq (w_history w)) (last_seq (w_history w))
       (heartbeat_message_counter w) (endianness w) rid false live).
Proof. intros. unfold heartbeat_msg. apply Forall_app. split; [done|]. by repeat constructor. Qed.

Lemma data_message_wp cc hb target rid w (Q : Message -> Writer -> list WriterEvent -> Prop) :
  target_ok target -> DDSData_payload_size (cc_data_value cc) <= data_max_size_serialized w ->
  (forall m c, change_messages w cc target [m] -> Q m (w_set_counter w c) []) ->
  wp (data_message cc hb target rid) w Q.
Proof.
  intros Ht Hsz HQ. unfold data_message. wp_steps.
  set (mb := push_destination w (push_source_timestamp w [] cc) target).
  assert (Forall (about_change (w_history w) cc target) mb) as Hmb
    by (apply about_push_destination, about_push_source_timestamp; constructor).
  assert (exists mb', (match target with Some reader => push_pending_gap w mb reader | None => Ret mb end) = Ret mb' /\
    Forall (about_change (w_history w) cc target) mb') as (mb' & E & Hmb').
  { destruct target as [rp|]; [|by eauto]. apply about_push_pending_gap; [by apply Ht|done]. }
  eapply wp_lift; [exact E|]. simpl. wp_steps. clearbody mb. clear E Hmb mb.
  destruct (about_data_msg _ _ _ mb' rid (w_my_guid w) (endianness w) Hmb') as [Hd (sm & d & Hsm & Hb & Hsn)].
  assert (forall mb2 c, Forall (about_change (w_history w) cc target) mb2 -> sm ∈ mb2 ->
    Q (add_header_and_build mb2 (prefix (w_my_guid w))) (w_set_counter w c) []) as Hfin.
  { intros mb2 c Hm2 Hin. apply HQ. split; [by repeat constructor|]. unfold carries. zcases; [lia|].
    eexists _, sm, d. split; [by left|]. done. }
  destruct (hb && negb (like_stateless w)).
  - apply push_heartbeat_wp. wp_steps. apply Hfin; [by apply about_heartbeat|].
    unfold heartbeat_msg. apply elem_of_app. by left.
  - wp_steps. specialize (Hfin (data_msg mb' cc rid (w_my_guid w) (endianness w)) (heartbeat_message_counter w) Hd Hsm).
    by destruct w.
Qed.

Lemma frag_gap_message_run h cc w target :
  target_ok target -> exists msgs, frag_gap_message w target = Ret msgs /\
    Forall (fun m => Forall (about_change h cc target) (submessages m)) msgs.
Proof.
  intros Ht. unfold frag_gap_message. destruct target as [rp|]; [|by eauto].
  case_decide as Hd; [by eauto|].
  destruct (about_gap_msg h cc rp (dst_submessage [] (endianness w) (prefix (remote_reader_guid rp))) (w_entity_id w) (endianness w))
    as (mb & -> & Hmb); [by apply Ht|done|by repeat constructor|]. simpl. eexists. split; [done|]. by repeat constructor.
Qed.

Lemma carries_app dm cc l1 l2 l3 : carries dm cc l2 -> carries dm cc (l1 ++ l2 ++ l3).
Proof. unfold carries. destruct (_ <? _); [intros H k Hk; destruct (H k Hk) as (m & ?)|intros (m & ?)]; exists m; set_solver. Qed.

Definition change_targets (w : Writer) (target : option RtpsReaderProxy) : list Locator :=
  match target with
  | None => send_targets Multicast (bt_values (readers w))
  | Some rp => send_targets Unicast [rp]
  end.

Lemma send_cache_change_wp cc hb target w (Q : bool -> Writer -> list WriterEvent -> Prop) :
  frag_config w -> sendable cc -> target_ok target ->
  (target_allowed cc target = false -> Q false w []) ->
  (forall msgs c evs, target_allowed cc target = true -> change_messages w cc target msgs ->
     sent_exactly msgs (change_targets w target) evs ->
     Q (data_max_size_serialized w <? DDSData_payload_size (cc_data_value cc)) (w_set_counter w c) evs) ->
  wp (send_cache_change cc hb target) w Q.
Proof.
  intros Hc Hs Ht Hno HQ. unfold send_cache_change. destruct (target_allowed cc target); simpl; [|wp_steps; auto].
  wp_steps. set (rid := match target with Some _ => _ | None => _ end).
  set (P := fun (msgs : list Message) (w' : Writer) (evs : list WriterEvent) =>
    change_messages w cc target msgs /\ (exists c, w' = w_set_counter w c) /\ evs = []).
  eapply (wp_mono _ _ P).
  - destruct (Z.ltb_spec (data_max_size_serialized w) (DDSData_payload_size (cc_data_value cc))) as [Hl|Hl]; simpl.
    + destruct (frag_gap_message_run (w_history w) cc w target Ht) as (gaps & Eg & Hg).
      destruct (frag_messages_run (w_history w) w cc target rid Hc Hs Hl) as (frags & Ef & Hf & Hcar).
      apply wp_bind. eapply wp_lift; [exact Eg|]. apply wp_bind. eapply wp_lift; [exact Ef|]. apply wp_bind.
      assert (forall l c, Forall (fun m => Forall (about_change (w_history w) cc target) (submessages m)) l ->
        P (gaps ++ frags ++ l) (w_set_counter w c) []) as HP.
      { intros l c Hl'. split; [|by eauto]. split; [by rewrite !Forall_app|]. by apply carries_app. }
      destruct (hb && negb (like_stateless w)).
      * apply wp_bind, push_heartbeat_wp. wp_steps. apply HP. constructor; [|done]. simpl. by apply about_heartbeat.
      * wp_steps. specialize (HP [] (heartbeat_message_counter w) ltac:(constructor)). by destruct w.
    + wp_steps. apply data_message_wp; [done..|]. intros m c Hm. wp_steps. split; [done|]. split; [by eauto|done].
  - intros msgs w' evs (Hm & [c ->] & ->). wp_steps.
    eapply (wp_mono _ _ (fun _ w' evs => w' = w_set_counter w c /\ sent_exactly msgs (change_targets w target) evs)).
    + destruct target as [rp|]; simpl.
      * apply send_all_wp. auto.
      * apply send_all_wp. auto.
    + intros _ w' evs (-> & He). wp_steps. rewrite app_nil_r. by eapply HQ.
Qed.
End sending.

(** ** What a message may say *)

(** A sequence number that was given out and is not in the history any more, or
    never was. *)
Definition gone (h : HistoryBuffer) (sn : SequenceNumber) : Prop := get_by_sn h sn = None /\ sn <= last_seq h.

(** [known rp]: the writer has this proxy.  A GAP only goes to a reader for which
    each number it declares is gone or was never meant for it; a HEARTBEAT
    advertises exactly the range of the history; DATA and DATAFRAG are of a
    change in the history, and go nowhere else than to the reader it is meant
    for, if it is meant for one. *)
Definition sub_honest (h : HistoryBuffer) (known : RtpsReaderProxy -> Prop) (loc : Locator) (sm : Submessage) : Prop :=
  let private cc := forall g, to_single_reader (cc_write_options cc) = Some g ->
    exists rp, known rp /\ remote_reader_guid rp = g /\ loc ∈ locators_for Unicast rp in
  match sm_body sm with
  | SmData d => exists cc, get_by_sn h (data_writer_sn d) = Some cc /\ private cc /\
      data_serialized_payload d = match cc_data_value cc with DDisposeByKeyHash _ _ => None | v => Some (DDSData_bytes v) end
  | SmDataFrag d => exists cc, get_by_sn h (df_writer_sn d) = Some cc /\ private cc
  | SmHeartbeat hb => first_sn hb = first_seq h /\ last_sn hb = last_seq h
  | SmGap g => exists rp, known rp /\ gap_reader_id g = entity_id (remote_reader_guid rp) /\
      loc ∈ locators_for Unicast rp /\
      forall sn, gap_declares g sn -> gone h sn \/ sn ∈ pending_gap rp
  | SmInfoDestination _ | SmInfoTimestamp _ => True
  | SmAckNack _ | SmNackFrag _ | SmHeartbeatFrag _ | SmInfoSource _ | SmInfoReply _ => False
  end.

Definition event_honest (h : HistoryBuffer) (known : RtpsReaderProxy -> Prop) (ev : WriterEvent) : Prop :=
  match ev with
  | EvSend m loc => Forall (sub_honest h known loc) (submessages m)
  | _ => True
  end.

Definition matched (w : Writer) (rp : RtpsReaderProxy) : Prop := readers w !! remote_reader_guid rp = Some rp.
Definition honest (w : Writer) (evs : list WriterEvent) : Prop := Forall (event_honest (w_history w) (matched w)) evs.

(** Two proxies that are the same to a message. *)
Definition same_view (rp rp' : RtpsReaderProxy) : Prop :=
  remote_reader_guid rp = remote_reader_guid rp' /\ pending_gap rp = pending_gap rp' /\
  unicast_locator_list rp = unicast_locator_list rp' /\ multicast_locator_list rp = multicast_locator_list rp'.

Lemma same_view_locators mode rp rp' : same_view rp rp' -> locators_for mode rp = locators_for mode rp'.
Proof. intros (_ & _ & E1 & E2). unfold locators_for. by rewrite E1, E2. Qed.

Lemma event_honest_mono h (known known' : RtpsReaderProxy -> Prop) ev :
  (forall rp, known rp -> exists rp', known' rp' /\ same_view rp rp') ->
  event_honest h known ev -> event_honest h known' ev.
Proof.
  intros Hk. destruct ev as [m loc| | | |]; simpl; [|done..]. intros Hm. eapply Forall_impl; [exact Hm|]. clear Hm. intros sm.
  assert (forall cc, (forall g, to_single_reader (cc_write_options cc) = Some g ->
      exists rp, known rp /\ remote_reader_guid rp = g /\ loc ∈ locators_for Unicast rp) ->
    (forall g, to_single_reader (cc_write_options cc) = Some g ->
      exists rp, known' rp /\ remote_reader_guid rp = g /\ loc ∈ locators_for Unicast rp)) as Hp.
  { intros cc H g Hg. destruct (H g Hg) as (rp & Hkn & <- & Hl). destruct (Hk rp Hkn) as (rp' & ? & Hv).
    exists rp'. rewrite <- (same_view_locators _ _ _ Hv). by destruct Hv as [-> _]. }
  unfold sub_honest. destruct (sm_body sm); try done.
  - intros (cc & ? & ? & ?). exists cc. split; [done|]. split; [by apply Hp|done].
  - intros (cc & ? & ?). exists cc. split; [done|by apply Hp].
  - intros (rp & Hkn & Hg & Hl & Hd). destruct (Hk rp Hkn) as (rp' & ? & Hv). exists rp'.
    rewrite <- (same_view_locators _ _ _ Hv). destruct Hv as (<- & <- & _). done.
Qed.

(** Sending a change of the history to an allowed target is honest. *)
Lemma change_honest h known cc target w msgs evs :
  get_by_sn h (cc_sequence_number cc) = Some cc -> h = w_history w ->
  (forall rp, target = Some rp -> known rp) -> target_allowed cc target = true ->
  Forall (fun m => Forall (about_change h cc target) (submessages m)) msgs ->
  sent_exactly msgs (change_targets w target) evs -> Forall (event_honest h known) evs.
Proof.
  intros Hcc Eh Hk Ha Hm He. apply Forall_forall. intros ev (m & loc & Hin & Hloc & ->)%He. simpl.
  rewrite Forall_forall in Hm. specialize (Hm m Hin). eapply Forall_impl; [exact Hm|]. intros sm Hsm.
  assert (forall rp, target = Some rp -> loc ∈ locators_for Unicast rp) as Hl.
  { intros rp ->. simpl in Hloc. apply elem_of_send_targets in Hloc as (rp' & ->%list_elem_of_singleton & ?). done. }
  assert (forall g, to_single_reader (cc_write_options cc) = Some g ->
      exists rp, known rp /\ remote_reader_guid rp = g /\ loc ∈ locators_for Unicast rp) as Hp.
  { intros g Hg. unfold target_allowed in Ha. rewrite Hg in Ha. destruct target as [rp|]; [|done].
    apply bool_decide_eq_true in Ha as ->. exists rp. auto. }
  unfold about_change in Hsm. unfold sub_honest. destruct (sm_body sm); try done.
  - destruct Hsm as [-> ?]. exists cc. split; [done|]. split; [exact Hp|done].
  - rewrite Hsm. exists cc. split; [done|exact Hp].
  - destruct Hsm as (rp & -> & ? & ?). exists rp. auto 6.
Qed.

(** ** The invariant of a writer *)

Record proxy_inv (h : HistoryBuffer) (rp : RtpsReaderProxy) : Prop := {
  pi_acked : 0 <= all_acked_before rp <= i64_max;
  pi_unsent : forall sn, sn ∈ unsent_changes rp -> 0 <= sn <= last_seq h;
  pi_pending : forall sn, sn ∈ pending_gap rp -> 1 <= sn <= last_seq h;
  pi_frags : forall sn bv, frags_requested rp !! sn = Some bv -> Z.of_nat (length bv) < 2 ^ 32 - 1;
}.

Record writer_inv (w : Writer) : Prop := {
  wi_hist : hist_inv (w_history w);
  wi_config : frag_config w;
  wi_sendable : forall sn cc, get_by_sn (w_history w) sn = Some cc -> sendable cc;
  wi_readers : forall g rp, readers w !! g = Some rp -> remote_reader_guid rp = g /\ proxy_inv (w_history w) rp;
}.

Lemma proxy_inv_mono h h' rp : last_seq h <= last_seq h' -> proxy_inv h rp -> proxy_inv h' rp.
Proof.
  intros Hl [H1 H2 H3 H4]. split; [done| | |done].
  - intros sn Hsn. specialize (H2 sn Hsn). lia.
  - intros sn Hsn. specialize (H3 sn Hsn). lia.
Qed.

Lemma pending_gap_range h rp : hist_inv h -> proxy_inv h rp -> gap_range (pending_gap rp).
Proof. intros Hh Hp sn Hsn. pose proof (hist_bounds h Hh) as [_ ?]. pose proof (pi_pending h rp Hp sn Hsn). lia. Qed.

Lemma matched_reader w g rp : writer_inv w -> readers w !! g = Some rp -> matched w rp.
Proof. intros Hw Hg. unfold matched. by destruct (wi_readers w Hw g rp Hg) as [-> _]. Qed.

Lemma writer_inv_counter w c : writer_inv w -> writer_inv (w_set_counter w c).
Proof. by intros [? ? ? ?]. Qed.
Lemma writer_inv_waiter w a : writer_inv w -> writer_inv (w_set_ack_waiter w a).
Proof. by intros [? ? ? ?]. Qed.

Lemma writer_inv_set_reader w m g rp :
  writer_inv w -> readers w = m -> remote_reader_guid rp = g -> proxy_inv (w_history w) rp ->
  writer_inv (w_set_readers w (<[g := rp]> m)).
Proof.
  intros [? ? ? Hr] <- Hg Hp. split; simpl; [done..|]. intros g' rp'. rewrite lookup_insert_Some.
  intros [[<- <-]|[_ ?]]; auto.
Qed.

Lemma writer_inv_delete w g : writer_inv w -> writer_inv (w_set_readers w (delete g (readers w))).
Proof. intros [? ? ? Hr]. split; simpl; [done..|]. intros g' rp'. rewrite lookup_delete_Some. intros [_ ?]. auto. Qed.
