(* ===== verification/WriterHandlers.v ===== *)
(** * Every handler of the writer

    The handlers of [src/rtps/writer.rs] return from any state that satisfies
    the invariant, keep it, and send only messages that are true of the state
    they leave behind. *)

From S2P Require Import Prelude BTree Wire SequenceNumbers Time Guid Locator ParameterList Qos Payload Submessages Headers MessageBuilder FragmentAssembler ReaderProxy HistoryBuffer Writer WriterCorrect.

Definition good {A} (_ : A) (w : Writer) (evs : list WriterEvent) : Prop := writer_inv w /\ honest w evs.

Lemma honest_nil w : honest w [].
Proof. constructor. Qed.
Lemma honest_app w evs evs' : honest w (evs ++ evs') <-> honest w evs /\ honest w evs'.
Proof. apply Forall_app. Qed.
#[export] Hint Resolve honest_nil : rtps.

Section handlers.
Context `{SP : Speedy}.

(** A message of nothing but a HEARTBEAT and information is honest anywhere. *)
Lemma heartbeat_honest h known msgs tgts evs :
  Forall (fun m => Forall (fun sm => match sm_body sm with
    | SmHeartbeat hb => first_sn hb = first_seq h /\ last_sn hb = last_seq h
    | SmInfoTimestamp _ => True | _ => False end) (submessages m)) msgs ->
  sent_exactly msgs tgts evs -> Forall (event_honest h known) evs.
Proof.
  intros Hm He. apply Forall_forall. intros ev (m & loc & Hin & Hloc & ->)%He. simpl.
  rewrite Forall_forall in Hm. eapply Forall_impl; [exact (Hm m Hin)|]. intros sm Hsm.
  unfold sub_honest. cbv beta in Hsm. by destruct (sm_body sm).
Qed.

(** *** Commands *)

Definition data_ok (w : Writer) (now : Timestamp) (data : DDSData) (sn : SequenceNumber) : Prop :=
  fresh_time (w_history w) now /\ last_seq (w_history w) < sn < i64_max /\ DDSData_payload_size data < 2 ^ 32.

Lemma last_seq_nonneg w : writer_inv w -> 0 <= last_seq (w_history w) < i64_max.
Proof. intros Hw. pose proof (hist_bounds _ (wi_hist w Hw)). lia. Qed.

Lemma writer_inv_add w now cc :
  writer_inv w -> data_ok w now (cc_data_value cc) (cc_sequence_number cc) ->
  writer_inv (w_set_history w (HistoryBuffer_add_change (w_history w) now cc)).
Proof.
  intros Hw (Hf & Hsn & Hsz). pose proof (wi_hist w Hw) as Hh. split; simpl.
  - by apply hist_add_inv.
  - apply (wi_config w Hw).
  - intros sn c. rewrite get_by_sn_add by done. case_decide; [intros [= <-]; done|]. apply (wi_sendable w Hw).
  - intros g rp Hg. destruct (wi_readers w Hw g rp Hg) as [? Hp]. split; [done|].
    eapply proxy_inv_mono; [|exact Hp]. simpl. zcases; unfold last_change_sequence_number in *; lia.
Qed.

Lemma proxy_inv_notify h opts sn rp :
  1 <= sn <= last_seq h -> proxy_inv h rp -> proxy_inv h (notify_reader opts sn rp).
Proof.
  intros Hsn [H1 H2 H3 H4].
  assert (forall x, x ∈ unsent_changes (notify_reader opts sn rp) -> 0 <= x <= last_seq h) as Hu.
  { intros x. unfold notify_reader. destruct (to_single_reader opts); [case_decide|]; simpl;
      (intros [->%elem_of_singleton|?%H2]%elem_of_union; lia). }
  assert (forall x, x ∈ pending_gap (notify_reader opts sn rp) -> 1 <= x <= last_seq h) as Hg.
  { intros x. unfold notify_reader. destruct (to_single_reader opts); [case_decide|]; simpl; [by apply H3| |by apply H3].
    intros [->%elem_of_singleton|?%H3]%elem_of_union; lia. }
  split; [|done|done|]; unfold notify_reader; (destruct (to_single_reader opts); [case_decide|]; done).
Qed.

Lemma notify_reader_guid opts sn rp : remote_reader_guid (notify_reader opts sn rp) = remote_reader_guid rp.
Proof. unfold notify_reader. destruct (to_single_reader opts); [case_decide|]; done. Qed.

Lemma writer_inv_notify w opts sn :
  writer_inv w -> 1 <= sn <= last_seq (w_history w) ->
  writer_inv (w_set_readers w (notify_reader opts sn <$> readers w)).
Proof.
  intros Hw Hsn. destruct Hw as [? ? ? Hr]. split; simpl; [done..|]. intros g rp.
  rewrite lookup_fmap_Some. intros (rp0 & <- & Hg). destruct (Hr g rp0 Hg) as [<- Hp].
  split; [apply notify_reader_guid|by apply proxy_inv_notify].
Qed.

Lemma process_data_good w now data opts sn :
  writer_inv w -> data_ok w now data sn -> wp (process_data_command now data opts sn) w good.
Proof.
  intros Hw Hd. pose proof (last_seq_nonneg w Hw). pose proof Hd as (Hf & Hsn & Hsz).
  unfold process_data_command, insert_to_history_buffer. wp_steps.
  eapply wp_lift; [unfold rust_assert, SequenceNumber_zero; destruct (Z.ltb_spec 0 sn); [done|lia]|]. simpl. wp_steps.
  set (cc := mkCacheChange (w_my_guid w) sn opts data). set (w1 := w_set_history w _).
  set (w2 := if like_stateless w then w1 else _).
  assert (writer_inv w1) as Hw1 by (by apply writer_inv_add).
  assert (w_history w2 = HistoryBuffer_add_change (w_history w) now cc) as Eh by (unfold w2; by destruct (like_stateless w)).
  assert (writer_inv w2) as Hw2.
  { unfold w2. destruct (like_stateless w); [done|]. apply (writer_inv_notify w1); [done|]. simpl.
    unfold last_change_sequence_number. zcases; lia. }
  clearbody w2. destruct (push_mode w2).
  - rewrite Eh. unfold HistoryBuffer_get_change. simpl. rewrite lookup_insert_eq.
    assert (get_by_sn (w_history w2) (cc_sequence_number cc) = Some cc) as Hcc.
    { rewrite Eh, get_by_sn_add by (done || apply (wi_hist w Hw)). by rewrite decide_True. }
    apply wp_bind, send_cache_change_wp.
    + apply (wi_config w2 Hw2).
    + exact Hsz.
    + intros rp (g & _ & Hg)%bind_Some. destruct (wi_readers w2 Hw2 g rp Hg) as [_ Hp].
      by eapply pending_gap_range; [apply (wi_hist w2 Hw2)|].
    + intros _. wp_steps. split; [done|apply honest_nil].
    + intros msgs c evs Ha [Hm _] He. wp_steps. rewrite app_nil_r. split; [by apply writer_inv_counter|].
      eapply (change_honest (w_history w2) (matched w2) cc); [done|done| |exact Ha|exact Hm|exact He].
      intros rp (g & _ & Hg)%bind_Some. by eapply matched_reader.
  - apply wp_bind, push_heartbeat_wp. apply send_one_wp. intros evs He. simpl.
    split; [by apply writer_inv_counter|]. eapply heartbeat_honest; [|exact He]. constructor; [|done].
    unfold heartbeat_msg; simpl. by repeat constructor.
Qed.

Lemma process_wait_good w ch : writer_inv w -> wp (process_wait_command ch) w good.
Proof.
  intros Hw. unfold process_wait_command. wp_steps. destruct (like_stateless w).
  - wp_steps. split; [done|by repeat constructor].
  - apply wp_bind. case_decide; wp_steps; (split; [by apply writer_inv_waiter|by repeat constructor]).
Qed.

(** *** Heartbeats *)

Lemma heartbeat_tick_good w now manual : writer_inv w -> wp (handle_heartbeat_tick now manual) w good.
Proof.
  intros Hw. unfold handle_heartbeat_tick. wp_steps. destruct (like_stateless w); [wp_steps; by split; [|apply honest_nil]|].
  destruct (forallb _ _); [wp_steps; by split; [|apply honest_nil]|].
  apply wp_bind, push_heartbeat_wp. set (m := add_header_and_build _ _). set (w' := w_set_counter w _).
  assert (writer_inv w') as Hw' by (by apply writer_inv_counter).
  assert (forall tgts evs, sent_exactly [m] tgts evs -> honest w' evs) as Hm.
  { intros tgts evs He. eapply heartbeat_honest; [|exact He]. constructor; [|done].
    unfold m, heartbeat_msg; simpl. by repeat constructor. }
  clearbody w'. case_decide.
  - eapply wp_mono; [apply (wp_for (fun w2 evs => w2 = w' /\ honest w' evs)); [by split; [|apply honest_nil]|]|].
    + intros rp w2 evs _ [-> He]. destruct (_ <? _); [wp_steps; by rewrite app_nil_r|].
      apply send_one_wp. intros evs' He'. split; [done|]. apply honest_app. split; [done|by eapply Hm].
    + intros u w2 evs [-> He]. by split.
  - apply send_one_wp. intros evs He. split; [done|by eapply Hm].
Qed.

(** *** Repairs *)

(** What a worker on one detached proxy must do. *)
Definition worker_good (h : HistoryBuffer) (rp : RtpsReaderProxy) (w : Writer) (rp' : RtpsReaderProxy) (w' : Writer)
    (evs : list WriterEvent) : Prop :=
  (exists c, w' = w_set_counter w c) /\ same_view rp rp' /\ proxy_inv h rp' /\ Forall (event_honest h (eq rp)) evs.

Lemma with_reader_removed_good w g worker :
  writer_inv w ->
  (forall rp w0, matched w rp -> proxy_inv (w_history w) rp -> writer_inv w0 -> w_history w0 = w_history w ->
     wp (worker rp) w0 (worker_good (w_history w) rp w0)) ->
  wp (with_reader_removed g worker) w good.
Proof.
  intros Hw Hwork. unfold with_reader_removed. wp_steps. destruct (like_stateless w); [wp_steps; by split; [|apply honest_nil]|].
  destruct (readers w !! g) as [rp|] eqn:Eg; [|wp_steps; by split; [|apply honest_nil]].
  destruct (wi_readers w Hw g rp Eg) as [Hg Hp]. wp_steps.
  assert (writer_inv (w_set_readers w (delete g (readers w)))) as Hw0 by (by apply writer_inv_delete).
  eapply wp_mono; [apply (Hwork rp _); [by eapply matched_reader|done|exact Hw0|done]|].
  intros rp' w' evs ([c ->] & Hv & Hp' & He). unfold set_reader. wp_steps. rewrite app_nil_r. split.
  - apply writer_inv_set_reader; [by apply writer_inv_counter|done..].
  - unfold honest; simpl. eapply Forall_impl; [exact He|]. intros ev. apply event_honest_mono.
    intros rp0 <-. exists rp'. split; [|done]. unfold matched; simpl. by rewrite lookup_insert_eq.
Qed.

Lemma mark_all_sent rp l :
  exists U, foldl mark_change_sent rp l = rp_set_unsent rp U /\ forall x, x ∈ U <-> x ∈ unsent_changes rp /\ x ∉ l.
Proof.
  revert rp. induction l as [|y l IH]; intros rp; simpl.
  - exists (unsent_changes rp). split; [by destruct rp|]. set_solver.
  - destruct (IH (mark_change_sent rp y)) as (U & -> & HU). exists U. split; [done|].
    intros x. rewrite HU. simpl. set_solver.
Qed.

(** A GAP submessage for the reader that is true of the history. *)
Definition gap_true (h : HistoryBuffer) (rp : RtpsReaderProxy) (sm : Submessage) : Prop :=
  match sm_body sm with
  | SmGap g => gap_reader_id g = entity_id (remote_reader_guid rp) /\
      forall sn, gap_declares g sn -> gone h sn \/ sn ∈ pending_gap rp
  | SmInfoDestination _ => True
  | _ => False
  end.

Lemma gap_true_honest h rp m tgts evs :
  Forall (gap_true h rp) (submessages m) -> tgts = send_targets Unicast [rp] ->
  sent_exactly [m] tgts evs -> Forall (event_honest h (eq rp)) evs.
Proof.
  intros Hm -> He. apply Forall_forall. intros ev (m' & loc & ->%list_elem_of_singleton & Hloc & ->)%He. simpl.
  apply elem_of_send_targets in Hloc as (rp' & ->%list_elem_of_singleton & Hloc).
  eapply Forall_impl; [exact Hm|]. intros sm. unfold gap_true, sub_honest. destruct (sm_body sm); try done.
  intros [? ?]. exists rp. done.
Qed.

(** The message carries a GAP that declares [sn]. *)
Definition declared (m : Message) (sn : SequenceNumber) : Prop :=
  exists sm g, sm ∈ submessages m /\ sm_body sm = SmGap g /\ gap_declares g sn.

Lemma gap_before_true h rp mb before wid e :
  hist_inv h -> before = first_seq h -> Forall (gap_true h rp) mb ->
  Forall (gap_true h rp) (gap_msg_before mb before wid e (remote_reader_guid rp)) /\
  forall p sn, 1 <= sn < before -> declared (add_header_and_build (gap_msg_before mb before wid e (remote_reader_guid rp)) p) sn.
Proof.
  intros Hh -> Hmb. unfold gap_msg_before. destruct (NumberSet_new_shape (k:=KSequence) (first_seq h) 0) as [_ Hemp]; [lia|].
  split.
  - apply Forall_app. split; [done|]. constructor; [|done]. split; [done|]. intros sn [Hsn|?%Hemp]; [|done].
    simpl in Hsn. pose proof (hist_bounds h Hh) as [? _]. left. split; [|lia].
    destruct (get_by_sn h sn) eqn:E; [|done]. apply get_by_sn_bounds in E as [? _]; [lia|done].
  - intros p sn Hsn. eexists _, _. split; [apply elem_of_app; right; by left|]. split; [done|]. left. simpl. lia.
Qed.

Lemma gap_set_true h rp mb S wid e :
  S <> ∅ -> gap_range S -> (forall sn, sn ∈ S -> gone h sn \/ sn ∈ pending_gap rp) ->
  Forall (gap_true h rp) mb ->
  exists sm, gap_msg mb S wid e (remote_reader_guid rp) = Ret (mb ++ [sm]) /\ Forall (gap_true h rp) (mb ++ [sm]) /\
    forall p sn start, bs_first S = Some start -> sn ∈ S -> sn <= start + 256 ->
      declared (add_header_and_build (mb ++ [sm]) p) sn.
Proof.
  intros Hne HS Htrue Hmb. destruct (gap_msg_run mb S wid e (remote_reader_guid rp) Hne HS) as (g & -> & Hg & Hd & Hf).
  eexists. split; [done|]. split.
  - apply Forall_app. split; [done|]. constructor; [|done]. split; [done|]. intros sn ?%Hd. auto.
  - intros p sn start Hs Hsn Hle. eexists _, g. split; [apply elem_of_app; right; by left|]. split; [done|by eapply Hf].
Qed.

Lemma declared_app p mb mb' sn :
  declared (add_header_and_build mb p) sn -> declared (add_header_and_build (mb ++ mb') p) sn.
Proof. intros (sm & g & Hin & ?). exists sm, g. split; [apply elem_of_app; by left|done]. Qed.

Lemma repair_gap_wp rp S before w (Q : RtpsReaderProxy -> Writer -> list WriterEvent -> Prop) :
  hist_inv (w_history w) -> gap_range S ->
  (forall sn, sn ∈ S -> gone (w_history w) sn \/ sn ∈ pending_gap rp) ->
  (forall b, before = Some b -> b = first_seq (w_history w)) ->
  (S = ∅ -> before = None -> Q rp w []) ->
  (forall U m evs, (forall x, x ∈ U <-> x ∈ unsent_changes rp /\ (x ∉ S) /\ forall b, before = Some b -> b <= x) ->
     Forall (gap_true (w_history w) rp) (submessages m) ->
     (forall b sn, before = Some b -> 1 <= sn < b -> declared m sn) ->
     (forall sn start, bs_first S = Some start -> sn ∈ S -> sn <= start + 256 -> declared m sn) ->
     sent_exactly [m] (send_targets Unicast [rp]) evs -> Q (rp_set_unsent rp U) w evs) ->
  wp (repair_gap rp S before) w Q.
Proof.
  intros Hh HS Htrue Hb Hnone HQ. unfold repair_gap. wp_steps. case_decide as Hd; [destruct Hd; wp_steps; auto|].
  set (p := prefix (w_my_guid w)). set (mb0 := dst_submessage [] (endianness w) (prefix (remote_reader_guid rp))).
  assert (Forall (gap_true (w_history w) rp) mb0) as Hmb0 by (by repeat constructor).
  (* the part below the history *)
  set (x := match before with Some _ => _ | None => _ end).
  assert (exists mb U, x = (mb, rp_set_unsent rp U) /\ Forall (gap_true (w_history w) rp) mb /\
    (forall y, y ∈ U <-> y ∈ unsent_changes rp /\ forall b, before = Some b -> b <= y) /\
    (forall b sn, before = Some b -> 1 <= sn < b -> declared (add_header_and_build mb p) sn)) as (mb & U & -> & Hmb & HU & Hdecl).
  { unfold x. destruct before as [b|].
    - destruct (gap_before_true (w_history w) rp mb0 b (w_entity_id w) (endianness w)) as [H1 H2]; [done|by apply Hb|done|].
      eexists _, _. split; [done|]. split; [done|]. split; [|intros b' sn [= <-]; apply H2].
      intros y. rewrite elem_of_bs_from, kle_Z. naive_solver.
    - exists mb0, (unsent_changes rp). split; [by destruct rp|]. split; [done|]. split; [naive_solver|done]. }
  clear Hmb0. clearbody mb0. wp_steps. case_decide as He.
  - wp_steps. apply send_one_wp. intros evs Hev. wp_steps. rewrite app_nil_r.
    apply (HQ U (add_header_and_build mb p)); [|done|done| |done].
    + intros y. rewrite HU, He. set_solver.
    + intros sn start _ Hsn. rewrite He in Hsn. set_solver.
  - destruct (gap_set_true (w_history w) rp mb S (w_entity_id w) (endianness w) He HS Htrue Hmb) as (sm & E & Hmb' & Hd').
    wp_steps. eapply wp_lift; [exact E|]. wp_steps.
    destruct (mark_all_sent (rp_set_unsent rp U) (bs_iter S)) as (U' & -> & HU').
    apply send_one_wp. intros evs Hev. wp_steps. rewrite app_nil_r.
    apply (HQ U' (add_header_and_build (mb ++ [sm]) p)); [|done| |eapply Hd'|done].
    + intros y. rewrite HU', elem_of_bs_iter. simpl. rewrite HU. tauto.
    + intros b sn Hb' Hsn. apply declared_app. by eapply Hdecl.
Qed.

(** A change has been put on the wire to a locator: whole, or declared irrelevant. *)
Definition served (w : Writer) (evs : list WriterEvent) (loc : Locator) (sn : SequenceNumber) : Prop :=
  (exists cc msgs, get_by_sn (w_history w) sn = Some cc /\ carries (data_max_size_serialized w) cc msgs /\
     forall m, m ∈ msgs -> EvSend m loc ∈ evs) \/
  (exists m, EvSend m loc ∈ evs /\ declared m sn).

Lemma served_app w evs evs' loc sn : served w evs loc sn \/ served w evs' loc sn -> served w (evs ++ evs') loc sn.
Proof. unfold served. setoid_rewrite elem_of_app. naive_solver. Qed.

(** The change is not meant for some other reader. *)
Definition for_reader (w : Writer) (g : GUID) (sn : SequenceNumber) : Prop :=
  forall cc g', get_by_sn (w_history w) sn = Some cc -> to_single_reader (cc_write_options cc) = Some g' -> g' = g.

Lemma repair_send_wp rp w sn cc (Q : RtpsReaderProxy -> Writer -> list WriterEvent -> Prop) :
  writer_inv w -> proxy_inv (w_history w) rp -> get_by_sn (w_history w) sn = Some cc ->
  (forall frags c evs,
     (forall s bv, frags !! s = Some bv -> Z.of_nat (length bv) < 2 ^ 32 - 1) ->
     Forall (event_honest (w_history w) (eq rp)) evs ->
     (for_reader w (remote_reader_guid rp) sn -> forall loc, loc ∈ locators_for Unicast rp -> served w evs loc sn) ->
     Q (mark_change_sent (rp_set_frags rp frags) sn) (w_set_counter w c) evs) ->
  wp (repair_send rp sn cc) w Q.
Proof.
  intros Hw Hp Hcc HQ. pose proof (wi_hist w Hw) as Hh. pose proof (get_by_sn_bounds _ _ _ Hh Hcc) as [_ Hsn].
  pose proof (wi_sendable w Hw _ _ Hcc) as Hs. unfold repair_send. wp_steps. apply send_cache_change_wp.
  - apply (wi_config w Hw).
  - done.
  - intros rp0 [= <-]. by eapply pending_gap_range.
  - intros Ha. wp_steps. assert (Q (mark_change_sent (rp_set_frags rp (frags_requested rp)) sn)
      (w_set_counter w (heartbeat_message_counter w)) []) as H; [|by destruct w, rp].
    apply HQ; [apply (pi_frags _ _ Hp)|constructor|]. intros Hf. exfalso. unfold target_allowed in Ha.
    destruct (to_single_reader (cc_write_options cc)) as [g'|] eqn:Eg; [|done].
    apply bool_decide_eq_false in Ha. apply Ha. by eapply Hf.
  - intros msgs c evs Ha [Hm Hcar] He.
    assert (Forall (event_honest (w_history w) (eq rp)) evs) as Hhon.
    { eapply (change_honest (w_history w) (eq rp) cc (Some rp) w); [by rewrite Hsn|done|by intros ? [= <-]|done..]. }
    assert (forall evs' loc, loc ∈ locators_for Unicast rp -> served w (evs ++ evs') loc sn) as Hserved.
    { intros evs' loc Hloc. apply served_app. left. left. exists cc, msgs. split; [done|]. split; [done|]. intros m Hin.
      apply He. exists m, loc. split; [done|]. split; [|done]. apply elem_of_send_targets. exists rp. set_solver. }
    destruct (Z.ltb_spec (data_max_size_serialized w) (DDSData_payload_size (cc_data_value cc))) as [Hl|Hl].
    + destruct (num_frags_run w cc (wi_config w Hw) Hs Hl) as [En Hn]. wp_steps. eapply wp_lift; [exact En|]. wp_steps.
      apply HQ; [| |by intros _ loc; apply Hserved].
      * intros s bv. rewrite lookup_insert_Some. intros [[_ <-]|[_ ?]]; [rewrite length_replicate; lia|by eapply (pi_frags _ _ Hp)].
      * apply Forall_app. split; [done|]. by repeat constructor.
    + wp_steps. assert (Q (mark_change_sent (rp_set_frags rp (frags_requested rp)) sn) (w_set_counter w c) (evs ++ [])) as H;
        [|by destruct rp].
      apply HQ; [apply (pi_frags _ _ Hp)|by rewrite app_nil_r|by intros _ loc; apply Hserved].
Qed.

(** What one repair step does to the proxy and to the first unsent change. *)
Definition repair_step (rp : RtpsReaderProxy) (w : Writer) (rp' : RtpsReaderProxy) (evs : list WriterEvent) : Prop :=
  match bs_first (unsent_changes rp) with
  | None => rp' = rp_set_repair_mode rp false
  | Some sn =>
      unsent_changes rp' ⊆ unsent_changes rp /\ (sn ∉ unsent_changes rp') /\
      forall x loc, x ∈ unsent_changes rp -> x ∉ unsent_changes rp' -> 1 <= x -> for_reader w (remote_reader_guid rp) x ->
        (forall start, bs_first (pending_gap rp) = Some start -> x ∈ pending_gap rp -> x <= start + 256) ->
        loc ∈ locators_for Unicast rp -> served w evs loc x
  end.

Lemma proxy_inv_unsent h rp U frags b :
  proxy_inv h rp -> (forall x, x ∈ U -> x ∈ unsent_changes rp) ->
  (forall s bv, frags !! s = Some bv -> Z.of_nat (length bv) < 2 ^ 32 - 1) ->
  proxy_inv h (rp_set_repair_mode (rp_set_unsent (rp_set_frags rp frags) U) b).
Proof. intros [? H ? ?] HU Hf. split; simpl; [done| |done|done]. intros sn ?%HU. auto. Qed.

Lemma sent_to_all rp m evs loc :
  sent_exactly [m] (send_targets Unicast [rp]) evs -> loc ∈ locators_for Unicast rp -> EvSend m loc ∈ evs.
Proof. intros He Hl. apply He. exists m, loc. split; [by left|]. split; [|done]. apply elem_of_send_targets. exists rp. set_solver. Qed.

Lemma repair_gap_nothing rp w (Q : RtpsReaderProxy -> Writer -> list WriterEvent -> Prop) :
  Q rp w [] -> wp (repair_gap rp ∅ None) w Q.
Proof. intros HQ. unfold repair_gap. wp_steps. by rewrite decide_True by done. Qed.

(** A repair step that only sends a GAP. *)
Lemma repair_gap_good rp w sn S before :
  writer_inv w -> proxy_inv (w_history w) rp -> bs_first (unsent_changes rp) = Some sn ->
  gap_range S -> (forall x, x ∈ S -> gone (w_history w) x \/ x ∈ pending_gap rp) ->
  (forall b, before = Some b -> b = first_seq (w_history w)) ->
  sn ∈ S \/ (exists b, before = Some b /\ sn < b) ->
  (forall x start, bs_first S = Some start -> x ∈ S ->
     (forall start, bs_first (pending_gap rp) = Some start -> x ∈ pending_gap rp -> x <= start + 256) -> x <= start + 256) ->
  wp (repair_gap rp S before) w (fun rp' w' evs => worker_good (w_history w) rp w rp' w' evs /\ repair_step rp w rp' evs).
Proof.
  intros Hw Hp Hsn HS Htrue Hb Hcase Hwin. apply repair_gap_wp; [apply (wi_hist w Hw)|done..| |].
  { intros -> ->. destruct Hcase as [?|(? & ? & ?)]; [set_solver|done]. }
  intros U m evs HU Hm Hd1 Hd2 He. split.
  - split; [exists (heartbeat_message_counter w); by destruct w|]. split; [done|]. split; [|by eapply gap_true_honest].
    pose proof (proxy_inv_unsent _ rp U (frags_requested rp) (repair_mode rp) Hp) as H.
    destruct rp. apply H; [intros x ?%HU; tauto|apply (pi_frags _ _ Hp)].
  - unfold repair_step. rewrite Hsn. simpl. split; [intros x ?%HU; tauto|]. split.
    + rewrite HU. intros (_ & HnS & Hbb). destruct Hcase as [?|(b & Eb & ?)]; [done|]. specialize (Hbb b Eb). lia.
    + intros x loc Hx HnU Hx1 _ Hxw Hloc. right. exists m. split; [by eapply sent_to_all|].
      destruct (decide (x ∈ S)) as [HxS|HxS].
      * destruct (bs_first S) as [start|] eqn:Es; [|by apply bs_first_None in Es; set_solver]. eapply Hd2; [done|done|].
        by eapply Hwin.
      * destruct before as [b|]; [|destruct HnU; apply HU; done]. apply (Hd1 b); [done|].
        split; [done|]. apply Z.nle_gt. intros Hle. apply HnU, HU. split; [done|]. split; [done|]. by intros b' [= <-].
Qed.

Lemma repair_worker_good rp w :
  writer_inv w -> proxy_inv (w_history w) rp ->
  wp (handle_repair_data_send_worker rp) w
    (fun rp' w' evs => worker_good (w_history w) rp w rp' w' evs /\ repair_step rp w rp' evs).
Proof.
  intros Hw Hp. pose proof (wi_hist w Hw) as Hh. pose proof (hist_bounds _ Hh) as [Hb1 Hb2].
  unfold handle_repair_data_send_worker. wp_steps.
  unfold first_unsent_change. destruct (bs_first (unsent_changes rp)) as [sn|] eqn:Esn.
  2: { wp_steps. split; [|unfold repair_step; by rewrite Esn]. split; [exists (heartbeat_message_counter w); by destruct w|].
       split; [done|]. split; [by destruct Hp|constructor]. }
  pose proof Esn as [Hin _]%bs_first_Some. pose proof (pi_unsent _ _ Hp sn Hin) as Hsnr.
  unfold first_change_sequence_number.
  set (before := if sn <? first_seq (w_history w) then Some (first_seq (w_history w)) else None).
  assert (forall b, before = Some b -> b = first_seq (w_history w)) as Hbefore
    by (unfold before; destruct (_ <? _); naive_solver).
  destruct (bool_decide (sn ∈ pending_gap rp) || bool_decide (is_Some before)) eqn:Ec.
  - apply (repair_gap_good rp w sn); [done..|by eapply pending_gap_range|by right|done| |].
    + apply orb_true_iff in Ec as [?%bool_decide_eq_true|[b Eb]%bool_decide_eq_true]; [by left|right].
      exists b. split; [done|]. unfold before in Eb. zcases. injection Eb as <-. lia.
    + intros x start Hs Hx H. by apply H.
  - apply orb_false_iff in Ec as [Hnp%bool_decide_eq_false Hnb%bool_decide_eq_false].
    assert (before = None) as Enone by (destruct before; [destruct Hnb; by eexists|done]).
    assert (first_seq (w_history w) <= sn) as Hge by (unfold before in Enone; zcases; lia).
    rewrite Enone. destruct (get_by_sn (w_history w) sn) as [cc|] eqn:Ecc.
    + apply wp_bind, repair_send_wp; [done..|]. intros frags c evs Hf Hhon Hserved.
      apply repair_gap_nothing. rewrite app_nil_r. split.
      * split; [by eauto|]. split; [done|]. split; [|done].
        pose proof (proxy_inv_unsent _ rp (unsent_changes rp ∖ {[sn]}) frags (repair_mode rp) Hp) as H.
        destruct rp. apply H; [set_solver|done].
      * unfold repair_step. rewrite Esn. simpl. split; [set_solver|]. split; [set_solver|].
        intros x loc Hx HnU _ Hfor _ Hloc. assert (x = sn) as -> by (destruct (decide (x = sn)); [done|set_solver]). auto.
    + apply (repair_gap_good rp w sn); [done..| | |done|left; set_solver|].
      * intros x ->%elem_of_singleton. lia.
      * intros x ->%elem_of_singleton. left. split; [done|lia].
      * intros x start Hs ->%elem_of_singleton _. apply bs_first_Some in Hs as [->%elem_of_singleton _]. lia.
Qed.

Lemma repair_data_good w g : writer_inv w -> wp (handle_repair_data_send g) w good.
Proof.
  intros Hw. apply with_reader_removed_good; [done|]. intros rp w0 _ Hp Hw0 Eh. rewrite <- Eh in *.
  eapply wp_mono; [by apply repair_worker_good|]. by intros rp' w' evs [? _].
Qed.

(** *** Fragment repairs *)

(** The listed fragments exist in the bit vectors of the proxy. *)
Definition frags_in (rp : RtpsReaderProxy) (l : list (SequenceNumber * FragmentNumber)) : Prop :=
  forall sn f bv, (sn, f) ∈ l -> frags_requested rp !! sn = Some bv -> 1 <= f <= Z.of_nat (length bv).

Lemma mark_frag_sent_total rp sn f l :
  (forall s bv, frags_requested rp !! s = Some bv -> Z.of_nat (length bv) < 2 ^ 32 - 1) -> frags_in rp ((sn, f) :: l) ->
  exists m, mark_frag_sent rp sn f = Ret (rp_set_frags rp m) /\
    (forall s bv, m !! s = Some bv -> Z.of_nat (length bv) < 2 ^ 32 - 1) /\ frags_in (rp_set_frags rp m) l.
Proof.
  intros Hlen Hin. unfold mark_frag_sent. destruct (frags_requested rp !! sn) as [bv|] eqn:E.
  2: { exists (frags_requested rp). split; [by destruct rp|]. split; [done|]. intros s g b Hs. apply Hin. by right. }
  pose proof (Hin sn f bv ltac:(by left) E). pose proof (Hlen sn bv E).
  rewrite (wrap_u_id 64), bitvec_set_in by bounds_lia. simpl.
  set (bv' := <[_ := false]> bv).
  set (m := if forallb negb bv' then delete sn (frags_requested rp) else <[sn := bv']> (frags_requested rp)).
  assert (forall s b, m !! s = Some b -> exists b0, frags_requested rp !! s = Some b0 /\ length b = length b0) as Hm.
  { intros s b. unfold m. destruct (forallb negb bv').
    - rewrite lookup_delete_Some. intros [_ ?]. by eauto.
    - rewrite lookup_insert_Some. intros [[<- <-]|[_ ?]]; [|by eauto]. exists bv. unfold bv'. by rewrite length_insert. }
  exists m. split; [unfold m; by destruct (forallb negb bv')|]. split.
  - intros s b (b0 & Hb0 & ->)%Hm. by eapply Hlen.
  - intros s g b Hs (b0 & Hb0 & ->)%Hm. eapply Hin; [by right|done].
Qed.

Lemma repair_frags_loop_good h rp0 rp w frags :
  writer_inv w -> h = w_history w -> same_view rp0 rp -> proxy_inv h rp -> frags_in rp frags ->
  wp (repair_frags_loop rp frags) w (worker_good h rp0 w).
Proof.
  intros Hw ->. revert rp. induction frags as [|[sn f] frags IH]; intros rp Hv Hp Hin; cbn [repair_frags_loop].
  { wp_steps. split; [exists (heartbeat_message_counter w); by destruct w|]. by split_and!. }
  wp_steps. destruct (mark_frag_sent_total rp sn f frags (pi_frags _ _ Hp) Hin) as (m & Em & Hm & Hin').
  assert (wp (repair_frags_loop (rp_set_frags rp m) frags) w (worker_good (w_history w) rp0 w)) as Hrest.
  { apply IH; [done| |done]. destruct Hp as [? ? ? ?]. by split. }
  destruct (get_by_sn (w_history w) sn) as [cc|] eqn:Ecc.
  2: { apply wp_bind. eapply wp_lift; [exact Em|]. eapply wp_mono; [exact Hrest|]. by intros rp' w' evs. }
  destruct (match to_single_reader _ with Some _ => _ | None => _ end) eqn:Ep.
  { wp_steps. split; [exists (heartbeat_message_counter w); by destruct w|]. by split_and!. }
  apply wp_bind. set (dsz := u32 (DDSData_payload_size (cc_data_value cc))).
  assert (0 <= dsz) as Hdsz by (unfold dsz; pose proof (wrap_u_range 32 (DDSData_payload_size (cc_data_value cc))); unfold in_u in *; lia).
  destruct (data_frag_msg_run (push_source_timestamp w [] cc) cc (entity_id (remote_reader_guid rp)) (w_my_guid w) f
    (u16 (u32 (data_max_size_serialized w))) dsz (endianness w) Hdsz) as (mb' & E & Hmb').
  eapply wp_lift; [exact E|]. apply wp_bind, send_one_wp. intros evs He. apply wp_bind. eapply wp_lift; [exact Em|].
  eapply wp_mono; [exact Hrest|]. intros rp' w' evs' ([c ->] & Hv' & Hp' & Hh'). simpl.
  split; [by eauto|]. split; [done|]. split; [done|]. apply Forall_app. split; [|done].
  apply Forall_forall. intros ev (m' & loc & ->%list_elem_of_singleton & Hloc & ->)%He. simpl.
  apply elem_of_send_targets in Hloc as (rp2 & ->%list_elem_of_singleton & Hloc). rewrite <- (same_view_locators _ _ _ Hv) in Hloc.
  apply Forall_app. split.
  - unfold push_source_timestamp, ts_msg. destruct (source_timestamp _); by repeat constructor.
  - apply Forall_forall. intros sm (d & Eb & Ed)%Hmb'. unfold sub_honest. rewrite Eb, Ed.
    exists cc. pose proof (get_by_sn_bounds _ _ _ (wi_hist w Hw) Ecc) as [_ ->]. split; [done|].
    intros g Hg. rewrite Hg in Ep. apply negb_false_iff, bool_decide_eq_true in Ep as ->.
    exists rp0. destruct Hv as [Hv _]. done.
Qed.

Lemma repair_frags_good w g : writer_inv w -> wp (handle_repair_frags_send g) w good.
Proof.
  intros Hw. apply with_reader_removed_good; [done|]. intros rp w0 _ Hp Hw0 Eh.
  unfold handle_repair_frags_send_worker. apply wp_bind.
  eapply wp_lift; [apply frags_requested_iterator_take, (pi_frags _ _ Hp)|].
  eapply wp_mono; [apply (repair_frags_loop_good (w_history w) rp); [done|done|done|done|]|by intros rp' w' evs].
  destruct (head (bt_iter (frags_requested rp))) as [[sn bv]|] eqn:E; [|intros s f b Hf; set_solver].
  intros s f b Hf Hb. rewrite head_lookup in E. apply list_elem_of_lookup_2, elem_of_bt_iter in E.
  apply elem_of_take in Hf as (i & Hi & _). apply list_elem_of_lookup_2, list_elem_of_fmap in Hi as (f' & [= -> ->] & Hf').
  rewrite E in Hb. injection Hb as <-. apply elem_of_ones in Hf' as [? Hl%lookup_lt_Some]. lia.
Qed.

(** *** Cleaning *)

Lemma cleaning_inv w depth : writer_inv w -> writer_inv (remove_all_acked_changes_but_keep_depth w depth).
Proof.
  intros Hw. unfold remove_all_acked_changes_but_keep_depth. set (k := if negb _ then _ else _). pose proof (wi_hist w Hw) as Hh.
  split; simpl.
  - by apply hist_remove_inv.
  - apply (wi_config w Hw).
  - intros sn cc. rewrite get_by_sn_remove by done. case_decide; [done|]. apply (wi_sendable w Hw).
  - intros g rp Hg. destruct (wi_readers w Hw g rp Hg) as [? Hp]. split; [done|]. eapply proxy_inv_mono; [|exact Hp].
    unfold HistoryBuffer_remove_changes_before. destruct (sequence_number_to_instant (w_history w) !! k); simpl; lia.
Qed.

Lemma handle_cache_cleaning_inv w : writer_inv w -> writer_inv (handle_cache_cleaning w).
Proof. intros. unfold handle_cache_cleaning. destruct (history (w_qos w)) as [[d|]|]; by apply cleaning_inv. Qed.

(** *** Acknowledgments *)

(** Events that put nothing on the wire. *)
Definition silent (evs : list WriterEvent) : Prop :=
  Forall (fun ev => match ev with EvSend _ _ => False | _ => True end) evs.

Lemma silent_honest w evs : silent evs -> honest w evs.
Proof. intros H. eapply Forall_impl; [exact H|]. by intros []. Qed.

Lemma update_ack_waiters_wp w g acked (Q : unit -> Writer -> list WriterEvent -> Prop) :
  (forall a evs, silent evs -> Q tt (w_set_ack_waiter w a) evs) -> wp (update_ack_waiters g acked) w Q.
Proof.
  intros HQ. unfold update_ack_waiters. apply wp_bind, wp_get. destruct (ack_waiter w) as [aw|] eqn:E.
  - destruct (reader_acked_or_lost aw g acked) as [[] aw']; wp_steps; apply HQ; by repeat constructor.
  - wp_steps. assert (Q tt (w_set_ack_waiter w (ack_waiter w)) []) as H by (apply HQ; constructor). by destruct w.
Qed.

Lemma ack_proxy_inv h rp an U :
  proxy_inv h rp -> ns_shape (reader_sn_state an) -> ns_in_range (reader_sn_state an) ->
  (forall x, x ∈ U <-> ((x ∈ unsent_changes rp /\ bitmap_base (reader_sn_state an) <= x) \/ ns_mem (reader_sn_state an) x) /\ x <= last_seq h) ->
  proxy_inv h (rp_set_pending_gap (rp_set_unsent (rp_set_acked rp (bitmap_base (reader_sn_state an))) U)
                 (bs_from (bitmap_base (reader_sn_state an)) (pending_gap rp))).
Proof.
  intros Hp [Hnb _] [Hb0 Hb1] HU. split; simpl.
  - simpl in *. lia.
  - intros sn [[[? ?]|[? _]] ?]%HU; lia.
  - intros sn [? _]%elem_of_bs_from. by apply (pi_pending _ _ Hp).
  - apply (pi_frags _ _ Hp).
Qed.

Lemma iter_next_total {k} (s : NumberSet k) :
  ns_shape s -> exists r, NumberSetIter_next (NumberSet_iter s) = Ret r.
Proof.
  intros Hs. pose proof (ns_next_spec (Z.to_nat (num_bits s - 0)) s 0 (num_bits s) Hs ltac:(lia) ltac:(lia) ltac:(lia)) as H.
  destruct (ns_bits_in s 0 (num_bits s)); [destruct H as [it H]|destruct H as [H _]]; eexists; exact H.
Qed.

(** The pending gaps of a matched reader, in a message to it. *)
Lemma pending_gap_message_good w g rp :
  writer_inv w -> readers w !! g = Some rp -> pending_gap rp <> ∅ ->
  exists mb, gap_msg [] (pending_gap rp) (w_entity_id w) (endianness w) g = Ret mb /\
    forall p evs, sent_exactly [add_header_and_build mb p] (send_targets Unicast [rp]) evs -> honest w evs.
Proof.
  intros Hw Hg Hne. destruct (wi_readers w Hw g rp Hg) as [<- Hp].
  destruct (gap_set_true (w_history w) rp [] (pending_gap rp) (w_entity_id w) (endianness w) Hne) as (sm & E & Hmb & _);
    [by eapply pending_gap_range; [apply (wi_hist w Hw)|]|by right|constructor|].
  exists ([] ++ [sm]). split; [exact E|]. intros p evs He.
  assert (Forall (event_honest (w_history w) (eq rp)) evs) as Hh by (by eapply (gap_true_honest _ _ (add_header_and_build ([] ++ [sm]) p)); [exact Hmb| |exact He]).
  eapply Forall_impl; [exact Hh|]. intros ev. apply event_honest_mono. intros rp' <-. exists rp. done.
Qed.

Definition acknack_ok (an : AckNack) : Prop := ns_shape (reader_sn_state an) /\ ns_in_range (reader_sn_state an).

Lemma handle_acknack_good w p an : writer_inv w -> acknack_ok an -> wp (handle_ack_nack p (Ack_AckNack an)) w good.
Proof.
  intros Hw [Hsh Hr]. unfold handle_ack_nack. wp_steps. destruct (_ || _); [wp_steps; by split; [|apply honest_nil]|].
  destruct (iter_next_total (reader_sn_state an) Hsh) as [r Er]. apply wp_bind. eapply wp_lift; [exact Er|].
  apply wp_bind, update_ack_waiters_wp. intros a evs0 Hs0. apply wp_bind. set (g := GUID_new p (an_reader_id an)).
  set (w1 := w_set_ack_waiter w a). assert (writer_inv w1) as Hw1 by (by apply writer_inv_waiter).
  (* the proxy is updated, a timer may be set *)
  eapply (wp_mono _ _ (fun _ w2 evs => writer_inv w2 /\ silent evs)).
  - destruct (readers w !! g) as [rp|] eqn:Eg; [|wp_steps; by split; [|constructor]].
    destruct (wi_readers w Hw g rp Eg) as [Hg Hp]. pose proof (last_seq_nonneg w Hw).
    destruct (handle_ack_nack_spec rp an (last_seq (w_history w)) Hsh Hr) as (U & E & HU); [unfold i64_min; lia|].
    apply wp_bind. eapply wp_lift; [exact E|]. pose proof (ack_proxy_inv _ _ _ U Hp Hsh Hr HU) as Hp'.
    assert (forall b rp', rp' = rp_set_repair_mode (rp_set_pending_gap (rp_set_unsent (rp_set_acked rp (bitmap_base (reader_sn_state an))) U)
                 (bs_from (bitmap_base (reader_sn_state an)) (pending_gap rp))) b ->
      writer_inv (w_set_readers w1 (<[g := rp']> (readers w1)))) as Hset.
    { intros b rp' ->. apply writer_inv_set_reader; [done|done|done|]. by destruct Hp'. }
    destruct (_ <? _); unfold set_reader; wp_steps; (split; [by eapply Hset|by repeat constructor]).
  - intros _ w2 evs [Hw2 Hs]. wp_steps. destruct (readers w2 !! g) as [rp|] eqn:Eg.
    2: { wp_steps. rewrite app_nil_r. split; [done|]. apply honest_app; split; by apply silent_honest. }
    case_decide as Hd; [wp_steps; rewrite app_nil_r; split; [done|]; apply honest_app; split; by apply silent_honest|].
    destruct (pending_gap_message_good w2 g rp Hw2 Eg Hd) as (mb & E & Hm).
    apply wp_bind. eapply wp_lift; [exact E|]. apply send_one_wp. intros evs' He. simpl.
    split; [done|]. rewrite !honest_app. split; [by apply silent_honest|]. split; [by apply silent_honest|by eapply Hm].
Qed.

(** A NACKFRAG asks only for fragments that the writer announced. *)
Definition nackfrag_ok (w : Writer) (g : GUID) (nf : NackFrag) : Prop :=
  ns_shape (fragment_number_state nf) /\ ns_in_range (fragment_number_state nf) /\
  forall rp bv, readers w !! g = Some rp -> frags_requested rp !! nf_writer_sn nf = Some bv -> bv <> [] ->
    forall f, ns_mem (fragment_number_state nf) f -> 1 <= f <= Z.of_nat (length bv).

Lemma mark_frags_requested_total rp sn fs :
  ns_shape fs -> ns_in_range fs ->
  (forall s bv, frags_requested rp !! s = Some bv -> Z.of_nat (length bv) < 2 ^ 32 - 1) ->
  (forall bv, frags_requested rp !! sn = Some bv -> bv <> [] -> forall f, ns_mem fs f -> 1 <= f <= Z.of_nat (length bv)) ->
  exists m, mark_frags_requested rp sn fs = Ret (rp_set_frags rp m) /\
    (forall s bv, m !! s = Some bv -> Z.of_nat (length bv) < 2 ^ 32 - 1).
Proof.
  intros Hsh Hr Hlen Hmem. unfold mark_frags_requested. destruct (NumberSet_to_list_members fs Hsh Hr) as (l & El & _ & Hl).
  assert (forall bv, Z.of_nat (length bv) < 2 ^ 32 - 1 -> exists m, m = <[sn := bv]> (frags_requested rp) /\
    forall s b, m !! s = Some b -> Z.of_nat (length b) < 2 ^ 32 - 1) as Hins.
  { intros bv Hbv. eexists. split; [done|]. intros s b. rewrite lookup_insert_Some. intros [[_ <-]|[_ ?]]; [done|by eapply Hlen]. }
  destruct (frags_requested rp !! sn) as [bv|] eqn:E; simpl.
  2: { destruct (Hins []) as (m & -> & Hm); [simpl; lia|]. by eexists. }
  destruct (last bv) as [b|] eqn:Elast.
  2: { destruct (Hins bv) as (m & -> & Hm); [by eapply Hlen|]. by eexists. }
  assert (bv <> []) as Hne by (intros ->; done).
  assert (0 < Z.of_nat (length bv)) by (destruct bv; simpl; [done|lia]).
  destruct (Z.ltb_spec (Z.of_nat (length bv)) (Z.b2z b)); [destruct b; simpl in *; lia|]. rewrite El. simpl.
  destruct (outcome_fold_ret (fun s => length s = length bv) (fun s f => bitvec_set s (u64 (f - 1)) true) bv l) as (bv' & -> & Hl');
    [done| |].
  - intros s f Hs Hf%Hl. pose proof (Hmem bv eq_refl Hne f Hf). pose proof (Hlen _ _ E).
    rewrite (wrap_u_id 64), bitvec_set_in by (rewrite ?Hs; bounds_lia). eexists. split; [done|]. by rewrite length_insert.
  - destruct (Hins bv') as (m & -> & Hm); [rewrite Hl'; by eapply Hlen|]. simpl. by eexists.
Qed.

Lemma handle_nackfrag_good w p nf :
  writer_inv w -> nackfrag_ok w (GUID_new p (nf_reader_id nf)) nf -> wp (handle_ack_nack p (Ack_NackFrag nf)) w good.
Proof.
  intros Hw (Hsh & Hr & Hmem). unfold handle_ack_nack. wp_steps. destruct (_ || _); [wp_steps; by split; [|apply honest_nil]|].
  set (g := GUID_new p (nf_reader_id nf)) in *. apply wp_bind. destruct (readers w !! g) as [rp|] eqn:Eg.
  - destruct (wi_readers w Hw g rp Eg) as [Hg Hp].
    destruct (mark_frags_requested_total rp (nf_writer_sn nf) (fragment_number_state nf) Hsh Hr (pi_frags _ _ Hp)) as (m & E & Hm);
      [intros bv; by apply Hmem|].
    apply wp_bind. eapply wp_lift; [exact E|]. unfold set_reader. wp_steps.
    split; [apply writer_inv_set_reader; [done..|]; destruct Hp; by split|by repeat constructor].
  - wp_steps. split; [done|by repeat constructor].
Qed.
End handlers.
