(* ===== verification/WriterTheorems.v ===== *)
(** * What the writer guarantees

    The theorems about the whole writer of [src/rtps/writer.rs]: no input makes
    it panic or say something untrue, repairs serve every request, waits for
    acknowledgments end when they should, and cleaning keeps what is not yet
    acknowledged. *)

From S2P Require Import Prelude BTree Wire SequenceNumbers Time Guid Locator ParameterList Qos Payload Submessages Headers MessageBuilder FragmentAssembler ReaderProxy HistoryBuffer Writer WriterCorrect WriterHandlers.

(** Everything that can happen to a writer. *)
Inductive WriterInput :=
| InCommand (now : Timestamp) (c : WriterCommand)
| InTimer (now : Timestamp) (e : TimedEvent)
| InAck (p : GuidPrefix) (a : AckSubmessage)
| InUpdateReader (rp : RtpsReaderProxy) (requested : QosPolicies)
| InReaderLost (g : GUID)
| InParticipantLost (p : GuidPrefix).

Section theorems.
Context `{SP : Speedy}.

Definition writer_handle (i : WriterInput) : W unit :=
  match i with
  | InCommand now c => _ ← process_writer_command [(now, c)]; mret tt
  | InTimer now e => handle_timed_event [(now, e)]
  | InAck p a => handle_ack_nack p a
  | InUpdateReader rp q => update_reader_proxy rp q
  | InReaderLost g => reader_lost g
  | InParticipantLost p => participant_lost p
  end.

(** What the environment promises: new changes have ascending sequence numbers
    and fit a [u32], the clock advances, received number sets have passed the
    deserializer, and NACKFRAGs ask for announced fragments. *)
Definition input_ok (w : Writer) (i : WriterInput) : Prop :=
  match i with
  | InCommand now (WCData data _ sn) => data_ok w now data sn
  | InAck p (Ack_AckNack an) => acknack_ok an
  | InAck p (Ack_NackFrag nf) => nackfrag_ok w (GUID_new p (nf_reader_id nf)) nf
  | InUpdateReader rp _ => proxy_inv (w_history w) rp
  | _ => True
  end.

Lemma wp_good_mono {A} (m : W A) w (Q : A -> Writer -> list WriterEvent -> Prop) :
  wp m w good -> (forall a w' evs, good a w' evs -> Q a w' evs) -> wp m w Q.
Proof. apply wp_mono. Qed.

Lemma timed_event_good w now e : writer_inv w -> wp (handle_one_timed_event now e) w good.
Proof.
  intros Hw.
  assert (forall u w' evs evs', good (A:=unit) u w' evs -> silent evs' -> good tt w' (evs ++ evs')) as Happ.
  { intros u w' evs evs' [? ?] Hs. split; [done|]. apply honest_app. split; [done|by apply silent_honest]. }
  destruct e as [| |g|g]; unfold handle_one_timed_event; apply wp_bind.
  - eapply wp_good_mono; [by apply heartbeat_tick_good|]. intros u w' evs Hg. wp_steps.
    destruct (heartbeat_period w'); wp_steps; (eapply Happ; [done|by repeat constructor]).
  - wp_steps. split; [by apply handle_cache_cleaning_inv|by repeat constructor].
  - eapply wp_good_mono; [by apply repair_data_good|]. intros u w' evs Hg. wp_steps.
    destruct (readers w' !! g) as [rp|]; [|wp_steps; eapply Happ; [done|constructor]].
    destruct (repair_mode rp); [|wp_steps; eapply Happ; [done|constructor]].
    apply wp_bind. eapply wp_lift; [by unfold Duration_div|]. wp_steps. eapply Happ; [done|by repeat constructor].
  - eapply wp_good_mono; [by apply repair_frags_good|]. intros u w' evs Hg. wp_steps.
    destruct (readers w' !! g) as [rp|]; [|wp_steps; eapply Happ; [done|constructor]].
    destruct (repair_frags_requested rp); wp_steps; (eapply Happ; [done|by repeat constructor]).
Qed.

Lemma set_pending_gap_run rp n :
  n < i64_max -> exists S, set_pending_gap_up_to rp n = Ret (rp_set_pending_gap rp S) /\
    forall x, x ∈ S <-> x ∈ pending_gap rp \/ 1 <= x <= n.
Proof.
  intros Hn. unfold set_pending_gap_up_to, SequenceNumber_new.
  change (SequenceNumberRange_new 1 n) with (range_inclusive 1 n). rewrite range_inclusive_list by (unfold i64_min; lia).
  eexists. split; [done|]. intros x. rewrite elem_of_union, elem_of_list_to_set, elem_of_seqZ. split; (intros [?|?]; [by left|right; lia]).
Qed.

Lemma update_reader_good w rp q : writer_inv w -> proxy_inv (w_history w) rp -> wp (update_reader_proxy rp q) w good.
Proof.
  intros Hw Hp. pose proof (last_seq_nonneg w Hw). unfold update_reader_proxy. wp_steps.
  destruct (compliance_failure_wrt (w_qos w) q) as [pol|].
  { wp_steps. split; [by destruct Hw|by repeat constructor]. }
  apply wp_bind. eapply (wp_mono _ _ (fun _ w' evs => writer_inv w' /\ evs = [])).
  - unfold matched_reader_update. wp_steps. destruct (readers w !! remote_reader_guid rp) as [rp0|] eqn:E.
    + destruct (wi_readers w Hw _ rp0 E) as [Hg Hp0]. unfold set_reader. wp_steps. split; [|done].
      apply writer_inv_set_reader; [done..|]. destruct Hp0. by split.
    + apply wp_bind. destruct (is_volatile (w_qos w)).
      * destruct (set_pending_gap_run rp (last_seq (w_history w))) as (S & Es & HS); [lia|].
        eapply wp_lift; [exact Es|]. unfold set_reader. wp_steps. split; [|done].
        apply writer_inv_set_reader; [done..|]. destruct Hp as [? ? Hpg ?]. split; simpl; [done|done| |done].
        intros x [?%Hpg|?]%HS; lia.
      * eapply wp_lift; [done|]. unfold set_reader. wp_steps. split; [|done]. by apply writer_inv_set_reader.
  - intros c w' evs [Hw' ->]. destruct (0 <? c); wp_steps; (split; [by destruct Hw'|by repeat constructor]).
Qed.

Lemma reader_lost_good w g : writer_inv w -> wp (reader_lost g) w (fun _ w' evs => writer_inv w' /\ silent evs).
Proof.
  intros Hw. unfold reader_lost. wp_steps. case_decide; wp_steps; apply update_ack_waiters_wp; intros a evs Hs.
  - split; [by apply writer_inv_waiter, writer_inv_delete|]. by constructor.
  - split; [by apply writer_inv_waiter|done].
Qed.

Lemma participant_lost_good w p : writer_inv w -> wp (participant_lost p) w (fun _ w' evs => writer_inv w' /\ silent evs).
Proof.
  intros Hw. unfold participant_lost. apply wp_bind, wp_get.
  apply (wp_for (fun w' evs => writer_inv w' /\ silent evs)); [by split; [|constructor]|].
  intros g w' evs _ [Hw' Hs]. eapply wp_mono; [by apply reader_lost_good|]. intros u w'' evs' [? ?].
  split; [done|]. by apply Forall_app.
Qed.

Lemma silent_good {A} (a : A) w evs : writer_inv w /\ silent evs -> good a w evs.
Proof. intros [? ?]. split; [done|by apply silent_honest]. Qed.

Lemma writer_handle_good w i : writer_inv w -> input_ok w i -> wp (writer_handle i) w good.
Proof.
  intros Hw Hi. destruct i as [now [data opts sn|ch]|now e|p [an|nf]|rp q|g|p]; simpl in *.
  - apply wp_bind, wp_bind. eapply wp_mono; [by apply process_data_good|]. intros u w' evs Hg. wp_steps. by rewrite !app_nil_r.
  - apply wp_bind, wp_bind. eapply wp_mono; [by apply process_wait_good|]. intros [] w' evs Hg; wp_steps; by rewrite !app_nil_r.
  - unfold handle_timed_event. cbn [act_for]. apply wp_bind. eapply wp_mono; [by apply timed_event_good|].
    intros u w' evs Hg. wp_steps. by rewrite app_nil_r.
  - by apply handle_acknack_good.
  - by apply handle_nackfrag_good.
  - by apply update_reader_good.
  - eapply wp_mono; [by apply reader_lost_good|]. intros u w' evs. apply silent_good.
  - eapply wp_mono; [by apply participant_lost_good|]. intros u w' evs. apply silent_good.
Qed.


(** ** Repairs serve every request *)

(** The repair timer going off [n] times for one reader. *)
Fixpoint repeat_repair (n : nat) (g : GUID) : W unit :=
  match n with
  | O => mret tt
  | S n => _ ← handle_repair_data_send g; repeat_repair n g
  end.

(** Same history and configuration. *)
Definition same_store (w w' : Writer) : Prop :=
  w_history w' = w_history w /\ data_max_size_serialized w' = data_max_size_serialized w /\
  like_stateless w' = like_stateless w.

Lemma served_same_store w w' evs loc sn : same_store w w' -> served w' evs loc sn -> served w evs loc sn.
Proof. intros (E1 & E2 & _). unfold served. by rewrite E1, E2. Qed.

Lemma for_reader_same_store w w' g sn : same_store w w' -> for_reader w g sn -> for_reader w' g sn.
Proof. intros (E1 & _). unfold for_reader. by rewrite E1. Qed.

Lemma repair_data_step w g rp :
  writer_inv w -> like_stateless w = false -> readers w !! g = Some rp ->
  wp (handle_repair_data_send g) w (fun _ w' evs => writer_inv w' /\ same_store w w' /\
    exists rp', readers w' !! g = Some rp' /\ same_view rp rp' /\ repair_step rp w rp' evs).
Proof.
  intros Hw Hls Hg. destruct (wi_readers w Hw g rp Hg) as [Erp Hp]. unfold handle_repair_data_send, with_reader_removed.
  apply wp_bind, wp_get. rewrite Hls, Hg. apply wp_bind, wp_modify. apply wp_bind.
  eapply wp_mono; [apply (repair_worker_good rp); [by apply writer_inv_delete|done]|].
  intros rp' w' evs [([c ->] & Hv & Hp' & _) Hstep]. unfold set_reader. wp_steps. rewrite app_nil_r.
  assert (remote_reader_guid rp' = g) as Eg by (by destruct Hv as [<- _]).
  split; [apply writer_inv_set_reader; [by apply writer_inv_counter, writer_inv_delete|done..]|].
  split; [done|]. exists rp'. rewrite Eg, lookup_insert_eq. done.
Qed.

(** The changes that the GAPs and DATA of a repair settle: they are meant for the
    reader or not in the history, and if the reader is to get a GAP instead, they
    are among the numbers that the GAP is sure to name. *)
Definition repairable (w : Writer) (rp : RtpsReaderProxy) (x : SequenceNumber) : Prop :=
  1 <= x /\ for_reader w (remote_reader_guid rp) x /\
  (forall start, bs_first (pending_gap rp) = Some start -> x ∈ pending_gap rp -> x <= start + 256).

Lemma repeat_repair_spec n w g rp :
  writer_inv w -> like_stateless w = false -> readers w !! g = Some rp ->
  (size (unsent_changes rp) <= n)%nat ->
  wp (repeat_repair n g) w (fun _ w' evs => writer_inv w' /\ exists rp', readers w' !! g = Some rp' /\
    unsent_changes rp' = ∅ /\
    ((size (unsent_changes rp) < n)%nat \/ (unsent_changes rp = ∅ /\ repair_mode rp = false) -> repair_mode rp' = false) /\
    forall x loc, x ∈ unsent_changes rp -> repairable w rp x -> loc ∈ locators_for Unicast rp -> served w evs loc x).
Proof.
  revert w rp. induction n as [|n IH]; intros w rp Hw Hls Hg Hsz; cbn [repeat_repair].
  - assert (unsent_changes rp = ∅) as E by (apply leibniz_equiv, size_empty_inv; lia).
    wp_steps. split; [done|]. exists rp. split; [done|]. split; [done|]. split; [intros [?|[_ ?]]; [lia|done]|].
    rewrite E. set_solver.
  - apply wp_bind. eapply wp_mono; [by eapply repair_data_step|].
    intros _ w1 evs1 (Hw1 & Hss & rp1 & Hg1 & Hv & Hstep).
    assert (remote_reader_guid rp1 = remote_reader_guid rp /\ pending_gap rp1 = pending_gap rp) as [Eg Ep]
      by (destruct Hv as (-> & -> & _); done).
    assert (unsent_changes rp1 ⊆ unsent_changes rp /\ (size (unsent_changes rp1) <= n)%nat /\
      ((size (unsent_changes rp) < S n)%nat \/ unsent_changes rp = ∅ /\ repair_mode rp = false ->
       (size (unsent_changes rp1) < n)%nat \/ unsent_changes rp1 = ∅ /\ repair_mode rp1 = false) /\
      (forall x loc, x ∈ unsent_changes rp -> x ∉ unsent_changes rp1 -> repairable w rp x -> loc ∈ locators_for Unicast rp -> served w evs1 loc x))
      as (Hsub & Hsz1 & Hmode & Hserved).
    { unfold repair_step in Hstep. destruct (bs_first (unsent_changes rp)) as [sn|] eqn:Es.
      - destruct Hstep as (Hsub & Hni & Hs). apply bs_first_Some in Es as [Hin _].
        assert (size (unsent_changes rp1) < size (unsent_changes rp))%nat by (apply subset_size; set_solver).
        split; [done|]. split; [lia|]. split; [intros [?|[E _]]; [left; lia|set_solver]|].
        intros x loc Hx Hx1 (? & ? & ?) Hloc. by apply Hs.
      - apply bs_first_None in Es. subst rp1. simpl. rewrite Es. split; [done|]. rewrite size_empty. split; [lia|].
        split; [by right|]. set_solver. }
    destruct Hss as (E1 & E2 & E3). assert (same_store w w1) as Hss by (by split).
    eapply wp_mono; [apply (IH w1 rp1); [done|by rewrite E3|done|done]|].
    intros _ w' evs (Hw' & rp' & Hg' & Hempty & Hm & Hs'). split; [done|]. exists rp'. split; [done|]. split; [done|].
    split; [auto|]. intros x loc Hx Hr Hloc. apply served_app. destruct (decide (x ∈ unsent_changes rp1)) as [Hx1|Hx1].
    + right. eapply served_same_store; [done|]. apply Hs'; [done| |by rewrite <- (same_view_locators _ _ _ Hv)].
      destruct Hr as (? & ? & ?). unfold repairable. rewrite Eg, Ep. split_and!; [done|by eapply for_reader_same_store|done].
    + left. by apply Hserved.
Qed.

(** C3: for a matched reader of a stateful writer, once the repair timer has gone
    off one time more than there are unsent changes, nothing is unsent any more
    and the repair mode is off, so that the timer is not set again; and every
    change the reader asked for that is [repairable] - its number is at least 1,
    the history does not hold it for another reader, and if it is in the pending
    gap of the reader, it is at most 256 past the first number of that gap - has
    been put on the wire to every unicast locator of the reader, whole or declared
    irrelevant by a GAP. The others are marked as sent too, but need not have been
    settled ([repair_forgets_far_gaps]). *)
Theorem repair_serves_all w g rp :
  writer_inv w -> like_stateless w = false -> readers w !! g = Some rp ->
  exists w' evs rp', repeat_repair (S (size (unsent_changes rp))) g w = Ret (tt, w', evs) /\
    readers w' !! g = Some rp' /\ unsent_changes rp' = ∅ /\ repair_mode rp' = false /\
    forall x loc, x ∈ unsent_changes rp -> repairable w rp x -> loc ∈ locators_for Unicast rp -> served w evs loc x.
Proof.
  intros Hw Hls Hg. pose proof (repeat_repair_spec (S (size (unsent_changes rp))) w g rp Hw Hls Hg ltac:(lia)) as H.
  apply wp_run in H as ([] & w' & evs & E & _ & rp' & ? & ? & Hm & ?). exists w', evs, rp'. split_and!; auto.
Qed.

(** ** Cleaning *)

(** How many acknowledged changes are kept at least. *)
Definition keep_depth (w : Writer) : Z :=
  match history (w_qos w) with
  | None => 1
  | Some KeepAll => 32
  | Some (KeepLast d) => Z.min (u64 d) 32
  end.

Lemma handle_cache_cleaning_depth w : handle_cache_cleaning w = remove_all_acked_changes_but_keep_depth w (keep_depth w).
Proof. unfold handle_cache_cleaning, keep_depth. by destruct (history (w_qos w)) as [[d|]|]. Qed.

Lemma keep_depth_bounds w : 0 <= keep_depth w <= 32.
Proof.
  unfold keep_depth. destruct (history (w_qos w)) as [[d|]|]; [|lia..].
  pose proof (wrap_u_range 64 d). unfold in_u in *. lia.
Qed.

Lemma foldl_min_le l a : foldl Z.min a l <= a /\ forall b, b ∈ l -> foldl Z.min a l <= b.
Proof.
  revert a. induction l as [|x l IH]; intros a; simpl; [split; [lia|set_solver]|].
  destruct (IH (Z.min a x)) as [H1 H2]. split; [lia|]. intros b [->|Hb]%elem_of_cons; [lia|auto].
Qed.

Lemma foldl_min_lb l a n : n <= a -> (forall b, b ∈ l -> n <= b) -> n <= foldl Z.min a l.
Proof. revert a. induction l as [|x l IH]; intros a Ha Hl; simpl; [done|]. apply IH; [|set_solver]. specialize (Hl x ltac:(set_solver)). lia. Qed.

Lemma acked_by_all_le w g rp : readers w !! g = Some rp -> acked_by_all_readers w <= all_acked_before rp.
Proof.
  intros Hg. unfold acked_by_all_readers.
  assert (acked_up_to_before rp ∈ acked_up_to_before <$> bt_values (readers w)) as Hin.
  { apply list_elem_of_fmap. exists rp. split; [done|]. apply elem_of_bt_values. by exists g. }
  destruct (acked_up_to_before <$> bt_values (readers w)) as [|a l]; [set_solver|].
  destruct (foldl_min_le l a) as [H1 H2]. apply elem_of_cons in Hin as [Ha|Hl]; [unfold acked_up_to_before in Ha; lia|by apply H2].
Qed.

Lemma acked_by_all_bounds w : writer_inv w -> 0 <= acked_by_all_readers w <= i64_max /\ (readers w = ∅ -> acked_by_all_readers w = 0).
Proof.
  intros Hw. split.
  - unfold acked_by_all_readers.
    assert (forall b, b ∈ acked_up_to_before <$> bt_values (readers w) -> 0 <= b <= i64_max) as Hb.
    { intros b (rp & -> & (g & Hg)%elem_of_bt_values)%list_elem_of_fmap. apply (pi_acked (w_history w) rp). by destruct (wi_readers w Hw g rp Hg). }
    destruct (acked_up_to_before <$> bt_values (readers w)) as [|a l]; [unfold SequenceNumber_zero, i64_max; lia|].
    pose proof (Hb a ltac:(by left)). destruct (foldl_min_le l a) as [? _].
    pose proof (foldl_min_lb l a 0 ltac:(lia)) as Hlb. specialize (Hlb ltac:(intros b Hbl; apply Hb; by right)). lia.
  - intros E. unfold acked_by_all_readers, bt_values. by rewrite E, bt_iter_empty.
Qed.

(** What cleaning removes is acknowledged by every reader, and the depth of the
    history is kept of it. *)
Lemma cleaning_removes w sn cc :
  writer_inv w -> get_by_sn (w_history w) sn = Some cc ->
  get_by_sn (w_history (handle_cache_cleaning w)) sn = Some cc \/
  (readers w <> ∅ /\ sn < first_seq (w_history (handle_cache_cleaning w)) /\
   forall g rp, readers w !! g = Some rp -> sn + keep_depth w < all_acked_before rp).
Proof.
  intros Hw. rewrite handle_cache_cleaning_depth.
  unfold remove_all_acked_changes_but_keep_depth. simpl. set (k := if negb (like_stateless w) then _ else _).
  pose proof (wi_hist w Hw) as Hh. pose proof (keep_depth_bounds w). pose proof (acked_by_all_bounds w Hw) as [Hb Hempty].
  assert (first_seq (w_history w) < k -> k = acked_by_all_readers w - keep_depth w) as Hk.
  { unfold k, first_change_sequence_number, SequenceNumber_sub, SequenceNumber_from_usize.
    destruct (like_stateless w); simpl; [lia|]. rewrite (wrap_s_id 64 (keep_depth w)), (wrap_s_id 64) by bounds_lia. lia. }
  intros Hcc. rewrite get_by_sn_remove by done. case_decide as Hd; [right|by left]. destruct Hd as [[cck Hkk] Hlt].
  pose proof (get_by_sn_bounds _ _ _ Hh Hcc) as [? _]. pose proof (Hk ltac:(lia)) as Ek. split.
  - intros E. rewrite (Hempty E) in Ek. pose proof (hist_bounds _ Hh). lia.
  - split.
    + unfold HistoryBuffer_remove_changes_before. apply get_by_sn_Some in Hkk as (t & Ht & _); [|done]. rewrite Ht. simpl.
      zcases; lia.
    + intros g rp Hg. pose proof (acked_by_all_le w g rp Hg). lia.
Qed.

Lemma cleaning_adds_nothing w sn :
  writer_inv w -> get_by_sn (w_history w) sn = None -> get_by_sn (w_history (handle_cache_cleaning w)) sn = None.
Proof.
  intros Hw Hn. rewrite handle_cache_cleaning_depth. unfold remove_all_acked_changes_but_keep_depth. simpl.
  rewrite get_by_sn_remove by apply (wi_hist w Hw). by case_decide.
Qed.

(** Cleaning removes only changes that every matched reader has
    acknowledged, and of those keeps the depth of the history policy (at most
    32); the changes that stay are unaltered, and the advertised range shrinks
    with them. *)
Theorem cleaning_keeps_unacked w :
  writer_inv w ->
  writer_inv (handle_cache_cleaning w) /\
  (forall sn cc, get_by_sn (w_history w) sn = Some cc ->
     get_by_sn (w_history (handle_cache_cleaning w)) sn = Some cc \/
     (readers w <> ∅ /\ sn < first_seq (w_history (handle_cache_cleaning w)) /\
      forall g rp, readers w !! g = Some rp -> sn + keep_depth w < all_acked_before rp)) /\
  (forall sn, get_by_sn (w_history w) sn = None -> get_by_sn (w_history (handle_cache_cleaning w)) sn = None).
Proof.
  intros Hw. split; [by apply handle_cache_cleaning_inv|]. split.
  - intros sn cc. by apply cleaning_removes.
  - intros sn. by apply cleaning_adds_nothing.
Qed.

(** As long as some matched reader has not acknowledged anything - as no
    reader of a best-effort writer ever does, which ignores ACKNACKs - or there is
    no reader at all, cleaning removes nothing, whatever the history policy. *)
Theorem cleaning_needs_acks w :
  writer_inv w -> readers w = ∅ \/ (exists g rp, readers w !! g = Some rp /\ all_acked_before rp = 0) ->
  (forall sn, get_by_sn (w_history (handle_cache_cleaning w)) sn = get_by_sn (w_history w) sn) /\
  (is_reliable (w_qos w) = false -> forall p a, handle_ack_nack p a w = Ret (tt, w, [])).
Proof.
  intros Hw Hr. pose proof (wi_hist w Hw) as Hh. pose proof (keep_depth_bounds w). pose proof (acked_by_all_bounds w Hw) as [Hb Hempty].
  assert (acked_by_all_readers w = 0) as E0.
  { destruct Hr as [Hr|(g & rp & Hg & Ha)]; [by apply Hempty|]. pose proof (acked_by_all_le w g rp Hg). lia. }
  split.
  - intros sn. rewrite handle_cache_cleaning_depth. unfold remove_all_acked_changes_but_keep_depth. simpl.
    rewrite get_by_sn_remove by done. rewrite E0. unfold SequenceNumber_sub, SequenceNumber_from_usize, first_change_sequence_number.
    rewrite (wrap_s_id 64 (keep_depth w)), (wrap_s_id 64) by bounds_lia. pose proof (hist_bounds _ Hh).
    replace (if negb (like_stateless w) then Z.max (0 - keep_depth w) (first_seq (w_history w)) else first_seq (w_history w))
      with (first_seq (w_history w)) by (destruct (like_stateless w); simpl; lia).
    case_decide as Hd; [|done]. destruct Hd as [_ Hlt]. destruct (get_by_sn (w_history w) sn) eqn:E; [|done].
    apply get_by_sn_bounds in E as [? _]; [lia|done].
  - intros Hrel p a. unfold handle_ack_nack, mbind, act_bind, get_st. by rewrite Hrel.
Qed.

(** ** Waiting for acknowledgments *)

(** What happened to a reader: it acknowledged everything before a number, or
    was lost ([None]). *)
Definition releases (until : SequenceNumber) (e : GUID * option SequenceNumber) (g : GUID) : Prop :=
  e.1 = g /\ match e.2 with None => True | Some before => until < before end.

#[export] Instance releases_dec until e g : Decision (releases until e g).
Proof. unfold releases. destruct e as [g' [b|]]; apply _. Defined.

(** The readers a wait still needs after [es]. *)
Definition still_pending (until : SequenceNumber) (pending : gset GUID) (es : list (GUID * option SequenceNumber)) : gset GUID :=
  filter (fun g => Forall (fun e => ~ releases until e g) es) pending.

Lemma reader_acked_or_lost_spec aw e :
  reader_acked_or_lost aw e.1 e.2
  = (bool_decide (still_pending (wait_until aw) (readers_pending aw) [e] = ∅),
     mkAckWaiter (wait_until aw) (complete_channel aw) (still_pending (wait_until aw) (readers_pending aw) [e])).
Proof.
  unfold reader_acked_or_lost. set (p := match e.2 with None => _ | Some _ => _ end).
  assert (p = still_pending (wait_until aw) (readers_pending aw) [e]) as ->; [|done].
  apply set_eq. intros g. unfold p, still_pending. rewrite elem_of_filter, Forall_singleton. unfold releases.
  destruct e as [g' [b|]]; simpl; [destruct (Z.ltb_spec (wait_until aw) b)|]; rewrite ?elem_of_difference, ?elem_of_singleton; naive_solver lia.
Qed.

Lemma still_pending_cons until pending e es :
  still_pending until pending (e :: es) = still_pending until (still_pending until pending [e]) es.
Proof. apply set_eq. intros g. unfold still_pending. rewrite !elem_of_filter, Forall_cons, Forall_singleton. tauto. Qed.

Lemma updates_without_waiter w es :
  ack_waiter w = None -> act_for es (fun e => update_ack_waiters e.1 e.2) w = Ret (tt, w, []).
Proof.
  intros E. induction es as [|e es IH]; [done|]. cbn [act_for]. unfold mbind, act_bind.
  assert (update_ack_waiters e.1 e.2 w = Ret (tt, w, [])) as -> by (unfold update_ack_waiters, mbind, act_bind, get_st; by rewrite E).
  by rewrite IH.
Qed.

Lemma ack_wait_run w aw es :
  ack_waiter w = Some aw -> readers_pending aw <> ∅ ->
  let left := still_pending (wait_until aw) (readers_pending aw) es in
  act_for es (fun e => update_ack_waiters e.1 e.2) w
  = if decide (left = ∅) then Ret (tt, w_set_ack_waiter w None, [EvAllAcked (complete_channel aw)])
    else Ret (tt, w_set_ack_waiter w (Some (mkAckWaiter (wait_until aw) (complete_channel aw) left)), []).
Proof.
  revert w aw. induction es as [|e es IH]; intros w aw Ew Hne; simpl.
  - assert (still_pending (wait_until aw) (readers_pending aw) [] = readers_pending aw) as ->
      by (apply set_eq; intros g; unfold still_pending; rewrite elem_of_filter, Forall_nil; tauto).
    rewrite decide_False by done. destruct w, aw; simpl in *. by rewrite Ew.
  - rewrite still_pending_cons. unfold mbind at 1, act_bind at 1. unfold update_ack_waiters at 1, mbind, act_bind, get_st.
    rewrite Ew, reader_acked_or_lost_spec. set (aw1 := mkAckWaiter _ _ _).
    destruct (decide (still_pending (wait_until aw) (readers_pending aw) [e] = ∅)) as [He|He].
    + rewrite bool_decide_eq_true_2 by done. simpl. rewrite updates_without_waiter by done.
      rewrite decide_True; [done|]. rewrite He. apply set_eq. intros g. unfold still_pending. rewrite elem_of_filter. set_solver.
    + rewrite bool_decide_eq_false_2 by done. simpl. rewrite (IH _ aw1) by done. simpl. by case_decide.
Qed.

Lemma elem_of_waiting_for w until g :
  g ∈ waiting_for w until <-> exists rp, readers w !! g = Some rp /\ is_reliable (rp_qos rp) = true /\ all_acked_before rp <= until.
Proof.
  unfold waiting_for. rewrite elem_of_list_to_set, list_elem_of_omap. split.
  - intros ([g' rp] & Hin%elem_of_bt_iter & Hif). simpl in Hif. destruct (_ && _) eqn:E; [|done]. injection Hif as <-.
    apply andb_true_iff in E as [? ?%Z.leb_le]. by eauto.
  - intros (rp & Hg & Hr & Ha). exists (g, rp). split; [by apply elem_of_bt_iter|]. simpl. rewrite Hr.
    by destruct (Z.leb_spec (all_acked_before rp) until); [|lia].
Qed.


(** ** Fragment requests for an unknown sample *)

Lemma repair_frags_requested_spec rp : repair_frags_requested rp = true <-> exists sn f, frag_requested rp sn f.
Proof.
  unfold repair_frags_requested, frag_requested. rewrite existsb_exists. setoid_rewrite <- list_elem_of_In.
  setoid_rewrite elem_of_bt_values. split.
  - intros (bv & (sn & Hsn) & ([] & Hb & Hid)%existsb_exists); [|done]. apply list_elem_of_In, list_elem_of_lookup in Hb as [i Hi].
    exists sn, (Z.of_nat i + 1), bv. split; [done|]. apply elem_of_ones. split; [lia|]. by replace (Z.to_nat (Z.of_nat i + 1 - 1)) with i by lia.
  - intros (sn & f & bv & Hsn & [_ Hf]%elem_of_ones). exists bv. split; [by exists sn|]. apply existsb_exists. exists true.
    split; [|done]. apply list_elem_of_In. by eapply list_elem_of_lookup_2.
Qed.

Lemma head_bt_iter {V} (m : gmap Z V) k v :
  m !! k = Some v -> (forall k', is_Some (m !! k') -> k <= k') -> head (bt_iter m) = Some (k, v).
Proof.
  intros Hk Hmin. assert (bt_first m = Some k) as Hf.
  { apply bt_first_Some. split; [by eexists|]. intros k' ?%Hmin. by apply kle_Z. }
  unfold bt_first, bt_keys in Hf. destruct (bt_iter m) as [|[k0 v0] l] eqn:E; [done|]. simpl in *. injection Hf as ->.
  assert ((k, v0) ∈ bt_iter m) as Hin%elem_of_bt_iter by (rewrite E; by left). congruence.
Qed.

(** A proxy whose first entry is empty: nothing is sent to it, nothing changes. *)
Lemma repair_frags_stuck w g rp sn :
  like_stateless w = false -> readers w !! g = Some rp -> remote_reader_guid rp = g ->
  head (bt_iter (frags_requested rp)) = Some (sn, []) -> handle_repair_frags_send g w = Ret (tt, w, []).
Proof.
  intros Hls Hg Erp Hhd. unfold handle_repair_frags_send, with_reader_removed, handle_repair_frags_send_worker.
  unfold mbind, act_bind, get_st. rewrite Hls, Hg. unfold modify_st. unfold frags_requested_iterator. rewrite Hhd. simpl. rewrite Erp, insert_delete_eq, insert_id by done. by destruct w.
Qed.

Lemma timed_frags_stuck w g rp sn now n :
  like_stateless w = false -> readers w !! g = Some rp -> remote_reader_guid rp = g ->
  head (bt_iter (frags_requested rp)) = Some (sn, []) -> repair_frags_requested rp = true ->
  handle_timed_event (replicate n (now, TESendRepairFrags g)) w
  = Ret (tt, w, replicate n (EvSetTimeout (repairfrags_continue_delay w) (TESendRepairFrags g))).
Proof.
  intros Hls Hg Erp Hhd Hreq. unfold handle_timed_event. induction n as [|n IH]; [done|]. cbn [act_for replicate].
  assert (handle_one_timed_event now (TESendRepairFrags g) w
    = Ret (tt, w, [EvSetTimeout (repairfrags_continue_delay w) (TESendRepairFrags g)])) as E.
  { unfold handle_one_timed_event, mbind, act_bind, get_st. rewrite (repair_frags_stuck w g rp sn) by done. by rewrite Hg, Hreq. }
  unfold mbind, act_bind. cbn [fst snd]. rewrite E, IH. done.
Qed.

(** A NACKFRAG for a sample of which the writer has no fragments requested
    yet - whichever fragments it asks for - makes the writer send nothing; when
    that sample is older than the ones with fragments still to be sent, these are
    never sent either: however often the repair timer goes off, nothing is sent,
    no state changes, and the timer is set again. *)
Theorem nackfrag_blocks_repair w p nf rp now n :
  let g := GUID_new p (nf_reader_id nf) in
  is_reliable (w_qos w) = true -> like_stateless w = false -> readers w !! g = Some rp -> remote_reader_guid rp = g ->
  frags_requested rp !! nf_writer_sn nf = None ->
  (forall sn bv, frags_requested rp !! sn = Some bv -> nf_writer_sn nf < sn) ->
  (exists sn f, frag_requested rp sn f) ->
  exists w' rp',
    handle_ack_nack p (Ack_NackFrag nf) w = Ret (tt, w', [EvSetTimeout (nackfrag_response_delay w) (TESendRepairFrags g)]) /\
    readers w' !! g = Some rp' /\ (forall sn f, frag_requested rp' sn f <-> frag_requested rp sn f) /\
    handle_timed_event (replicate n (now, TESendRepairFrags g)) w'
    = Ret (tt, w', replicate n (EvSetTimeout (repairfrags_continue_delay w) (TESendRepairFrags g))).
Proof.
  intros g Hrel Hls Hg Erp Hnone Hmin Hreq.
  set (rp' := rp_set_frags rp (<[nf_writer_sn nf := []]> (frags_requested rp))).
  assert (forall sn f, frag_requested rp' sn f <-> frag_requested rp sn f) as Hsame.
  { intros sn f. unfold frag_requested, rp'; simpl. setoid_rewrite lookup_insert_Some. split.
    - intros (bv & [[_ <-]|[_ ?]] & Hf); [by apply elem_of_ones in Hf as [_ ?]|by eauto].
    - intros (bv & Hbv & Hf). exists bv. split; [|done]. right. split; [intros <-; congruence|done]. }
  exists (w_set_readers w (<[g := rp']> (readers w))), rp'. split_and!.
  - unfold handle_ack_nack, mbind, act_bind, get_st. rewrite Hrel, Hls. simpl. fold g. rewrite Hg.
    unfold lift_outcome. by rewrite mark_frags_requested_fresh by done.
  - apply lookup_insert_eq.
  - done.
  - apply (timed_frags_stuck (w_set_readers w (<[g := rp']> (readers w))) g rp' (nf_writer_sn nf)); [done|apply lookup_insert_eq|done| |].
    + apply head_bt_iter; [apply lookup_insert_eq|]. intros k' [bv Hb]. simpl in Hb.
      apply lookup_insert_Some in Hb as [[<- _]|[_ ?%Hmin]]; lia.
    + apply repair_frags_requested_spec. setoid_rewrite Hsame. done.
Qed.
End theorems.

(** ** A small writer *)

Definition demo_reader_guid : GUID := mkGUID (mkPrefix (replicate 12 7)) (mkEntityId (0, 0, 1) READER_WITH_KEY_USER_DEFINED).
Definition demo_locator : Locator := Locator_UdpV4 (mkV4 (10, 0, 0, 1) 7411).
Definition demo_reliable : QosPolicies :=
  mkQos None None None None None None None (Some (Reliable Duration_ZERO)) None None None None.
Definition demo_proxy : RtpsReaderProxy :=
  mkRP demo_reader_guid EntityId_UNKNOWN [demo_locator] [] false true 1 {[1; 2]} ∅ true demo_reliable ∅.
Definition demo_store : HistoryBuffer :=
  HistoryBuffer_add_change (HistoryBuffer_add_change HistoryBuffer_new (mkTimestamp 1 0) (demo_hcc 1))
    (mkTimestamp 2 0) (demo_hcc 2).
Definition demo_writer : Writer :=
  mkWriter LittleEndian 1 true None (Duration_from_secs 120) 0 0 0 1024 GUID_UNKNOWN {[demo_reader_guid := demo_proxy]}
    0 0 false "t" demo_store demo_reliable None.

Lemma demo_hist1_inv : hist_inv (HistoryBuffer_add_change HistoryBuffer_new (mkTimestamp 1 0) (demo_hcc 1)).
Proof. apply hist_add_inv; [apply hist_new_inv|by intros t [? ?]|done]. Qed.

Lemma demo_fresh2 : fresh_time (HistoryBuffer_add_change HistoryBuffer_new (mkTimestamp 1 0) (demo_hcc 1)) (mkTimestamp 2 0).
Proof. intros t [c Hc]. simpl in Hc. apply lookup_insert_Some in Hc as [[<- _]|[_ ?]]; done. Qed.

Lemma demo_store_get sn : get_by_sn demo_store sn = if decide (sn = 2) then Some (demo_hcc 2)
  else if decide (sn = 1) then Some (demo_hcc 1) else None.
Proof.
  unfold demo_store. rewrite get_by_sn_add by (apply demo_hist1_inv || apply demo_fresh2).
  simpl. case_decide; [done|]. rewrite get_by_sn_add by (apply hist_new_inv || by intros t [? ?]). done.
Qed.

Lemma demo_writer_inv : writer_inv demo_writer.
Proof.
  split; simpl.
  - apply hist_add_inv; [apply demo_hist1_inv|apply demo_fresh2|done].
  - done.
  - intros sn cc. rewrite demo_store_get. repeat case_decide; [intros [= <-]..|]; done.
  - intros g rp [<- <-]%lookup_singleton_Some. split; [done|]. split; simpl.
    + done.
    + intros sn Hsn. assert (sn = 1 \/ sn = 2) as Hc by set_solver. change (last_seq demo_store) with 2. lia.
    + set_solver.
    + intros sn bv. by rewrite lookup_empty.
Qed.

(** An ACKNACK that acknowledges the first change and asks for the second. *)
Definition demo_nack : AckNack :=
  mkAckNack (entity_id demo_reader_guid) EntityId_UNKNOWN {| bitmap_base := 2; num_bits := 1; bitmap := [0x80000000] |} 1.


Lemma repair_serves_all_witness :
  exists w' evs rp', repeat_repair 3 demo_reader_guid demo_writer = Ret (tt, w', evs) /\
    readers w' !! demo_reader_guid = Some rp' /\ unsent_changes rp' = ∅ /\ repair_mode rp' = false /\
    served demo_writer evs demo_locator 1 /\ served demo_writer evs demo_locator 2.
Proof.
  destruct (repair_serves_all demo_writer demo_reader_guid demo_proxy) as (w' & evs & rp' & H1 & H2 & H3 & H4 & H5).
  - apply demo_writer_inv.
  - reflexivity.
  - apply lookup_singleton_eq.
  - assert (forall x, x = 1 \/ x = 2 -> repairable demo_writer demo_proxy x) as Hr.
    { intros x Hc. split; [lia|]. split; [|intros s Hs; discriminate Hs]. intros cc g'.
      change (w_history demo_writer) with demo_store. rewrite demo_store_get.
      destruct (decide (x = 2)); [intros [= <-] Hs; discriminate Hs|].
      destruct (decide (x = 1)); [intros [= <-] Hs; discriminate Hs|]. intros Hs; discriminate Hs. }
    exists w', evs, rp'. split; [exact H1|]. split; [exact H2|]. split; [exact H3|]. split; [exact H4|].
    split; (apply H5; [set_solver|apply Hr; lia|set_solver]).
Defined.

(** A reader that is to get no change 1 and no change 300: the GAP names the first,
    and the second is marked as sent without a word about it. *)
Definition far_gap_proxy : RtpsReaderProxy :=
  mkRP demo_reader_guid EntityId_UNKNOWN [demo_locator] [] false true 1 {[1; 300]} {[1; 300]} true demo_reliable ∅.
Definition far_gap_writer : Writer :=
  mkWriter LittleEndian 1 true None (Duration_from_secs 120) 0 0 0 1024 GUID_UNKNOWN {[demo_reader_guid := far_gap_proxy]}
    0 0 false "t" (HistoryBuffer_add_change (HistoryBuffer_add_change HistoryBuffer_new (mkTimestamp 1 0) (demo_hcc 1))
      (mkTimestamp 2 0) (demo_hcc 300)) demo_reliable None.

Lemma repair_forgets_far_gaps :
  exists w' m rp', handle_repair_data_send demo_reader_guid far_gap_writer = Ret (tt, w', [EvSend m demo_locator]) /\
    readers w' !! demo_reader_guid = Some rp' /\ unsent_changes rp' = ∅ /\ declared m 1 /\ ~ declared m 300.
Proof.
  eexists _, _, _. split; [vm_compute; reflexivity|]. split; [vm_compute; reflexivity|]. split; [vm_compute; reflexivity|]. split.
  - eexists _, _. split; [right; left|]. split; [reflexivity|]. left. simpl. lia.
  - intros (sm & g & Hin & Hb & Hd). simpl in Hin. set_unfold in Hin.
    destruct Hin as [->|[->|[]]]; [discriminate Hb|]. injection Hb as <-. destruct Hd as [Hd|Hd]; [simpl in Hd; lia|].
    destruct Hd as [Hr _]. simpl in Hr. lia.
Qed.

Lemma cleaning_keeps_unacked_witness :
  get_by_sn (w_history (handle_cache_cleaning demo_writer)) 2 = Some (demo_hcc 2).
Proof.
  destruct (cleaning_keeps_unacked demo_writer) as (_ & H & _); [apply demo_writer_inv|].
  destruct (H 2 (demo_hcc 2)) as [E|(_ & _ & E)]; [reflexivity|exact E|].
  specialize (E demo_reader_guid demo_proxy (lookup_singleton_eq _ _)). vm_compute in E. discriminate E.
Defined.

Lemma cleaning_needs_acks_witness :
  get_by_sn (w_history (handle_cache_cleaning (w_set_readers demo_writer ∅))) 1 = Some (demo_hcc 1).
Proof.
  destruct (cleaning_needs_acks (w_set_readers demo_writer ∅)) as [H _].
  - destruct demo_writer_inv as [? ? ? _]. split; [done..|]. intros g rp Hg. discriminate Hg.
  - left. reflexivity.
  - rewrite H. reflexivity.
Defined.


Definition demo_frag_proxy : RtpsReaderProxy := mark_all_frags_requested demo_proxy 2 3.
Definition demo_nackfrag : NackFrag :=
  mkNackFrag (entity_id demo_reader_guid) EntityId_UNKNOWN 1 {| bitmap_base := 1; num_bits := 1; bitmap := [0x80000000] |} 1.

Lemma nackfrag_blocks_repair_witness :
  exists w' rp', readers w' !! demo_reader_guid = Some rp' /\ repair_frags_requested demo_frag_proxy = true /\
    handle_timed_event (replicate 2 (mkTimestamp 3 0, TESendRepairFrags demo_reader_guid)) w'
    = Ret (tt, w', replicate 2 (EvSetTimeout 0 (TESendRepairFrags demo_reader_guid))).
Proof.
  destruct (nackfrag_blocks_repair (w_set_readers demo_writer {[demo_reader_guid := demo_frag_proxy]}) (prefix demo_reader_guid)
    demo_nackfrag demo_frag_proxy (mkTimestamp 3 0) 2) as (w' & rp' & _ & H2 & _ & H4).
  - reflexivity.
  - reflexivity.
  - apply lookup_singleton_eq.
  - reflexivity.
  - reflexivity.
  - intros sn bv Hb. simpl in Hb. apply lookup_insert_Some in Hb as [[<- _]|[_ Hb]]; [reflexivity|discriminate Hb].
  - exists 2, 1. apply (mark_all_frags_requested_spec demo_proxy 2 3); [intros s b Hb; discriminate Hb|vm_compute; split; reflexivity|].
    left. split; [reflexivity|lia].
  - exists w', rp'. split; [exact H2|]. split; [reflexivity|exact H4].
Defined.
