(* ===== verification/ReceiverTheorems.v ===== *)
(** * What the message receiver guarantees

    The theorems about [src/rtps/message_receiver.rs]: every submessage is
    handled in the context that the message itself gives it, and no packet makes
    the receiver panic or loop. *)

From S2P Require Import Prelude BTree Wire SequenceNumbers Time Guid Locator WriterProxy ParameterList Qos StatusEvents Payload Submessages Headers MessageBuilder MessageWire InlineQos FragmentAssembler DdsCache Reader ReaderCorrect ReaderTheorems MessageReceiver.

(** ** The context of a submessage

    By the specification of the protocol: the source is that of the last
    INFO_SRC before the submessage, or else of the header; the time stamp and the
    reply locators are the last ones given for that source; the destination is
    that of the last INFO_DST, or else this participant. *)

Definition info_source_of (sm : Submessage) : option InfoSource :=
  match sm_body sm with SmInfoSource i => Some i | _ => None end.
Definition info_timestamp_of (sm : Submessage) : option (option Timestamp) :=
  match sm_body sm with SmInfoTimestamp t => Some t | _ => None end.
Definition info_destination_of (sm : Submessage) : option GuidPrefix :=
  match sm_body sm with SmInfoDestination p => Some p | _ => None end.
(** The locators of an INFO_REPLY: the multicast ones count when the flag is set. *)
Definition info_reply_of (sm : Submessage) : option (list Locator * list Locator) :=
  match sm_body sm with
  | SmInfoReply i => Some (ir_unicast_locator_list i,
      if contains (sm_flags sm) INFOREPLY_Multicast then default [] (ir_multicast_locator_list i) else [])
  | _ => None
  end.

Definition is_info_source (sm : Submessage) : bool := bool_decide (is_Some (info_source_of sm)).

(** What came after the last INFO_SRC. *)
Definition since_source (sms : list Submessage) : list Submessage :=
  reverse (take_while (fun sm => negb (is_info_source sm)) (reverse sms)).

Definition context_of (own : GuidPrefix) (h : Header) (before : list Submessage) : SourceState :=
  let '(version, vendor, pfx) :=
    match last (omap info_source_of before) with
    | Some i => (is_protocol_version i, is_vendor_id i, is_guid_prefix i)
    | None => (h_protocol_version h, h_vendor_id h, h_guid_prefix h)
    end in
  let replies := default ([], []) (last (omap info_reply_of (since_source before))) in
  mkSource version vendor pfx
    (match last (omap info_destination_of before) with
     | Some p => if decide (p = GuidPrefix_UNKNOWN) then own else p
     | None => own
     end)
    replies.1 replies.2
    (default None (last (omap info_timestamp_of (since_source before))))
    (u64 (Z.of_nat (length before))).

Definition is_entity_submessage (sm : Submessage) : bool :=
  match sm_body sm with
  | SmInfoSource _ | SmInfoDestination _ | SmInfoReply _ | SmInfoTimestamp _ => false
  | _ => true
  end.

(** ** The context is what the receiver keeps *)

Lemma omap_snoc {A B} (f : A -> option B) (l : list A) (x : A) :
  omap f (l ++ [x]) = omap f l ++ match f x with Some b => [b] | None => [] end.
Proof. rewrite omap_app. simpl. by destruct (f x). Qed.

Lemma since_source_snoc l x :
  since_source (l ++ [x]) = if is_info_source x then [] else since_source l ++ [x].
Proof.
  unfold since_source. rewrite reverse_snoc. simpl. destruct (is_info_source x); simpl; [done|].
  by rewrite reverse_cons.
Qed.

Definition counted (s : SourceState) : SourceState :=
  mkSource (source_version s) (source_vendor_id s) (source_guid_prefix s) (dest_guid_prefix s)
    (unicast_reply_locator_list s) (multicast_reply_locator_list s) (mr_source_timestamp s) (u64 (submessage_count s + 1)).

Lemma u64_succ (n : nat) : u64 (u64 (Z.of_nat n) + 1) = u64 (Z.of_nat (n + 1)).
Proof. unfold wrap_u. rewrite Zplus_mod_idemp_l. f_equal. lia. Qed.

Lemma context_snoc own h before sm :
  context_of own h (before ++ [sm])
  = counted (handle_interpreter_submessage own sm (context_of own h before)).
Proof.
  unfold context_of, counted. rewrite since_source_snoc, !omap_snoc, length_app.
  destruct sm as [flags n b]. destruct b; unfold is_info_source, handle_interpreter_submessage; simpl;
    rewrite ?app_nil_r, ?last_snoc, ?omap_snoc; simpl; rewrite ?app_nil_r, ?last_snoc; simpl;
    destruct (last (omap info_source_of before)); simpl; rewrite ?u64_succ; try done.
  all: by repeat case_match.
Qed.

(** ** Handling leaves the context alone *)

(** A step that changes neither what the receiver knows of the source nor the
    identity of the participant. *)
Definition same_source : relation MessageReceiver := fun st st' =>
  mr_source st' = mr_source st /\ own_guid_prefix st' = own_guid_prefix st.
Abbreviation keeps_source := (act_keeps same_source).

#[export] Instance same_source_preorder : PreOrder same_source.
Proof. split; unfold same_source; [done|]. intros x y z [? ?] [? ?]. split; congruence. Qed.

Section interpret.
Context `{SP : Speedy} (clock : nat -> Timestamp).

Lemma with_reader_keeps eid h : keeps_source (with_reader clock eid h).
Proof.
  unfold with_reader. keeps_bind; [auto with keeps|]. intros m.
  destruct (available_readers m !! eid) as [r|]; [|auto with keeps].
  destruct (mr_caches m !! r_topic_name r) as [tc|]; [|auto with keeps].
  keeps_bind; [auto with keeps|]. intros [[u st'] evs].
  keeps_bind; [by apply keeps_modify|auto with keeps].
Qed.

Lemma handle_writer_submessage_keeps eid sm : keeps_source (handle_writer_submessage clock eid sm).
Proof.
  unfold handle_writer_submessage. keeps_bind; [auto with keeps|]. intros m.
  destruct (negb _); [auto with keeps|]. destruct (available_readers m !! eid); [|auto with keeps].
  keeps_bind; [apply with_reader_keeps|]. intros _.
  destruct (sm_body sm); auto with keeps. case_decide; auto with keeps.
Qed.

(** Entity submessages only. *)
Definition handle_entity (sm : Submessage) : MR unit :=
  if is_entity_submessage sm then handle_submessage clock sm else mret tt.

Lemma handle_entity_keeps sm : keeps_source (handle_entity sm).
Proof.
  unfold handle_entity, is_entity_submessage, handle_submessage, writer_submessage_ids, handle_reader_submessage.
  destruct (sm_body sm); auto with keeps.
  all: try (case_decide; [keeps_bind; [auto with keeps|intros m; apply keeps_for; [apply _|]; intros eid]|];
            apply handle_writer_submessage_keeps).
  all: keeps_bind; [auto with keeps|]; intros m; destruct (negb _); auto with keeps.
Qed.

(** Every submessage with what is before it. *)
Fixpoint positions (before sms : list Submessage) : list (list Submessage * Submessage) :=
  match sms with
  | [] => []
  | sm :: sms => (before, sm) :: positions (before ++ [sm]) sms
  end.

(** The reference: each entity submessage is handled in its context. *)
Definition interpret_spec (own : GuidPrefix) (h : Header) (sms : list Submessage) : MR unit :=
  _ ← act_for (positions [] sms) (fun '(before, sm) =>
        _ ← modify_st (fun m => mr_set_source m (context_of own h before)); handle_entity sm);
  modify_st (fun m => mr_set_source m (context_of own h sms)).

Lemma interpret_step own h before sm st :
  mr_source st = context_of own h before -> own_guid_prefix st = own ->
  (_ ← handle_submessage clock sm; count_submessage) st =
  (_ ← handle_entity sm; modify_st (fun m => mr_set_source m (context_of own h (before ++ [sm])))) st.
Proof.
  intros Hs Ho. unfold handle_entity. rewrite context_snoc. destruct (is_entity_submessage sm) eqn:Ee.
  - assert (forall s, handle_interpreter_submessage own sm s = s) as Hi.
    { intros s. unfold handle_interpreter_submessage. unfold is_entity_submessage in Ee. by destruct (sm_body sm). }
    rewrite Hi. unfold mbind, act_bind.
    destruct (handle_submessage clock sm st) as [[[u st'] evs]| |] eqn:E; [|done..].
    assert (keeps_source (handle_entity sm)) as Hk by apply handle_entity_keeps.
    unfold handle_entity in Hk. rewrite Ee in Hk. apply Hk in E as [E _].
    unfold count_submessage, modify_st. rewrite <- Hs, <- E. done.
  - unfold handle_submessage, is_entity_submessage, count_submessage in *. subst own.
    destruct (sm_body sm); try done; simpl; by rewrite <- Hs.
Qed.

Lemma bind_assoc_run {A B C} (m : MR A) (f : A -> MR B) (g : B -> MR C) st :
  ((m ≫= f) ≫= g) st = (m ≫= (fun a => f a ≫= g)) st.
Proof.
  unfold mbind, act_bind. destruct (m st) as [[[a st1] e1]| |]; [|done..].
  destruct (f a st1) as [[[b st2] e2]| |]; [|done..].
  destruct (g b st2) as [[[c st3] e3]| |]; [|done..]. by rewrite (assoc_L (++)).
Qed.

Lemma modify_bind_run {A} (f : MessageReceiver -> MessageReceiver) (g : unit -> MR A) st :
  (modify_st f ≫= g) st = g tt (f st).
Proof. unfold mbind, act_bind, modify_st. by destruct (g tt (f st)) as [[[b st2] e2]| |]. Qed.

(** What remains of the reference run after [before]. *)
Definition interpret_rest (own : GuidPrefix) (h : Header) (before sms : list Submessage) : MR unit :=
  _ ← act_for (positions before sms) (fun '(before, sm) =>
        _ ← modify_st (fun m => mr_set_source m (context_of own h before)); handle_entity sm);
  modify_st (fun m => mr_set_source m (context_of own h (before ++ sms))).

Lemma interpret_rest_source own h before sms st s :
  interpret_rest own h before sms (mr_set_source st s) = interpret_rest own h before sms st.
Proof. unfold interpret_rest. by destruct sms. Qed.

Lemma mr_set_source_same st : mr_set_source st (mr_source st) = st.
Proof. by destruct st. Qed.

Lemma interpret_loop own h before sms st :
  mr_source st = context_of own h before -> own_guid_prefix st = own ->
  act_for sms (fun sm => _ ← handle_submessage clock sm; count_submessage) st = interpret_rest own h before sms st.
Proof.
  revert before st. induction sms as [|sm sms IH]; intros before st Hs Ho.
  { unfold interpret_rest. cbn [act_for positions]. unfold mbind, act_bind, mret, act_ret, modify_st.
    rewrite app_nil_r, <- Hs, mr_set_source_same. done. }
  unfold interpret_rest. cbn [act_for positions].
  transitivity ((handle_entity sm ≫= (fun _ => interpret_rest own h (before ++ [sm]) sms)) st).
  - pose proof (interpret_step own h before sm st Hs Ho) as E.
    unfold mbind at 1, act_bind at 1. rewrite E. clear E. unfold mbind, act_bind.
    destruct (handle_entity sm st) as [[[u st1] e1]| |] eqn:E; [|done..].
    apply handle_entity_keeps in E as [E1 E2]. unfold modify_st at 1. rewrite app_nil_r.
    rewrite (IH (before ++ [sm])), interpret_rest_source; [done|done|simpl; congruence].
  - rewrite bind_assoc_run. unfold interpret_rest. rewrite <- (app_assoc before). cbn [app].
    by rewrite bind_assoc_run, modify_bind_run, <- Hs, mr_set_source_same.
Qed.
End interpret.

(** C4: the receiver handles a message as the protocol specifies: every entity
    submessage is handled in the context given by the header and the interpreter
    submessages before it - the source of the last INFO_SRC, the time stamp and
    the reply locators given since for that source, the destination of the last
    INFO_DST - and in this context only: what the receiver remembers of earlier
    messages plays no part. *)
Theorem receiver_interprets `{SP : Speedy} clock m st :
  handle_parsed_message clock m st = interpret_spec clock (own_guid_prefix st) (header m) (submessages m) st.
Proof.
  unfold handle_parsed_message. rewrite !modify_bind_run.
  rewrite (interpret_loop clock (own_guid_prefix st) (header m) []); [|done|done].
  change (interpret_spec clock (own_guid_prefix st) (header m) (submessages m) st)
    with (interpret_rest clock (own_guid_prefix st) (header m) [] (submessages m) st).
  unfold MessageReceiver_reset. by rewrite !interpret_rest_source.
Qed.
