(* ===== verification/ReceiverSafety.v ===== *)
(** * No packet makes the receiver fail

    What a reader's handlers leave alone - its identity, its topic, and the
    clock limit of the cache - and from it that the receiver of
    [src/rtps/message_receiver.rs] survives packets with any contents, as long as
    sequence numbers are away from the end of their range and there are no
    fragments (see [fragment_count_overrun_panics] for these). *)

From S2P Require Import Prelude BTree Wire SequenceNumbers Time Guid Locator WriterProxy ParameterList Qos StatusEvents Payload Submessages Headers MessageBuilder MessageWire InlineQos FragmentAssembler DdsCache Reader ReaderCorrect ReaderTheorems MessageReceiver ReceiverTheorems.

(** ** What a reader keeps *)

(** The identity of the reader, its topic, and the limit up to which the cache was
    collected, unless it is set from the clock. *)
Definition reader_kept (later : Timestamp) : relation ReaderState := fun st st' =>
  r_my_guid (rs_reader st') = r_my_guid (rs_reader st) /\
  r_topic_name (rs_reader st') = r_topic_name (rs_reader st) /\
  (changes_reallocated_up_to (rs_cache st') = changes_reallocated_up_to (rs_cache st) \/
   changes_reallocated_up_to (rs_cache st') = Timestamp_sub_duration later (Duration_from_secs 5)).

#[export] Instance reader_kept_preorder later : PreOrder (reader_kept later).
Proof.
  split; [by repeat split; left|]. intros x y z (H1 & H2 & H3) (H4 & H5 & H6).
  split; [congruence|]. split; [congruence|]. destruct H6 as [-> | ->]; [done|by right].
Qed.

Section frame.
Context (later : Timestamp).
Abbreviation kept := (act_keeps (reader_kept later)).

Lemma kept_get_reader : kept get_reader.
Proof. unfold get_reader. auto with keeps. Qed.

Lemma kept_writers f : kept (modify_reader (fun r => r_set_writers r (f r))).
Proof. apply keeps_modify. by repeat split; left. Qed.

Lemma kept_assemblers f : kept (modify_reader (fun r => r_set_assemblers r (f r))).
Proof. apply keeps_modify. by repeat split; left. Qed.

Lemma kept_notify : kept notify_cache_change.
Proof. apply keeps_emit, _. Qed.

Lemma add_change_limit now tc t cc tc' :
  add_change now tc t cc = Ret tc' ->
  changes_reallocated_up_to tc' = changes_reallocated_up_to tc \/
  changes_reallocated_up_to tc' = Timestamp_sub_duration now (Duration_from_secs 5).
Proof.
  unfold add_change, add_change_internal. intros ([o tc1] & H & [= <-])%bind_Ret.
  apply bind_Ret in H as (tc0 & H0 & H1).
  assert (changes_reallocated_up_to tc1 = changes_reallocated_up_to tc0) as ->
    by (repeat case_match; by injection H1 as <- <-).
  destruct (_ =? 0) in H0; [|by injection H0 as <-; left].
  unfold remove_changes_before in H0. apply bind_Ret in H0 as ([] & _ & [= <-]). by right.
Qed.

Lemma kept_set_cache st tc :
  changes_reallocated_up_to tc = changes_reallocated_up_to (rs_cache st) \/
  changes_reallocated_up_to tc = Timestamp_sub_duration later (Duration_from_secs 5) ->
  keeps_at (reader_kept later) st (set_cache tc).
Proof. intros H a st' evs [= <- <- <-]. by repeat split. Qed.

(** The marker of the cache. *)
Lemma kept_marker g sn (k : bool -> R unit) :
  (forall b, kept (k b)) ->
  kept (st ← get_st; let '(moved, tc) := mark_reliably_received_before (rs_cache st) g sn in
        _ ← set_cache tc; k moved).
Proof.
  intros Hk. apply keeps_get_bind. intros st. cbn [mark_reliably_received_before].
  apply keeps_at_bind; [apply _| |auto]. apply kept_set_cache. by left.
Qed.

Lemma kept_make_cache_change d t wo g sn : kept (make_cache_change later d t wo g sn).
Proof.
  unfold make_cache_change. apply keeps_get_bind. intros st a st' evs. unfold mbind, act_bind, lift_outcome.
  destruct (add_change _ _ _ _) as [tc| |] eqn:E; simpl; [|done..]. apply add_change_limit in E.
  intros [= <- <- <-]. split; [done|]. split; [done|]. simpl. repeat case_match; done.
Qed.

Lemma kept_process d t wo g sn : kept (process_received_data later d t wo g sn).
Proof.
  unfold process_received_data, accept_sample. keeps_bind.
  - keeps_bind; [apply kept_get_reader|]. intros r. repeat case_match; auto with keeps.
    keeps_bind; [apply kept_writers|auto with keeps].
  - intros []; [|auto with keeps]. keeps_bind; [apply kept_make_cache_change|intros; apply kept_notify].
Qed.
End frame.

#[export] Hint Resolve kept_get_reader kept_writers kept_assemblers kept_notify kept_process : keeps.

Section handlers.
Context `{SP : Speedy} (later : Timestamp).
Abbreviation kept := (act_keeps (reader_kept later)).

Lemma kept_respond hb g dst ls missing wp : kept (respond_to_heartbeat hb g dst ls missing wp).
Proof.
  unfold respond_to_heartbeat. keeps_bind; [auto with keeps|]. intros r.
  keeps_bind; [auto with keeps|]. intros [set partial]. destruct (next_ack_nack_sequence_number wp) as [count wp1].
  keeps_bind; [auto with keeps|]. intros [nfs wp2]. unfold send_nackfrags_to, send_acknack_to.
  keeps_bind; [destruct nfs; auto with keeps|]. auto with keeps.
Qed.

Lemma kept_heartbeat_worker hb final mrs g wp : kept (heartbeat_worker hb final mrs g wp).
Proof.
  unfold heartbeat_worker. destruct (_ <=? _); [auto with keeps|]. keeps_bind; [auto with keeps|]. intros wp1.
  apply keeps_get_bind. intros st. cbn [mark_reliably_received_before].
  apply keeps_at_bind; [apply _|apply kept_set_cache; by left|]. intros _.
  keeps_bind; [case_match; auto with keeps|]. intros _. keeps_bind; [auto with keeps|]. intros missing.
  case_match; [|auto with keeps]. keeps_bind; [apply kept_respond|auto with keeps].
Qed.

Lemma kept_heartbeat hb final mrs : kept (handle_heartbeat_msg hb final mrs).
Proof.
  unfold handle_heartbeat_msg. keeps_bind; [auto with keeps|]. intros r. repeat (case_match; [auto with keeps|]).
  keeps_bind; [|auto with keeps]. unfold with_mutable_writer_proxy. keeps_bind; [auto with keeps|]. intros r'.
  case_match; [|auto with keeps]. keeps_bind; [apply kept_writers|]. intros _.
  keeps_bind; [apply kept_heartbeat_worker|]. intros res. keeps_bind; [auto with keeps|]. intros r''.
  keeps_bind; [auto with keeps|]. intros _. keeps_bind; [apply kept_writers|auto with keeps].
Qed.

Lemma kept_gap gap mrs : kept (handle_gap_msg gap mrs).
Proof.
  unfold handle_gap_msg. keeps_bind; [auto with keeps|]. intros r. repeat (case_match; auto with keeps).
  keeps_bind; [auto with keeps|]. intros wp. keeps_bind; [auto with keeps|]. intros sns.
  keeps_bind; [apply kept_writers|]. intros _. apply kept_marker. intros []; auto with keeps.
Qed.

Lemma kept_datafrag now df flags mrs : kept (handle_datafrag_msg now later df flags mrs).
Proof.
  unfold handle_datafrag_msg. keeps_bind; [auto with keeps|]. intros r. case_match; [auto with keeps|].
  keeps_bind; [auto with keeps|]. intros res. keeps_bind; [apply kept_assemblers|]. intros _.
  case_match; [auto with keeps|]. unfold garbage_collect_fragments. keeps_bind; [auto with keeps|]. intros r'.
  case_match; [|auto with keeps]. apply keeps_modify. by repeat split; left.
Qed.

Lemma kept_handler sm mrs now : kept (reader_handler sm mrs now later).
Proof.
  unfold reader_handler. destruct (sm_body sm); auto with keeps.
  - unfold handle_data_msg. case_match; auto with keeps.
  - unfold decode_and_handle_datafrag. case_match; [auto with keeps|apply kept_datafrag].
  - keeps_bind; [apply kept_heartbeat|auto with keeps].
  - apply kept_gap.
  - unfold handle_heartbeatfrag_msg. auto with keeps.
Qed.
End handlers.

(** ** The state of the receiver *)

(** The clock does not go back. *)
Definition clock_steady (clock : nat -> Timestamp) : Prop :=
  forall i j, (i <= j)%nat ->
    kle (Timestamp_sub_duration (clock i) (Duration_from_secs 5)) (Timestamp_sub_duration (clock j) (Duration_from_secs 5)).

(** Every reader is registered under its own entity id and its topic has a cache;
    the caches were collected at earlier times. *)
Definition receiver_inv (clock : nat -> Timestamp) (m : MessageReceiver) : Prop :=
  (forall eid r, available_readers m !! eid = Some r ->
     r_entity_id r = eid /\ exists tc, mr_caches m !! r_topic_name r = Some tc /\ reader_inv (mkRS r tc)) /\
  (forall name tc, mr_caches m !! name = Some tc -> tc_inv tc /\ clock_ok (clock (mr_ticks m)) tc).

(** Contents with sequence numbers away from the end of their range, and no
    fragments. *)
Definition sm_safe (sm : Submessage) : Prop :=
  match sm_body sm with
  | SmData d => data_writer_sn d < i64_max
  | SmDataFrag _ => False
  | SmHeartbeat h => last_sn h <= i64_max - 256
  | SmGap g => ns_in_range (gap_list g)
  | _ => True
  end.

Section safety.
Context `{SP : Speedy, !SpeedyLaws SP} (clock : nat -> Timestamp) (Hclock : clock_steady clock).

Lemma handler_good sm mrs now later st :
  reader_inv st -> clock_ok later (rs_cache st) -> body_ok (sm_flags sm) (sm_body sm) -> sm_safe sm ->
  wp (reader_handler sm mrs now later) st (fun _ st' _ => reader_good st st' /\ reader_kept later st st').
Proof.
  intros Hinv Hclk Hok Hsafe.
  enough (wp (reader_handler sm mrs now later) st (fun _ st' _ => reader_good st st')) as H.
  { apply wp_run in H as (a & st' & evs & E & H). apply wp_run. exists a, st', evs. split; [done|].
    split; [done|]. by eapply kept_handler. }
  unfold reader_handler, sm_safe, body_ok in *. destruct (sm_body sm).
  - by apply data_good.
  - done.
  - destruct Hok as (_ & _ & Hf & _). rd_step. eapply wp_mono; [apply heartbeat_good; [done|bounds_lia|done]|]. intros. by rd_step.
  - apply gap_good; [done|]. split; [apply Hok|done].
  - rd_step. by apply reader_good_refl.
  - rd_step. by apply reader_good_refl.
  - unfold handle_heartbeatfrag_msg. rd_step. by apply reader_good_refl.
  - rd_step. by apply reader_good_refl.
  - rd_step. by apply reader_good_refl.
  - rd_step. by apply reader_good_refl.
  - rd_step. by apply reader_good_refl.
Qed.

Lemma clock_ok_later i j tc : (i <= j)%nat -> clock_ok (clock i) tc -> clock_ok (clock j) tc.
Proof. intros Hij H. unfold clock_ok in *. etrans; [exact H|]. by apply Hclock. Qed.

Lemma wp_emit_all (eid : EntityId) (evs : list ReaderEvent) (m : MessageReceiver) (Q : MessageReceiver -> Prop) :
  Q m -> wp (act_for evs (fun ev => emit_ev (MREvReader eid ev))) m (fun _ m' _ => Q m').
Proof.
  intros HQ. apply (wp_for (fun m' _ => Q m')); [done|]. intros x m' evs' _ H. by apply wp_emit.
Qed.

Lemma with_reader_good eid h m :
  receiver_inv clock m ->
  (forall r tc, available_readers m !! eid = Some r -> reader_inv (mkRS r tc) ->
     clock_ok (clock (S (mr_ticks m))) tc ->
     wp (h (clock (mr_ticks m)) (clock (S (mr_ticks m)))) (mkRS r tc) (fun _ st' _ =>
       reader_inv st' /\ reader_kept (clock (S (mr_ticks m))) (mkRS r tc) st')) ->
  wp (with_reader clock eid h) m (fun _ m' _ =>
    receiver_inv clock m' /\ dom (available_readers m') = dom (available_readers m)).
Proof.
  intros [Hr Hc] Hh. unfold with_reader. wp_step. wp_step.
  destruct (available_readers m !! eid) as [r|] eqn:Er; [|by wp_step].
  destruct (Hr _ _ Er) as (Heid & tc & Etc & Hinv). rewrite Etc. destruct (Hc _ _ Etc) as [_ Hclk].
  assert (clock_ok (clock (S (mr_ticks m))) tc) as Hclk' by (eapply clock_ok_later; [|done]; lia).
  specialize (Hh r tc eq_refl Hinv Hclk'). apply wp_run in Hh as ([] & st' & evs & E & Hinv' & Hg & Ht & Hl).
  wp_step. eapply wp_lift; [exact E|]. cbn [fst snd app]. wp_step. wp_step. cbn [app].
  apply (wp_emit_all eid evs _ (fun m' => receiver_inv clock m' /\ dom (available_readers m') = dom (available_readers m))).
  split; [split|].
  - intros eid' r' H. cbn [available_readers mr_caches] in *. apply lookup_insert_Some in H as [[<- <-]|[Hne H]].
    + split; [unfold r_entity_id in *; by rewrite Hg|]. exists (rs_cache st'). split; [|by destruct st'].
      by rewrite Ht, lookup_insert_eq.
    + destruct (Hr _ _ H) as (H1 & tc' & H2 & H3). split; [done|].
      destruct (decide (r_topic_name r = r_topic_name r')) as [En|En].
      * exists (rs_cache st'). rewrite En, lookup_insert_eq. split; [done|].
        destruct H3 as (_ & H3 & H4). destruct Hinv' as (H5 & _). by split.
      * exists tc'. by rewrite lookup_insert_ne.
  - intros name tc' H. cbn [mr_caches mr_ticks] in *. apply lookup_insert_Some in H as [[<- <-]|[Hne H]].
    + destruct Hinv' as (H5 & _). split; [done|]. unfold clock_ok in *. destruct Hl as [-> | ->].
      * etrans; [exact Hclk'|]. apply Hclock. lia.
      * apply Hclock. lia.
    + destruct (Hc _ _ H) as [H1 H2]. split; [done|]. eapply clock_ok_later; [|exact H2]. lia.
  - cbn [available_readers]. apply dom_insert_lookup_L. by exists r.
Qed.

Lemma writer_submessage_good eid sm m :
  receiver_inv clock m -> body_ok (sm_flags sm) (sm_body sm) -> sm_safe sm ->
  wp (handle_writer_submessage clock eid sm) m (fun _ m' _ =>
    receiver_inv clock m' /\ dom (available_readers m') = dom (available_readers m)).
Proof.
  intros Hinv Hok Hsafe. unfold handle_writer_submessage. wp_step. wp_step.
  destruct (negb _); [by wp_step|]. destruct (available_readers m !! eid); [|by wp_step].
  wp_step. eapply wp_mono; [apply with_reader_good; [done|]|].
  - intros r0 tc _ Hi Hclk. eapply wp_mono; [by apply handler_good|]. cbv beta. by intros _ st' _ [[? _] ?].
  - cbv beta. intros _ m' evs Hm'. destruct (sm_body sm); try by wp_step. case_decide; by wp_step.
Qed.

Lemma receiver_inv_source m s : receiver_inv clock m -> receiver_inv clock (mr_set_source m s).
Proof. done. Qed.

Lemma submessage_good sm m :
  receiver_inv clock m -> body_ok (sm_flags sm) (sm_body sm) -> sm_safe sm ->
  wp (handle_submessage clock sm) m (fun _ m' _ =>
    receiver_inv clock m' /\ dom (available_readers m') = dom (available_readers m)).
Proof.
  intros Hinv Hok Hsafe. unfold handle_submessage.
  destruct (writer_submessage_ids (sm_body sm)) as [[rid wid]|].
  - case_decide; [|by apply writer_submessage_good]. wp_step. wp_step.
    apply (wp_for (fun m' _ => receiver_inv clock m' /\ dom (available_readers m') = dom (available_readers m))); [done|].
    intros eid m' evs _ [Hi Hd]. eapply wp_mono; [by apply writer_submessage_good|]. cbv beta. intros _ m'' _ [? ?].
    split; [done|congruence].
  - assert (wp (handle_reader_submessage (sm_body sm)) m (fun _ m' _ =>
      receiver_inv clock m' /\ dom (available_readers m') = dom (available_readers m))) as Hrd.
    { unfold handle_reader_submessage. wp_step. wp_step. destruct (negb _); [by wp_step|].
      destruct (sm_body sm); by wp_step. }
    destruct (sm_body sm); done.
Qed.

Lemma parsed_message_good msg m :
  receiver_inv clock m -> Forall (fun sm => body_ok (sm_flags sm) (sm_body sm)) (submessages msg) ->
  Forall sm_safe (submessages msg) ->
  wp (handle_parsed_message clock msg) m (fun _ m' _ =>
    receiver_inv clock m' /\ dom (available_readers m') = dom (available_readers m)).
Proof.
  intros Hinv Hok Hsafe. unfold handle_parsed_message. wp_step. wp_step. wp_step. wp_step.
  apply (wp_for (fun m' _ => receiver_inv clock m' /\ dom (available_readers m') = dom (available_readers m))); [done|].
  intros sm m' evs Hin [Hi Hd]. rewrite Forall_forall in Hok, Hsafe. wp_step.
  eapply wp_mono; [by apply submessage_good; auto|]. cbv beta. intros _ m'' _ [? ?].
  unfold count_submessage. wp_step. split; [done|simpl; congruence].
Qed.
End safety.

(** A packet with any bytes in it, short or malformed or well-formed, is handled
    without a panic and in finite time: either it is dropped, or it parses and its
    submessages are handed to the readers, which keep their invariants.  The
    packets left out are those with sequence numbers at the end of the 64-bit
    range or with fragments. *)
Theorem any_packet_survived `{SP : Speedy, !SpeedyLaws SP} clock m bs :
  clock_steady clock -> receiver_inv clock m ->
  (forall msg, Message_read_from_buffer LittleEndian bs = Ret (Some msg) -> Forall sm_safe (submessages msg)) ->
  exists m' evs, handle_received_packet clock bs m = Ret (tt, m', evs) /\
    receiver_inv clock m' /\ dom (available_readers m') = dom (available_readers m).
Proof.
  intros Hclock Hinv Hsafe.
  assert (wp (handle_received_packet clock bs) m (fun _ m' _ =>
    receiver_inv clock m' /\ dom (available_readers m') = dom (available_readers m))) as H.
  { unfold handle_received_packet. case_match; [by wp_step|].
    destruct (read_any_message LittleEndian bs) as (r & E & Hr). wp_step. eapply wp_lift; [exact E|]. cbn [app].
    destruct r as [msg|]; [|by wp_step]. destruct (Hr _ eq_refl) as [_ Hok]. eapply wp_mono; [|intros ???; exact id].
    apply parsed_message_good; auto. }
  apply wp_run in H as ([] & m' & evs & E & H). by exists m', evs.
Qed.

(** ** Fragments that are asked for *)

Lemma nackfrag_step clock sm m :
  (exists nf, sm_body sm = SmNackFrag nf) \/ (exists p, sm_body sm = SmInfoDestination p) ->
  wp (_ ← handle_submessage clock sm; count_submessage) m (fun _ m' evs => evs = [] /\
    available_readers m' = available_readers m /\ mr_caches m' = mr_caches m).
Proof.
  intros [[nf E]|[p E]]; wp_step; unfold handle_submessage, count_submessage; rewrite E; simpl.
  - unfold handle_reader_submessage. wp_step. wp_step. destruct (negb _); by repeat wp_step.
  - by repeat wp_step.
Qed.

(** The NACKFRAGs with which a reader asks for the missing fragments of a sample
    have no effect on the participant that receives them: no reader, no cache and
    no writer hears of them.  As [heartbeat_answer_correct] shows, a reader leaves
    such samples out of its ACKNACKs. *)
Theorem nackfrags_dropped clock r g nfs m :
  exists m', handle_parsed_message clock (nackfrag_message r g nfs) m = Ret (tt, m', []) /\
    available_readers m' = available_readers m /\ mr_caches m' = mr_caches m.
Proof.
  assert (wp (handle_parsed_message clock (nackfrag_message r g nfs)) m (fun _ m' evs => evs = [] /\
    available_readers m' = available_readers m /\ mr_caches m' = mr_caches m)) as H.
  { unfold handle_parsed_message. wp_step. wp_step. wp_step. wp_step. cbn [app].
    apply (wp_for (fun m' evs => evs = [] /\ available_readers m' = available_readers m /\ mr_caches m' = mr_caches m)); [done|].
    intros sm m1 evs Hin (-> & H1 & H2). eapply wp_mono; [apply nackfrag_step|].
    - unfold nackfrag_message in Hin. simpl in Hin. apply elem_of_cons in Hin as [->|Hin]; [right; by eexists|].
      apply list_elem_of_fmap in Hin as (nf & -> & _). left. by eexists.
    - cbv beta. intros _ m2 evs' (-> & E1 & E2). split; [done|]. split; congruence. }
  apply wp_run in H as ([] & m' & evs & E & -> & H1 & H2). by exists m'.
Qed.

(** ** A packet is received *)

Definition demo_receiver : MessageReceiver :=
  mkReceiver {[r_entity_id (rs_reader demo_state) := rs_reader demo_state]} (mkPrefix (replicate 12 2)) reset_source
    {["t" := rs_cache demo_state]} 0.
Definition demo_packet : bytes :=
  Message_write LittleEndian (mkMessage (Header_new demo_prefix) [mkSubmessage 1 28 (SmHeartbeat demo_hb)]).

Lemma demo_receiver_inv : receiver_inv (fun _ => mkTimestamp 20 0) demo_receiver.
Proof.
  split.
  - intros eid r. cbn [demo_receiver available_readers mr_caches]. rewrite lookup_singleton_Some. intros [<- <-].
    split; [reflexivity|]. exists (rs_cache demo_state). split; [reflexivity|exact demo_state_inv].
  - intros name tc. cbn [demo_receiver mr_caches]. rewrite lookup_singleton_Some. intros [_ <-].
    split; [apply demo_state_inv|vm_compute; discriminate].
Qed.

Lemma any_packet_survived_witness :
  exists m' evs, handle_received_packet (fun _ => mkTimestamp 20 0) demo_packet demo_receiver = Ret (tt, m', evs) /\
    receiver_inv (fun _ => mkTimestamp 20 0) m'.
Proof.
  destruct (any_packet_survived (fun _ => mkTimestamp 20 0) demo_receiver demo_packet) as (m' & evs & H1 & H2 & _).
  - intros i j _. reflexivity.
  - exact demo_receiver_inv.
  - assert (Message_read_from_buffer LittleEndian demo_packet
      = Ret (Some (mkMessage (Header_new demo_prefix) [mkSubmessage 1 28 (SmHeartbeat demo_hb)]))) as E
      by (vm_compute; reflexivity).
    rewrite E. intros msg [= <-]. repeat constructor. vm_compute. discriminate.
  - exists m', evs. split; [exact H1|exact H2].
Defined.
