(* ===== verification/WriterFrame.v ===== *)
(** * What the writer does to its history and its readers

    Frame properties of the handlers of [src/rtps/writer.rs], used where the writer
    meets a reader: which handlers leave the history alone, when a change leaves
    it, and how far the acknowledgments and pending gaps of the matched readers can
    move. *)

From S2P Require Import Prelude BTree Wire SequenceNumbers Time Guid Locator ParameterList Qos StatusEvents Payload Submessages Headers MessageBuilder FragmentAssembler ReaderProxy HistoryBuffer Writer WriterCorrect WriterHandlers WriterTheorems.

(** ** What the writer does to its history *)

(** What is known of the readers: there is at most the reader [lim_reader]; it has
    acknowledged at most what is below [lim_acked]; the numbers it will be told not
    to wait for are in [lim_excused]. *)
Record Limits := mkLimits {
  lim_reader : GUID;
  lim_acked : SequenceNumber;
  lim_excused : gset SequenceNumber;
}.

(** The part of a proxy this is about. *)
Definition claims (rp : RtpsReaderProxy) : GUID * SequenceNumber * gset SequenceNumber :=
  (remote_reader_guid rp, all_acked_before rp, pending_gap rp).
Definition claims_within (L : Limits) (c : GUID * SequenceNumber * gset SequenceNumber) : Prop :=
  c.1.1 = lim_reader L /\ c.1.2 <= lim_acked L /\ c.2 ⊆ lim_excused L.
Definition within (L : Limits) (w : Writer) : Prop :=
  forall g rp, readers w !! g = Some rp -> claims_within L (claims rp).

(** The history is left alone, and the readers stay within the limits. *)
Definition writer_kept (L : Limits) : relation Writer := fun w w' =>
  w_history w' = w_history w /\ (within L w -> within L w').
Abbreviation keeps_history L := (act_keeps (writer_kept L)).

#[export] Instance writer_kept_preorder L : PreOrder (writer_kept L).
Proof. split; [done|]. intros x y z [H1 H2] [H3 H4]. split; [congruence|auto]. Qed.

Lemma within_insert L w g rp :
  within L w -> claims_within L (claims rp) -> within L (w_set_readers w (<[g := rp]> (readers w))).
Proof. intros Hw Hrp g' rp'. simpl. rewrite lookup_insert_Some. intros [[_ <-]|[_ ?]]; [done|by eapply Hw]. Qed.

Lemma within_delete L w g : within L w -> within L (w_set_readers w (delete g (readers w))).
Proof. intros Hw g' rp'. simpl. rewrite lookup_delete_Some. intros [_ ?]. by eapply Hw. Qed.

Section frame.
Context `{SP : Speedy} (L : Limits).

Lemma kh_send mode m rps : keeps_history L (send_message_to_readers mode m rps).
Proof. unfold send_message_to_readers. auto with keeps. Qed.

Lemma kh_push_heartbeat mb rid l : keeps_history L (push_heartbeat mb rid l).
Proof.
  unfold push_heartbeat, next_heartbeat_count. keeps_bind; [auto with keeps|]. intros w.
  keeps_bind; [|auto with keeps]. keeps_bind; [auto with keeps|]. intros w'.
  keeps_bind; [by apply keeps_modify|auto with keeps].
Qed.

Lemma kh_data_message cc hb t rid : keeps_history L (data_message cc hb t rid).
Proof.
  unfold data_message. keeps_bind; [auto with keeps|]. intros w. keeps_bind; [auto with keeps|]. intros mb.
  keeps_bind; [case_match; [apply kh_push_heartbeat|auto with keeps]|auto with keeps].
Qed.

Lemma kh_send_cache_change cc hb t : keeps_history L (send_cache_change cc hb t).
Proof.
  unfold send_cache_change. case_match; [auto with keeps|]. keeps_bind; [auto with keeps|]. intros w.
  keeps_bind.
  - case_match; [keeps_bind; [apply kh_data_message|auto with keeps]|].
    keeps_bind; [auto with keeps|]. intros gaps. keeps_bind; [auto with keeps|]. intros frags.
    keeps_bind; [case_match; [keeps_bind; [apply kh_push_heartbeat|auto with keeps]|auto with keeps]|auto with keeps].
  - intros msgs. keeps_bind; [|auto with keeps]. apply keeps_for; [apply _|]. intros m. case_match; apply kh_send.
Qed.

Lemma kh_ack_waiters g a : keeps_history L (update_ack_waiters g a).
Proof.
  unfold update_ack_waiters. keeps_bind; [auto with keeps|]. intros w. case_match; [|auto with keeps].
  destruct (reader_acked_or_lost _ _ _) as [[] aw]; [keeps_bind; [auto with keeps|intros _]|]; by apply keeps_modify.
Qed.

Lemma kh_repair_gap rp S before : keeps_history L (repair_gap rp S before).
Proof.
  unfold repair_gap. keeps_bind; [auto with keeps|]. intros w. case_decide; [auto with keeps|].
  set (x := match before with Some _ => _ | None => _ end). destruct x as [mb rp1].
  keeps_bind; [case_decide; auto with keeps|]. intros [mb' rp2]. keeps_bind; [apply kh_send|auto with keeps].
Qed.

Lemma kh_repair_send rp sn cc : keeps_history L (repair_send rp sn cc).
Proof.
  unfold repair_send. keeps_bind; [auto with keeps|]. intros w. keeps_bind; [apply kh_send_cache_change|]. intros [];
    (keeps_bind; [|auto with keeps]); auto with keeps. keeps_bind; [auto with keeps|]. intros []. auto with keeps.
Qed.

(** What a worker does to the proxy it is given. *)
Abbreviation same_claims rp := (act_returns (fun rp' : RtpsReaderProxy => claims rp' = claims rp)).

Lemma claims_foldl_sent l rp : claims (foldl mark_change_sent rp l) = claims rp.
Proof. revert rp. induction l as [|x l IH]; intros rp; simpl; [done|]. by rewrite IH. Qed.

Lemma sa_repair_gap rp S before : same_claims rp (repair_gap rp S before).
Proof.
  unfold repair_gap. eapply returns_bind; [apply returns_any|]. intros w _. case_decide; [by apply returns_ret|].
  set (x := match before with Some _ => _ | None => _ end).
  assert (claims x.2 = claims rp) as Hx by (unfold x; by destruct before).
  destruct x as [mb rp1]. simpl in Hx.
  eapply (returns_bind (fun q => claims q.2 = claims rp)).
  - case_decide; [by apply returns_ret|]. eapply returns_bind; [apply returns_any|]. intros mb' _.
    apply returns_ret. simpl. by rewrite claims_foldl_sent.
  - intros [mb' rp2] H2. eapply returns_bind; [apply returns_any|]. intros _ _. by apply returns_ret.
Qed.

Lemma sa_repair_send rp sn cc : same_claims rp (repair_send rp sn cc).
Proof.
  unfold repair_send. eapply returns_bind; [apply returns_any|]. intros w _. eapply returns_bind; [apply returns_any|].
  intros frag _. eapply (returns_bind (fun rp' => claims rp' = claims rp)).
  - destruct frag; [|by apply returns_ret]. eapply returns_bind; [apply returns_any|]. intros [n z] _.
    eapply returns_bind; [apply returns_any|]. intros _ _. by apply returns_ret.
  - intros rp' H. by apply returns_ret.
Qed.

Lemma sa_repair_data rp : same_claims rp (handle_repair_data_send_worker rp).
Proof.
  unfold handle_repair_data_send_worker. eapply returns_bind; [apply returns_any|]. intros w _.
  repeat case_match; first [by apply returns_ret|apply sa_repair_gap|
    eapply returns_bind; [apply sa_repair_send|]; intros rp' H'; rewrite <- H'; apply sa_repair_gap].
Qed.

Lemma claims_mark_frag_sent rp sn f rp' :
  mark_frag_sent rp sn f = Ret rp' -> claims rp' = claims rp.
Proof.
  unfold mark_frag_sent. case_match; [|by intros [= <-]]. intros (bv & _ & [= <-])%bind_Ret. by case_match.
Qed.

Lemma sa_repair_frags rp : same_claims rp (handle_repair_frags_send_worker rp).
Proof.
  unfold handle_repair_frags_send_worker. eapply returns_bind; [apply returns_any|]. intros frags _.
  revert rp. induction frags as [|[sn f] frags IH]; intros rp; cbn [repair_frags_loop]; [by apply returns_ret|].
  eapply returns_bind; [apply returns_any|]. intros w _.
  assert (same_claims rp (rp ← lift_outcome (mark_frag_sent rp sn f); repair_frags_loop rp frags)) as Hrest.
  { eapply returns_bind; [apply returns_lift, claims_mark_frag_sent|]. intros rp' H. rewrite <- H. apply IH. }
  case_match; [case_match; [by apply returns_ret|]|done].
  do 2 (eapply returns_bind; [apply returns_any|]; intros ? _). done.
Qed.

Lemma kh_with_reader_removed g worker :
  (forall rp, keeps_history L (worker rp)) -> (forall rp, same_claims rp (worker rp)) ->
  keeps_history L (with_reader_removed g worker).
Proof.
  intros Hk Hs. unfold with_reader_removed. apply keeps_get_bind. intros w. destruct (like_stateless w); [apply keeps_ret, _|].
  destruct (readers w !! g) as [rp|] eqn:Erp; [|apply keeps_ret, _].
  intros u w' evs H. apply bind_run_inv in H as (u1 & w1 & e1 & e2 & [= <- <- <-] & H & ->).
  apply bind_run_inv in H as (rp' & w2 & e3 & e4 & H2 & H3 & ->).
  pose proof (Hs _ _ _ _ _ H2) as Ha. apply Hk in H2 as [Hh2 Hb2]. injection H3 as <- <- <-.
  split; [simpl in *; congruence|]. intros Hw. apply within_insert; [by apply Hb2, within_delete|].
  rewrite Ha. by eapply Hw.
Qed.

Lemma kh_repair_data g : keeps_history L (handle_repair_data_send g).
Proof.
  apply kh_with_reader_removed; [|apply sa_repair_data]. intros rp. unfold handle_repair_data_send_worker.
  keeps_bind; [auto with keeps|]. intros w.
  repeat case_match; first [apply kh_repair_gap|apply keeps_ret, _
    |keeps_bind; [apply kh_repair_send|intros; apply kh_repair_gap]].
Qed.

Lemma kh_repair_frags g : keeps_history L (handle_repair_frags_send g).
Proof.
  apply kh_with_reader_removed; [|apply sa_repair_frags]. intros rp. unfold handle_repair_frags_send_worker.
  keeps_bind; [auto with keeps|].
  intros frags. revert rp. induction frags as [|[sn f] frags IH]; intros rp; cbn [repair_frags_loop]; [auto with keeps|].
  keeps_bind; [auto with keeps|]. intros w. case_match; [case_match; [auto with keeps|]|].
  - keeps_bind; [auto with keeps|]. intros mb. keeps_bind; [apply kh_send|]. intros _. keeps_bind; [auto with keeps|done].
  - keeps_bind; [auto with keeps|done].
Qed.

Lemma kh_heartbeat_tick now m : keeps_history L (handle_heartbeat_tick now m).
Proof.
  unfold handle_heartbeat_tick. keeps_bind; [auto with keeps|]. intros w.
  destruct (like_stateless w); [auto with keeps|]. destruct (forallb _ _); [auto with keeps|].
  keeps_bind; [apply kh_push_heartbeat|]. intros mb. case_decide; [|apply kh_send].
  apply keeps_for; [apply _|]. intros rp. case_match; [auto with keeps|apply kh_send].
Qed.
End frame.

Section effect.
Context `{SP : Speedy} (L : Limits).

Lemma claims_handle_ack_nack rp an last rp' :
  RtpsReaderProxy_handle_ack_nack rp (Ack_AckNack an) last = Ret rp' ->
  claims rp' = (remote_reader_guid rp, bitmap_base (reader_sn_state an), bs_from (bitmap_base (reader_sn_state an)) (pending_gap rp)).
Proof. simpl. intros (l & _ & [= <-])%bind_Ret. by repeat case_match. Qed.

Lemma claims_mark_frags_requested rp sn fs rp' : mark_frags_requested rp sn fs = Ret rp' -> claims rp' = claims rp.
Proof.
  unfold mark_frags_requested. case_match; [|by intros [= <-]].
  intros (l & _ & (bv & _ & [= <-])%bind_Ret)%bind_Ret. done.
Qed.

Lemma bs_from_subseteq (x : SequenceNumber) S : bs_from x S ⊆ S.
Proof. intros y. unfold bs_from. rewrite elem_of_filter. tauto. Qed.

(** What the writer answers to an ACKNACK once the proxy is updated. *)
Lemma kh_ack_answer g : keeps_history L (w ← get_st;
  match readers w !! g with
  | Some rp =>
      if decide (pending_gap rp = ∅) then mret tt
      else
        mb ← lift_outcome (gap_msg [] (pending_gap rp) (w_entity_id w) (endianness w) g);
        send_message_to_readers Unicast (add_header_and_build mb (prefix (w_my_guid w))) [rp]
  | None => mret tt
  end).
Proof.
  keeps_bind; [auto with keeps|]. intros w'. case_match; [|auto with keeps]. case_decide; [auto with keeps|].
  keeps_bind; [auto with keeps|intros; apply kh_send].
Qed.

Lemma kh_acknack p an :
  bitmap_base (reader_sn_state an) <= lim_acked L -> keeps_history L (handle_ack_nack p (Ack_AckNack an)).
Proof.
  intros Hb. unfold handle_ack_nack. apply keeps_get_bind. intros w. destruct (_ || _); [apply keeps_ret, _|].
  intros u w' evs H. apply bind_run_inv in H as (u0 & w0 & e7 & e8 & H0 & H & ->). pose proof (keeps_lift eq _ _ _ _ _ H0) as <-.
  apply bind_run_inv in H as (u1 & w1 & e1 & e2 & H1 & H & ->). apply (kh_ack_waiters L) in H1 as [Hh1 Hk1].
  apply bind_run_inv in H as (u2 & w2 & e3 & e4 & H2 & H3 & ->). apply (kh_ack_answer (GUID_new p (an_reader_id an))) in H3.
  etrans; [|exact H3]. clear H3.
  destruct (readers w !! _) as [rp|] eqn:Erp; [|by injection H2 as <- <- <-].
  apply bind_run_inv in H2 as (rp0 & w3 & e5 & e6 & E & H2 & ->).
  pose proof (keeps_lift eq _ _ _ _ _ E) as <-.
  assert (claims_within L (claims rp) -> claims_within L (claims rp0)) as Hrp.
  { unfold lift_outcome in E. destruct (RtpsReaderProxy_handle_ack_nack _ _ _) as [rp1| |] eqn:E0; [|done..].
    injection E as -> _. apply claims_handle_ack_nack in E0. intros (Hc1 & Hc2 & Hc3). rewrite E0.
    split; [done|]. split; [done|]. simpl. etrans; [apply bs_from_subseteq|done]. }
  assert (forall m, writer_kept L w (w_set_readers w1 (<[GUID_new p (an_reader_id an) := rp_set_repair_mode rp0 m]> (readers w1)))) as Hset.
  { intros m. split; [done|]. intros Hw. apply within_insert; [by apply Hk1|]. by eapply Hrp, Hw. }
  destruct (_ <? _) in H2; [by injection H2 as <- <- <-|].
  apply bind_run_inv in H2 as (u4 & w4 & e9 & e10 & [= <- <- <-] & [= <- <- <-] & ->). done.
Qed.

Lemma kh_nackfrag p nf : keeps_history L (handle_ack_nack p (Ack_NackFrag nf)).
Proof.
  unfold handle_ack_nack. apply keeps_get_bind. intros w. destruct (_ || _); [apply keeps_ret, _|].
  apply keeps_at_bind; [apply _| |auto with keeps]. destruct (readers w !! _) as [rp|] eqn:Erp; [|apply keeps_ret, _].
  intros u w' evs H. apply bind_run_inv in H as (rp' & w1 & e1 & e2 & H1 & [= <- <- <-] & ->).
  unfold lift_outcome in H1. destruct (mark_frags_requested _ _ _) as [rp0| |] eqn:E; [|done..].
  injection H1 as <- <- <-. apply claims_mark_frags_requested in E. split; [done|]. intros Hw.
  apply within_insert; [done|]. rewrite E. by eapply Hw.
Qed.

(** What a matched reader adds to the limits: a volatile writer sends a late
    reader nothing of what it has. *)
Definition match_within (w : Writer) (rp : RtpsReaderProxy) : Prop :=
  claims_within L (claims rp) /\
  (is_volatile (w_qos w) = true -> readers w !! remote_reader_guid rp = None ->
   forall sn, 1 <= sn <= last_seq (w_history w) -> sn ∈ lim_excused L).

Lemma matched_update_at w rp : writer_inv w -> match_within w rp -> keeps_at (writer_kept L) w (matched_reader_update rp).
Proof.
  intros Hinv [Hrp Hvol]. pose proof (last_seq_nonneg w Hinv) as Hls. unfold matched_reader_update.
  apply keeps_get_bind_at. destruct (readers w !! _) as [rp0|] eqn:E0.
  - intros u w1 evs H1. apply bind_run_inv in H1 as (u2 & w2 & e3 & e4 & [= <- <- <-] & [= <- <- <-] & ->).
    split; [done|]. intros Hw. apply within_insert; [done|]. by apply (Hw _ _ E0).
  - intros u w1 evs H1. apply bind_run_inv in H1 as (rp' & w2 & e3 & e4 & H1 & H2 & ->).
    pose proof (keeps_lift eq _ _ _ _ _ H1) as <-.
    apply bind_run_inv in H2 as (u3 & w3 & e5 & e6 & [= <- <- <-] & [= <- <- <-] & ->).
    split; [done|]. intros Hw. apply within_insert; [done|]. destruct (is_volatile (w_qos w)).
    + destruct (set_pending_gap_run rp (last_seq (w_history w))) as (S & Es & HS); [lia|].
      unfold lift_outcome in H1. unfold last_change_sequence_number in H1. rewrite Es in H1. injection H1 as <- _.
      destruct Hrp as (? & ? & Hp). split; [done|]. split; [done|]. simpl. intros x [?|?]%HS; [by apply Hp|by apply Hvol].
    + by injection H1 as <- _.
Qed.

Lemma update_reader_at w rp q : writer_inv w -> match_within w rp -> keeps_at (writer_kept L) w (update_reader_proxy rp q).
Proof.
  intros Hinv Hm. unfold update_reader_proxy. apply keeps_get_bind_at. case_match.
  - apply keeps_bind; [apply _| |auto with keeps]. by apply keeps_modify.
  - apply keeps_at_bind; [apply _|by apply matched_update_at|]. intros c. case_match; [|auto with keeps].
    keeps_bind; [by apply keeps_modify|auto with keeps].
Qed.

Lemma kh_reader_lost g : keeps_history L (reader_lost g).
Proof.
  unfold reader_lost. keeps_bind; [auto with keeps|]. intros w. keeps_bind; [|intros; apply kh_ack_waiters].
  case_decide; [|auto with keeps]. keeps_bind; [|auto with keeps]. apply keeps_modify. intros w'. split; [done|].
  apply within_delete.
Qed.

(** What the input must not bring in. *)
Definition input_within (w : Writer) (i : WriterInput) : Prop :=
  match i with
  | InCommand _ (WCData _ o sn) => forall g, to_single_reader o = Some g -> g <> lim_reader L -> sn ∈ lim_excused L
  | InAck _ (Ack_AckNack an) => bitmap_base (reader_sn_state an) <= lim_acked L
  | InUpdateReader rp _ => match_within w rp
  | _ => True
  end.

(** The number of the change that an input writes. *)
Definition written_by (i : WriterInput) : option SequenceNumber :=
  match i with InCommand _ (WCData _ _ sn) => Some sn | _ => None end.

(** What a handler may do to the history: numbers that are gone stay gone, only
    acknowledged ones go, nothing comes in but what is written, and that does. *)
Definition history_moves (i : WriterInput) (h h' : HistoryBuffer) : Prop :=
  last_seq h <= last_seq h' /\
  (forall sn, gone h sn -> gone h' sn) /\
  (forall sn, is_Some (get_by_sn h sn) -> is_Some (get_by_sn h' sn) \/ sn < lim_acked L) /\
  (forall sn, is_Some (get_by_sn h' sn) -> is_Some (get_by_sn h sn) \/ written_by i = Some sn) /\
  (forall sn, written_by i = Some sn -> last_seq h < sn <= last_seq h' /\ is_Some (get_by_sn h' sn)).

Lemma history_same i h h' : h' = h -> written_by i = None -> history_moves i h h'.
Proof. intros -> Hi. split; [lia|]. split; [done|]. split; [by left|]. split; [by left|]. by rewrite Hi. Qed.

Lemma kh_push_new now o : keeps_history L (w ← get_st;
  if push_mode w then
    match HistoryBuffer_get_change (w_history w) now with
    | Some cc => _ ← send_cache_change cc true (to_single_reader o ≫= (readers w !!.)); mret tt
    | None => mret tt
    end
  else
    mb ← push_heartbeat [] EntityId_UNKNOWN false;
    send_message_to_readers Multicast (add_header_and_build mb (prefix (w_my_guid w))) (bt_values (readers w))).
Proof.
  keeps_bind; [auto with keeps|]. intros w. destruct (push_mode w).
  - case_match; [|auto with keeps]. keeps_bind; [apply kh_send_cache_change|auto with keeps].
  - keeps_bind; [apply kh_push_heartbeat|intros; apply kh_send].
Qed.

Lemma process_data_effect now d o sn w u w' evs :
  writer_inv w -> data_ok w now d sn -> input_within w (InCommand now (WCData d o sn)) -> within L w -> process_data_command now d o sn w = Ret (u, w', evs) ->
  within L w' /\ history_moves (InCommand now (WCData d o sn)) (w_history w) (w_history w').
Proof.
  intros Hw (Hf & Hsn & _) Hin Hb H. pose proof (wi_hist w Hw) as Hh. unfold process_data_command in H.
  apply bind_run_inv in H as (t & w1 & e1 & e2 & H1 & H2 & ->). unfold insert_to_history_buffer in H1.
  apply bind_run_inv in H1 as (v & w0 & e3 & e4 & H0 & H1 & ->).
  assert (w0 = w) as -> by (unfold lift_outcome, rust_assert in H0; destruct (_ <? _) in H0; by inversion H0).
  set (cc := mkCacheChange (w_my_guid w) sn o d) in *.
  apply bind_run_inv in H1 as (v1 & w2 & e5 & e6 & [= <- <- <-] & [= <- <- <-] & ->).
  set (w1 := w_set_history _ _) in *.
  assert (within L w1) as Hb1 by done.
  apply bind_run_inv in H2 as (v2 & w2 & e7 & e8 & [= <- <- <-] & H2 & ->).
  apply (kh_push_new now o) in H2 as [Eh Hb'].
  match type of Hb' with within L ?x -> _ => assert (within L x /\ w_history x = w_history w1) as [Hb2 Eh2] end.
  { destruct (like_stateless w); [done|]. split; [|done]. intros g rp. simpl.
    rewrite lookup_fmap_Some. intros (rp0 & <- & H0'). destruct (Hb1 _ _ H0') as (Hc1 & Hc2 & Hc3).
    unfold notify_reader. destruct (to_single_reader o) as [g'|] eqn:Eo; [|done]. case_decide as Hg; [done|].
    split; [done|]. split; [done|]. simpl in *. apply union_subseteq. split; [|done].
    apply singleton_subseteq_l, (Hin g' Eo). congruence. }
  split; [by apply Hb'|]. rewrite Eh, Eh2.
  assert (forall x, get_by_sn (w_history w1) x = if decide (x = sn) then Some cc else get_by_sn (w_history w) x) as Hget
    by (intros x; apply (get_by_sn_add (w_history w) now cc x Hh Hf)).
  assert (last_seq (w_history w1) = sn) as Hl.
  { simpl. unfold last_change_sequence_number. destruct (Z.ltb_spec (last_seq (w_history w)) sn); [done|lia]. }
  split; [lia|]. split; [|split; [|split]].
  - intros x [Hx1 Hx2]. split; [|lia]. rewrite Hget. case_decide; [lia|done].
  - intros x Hx. left. rewrite Hget. by case_decide.
  - intros x. rewrite Hget. case_decide as Hx; [right; by rewrite Hx|by left].
  - intros x [= <-]. split; [lia|]. rewrite Hget. by rewrite decide_True by done.
Qed.

Lemma last_seq_cleaning w : last_seq (w_history (handle_cache_cleaning w)) = last_seq (w_history w).
Proof.
  rewrite handle_cache_cleaning_depth. unfold remove_all_acked_changes_but_keep_depth. simpl.
  unfold HistoryBuffer_remove_changes_before. by repeat case_match.
Qed.

Lemma cleaning_effect i w :
  writer_inv w -> within L w -> written_by i = None ->
  history_moves i (w_history w) (w_history (handle_cache_cleaning w)).
Proof.
  intros Hw Hb Hi. split; [by rewrite last_seq_cleaning|]. split; [|split; [|split; [|by rewrite Hi]]].
  - intros sn [H1 H2]. split; [by apply cleaning_adds_nothing|by rewrite last_seq_cleaning].
  - intros sn [cc Hcc]. destruct (cleaning_removes w sn cc Hw Hcc) as [H|(Hne & _ & Hall)]; [left; by eexists|right].
    apply map_choose in Hne as (g & rp & Hg). specialize (Hall g rp Hg). specialize (Hb g rp Hg).
    destruct Hb as (_ & Hb & _). simpl in Hb. pose proof (keep_depth_bounds w). lia.
  - intros sn [cc Hcc]. left. destruct (get_by_sn (w_history w) sn) eqn:E; [done|].
    by rewrite cleaning_adds_nothing in Hcc.
Qed.

Lemma readers_cleaning w : readers (handle_cache_cleaning w) = readers w.
Proof. by rewrite handle_cache_cleaning_depth. Qed.

Lemma kh_wait ch : keeps_history L (process_wait_command ch).
Proof.
  unfold process_wait_command. keeps_bind; [auto with keeps|]. intros w. destruct (like_stateless w); [auto with keeps|].
  keeps_bind; [|auto with keeps]. case_decide; [keeps_bind; [auto with keeps|intros _]|]; by apply keeps_modify.
Qed.

Lemma kh_timer now e : e <> TECacheCleaning -> keeps_history L (handle_one_timed_event now e).
Proof.
  intros Hne. destruct e as [| |g|g]; [| done|..]; unfold handle_one_timed_event;
    (keeps_bind; [apply kh_heartbeat_tick || apply kh_repair_data || apply kh_repair_frags|]; intros _;
     keeps_bind; [auto with keeps|]; intros w; repeat case_match; auto with keeps).
Qed.

Lemma kept_effect {A} (m : W A) i w a w' evs :
  keeps_history L m -> written_by i = None -> within L w -> m w = Ret (a, w', evs) ->
  within L w' /\ history_moves i (w_history w) (w_history w').
Proof. intros Hk Hi Hb H. apply Hk in H as [Hh Ha]. split; [auto|by apply history_same]. Qed.

(** Any input at all. *)
Lemma writer_effect w i u w' evs :
  writer_inv w -> input_ok w i -> input_within w i -> within L w -> writer_handle i w = Ret (u, w', evs) ->
  within L w' /\ history_moves i (w_history w) (w_history w').
Proof.
  intros Hw Hok Ha Hb H. destruct i as [now [d o sn|ch]|now e|p [an|nf]|rp q|g|p]; simpl in Hok, Ha, H.
  - apply bind_run_inv in H as (x & w1 & e1 & e2 & H & [= <- <- <-] & ->).
    apply bind_run_inv in H as (y & w2 & e3 & e4 & H & [= <- <- <-] & ->). by eapply process_data_effect.
  - eapply kept_effect; [|done|done|exact H]. do 2 (keeps_bind; [|auto with keeps]).
    + apply kh_wait.
    + intros []; auto with keeps.
  - apply bind_run_inv in H as (x & w1 & e1 & e2 & H & [= <- <- <-] & ->). cbn [fst snd] in H.
    destruct (decide (e = TECacheCleaning)) as [->|Hne].
    + apply bind_run_inv in H as (y & w2 & e3 & e4 & [= <- <- <-] & [= <- <- <-] & ->).
      split; [|by apply cleaning_effect]. intros g rp. rewrite readers_cleaning. apply Hb.
    + eapply kept_effect; [by apply kh_timer|done|done|exact H].
  - eapply kept_effect; [by apply (kh_acknack p an)|done|done|exact H].
  - eapply kept_effect; [apply (kh_nackfrag p nf)|done|done|exact H].
  - apply update_reader_at in H as [Hh Hk]; [|done..]. split; [auto|by apply history_same].
  - eapply kept_effect; [apply (kh_reader_lost g)|done|done|exact H].
  - eapply kept_effect; [|done|done|exact H]. unfold participant_lost. keeps_bind; [auto with keeps|]. intros w0.
    apply keeps_for; [apply _|]. intros g. apply kh_reader_lost.
Qed.
End effect.
