(* ===== verification/Protocol.v ===== *)
(** * Reliable delivery over an unreliable network

    The writer of [src/rtps/writer.rs] and the reader of [src/rtps/reader.rs]
    together, with everything between them that can go wrong.  The network is the
    bag of the messages sent so far, any of which may be received at any time, in
    any order, any number of times or never; so are the acknowledgments on their
    way back.  Fragments are not delivered here: what becomes of them is the
    subject of [FragmentAssembler].

    The steps run the handlers themselves; only what one component sees of the
    other is abstracted, from a datagram to the submessage it carries. *)

From S2P Require Import Prelude BTree Wire SequenceNumbers Time Guid Locator WriterProxy ParameterList Qos StatusEvents Payload Submessages Headers MessageBuilder InlineQos FragmentAssembler DdsCache Reader ReaderCorrect ReaderTheorems ReaderProxy HistoryBuffer Writer WriterCorrect WriterHandlers WriterTheorems WriterFrame.

Section protocol.
Context `{SP : Speedy}.

(** The writer [g] and the reader [rg]. *)
Context (g rg : GUID).

(** [wd_written]: the numbers of all the changes written; [wd_excused]: those the
    writer never meant for the reader; [wd_got]: those whose DATA the reader put
    in the cache of the topic.  These three only grow. *)
Record World := mkWorld {
  wd_writer : Writer;
  wd_reader : ReaderState;
  wd_network : list Message;
  wd_acks : list AckNack;
  wd_written : gset SequenceNumber;
  wd_excused : gset SequenceNumber;
  wd_got : gset SequenceNumber;
}.

(** ** What goes over the network *)

Definition messages_sent (evs : list WriterEvent) : list Message :=
  omap (fun ev => match ev with EvSend m _ => Some m | _ => None end) evs.

Definition acks_of (m : Message) : list AckNack :=
  omap (fun sm => match sm_body sm with SmAckNack an => Some an | _ => None end) (submessages m).
Definition acks_sent (evs : list ReaderEvent) : list AckNack :=
  evs ≫= (fun ev => match ev with REvSend m _ => acks_of m | _ => [] end).

Definition on_network (net : list Message) (body : SubmessageBody) : Prop :=
  exists m sm, m ∈ net /\ sm ∈ submessages m /\ sm_body sm = body.

(** What the reader may be given: the DATA, HEARTBEATs and GAPs of the writer that
    are on the network, and its own timers. *)
Definition receivable (W : World) (i : ReaderInput) : Prop :=
  match i with
  | RInData _ _ d _ mrs =>
      GUID_new (mrs_source_guid_prefix mrs) (data_writer_id d) = g /\ on_network (wd_network W) (SmData d)
  | RInHeartbeat hb _ mrs =>
      GUID_new (mrs_source_guid_prefix mrs) (hb_writer_id hb) = g /\ on_network (wd_network W) (SmHeartbeat hb)
  | RInGap gap mrs =>
      GUID_new (mrs_source_guid_prefix mrs) (gap_writer_id gap) = g /\ on_network (wd_network W) (SmGap gap)
  | RInTimer _ | RInPreemptive => True
  | _ => False
  end.

(** What the writer may be given: any command and timer, ACKNACKs the reader has
    sent, any NACKFRAG, the reader being discovered and lost. *)
Definition writer_may (W : World) (i : WriterInput) : Prop :=
  match i with
  | InAck _ (Ack_AckNack an) => an ∈ wd_acks W
  | InUpdateReader rp _ => remote_reader_guid rp = rg /\ all_acked_before rp = 0 /\ pending_gap rp = ∅
  | _ => True
  end.

Definition written_set (i : WriterInput) : gset SequenceNumber :=
  match written_by i with Some sn => {[sn]} | None => ∅ end.

(** The numbers the reader has no claim to: of changes for another reader, and of
    all there is when the reader turns up late at a volatile writer. *)
Definition excused_by (w : Writer) (i : WriterInput) : gset SequenceNumber :=
  match i with
  | InCommand _ (WCData _ o sn) =>
      match to_single_reader o with
      | Some g' => if decide (g' = rg) then ∅ else {[sn]}
      | None => ∅
      end
  | InUpdateReader _ _ =>
      if is_volatile (w_qos w) && bool_decide (readers w !! rg = None)
      then list_to_set (seqZ 1 (last_seq (w_history w))) else ∅
  | _ => ∅
  end.

(** The sequence number is indexed in the cache of the topic. *)
Definition in_cache (tc : TopicCache) (sn : SequenceNumber) : Prop :=
  is_Some (sequence_numbers tc !! g ≫= (.!! sn)).
Definition stored_by (i : ReaderInput) (st' : ReaderState) : gset SequenceNumber :=
  match i with
  | RInData _ _ d _ _ => if decide (in_cache (rs_cache st') (data_writer_sn d)) then {[data_writer_sn d]} else ∅
  | _ => ∅
  end.

Inductive world_step : World -> World -> Prop :=
| StepWriter W i w' evs :
    input_ok (wd_writer W) i -> writer_may W i -> writer_handle i (wd_writer W) = Ret (tt, w', evs) ->
    world_step W (mkWorld w' (wd_reader W) (wd_network W ++ messages_sent evs) (wd_acks W)
      (wd_written W ∪ written_set i) (wd_excused W ∪ excused_by (wd_writer W) i) (wd_got W))
| StepReader W i st' evs :
    rinput_ok (wd_reader W) i -> receivable W i -> reader_handle i (wd_reader W) = Ret (tt, st', evs) ->
    world_step W (mkWorld (wd_writer W) st' (wd_network W) (wd_acks W ++ acks_sent evs)
      (wd_written W) (wd_excused W) (wd_got W ∪ stored_by i st'))
| StepCache W tc :
    (** the cache is shared: other readers of the topic use it too *)
    tc_inv tc ->
    world_step W (mkWorld (wd_writer W) (mkRS (rs_reader (wd_reader W)) tc) (wd_network W) (wd_acks W)
      (wd_written W) (wd_excused W) (wd_got W)).

(** Nothing has been written yet; the reader knows the writer. *)
Record world_init (W : World) : Prop := {
  in_writer : writer_inv (wd_writer W) /\ w_history (wd_writer W) = HistoryBuffer_new /\ readers (wd_writer W) = ∅;
  in_reader : reader_inv (wd_reader W) /\ r_like_stateless (rs_reader (wd_reader W)) = false /\
    exists uni multi grp, matched_writers (rs_reader (wd_reader W)) !! g = Some (RtpsWriterProxy_new g uni multi grp);
  in_empty : wd_network W = [] /\ wd_acks W = [] /\ wd_written W = ∅ /\ wd_excused W = ∅ /\ wd_got W = ∅;
}.

Definition reachable (W0 W : World) : Prop := rtc world_step W0 W.

(** ** What the reader does *)

(** The numbers an input tells the reader about. *)
Definition told (i : ReaderInput) (st' : ReaderState) (sn : SequenceNumber) : Prop :=
  match i with
  | RInData _ _ _ _ _ => sn ∈ stored_by i st'
  | RInHeartbeat hb _ _ => 0 <= sn < first_sn hb
  | RInGap gap _ => gap_declares gap sn
  | _ => False
  end.

(** The proxy of the writer after a step: it has handled nothing but what it was
    told about, and has not acknowledged more than it has handled. *)
Definition reader_moves (i : ReaderInput) (st st' : ReaderState) (evs : list ReaderEvent) : Prop :=
  reader_inv st' /\ r_like_stateless (rs_reader st') = r_like_stateless (rs_reader st) /\
  forall p, matched_writers (rs_reader st) !! g = Some p ->
  exists p', matched_writers (rs_reader st') !! g = Some p' /\ ack_base p <= ack_base p' /\
    (forall sn, handled p' sn -> handled p sn \/ told i st' sn) /\
    Forall (fun an => bitmap_base (reader_sn_state an) <= ack_base p') (acks_sent evs).

Lemma moves_refl i st : reader_inv st -> reader_moves i st st [].
Proof. intros H. split; [done|]. split; [done|]. intros p Hp. exists p. split; [done|]. split; [done|]. split; [auto|constructor]. Qed.

Lemma moves_adds S i st st' p p' evs :
  reader_inv st' -> matched_writers (rs_reader st) !! g = Some p -> wp_adds S p p' ->
  rs_reader st' = r_set_writers (rs_reader st) (<[g := p']> (matched_writers (rs_reader st))) ->
  (forall sn, S sn -> told i st' sn) ->
  Forall (fun an => bitmap_base (reader_sn_state an) <= ack_base p') (acks_sent evs) ->
  reader_moves i st st' evs.
Proof.
  intros Hinv Hp (_ & Hb & Hh) Er Ht Ha. split; [done|]. split; [by rewrite Er|]. intros q Hq. simplify_eq.
  exists p'. rewrite Er. simpl. rewrite lookup_insert_eq. split; [done|]. split; [done|]. split; [|done].
  intros sn [?|?]%Hh; auto.
Qed.

Lemma data_moves now later d flags mrs st p u st' evs :
  GUID_new (mrs_source_guid_prefix mrs) (data_writer_id d) = g ->
  reader_inv st -> r_like_stateless (rs_reader st) = false -> matched_writers (rs_reader st) !! g = Some p ->
  clock_ok later (rs_cache st) -> data_writer_sn d < i64_max ->
  handle_data_msg now later d flags mrs st = Ret (u, st', evs) -> reader_moves (RInData now later d flags mrs) st st' evs.
Proof.
  intros Hg Hinv Hsl Hp Hclk Hsn H. unfold handle_data_msg in H. rewrite Hg in H.
  destruct (data_to_dds_data d flags) as [v|]; [|injection H as <- <- <-; by apply moves_refl].
  set (wo := received_write_options _ _ _) in H.
  destruct (should_ignore_change p (data_writer_sn d) &&
    negb (bool_decide (r_entity_id (rs_reader st) = SPDP_BUILTIN_PARTICIPANT_READER))) eqn:Ei.
  - rewrite (process_known_sample later now v wo g _ st p Hsl Hp Ei) in H. injection H as <- <- <-. by apply moves_refl.
  - pose proof (process_new_sample later now v wo g _ st p Hinv Hclk Hsl Hp Hsn Ei) as Hw.
    apply wp_run in Hw as (u' & st1 & evs1 & E & -> & Hinv' & [Hst _] & Er & _). rewrite E in H. injection H as <- <- <-.
    eapply moves_adds; [done|done|by apply received_changes_add_spec; [apply Hinv in Hp as [? _]|]|done| |constructor].
    intros sn ->. cbn [told stored_by]. rewrite decide_True by exact Hst. set_solver.
Qed.

Lemma acks_sent_app e1 e2 : acks_sent (e1 ++ e2) = acks_sent e1 ++ acks_sent e2.
Proof. apply bind_app. Qed.

Lemma acks_nackfrags r nfs : acks_of (nackfrag_message r g nfs) = [].
Proof. unfold acks_of, nackfrag_message. simpl. by induction nfs. Qed.

Lemma acks_reply r p f l locs evs :
  reply_to_heartbeat r g p f l locs evs ->
  Forall (fun an => bitmap_base (reader_sn_state an) <= ack_base p) (acks_sent evs).
Proof.
  intros (nfs & an & -> & (_ & _ & Hb & _) & _). rewrite acks_sent_app. apply Forall_app. split.
  - destruct nfs as [|nf nfs]; [constructor|]. unfold acks_sent. cbn [mbind list_bind]. rewrite acks_nackfrags. constructor.
  - simpl. constructor; [|constructor]. rewrite Hb. unfold all_ackable_before. lia.
Qed.

Lemma heartbeat_moves hb final mrs st p ans st' evs :
  GUID_new (mrs_source_guid_prefix mrs) (hb_writer_id hb) = g ->
  reader_inv st -> r_like_stateless (rs_reader st) = false -> matched_writers (rs_reader st) !! g = Some p ->
  i64_min <= first_sn hb <= i64_max -> last_sn hb <= i64_max - 256 ->
  handle_heartbeat_msg hb final mrs st = Ret (ans, st', evs) -> reader_moves (RInHeartbeat hb final mrs) st st' evs.
Proof.
  intros Hg Hinv Hsl Hp Hf Hl H.
  assert (wp (handle_heartbeat_msg hb final mrs) st (fun _ st' evs => reader_moves (RInHeartbeat hb final mrs) st st' evs)) as Hw;
    [|apply wp_run in Hw as (? & ? & ? & E & Hm); rewrite E in H; by injection H as <- <- <-].
  destruct (decide (r_reliability (rs_reader st) = BestEffort)) as [Hbe|Hbe].
  { eapply wp_mono; [apply heartbeat_not_for_us; auto|]. intros ? ? ? [-> ->]. by apply moves_refl. }
  destruct (decide (received_heartbeat_count p < hb_count hb)) as [Hc|Hc].
  - eapply wp_mono; [apply (heartbeat_new_spec hb final mrs st p); rewrite ?Hg; done|]. cbv zeta. rewrite Hg.
    intros a st1 evs1 (p' & reply & Hi & [Er _] & Ha & -> & _ & Hr). eapply moves_adds; [done|done|exact Ha|done|done|].
    rewrite acks_sent_app. apply Forall_app. split; [destruct (marker_moves _ _ _); constructor|].
    destruct a; [by eapply acks_reply|subst reply; constructor].
  - eapply wp_mono; [apply (heartbeat_known hb final mrs st p); rewrite ?Hg; [done..|lia]|].
    intros ? ? ? [-> ->]. by apply moves_refl.
Qed.

Lemma gap_moves gap mrs st p u st' evs :
  GUID_new (mrs_source_guid_prefix mrs) (gap_writer_id gap) = g ->
  reader_inv st -> r_like_stateless (rs_reader st) = false -> matched_writers (rs_reader st) !! g = Some p ->
  gap_ok gap -> handle_gap_msg gap mrs st = Ret (u, st', evs) -> reader_moves (RInGap gap mrs) st st' evs.
Proof.
  intros Hg Hinv Hsl Hp Hok H.
  assert (wp (handle_gap_msg gap mrs) st (fun _ st' evs => reader_moves (RInGap gap mrs) st st' evs)) as Hw;
    [|apply wp_run in Hw as (? & ? & ? & E & Hm); rewrite E in H; by injection H as <- <- <-].
  destruct (decide (0 < gap_start gap /\ 0 < bitmap_base (gap_list gap))) as [[H1 H2]|Hno].
  - eapply wp_mono; [apply (gap_spec gap mrs st p); rewrite ?Hg; done|]. cbv zeta. rewrite Hg.
    intros ? st1 evs1 (p' & Hi & [Er _] & Ha & ->). eapply moves_adds; [done|done|exact Ha|done|done|].
    destruct (marker_moves _ _ _); constructor.
  - eapply wp_mono; [apply gap_ignored|]; [tauto|]. intros ? ? ? [-> ->]. by apply moves_refl.
Qed.

Lemma acks_quiet evs : Forall quiet evs -> acks_sent evs = [].
Proof. induction 1 as [|ev evs Hq _ IH]; [done|]. unfold acks_sent in *. csimpl. rewrite IH. by destruct ev. Qed.

Lemma timer_moves now st u st' evs :
  reader_inv st -> Reader_handle_timed_event now st = Ret (u, st', evs) -> reader_moves (RInTimer now) st st' evs.
Proof.
  intros (H1 & H2 & H3) H. pose proof (timer_wp now st) as Hw. apply wp_run in Hw as (? & ? & ? & E & Ec & Hq & n & Er).
  rewrite E in H. injection H as <- <- <-. unfold reader_moves, reader_inv. rewrite Er, Ec, (acks_quiet _ Hq).
  split; [done|]. split; [done|]. intros p Hp. exists p. split; [done|]. split; [done|]. split; [auto|constructor].
Qed.

Lemma reader_step_moves W i st' evs p :
  rinput_ok (wd_reader W) i -> receivable W i -> reader_handle i (wd_reader W) = Ret (tt, st', evs) ->
  reader_inv (wd_reader W) -> r_like_stateless (rs_reader (wd_reader W)) = false ->
  matched_writers (rs_reader (wd_reader W)) !! g = Some p -> reader_moves i (wd_reader W) st' evs.
Proof.
  intros Hok Hrec H Hinv Hsl Hp. destruct i; simpl in Hok, Hrec, H; try done.
  - destruct Hok, Hrec. by eapply data_moves.
  - destruct Hok, Hrec. apply bind_run_inv in H as (a & st1 & e1 & e2 & H & [= <- <-] & ->). rewrite app_nil_r.
    by eapply heartbeat_moves.
  - destruct Hrec. by eapply gap_moves.
  - by eapply timer_moves.
  - pose proof (preemptive_good (wd_reader W) Hinv) as Hw. apply wp_run in Hw as (? & ? & ? & E & -> & ->).
    rewrite E in H. injection H as _ <- <-. by apply moves_refl.
Qed.

(** ** The invariant of the two together *)

Record world_ok (W : World) (p : RtpsWriterProxy) : Prop := {
  wo_writer : writer_inv (wd_writer W);
  wo_reader : reader_inv (wd_reader W) /\ r_like_stateless (rs_reader (wd_reader W)) = false;
  wo_proxy : matched_writers (rs_reader (wd_reader W)) !! g = Some p;
  wo_within : within (mkLimits rg (ack_base p) (wd_excused W)) (wd_writer W);
  wo_acks : forall an, an ∈ wd_acks W -> bitmap_base (reader_sn_state an) <= ack_base p;
  wo_data : forall d, on_network (wd_network W) (SmData d) -> data_writer_sn d ∈ wd_written W;
  wo_heartbeat : forall hb sn, on_network (wd_network W) (SmHeartbeat hb) -> 0 <= sn < first_sn hb ->
    gone (w_history (wd_writer W)) sn;
  wo_gap : forall gap sn, on_network (wd_network W) (SmGap gap) -> gap_declares gap sn ->
    gone (w_history (wd_writer W)) sn \/ sn ∈ wd_excused W;
  wo_stored : forall sn, is_Some (get_by_sn (w_history (wd_writer W)) sn) -> sn ∈ wd_written W;
  wo_written : forall sn, sn ∈ wd_written W -> 1 <= sn <= last_seq (w_history (wd_writer W));
  wo_safe : forall sn, sn ∈ wd_written W ->
    is_Some (get_by_sn (w_history (wd_writer W)) sn) \/ sn ∈ wd_got W \/ sn ∈ wd_excused W;
  wo_handled : forall sn, 1 <= sn -> handled p sn ->
    sn ∈ wd_got W \/ sn ∈ wd_excused W \/ (sn <= last_seq (w_history (wd_writer W)) /\ sn ∉ wd_written W);
  wo_got : wd_got W ⊆ wd_written W;
}.

Lemma world_init_ok W : world_init W -> exists p, world_ok W p.
Proof.
  intros [(Hw & Eh & Er) (Hr & Hsl & uni & multi & grp & Hp) (E1 & E2 & E3 & E4 & E5)].
  assert (forall b, ~ on_network (wd_network W) b) as Hnet by (rewrite E1; intros b (m & sm & ?%elem_of_nil & _); done).
  assert (forall sn, ~ is_Some (get_by_sn (w_history (wd_writer W)) sn)) as Hh by (rewrite Eh; intros sn [? [=]]).
  eexists. split; [done|done|exact Hp|..].
  - intros g' rp. by rewrite Er.
  - rewrite E2. by intros an ?%elem_of_nil.
  - intros d H. by destruct (Hnet _ H).
  - intros hb sn H. by destruct (Hnet _ H).
  - intros gap sn H. by destruct (Hnet _ H).
  - intros sn H. by destruct (Hh _ H).
  - rewrite E3. set_solver.
  - rewrite E3. set_solver.
  - intros sn H1 [H|[? [=]]]. unfold RtpsWriterProxy_new, SequenceNumber_new in H. simpl in H. lia.
  - by rewrite E5, E3.
Qed.

Lemma world_cache_ok W p tc :
  tc_inv tc -> world_ok W p ->
  world_ok (mkWorld (wd_writer W) (mkRS (rs_reader (wd_reader W)) tc) (wd_network W) (wd_acks W)
    (wd_written W) (wd_excused W) (wd_got W)) p.
Proof. intros Htc [? [(_ & ? & ?) ?] ? ? ? ? ? ? ? ? ? ? ?]. by split. Qed.

Lemma within_mono (L L' : Limits) w :
  lim_reader L = lim_reader L' -> lim_acked L <= lim_acked L' -> lim_excused L ⊆ lim_excused L' ->
  within L w -> within L' w.
Proof.
  intros E1 E2 E3 Hw g' rp Hg. destruct (Hw g' rp Hg) as (H1 & H2 & H3). split; [congruence|]. split; [lia|set_solver].
Qed.

(** What is gone has been received or was never for the reader, unless it was
    never written. *)
Lemma gone_settled W p sn :
  world_ok W p -> gone (w_history (wd_writer W)) sn ->
  sn ∈ wd_got W \/ sn ∈ wd_excused W \/ (sn <= last_seq (w_history (wd_writer W)) /\ sn ∉ wd_written W).
Proof.
  intros HW [Hn Hl]. destruct (decide (sn ∈ wd_written W)) as [Hw|Hw]; [|auto].
  destruct (wo_safe W p HW sn Hw) as [[? ?]|[?|?]]; [congruence|auto..].
Qed.

Lemma told_settled W p i st' sn :
  world_ok W p -> receivable W i -> told i st' sn ->
  sn ∈ wd_got W ∪ stored_by i st' \/ sn ∈ wd_excused W \/
  (sn <= last_seq (w_history (wd_writer W)) /\ sn ∉ wd_written W).
Proof.
  intros HW Hrec Ht. rewrite elem_of_union.
  assert (gone (w_history (wd_writer W)) sn \/ sn ∈ wd_excused W \/ sn ∈ stored_by i st') as [Hg|[?|?]]; [|..|auto|auto].
  - destruct i; try done; cbn [told] in Ht.
    + auto.
    + left. destruct Hrec as [_ Hn]. by eapply wo_heartbeat.
    + destruct Hrec as [_ Hn]. destruct (wo_gap W p HW _ _ Hn Ht); auto.
  - destruct (gone_settled W p sn HW Hg) as [?|[?|?]]; auto.
Qed.

Lemma world_reader_ok W p i st' evs :
  rinput_ok (wd_reader W) i -> receivable W i -> reader_handle i (wd_reader W) = Ret (tt, st', evs) -> world_ok W p ->
  exists p', world_ok (mkWorld (wd_writer W) st' (wd_network W) (wd_acks W ++ acks_sent evs)
    (wd_written W) (wd_excused W) (wd_got W ∪ stored_by i st')) p'.
Proof.
  intros Hok Hrec H HW. destruct (wo_reader W p HW) as [Hinv Hsl].
  destruct (reader_step_moves W i st' evs p Hok Hrec H Hinv Hsl (wo_proxy W p HW)) as (Hinv' & Hsl' & Hm).
  destruct (Hm p (wo_proxy W p HW)) as (p' & Hp' & Hle & Hh & Ha). exists p'. split; simpl.
  - apply HW.
  - split; [done|congruence].
  - done.
  - eapply within_mono; [| | |apply (wo_within W p HW)]; done.
  - rewrite Forall_forall in Ha. intros an [Hin|Hin]%elem_of_app; [|by apply Ha]. pose proof (wo_acks W p HW an Hin). lia.
  - apply HW.
  - apply HW.
  - apply HW.
  - apply HW.
  - apply HW.
  - intros sn Hsn. destruct (wo_safe W p HW sn Hsn) as [?|[?|?]]; set_solver.
  - intros sn H1 [Hs|Hs]%Hh; [|by eapply told_settled].
    destruct (wo_handled W p HW sn H1 Hs) as [?|[?|?]]; set_solver.
  - apply union_subseteq. split; [apply HW|]. destruct i; try apply empty_subseteq. simpl.
    case_decide; [|apply empty_subseteq]. apply singleton_subseteq_l. destruct Hrec. by eapply wo_data.
Qed.
(** A submessage on the network was there before or has just been sent. *)
Lemma on_network_sent net evs b :
  on_network (net ++ messages_sent evs) b ->
  on_network net b \/ exists m loc sm, EvSend m loc ∈ evs /\ sm ∈ submessages m /\ sm_body sm = b.
Proof.
  intros (m & sm & [Hin|Hin]%elem_of_app & Hsm & Hb); [left; by exists m, sm|right].
  unfold messages_sent in Hin. apply list_elem_of_omap in Hin as (ev & Hev & E). destruct ev as [m' loc| | | |]; [|done..].
  injection E as ->. by exists m, loc, sm.
Qed.

Lemma honest_sent w evs m loc sm b :
  honest w evs -> EvSend m loc ∈ evs -> sm ∈ submessages m -> sm_body sm = b ->
  sub_honest (w_history w) (matched w) loc (mkSubmessage (sm_flags sm) (sm_content_length sm) b).
Proof.
  unfold honest. rewrite Forall_forall. intros Hh Hev Hsm <-. specialize (Hh _ Hev). simpl in Hh.
  rewrite Forall_forall in Hh. specialize (Hh _ Hsm). by destruct sm.
Qed.

(** What the writer is given stays within the limits of the reader. *)
Lemma writer_may_within W p i :
  world_ok W p -> writer_may W i ->
  input_within (mkLimits rg (ack_base p) (wd_excused W ∪ excused_by (wd_writer W) i)) (wd_writer W) i.
Proof.
  intros HW Hi. destruct i as [now [d o sn|ch]|now e|q [an|nf]|rp q|g'|q]; simpl in *; try done.
  - intros g' -> Hne. rewrite decide_False by done. set_solver.
  - by apply (wo_acks W p HW).
  - destruct Hi as (E1 & E2 & E3). destruct (wo_reader W p HW) as [(_ & Hws & _) _].
    destruct (Hws _ _ (wo_proxy W p HW)) as [[Hb _] _]. split.
    + unfold claims_within, claims. rewrite E1, E2, E3. simpl. split; [done|]. split; [lia|apply empty_subseteq].
    + rewrite E1. intros Hv Hn sn Hsn. simpl. rewrite Hv, bool_decide_eq_true_2 by done. simpl.
      rewrite elem_of_union, elem_of_list_to_set, elem_of_seqZ. right. lia.
Qed.

Lemma below_first_gone h sn : hist_inv h -> sn < first_seq h -> gone h sn.
Proof.
  intros [Hb Hi _ _] Hsn. split; [|lia]. unfold get_by_sn.
  destruct (sequence_number_to_instant h !! sn) eqn:E; [apply Hi in E; lia|done].
Qed.

Lemma elem_of_written_set i sn : sn ∈ written_set i <-> written_by i = Some sn.
Proof. unfold written_set. destruct (written_by i); [rewrite elem_of_singleton|]; naive_solver set_solver. Qed.

Lemma world_writer_ok W p i w' evs :
  input_ok (wd_writer W) i -> writer_may W i -> writer_handle i (wd_writer W) = Ret (tt, w', evs) -> world_ok W p ->
  world_ok (mkWorld w' (wd_reader W) (wd_network W ++ messages_sent evs) (wd_acks W)
    (wd_written W ∪ written_set i) (wd_excused W ∪ excused_by (wd_writer W) i) (wd_got W)) p.
Proof.
  intros Hok Hmay H HW. pose proof (wo_writer W p HW) as Hw. pose proof (last_seq_nonneg _ Hw) as Hl0.
  set (E := wd_excused W ∪ excused_by (wd_writer W) i).
  destruct (writer_effect (mkLimits rg (ack_base p) E) (wd_writer W) i tt w' evs) as (Hin & Hl & Hgone & Hkeep & Hnew & Hwr);
    [done|done|by apply writer_may_within| |done|].
  { eapply within_mono; [| | |apply (wo_within W p HW)]; [done|simpl; lia|unfold E; set_solver]. }
  pose proof (writer_handle_good (wd_writer W) i Hw Hok) as Hgood. apply wp_run in Hgood as ([] & w2 & evs2 & E2 & Hw' & Hhon).
  rewrite E2 in H. injection H as -> ->. simpl in Hkeep.
  assert (forall sn, is_Some (get_by_sn (w_history w') sn) -> sn ∈ wd_written W ∪ written_set i) as Hst.
  { intros sn [Hs|Hs]%Hnew; rewrite elem_of_union, elem_of_written_set; [left; by apply (wo_stored W p HW)|by right]. }
  split; simpl; fold E.
  - done.
  - apply HW.
  - apply HW.
  - done.
  - apply HW.
  - intros d [Hd|(m & loc & sm & H1 & H2 & H3)]%on_network_sent; [pose proof (wo_data W p HW d Hd); set_solver|].
    destruct (honest_sent _ _ _ _ _ _ Hhon H1 H2 H3) as (cc & Hcc & _). apply Hst. by eexists.
  - intros hb sn [Hd|(m & loc & sm & H1 & H2 & H3)]%on_network_sent Hsn; [by eapply Hgone, wo_heartbeat|].
    destruct (honest_sent _ _ _ _ _ _ Hhon H1 H2 H3) as [Hf _]. apply below_first_gone; [apply Hw'|lia].
  - intros gap sn [Hd|(m & loc & sm & H1 & H2 & H3)]%on_network_sent Hsn.
    + destruct (wo_gap W p HW gap sn Hd Hsn); [left; by apply Hgone|right; unfold E; set_solver].
    + destruct (honest_sent _ _ _ _ _ _ Hhon H1 H2 H3) as (rp & Hrp & _ & _ & Hdec).
      destruct (Hdec sn Hsn) as [?|Hpg]; [by left|right]. destruct (Hin _ _ Hrp) as (_ & _ & Hsub). by apply Hsub.
  - done.
  - intros sn. rewrite elem_of_union, elem_of_written_set. intros [Hs|Hs]; [pose proof (wo_written W p HW sn Hs); lia|].
    destruct (Hwr sn Hs). lia.
  - intros sn. rewrite elem_of_union, elem_of_written_set. intros [Hs|Hs]; [|left; by apply Hwr].
    destruct (wo_safe W p HW sn Hs) as [Hh|[?|?]]; [|auto|unfold E; set_solver].
    destruct (Hkeep sn Hh) as [?|Hlt]; [auto|]. right.
    destruct (wo_handled W p HW sn) as [?|[?|[_ ?]]]; [by apply (wo_written W p HW)|by left|auto|unfold E; set_solver|done].
  - intros sn H1 H2. destruct (wo_handled W p HW sn H1 H2) as [?|[?|[Hle Hn]]]; [auto|unfold E; set_solver|].
    right; right. split; [lia|]. rewrite elem_of_union, elem_of_written_set. intros [?|Hs]; [done|].
    destruct (Hwr sn Hs). lia.
  - etrans; [apply HW|set_solver].
Qed.

Lemma reachable_ok W0 W : world_init W0 -> reachable W0 W -> exists p, world_ok W p.
Proof.
  intros Hi%world_init_ok Hr. induction Hr as [|W1 W2 W3 Hs _ IH]; [done|]. apply IH. destruct Hi as [p Hp].
  destruct Hs; [eexists; by apply world_writer_ok|by eapply world_reader_ok|eexists; by apply world_cache_ok].
Qed.

(** C1: over a network that loses, repeats, delays and reorders messages, between
    a writer and a reader that do whatever their handlers do, no sample meant for
    the reader is lost: each is still in the writer's history, or the reader has
    put it in the cache of its topic.  Everything the reader acknowledges that
    was written and meant for it has been stored, and it has stored nothing that
    was not written. *)
Theorem no_sample_lost W0 W :
  world_init W0 -> reachable W0 W ->
  exists p, matched_writers (rs_reader (wd_reader W)) !! g = Some p /\
    (forall sn, sn ∈ wd_written W -> sn ∉ wd_excused W ->
       (is_Some (get_by_sn (w_history (wd_writer W)) sn) \/ sn ∈ wd_got W) /\
       (sn < all_ackable_before p -> sn ∈ wd_got W)) /\
    wd_got W ⊆ wd_written W.
Proof.
  intros Hi Hr. destruct (reachable_ok W0 W Hi Hr) as [p HW]. exists p. split; [apply HW|]. split; [|apply HW].
  intros sn Hw He. split.
  - destruct (wo_safe W p HW sn Hw) as [?|[?|?]]; auto; done.
  - intros Hlt. destruct (wo_handled W p HW sn) as [?|[?|[_ ?]]]; [by apply (wo_written W p HW)|by left|done..].
Qed.

(** ** Running it *)

Definition run_writer (i : WriterInput) (W : World) : World :=
  match writer_handle i (wd_writer W) with
  | Ret (_, w', evs) =>
      mkWorld w' (wd_reader W) (wd_network W ++ messages_sent evs) (wd_acks W)
        (wd_written W ∪ written_set i) (wd_excused W ∪ excused_by (wd_writer W) i) (wd_got W)
  | _ => W
  end.
Definition run_reader (i : ReaderInput) (W : World) : World :=
  match reader_handle i (wd_reader W) with
  | Ret (_, st', evs) =>
      mkWorld (wd_writer W) st' (wd_network W) (wd_acks W ++ acks_sent evs)
        (wd_written W) (wd_excused W) (wd_got W ∪ stored_by i st')
  | _ => W
  end.

(** The handlers return, so that the run goes on. *)
Lemma run_writer_reachable W0 i W :
  world_init W0 -> reachable W0 W -> input_ok (wd_writer W) i -> writer_may W i -> reachable W0 (run_writer i W).
Proof.
  intros Hi Hr Hok Hm. destruct (reachable_ok W0 W Hi Hr) as [p HW].
  pose proof (writer_handle_good _ i (wo_writer W p HW) Hok) as H. apply wp_run in H as ([] & w' & evs & E & _).
  eapply rtc_r; [exact Hr|]. unfold run_writer. rewrite E. by apply StepWriter.
Qed.

Lemma run_reader_reachable W0 i W :
  world_init W0 -> reachable W0 W -> rinput_ok (wd_reader W) i -> receivable W i -> reachable W0 (run_reader i W).
Proof.
  intros Hi Hr Hok Hm. destruct (reachable_ok W0 W Hi Hr) as [p HW].
  pose proof (reader_handle_good _ i (proj1 (wo_reader W p HW)) Hok) as H. apply wp_run in H as ([] & w' & evs & E & _).
  eapply rtc_r; [exact Hr|]. unfold run_reader. rewrite E. by apply StepReader.
Qed.

Lemma on_network_nth net k j m sm : net !! k = Some m -> submessages m !! j = Some sm -> on_network net (sm_body sm).
Proof. intros H1%list_elem_of_lookup_2 H2%list_elem_of_lookup_2. by exists m, sm. Qed.
End protocol.

(** ** A sample on its way

    The reader is discovered, a sample is written, its DATA arrives, then the
    HEARTBEAT of the same message, and the ACKNACK gets back. *)

Definition demo_rguid : GUID := r_my_guid (rs_reader demo_state).
Definition demo_world0 : World :=
  mkWorld (mkWriter LittleEndian 1 true None (Duration_from_secs 120) 0 0 0 1024 demo_wguid ∅ 0 0 false "t"
             HistoryBuffer_new demo_reliable None)
    demo_state [] [] ∅ ∅ ∅.
Definition demo_found : WriterInput :=
  InUpdateReader (RtpsReaderProxy_from_discovered_reader_data (mkDRP demo_rguid false [demo_locator] [] demo_reliable) [] [])
    demo_reliable.
Definition demo_world1 : World := run_writer demo_rguid demo_found demo_world0.
Definition demo_write : WriterInput :=
  InCommand (mkTimestamp 1 0) (WCData (DData (mkPayload (mkRepId (0, 1)) (0, 0) [42])) (mkWriteOptions None None None) 1).
Definition demo_world2 : World := run_writer demo_rguid demo_write demo_world1.
Definition demo_hb1 : Heartbeat := mkHeartbeat EntityId_UNKNOWN (entity_id demo_wguid) 1 1 1.
Definition demo_world3 : World :=
  run_reader demo_wguid (RInData (mkTimestamp 20 0) (mkTimestamp 20 0) (demo_data 1) 5 demo_mrs) demo_world2.
Definition demo_world4 : World := run_reader demo_wguid (RInHeartbeat demo_hb1 false demo_mrs) demo_world3.
Definition demo_ack : AckNack :=
  mkAckNack (entity_id demo_rguid) (entity_id demo_wguid) {| bitmap_base := 2; num_bits := 0; bitmap := [] |} 0.
Definition demo_world5 : World := run_writer demo_rguid (InAck (prefix demo_rguid) (Ack_AckNack demo_ack)) demo_world4.

Lemma demo_world_init : world_init demo_wguid demo_world0.
Proof.
  split.
  - split; [|done]. split; [apply hist_new_inv|done|by intros sn cc|by intros g rp].
  - split; [exact demo_state_inv|]. split; [done|]. by exists [], [], EntityId_UNKNOWN.
  - done.
Qed.

Lemma demo_world2_reachable : reachable demo_wguid demo_rguid demo_world0 demo_world2.
Proof.
  unfold demo_world2. apply run_writer_reachable; [exact demo_world_init|..|done].
  - unfold demo_world1. apply run_writer_reachable; [exact demo_world_init|apply rtc_refl|..|done].
    split; [vm_compute; split; discriminate|..]; [intros sn Hsn; exfalso; vm_compute in Hsn; discriminate Hsn..|]. by intros sn bv [=].
  - split; [by intros t [? ?]|]. split; [split; reflexivity|reflexivity].
Qed.

Lemma demo_network : wd_network demo_world3 = wd_network demo_world2 /\ wd_network demo_world2 =
  [mkMessage (Header_new demo_prefix) [mkSubmessage 5 25 (SmData (demo_data 1)); mkSubmessage 1 28 (SmHeartbeat demo_hb1)]].
Proof. vm_compute. done. Qed.

Lemma demo_acks : wd_acks demo_world4 = [demo_ack].
Proof. vm_compute. done. Qed.

Lemma demo_world5_reachable : reachable demo_wguid demo_rguid demo_world0 demo_world5.
Proof.
  destruct demo_network as [En3 En2].
  unfold demo_world5. apply run_writer_reachable; [exact demo_world_init|..].
  - unfold demo_world4. apply run_reader_reachable; [exact demo_world_init|..].
    + unfold demo_world3. apply run_reader_reachable; [exact demo_world_init|exact demo_world2_reachable|..].
      * split; [vm_compute; discriminate|done].
      * split; [done|]. rewrite En2. eexists _, _. split; [by left|]. by split; [left|].
    + split; [split|]; vm_compute; discriminate.
    + split; [done|]. rewrite En3, En2. eexists _, _. split; [by left|]. by split; [right; left|].
  - split; [|vm_compute; split; discriminate]. split; [simpl; lia|]. split; [reflexivity|]. constructor.
  - unfold writer_may. rewrite demo_acks. by left.
Qed.

Lemma no_sample_lost_witness :
  1 ∈ wd_written demo_world5 /\ 1 ∈ wd_got demo_world5 /\
  exists p, matched_writers (rs_reader (wd_reader demo_world5)) !! demo_wguid = Some p /\ 1 < all_ackable_before p.
Proof.
  destruct (no_sample_lost demo_wguid demo_rguid demo_world0 demo_world5) as (p & Hp & H & _).
  - exact demo_world_init.
  - exact demo_world5_reachable.
  - assert (1 < all_ackable_before p) as Hlt.
    { assert (all_ackable_before <$> matched_writers (rs_reader (wd_reader demo_world5)) !! demo_wguid = Some 2) as E
        by (vm_compute; reflexivity).
      rewrite Hp in E. injection E as E. rewrite E. reflexivity. }
    assert (1 ∈ wd_written demo_world5) as Hw by (vm_compute; reflexivity).
    assert (1 ∉ wd_excused demo_world5) as He by (vm_compute; discriminate).
    split; [exact Hw|]. split; [exact (proj2 (H 1 Hw He) Hlt)|]. exists p. split; [exact Hp|exact Hlt].
Defined.
