(* ===== verification/EventLoop.v ===== *)
(** * The event loop of a participant

    [src/rtps/dp_event_loop.rs], without the [security] feature: the thread that
    owns the readers (through the message receiver) and the writers, and gives
    each of them the packets, commands, timers and news of discovery that are for
    it.

    One round of the loop handles an event of the poll.  An event is a token; what
    the channels, timers and sockets hold at that time is the argument
    [Channels].  The channel for acknowledgments goes from the message receiver to
    the loop itself and is part of the state, and so is the discovery database,
    which the loop only reads.  Registrations with the poll are events.  The order
    in which the writers of a [HashMap] are visited is that of their keys here. *)

From S2P Require Import Prelude BTree Wire SequenceNumbers Time Guid Locator WriterProxy ParameterList Qos StatusEvents Payload Submessages Headers MessageBuilder MessageWire InlineQos FragmentAssembler DdsCache Reader MessageReceiver ReaderProxy DiscoveryData DiscoveryDB HistoryBuffer Writer.

(** ** Constants of [src/rtps/constant.rs] *)

Definition STOP_POLL_TOKEN : Z := PTB.
Definition ADD_READER_TOKEN : Z := 10 + PTB.
Definition REMOVE_READER_TOKEN : Z := 11 + PTB.
Definition ADD_WRITER_TOKEN : Z := 16 + PTB.
Definition REMOVE_WRITER_TOKEN : Z := 17 + PTB.
Definition ACKNACK_MESSAGE_TO_LOCAL_WRITER_TOKEN : Z := 20 + PTB.
Definition DISCOVERY_UPDATE_NOTIFICATION_TOKEN : Z := 21 + PTB.
Definition DPEV_ACKNACK_TIMER_TOKEN : Z := 45 + PTB.
Definition DPEV_CACHE_CLEAN_TIMER_TOKEN : Z := 46 + PTB.

Definition PREEMPTIVE_ACKNACK_PERIOD : Z := 5 * 1000000000.
Definition CACHE_CLEAN_PERIOD : Z := 4 * 1000000000.

Definition STANDARD_BUILTIN_READERS_INIT_LIST : list (EntityId * EntityId * Z) :=
  [(SPDP_BUILTIN_PARTICIPANT_WRITER, SPDP_BUILTIN_PARTICIPANT_READER, PARTICIPANT_DETECTOR);
   (SEDP_BUILTIN_SUBSCRIPTIONS_WRITER, SEDP_BUILTIN_SUBSCRIPTIONS_READER, SUBSCRIPTIONS_DETECTOR);
   (SEDP_BUILTIN_PUBLICATIONS_WRITER, SEDP_BUILTIN_PUBLICATIONS_READER, PUBLICATIONS_DETECTOR);
   (SEDP_BUILTIN_TOPIC_WRITER, SEDP_BUILTIN_TOPIC_READER, TOPICS_DETECTOR);
   (P2P_BUILTIN_PARTICIPANT_MESSAGE_WRITER, P2P_BUILTIN_PARTICIPANT_MESSAGE_READER, PARTICIPANT_MESSAGE_DATA_READER)].

Definition STANDARD_BUILTIN_WRITERS_INIT_LIST : list (EntityId * EntityId * Z) :=
  [(SPDP_BUILTIN_PARTICIPANT_WRITER, SPDP_BUILTIN_PARTICIPANT_READER, PARTICIPANT_ANNOUNCER);
   (SEDP_BUILTIN_SUBSCRIPTIONS_WRITER, SEDP_BUILTIN_SUBSCRIPTIONS_READER, PUBLICATIONS_ANNOUNCER);
   (SEDP_BUILTIN_PUBLICATIONS_WRITER, SEDP_BUILTIN_PUBLICATIONS_READER, PUBLICATIONS_ANNOUNCER);
   (SEDP_BUILTIN_TOPIC_WRITER, SEDP_BUILTIN_TOPIC_READER, TOPICS_ANNOUNCER);
   (P2P_BUILTIN_PARTICIPANT_MESSAGE_WRITER, P2P_BUILTIN_PARTICIPANT_MESSAGE_READER, PARTICIPANT_MESSAGE_DATA_WRITER)].

Inductive DiscoveryNotificationType :=
| DN_ReaderUpdated (discovered_reader_data : DiscoveredReaderData)
| DN_ReaderLost (reader_guid : GUID)
| DN_WriterUpdated (discovered_writer_data : DiscoveredWriterData)
| DN_WriterLost (writer_guid : GUID)
| DN_ParticipantUpdated (guid_prefix : GuidPrefix)
| DN_ParticipantLost (guid_prefix : GuidPrefix)
| DN_AssertTopicLiveliness (writer_guid : GUID) (manual_assertion : bool).

(** ** State *)

Inductive EventLoopCommand := ELC_Stop | ELC_PrepareStop.
Inductive ReaderCommand := RC_ResetRequestedDeadlineStatus.

(** What of the ingredients is not a handle; the topic cache is found under the
    name of the topic. *)
Record ReaderIngredients := mkRI {
  ri_guid : GUID;
  ri_topic_name : string;
  ri_like_stateless : bool;
  ri_qos_policy : QosPolicies;
}.
Record WriterIngredients := mkWI {
  wi_guid : GUID;
  wi_topic_name : string;
  wi_like_stateless : bool;
  wi_qos_policies : QosPolicies;
}.

Record DPEventLoop := mkLoop {
  el_domain_participant_guid : GUID;
  el_discovery_db : DiscoveryDB;
  el_message_receiver : MessageReceiver;
  el_ack_nack_channel : list (GuidPrefix * AckSubmessage);
  el_writers : gmap EntityId Writer;
  el_preparing_to_stop : bool;
  el_stopped : bool;
}.

(** What the channels, sockets and timers hold when an event is handled.  Commands,
    timers and notifications that make a writer read the clock carry the time. *)
Record Channels := mkChannels {
  ch_stop : list EventLoopCommand;
  ch_stop_disconnected : bool;
  ch_udp : gmap Z (list bytes);
  ch_add_reader : list ReaderIngredients;
  ch_remove_reader : list GUID;
  ch_add_writer : list WriterIngredients;
  ch_remove_writer : list GUID;
  ch_discovery : list (Timestamp * DiscoveryNotificationType);
  ch_reader_commands : EntityId -> list ReaderCommand;
  ch_writer_commands : EntityId -> list (Timestamp * WriterCommand);
  ch_reader_timers : EntityId -> nat;
  ch_writer_timers : EntityId -> list (Timestamp * TimedEvent);
}.

Inductive LoopEvent :=
| LEvReceiver (ev : ReceiverEvent)
| LEvWriter (writer : EntityId) (ev : WriterEvent)
| LEvRegister (token : Z)
| LEvDeregister (eid : EntityId)
| LEvTimeout (token : Z) (delay : Z).

Abbreviation L := (act DPEventLoop LoopEvent).

Definition el_set_receiver (l : DPEventLoop) (m : MessageReceiver) (ch : list (GuidPrefix * AckSubmessage)) : DPEventLoop :=
  mkLoop (el_domain_participant_guid l) (el_discovery_db l) m ch (el_writers l) (el_preparing_to_stop l) (el_stopped l).
Definition el_set_writers (l : DPEventLoop) (ws : gmap EntityId Writer) : DPEventLoop :=
  mkLoop (el_domain_participant_guid l) (el_discovery_db l) (el_message_receiver l) (el_ack_nack_channel l) ws
    (el_preparing_to_stop l) (el_stopped l).
Definition el_set_stop (l : DPEventLoop) (preparing stopped : bool) : DPEventLoop :=
  mkLoop (el_domain_participant_guid l) (el_discovery_db l) (el_message_receiver l) (el_ack_nack_channel l) (el_writers l)
    preparing stopped.

Definition el_set_db (l : DPEventLoop) (db : DiscoveryDB) : DPEventLoop :=
  mkLoop (el_domain_participant_guid l) db (el_message_receiver l) (el_ack_nack_channel l) (el_writers l)
    (el_preparing_to_stop l) (el_stopped l).

Definition DPEventLoop_new (domain_participant_guid : GUID) (caches : gmap string TopicCache) (db : DiscoveryDB)
    (participant_guid_prefix : GuidPrefix) : DPEventLoop :=
  mkLoop domain_participant_guid db (MessageReceiver_new participant_guid_prefix caches) [] ∅ false false.

(** The capacity of the channel for acknowledgments. *)
Definition ACKNACK_CHANNEL_SIZE : nat := 100.

(** [try_send]: what does not fit is discarded. *)
Definition send_acknack (ch : list (GuidPrefix * AckSubmessage)) (ev : ReceiverEvent)
  : list (GuidPrefix * AckSubmessage) :=
  match ev with
  | MREvAckNack source acknack =>
      if (length ch <? ACKNACK_CHANNEL_SIZE)%nat then ch ++ [(source, Ack_AckNack acknack)] else ch
  | _ => ch
  end.
Definition is_acknack (ev : ReceiverEvent) : bool := match ev with MREvAckNack _ _ => true | _ => false end.

(** ** Running the parts *)

Definition on_receiver (h : MR unit) : L unit :=
  l ← get_st;
  res ← lift_outcome (h (el_message_receiver l));
  _ ← modify_st (fun l => el_set_receiver l res.1.2 (foldl send_acknack (el_ack_nack_channel l) res.2));
  act_for (filter (fun ev => is_acknack ev = false) res.2) (fun ev => emit_ev (LEvReceiver ev)).

Definition on_writer (eid : EntityId) (h : W unit) : L unit :=
  l ← get_st;
  match el_writers l !! eid with
  | None => mret tt
  | Some w =>
      res ← lift_outcome (h w);
      _ ← modify_st (fun l => el_set_writers l (<[eid := res.1.2]> (el_writers l)));
      act_for res.2 (fun ev => emit_ev (LEvWriter eid ev))
  end.

(** [self.writers.values_mut()] and [available_readers.values_mut()] *)
Definition for_writers (h : W unit) : L unit :=
  l ← get_st; act_for (bt_keys (el_writers l)) (fun eid => on_writer eid h).

Section loop.
Context `{SP : Speedy} (clock : nat -> Timestamp).

Definition on_reader (eid : EntityId) (h : R unit) : L unit := on_receiver (with_reader clock eid (fun _ _ => h)).
Definition for_readers (h : R unit) : L unit :=
  l ← get_st; act_for (bt_keys (available_readers (el_message_receiver l))) (fun eid => on_reader eid h).

(** A reading of the clock. *)
Definition read_clock : L Timestamp :=
  l ← get_st;
  let m := el_message_receiver l in
  _ ← modify_st (fun l => el_set_receiver l
        (mkReceiver (available_readers m) (own_guid_prefix m) (mr_source m) (mr_caches m) (S (mr_ticks m)))
        (el_ack_nack_channel l));
  mret (clock (mr_ticks m)).

(** ** Local endpoints *)

Definition add_local_reader (reader_ing : ReaderIngredients) : L unit :=
  let eid := entity_id (ri_guid reader_ing) in
  _ ← emit_ev (LEvRegister (EntityId_as_alt_token eid));
  now ← read_clock;
  l ← get_st;
  match mr_caches (el_message_receiver l) !! ri_topic_name reader_ing with
  | None => lift_outcome (Panic "reader without a topic cache")
  | Some tc =>
      new_reader ← lift_outcome (Reader_new now (ri_guid reader_ing) (ri_topic_name reader_ing)
                     (ri_like_stateless reader_ing) (ri_qos_policy reader_ing) tc);
      token ← lift_outcome (EntityId_as_token eid);
      _ ← emit_ev (LEvRegister token);
      res ← lift_outcome (set_requested_deadline_check_timer new_reader);
      _ ← act_for res.2 (fun ev => emit_ev (LEvReceiver (MREvReader eid ev)));
      modify_st (fun l => el_set_receiver l (add_reader (el_message_receiver l) (rs_reader res.1.2)) (el_ack_nack_channel l))
  end.

Definition remove_local_reader (reader_guid : GUID) : L unit :=
  l ← get_st;
  let '(old, m) := remove_reader (el_message_receiver l) reader_guid in
  _ ← modify_st (fun l => el_set_receiver l m (el_ack_nack_channel l));
  match old with
  | Some old_reader => emit_ev (LEvDeregister (r_entity_id old_reader))
  | None => mret tt
  end.

Definition add_local_writer (writer_ing : WriterIngredients) : L unit :=
  let eid := entity_id (wi_guid writer_ing) in
  _ ← emit_ev (LEvRegister (EntityId_as_alt_token eid));
  new_writer ← lift_outcome (Writer_new (wi_guid writer_ing) (wi_topic_name writer_ing)
                 (wi_like_stateless writer_ing) (wi_qos_policies writer_ing));
  _ ← act_for new_writer.2 (fun ev => emit_ev (LEvWriter eid ev));
  token ← lift_outcome (EntityId_as_token eid);
  _ ← emit_ev (LEvRegister token);
  modify_st (fun l => el_set_writers l (<[w_entity_id new_writer.1 := new_writer.1]> (el_writers l))).

Definition remove_local_writer (writer_guid : GUID) : L unit :=
  l ← get_st;
  let eid := entity_id writer_guid in
  match el_writers l !! eid with
  | Some _ =>
      _ ← modify_st (fun l => el_set_writers l (delete eid (el_writers l)));
      emit_ev (LEvDeregister eid)
  | None => mret tt
  end.

(** ** News of discovery *)

Definition remote_reader_discovered (remote_reader : DiscoveredReaderData) : L unit :=
  for_writers (
    w ← get_st;
    if bool_decide (sbtd_topic_name (drd_subscription_topic_data remote_reader) = w_topic_name w) then
      let requested_qos := SubscriptionBuiltinTopicData_qos (drd_subscription_topic_data remote_reader) in
      update_reader_proxy (RtpsReaderProxy_from_discovered_reader_data (drd_proxy remote_reader) [] []) requested_qos
    else mret tt).

Definition remote_reader_lost (reader_guid : GUID) : L unit := for_writers (reader_lost reader_guid).

Definition remote_writer_discovered (remote_writer : DiscoveredWriterData) : L unit :=
  for_readers (
    r ← get_reader;
    if bool_decide (pbtd_topic_name (dwd_publication_topic_data remote_writer) = r_topic_name r) then
      let offered_qos := PublicationBuiltinTopicData_qos (dwd_publication_topic_data remote_writer) in
      update_writer_proxy (WriterProxy_from_discovered_writer_data (dwd_proxy remote_writer) [] []) offered_qos
    else mret tt).

Definition remote_writer_lost (writer_guid : GUID) : L unit := for_readers (remove_writer_proxy writer_guid).

Definition remote_participant_lost (participant_guid_prefix : GuidPrefix) : L unit :=
  _ ← for_writers (participant_lost participant_guid_prefix);
  for_readers (Reader_participant_lost participant_guid_prefix).

(** The QoS a built-in reader is matched with: that of the local writer, best
    effort if the remote participant says so of its liveliness reader. *)
Definition builtin_reader_qos (discovered_participant : SpdpDiscoveredParticipantData) (reader_eid : EntityId)
    (qos : QosPolicies) : QosPolicies :=
  if bool_decide (reader_eid = P2P_BUILTIN_PARTICIPANT_MESSAGE_READER)
     && match spdp_builtin_endpoint_qos discovered_participant with
        | Some beq => BuiltinEndpointQos_is_best_effort beq
        | None => false
        end
  then {| durability := durability qos; presentation := presentation qos; deadline := deadline qos;
          latency_budget := latency_budget qos; ownership := ownership qos; liveliness := liveliness qos;
          time_based_filter := time_based_filter qos; reliability := Some BestEffort;
          destination_order := destination_order qos; history := history qos;
          resource_limits := resource_limits qos; lifespan := lifespan qos |}
  else qos.

Definition loop_update_participant (participant_guid_prefix : GuidPrefix) : L unit :=
  l ← get_st;
  match find_participant_proxy (el_discovery_db l) participant_guid_prefix with
  | None => mret tt
  | Some discovered_participant =>
      _ ← act_for STANDARD_BUILTIN_READERS_INIT_LIST (fun '(writer_eid, reader_eid, endpoint) =>
            on_writer writer_eid (
              w ← get_st;
              if BuiltinEndpointSet_contains (spdp_available_builtin_endpoints discovered_participant) endpoint then
                update_reader_proxy (as_reader_proxy discovered_participant true (Some reader_eid))
                  (builtin_reader_qos discovered_participant reader_eid (w_qos w))
              else mret tt));
      act_for STANDARD_BUILTIN_WRITERS_INIT_LIST (fun '(writer_eid, reader_eid, endpoint) =>
        on_reader reader_eid (
          r ← get_reader;
          if BuiltinEndpointSet_contains (spdp_available_builtin_endpoints discovered_participant) endpoint then
            update_writer_proxy (as_writer_proxy discovered_participant true (Some writer_eid)) (r_qos r)
          else mret tt))
  end.

Definition handle_discovery_notification (dnt : Timestamp * DiscoveryNotificationType) : L unit :=
  match dnt.2 with
  | DN_WriterUpdated discovered_writer_data => remote_writer_discovered discovered_writer_data
  | DN_WriterLost writer_guid => remote_writer_lost writer_guid
  | DN_ReaderUpdated discovered_reader_data => remote_reader_discovered discovered_reader_data
  | DN_ReaderLost reader_guid => remote_reader_lost reader_guid
  | DN_ParticipantUpdated guid_prefix => loop_update_participant guid_prefix
  | DN_ParticipantLost guid_prefix => remote_participant_lost guid_prefix
  | DN_AssertTopicLiveliness writer_guid manual_assertion =>
      on_writer (entity_id writer_guid) (handle_heartbeat_tick dnt.1 manual_assertion)
  end.

(** ** Events *)

Definition ack_writer_id (a : AckSubmessage) : EntityId :=
  match a with Ack_AckNack an => an_writer_id an | Ack_NackFrag nf => nf_writer_id nf end.

Definition handle_writer_acknack_action : L unit :=
  l ← get_st;
  _ ← modify_st (fun l => el_set_receiver l (el_message_receiver l) []);
  act_for (el_ack_nack_channel l) (fun '(acknack_sender_prefix, acknack_submessage) =>
    on_writer (ack_writer_id acknack_submessage) (
      w ← get_st;
      if is_reliable (w_qos w) then handle_ack_nack acknack_sender_prefix acknack_submessage else mret tt)).

(** Commands to a reader are received and not yet implemented. *)
Definition process_command (commands : list ReaderCommand) : R unit := act_for commands (fun _ => mret tt).

Definition handle_reader_timed_event (entity_id : EntityId) (expired : nat) : L unit :=
  act_for (replicate expired tt) (fun _ =>
    on_receiver (with_reader clock entity_id (fun now _ => Reader_handle_timed_event now))).

Definition handle_writer_timed_event (entity_id : EntityId) (due : list (Timestamp * TimedEvent)) : L unit :=
  on_writer entity_id (handle_timed_event due).

(** What is left of the commands stays in the channel. *)
Definition handle_writer_command (eid : EntityId) (queue : list (Timestamp * WriterCommand)) : L unit :=
  _ ← on_writer eid (_ ← process_writer_command queue; mret tt);
  l ← get_st;
  on_receiver (notify_data_to_readers clock
    match el_writers l !! eid with Some w => local_readers w | None => [] end).

(** The commands to the loop, until none is left or it stops. *)
Fixpoint handle_stop_commands (commands : list EventLoopCommand) (disconnected : bool) : L unit :=
  match commands with
  | ELC_PrepareStop :: commands =>
      _ ← modify_st (fun l => el_set_stop l true (el_stopped l)); handle_stop_commands commands disconnected
  | ELC_Stop :: _ => modify_st (fun l => el_set_stop l (el_preparing_to_stop l) true)
  | [] => if disconnected then modify_st (fun l => el_set_stop l (el_preparing_to_stop l) true) else mret tt
  end.

Definition clean_caches : L unit :=
  now ← read_clock;
  l ← get_st;
  let m := el_message_receiver l in
  c ← lift_outcome (garbage_collect now (mkDDSCache (mr_caches m)));
  modify_st (fun l => el_set_receiver l
    (mkReceiver (available_readers m) (own_guid_prefix m) (mr_source m) (topic_caches c) (mr_ticks m))
    (el_ack_nack_channel l)).

Definition is_listener_token (t : Z) : bool :=
  (t =? DISCOVERY_LISTENER_TOKEN) || (t =? DISCOVERY_MUL_LISTENER_TOKEN)
  || (t =? USER_TRAFFIC_LISTENER_TOKEN) || (t =? USER_TRAFFIC_MUL_LISTENER_TOKEN).

Definition handle_fixed_token (t : Z) (ch : Channels) : L unit :=
  if t =? STOP_POLL_TOKEN then handle_stop_commands (ch_stop ch) (ch_stop_disconnected ch)
  else if is_listener_token t then
    act_for (default [] (ch_udp ch !! t)) (fun packet => on_receiver (handle_received_packet clock packet))
  else if t =? ADD_READER_TOKEN then act_for (ch_add_reader ch) add_local_reader
  else if t =? REMOVE_READER_TOKEN then act_for (ch_remove_reader ch) remove_local_reader
  else if t =? ADD_WRITER_TOKEN then act_for (ch_add_writer ch) add_local_writer
  else if t =? REMOVE_WRITER_TOKEN then act_for (ch_remove_writer ch) remove_local_writer
  else if t =? ACKNACK_MESSAGE_TO_LOCAL_WRITER_TOKEN then handle_writer_acknack_action
  else if t =? DISCOVERY_UPDATE_NOTIFICATION_TOKEN then act_for (ch_discovery ch) handle_discovery_notification
  else if t =? DPEV_ACKNACK_TIMER_TOKEN then
    _ ← on_receiver (receiver_send_preemptive_acknacks clock);
    emit_ev (LEvTimeout DPEV_ACKNACK_TIMER_TOKEN PREEMPTIVE_ACKNACK_PERIOD)
  else if t =? DPEV_CACHE_CLEAN_TIMER_TOKEN then
    _ ← clean_caches;
    emit_ev (LEvTimeout DPEV_CACHE_CLEAN_TIMER_TOKEN CACHE_CLEAN_PERIOD)
  else mret tt.

(** One event of the poll. *)
Definition handle_event (token : Z) (ch : Channels) : L unit :=
  match EntityId_from_token token with
  | TFixedToken fixed_token => handle_fixed_token fixed_token ch
  | TEntity eid =>
      if EntityKind_is_reader (entity_kind eid) then on_reader eid (process_command (ch_reader_commands ch eid))
      else if EntityKind_is_writer (entity_kind eid) then handle_writer_command eid (ch_writer_commands ch eid)
      else mret tt
  | TAltEntity eid =>
      if EntityKind_is_reader (entity_kind eid) then handle_reader_timed_event eid (ch_reader_timers ch eid)
      else if EntityKind_is_writer (entity_kind eid) then handle_writer_timed_event eid (ch_writer_timers ch eid)
      else mret tt
  end.

(** The loop, over the events that the poll returns, until it is told to stop.
    The discovery database is written by another thread: every event comes with
    the state in which the loop finds it. *)
Definition event_loop (events : list (DiscoveryDB * Z * Channels)) : L unit :=
  act_for events (fun '(db, token, ch) =>
    l ← get_st;
    if el_stopped l then mret tt
    else _ ← modify_st (fun l => el_set_db l db); handle_event token ch).
End loop.
