(* ===== verification/EventLoopTheorems.v ===== *)
(** * What the event loop guarantees

    The theorems about [src/rtps/dp_event_loop.rs]: every event is handled
    without a panic and leaves readers, writers and caches consistent; news of
    discovery match exactly the endpoints they are for; what is lost is no longer
    sent to. *)

From S2P Require Import Prelude BTree Wire SequenceNumbers Time Guid Locator WriterProxy ParameterList Qos StatusEvents Payload Submessages Headers MessageBuilder MessageWire InlineQos FragmentAssembler DdsCache Reader MessageReceiver ReaderCorrect ReaderTheorems ReaderProxy DiscoveryData DiscoveryDB HistoryBuffer Writer WriterCorrect WriterHandlers WriterTheorems ReceiverTheorems ReceiverSafety EventLoop.

(** ** Running the parts *)

Lemma wp_emit_map {St Ev A} (f : A -> Ev) (l : list A) (st : St) (Q : unit -> St -> list Ev -> Prop) :
  Q tt st (f <$> l) -> wp (act_for l (fun x => emit_ev (f x))) st Q.
Proof.
  revert Q. induction l as [|x l IH]; intros Q HQ; cbn [act_for]; [by wp_step|].
  wp_step. wp_step. apply IH. exact HQ.
Qed.

(** What one writer said, among everything that left the loop. *)
Definition writer_events (eid : EntityId) (evs : list LoopEvent) : list WriterEvent :=
  omap (fun ev => match ev with LEvWriter eid' e => if decide (eid' = eid) then Some e else None | _ => None end) evs.
Definition reader_events (eid : EntityId) (evs : list LoopEvent) : list ReaderEvent :=
  omap (fun ev => match ev with
                  | LEvReceiver (MREvReader eid' e) => if decide (eid' = eid) then Some e else None
                  | _ => None end) evs.

Lemma writer_events_app eid e1 e2 : writer_events eid (e1 ++ e2) = writer_events eid e1 ++ writer_events eid e2.
Proof. apply omap_app. Qed.
Lemma reader_events_app eid e1 e2 : reader_events eid (e1 ++ e2) = reader_events eid e1 ++ reader_events eid e2.
Proof. apply omap_app. Qed.

Lemma writer_events_own eid evs : writer_events eid (LEvWriter eid <$> evs) = evs.
Proof. induction evs as [|e evs IH]; [done|]. csimpl. rewrite decide_True by done. f_equal. exact IH. Qed.
Lemma writer_events_other eid eid' evs : eid' <> eid -> writer_events eid (LEvWriter eid' <$> evs) = [].
Proof. intros H. induction evs as [|e evs IH]; [done|]. csimpl. rewrite decide_False by done. exact IH. Qed.
Lemma reader_events_own eid evs : reader_events eid ((fun e => LEvReceiver (MREvReader eid e)) <$> evs) = evs.
Proof. induction evs as [|e evs IH]; [done|]. csimpl. rewrite decide_True by done. f_equal. exact IH. Qed.
Lemma reader_events_other eid eid' evs : eid' <> eid -> reader_events eid ((fun e => LEvReceiver (MREvReader eid' e)) <$> evs) = [].
Proof. intros H. induction evs as [|e evs IH]; [done|]. csimpl. rewrite decide_False by done. exact IH. Qed.
Lemma reader_events_writer eid eid' evs : reader_events eid (LEvWriter eid' <$> evs) = [].
Proof. by induction evs. Qed.
Lemma writer_events_reader eid eid' evs : writer_events eid ((fun e => LEvReceiver (MREvReader eid' e)) <$> evs) = [].
Proof. by induction evs. Qed.

Lemma on_writer_none eid h l : el_writers l !! eid = None -> wp (on_writer eid h) l (fun _ l' evs => l' = l /\ evs = []).
Proof. intros E. unfold on_writer. wp_steps. rewrite E. by wp_step. Qed.

Lemma on_writer_wp eid (h : W unit) l w (Q : Writer -> list WriterEvent -> Prop) :
  el_writers l !! eid = Some w -> wp h w (fun _ w' evs => Q w' evs) ->
  wp (on_writer eid h) l (fun _ l' evs => exists w' wevs, Q w' wevs /\
    l' = el_set_writers l (<[eid := w']> (el_writers l)) /\ evs = LEvWriter eid <$> wevs).
Proof.
  intros E Hh. apply wp_run in Hh as ([] & w' & wevs & Eh & HQ). unfold on_writer. wp_step. wp_step. rewrite E.
  wp_step. eapply wp_lift; [exact Eh|]. wp_step. wp_step. apply wp_emit_map. cbn [app fst snd]. eauto.
Qed.

Lemma on_receiver_wp (h : MR unit) l (Q : MessageReceiver -> list ReceiverEvent -> Prop) :
  wp h (el_message_receiver l) (fun _ m' evs => Q m' evs) ->
  wp (on_receiver h) l (fun _ l' evs => exists m' revs, Q m' revs /\
    l' = el_set_receiver l m' (foldl send_acknack (el_ack_nack_channel l) revs) /\
    evs = LEvReceiver <$> filter (fun ev => is_acknack ev = false) revs).
Proof.
  intros Hh. apply wp_run in Hh as ([] & m' & revs & Eh & HQ). unfold on_receiver. wp_step. wp_step.
  wp_step. eapply wp_lift; [exact Eh|]. wp_step. wp_step. apply wp_emit_map. cbn [app fst snd]. eauto.
Qed.

(** A handler of a reader that leaves the topic cache alone. *)
Section on_reader.
Context (clock : nat -> Timestamp).

Lemma with_reader_wp eid (h : R unit) m r tc (Q : Reader -> list ReaderEvent -> Prop) :
  available_readers m !! eid = Some r -> mr_caches m !! r_topic_name r = Some tc ->
  wp h (mkRS r tc) (fun _ st' evs => rs_cache st' = tc /\ Q (rs_reader st') evs) ->
  wp (with_reader clock eid (fun _ _ => h)) m (fun _ m' evs => exists r' revs, Q r' revs /\
    m' = mkReceiver (<[eid := r']> (available_readers m)) (own_guid_prefix m) (mr_source m) (mr_caches m) (S (S (mr_ticks m))) /\
    evs = MREvReader eid <$> revs).
Proof.
  intros Er Etc Hh. apply wp_run in Hh as ([] & [r' tc'] & revs & Eh & Ec & HQ). simpl in Ec, HQ. subst tc'.
  unfold with_reader. wp_step. wp_step. rewrite Er, Etc. wp_step. eapply wp_lift; [exact Eh|]. wp_step. wp_step.
  apply wp_emit_map. cbn [app fst snd rs_reader rs_cache]. rewrite (insert_id (mr_caches m)) by done. eauto.
Qed.

Lemma send_reader_events ch eid (revs : list ReaderEvent) : foldl send_acknack ch (MREvReader eid <$> revs) = ch.
Proof. revert ch. induction revs; intros ch; [done|]. apply IHrevs. Qed.
Lemma no_acknacks eid (revs : list ReaderEvent) :
  filter (fun ev => is_acknack ev = false) (MREvReader eid <$> revs) = MREvReader eid <$> revs.
Proof. apply list_filter_all. by intros ev (e & -> & _)%list_elem_of_fmap. Qed.

Definition el_set_readers (l : DPEventLoop) (rs : gmap EntityId Reader) (ticks : nat) : DPEventLoop :=
  let m := el_message_receiver l in
  el_set_receiver l (mkReceiver rs (own_guid_prefix m) (mr_source m) (mr_caches m) ticks) (el_ack_nack_channel l).

Lemma on_reader_wp eid (h : R unit) l r tc (Q : Reader -> list ReaderEvent -> Prop) :
  available_readers (el_message_receiver l) !! eid = Some r ->
  mr_caches (el_message_receiver l) !! r_topic_name r = Some tc ->
  wp h (mkRS r tc) (fun _ st' evs => rs_cache st' = tc /\ Q (rs_reader st') evs) ->
  wp (on_reader clock eid h) l (fun _ l' evs => exists r' revs, Q r' revs /\
    l' = el_set_readers l (<[eid := r']> (available_readers (el_message_receiver l))) (S (S (mr_ticks (el_message_receiver l)))) /\
    evs = (fun e => LEvReceiver (MREvReader eid e)) <$> revs).
Proof.
  intros Er Etc Hh. unfold on_reader. eapply wp_mono.
  - apply (on_receiver_wp _ l (fun m' evs => exists r' revs, Q r' revs /\
      m' = mkReceiver (<[eid := r']> (available_readers (el_message_receiver l))) (own_guid_prefix (el_message_receiver l))
             (mr_source (el_message_receiver l)) (mr_caches (el_message_receiver l)) (S (S (mr_ticks (el_message_receiver l)))) /\
      evs = MREvReader eid <$> revs)). by eapply with_reader_wp.
  - cbv beta. intros _ l' evs (m' & mevs & (r' & revs & HQ & -> & ->) & -> & ->). exists r', revs.
    rewrite send_reader_events, no_acknacks, <- list_fmap_compose. done.
Qed.
End on_reader.

(** ** Visiting every endpoint

    A loop over the keys of a map in the state, each round of which changes the
    entry of its key only. *)

Section for_each.
Context {St Ev X E : Type} (view : St -> gmap EntityId X) (evs_of : EntityId -> list Ev -> list E).
Context (same : relation St) `{!PreOrder same} (P : Ev -> Prop).
Context (evs_of_nil : forall k, evs_of k [] = []).
Context (evs_of_app : forall k e1 e2, evs_of k (e1 ++ e2) = evs_of k e1 ++ evs_of k e2).

Lemma for_each_wp (f : EntityId -> act St Ev unit) (Q : EntityId -> X -> X -> list E -> Prop) ks st :
  NoDup ks -> (forall k, k ∈ ks -> is_Some (view st !! k)) ->
  (forall st1 k x, same st st1 -> view st1 !! k = Some x -> view st !! k = Some x ->
     wp (f k) st1 (fun _ st2 evs => same st1 st2 /\ Forall P evs /\ (forall k', k' <> k -> evs_of k' evs = []) /\
       exists x', view st2 = <[k := x']> (view st1) /\ Q k x x' (evs_of k evs))) ->
  wp (act_for ks f) st (fun _ st' evs => same st st' /\ Forall P evs /\ dom (view st') = dom (view st) /\
    forall k x, view st !! k = Some x -> exists x', view st' !! k = Some x' /\
      if decide (k ∈ ks) then Q k x x' (evs_of k evs) else x' = x /\ evs_of k evs = []).
Proof.
  intros Hnd Hks Hf.
  enough (forall st0, same st st0 -> (forall k, k ∈ ks -> view st0 !! k = view st !! k) ->
    wp (act_for ks f) st0 (fun _ st' evs => same st0 st' /\ Forall P evs /\ dom (view st') = dom (view st0) /\
      forall k x, view st0 !! k = Some x -> exists x', view st' !! k = Some x' /\
        if decide (k ∈ ks) then Q k x x' (evs_of k evs) else x' = x /\ evs_of k evs = [])) as H by (by apply H).
  revert Hks. induction Hnd as [|k ks Hni Hnd IH]; intros Hks st0 Hs Hv; cbn [act_for].
  - wp_step. split_and!; [done|constructor|done|]. intros k x Hx. exists x. rewrite decide_False by apply not_elem_of_nil. auto.
  - destruct (view st0 !! k) as [x0|] eqn:E0.
    2: { destruct (Hks k); [set_solver|]. rewrite Hv in E0 by set_solver. congruence. }
    wp_step. eapply wp_mono; [apply (Hf st0 k x0); [done|done|by rewrite <- Hv by set_solver]|]. cbv beta.
    intros _ st1 e1 (Hs1 & HP1 & He1 & x1 & Hv1 & HQ1).
    eapply wp_mono; [apply IH with (st0 := st1)|].
    + intros k' Hk'. apply Hks. set_solver.
    + by transitivity st0.
    + intros k' Hk'. rewrite Hv1, lookup_insert_ne by (intros ->; done). apply Hv. set_solver.
    + cbv beta. intros _ st2 e2 (Hs2 & HP2 & Hd2 & H2). split_and!; [by transitivity st1|by apply Forall_app| |].
      * rewrite Hd2, Hv1. apply dom_insert_lookup_L. eauto.
      * intros k' x Hx. rewrite evs_of_app. destruct (decide (k' = k)) as [->|Hne].
        -- simplify_eq. destruct (H2 k x1) as (x2 & Hx2 & H); [by rewrite Hv1, lookup_insert_eq|].
           rewrite decide_False in H by done. destruct H as [-> ->]. exists x1. rewrite decide_True, app_nil_r by set_solver. auto.
        -- destruct (H2 k' x) as (x2 & Hx2 & H); [by rewrite Hv1, lookup_insert_ne|]. exists x2. split; [done|].
           rewrite He1 by done. simpl. destruct (decide (k' ∈ ks)); [rewrite decide_True by set_solver|rewrite decide_False by set_solver]; done.
Qed.
End for_each.

Definition is_writer_event (ev : LoopEvent) : Prop := match ev with LEvWriter _ _ => True | _ => False end.
Definition is_reader_event (ev : LoopEvent) : Prop := match ev with LEvReceiver (MREvReader _ _) => True | _ => False end.

(** Only the writers have changed; only the readers, and not their caches. *)
Definition writers_only : relation DPEventLoop := fun l l' => l' = el_set_writers l (el_writers l').
Definition readers_only : relation DPEventLoop := fun l l' =>
  l' = el_set_readers l (available_readers (el_message_receiver l')) (mr_ticks (el_message_receiver l')) /\
  (forall eid r r', available_readers (el_message_receiver l) !! eid = Some r ->
     available_readers (el_message_receiver l') !! eid = Some r' -> r_topic_name r' = r_topic_name r) /\
  dom (available_readers (el_message_receiver l')) = dom (available_readers (el_message_receiver l)).

#[export] Instance writers_only_preorder : PreOrder writers_only.
Proof. split; [by intros []|]. unfold writers_only. intros l1 l2 l3 -> ->. done. Qed.

#[export] Instance readers_only_preorder : PreOrder readers_only.
Proof.
  split.
  - intros [? ? []]. split_and!; [done| |done]. intros. simplify_eq/=. congruence.
  - intros l1 l2 l3 (H1 & H2 & H3) (H4 & H5 & H6). split_and!.
    + rewrite H4. rewrite H1. done.
    + intros eid r r' Hr Hr'. assert (eid ∈ dom (available_readers (el_message_receiver l2))) as [r2 Hr2]%elem_of_dom
        by (rewrite H3; by apply elem_of_dom_2 in Hr). transitivity (r_topic_name r2); eauto.
    + congruence.
Qed.

Lemma writer_other_events eid evs : Forall is_writer_event (LEvWriter eid <$> evs).
Proof. by apply Forall_fmap, Forall_true. Qed.

Lemma for_writers_wp (h : W unit) l (Q : EntityId -> Writer -> Writer -> list WriterEvent -> Prop) :
  (forall eid w, el_writers l !! eid = Some w -> wp h w (fun _ w' evs => Q eid w w' evs)) ->
  wp (for_writers h) l (fun _ l' evs => writers_only l l' /\ Forall is_writer_event evs /\
    dom (el_writers l') = dom (el_writers l) /\
    forall eid w, el_writers l !! eid = Some w -> exists w', el_writers l' !! eid = Some w' /\ Q eid w w' (writer_events eid evs)).
Proof.
  intros Hh. unfold for_writers. wp_step. wp_step. eapply wp_mono.
  - apply (for_each_wp el_writers writer_events writers_only is_writer_event) with (Q := Q).
    + done.
    + apply writer_events_app.
    + apply NoDup_bt_keys.
    + intros k. apply elem_of_bt_keys.
    + intros l1 eid w Hs H1 H0. eapply wp_mono; [apply (on_writer_wp eid h l1 w (Q eid w) H1 (Hh _ _ H0))|]. cbv beta.
      intros _ l2 evs (w' & wevs & HQ & -> & ->). split_and!; [done|apply writer_other_events|intros; by apply writer_events_other|].
      exists w'. by rewrite writer_events_own.
  - cbv beta. intros _ l' evs (H1 & H2 & H3 & H4). split_and!; [done..|]. intros eid w Hw.
    destruct (H4 _ _ Hw) as (w' & ? & H). exists w'. split; [done|]. rewrite decide_True in H; [done|]. apply elem_of_bt_keys. eauto.
Qed.

(** A handler of readers that leaves the caches alone, and the topic. *)
Definition caches_exist (m : MessageReceiver) : Prop :=
  forall eid r, available_readers m !! eid = Some r -> is_Some (mr_caches m !! r_topic_name r).

Lemma for_readers_wp clock (h : R unit) l (Q : EntityId -> Reader -> Reader -> list ReaderEvent -> Prop) :
  caches_exist (el_message_receiver l) ->
  (forall eid r tc, available_readers (el_message_receiver l) !! eid = Some r ->
     wp h (mkRS r tc) (fun _ st' evs => rs_cache st' = tc /\ r_topic_name (rs_reader st') = r_topic_name r /\ Q eid r (rs_reader st') evs)) ->
  wp (for_readers clock h) l (fun _ l' evs => readers_only l l' /\ Forall is_reader_event evs /\
    forall eid r, available_readers (el_message_receiver l) !! eid = Some r ->
      exists r', available_readers (el_message_receiver l') !! eid = Some r' /\ Q eid r r' (reader_events eid evs)).
Proof.
  intros Hc Hh. unfold for_readers. wp_step. wp_step. eapply wp_mono.
  - apply (for_each_wp (fun l => available_readers (el_message_receiver l)) reader_events readers_only is_reader_event) with (Q := Q).
    + done.
    + apply reader_events_app.
    + apply NoDup_bt_keys.
    + intros k. apply elem_of_bt_keys.
    + intros l1 eid r (Hs & _ & _) H1 H0. destruct (Hc _ _ H0) as [tc Htc].
      eapply wp_mono; [apply (on_reader_wp clock eid h l1 r tc (fun r' evs => r_topic_name r' = r_topic_name r /\ Q eid r r' evs)); [exact H1|by rewrite Hs|by apply Hh]|]. cbv beta.
      intros _ l2 evs (r' & revs & [Ht HQ] & -> & ->). split_and!.
      * split_and!; [done| |apply dom_insert_lookup_L; eauto]. simpl. intros eid' r1 r2 E1 E2.
        apply lookup_insert_Some in E2 as [[<- <-]|[? ?]]; congruence.
      * by apply Forall_fmap, Forall_true.
      * intros. by apply reader_events_other.
      * exists r'. by rewrite reader_events_own.
  - cbv beta. intros _ l' evs (H1 & H2 & H3 & H4). split_and!; [done..|]. intros eid r Hr.
    destruct (H4 _ _ Hr) as (r' & ? & H). exists r'. split; [done|]. rewrite decide_True in H; [done|]. apply elem_of_bt_keys. eauto.
Qed.

(** ** The invariant *)

Definition ack_ok (a : GuidPrefix * AckSubmessage) : Prop :=
  match a.2 with Ack_AckNack an => acknack_ok an | Ack_NackFrag _ => False end.

Record loop_inv (clock : nat -> Timestamp) (l : DPEventLoop) : Prop := {
  li_receiver : receiver_inv clock (el_message_receiver l);
  li_writers : forall eid w, el_writers l !! eid = Some w -> w_entity_id w = eid /\ writer_inv w;
  li_acks : Forall ack_ok (el_ack_nack_channel l);
}.

Lemma loop_caches clock l : loop_inv clock l -> caches_exist (el_message_receiver l).
Proof. intros [[Hr _] _ _] eid r E. destruct (Hr _ _ E) as (_ & tc & H & _). eauto. Qed.

(** ** Matching *)

Definition loopback_free (rp : RtpsReaderProxy) : Prop := Forall (fun l => not_loopback l = true) (unicast_locator_list rp).
Definition no_datagram (evs : list WriterEvent) : Prop := forall m loc, EvSend m loc ∉ evs.
(** The writer is the same one, on the same topic, with the same QoS. *)
Definition same_writer (w w' : Writer) : Prop :=
  w_my_guid w' = w_my_guid w /\ w_topic_name w' = w_topic_name w /\ w_qos w' = w_qos w.
Lemma same_writer_trans w1 w2 w3 : same_writer w1 w2 -> same_writer w2 w3 -> same_writer w1 w3.
Proof. unfold same_writer. intuition congruence. Qed.

(** What the announcement of a reader, as the proxy [rp] with the QoS [q], makes of
    a writer: a matched reader with the announced locators, that keeps its account
    if it is known already and is owed nothing old by a volatile writer if not; or
    a report that the QoS does not fit. *)
Definition reader_matching (rp : RtpsReaderProxy) (q : QosPolicies) (w w' : Writer) (evs : list WriterEvent) : Prop :=
  let g := remote_reader_guid rp in
  same_writer w w' /\ w_history w' = w_history w /\ no_datagram evs /\
  match compliance_failure_wrt (w_qos w) q with
  | None => exists rp', readers w' = <[g := rp']> (readers w) /\
      unicast_locator_list rp' = unicast_locator_list rp /\ multicast_locator_list rp' = multicast_locator_list rp /\
      rp_qos rp' = rp_qos rp /\
      (EvParticipantStatus (RemoteReaderMatched (w_my_guid w) g) ∈ evs <-> readers w !! g = None) /\
      match readers w !! g with
      | Some old => all_acked_before rp' = all_acked_before old /\ unsent_changes rp' = unsent_changes old /\
          pending_gap rp' = pending_gap old
      | None => all_acked_before rp' = all_acked_before rp /\ unsent_changes rp' = unsent_changes rp /\
          forall sn, sn ∈ pending_gap rp' <-> sn ∈ pending_gap rp \/
            (is_volatile (w_qos w) = true /\ 1 <= sn <= last_seq (w_history w))
      end
  | Some _ => readers w' = readers w /\
      EvParticipantStatus (RemoteReaderQosIncompatible (w_my_guid w) g q (w_qos w)) ∈ evs
  end.

Lemma update_keeps_locators old rp :
  loopback_free rp -> unicast_locator_list (RtpsReaderProxy_update old rp) = unicast_locator_list rp /\
    multicast_locator_list (RtpsReaderProxy_update old rp) = multicast_locator_list rp.
Proof.
  intros Hl. unfold RtpsReaderProxy_update. simpl.
  destruct (negb (bool_decide (unicast_locator_list old = _)) || _) eqn:E.
  - split; [|done]. apply list_filter_all. by apply Forall_forall.
  - apply orb_false_iff in E as [E1%negb_false_iff%bool_decide_eq_true E2%negb_false_iff%bool_decide_eq_true]. done.
Qed.

Ltac not_in := repeat (rewrite list_elem_of_singleton || rewrite elem_of_cons || rewrite elem_of_app || rewrite elem_of_nil).

Lemma update_reader_matching rp q w :
  last_seq (w_history w) < i64_max -> loopback_free rp ->
  wp (update_reader_proxy rp q) w (fun _ w' evs => reader_matching rp q w w' evs).
Proof.
  intros Hseq Hl. unfold update_reader_proxy, reader_matching. wp_step. wp_step.
  destruct (compliance_failure_wrt (w_qos w) q) as [bad|].
  { wp_steps. split_and!; [done|done| |done|]; [intros m loc; not_in; naive_solver|not_in; auto]. }
  unfold matched_reader_update. wp_step. wp_step. wp_step.
  destruct (readers w !! remote_reader_guid rp) as [old|] eqn:Eold.
  - unfold set_reader. wp_steps. destruct (update_keeps_locators old rp Hl) as [E1 E2].
    split_and!; [done|done|intros m loc; not_in; naive_solver|]. eexists. split; [reflexivity|].
    split_and!; try done. split; [not_in; naive_solver|done].
  - assert (exists rp', (if is_volatile (w_qos w) then set_pending_gap_up_to rp (last_change_sequence_number (w_history w)) else Ret rp)
        = Ret rp' /\ rp' = rp_set_pending_gap rp (pending_gap rp') /\
        forall sn, sn ∈ pending_gap rp' <-> sn ∈ pending_gap rp \/
            (is_volatile (w_qos w) = true /\ 1 <= sn <= last_seq (w_history w))) as (rp' & E & E' & Hp).
    { destruct (is_volatile (w_qos w)).
      - destruct (set_pending_gap_run rp (last_seq (w_history w)) Hseq) as (S & Es & HS). eexists. split; [exact Es|].
        split; [done|]. intros sn. simpl. rewrite HS. naive_solver.
      - exists rp. split; [done|]. split; [by destruct rp|]. naive_solver. }
    wp_step. eapply wp_lift; [exact E|]. unfold set_reader. wp_steps.
    split_and!; [done|done|intros m loc; not_in; naive_solver|]. exists rp'. split; [done|].
    rewrite E' at 1 2 3. split_and!; try done. split; [done|]. intros _. not_in. auto.
    rewrite E'. done. by rewrite E'.
Qed.

Definition no_reader_datagram (evs : list ReaderEvent) : Prop := Forall quiet evs.

(** The same for a reader and the announcement of a writer.  A reader that works
    without account of its writers matches none. *)
Definition writer_matching (p : RtpsWriterProxy) (q : QosPolicies) (r r' : Reader) (evs : list ReaderEvent) : Prop :=
  let g := wp_remote_writer_guid p in
  r_my_guid r' = r_my_guid r /\ r_topic_name r' = r_topic_name r /\ no_reader_datagram evs /\
  if r_like_stateless r then r' = r /\ evs = []
  else
    match compliance_failure_wrt q (r_qos r) with
    | None => exists p', matched_writers r' = <[g := p']> (matched_writers r) /\
        wp_unicast_locator_list p' = wp_unicast_locator_list p /\ wp_multicast_locator_list p' = wp_multicast_locator_list p /\
        (REvParticipantStatus (RemoteWriterMatched (r_my_guid r) g) ∈ evs <-> matched_writers r !! g = None) /\
        match matched_writers r !! g with
        | Some old => ack_base p' = ack_base old /\ changes p' = changes old
        | None => p' = p
        end
    | Some _ => matched_writers r' = matched_writers r /\
        REvParticipantStatus (RemoteWriterQosIncompatible (r_my_guid r) g (r_qos r) q) ∈ evs
    end.

Lemma update_writer_matching p q r tc :
  wp (update_writer_proxy p q) (mkRS r tc) (fun _ st' evs => rs_cache st' = tc /\
    r_topic_name (rs_reader st') = r_topic_name r /\ writer_matching p q r (rs_reader st') evs).
Proof.
  unfold update_writer_proxy, writer_matching. do 2 rd_step. cbn [rs_reader].
  destruct (r_like_stateless r); [rd_step; split_and!; try done; constructor|].
  destruct (compliance_failure_wrt q (r_qos r)) as [bad|].
  { rd_steps. split_and!; try done; [by repeat constructor|not_in; auto]. }
  unfold matched_writer_update. do 3 rd_step. cbn [rs_reader].
  destruct (matched_writers r !! wp_remote_writer_guid p) as [old|] eqn:Eold; rd_steps.
  - split_and!; try done; [constructor|]. eexists. split; [reflexivity|]. split_and!; try done. not_in. naive_solver.
  - split_and!; try done; [by repeat constructor|]. eexists. split; [reflexivity|]. split_and!; try done.
    split; [done|]. intros _. not_in. auto.
Qed.

(** The proxies that announcements are turned into. *)
Definition announced_reader (d : DiscoveredReaderData) : RtpsReaderProxy :=
  RtpsReaderProxy_from_discovered_reader_data (drd_proxy d) [] [].
Definition announced_writer (d : DiscoveredWriterData) : RtpsWriterProxy :=
  WriterProxy_from_discovered_writer_data (dwd_proxy d) [] [].

Lemma announced_loopback_free d : loopback_free (announced_reader d).
Proof. apply Forall_forall. simpl. intros l [? _]%list_elem_of_filter. done. Qed.

(** What the announcement [d] of a reader makes of a local writer of its topic, in
    terms of what was announced: the GUID, the unicast locators less those of the
    loopback interface, the multicast locators, and the QoS. *)
Definition reader_offered (d : DiscoveredReaderData) (w w' : Writer) (evs : list WriterEvent) : Prop :=
  let g := rpx_remote_reader_guid (drd_reader_proxy d) in
  let q := SubscriptionBuiltinTopicData_qos (drd_subscription_topic_data d) in
  same_writer w w' /\ w_history w' = w_history w /\ no_datagram evs /\
  match compliance_failure_wrt (w_qos w) q with
  | None => exists rp', readers w' = <[g := rp']> (readers w) /\
      unicast_locator_list rp' = filter (fun l => Locator_is_loopback l = false) (rpx_unicast_locator_list (drd_reader_proxy d)) /\
      multicast_locator_list rp' = rpx_multicast_locator_list (drd_reader_proxy d) /\ rp_qos rp' = q /\
      (EvParticipantStatus (RemoteReaderMatched (w_my_guid w) g) ∈ evs <-> readers w !! g = None) /\
      match readers w !! g with
      | Some old => all_acked_before rp' = all_acked_before old /\ unsent_changes rp' = unsent_changes old /\
          pending_gap rp' = pending_gap old
      | None => all_acked_before rp' = 0 /\ unsent_changes rp' = ∅ /\
          forall sn, sn ∈ pending_gap rp' <-> is_volatile (w_qos w) = true /\ 1 <= sn <= last_seq (w_history w)
      end
  | Some _ => readers w' = readers w /\
      EvParticipantStatus (RemoteReaderQosIncompatible (w_my_guid w) g q (w_qos w)) ∈ evs
  end.

(** The same of the announcement of a writer and a local reader of its topic. *)
Definition writer_offered (d : DiscoveredWriterData) (r r' : Reader) (evs : list ReaderEvent) : Prop :=
  let g := wpx_remote_writer_guid (dwd_writer_proxy d) in
  let q := PublicationBuiltinTopicData_qos (dwd_publication_topic_data d) in
  r_my_guid r' = r_my_guid r /\ r_topic_name r' = r_topic_name r /\ no_reader_datagram evs /\
  if r_like_stateless r then r' = r /\ evs = []
  else
    match compliance_failure_wrt q (r_qos r) with
    | None => exists p', matched_writers r' = <[g := p']> (matched_writers r) /\
        wp_unicast_locator_list p' = wpx_unicast_locator_list (dwd_writer_proxy d) /\
        wp_multicast_locator_list p' = wpx_multicast_locator_list (dwd_writer_proxy d) /\
        (REvParticipantStatus (RemoteWriterMatched (r_my_guid r) g) ∈ evs <-> matched_writers r !! g = None) /\
        match matched_writers r !! g with
        | Some old => ack_base p' = ack_base old /\ changes p' = changes old
        | None => wp_remote_writer_guid p' = g /\ ack_base p' = 1 /\ changes p' = ∅ /\ received_heartbeat_count p' = 0
        end
    | Some _ => matched_writers r' = matched_writers r /\
        REvParticipantStatus (RemoteWriterQosIncompatible (r_my_guid r) g (r_qos r) q) ∈ evs
    end.

Lemma or_nothing (l : list Locator) : discovered_or_default l [] = l.
Proof. by destruct l. Qed.

Lemma reader_matching_offered d w w' evs :
  reader_matching (announced_reader d) (SubscriptionBuiltinTopicData_qos (drd_subscription_topic_data d)) w w' evs ->
  reader_offered d w w' evs.
Proof.
  unfold reader_matching, reader_offered, announced_reader. simpl. rewrite !or_nothing. intros (H1 & H2 & H3 & H4). split_and!; [done..|].
  destruct (compliance_failure_wrt _ _); [done|]. destruct H4 as (rp' & E1 & E2 & E3 & E4 & E5 & E6).
  exists rp'. split_and!; [done| |done..|].
  - rewrite E2. apply list_filter_iff. intros l. unfold not_loopback. by destruct (Locator_is_loopback l).
  - destruct (readers w !! _); [done|]. destruct E6 as (? & ? & E6). split_and!; [done..|]. intros sn. rewrite E6. set_solver.
Qed.

Lemma writer_matching_offered d r r' evs :
  writer_matching (announced_writer d) (PublicationBuiltinTopicData_qos (dwd_publication_topic_data d)) r r' evs ->
  writer_offered d r r' evs.
Proof.
  unfold writer_matching, writer_offered, announced_writer. simpl. rewrite !or_nothing. intros (H1 & H2 & H3 & H4). split_and!; [done..|].
  destruct (r_like_stateless r); [done|]. destruct (compliance_failure_wrt _ _); [done|].
  destruct H4 as (p' & E1 & E2 & E3 & E4 & E5). exists p'. split_and!; [done..|].
  destruct (matched_writers r !! _); [done|]. subst p'. done.
Qed.

Section matching.
Context `{SP : Speedy} (clock : nat -> Timestamp).

Lemma reader_discovered_wp d l :
  loop_inv clock l ->
  wp (remote_reader_discovered d) l (fun _ l' evs => writers_only l l' /\ Forall is_writer_event evs /\
    dom (el_writers l') = dom (el_writers l) /\
    forall eid w, el_writers l !! eid = Some w -> exists w', el_writers l' !! eid = Some w' /\
      if decide (sbtd_topic_name (drd_subscription_topic_data d) = w_topic_name w)
      then reader_matching (announced_reader d) (SubscriptionBuiltinTopicData_qos (drd_subscription_topic_data d)) w w' (writer_events eid evs)
      else w' = w /\ writer_events eid evs = []).
Proof.
  intros Hinv. unfold remote_reader_discovered. eapply wp_mono; [eapply for_writers_wp with (Q := fun eid w w' evs =>
    if decide (sbtd_topic_name (drd_subscription_topic_data d) = w_topic_name w)
    then reader_matching (announced_reader d) (SubscriptionBuiltinTopicData_qos (drd_subscription_topic_data d)) w w' evs
    else w' = w /\ evs = [])|done].
  intros eid w Hw. wp_step. wp_step. destruct (decide (_ = w_topic_name w)) as [E|E];
    [rewrite bool_decide_eq_true_2 by done|rewrite bool_decide_eq_false_2 by done; by wp_step].
  apply update_reader_matching; [|apply announced_loopback_free].
  destruct (li_writers clock l Hinv _ _ Hw) as [_ Hi]. apply last_seq_nonneg in Hi. lia.
Qed.

Lemma writer_discovered_wp d l :
  loop_inv clock l ->
  wp (remote_writer_discovered clock d) l (fun _ l' evs => readers_only l l' /\ Forall is_reader_event evs /\
    forall eid r, available_readers (el_message_receiver l) !! eid = Some r ->
      exists r', available_readers (el_message_receiver l') !! eid = Some r' /\
        if decide (pbtd_topic_name (dwd_publication_topic_data d) = r_topic_name r)
        then writer_matching (announced_writer d) (PublicationBuiltinTopicData_qos (dwd_publication_topic_data d)) r r' (reader_events eid evs)
        else r' = r /\ reader_events eid evs = []).
Proof.
  intros Hinv. unfold remote_writer_discovered. eapply wp_mono; [eapply for_readers_wp with (Q := fun eid r r' evs =>
    if decide (pbtd_topic_name (dwd_publication_topic_data d) = r_topic_name r)
    then writer_matching (announced_writer d) (PublicationBuiltinTopicData_qos (dwd_publication_topic_data d)) r r' evs
    else r' = r /\ evs = [])|done].
  - by eapply loop_caches.
  - intros eid r tc Hr. do 2 rd_step. cbn [rs_reader]. destruct (decide (_ = r_topic_name r)) as [E|E];
      [rewrite bool_decide_eq_true_2 by done|rewrite bool_decide_eq_false_2 by done; by rd_step].
    apply update_writer_matching.
Qed.

(** C6: the announcement of a reader is offered to the writers of its topic and to
    no other endpoint, that of a writer to the readers of its topic ([reader_offered],
    [writer_offered]). Where the QoS of the two is compatible, the endpoint is
    matched with the QoS and the locators that were announced - for a reader, the
    unicast ones except those of the loopback interface -, and the application is
    told if it was not matched before; what is known of an endpoint matched before
    is kept, a new one starts with nothing acknowledged and received, and a volatile
    writer owes it none of the changes it has. Where the QoS is not compatible, the
    application is told that; a stateless reader matches nothing. Nothing is sent. *)
Theorem matching_correct now dr dw l :
  loop_inv clock l ->
  wp (handle_discovery_notification clock (now, DN_ReaderUpdated dr)) l (fun _ l' evs =>
    writers_only l l' /\ dom (el_writers l') = dom (el_writers l) /\
    forall eid w, el_writers l !! eid = Some w -> exists w', el_writers l' !! eid = Some w' /\
      if decide (sbtd_topic_name (drd_subscription_topic_data dr) = w_topic_name w)
      then reader_offered dr w w' (writer_events eid evs)
      else w' = w /\ writer_events eid evs = []) /\
  wp (handle_discovery_notification clock (now, DN_WriterUpdated dw)) l (fun _ l' evs =>
    readers_only l l' /\
    forall eid r, available_readers (el_message_receiver l) !! eid = Some r ->
      exists r', available_readers (el_message_receiver l') !! eid = Some r' /\
        if decide (pbtd_topic_name (dwd_publication_topic_data dw) = r_topic_name r)
        then writer_offered dw r r' (reader_events eid evs)
        else r' = r /\ reader_events eid evs = []).
Proof.
  intros Hinv. split.
  - eapply wp_mono; [by apply reader_discovered_wp|]. cbv beta. intros _ l' evs (H1 & _ & H2 & H3). split_and!; [done..|].
    intros eid w Hw. destruct (H3 eid w Hw) as (w' & E & H). exists w'. split; [done|].
    case_decide; [by apply reader_matching_offered|done].
  - eapply wp_mono; [by apply writer_discovered_wp|]. cbv beta. intros _ l' evs (H1 & _ & H3). split; [done|].
    intros eid r Hr. destruct (H3 eid r Hr) as (r' & E & H). exists r'. split; [done|].
    case_decide; [by apply writer_matching_offered|done].
Qed.
End matching.

(** ** Losing endpoints *)

(** Nothing but the given readers is gone, and nothing is sent. *)
Definition readers_gone (gone : GUID -> Prop) (w w' : Writer) (evs : list WriterEvent) : Prop :=
  same_writer w w' /\ w_history w' = w_history w /\ no_datagram evs /\
  forall g, (gone g -> readers w' !! g = None) /\ (~ gone g -> readers w' !! g = readers w !! g).
Definition writers_gone (gone : GUID -> Prop) (r r' : Reader) (evs : list ReaderEvent) : Prop :=
  r_my_guid r' = r_my_guid r /\ no_reader_datagram evs /\
  forall g, (gone g -> matched_writers r' !! g = None) /\ (~ gone g -> matched_writers r' !! g = matched_writers r !! g).

Lemma silent_no_datagram evs : silent evs -> no_datagram evs.
Proof. intros H m loc Hin. unfold silent in H. rewrite Forall_forall in H. by specialize (H _ Hin). Qed.

Lemma reader_lost_wp g w :
  wp (reader_lost g) w (fun _ w' evs => same_writer w w' /\ w_history w' = w_history w /\ silent evs /\
    readers w' = delete g (readers w)).
Proof.
  unfold reader_lost. wp_steps. case_decide as E; wp_steps; apply update_ack_waiters_wp; intros a evs Hs.
  - split_and!; try done. by constructor.
  - split_and!; try done. simpl. rewrite delete_id; [done|]. by apply eq_None_not_Some.
Qed.

Lemma reader_lost_gone g w : wp (reader_lost g) w (fun _ w' evs => readers_gone (fun g' => g' = g) w w' evs).
Proof.
  eapply wp_mono; [apply reader_lost_wp|]. cbv beta. intros _ w' evs (H1 & H2 & H3 & H4). split_and!; [done|done|by apply silent_no_datagram|].
  intros g'. rewrite H4. split; [intros ->; apply lookup_delete_eq|intros; by rewrite lookup_delete_ne].
Qed.

Definition guids_ok {A} (m : gmap GUID A) : Prop := forall g, is_Some (m !! g) -> GUID_ok g.

Lemma elem_of_lost {A} p (m : gmap GUID A) g :
  guids_ok m -> is_Some (m !! g) -> g ∈ filter (in_range (GuidPrefix_range p)) (bt_keys m) <-> prefix g = p.
Proof. intros Hok Hg. rewrite list_elem_of_filter, elem_of_bt_keys, in_prefix_range by auto. naive_solver. Qed.

Lemma lookup_deleted {A} (m : gmap GUID A) g g' gs :
  (if decide (g' ∈ gs) then None else delete g m !! g') = if decide (g' ∈ g :: gs) then None else m !! g'.
Proof.
  destruct (decide (g' = g)) as [->|Hne].
  - rewrite lookup_delete_eq, (decide_True (P := g ∈ g :: gs)) by set_solver. by case_decide.
  - rewrite lookup_delete_ne by done. destruct (decide (g' ∈ gs)); [rewrite decide_True by set_solver|rewrite decide_False by set_solver]; done.
Qed.

Lemma lost_lookup {A} (m : gmap GUID A) g (gs : list GUID) p (x : option A) :
  (forall g, is_Some (m !! g) -> (g ∈ gs <-> prefix g = p)) -> x = (if decide (g ∈ gs) then None else m !! g) ->
  (prefix g = p -> x = None) /\ (prefix g <> p -> x = m !! g).
Proof.
  intros Hgs ->. specialize (Hgs g). destruct (m !! g) as [rp|] eqn:E; [|by case_decide].
  split; intros Hg; [rewrite decide_True by (apply Hgs; eauto)|rewrite decide_False by (rewrite Hgs; eauto)]; done.
Qed.

Lemma participant_lost_gone p w :
  guids_ok (readers w) -> wp (participant_lost p) w (fun _ w' evs => readers_gone (fun g => prefix g = p) w w' evs).
Proof.
  intros Hok. unfold participant_lost. wp_step. wp_step. set (gs := filter _ _).
  assert (forall g, is_Some (readers w !! g) -> (g ∈ gs <-> prefix g = p)) as Hgs by (intros; by apply elem_of_lost).
  eapply wp_mono with (Q := fun _ w' evs => same_writer w w' /\ w_history w' = w_history w /\ silent evs /\
    forall g, readers w' !! g = if decide (g ∈ gs) then None else readers w !! g).
  - clear Hgs. clearbody gs. clear Hok. revert w. induction gs as [|g gs IH]; intros w; cbn [act_for].
    { wp_step. split_and!; [done|done|constructor|]. intros g. by rewrite decide_False by apply not_elem_of_nil. }
    wp_step. eapply wp_mono; [apply reader_lost_wp|]. cbv beta. intros _ w1 e1 (A1 & A2 & A3 & A4).
    eapply wp_mono; [apply IH|]. cbv beta. intros _ w2 e2 (B1 & B2 & B3 & B4).
    split_and!; [by eapply same_writer_trans|congruence|by apply Forall_app|]. intros g'. rewrite B4, A4. apply lookup_deleted.
  - cbv beta. intros _ w' evs (H1 & H2 & H3 & H4). split_and!; [done|done|by apply silent_no_datagram|]. intros g. by eapply lost_lookup.
Qed.

Lemma writer_lost_run g r tc :
  wp (remove_writer_proxy g) (mkRS r tc) (fun _ st' evs => rs_cache st' = tc /\ r_my_guid (rs_reader st') = r_my_guid r /\
    r_topic_name (rs_reader st') = r_topic_name r /\ no_reader_datagram evs /\
    matched_writers (rs_reader st') = delete g (matched_writers r)).
Proof.
  unfold remove_writer_proxy. do 2 rd_step. cbn [rs_reader]. destruct (matched_writers r !! g) eqn:E; rd_steps.
  - split_and!; try done. by repeat constructor.
  - split_and!; try done; [constructor|]. by rewrite delete_id.
Qed.

Lemma writer_lost_gone g r tc :
  wp (remove_writer_proxy g) (mkRS r tc) (fun _ st' evs => rs_cache st' = tc /\
    r_topic_name (rs_reader st') = r_topic_name r /\ writers_gone (fun g' => g' = g) r (rs_reader st') evs).
Proof.
  eapply wp_mono; [apply writer_lost_run|]. cbv beta. intros _ st' evs (H1 & H2 & H3 & H4 & H5). unfold writers_gone. split_and!; [done..|].
  intros g'. rewrite H5. split; [intros ->; apply lookup_delete_eq|intros; by rewrite lookup_delete_ne].
Qed.

Lemma reader_participant_gone p r tc :
  guids_ok (matched_writers r) ->
  wp (Reader_participant_lost p) (mkRS r tc) (fun _ st' evs => rs_cache st' = tc /\
    r_topic_name (rs_reader st') = r_topic_name r /\ writers_gone (fun g => prefix g = p) r (rs_reader st') evs).
Proof.
  intros Hok. unfold Reader_participant_lost. do 2 rd_step. cbn [rs_reader]. set (gs := filter _ _).
  assert (forall g, is_Some (matched_writers r !! g) -> (g ∈ gs <-> prefix g = p)) as Hgs by (intros; by apply elem_of_lost).
  eapply wp_mono with (Q := fun _ st' evs => rs_cache st' = tc /\ r_my_guid (rs_reader st') = r_my_guid r /\
    r_topic_name (rs_reader st') = r_topic_name r /\ no_reader_datagram evs /\
    forall g, matched_writers (rs_reader st') !! g = if decide (g ∈ gs) then None else matched_writers r !! g).
  - clear Hgs. clearbody gs. clear Hok. revert r. induction gs as [|g gs IH]; intros r; cbn [act_for].
    { rd_step. split_and!; [done..|constructor|]. intros g. by rewrite decide_False by apply not_elem_of_nil. }
    rd_step. eapply wp_mono; [apply writer_lost_run|]. cbv beta. intros _ [r1 tc1] e1 (A0 & A1 & A2 & A3 & A4). simpl in *. subst tc1.
    eapply wp_mono; [apply IH|]. cbv beta. intros _ st2 e2 (B0 & B1 & B2 & B3 & B4).
    split_and!; [done|congruence|congruence|by apply Forall_app|]. intros g'. rewrite B4, A4. apply lookup_deleted.
  - cbv beta. intros _ st' evs (H0 & H1 & H2 & H3 & H4). unfold writers_gone. split_and!; [done..|]. intros g. by eapply lost_lookup.
Qed.

(** Every GUID that is matched is a GUID: its bytes are bytes. *)
Definition matched_guids_ok (l : DPEventLoop) : Prop :=
  (forall eid w, el_writers l !! eid = Some w -> guids_ok (readers w)) /\
  (forall eid r, available_readers (el_message_receiver l) !! eid = Some r -> guids_ok (matched_writers r)).

(** C8: when a participant is lost, every writer forgets its readers and every
    reader its writers, and nothing else: the other matches, the histories and the
    caches stay.  When a single reader or writer is lost, it is the only one that
    is forgotten.  Nothing is sent. *)
Theorem lost_endpoints_unmatched `{SP : Speedy} clock now p g l :
  loop_inv clock l -> matched_guids_ok l ->
  wp (handle_discovery_notification clock (now, DN_ParticipantLost p)) l (fun _ l' evs =>
    mr_caches (el_message_receiver l') = mr_caches (el_message_receiver l) /\
    (forall eid w, el_writers l !! eid = Some w -> exists w', el_writers l' !! eid = Some w' /\
       readers_gone (fun g => prefix g = p) w w' (writer_events eid evs)) /\
    (forall eid r, available_readers (el_message_receiver l) !! eid = Some r ->
       exists r', available_readers (el_message_receiver l') !! eid = Some r' /\
       writers_gone (fun g => prefix g = p) r r' (reader_events eid evs))) /\
  wp (handle_discovery_notification clock (now, DN_ReaderLost g)) l (fun _ l' evs => writers_only l l' /\
    forall eid w, el_writers l !! eid = Some w -> exists w', el_writers l' !! eid = Some w' /\
       readers_gone (fun g' => g' = g) w w' (writer_events eid evs)) /\
  wp (handle_discovery_notification clock (now, DN_WriterLost g)) l (fun _ l' evs => readers_only l l' /\
    forall eid r, available_readers (el_message_receiver l) !! eid = Some r ->
       exists r', available_readers (el_message_receiver l') !! eid = Some r' /\
       writers_gone (fun g' => g' = g) r r' (reader_events eid evs)).
Proof.
  intros Hinv [Hgw Hgr]. pose proof (loop_caches clock l Hinv) as Hc. split_and!.
  - unfold handle_discovery_notification, remote_participant_lost. simpl. wp_step.
    eapply wp_mono; [eapply for_writers_wp with (Q := fun _ => readers_gone (fun g => prefix g = p))|].
    { intros eid w Hw. apply participant_lost_gone. eauto. }
    cbv beta. intros _ l1 e1 (-> & HP1 & _ & H1). simpl in H1.
    eapply wp_mono; [eapply for_readers_wp with (Q := fun _ => writers_gone (fun g => prefix g = p)); [done|]|].
    { intros eid r tc Hr. apply reader_participant_gone. eauto. }
    cbv beta. intros _ l2 e2 ((-> & _ & _) & HP2 & H2). simpl in *. split_and!; [done| |].
    + intros eid w Hw. destruct (H1 _ _ Hw) as (w' & E & H). exists w'. split; [done|]. rewrite writer_events_app.
      assert (writer_events eid e2 = []) as ->; [|by rewrite app_nil_r].
      clear -HP2. induction HP2 as [|[[]| | | |] e2 He HP IH]; [done|try done..]. 
    + intros eid r Hr. destruct (H2 _ _ Hr) as (r' & E & H). exists r'. split; [done|]. rewrite reader_events_app.
      assert (reader_events eid e1 = []) as ->; [|done].
      clear -HP1. induction HP1 as [|[| | | |] e2 He HP IH]; [done|try done..].
  - eapply wp_mono; [eapply for_writers_wp with (Q := fun _ => readers_gone (fun g' => g' = g))|].
    { intros eid w _. apply reader_lost_gone. }
    cbv beta. intros _ l' evs (H1 & _ & _ & H2). auto.
  - eapply wp_mono; [eapply for_readers_wp with (Q := fun _ => writers_gone (fun g' => g' = g)); [done|]|].
    { intros eid r tc _. apply writer_lost_gone. }
    cbv beta. intros _ l' evs (H1 & _ & H2). auto.
Qed.

(** ** A loop with a writer and a reader *)

Definition demo_clock : nat -> Timestamp := fun _ => mkTimestamp 20 0.
Definition demo_loop : DPEventLoop :=
  mkLoop GUID_UNKNOWN (DiscoveryDB_new GUID_UNKNOWN) demo_receiver [] {[EntityId_UNKNOWN := demo_writer]} false false.

Lemma demo_loop_inv : loop_inv demo_clock demo_loop.
Proof.
  split; [exact demo_receiver_inv| |constructor].
  intros eid w. cbn [demo_loop el_writers]. rewrite lookup_singleton_Some. intros [<- <-].
  split; [reflexivity|exact demo_writer_inv].
Qed.

(** A reader that turns up on the topic, with an address. *)
Definition demo_remote (k : Z) : GUID := mkGUID (mkPrefix (replicate 12 9)) (mkEntityId (0, 0, 1) k).
Definition demo_new_reader : DiscoveredReaderData :=
  mkDRD (mkReaderProxy (demo_remote READER_WITH_KEY_USER_DEFINED) true [demo_locator] [])
    (SubscriptionBuiltinTopicData_new (demo_remote READER_WITH_KEY_USER_DEFINED) None "t" "d" qos_none) None.
Definition demo_new_writer : DiscoveredWriterData :=
  mkDWD 5 (mkWriterProxy (demo_remote WRITER_WITH_KEY_USER_DEFINED) [demo_locator] [] None)
    (PublicationBuiltinTopicData_new_with_qos (demo_remote WRITER_WITH_KEY_USER_DEFINED) None "t" "d" qos_none).

Lemma matching_correct_witness :
  wp (handle_discovery_notification demo_clock (mkTimestamp 20 0, DN_ReaderUpdated demo_new_reader)) demo_loop (fun _ l' _ =>
    exists w' rp', el_writers l' !! EntityId_UNKNOWN = Some w' /\
      readers w' !! demo_remote READER_WITH_KEY_USER_DEFINED = Some rp' /\ unicast_locator_list rp' = [demo_locator]).
Proof.
  destruct (matching_correct demo_clock (mkTimestamp 20 0) demo_new_reader demo_new_writer demo_loop demo_loop_inv) as [H _].
  eapply wp_mono; [exact H|]. cbv beta. intros _ l' evs (_ & _ & Hw).
  destruct (Hw EntityId_UNKNOWN demo_writer eq_refl) as (w' & E & Hm). rewrite decide_True in Hm by reflexivity.
  destruct Hm as (_ & _ & _ & Hm).
  assert (compliance_failure_wrt (w_qos demo_writer) (SubscriptionBuiltinTopicData_qos (drd_subscription_topic_data demo_new_reader)) = None) as Hc
    by (vm_compute; reflexivity).
  rewrite Hc in Hm. destruct Hm as (rp' & Er & Eu & _). exists w', rp'. split; [exact E|]. rewrite Er, Eu. split; [apply lookup_insert_eq|].
  vm_compute. reflexivity.
Defined.

Lemma lost_endpoints_unmatched_witness :
  wp (handle_discovery_notification demo_clock (mkTimestamp 20 0, DN_ParticipantLost (prefix demo_reader_guid))) demo_loop (fun _ l' _ =>
    exists w', el_writers l' !! EntityId_UNKNOWN = Some w' /\ readers w' !! demo_reader_guid = None).
Proof.
  destruct (lost_endpoints_unmatched demo_clock (mkTimestamp 20 0) (prefix demo_reader_guid) demo_reader_guid demo_loop demo_loop_inv) as [H _].
  - split.
    + intros eid w. cbn [demo_loop el_writers]. rewrite lookup_singleton_Some. intros [_ <-] g [rp E].
      cbn [demo_writer readers demo_state rs_reader matched_writers] in E. apply lookup_singleton_Some in E as [<- _]. cbv. repeat (constructor || discriminate).
    + intros eid r. cbn [demo_loop el_message_receiver demo_receiver available_readers]. rewrite lookup_singleton_Some. intros [_ <-] g [rp E].
      cbn [demo_writer readers demo_state rs_reader matched_writers] in E. apply lookup_singleton_Some in E as [<- _]. cbv. repeat (constructor || discriminate).
  - eapply wp_mono; [exact H|]. cbv beta. intros _ l' evs (_ & Hw & _).
    destruct (Hw EntityId_UNKNOWN demo_writer eq_refl) as (w' & E & _ & _ & _ & Hg). exists w'. split; [exact E|].
    by apply (Hg demo_reader_guid).
Defined.
