(* ===== verification/EventLoopSafety.v ===== *)
(** * The event loop survives

    Whatever event [src/rtps/dp_event_loop.rs] handles, it returns, and readers,
    writers, caches and the channel for acknowledgments stay consistent. *)

From S2P Require Import Prelude BTree Wire SequenceNumbers Time Guid Locator WriterProxy ParameterList Qos StatusEvents Payload Submessages Headers MessageBuilder MessageWire InlineQos FragmentAssembler DdsCache Reader MessageReceiver ReaderCorrect ReaderTheorems ReaderProxy DiscoveryData DiscoveryDB HistoryBuffer Writer WriterCorrect WriterHandlers WriterTheorems ReceiverTheorems ReceiverSafety EventLoop EventLoopTheorems.

(** ** What handlers leave alone: the identity of a writer *)

Definition same_self : relation Writer := fun w w' => w_my_guid w' = w_my_guid w.
#[export] Instance same_self_preorder : PreOrder same_self.
Proof. split; [done|]. intros x y z H1 H2. unfold same_self in *. congruence. Qed.
Abbreviation keeps_self := (act_keeps same_self).

Ltac head_of m := lazymatch m with ?f _ => head_of f | _ => m end.
(** Take a handler apart down to its changes of the state. *)
Ltac keeps_step :=
  lazymatch goal with
  | |- forall _, _ => intro
  | |- act_keeps _ (match ?x with _ => _ end) => destruct x
  | |- act_keeps _ (mbind _ _) => keeps_bind
  | |- act_keeps _ (modify_st _) => apply keeps_modify; intros ?; repeat case_match; done
  | |- act_keeps _ (act_for _ _) => apply keeps_for; [apply _|]
  | |- act_keeps _ (mret _) => apply keeps_ret; apply _
  | |- act_keeps _ (emit_ev _) => apply keeps_emit; apply _
  | |- act_keeps _ get_st => apply keeps_get; apply _
  | |- act_keeps _ (lift_outcome _) => apply keeps_lift; apply _
  | |- act_keeps _ ?m => let h := head_of m in unfold h
  end.

Section self.
Context `{SP : Speedy}.

Lemma self_frags fs : forall rp, keeps_self (repair_frags_loop rp fs).
Proof. induction fs as [|f fs IH]; intros rp; cbn [repair_frags_loop]; repeat (apply IH || keeps_step). Qed.

Lemma self_cleaning w : same_self w (handle_cache_cleaning w).
Proof. unfold same_self, handle_cache_cleaning, remove_all_acked_changes_but_keep_depth. by repeat case_match. Qed.

Lemma self_timers due : keeps_self (handle_timed_event due).
Proof. repeat (apply self_frags || (apply keeps_modify; exact self_cleaning) || keeps_step). Qed.

Lemma self_commands q : keeps_self (process_writer_command q).
Proof. induction q as [|[? []] q IH]; cbn [process_writer_command]; repeat (apply IH || keeps_step). Qed.

Lemma self_acknack p a : keeps_self (handle_ack_nack p a).
Proof. repeat keeps_step. Qed.

Lemma self_tick t m : keeps_self (handle_heartbeat_tick t m).
Proof. repeat keeps_step. Qed.

Lemma self_update rp q : keeps_self (update_reader_proxy rp q).
Proof. repeat keeps_step. Qed.

Lemma self_reader_lost g : keeps_self (reader_lost g).
Proof. repeat keeps_step. Qed.

Lemma self_participant_lost p : keeps_self (participant_lost p).
Proof. repeat keeps_step. Qed.
End self.

(** ** What handlers say: the acknowledgments that leave the receiver *)

Definition act_says {St Ev A} (P : Ev -> Prop) (m : act St Ev A) : Prop :=
  forall st a st' evs, m st = Ret (a, st', evs) -> Forall P evs.

Section says.
Context {St Ev : Type} (P : Ev -> Prop).

Lemma says_ret {A} (a : A) : act_says (St:=St) P (mret a).
Proof. intros st x st' evs [= <- <- <-]. constructor. Qed.
Lemma says_get : act_says (St:=St) P get_st.
Proof. intros st x st' evs [= <- <- <-]. constructor. Qed.
Lemma says_modify f : act_says (St:=St) P (modify_st f).
Proof. intros st x st' evs [= <- <- <-]. constructor. Qed.
Lemma says_lift {A} (o : outcome A) : act_says (St:=St) P (lift_outcome o).
Proof. intros st x st' evs. unfold lift_outcome. destruct o; simpl; [|done..]. intros [= <- <- <-]. constructor. Qed.
Lemma says_emit e : P e -> act_says (St:=St) P (emit_ev e).
Proof. intros He st x st' evs [= <- <- <-]. by repeat constructor. Qed.
Lemma says_bind {A B} (m : act St Ev A) (f : A -> act St Ev B) :
  act_says P m -> (forall a, act_says P (f a)) -> act_says P (m ≫= f).
Proof.
  intros Hm Hf st b st' evs H. apply bind_run_inv in H as (a & st1 & e1 & e2 & E1 & E2 & ->).
  apply Forall_app. split; [by eapply Hm|by eapply Hf].
Qed.
Lemma says_for {A} (l : list A) (f : A -> act St Ev unit) :
  (forall x, x ∈ l -> act_says P (f x)) -> act_says P (act_for l f).
Proof.
  induction l as [|x l IH]; intros Hf; cbn [act_for]; [apply says_ret|].
  apply says_bind; [apply Hf; set_solver|]. intros _. apply IH. intros; apply Hf; set_solver.
Qed.
End says.

Lemma wp_says {St Ev A} (P : Ev -> Prop) (m : act St Ev A) st (Q : A -> St -> list Ev -> Prop) :
  act_says P m -> wp m st Q -> wp m st (fun a st' evs => Forall P evs /\ Q a st' evs).
Proof. intros Hm. rewrite !wp_run. intros (a & st' & evs & E & HQ). exists a, st', evs. eauto using Hm. Qed.

Lemma wp_keeps {St Ev A} (Rel : relation St) (m : act St Ev A) st (Q : A -> St -> list Ev -> Prop) :
  act_keeps Rel m -> wp m st Q -> wp m st (fun a st' evs => Rel st st' /\ Q a st' evs).
Proof. intros Hm. rewrite !wp_run. intros (a & st' & evs & E & HQ). exists a, st', evs. split; [done|]. split; [by eapply Hm|done]. Qed.

Definition no_ack (ev : ReceiverEvent) : Prop := is_acknack ev = false.
Definition ack_from (sms : list Submessage) (ev : ReceiverEvent) : Prop :=
  match ev with MREvAckNack _ an => exists sm, sm ∈ sms /\ sm_body sm = SmAckNack an | _ => True end.

Section receiver_says.
Context `{SP : Speedy} (clock : nat -> Timestamp).

Lemma says_with_reader eid h : act_says no_ack (with_reader clock eid h).
Proof.
  unfold with_reader. apply says_bind; [apply says_get|]. intros m. destruct (_ !! eid); [|apply says_ret].
  destruct (_ !! _); [|apply says_lift]. apply says_bind; [apply says_lift|]. intros res.
  apply says_bind; [apply says_modify|]. intros _. apply says_for. intros ev _. by apply says_emit.
Qed.

Lemma says_writer_submessage eid sm : act_says no_ack (handle_writer_submessage clock eid sm).
Proof.
  unfold handle_writer_submessage. apply says_bind; [apply says_get|]. intros m. destruct (negb _); [apply says_ret|].
  destruct (_ !! eid); [|apply says_ret]. apply says_bind; [apply says_with_reader|]. intros _.
  destruct (sm_body sm); try apply says_ret. case_decide; [by apply says_emit|apply says_ret].
Qed.

Lemma says_weaken {St A} (P Q : ReceiverEvent -> Prop) (m : act St ReceiverEvent A) :
  (forall ev, P ev -> Q ev) -> act_says P m -> act_says Q m.
Proof. intros H Hm st a st' evs E. eapply Forall_impl; [by eapply Hm|done]. Qed.

Lemma no_ack_from sms ev : no_ack ev -> ack_from sms ev.
Proof. by destruct ev. Qed.

Lemma says_parsed_message msg : act_says (ack_from (submessages msg)) (handle_parsed_message clock msg).
Proof.
  unfold handle_parsed_message. apply says_bind; [apply says_modify|]. intros _. apply says_bind; [apply says_modify|]. intros _.
  apply says_for. intros sm Hsm. apply says_bind; [|intros _; apply says_modify]. unfold handle_submessage.
  destruct (writer_submessage_ids (sm_body sm)) as [[rid wid]|].
  { eapply says_weaken; [apply no_ack_from|]. case_decide; [|apply says_writer_submessage].
    apply says_bind; [apply says_get|]. intros m. apply says_for. intros; apply says_writer_submessage. }
  destruct (sm_body sm) eqn:E; try apply says_modify; unfold handle_reader_submessage;
    (apply says_bind; [apply says_get|]; intros m; destruct (negb _); [apply says_ret|]); [|apply says_ret].
  apply says_emit. simpl. eauto.
Qed.
End receiver_says.

(** ** The parts keep the invariant *)

Definition event_ack_ok (ev : ReceiverEvent) : Prop :=
  match ev with MREvAckNack _ an => acknack_ok an | _ => True end.

Lemma send_acks_ok ch revs :
  Forall ack_ok ch -> Forall event_ack_ok revs -> Forall ack_ok (foldl send_acknack ch revs).
Proof.
  revert ch. induction revs as [|ev revs IH]; intros ch Hch H; [done|]. apply Forall_cons in H as [Hev H].
  apply IH; [|done]. unfold send_acknack. destruct ev; try done. case_match; [|done].
  apply Forall_app. split; [done|]. by apply Forall_singleton.
Qed.

Lemma no_ack_ok ev : no_ack ev -> event_ack_ok ev.
Proof. by destruct ev. Qed.

Section inv.
Context (clock : nat -> Timestamp) (Hclock : clock_steady clock).

(** The caches of the topics stay where they are. *)
Definition loop_kept (l l' : DPEventLoop) : Prop :=
  loop_inv clock l' /\ dom (mr_caches (el_message_receiver l')) = dom (mr_caches (el_message_receiver l)).

Lemma on_receiver_inv (h : MR unit) l :
  loop_inv clock l ->
  wp h (el_message_receiver l) (fun _ m' evs => Forall event_ack_ok evs /\ receiver_inv clock m') ->
  wp (on_receiver h) l (fun _ l' _ => loop_inv clock l').
Proof.
  intros [H1 H2 H3] Hh. eapply wp_mono; [by apply on_receiver_wp with (Q := fun m' evs => Forall event_ack_ok evs /\ receiver_inv clock m')|].
  cbv beta. intros _ l' evs (m' & revs & [Hf Hm'] & -> & ->). split; [done|done|by apply send_acks_ok].
Qed.

Lemma on_writer_inv eid (h : W unit) l :
  loop_inv clock l -> keeps_self h ->
  (forall w, el_writers l !! eid = Some w -> writer_inv w -> wp h w (fun _ w' _ => writer_inv w')) ->
  wp (on_writer eid h) l (fun _ l' _ => loop_inv clock l' /\ el_message_receiver l' = el_message_receiver l).
Proof.
  intros [H1 H2 H3] Hs Hh. destruct (el_writers l !! eid) as [w|] eqn:E.
  - destruct (H2 _ _ E) as [He Hw]. eapply wp_mono.
    + apply (on_writer_wp eid h l w (fun w' _ => same_self w w' /\ writer_inv w')); [done|]. apply (wp_keeps same_self); auto.
    + cbv beta. intros _ l' evs (w' & wevs & [Hw1 Hw2] & -> & _). split; [|done]. split; [done| |done].
      intros eid' w0. simpl. rewrite lookup_insert_Some. intros [[<- <-]|[_ ?]]; [|by apply H2].
      split; [|done]. unfold w_entity_id in *. by rewrite Hw1.
  - eapply wp_mono; [by apply on_writer_none|]. by intros _ l' evs [-> _].
Qed.

Lemma for_writers_inv (h : W unit) l :
  loop_inv clock l -> keeps_self h -> (forall w, writer_inv w -> wp h w (fun _ w' _ => writer_inv w')) ->
  wp (for_writers h) l (fun _ l' _ => loop_inv clock l' /\ el_message_receiver l' = el_message_receiver l).
Proof.
  intros Hl Hs Hh. unfold for_writers. wp_step. wp_step.
  apply (wp_for (fun l' _ => loop_inv clock l' /\ el_message_receiver l' = el_message_receiver l)); [done|].
  intros eid l1 evs _ [H1 E1]. eapply wp_mono; [by apply on_writer_inv; auto|]. cbv beta. intros _ l2 _ [? ?].
  split; [done|congruence].
Qed.

(** A handler of a reader that is good for the reader, wherever it is. *)
Definition reader_safe (h : Timestamp -> Timestamp -> R unit) : Prop :=
  forall now later r tc, reader_inv (mkRS r tc) -> clock_ok later tc ->
    wp (h now later) (mkRS r tc) (fun _ st' _ => reader_inv st' /\ reader_kept later (mkRS r tc) st').

Lemma with_reader_inv eid h l :
  loop_inv clock l -> reader_safe h ->
  wp (on_receiver (with_reader clock eid h)) l (fun _ l' _ => loop_inv clock l').
Proof.
  intros Hl Hh. apply on_receiver_inv; [done|]. apply wp_says.
  - eapply says_weaken; [apply no_ack_ok|apply says_with_reader].
  - eapply wp_mono; [apply with_reader_good; [done|apply Hl|]|by intros _ m' _ [? _]]. intros. by apply Hh.
Qed.

Lemma for_readers_inv (h : R unit) l :
  loop_inv clock l -> reader_safe (fun _ _ => h) -> wp (for_readers clock h) l (fun _ l' _ => loop_inv clock l').
Proof.
  intros Hl Hh. unfold for_readers. wp_step. wp_step. apply (wp_for (fun l' _ => loop_inv clock l')); [done|].
  intros eid l1 evs _ H1. unfold on_reader. by apply with_reader_inv.
Qed.

(** *** Readers *)

Lemma safe_same_cache (h : R unit) :
  (forall st, reader_inv st -> wp h st (fun _ st' _ => reader_good st st')) ->
  (forall r tc, wp h (mkRS r tc) (fun _ st' _ => rs_cache st' = tc /\ r_my_guid (rs_reader st') = r_my_guid r /\
     r_topic_name (rs_reader st') = r_topic_name r)) -> reader_safe (fun _ _ => h).
Proof.
  intros H1 H2 now later r tc Hinv _. specialize (H1 _ Hinv). specialize (H2 r tc). rewrite wp_run in *.
  destruct H1 as ([] & st1 & e1 & E1 & [G1 _]). destruct H2 as ([] & st2 & e2 & E2 & G2 & G3 & G4). rewrite E1 in E2. injection E2 as <- <-.
  eexists _, _, _. split; [exact E1|]. split; [done|]. unfold reader_kept; simpl; split_and!; [done|done|left; congruence].
Qed.

Lemma safe_update_writer p q : wp_inv p -> reader_safe (fun _ _ => update_writer_proxy p q).
Proof.
  intros Hp. apply safe_same_cache; [intros; by apply matched_good|]. intros r tc.
  eapply wp_mono; [apply update_writer_matching|]. cbv beta. intros _ st' _ (? & ? & H & _). done.
Qed.

Lemma safe_remove_writer g : reader_safe (fun _ _ => remove_writer_proxy g).
Proof.
  apply safe_same_cache; [intros; by apply writer_lost_good|]. intros r tc.
  eapply wp_mono; [apply writer_lost_run|]. cbv beta. intros _ st' _ (? & ? & ? & _). done.
Qed.

Lemma safe_participant_lost p : reader_safe (fun _ _ => Reader_participant_lost p).
Proof.
  apply safe_same_cache; [intros; by apply reader_participant_lost_good|]. intros r tc.
  unfold Reader_participant_lost. do 2 rd_step. cbn [rs_reader].
  apply (wp_for (fun st' _ => rs_cache st' = tc /\ r_my_guid (rs_reader st') = r_my_guid r /\ r_topic_name (rs_reader st') = r_topic_name r)); [done|].
  intros g [r1 tc1] e1 _ (E1 & E2 & E3). eapply wp_mono; [apply writer_lost_run|]. cbv beta. simpl in *.
  intros _ st' _ (? & ? & ? & _). split_and!; congruence.
Qed.

Lemma safe_timed_event : reader_safe (fun now _ => Reader_handle_timed_event now).
Proof.
  intros now. enough (reader_safe (fun _ _ => Reader_handle_timed_event now)) as H by apply (H now).
  apply safe_same_cache; [intros; by apply timer_good|]. intros r tc. eapply wp_mono; [apply timer_wp|].
  cbv beta. intros _ st' _ (? & _ & n & ->). done.
Qed.

(** *** News of discovery *)

Lemma fresh_reader_inv h rp :
  all_acked_before rp = 0 -> unsent_changes rp = ∅ -> pending_gap rp = ∅ -> frags_requested rp = ∅ -> proxy_inv h rp.
Proof.
  intros H1 H2 H3 H4. split; rewrite ?H1, ?H2, ?H3, ?H4; [unfold i64_max; lia|set_solver|set_solver|]. intros sn bv E. by rewrite lookup_empty in E.
Qed.

Lemma fresh_writer_inv p : ack_base p = 1 -> changes p = ∅ -> wp_inv p.
Proof. intros H1 H2. unfold wp_inv. rewrite H1, H2. split; [unfold i64_max; lia|]. split; [|done]. intros sn [? E]. by rewrite lookup_empty in E. Qed.

Lemma update_reader_inv rp q w :
  (forall h, proxy_inv h rp) -> writer_inv w -> wp (update_reader_proxy rp q) w (fun _ w' _ => writer_inv w').
Proof. intros Hp Hw. eapply wp_mono; [by apply update_reader_good|]. by intros _ w' evs [? _]. Qed.

Lemma good_inv {A} (m : W A) w : wp m w good -> wp m w (fun _ w' _ => writer_inv w').
Proof. intros H. eapply wp_mono; [exact H|]. by intros _ w' evs [? _]. Qed.

Section events.
Context `{SP : Speedy, !SpeedyLaws SP}.

Lemma reader_discovered_inv d l : loop_inv clock l -> wp (remote_reader_discovered d) l (fun _ l' _ => loop_inv clock l').
Proof.
  intros Hl. eapply wp_mono; [apply for_writers_inv; [done| |]|by intros _ l' _ [? _]].
  - repeat (apply self_update || keeps_step).
  - intros w Hw. wp_step. wp_step. case_bool_decide; [|by wp_step]. apply update_reader_inv; [|done].
    intros h. by apply fresh_reader_inv.
Qed.

Lemma writer_discovered_inv d l : loop_inv clock l -> wp (remote_writer_discovered clock d) l (fun _ l' _ => loop_inv clock l').
Proof.
  intros Hl. apply for_readers_inv; [done|]. intros now later r tc Hinv Hclk. do 2 rd_step. case_bool_decide.
  - assert (wp_inv (announced_writer d)) as Hw by (by apply fresh_writer_inv). by apply (safe_update_writer _ _ Hw now).
  - rd_step. split; [done|]. done.
Qed.

Lemma participant_updated_inv p l : loop_inv clock l -> wp (loop_update_participant clock p) l (fun _ l' _ => loop_inv clock l').
Proof.
  intros Hl. unfold loop_update_participant. wp_step. wp_step. destruct (find_participant_proxy _ p) as [dp|]; [|by wp_step].
  wp_step. eapply wp_mono; [apply (wp_for (fun l' _ => loop_inv clock l')); [done|]|].
  - intros [[weid reid] ep] l1 evs _ H1. eapply wp_mono; [apply on_writer_inv; [done| |]|by intros _ l' _ [? _]].
    + repeat (apply self_update || keeps_step).
    + intros w _ Hw. wp_step. wp_step. case_match; [|by wp_step]. apply update_reader_inv; [|done].
      intros h. by apply fresh_reader_inv.
  - cbv beta. intros _ l1 _ H1. apply (wp_for (fun l' _ => loop_inv clock l')); [done|].
    intros [[weid reid] ep] l2 evs _ H2. apply with_reader_inv; [done|]. intros now later r tc Hinv Hclk. do 2 rd_step. case_match.
    + assert (wp_inv (as_writer_proxy dp true (Some weid))) as Hw by (by apply fresh_writer_inv). by apply (safe_update_writer _ _ Hw now).
    + rd_step. split; done.
Qed.

Lemma notification_inv dnt l : loop_inv clock l -> wp (handle_discovery_notification clock dnt) l (fun _ l' _ => loop_inv clock l').
Proof.
  intros Hl. unfold handle_discovery_notification. destruct dnt as [t [d|g|d|g|p|p|g m]]; simpl.
  - by apply reader_discovered_inv.
  - eapply wp_mono; [apply for_writers_inv; [done|apply self_reader_lost|]|by intros _ l' _ [? _]].
    intros w Hw. eapply wp_mono; [by apply reader_lost_good|]. by intros _ w' _ [? _].
  - by apply writer_discovered_inv.
  - apply for_readers_inv; [done|apply safe_remove_writer].
  - by apply participant_updated_inv.
  - unfold remote_participant_lost. wp_step. eapply wp_mono; [apply for_writers_inv; [done|apply self_participant_lost|]|].
    + intros w Hw. eapply wp_mono; [by apply participant_lost_good|]. by intros _ w' _ [? _].
    + cbv beta. intros _ l1 _ [H1 _]. apply for_readers_inv; [done|apply safe_participant_lost].
  - eapply wp_mono; [apply on_writer_inv; [done|apply self_tick|]|by intros _ l' _ [? _]].
    intros w _ Hw. by apply good_inv, heartbeat_tick_good.
Qed.

(** *** The clock and the caches *)

Lemma receiver_inv_ticks m n :
  (mr_ticks m <= n)%nat -> receiver_inv clock m ->
  receiver_inv clock (mkReceiver (available_readers m) (own_guid_prefix m) (mr_source m) (mr_caches m) n).
Proof. intros Hn [H1 H2]. split; [done|]. intros name tc E. destruct (H2 _ _ E). split; [done|]. by eapply clock_ok_later. Qed.

Lemma read_clock_inv l :
  loop_inv clock l -> wp (read_clock clock) l (fun now l' evs => loop_inv clock l' /\ evs = [] /\
    now = clock (mr_ticks (el_message_receiver l)) /\
    mr_caches (el_message_receiver l') = mr_caches (el_message_receiver l) /\
    mr_ticks (el_message_receiver l') = S (mr_ticks (el_message_receiver l))).
Proof.
  intros [H1 H2 H3]. unfold read_clock. wp_steps. split_and!; try done. split; [|done|done].
  apply receiver_inv_ticks; [lia|done].
Qed.

Definition cache_kept (now : Timestamp) (tc tc' : TopicCache) : Prop :=
  tc_inv tc' /\ (changes_reallocated_up_to tc' = changes_reallocated_up_to tc \/
                 changes_reallocated_up_to tc' = Timestamp_sub_duration now (Duration_from_secs 5)).

Lemma collect_topic_run now tc :
  tc_inv tc -> clock_ok now tc -> exists tc', garbage_collect_topic now tc = Ret tc' /\ cache_kept now tc tc'.
Proof.
  intros Hi Hc. unfold garbage_collect_topic. destruct (bt_last _); [|exists tc; split; [done|split; [done|by left]]].
  case_bool_decide; [|exists tc; split; [done|split; [done|by left]]].
  assert (exists tc', remove_changes_before now tc Timestamp_ZERO = Ret tc' /\
    changes_reallocated_up_to tc' = Timestamp_sub_duration now (Duration_from_secs 5)) as (tc' & E & El).
  { unfold remove_changes_before. rewrite bool_decide_eq_true_2 by exact Hc. simpl. by eexists. }
  exists tc'. split; [done|]. split; [by eapply remove_changes_before_inv|by right].
Qed.

Lemma garbage_collect_run now caches :
  (forall name tc, caches !! name = Some tc -> tc_inv tc /\ clock_ok now tc) ->
  exists c, garbage_collect now (mkDDSCache caches) = Ret c /\
    forall name, match caches !! name with
                 | Some tc => exists tc', topic_caches c !! name = Some tc' /\ cache_kept now tc tc'
                 | None => topic_caches c !! name = None
                 end.
Proof.
  intros H. unfold garbage_collect. simpl.
  destruct (outcome_fold_ret (fun acc => forall name, match caches !! name with
      | Some tc => exists tc', acc !! name = Some tc' /\ cache_kept now tc tc' | None => acc !! name = None end)
    (fun acc e => tc ← garbage_collect_topic now e.2; Ret (<[e.1 := tc]> acc)) caches (map_to_list caches)) as (c & E & Hc).
  - intros name. destruct (caches !! name) as [tc|] eqn:E; [|done]. exists tc. destruct (H _ _ E). split; [done|]. split; [done|by left].
  - intros acc [name tc] Hacc Hin%elem_of_map_to_list. destruct (H _ _ Hin) as [Hi Hk].
    destruct (collect_topic_run now tc Hi Hk) as (tc' & E & Hk'). simpl. rewrite E. eexists. split; [done|].
    intros name'. specialize (Hacc name'). destruct (decide (name' = name)) as [->|Hne].
    + rewrite Hin. exists tc'. by rewrite lookup_insert_eq.
    + destruct (caches !! name') as [tc0|]; by rewrite lookup_insert_ne.
  - rewrite E. simpl. eauto.
Qed.

Lemma clean_caches_inv l : loop_inv clock l -> wp (clean_caches clock) l (fun _ l' _ => loop_inv clock l').
Proof.
  intros Hl. unfold clean_caches. wp_step. eapply wp_mono; [by apply read_clock_inv|]. cbv beta.
  intros now l1 _ ([[Hr Hc] H2 H3] & _ & -> & Ec & Et). wp_step. wp_step. rewrite Ec in *.
  set (n := mr_ticks (el_message_receiver l)) in *.
  assert (forall name tc, mr_caches (el_message_receiver l) !! name = Some tc -> tc_inv tc /\ clock_ok (clock n) tc) as Hck.
  { destruct Hl as [[_ Hc0] _ _]. exact Hc0. }
  destruct (garbage_collect_run (clock n) _ Hck) as (c & E & Hcs).
  wp_step. eapply wp_lift; [exact E|]. wp_step. split; [|done|done]. split; simpl.
  - intros eid r Er. destruct (Hr _ _ Er) as (Heid & tc & Htc & Hi & Hw & Hf). split; [done|]. specialize (Hcs (r_topic_name r)).
    rewrite Htc in Hcs. destruct Hcs as (tc' & E' & Hi' & _). exists tc'. split; [done|]. by split.
  - intros name tc' E'. specialize (Hcs name). destruct (mr_caches (el_message_receiver l) !! name) as [tc|] eqn:Etc; [|congruence].
    destruct Hcs as (tc'' & E'' & Hi' & Hlim). simplify_eq. split; [done|]. rewrite Et. unfold clock_ok.
    destruct (Hck _ _ Etc) as [_ Hk]. destruct Hlim as [-> | ->].
    + etrans; [exact Hk|]. apply Hclock. lia.
    + apply Hclock. lia.
Qed.

(** *** Local endpoints *)

Definition id_ok (eid : EntityId) : Prop := EntityId_ok eid /\ token_kind (entity_kind eid).
Definition reader_ing_ok (m : MessageReceiver) (ri : ReaderIngredients) : Prop :=
  id_ok (entity_id (ri_guid ri)) /\ ri_like_stateless ri && is_reliable (ri_qos_policy ri) = false /\
  exists tc, mr_caches m !! ri_topic_name ri = Some tc /\ topic_name tc = ri_topic_name ri.
Definition writer_ing_ok (wi : WriterIngredients) : Prop :=
  id_ok (entity_id (wi_guid wi)) /\ wi_like_stateless wi && is_reliable (wi_qos_policies wi) = false.

Lemma deadline_timer_wp st :
  wp set_requested_deadline_check_timer st (fun _ st' _ => st' = st).
Proof. unfold set_requested_deadline_check_timer. do 2 rd_step. case_match; by rd_step. Qed.

Lemma add_reader_inv m r tc :
  receiver_inv clock m -> mr_caches m !! r_topic_name r = Some tc -> matched_writers r = ∅ -> fragment_assemblers r = ∅ ->
  receiver_inv clock (add_reader m r) /\ mr_caches (add_reader m r) = mr_caches m.
Proof.
  intros [H1 H2] Htc Hw Hf. unfold add_reader. destruct (available_readers m !! r_entity_id r); [done|]. split; [|done]. split; [|done].
  intros eid r'. simpl. rewrite lookup_insert_Some. intros [[<- <-]|[_ ?]]; [|by apply H1]. split; [done|]. exists tc.
  split; [done|]. destruct (H2 _ _ Htc) as [Hi _]. split; [done|]. simpl. rewrite Hw, Hf.
  split; [intros g p E|intros g fa E]; by rewrite lookup_empty in E.
Qed.

Lemma add_local_reader_inv ri l :
  loop_inv clock l -> reader_ing_ok (el_message_receiver l) ri ->
  wp (add_local_reader clock ri) l (fun _ l' _ => loop_inv clock l' /\
    mr_caches (el_message_receiver l') = mr_caches (el_message_receiver l)).
Proof.
  intros Hl ([Hid Hk] & Hs & tc & Htc & Hn). unfold add_local_reader. wp_step. wp_step. wp_step.
  eapply wp_mono; [by apply read_clock_inv|]. cbv beta. intros now l1 _ ([H1 H2 H3] & _ & _ & Ec & _). wp_step. wp_step.
  rewrite Ec, Htc. wp_step. eapply wp_lift.
  { unfold Reader_new. rewrite Hn, String.eqb_refl, Hs. reflexivity. }
  destruct (entity_token_roundtrip _ Hid Hk) as [(t & Et & _) _].
  wp_step. eapply wp_lift; [exact Et|]. wp_step. wp_step.
  wp_step. set (st := mkRS _ _). pose proof (deadline_timer_wp st) as Hd. apply wp_run in Hd as ([] & st' & evs & Ed & ->).
  eapply wp_lift; [exact Ed|]. wp_step. apply wp_emit_map. wp_step. cbn [fst snd rs_reader st].
  destruct (add_reader_inv (el_message_receiver l1) (rs_reader st) tc) as [Hi Hm]; [done|by rewrite Ec|done|done|].
  split; [|exact (eq_trans Hm Ec)]. by split.
Qed.

Lemma remove_local_reader_inv g l : loop_inv clock l -> wp (remove_local_reader g) l (fun _ l' _ => loop_inv clock l').
Proof.
  intros [[H0 H1] H2 H3]. unfold remove_local_reader. wp_step. wp_step. unfold remove_reader. wp_step. wp_step.
  match goal with |- wp ?m ?l' _ => assert (loop_inv clock l') as H end.
  { split; [|done|done]. split; [|done]. intros eid r. simpl. rewrite lookup_delete_Some. intros [_ ?]. by apply H0. }
  case_match; by wp_step.
Qed.

Lemma Writer_new_inv g tn s q :
  s && is_reliable q = false -> exists w evs, Writer_new g tn s q = Ret (w, evs) /\ writer_inv w /\ w_my_guid w = g.
Proof.
  intros Hs. unfold Writer_new. rewrite Hs. 
  assert (forall period, writer_inv (mkWriter LittleEndian 1 true period (Duration_from_secs (2 * 60)) NACK_RESPONSE_DELAY NACK_RESPONSE_DELAY 1000000
           1024 g ∅ 0 0 s tn HistoryBuffer_new q None)) as Hi.
  { intros period. split; simpl; [apply hist_new_inv|unfold frag_config; simpl; lia| |].
    - intros sn cc E. by unfold get_by_sn in E.
    - intros g' rp E. by rewrite lookup_empty in E. }
  destruct (reliability q) as [[]|]; [| |]; try (eexists _, _; split; [reflexivity|]; split; [apply Hi|done]).
  destruct (liveliness q) as [[]|]; simpl; eexists _, _; (split; [reflexivity|]; split; [apply Hi|done]).
Qed.

Lemma add_local_writer_inv wi l :
  loop_inv clock l -> writer_ing_ok wi -> wp (add_local_writer wi) l (fun _ l' _ => loop_inv clock l').
Proof.
  intros [H1 H2 H3] ([Hid Hk] & Hs). unfold add_local_writer. wp_step. wp_step.
  destruct (Writer_new_inv (wi_guid wi) (wi_topic_name wi) _ _ Hs) as (w & evs & E & Hw & Hg).
  wp_step. eapply wp_lift; [exact E|]. wp_step. apply wp_emit_map.
  destruct (entity_token_roundtrip _ Hid Hk) as [(t & Et & _) _].
  wp_step. eapply wp_lift; [exact Et|]. wp_step. wp_step. wp_step. split; [done| |done].
  intros eid w'. simpl. rewrite lookup_insert_Some. intros [[<- <-]|[_ ?]]; [done|by apply H2].
Qed.

Lemma remove_local_writer_inv g l : loop_inv clock l -> wp (remove_local_writer g) l (fun _ l' _ => loop_inv clock l').
Proof.
  intros Hl. unfold remove_local_writer. wp_step. wp_step. case_match; [|by wp_step]. wp_steps.
  destruct Hl as [H1 H2 H3]. split; [done| |done]. intros eid w1. simpl. rewrite lookup_delete_Some. intros [_ ?]. by apply H2.
Qed.

(** *** Packets, commands and timers *)

(** No fragments, and no sequence numbers at the end of their range. *)
Definition packet_ok (bs : bytes) : Prop :=
  forall msg, Message_read_from_buffer LittleEndian bs = Ret (Some msg) ->
    Forall (fun sm => sm_safe sm /\ match sm_body sm with SmAckNack an => ns_in_range (reader_sn_state an) | _ => True end) (submessages msg).

Lemma packet_inv bs l :
  loop_inv clock l -> packet_ok bs -> wp (on_receiver (handle_received_packet clock bs)) l (fun _ l' _ => loop_inv clock l').
Proof.
  intros Hl Hp. pose proof (li_receiver clock l Hl) as Hr. apply on_receiver_inv; [done|].
  unfold handle_received_packet. case_match; [wp_step; by split; [constructor|]|].
  destruct (read_any_message LittleEndian bs) as (r & E & Hok). wp_step. eapply wp_lift; [exact E|]. cbn [app].
  destruct r as [msg|]; [|wp_step; by split; [constructor|]]. specialize (Hp msg E). destruct (Hok _ eq_refl) as [_ Hb].
  assert (Forall sm_safe (submessages msg)) as Hsafe by (eapply Forall_impl; [exact Hp|]; by intros sm [? _]).
  eapply wp_mono; [apply (wp_says _ _ _ _ (says_parsed_message clock msg) (parsed_message_good clock Hclock msg _ Hr Hb Hsafe))|].
  cbv beta. intros _ m' evs (Hs & Hi & _). split; [|done]. eapply Forall_impl; [exact Hs|]. intros [| |]; try done.
    intros (sm & Hin & Esm). rewrite Forall_forall in Hp, Hb. destruct (Hp _ Hin) as [_ Hrng]. specialize (Hb _ Hin).
    rewrite Esm in Hrng, Hb. split; [apply Hb|done].
Qed.

(** Each command is acceptable in the state in which it is met. *)
Fixpoint commands_ok (w : Writer) (queue : list (Timestamp * WriterCommand)) : Prop :=
  match queue with
  | [] => True
  | (now, WCData data opts sn) :: queue =>
      data_ok w now data sn /\
      forall w' evs, process_data_command now data opts sn w = Ret (tt, w', evs) -> commands_ok w' queue
  | (_, WCWaitForAcknowledgments ch) :: queue =>
      forall b w' evs, process_wait_command ch w = Ret (b, w', evs) -> commands_ok w' queue
  end.

Lemma commands_inv queue w :
  writer_inv w -> commands_ok w queue -> wp (process_writer_command queue) w (fun _ w' _ => writer_inv w').
Proof.
  revert w. induction queue as [|[now [data opts sn|ch]] queue IH]; intros w Hw Hok; cbn [process_writer_command].
  - by wp_step.
  - destruct Hok as [Hd Hok]. pose proof (process_data_good w now data opts sn Hw Hd) as H.
    apply wp_run in H as ([] & w1 & e1 & E & Hw1 & _). wp_step. apply wp_run. exists tt, w1, e1. split; [done|]. eapply wp_mono; [apply IH; eauto|]. done.
  - pose proof (process_wait_good w ch Hw) as H. apply wp_run in H as (b & w1 & e1 & E & Hw1 & _). wp_step.
    apply wp_run. exists b, w1, e1. split; [done|]. destruct b; [|by wp_step]. eapply wp_mono; [apply IH; eauto|]. done.
Qed.

Lemma notify_inv eids l : loop_inv clock l -> wp (on_receiver (notify_data_to_readers clock eids)) l (fun _ l' _ => loop_inv clock l').
Proof.
  intros Hl. apply on_receiver_inv; [done|]. apply wp_says.
  - apply says_for. intros eid _. eapply says_weaken; [apply no_ack_ok|apply says_with_reader].
  - apply (wp_for (fun m' _ => receiver_inv clock m')); [apply Hl|]. intros eid m' evs _ Hm'.
    eapply wp_mono; [apply with_reader_good; [done|done|]|by intros _ ? _ [? _]]. intros r tc _ Hi Hk. unfold notify_cache_change. rd_step. done.
Qed.

Lemma preemptive_inv l : loop_inv clock l -> wp (on_receiver (receiver_send_preemptive_acknacks clock)) l (fun _ l' _ => loop_inv clock l').
Proof.
  intros Hl. apply on_receiver_inv; [done|]. apply wp_says.
  - apply says_bind; [apply says_get|]. intros m. apply says_for. intros eid _. eapply says_weaken; [apply no_ack_ok|apply says_with_reader].
  - unfold receiver_send_preemptive_acknacks. wp_step. wp_step. apply (wp_for (fun m' _ => receiver_inv clock m')); [apply Hl|]. intros eid m' evs _ Hm'.
    eapply wp_mono; [apply with_reader_good; [done|done|]|by intros _ ? _ [? _]]. intros r tc _ Hi Hk.
    eapply wp_mono; [by apply preemptive_good|]. by intros _ st' _ [-> _].
Qed.

Lemma writer_command_inv eid queue l :
  loop_inv clock l -> (forall w, el_writers l !! eid = Some w -> commands_ok w queue) ->
  wp (handle_writer_command clock eid queue) l (fun _ l' _ => loop_inv clock l').
Proof.
  intros Hl Hok. unfold handle_writer_command. wp_step. eapply wp_mono; [apply on_writer_inv; [done| |]|].
  - repeat (apply self_commands || keeps_step).
  - intros w Hw Hi. wp_step. eapply wp_mono; [apply commands_inv; auto|]. intros. by wp_step.
  - cbv beta. intros _ l1 _ [H1 _]. wp_step. wp_step. eapply wp_mono; [by apply notify_inv|]. done.
Qed.

Lemma acknack_action_inv l : loop_inv clock l -> wp handle_writer_acknack_action l (fun _ l' _ => loop_inv clock l').
Proof.
  intros [H1 H2 H3]. unfold handle_writer_acknack_action. wp_step. wp_step. wp_step. wp_step.
  apply (wp_for (fun l' _ => loop_inv clock l')).
  - split; [done|done|constructor].
  - intros [p a] l1 evs Hin Hl1. rewrite Forall_forall in H3. specialize (H3 _ Hin). unfold ack_ok in H3. simpl in H3.
    destruct a as [an|]; [|done]. eapply wp_mono; [apply on_writer_inv; [done| |]|by intros _ l' _ [? _]].
    + repeat (apply self_acknack || keeps_step).
    + intros w _ Hw. wp_step. wp_step. case_match; [|by wp_step]. by apply good_inv, handle_acknack_good.
Qed.

Lemma writer_timers_inv eid due l : loop_inv clock l -> wp (handle_writer_timed_event eid due) l (fun _ l' _ => loop_inv clock l').
Proof.
  intros Hl. eapply wp_mono; [apply on_writer_inv; [done|apply self_timers|]|by intros _ l' _ [? _]].
  intros w _ Hw. unfold handle_timed_event. apply (wp_for (fun w' _ => writer_inv w')); [done|].
  intros [now e] w' evs _ Hw'. by apply good_inv, timed_event_good.
Qed.

Lemma stop_commands_inv cmds d l : loop_inv clock l -> wp (handle_stop_commands cmds d) l (fun _ l' _ => loop_inv clock l').
Proof.
  revert l. induction cmds as [|[] cmds IH]; intros l Hl; cbn [handle_stop_commands].
  - destruct d; [|by wp_step]. wp_step. destruct Hl; by split.
  - wp_step. destruct Hl; by split.
  - wp_step. wp_step. eapply wp_mono; [apply IH; destruct Hl; by split|]. done.
Qed.

(** ** Events *)

(** What the other threads and the network promise: packets without fragments and
    with sequence numbers away from the end of their range, ingredients with valid
    ids, the cache of their topic and a QoS that fits, and new changes with
    ascending numbers and times. *)
Record channels_ok (l : DPEventLoop) (ch : Channels) : Prop := {
  co_packets : forall t bs, bs ∈ default [] (ch_udp ch !! t) -> packet_ok bs;
  co_readers : Forall (reader_ing_ok (el_message_receiver l)) (ch_add_reader ch);
  co_writers : Forall writer_ing_ok (ch_add_writer ch);
  co_commands : forall eid w, el_writers l !! eid = Some w -> commands_ok w (ch_writer_commands ch eid);
}.

Lemma for_inv {A} (xs : list A) (f : A -> L unit) l :
  loop_inv clock l -> (forall x l, x ∈ xs -> loop_inv clock l -> wp (f x) l (fun _ l' _ => loop_inv clock l')) ->
  wp (act_for xs f) l (fun _ l' _ => loop_inv clock l').
Proof. intros Hl Hf. apply (wp_for (fun l' _ => loop_inv clock l')); [done|]. intros x l' evs Hx Hl'. by apply Hf. Qed.

Lemma add_readers_inv ris l :
  loop_inv clock l -> Forall (reader_ing_ok (el_message_receiver l)) ris ->
  wp (act_for ris (add_local_reader clock)) l (fun _ l' _ => loop_inv clock l').
Proof.
  intros Hl Hr. eapply wp_mono; [apply (wp_for (fun l' _ => loop_inv clock l' /\
    mr_caches (el_message_receiver l') = mr_caches (el_message_receiver l))); [done|]|by intros _ l' _ [? _]].
  intros ri l' evs Hin [Hl' Ec]. rewrite Forall_forall in Hr. specialize (Hr _ Hin).
  eapply wp_mono; [apply add_local_reader_inv; [done|]|].
  - destruct Hr as (H1 & H2 & H3). split_and!; [done|done|]. by rewrite Ec.
  - cbv beta. intros _ l2 _ [? ?]. split; [done|congruence].
Qed.

Lemma fixed_token_inv t ch l :
  loop_inv clock l -> channels_ok l ch -> wp (handle_fixed_token clock t ch) l (fun _ l' _ => loop_inv clock l').
Proof.
  intros Hl [H1 H2 H3 H4]. unfold handle_fixed_token. rewrite Forall_forall in H3.
  repeat case_match; [by apply stop_commands_inv|..|by wp_step].
  - apply for_inv; [done|]. intros bs l' Hin Hl'. apply packet_inv; eauto.
  - by apply add_readers_inv.
  - apply for_inv; [done|]. intros; by apply remove_local_reader_inv.
  - apply for_inv; [done|]. intros; apply add_local_writer_inv; auto.
  - apply for_inv; [done|]. intros; by apply remove_local_writer_inv.
  - by apply acknack_action_inv.
  - apply for_inv; [done|]. intros; by apply notification_inv.
  - wp_step. eapply wp_mono; [by apply preemptive_inv|]. intros. by wp_step.
  - wp_step. eapply wp_mono; [by apply clean_caches_inv|]. intros. by wp_step.
Qed.

Lemma event_inv t ch l :
  loop_inv clock l -> channels_ok l ch -> wp (handle_event clock t ch) l (fun _ l' _ => loop_inv clock l').
Proof.
  intros Hl Hc. unfold handle_event. destruct (EntityId_from_token t) as [eid|eid|ft]; [| |by apply fixed_token_inv].
  - case_match; [|case_match; [|by wp_step]].
    + apply with_reader_inv; [done|]. intros now later r tc Hi Hk. unfold process_command.
      apply (wp_for (fun st' _ => reader_inv st' /\ reader_kept later (mkRS r tc) st')); [done|]. intros c st' evs _ Hst. by wp_step.
    + apply writer_command_inv; [done|]. apply Hc.
  - case_match; [|case_match; [|by wp_step]].
    + apply for_inv; [done|]. intros _ l' _ Hl'. apply with_reader_inv; [done|apply safe_timed_event].
    + by apply writer_timers_inv.
Qed.

(** The same of all events, each of which is acceptable in the state in which it
    is met. *)
Fixpoint events_ok (l : DPEventLoop) (events : list (DiscoveryDB * Z * Channels)) : Prop :=
  match events with
  | [] => True
  | (db, token, ch) :: events =>
      if el_stopped l then True
      else channels_ok (el_set_db l db) ch /\
        forall l' evs, handle_event clock token ch (el_set_db l db) = Ret (tt, l', evs) -> events_ok l' events
  end.

Lemma stopped_loop events l : el_stopped l = true -> wp (event_loop clock events) l (fun _ l' evs => l' = l /\ evs = []).
Proof.
  intros Hs. unfold event_loop. induction events as [|[[db t] ch] events IH]; cbn [act_for]; [by wp_step|].
  wp_step. wp_step. wp_step. rewrite Hs. wp_step. exact IH.
Qed.

Lemma events_inv events l :
  loop_inv clock l -> events_ok l events -> wp (event_loop clock events) l (fun _ l' _ => loop_inv clock l').
Proof.
  revert l. induction events as [|[[db t] ch] events IH]; intros l Hl Hok; [by apply wp_ret|].
  destruct (el_stopped l) eqn:Es.
  { eapply wp_mono; [by apply stopped_loop|]. by intros _ l' _ [-> _]. }
  unfold event_loop. cbn [act_for]. simpl in Hok. rewrite Es in Hok. destruct Hok as [Hc Hok].
  assert (loop_inv clock (el_set_db l db)) as Hl' by (destruct Hl; by split).
  pose proof (event_inv t ch _ Hl' Hc) as H. apply wp_run in H as ([] & l1 & e1 & E & Hl1).
  wp_step. wp_step. wp_step. rewrite Es. wp_step. wp_step. apply wp_run. exists tt, l1, e1. split; [exact E|].
  eapply wp_mono; [apply (IH l1); eauto|]. done.
Qed.
End events.
End inv.


(** ** Four events: two packets - a HEARTBEAT and bytes that are no message -, a
    new writer, a timer of the reader, and the acknowledgments *)

Definition demo_channels : Channels :=
  mkChannels [] false {[USER_TRAFFIC_LISTENER_TOKEN := [demo_packet; [1; 2; 3]]]} [] []
    [mkWI (mkGUID demo_prefix (mkEntityId (0, 0, 5) WRITER_WITH_KEY_USER_DEFINED)) "t" false demo_reliable] []
    [] (fun _ => []) (fun _ => []) (fun _ => 1%nat) (fun _ => []).
Definition demo_events : list (DiscoveryDB * Z * Channels) :=
  (fun token => (DiscoveryDB_new GUID_UNKNOWN, token, demo_channels)) <$>
    [USER_TRAFFIC_LISTENER_TOKEN; ADD_WRITER_TOKEN; EntityId_as_alt_token (r_entity_id (rs_reader demo_state));
     ACKNACK_MESSAGE_TO_LOCAL_WRITER_TOKEN].

Lemma demo_packet_ok : packet_ok demo_packet.
Proof.
  intros msg. assert (Message_read_from_buffer LittleEndian demo_packet
    = Ret (Some (mkMessage (Header_new demo_prefix) [mkSubmessage 1 28 (SmHeartbeat demo_hb)]))) as -> by (vm_compute; reflexivity).
  intros [= <-]. repeat constructor. vm_compute. discriminate.
Qed.

Lemma demo_channels_ok l : channels_ok l demo_channels.
Proof.
  split; [|constructor| |done].
  - intros t bs. cbn [demo_channels ch_udp]. destruct (decide (t = USER_TRAFFIC_LISTENER_TOKEN)) as [->|Hne].
    + rewrite lookup_singleton_eq. simpl. intros [->|[->|[]%elem_of_nil]%elem_of_cons]%elem_of_cons; [exact demo_packet_ok|].
      intros msg E. vm_compute in E. discriminate E.
    + rewrite lookup_singleton_ne by done. intros []%elem_of_nil.
  - apply Forall_singleton. split; [|done]. split; [cbv; repeat (constructor || discriminate)|by right].
Qed.

Lemma demo_events_ok clock l : events_ok clock l demo_events.
Proof.
  unfold demo_events. generalize [USER_TRAFFIC_LISTENER_TOKEN; ADD_WRITER_TOKEN;
    EntityId_as_alt_token (r_entity_id (rs_reader demo_state)); ACKNACK_MESSAGE_TO_LOCAL_WRITER_TOKEN] as ts.
  intros ts. revert l. induction ts as [|t ts IH]; intros l; csimpl; [done|]. destruct (el_stopped l); [done|].
  split; [apply demo_channels_ok|]. intros l' evs _. apply IH.
Qed.

