(* ===== verification/Discovery.v ===== *)
(** * The discovery protocol

    [src/discovery/discovery.rs], without the [security] feature: the thread that
    reads the built-in topics, keeps the discovery database up to date, tells the
    event loop of the participant what it has learned, and announces the
    participant and its endpoints.

    The built-in topics are read through [DataReader]s, whose topic caches the
    event loop fills.  Decoding is that of the adapters and a class here.  What is
    written to the built-in topics, notifications, status events and timers are
    events.  Every step that looks at a clock or at a topic cache takes a new
    reading: [clock], [instant], [utc] and [caches] give the readings, [d_ticks]
    counts them.  A loop that may not end takes fuel.  The participant outlives its
    discovery: the checks that it still exists succeed. *)

From S2P Require Import Prelude BTree Wire SequenceNumbers Time Guid Locator WriterProxy Qos StatusEvents Payload Submessages DdsCache SampleCache DataReader ReaderProxy DiscoveryData DiscoveryDB EventLoop.

(** ** Data *)

(** [ParticipantMessageDataKind] and [ParticipantMessageData] of
    [src/discovery/sedp_messages.rs] *)
Definition ParticipantMessageDataKind : Type := Z * Z * Z * Z.
Definition AUTOMATIC_LIVELINESS_UPDATE : ParticipantMessageDataKind := (0, 0, 0, 1).
Definition MANUAL_LIVELINESS_UPDATE : ParticipantMessageDataKind := (0, 0, 0, 2).

Record ParticipantMessageData := mkPMD {
  pmd_guid : GuidPrefix;
  pmd_kind : ParticipantMessageDataKind;
  pmd_data : bytes;
}.

(** The keys of the built-in topics; the wrappers around GUIDs are left out. *)
#[export] Instance participant_keyed : Keyed SpdpDiscoveredParticipantData GUID := spdp_participant_guid.
#[export] Instance subscription_keyed : Keyed DiscoveredReaderData GUID := fun d => sbtd_key (drd_subscription_topic_data d).
#[export] Instance publication_keyed : Keyed DiscoveredWriterData GUID := fun d => pbtd_key (dwd_publication_topic_data d).
#[export] Instance topic_keyed : Keyed DiscoveredTopicData GUID := DiscoveredTopicData_key.
#[export] Instance message_keyed : Keyed ParticipantMessageData (GuidPrefix * ParticipantMessageDataKind) :=
  fun d => (pmd_guid d, pmd_kind d).

Inductive DiscoveryCommand :=
| DC_StopDiscovery
| DC_AddLocalWriter (guid : GUID)
| DC_AddLocalReader (guid : GUID)
| DC_AddTopic (topic_name : string)
| DC_RemoveLocalWriter (guid : GUID)
| DC_RemoveLocalReader (guid : GUID)
| DC_ManualAssertLiveliness
| DC_AssertTopicLiveliness (writer_guid : GUID) (manual_assertion : bool).

Record LivelinessState := mkLiveliness {
  last_auto_update : Timestamp;
  manual_participant_liveness_refresh_requested : bool;
}.

Definition DISCOVERY_COMMAND_TOKEN : Z := 22 + PTB.
Definition SPDP_LIVENESS_TOKEN : Z := 23 + PTB.
Definition DISCOVERY_PARTICIPANT_DATA_TOKEN : Z := 30 + PTB.
Definition DISCOVERY_PARTICIPANT_CLEANUP_TOKEN : Z := 31 + PTB.
Definition DISCOVERY_SEND_PARTICIPANT_INFO_TOKEN : Z := 32 + PTB.
Definition DISCOVERY_READER_DATA_TOKEN : Z := 33 + PTB.
Definition DISCOVERY_WRITER_DATA_TOKEN : Z := 35 + PTB.
Definition DISCOVERY_TOPIC_DATA_TOKEN : Z := 37 + PTB.
Definition DISCOVERY_TOPIC_CLEANUP_TOKEN : Z := 38 + PTB.
Definition DISCOVERY_PARTICIPANT_MESSAGE_TOKEN : Z := 40 + PTB.
Definition DISCOVERY_PARTICIPANT_MESSAGE_TIMER_TOKEN : Z := 41 + PTB.
Definition P2P_SECURE_DISCOVERY_PARTICIPANT_MESSAGE_TOKEN : Z := 60 + PTB.

(** Periods in nanoseconds. *)
Definition PARTICIPANT_CLEANUP_PERIOD : Z := 2 * 1000000000.
Definition TOPIC_CLEANUP_PERIOD : Z := 60 * 1000000000.
Definition SEND_PARTICIPANT_INFO_PERIOD : Z := 2 * 1000000000.
Definition CHECK_PARTICIPANT_MESSAGES : Z := 1000000000.

(** The QoS of the built-in topics. *)
Definition subscriber_qos : QosPolicies :=
  mkQos (Some TransientLocal) (Some (mkPresentation ScopeTopic false false)) (Some (mkDeadline Duration_INFINITE)) None
    (Some Shared) (Some (Automatic Duration_INFINITE)) (Some (mkTimeBasedFilter Duration_ZERO))
    (Some (Reliable (Duration_from_std 0 100000000))) (Some ByReceptionTimestamp) (Some (KeepLast 1)) None None.
Definition publisher_qos : QosPolicies :=
  mkQos (Some TransientLocal) (Some (mkPresentation ScopeTopic false false)) (Some (mkDeadline Duration_INFINITE)) None
    (Some Shared) (Some (Automatic Duration_INFINITE)) (Some (mkTimeBasedFilter Duration_ZERO))
    (Some (Reliable (Duration_from_std 0 100000000))) (Some ByReceptionTimestamp) (Some (KeepLast 1)) None None.
Definition create_spdp_participant_qos : QosPolicies :=
  mkQos None None None None None None None (Some BestEffort) None (Some (KeepLast 1)) None None.
Definition PARTICIPANT_MESSAGE_QOS : QosPolicies :=
  mkQos (Some TransientLocal) None None None None None None (Some (Reliable Duration_ZERO)) None (Some (KeepLast 1)) None None.

(** ** State *)

Record Discovery := mkDiscovery {
  d_db : DiscoveryDB;
  d_participant_reader : DataReader SpdpDiscoveredParticipantData GUID;
  d_subscription_reader : DataReader DiscoveredReaderData GUID;
  d_publication_reader : DataReader DiscoveredWriterData GUID;
  d_topic_reader : DataReader DiscoveredTopicData GUID;
  d_message_reader : DataReader ParticipantMessageData (GuidPrefix * ParticipantMessageDataKind);
  d_liveliness : LivelinessState;
  d_stopped : bool;
  d_ticks : nat;
}.

(** The topic caches of the built-in topics. *)
Record Caches := mkCaches {
  tc_participant : TopicCache;
  tc_subscription : TopicCache;
  tc_publication : TopicCache;
  tc_topic : TopicCache;
  tc_message : TopicCache;
}.

Inductive DiscoveryEvent :=
| DEvNotification (n : DiscoveryNotificationType)
| DEvStatus (ev : DomainParticipantStatusEvent)
| DEvDb (ev : DbEvent)
| DEvWriteParticipant (d : SpdpDiscoveredParticipantData)
| DEvWriteSubscription (d : DiscoveredReaderData)
| DEvWritePublication (d : DiscoveredWriterData)
| DEvWriteTopic (d : DiscoveredTopicData)
| DEvWriteMessage (m : ParticipantMessageData)
| DEvDisposeSubscription (g : GUID)
| DEvDisposePublication (g : GUID)
| DEvDisposeParticipant (g : GUID)
| DEvTimer (token : Z) (period : Z).

Abbreviation Disc := (act Discovery DiscoveryEvent).

Section setters.
Implicit Types d : Discovery.
Definition d_set_db d (db : DiscoveryDB) : Discovery :=
  mkDiscovery db (d_participant_reader d) (d_subscription_reader d) (d_publication_reader d) (d_topic_reader d)
    (d_message_reader d) (d_liveliness d) (d_stopped d) (d_ticks d).
Definition d_set_participant_reader d r : Discovery :=
  mkDiscovery (d_db d) r (d_subscription_reader d) (d_publication_reader d) (d_topic_reader d)
    (d_message_reader d) (d_liveliness d) (d_stopped d) (d_ticks d).
Definition d_set_subscription_reader d r : Discovery :=
  mkDiscovery (d_db d) (d_participant_reader d) r (d_publication_reader d) (d_topic_reader d)
    (d_message_reader d) (d_liveliness d) (d_stopped d) (d_ticks d).
Definition d_set_publication_reader d r : Discovery :=
  mkDiscovery (d_db d) (d_participant_reader d) (d_subscription_reader d) r (d_topic_reader d)
    (d_message_reader d) (d_liveliness d) (d_stopped d) (d_ticks d).
Definition d_set_topic_reader d r : Discovery :=
  mkDiscovery (d_db d) (d_participant_reader d) (d_subscription_reader d) (d_publication_reader d) r
    (d_message_reader d) (d_liveliness d) (d_stopped d) (d_ticks d).
Definition d_set_message_reader d r : Discovery :=
  mkDiscovery (d_db d) (d_participant_reader d) (d_subscription_reader d) (d_publication_reader d) (d_topic_reader d)
    r (d_liveliness d) (d_stopped d) (d_ticks d).
Definition d_set_liveliness d (l : LivelinessState) : Discovery :=
  mkDiscovery (d_db d) (d_participant_reader d) (d_subscription_reader d) (d_publication_reader d) (d_topic_reader d)
    (d_message_reader d) l (d_stopped d) (d_ticks d).
Definition d_stop d : Discovery :=
  mkDiscovery (d_db d) (d_participant_reader d) (d_subscription_reader d) (d_publication_reader d) (d_topic_reader d)
    (d_message_reader d) (d_liveliness d) true (d_ticks d).
Definition d_tick d : Discovery :=
  mkDiscovery (d_db d) (d_participant_reader d) (d_subscription_reader d) (d_publication_reader d) (d_topic_reader d)
    (d_message_reader d) (d_liveliness d) (d_stopped d) (S (d_ticks d)).
End setters.

Definition send_discovery_notification (n : DiscoveryNotificationType) : Disc unit := emit_ev (DEvNotification n).
Definition send_participant_status (ev : DomainParticipantStatusEvent) : Disc unit := emit_ev (DEvStatus ev).

(** The next reading of the clocks. *)
Definition tick : Disc nat := d ← get_st; _ ← modify_st d_tick; mret (d_ticks d).

(** With the lock of the database. *)
Definition on_db {A} (h : act DiscoveryDB DbEvent A) : Disc A :=
  d ← get_st;
  res ← lift_outcome (h (d_db d));
  _ ← modify_st (fun d => d_set_db d res.1.2);
  _ ← act_for res.2 (fun ev => emit_ev (DEvDb ev));
  mret res.1.1.
Definition update_db {A} (f : DiscoveryDB -> A * DiscoveryDB) : Disc A :=
  d ← get_st;
  _ ← modify_st (fun d => d_set_db d (f (d_db d)).2);
  mret (f (d_db d)).1.

Definition dropped_prefix {D} (guid_of : D -> GUID) (read_history : option GuidPrefix) (s : Sample D GUID) : bool :=
  match read_history, s with
  | None, _ => false
  | Some participant_to_update, Sample_Value d => negb (bool_decide (prefix (guid_of d) = participant_to_update))
  | Some participant_to_update, Sample_Dispose guid => negb (bool_decide (prefix guid = participant_to_update))
  end.

Section discovery.
Context `{!Decoder SpdpDiscoveredParticipantData GUID, !Decoder DiscoveredReaderData GUID,
  !Decoder DiscoveredWriterData GUID, !Decoder DiscoveredTopicData GUID,
  !Decoder ParticipantMessageData (GuidPrefix * ParticipantMessageDataKind)}.
Context (fuel : nat) (clock : nat -> nat -> nat -> Timestamp) (instant utc : nat -> Z).
Context (dp : DomainParticipant) (caches : nat -> Caches).

(** ** Announcing the local participant *)

Definition initialize_participant : Disc unit :=
  t ← tick;
  let participant_data := from_local_participant (utc t) dp Duration_INFINITE in
  _ ← update_db (update_participant (instant t) participant_data);
  send_discovery_notification (DN_ParticipantUpdated (prefix (dp_guid dp))).

(** The lease is five times the period. *)
Definition send_participant_info : Disc unit :=
  t ← tick;
  emit_ev (DEvWriteParticipant (from_local_participant (utc t) dp (Duration_from_secs 10))).

Definition write_single_reader_info (guid : GUID) : Disc unit :=
  d ← get_st;
  match get_local_topic_reader (d_db d) guid with
  | Some reader_data =>
      if negb (EntityKind_is_user_defined (entity_kind (entity_id (rpx_remote_reader_guid (drd_reader_proxy reader_data)))))
      then mret tt
      else emit_ev (DEvWriteSubscription reader_data)
  | None => mret tt
  end.

Definition write_readers_info : Disc unit :=
  d ← get_st;
  act_for (rpx_remote_reader_guid ∘ drd_reader_proxy <$>
             filter (fun p => EntityKind_is_user_defined (entity_kind (entity_id (rpx_remote_reader_guid (drd_reader_proxy p)))) = true)
               (get_all_local_topic_readers (d_db d)))
    write_single_reader_info.

Definition write_single_writer_info (guid : GUID) : Disc unit :=
  d ← get_st;
  match get_local_topic_writer (d_db d) guid with
  | Some writer_data =>
      if negb (EntityKind_is_user_defined (entity_kind (entity_id (wpx_remote_writer_guid (dwd_writer_proxy writer_data)))))
      then mret tt
      else emit_ev (DEvWritePublication writer_data)
  | None => mret tt
  end.

Definition write_writers_info : Disc unit :=
  d ← get_st;
  act_for (wpx_remote_writer_guid ∘ dwd_writer_proxy <$>
             filter (fun p => EntityKind_is_user_defined (entity_kind (entity_id (wpx_remote_writer_guid (dwd_writer_proxy p)))) = true)
               (get_all_local_topic_writers (d_db d)))
    write_single_writer_info.

Definition write_topic_info (topic_name : string) : Disc unit :=
  d ← get_st;
  match get_topic (d_db d) topic_name with
  | Some topic_data =>
      if String.prefix "DCPS" (tbtd_name (dtd_topic_data topic_data)) then mret tt
      else emit_ev (DEvWriteTopic topic_data)
  | None => mret tt
  end.

Definition send_endpoint_dispose_message (endpoint_guid : GUID) : Disc unit :=
  if EntityKind_is_writer (entity_kind (entity_id endpoint_guid))
  then emit_ev (DEvDisposePublication endpoint_guid)
  else emit_ev (DEvDisposeSubscription endpoint_guid).

Definition on_participant_shutting_down : Disc unit :=
  d ← get_st;
  _ ← act_for (get_all_local_topic_readers (d_db d)) (fun reader =>
        send_endpoint_dispose_message (rpx_remote_reader_guid (drd_reader_proxy reader)));
  _ ← act_for (get_all_local_topic_writers (d_db d)) (fun writer =>
        send_endpoint_dispose_message (wpx_remote_writer_guid (dwd_writer_proxy writer)));
  emit_ev (DEvDisposeParticipant (dp_guid dp)).

(** ** What others announce *)

Definition handle_subscription_sample (s : Sample DiscoveredReaderData GUID) : Disc unit :=
  match s with
  | Sample_Value d =>
      t ← tick;
      drd ← on_db (update_subscription (utc t) d);
      send_discovery_notification (DN_ReaderUpdated drd)
  | Sample_Dispose reader_key =>
      _ ← update_db (fun db => (tt, remove_topic_reader reader_key db));
      _ ← send_discovery_notification (DN_ReaderLost reader_key);
      send_participant_status (ReaderLost reader_key Disposed)
  end.

(** The samples are taken first, and filtered then. *)
Definition handle_subscription_reader (read_history : option GuidPrefix) : Disc unit :=
  t ← tick;
  d ← get_st;
  res ← lift_outcome (into_iterator fuel (clock t) (tc_subscription (caches t)) (d_subscription_reader d));
  _ ← modify_st (fun d => d_set_subscription_reader d res.2);
  match res.1 with
  | inl _ => mret tt
  | inr ds =>
      act_for (filter (fun s => dropped_prefix (rpx_remote_reader_guid ∘ drd_reader_proxy) read_history s = false) ds)
        handle_subscription_sample
  end.

Definition handle_publication_sample (s : Sample DiscoveredWriterData GUID) : Disc unit :=
  match s with
  | Sample_Value dwd =>
      t ← tick;
      discovered_writer_data ← on_db (update_publication (utc t) dwd);
      send_discovery_notification (DN_WriterUpdated discovered_writer_data)
  | Sample_Dispose writer_key =>
      _ ← update_db (fun db => (tt, remove_topic_writer writer_key db));
      _ ← send_discovery_notification (DN_WriterLost writer_key);
      send_participant_status (WriterLost writer_key Disposed)
  end.

Definition handle_publication_reader (read_history : option GuidPrefix) : Disc unit :=
  t ← tick;
  d ← get_st;
  res ← lift_outcome (into_iterator fuel (clock t) (tc_publication (caches t)) (d_publication_reader d));
  _ ← modify_st (fun d => d_set_publication_reader d res.2);
  match res.1 with
  | inl _ => mret tt
  | inr ds =>
      act_for (filter (fun s => dropped_prefix (wpx_remote_writer_guid ∘ dwd_writer_proxy) read_history s = false) ds)
        handle_publication_sample
  end.

(** A topic and who announced it.  The endpoints known on it are announced to the
    event loop again, as they are in the database. *)
Definition handle_topic_sample (s : DataSample DiscoveredTopicData GUID) : Disc unit :=
  match ds_value s with
  | Sample_Value topic_data =>
      let writer := publication_handle (sample_info s) in
      _ ← on_db (update_topic_data topic_data writer ViaTopic);
      d ← get_st;
      _ ← act_for (writers_on_topic_and_participant (d_db d) (tbtd_name (dtd_topic_data topic_data)) (prefix writer))
            (fun discovered_writer_data => send_discovery_notification (DN_WriterUpdated discovered_writer_data));
      act_for (readers_on_topic_and_participant (d_db d) (tbtd_name (dtd_topic_data topic_data)) (prefix writer))
        (fun discovered_reader_data => send_discovery_notification (DN_ReaderUpdated discovered_reader_data))
  | Sample_Dispose _ => mret tt
  end.

Definition handle_topic_reader (_read_history : option GuidPrefix) : Disc unit :=
  t ← tick;
  d ← get_st;
  res ← lift_outcome (DataReader_take fuel (clock t) (tc_topic (caches t)) usize_max ReadCondition_any (d_topic_reader d));
  _ ← modify_st (fun d => d_set_topic_reader d res.2);
  match res.1 with
  | inl _ => mret tt
  | inr ts => act_for ts handle_topic_sample
  end.

Definition process_discovered_participant_data (participant_data : SpdpDiscoveredParticipantData) : Disc unit :=
  t ← tick;
  was_new ← update_db (update_participant (instant t) participant_data);
  let guid_prefix := prefix (spdp_participant_guid participant_data) in
  _ ← send_discovery_notification (DN_ParticipantUpdated guid_prefix);
  if (was_new : bool) then
    _ ← send_participant_status (ParticipantDiscovered (ParticipantDescription_from participant_data));
    _ ← handle_topic_reader (Some guid_prefix);
    _ ← handle_subscription_reader (Some guid_prefix);
    handle_publication_reader (Some guid_prefix)
  else mret tt.

Definition process_participant_dispose (participant_guidp : GuidPrefix) : Disc unit :=
  _ ← update_db (fun db => (tt, remove_participant participant_guidp true db));
  _ ← send_discovery_notification (DN_ParticipantLost participant_guidp);
  send_participant_status (ParticipantLost participant_guidp Disposed).

(** Sample by sample, until there is none. *)
Fixpoint handle_participant_reader (rounds : nat) : Disc unit :=
  match rounds with
  | O => lift_outcome Diverge
  | S rounds =>
      t ← tick;
      d ← get_st;
      res ← lift_outcome (take_next_sample fuel (clock t) (tc_participant (caches t)) (d_participant_reader d));
      _ ← modify_st (fun d => d_set_participant_reader d res.2);
      match res.1 with
      | inr (Some ds) =>
          _ ← match ds_value ds with
              | Sample_Value participant_data => process_discovered_participant_data participant_data
              | Sample_Dispose participant_guid => process_participant_dispose (prefix participant_guid)
              end;
          handle_participant_reader rounds
      | inr None => mret tt
      | inl _ => mret tt
      end
  end.

Definition handle_participant_message_reader : Disc unit :=
  t ← tick;
  d ← get_st;
  res ← lift_outcome (DataReader_take fuel (clock t) (tc_message (caches t)) usize_max ReadCondition_any (d_message_reader d));
  _ ← modify_st (fun d => d_set_message_reader d res.2);
  match res.1 with
  | inl _ => mret tt
  | inr samples =>
      act_for (omap (fun p => match ds_value p with Sample_Value m => Some m | Sample_Dispose _ => None end) samples)
        (fun msg => t ← tick; update_db (fun db => (tt, update_lease_duration (instant t) (pmd_guid msg) db)))
  end.

Definition discovery_participant_cleanup : Disc unit :=
  t ← tick;
  removed ← update_db (participant_cleanup (instant t));
  act_for removed (fun '(guid_prefix, reason) =>
    _ ← send_discovery_notification (DN_ParticipantLost guid_prefix);
    send_participant_status (ParticipantLost guid_prefix reason)).

Definition discovery_topic_cleanup : Disc unit := update_db (fun db => (tt, topic_cleanup db)).

(** ** Liveliness *)

Definition min_automatic_lease_duration (db : DiscoveryDB) : option Duration :=
  foldl (fun acc x => match acc with Some y => Some (if decide (kle y x) then y else x) | None => Some x end) None
    (omap (fun p => match pbtd_liveliness (dwd_publication_topic_data p) with
                    | Some (Automatic lease_duration) => Some lease_duration
                    | _ => None
                    end) (get_all_local_topic_writers db)).

(** [write_ok] says which messages can be written. *)
Definition write_participant_message (timenow : Timestamp) (write_ok : ParticipantMessageDataKind -> bool) : Disc unit :=
  d ← get_st;
  auto ← match min_automatic_lease_duration (d_db d) with
         | Some min_auto_duration =>
             half ← lift_outcome (Duration_div min_auto_duration 2);
             mret (if is_gt (kcmp (Timestamp_duration_since timenow (last_auto_update (d_liveliness d))) half)
                   then [mkPMD (prefix (dp_guid dp)) AUTOMATIC_LIVELINESS_UPDATE []] else [])
         | None => mret []
         end;
  let manual :=
    if manual_participant_liveness_refresh_requested (d_liveliness d)
    then [mkPMD (prefix (dp_guid dp)) MANUAL_LIVELINESS_UPDATE []] else [] in
  act_for (auto ++ manual) (fun msg =>
    if write_ok (pmd_kind msg) then
      _ ← emit_ev (DEvWriteMessage msg);
      modify_st (fun d =>
        let l := d_liveliness d in
        if decide (pmd_kind msg = AUTOMATIC_LIVELINESS_UPDATE)
        then d_set_liveliness d (mkLiveliness timenow (manual_participant_liveness_refresh_requested l))
        else if decide (pmd_kind msg = MANUAL_LIVELINESS_UPDATE)
        then d_set_liveliness d (mkLiveliness (last_auto_update l) false)
        else d)
    else mret tt).

(** ** Commands and events *)

(** [publications] and [subscriptions] are the built-in writers' own GUIDs. *)
Definition handle_discovery_command (publications subscriptions : GUID) (command : DiscoveryCommand) : Disc unit :=
  match command with
  | DC_StopDiscovery => _ ← on_participant_shutting_down; modify_st d_stop
  | DC_AddLocalWriter guid => write_single_writer_info guid
  | DC_AddLocalReader guid => write_single_reader_info guid
  | DC_AddTopic topic_name => write_topic_info topic_name
  | DC_RemoveLocalWriter guid =>
      if decide (guid = publications) then mret tt
      else
        _ ← send_endpoint_dispose_message guid;
        update_db (fun db => (tt, remove_local_topic_writer guid db))
  | DC_RemoveLocalReader guid =>
      if decide (guid = subscriptions) then mret tt
      else
        _ ← send_endpoint_dispose_message guid;
        update_db (fun db => (tt, remove_local_topic_reader guid db))
  | DC_ManualAssertLiveliness =>
      modify_st (fun d => d_set_liveliness d (mkLiveliness (last_auto_update (d_liveliness d)) true))
  | DC_AssertTopicLiveliness writer_guid manual_assertion =>
      send_discovery_notification (DN_AssertTopicLiveliness writer_guid manual_assertion)
  end.

Fixpoint handle_discovery_commands (publications subscriptions : GUID) (commands : list DiscoveryCommand) : Disc unit :=
  match commands with
  | [] => mret tt
  | command :: commands =>
      _ ← handle_discovery_command publications subscriptions command;
      d ← get_st;
      if d_stopped d then mret tt else handle_discovery_commands publications subscriptions commands
  end.

(** What the channels hold. *)
Record DiscoveryInputs := mkInputs {
  in_publications_writer : GUID;
  in_subscriptions_writer : GUID;
  in_commands : list DiscoveryCommand;
  in_spdp_liveness : list GuidPrefix;
  in_timenow : Timestamp;
  in_write_ok : ParticipantMessageDataKind -> bool;
  in_rounds : nat;
}.

Definition handle_discovery_event (token : Z) (i : DiscoveryInputs) : Disc unit :=
  if token =? DISCOVERY_COMMAND_TOKEN then
    handle_discovery_commands (in_publications_writer i) (in_subscriptions_writer i) (in_commands i)
  else if token =? DISCOVERY_PARTICIPANT_DATA_TOKEN then handle_participant_reader (in_rounds i)
  else if token =? DISCOVERY_PARTICIPANT_CLEANUP_TOKEN then
    _ ← discovery_participant_cleanup; emit_ev (DEvTimer DISCOVERY_PARTICIPANT_CLEANUP_TOKEN PARTICIPANT_CLEANUP_PERIOD)
  else if token =? DISCOVERY_SEND_PARTICIPANT_INFO_TOKEN then
    _ ← send_participant_info; emit_ev (DEvTimer DISCOVERY_SEND_PARTICIPANT_INFO_TOKEN SEND_PARTICIPANT_INFO_PERIOD)
  else if token =? DISCOVERY_READER_DATA_TOKEN then handle_subscription_reader None
  else if token =? DISCOVERY_WRITER_DATA_TOKEN then handle_publication_reader None
  else if token =? DISCOVERY_TOPIC_DATA_TOKEN then handle_topic_reader None
  else if token =? DISCOVERY_TOPIC_CLEANUP_TOKEN then
    _ ← discovery_topic_cleanup; emit_ev (DEvTimer DISCOVERY_TOPIC_CLEANUP_TOKEN TOPIC_CLEANUP_PERIOD)
  else if (token =? DISCOVERY_PARTICIPANT_MESSAGE_TOKEN) || (token =? P2P_SECURE_DISCOVERY_PARTICIPANT_MESSAGE_TOKEN) then
    handle_participant_message_reader
  else if token =? DISCOVERY_PARTICIPANT_MESSAGE_TIMER_TOKEN then
    _ ← write_participant_message (in_timenow i) (in_write_ok i);
    emit_ev (DEvTimer DISCOVERY_PARTICIPANT_MESSAGE_TIMER_TOKEN CHECK_PARTICIPANT_MESSAGES)
  else if token =? SPDP_LIVENESS_TOKEN then
    act_for (in_spdp_liveness i) (fun guid_prefix =>
      t ← tick; update_db (fun db => (tt, participant_is_alive (instant t) guid_prefix db)))
  else mret tt.

(** The loop, over the events that the poll returns. *)
Definition discovery_event_loop (events : list (Z * DiscoveryInputs)) : Disc unit :=
  _ ← initialize_participant;
  _ ← write_writers_info;
  _ ← write_readers_info;
  act_for events (fun '(token, i) =>
    d ← get_st; if d_stopped d then mret tt else handle_discovery_event token i).
End discovery.
