(* ===== verification/DiscoveryTheorems.v ===== *)
(** * What discovery tells the event loop

    The theorems about [src/discovery/discovery.rs] and its composition with the
    discovery database, the data readers of the built-in topics and the event
    loop: announced endpoints end up matched, and the cases in which they do
    not. *)

From S2P Require Import Prelude BTree Wire SequenceNumbers Time Guid Locator WriterProxy ParameterList Qos StatusEvents Payload Submessages Headers MessageBuilder MessageWire InlineQos FragmentAssembler DdsCache Reader MessageReceiver ReaderCorrect ReaderTheorems SampleCache SampleCacheTheorems DataReader DataReaderTheorems ReaderProxy DiscoveryData DiscoveryDB DiscoveryDBTheorems HistoryBuffer Writer WriterCorrect WriterHandlers WriterTheorems ReceiverTheorems ReceiverSafety EventLoop EventLoopTheorems EventLoopSafety Discovery.

(** ** Running the parts *)

Definition notifications (evs : list DiscoveryEvent) : list DiscoveryNotificationType :=
  omap (fun ev => match ev with DEvNotification n => Some n | _ => None end) evs.

Lemma notifications_app e1 e2 : notifications (e1 ++ e2) = notifications e1 ++ notifications e2.
Proof. apply omap_app. Qed.
Lemma notifications_db evs : notifications (DEvDb <$> evs) = [].
Proof. by induction evs. Qed.
Lemma notifications_told {A} (f : A -> DiscoveryNotificationType) l :
  notifications ((fun x => DEvNotification (f x)) <$> l) = f <$> l.
Proof. induction l as [|n l IH]; [done|]. csimpl. f_equal. exact IH. Qed.

Lemma wp_and {St Ev A} (m : act St Ev A) st (Q Q' : A -> St -> list Ev -> Prop) :
  wp m st Q -> wp m st Q' -> wp m st (fun a st' evs => Q a st' evs /\ Q' a st' evs).
Proof. unfold wp. by destruct (m st) as [[[? ?] ?]| |]. Qed.

Lemma wp_bind_inv {St Ev A B} (m : act St Ev A) (f : A -> act St Ev B) st (Q : B -> St -> list Ev -> Prop) :
  wp (m ≫= f) st Q -> wp m st (fun a st1 e1 => wp (f a) st1 (fun b st2 e2 => Q b st2 (e1 ++ e2))).
Proof.
  intros (b & st2 & evs & E & HQ)%wp_run. apply bind_run_inv in E as (a & st1 & e1 & e2 & E1 & E2 & ->).
  apply wp_run. exists a, st1, e1. split; [done|]. apply wp_run. by exists b, st2, e2.
Qed.

Lemma wp_for_app {St Ev A} (l1 l2 : list A) (f : A -> act St Ev unit) st (Q : unit -> St -> list Ev -> Prop) :
  wp (act_for l1 f) st (fun _ st1 e1 => wp (act_for l2 f) st1 (fun _ st2 e2 => Q tt st2 (e1 ++ e2))) ->
  wp (act_for (l1 ++ l2) f) st Q.
Proof.
  revert st Q. induction l1 as [|x l1 IH]; intros st Q; cbn [act_for app].
  - rewrite wp_run. intros ([] & st1 & e1 & [= <- <-] & H). eapply wp_mono; [exact H|]. by intros [] st2 e2.
  - intros H. apply wp_bind. apply wp_bind_inv in H. eapply wp_mono; [exact H|]. cbv beta. intros _ st1 e1 H1.
    apply IH. eapply wp_mono; [exact H1|]. cbv beta. intros _ st2 e2 H2. eapply wp_mono; [exact H2|]. intros [] st3 e3. by rewrite app_assoc.
Qed.

Lemma wp_tick d (Q : nat -> Discovery -> list DiscoveryEvent -> Prop) : Q (d_ticks d) (d_tick d) [] -> wp tick d Q.
Proof. intros HQ. unfold tick. by wp_steps. Qed.

Lemma wp_on_db {A} (h : act DiscoveryDB DbEvent A) d (Q : A -> Discovery -> list DiscoveryEvent -> Prop) :
  wp h (d_db d) (fun a db' evs => Q a (d_set_db d db') (DEvDb <$> evs)) -> wp (on_db h) d Q.
Proof.
  intros (a & db' & evs & E & HQ)%wp_run. unfold on_db. wp_step. wp_step. wp_step. eapply wp_lift; [exact E|].
  wp_step. wp_step. wp_step. apply wp_emit_map. wp_step. cbn [app fst snd]. by rewrite app_nil_r.
Qed.

Lemma wp_update_db {A} (f : DiscoveryDB -> A * DiscoveryDB) d (Q : A -> Discovery -> list DiscoveryEvent -> Prop) :
  Q (f (d_db d)).1 (d_set_db d (f (d_db d)).2) [] -> wp (update_db f) d Q.
Proof. intros HQ. unfold update_db. by wp_steps. Qed.

(** Only the database and the readings of the clock have changed. *)
Definition db_only (d d' : Discovery) : Prop :=
  d' = mkDiscovery (d_db d') (d_participant_reader d) (d_subscription_reader d) (d_publication_reader d)
         (d_topic_reader d) (d_message_reader d) (d_liveliness d) (d_stopped d) (d_ticks d').
#[export] Instance db_only_preorder : PreOrder db_only.
Proof. split; [by intros []|]. unfold db_only. intros d1 d2 d3 -> ->. done. Qed.

(** ** The news about readers *)

(** An announcement without locators gets those of the participant. *)
Definition completed_reader (db : DiscoveryDB) (d : DiscoveredReaderData) : DiscoveredReaderData :=
  let ls := default_locator_lists db (prefix (drd_guid d)) in
  mkDRD (ReaderProxy_from (RtpsReaderProxy_from_discovered_reader_data (drd_proxy d) ls.1 ls.2))
    (drd_subscription_topic_data d) (drd_content_filter d).

Definition reader_of (s : Sample DiscoveredReaderData GUID) : GUID :=
  match s with Sample_Value d => drd_guid d | Sample_Dispose g => g end.
Definition reader_news (db : DiscoveryDB) (s : Sample DiscoveredReaderData GUID) : DiscoveryNotificationType :=
  match s with Sample_Value d => DN_ReaderUpdated (completed_reader db d) | Sample_Dispose g => DN_ReaderLost g end.
Definition reader_stored (m : gmap GUID DiscoveredReaderData) (s : Sample DiscoveredReaderData GUID) : gmap GUID DiscoveredReaderData :=
  match s with Sample_Value d => <[drd_guid d := d]> m | Sample_Dispose g => delete g m end.

Lemma stored_other m ss g : Forall (fun s => reader_of s <> g) ss -> foldl reader_stored m ss !! g = m !! g.
Proof.
  intros Hss. revert m. induction Hss as [|s ss Hs Hss IH]; intros m; cbn [foldl]; [done|]. rewrite IH.
  destruct s; simpl in *; [by rewrite lookup_insert_ne|by rewrite lookup_delete_ne].
Qed.

(** What is known of a reader after its last sample. *)
Lemma stored_last m pre s post :
  Forall (fun s' => reader_of s' <> reader_of s) post ->
  foldl reader_stored m (pre ++ s :: post) !! reader_of s =
    match s with Sample_Value d => Some d | Sample_Dispose _ => None end.
Proof.
  intros Hpost. rewrite foldl_app. cbn [foldl]. rewrite stored_other by done.
  destruct s; simpl; [apply lookup_insert_eq|apply lookup_delete_eq].
Qed.

Section readers.
Context (utc : nat -> Z).

(** Nothing of the database but the readers and the topics has changed. *)
Definition readers_stored (ss : list (Sample DiscoveredReaderData GUID)) (db db' : DiscoveryDB) : Prop :=
  db' = db_set_topics (db_set_readers db (foldl reader_stored (external_topic_readers db) ss) (external_topic_readers_attic db)) (topics db').

Lemma subscription_sample_wp s d :
  wp (handle_subscription_sample utc s) d (fun _ d' evs => db_only d d' /\ readers_stored [s] (d_db d) (d_db d') /\
    notifications evs = [reader_news (d_db d) s]).
Proof.
  unfold handle_subscription_sample, send_discovery_notification, send_participant_status. destruct s as [drd|g].
  - wp_step. apply wp_tick. wp_step. apply wp_on_db. apply wp_update_subscription. wp_step. cbn [app].
    split_and!; [done|done|]. by rewrite notifications_app, notifications_db.
  - wp_step. apply wp_update_db. wp_steps. split_and!; [done|by destruct d as [[]]|done].
Qed.

Lemma subscription_samples_wp ss d :
  wp (act_for ss (handle_subscription_sample utc)) d (fun _ d' evs => db_only d d' /\
    readers_stored ss (d_db d) (d_db d') /\ notifications evs = reader_news (d_db d) <$> ss).
Proof.
  revert d. induction ss as [|s ss IH]; intros d; cbn [act_for].
  - wp_step. split_and!; [done|by destruct d as [[]]|done].
  - wp_step. eapply wp_mono; [apply subscription_sample_wp|]. cbv beta. intros _ d1 e1 (H1 & S1 & N1).
    eapply wp_mono; [apply IH|]. cbv beta. intros _ d2 e2 (H2 & S2 & N2). split_and!.
    + by transitivity d1.
    + unfold readers_stored in *. rewrite S2, S1. done.
    + rewrite notifications_app, N1, N2, S1. done.
Qed.
End readers.

(** ** News in the event loop *)

(** The news about the reader [g]. *)
Definition about_reader (g : GUID) (n : DiscoveryNotificationType) : Prop :=
  match n with DN_ReaderUpdated d => drd_guid d = g | DN_ReaderLost g' => g' = g | _ => False end.
(** News about single endpoints. *)
Definition endpoint_news (n : DiscoveryNotificationType) : Prop :=
  match n with DN_ReaderUpdated _ | DN_ReaderLost _ | DN_WriterUpdated _ | DN_WriterLost _ => True | _ => False end.

(** The writers are still there, and their matches with [g]. *)
Definition matches_kept (P : GUID -> Prop) (l l' : DPEventLoop) : Prop :=
  forall eid w, el_writers l !! eid = Some w -> exists w', el_writers l' !! eid = Some w' /\ same_writer w w' /\
    forall g, P g -> readers w' !! g = readers w !! g.

Lemma matches_kept_trans P l1 l2 l3 : matches_kept P l1 l2 -> matches_kept P l2 l3 -> matches_kept P l1 l3.
Proof.
  intros H1 H2 eid w Hw. destruct (H1 _ _ Hw) as (w1 & Hw1 & S1 & R1). destruct (H2 _ _ Hw1) as (w2 & Hw2 & S2 & R2).
  exists w2. split; [done|]. split; [by eapply same_writer_trans|]. intros g Hg. by rewrite R2, R1.
Qed.
Lemma matches_kept_refl P l : matches_kept P l l.
Proof. intros eid w Hw. exists w. by split_and!. Qed.
Lemma matches_kept_weaken (P P' : GUID -> Prop) l l' : (forall g, P' g -> P g) -> matches_kept P l l' -> matches_kept P' l l'.
Proof. intros HP H eid w Hw. destruct (H _ _ Hw) as (w' & ? & ? & ?). exists w'. auto. Qed.

Lemma matching_same_writer rp q w w' evs : reader_matching rp q w w' evs -> same_writer w w'.
Proof. by intros (H & _). Qed.
Lemma matching_other rp q w w' evs g :
  reader_matching rp q w w' evs -> remote_reader_guid rp <> g -> readers w' !! g = readers w !! g.
Proof.
  intros (_ & _ & _ & H) Hg. destruct (compliance_failure_wrt _ _); [by destruct H as [-> _]|].
  destruct H as (rp' & -> & _). by rewrite lookup_insert_ne.
Qed.

Section news.
Context `{SP : Speedy, !SpeedyLaws SP} (clock : nat -> Timestamp) (Hclock : clock_steady clock).

Lemma reader_updated_kept d l :
  loop_inv clock l -> wp (remote_reader_discovered d) l (fun _ l' _ => matches_kept (fun g => drd_guid d <> g) l l').
Proof.
  intros Hl. eapply wp_mono; [by apply (reader_discovered_wp clock)|]. cbv beta. intros _ l' evs (_ & _ & _ & H) eid w Hw.
  destruct (H _ _ Hw) as (w' & Hw' & Hm). exists w'. split; [done|]. case_decide.
  - split; [by eapply matching_same_writer|]. intros g Hg. by eapply matching_other.
  - destruct Hm as [-> _]. done.
Qed.

Lemma reader_lost_kept g l :
  wp (remote_reader_lost g) l (fun _ l' _ => matches_kept (fun g' => g <> g') l l' /\
    forall eid w', el_writers l' !! eid = Some w' -> readers w' !! g = None).
Proof.
  eapply wp_mono; [eapply for_writers_wp with (Q := fun _ => readers_gone (fun g' => g' = g))|].
  { intros eid w _. apply reader_lost_gone. }
  cbv beta. intros _ l' evs (_ & _ & Hd & H). split.
  - intros eid w Hw. destruct (H _ _ Hw) as (w' & Hw' & Hs & _ & _ & Hg). exists w'. split_and!; [done|done|].
    intros g' Hg'. by apply Hg.
  - intros eid w' Hw'. assert (eid ∈ dom (el_writers l)) as [w Hw]%elem_of_dom by (rewrite <- Hd; by apply elem_of_dom_2 in Hw').
    destruct (H _ _ Hw) as (w2 & Hw2 & _ & _ & _ & Hg). rewrite Hw' in Hw2. injection Hw2 as <-. by apply Hg.
Qed.

Lemma for_readers_writers (h : R unit) : act_keeps (fun l l' => el_writers l' = el_writers l) (for_readers clock h).
Proof.
  assert (PreOrder (fun l l' : DPEventLoop => el_writers l' = el_writers l)) by (split; [done|]; intros x y z ? ?; congruence).
  unfold for_readers, on_reader, on_receiver. repeat keeps_step.
Qed.

Lemma readers_changed_kept (h : R unit) l P :
  wp (for_readers clock h) l (fun _ _ _ => True) -> wp (for_readers clock h) l (fun _ l' _ => matches_kept P l l').
Proof.
  intros Hl. eapply wp_mono; [apply (wp_keeps _ _ _ _ (for_readers_writers h) Hl)|]. cbv beta.
  intros _ l' _ [E _] eid w Hw. exists w. by rewrite E.
Qed.

Lemma news_step now n l :
  loop_inv clock l -> endpoint_news n ->
  wp (handle_discovery_notification clock (now, n)) l (fun _ l' _ =>
    loop_inv clock l' /\ matches_kept (fun g => ~ about_reader g n) l l').
Proof.
  intros Hl Hn. pose proof (notification_inv clock Hclock (now, n) l Hl) as Hi. apply wp_and; [done|].
  destruct n as [d|g|d|g|p|p|g m]; try done.
  - by apply reader_updated_kept.
  - eapply wp_mono; [apply reader_lost_kept|]. by intros _ l' _ [? _].
  - apply readers_changed_kept. by eapply wp_mono.
  - apply readers_changed_kept. by eapply wp_mono.
Qed.

Lemma news_run now ns l :
  loop_inv clock l -> Forall endpoint_news ns ->
  wp (act_for ns (fun n => handle_discovery_notification clock (now, n))) l (fun _ l' _ =>
    loop_inv clock l' /\ matches_kept (fun g => Forall (fun n => ~ about_reader g n) ns) l l').
Proof.
  intros Hl Hns. apply (wp_for (fun l' _ => loop_inv clock l' /\ matches_kept (fun g => Forall (fun n => ~ about_reader g n) ns) l l')).
  - split; [done|apply matches_kept_refl].
  - intros n l1 evs Hin [H1 K1]. rewrite Forall_forall in Hns. eapply wp_mono; [by apply news_step; auto|]. cbv beta.
    intros _ l2 _ [H2 K2]. split; [done|]. eapply matches_kept_trans; [done|]. eapply matches_kept_weaken; [|done].
    intros g Hg. rewrite Forall_forall in Hg. auto.
Qed.

(** What the last news about a reader make of a writer. *)
Definition reader_settled (n : DiscoveryNotificationType) (w w' : Writer) : Prop :=
  match n with
  | DN_ReaderUpdated d =>
      sbtd_topic_name (drd_subscription_topic_data d) = w_topic_name w ->
      compliance_failure_wrt (w_qos w) (SubscriptionBuiltinTopicData_qos (drd_subscription_topic_data d)) = None ->
      exists rp, readers w' !! drd_guid d = Some rp /\
        unicast_locator_list rp = unicast_locator_list (announced_reader d) /\
        multicast_locator_list rp = multicast_locator_list (announced_reader d)
  | DN_ReaderLost g => readers w' !! g = None
  | _ => True
  end.

Lemma news_settle now n l :
  loop_inv clock l -> endpoint_news n ->
  wp (handle_discovery_notification clock (now, n)) l (fun _ l' _ =>
    forall eid w, el_writers l !! eid = Some w -> exists w', el_writers l' !! eid = Some w' /\ reader_settled n w w').
Proof.
  intros Hl Hn. destruct n as [d|g|d|g|p|p|g m]; try done; unfold reader_settled.
  - eapply wp_mono; [by apply (reader_discovered_wp clock)|]. cbv beta. intros _ l2 evs (_ & _ & _ & H) eid w Hw.
    destruct (H _ _ Hw) as (w' & Hw' & Hm). exists w'. split; [done|]. intros Ht Hc. rewrite decide_True in Hm by done.
    destruct Hm as (_ & _ & _ & Hm). rewrite Hc in Hm. destruct Hm as (rp & -> & ? & ? & _). exists rp. split; [apply lookup_insert_eq|done].
  - eapply wp_mono; [apply reader_lost_kept|]. cbv beta. intros _ l2 evs [K H] eid w Hw.
    destruct (K _ _ Hw) as (w' & Hw' & _). eauto.
  - eapply wp_mono; [by eapply news_step|]. cbv beta. intros _ l2 _ [_ K] eid w Hw. destruct (K _ _ Hw) as (w' & ? & _). eauto.
  - eapply wp_mono; [by eapply news_step|]. cbv beta. intros _ l2 _ [_ K] eid w Hw. destruct (K _ _ Hw) as (w' & ? & _). eauto.
Qed.

Lemma last_news_settle now pre n post l :
  loop_inv clock l -> Forall endpoint_news (pre ++ n :: post) ->
  (forall g, about_reader g n -> Forall (fun n' => ~ about_reader g n') post) ->
  wp (act_for (pre ++ n :: post) (fun n => handle_discovery_notification clock (now, n))) l (fun _ l' _ =>
    forall eid w, el_writers l !! eid = Some w -> exists w', el_writers l' !! eid = Some w' /\ reader_settled n w w').
Proof.
  intros Hl (Hpre & [Hn Hpost]%Forall_cons)%Forall_app Hlast. apply wp_for_app. eapply wp_mono; [by apply news_run|].
  cbv beta. intros _ l1 _ [H1 K1]. cbn [act_for]. wp_step. eapply wp_mono; [apply wp_and; [by apply news_step|]|].
  { by apply news_settle. }
  cbv beta. intros _ l2 _ [[H2 _] S2]. eapply wp_mono; [by apply news_run|]. cbv beta. intros _ l3 _ [_ K3] eid w Hw.
  destruct (K1 _ _ Hw) as (w1 & Hw1 & (_ & Et & Eq) & _). destruct (S2 _ _ Hw1) as (w2 & Hw2 & Hs).
  destruct (K3 _ _ Hw2) as (w3 & Hw3 & _ & R3). exists w3. split; [done|]. destruct n as [d|g|d|g|p|p|g m]; try done; simpl in *.
  - rewrite <- Et, <- Eq. rewrite R3; [done|]. by apply Hlast.
  - rewrite R3; [done|]. by apply Hlast.
Qed.
End news.

(** ** From an announcement to a match *)

(** The locators that a reader is sent to: its own, or its participant's if it has
    announced none. *)
Definition reader_unicast (db : DiscoveryDB) (d : DiscoveredReaderData) : list Locator :=
  filter (fun l => not_loopback l = true)
    (discovered_or_default (rpx_unicast_locator_list (drd_reader_proxy d)) (default_locator_lists db (prefix (drd_guid d))).1).
Definition reader_multicast (db : DiscoveryDB) (d : DiscoveredReaderData) : list Locator :=
  discovered_or_default (rpx_multicast_locator_list (drd_reader_proxy d)) (default_locator_lists db (prefix (drd_guid d))).2.

Lemma completed_locators db d :
  unicast_locator_list (announced_reader (completed_reader db d)) = reader_unicast db d /\
  multicast_locator_list (announced_reader (completed_reader db d)) = reader_multicast db d.
Proof.
  unfold announced_reader, completed_reader. simpl. rewrite !or_nothing. split; [|done].
  apply list_filter_all. by intros l [? _]%list_elem_of_filter.
Qed.

Lemma news_about db s g : about_reader g (reader_news db s) <-> reader_of s = g.
Proof. by destruct s. Qed.

Section subscriptions.
Context `{!Decoder DiscoveredReaderData GUID, SP : Speedy, !SpeedyLaws SP}.
Context (fuel : nat) (clock : nat -> nat -> nat -> Timestamp) (utc : nat -> Z) (caches : nat -> Caches).

(** The samples that a call handles. *)
Definition passing (read_history : option GuidPrefix) (ss : list (Sample DiscoveredReaderData GUID)) : list (Sample DiscoveredReaderData GUID) :=
  filter (fun s => dropped_prefix drd_guid read_history s = false) ss.

Lemma subscription_reader_wp read_history d ss r' :
  into_iterator fuel (clock (d_ticks d)) (tc_subscription (caches (d_ticks d))) (d_subscription_reader d) = Ret (inr ss, r') ->
  wp (handle_subscription_reader fuel clock utc caches read_history) d (fun _ d' evs =>
    db_only (d_set_subscription_reader d r') d' /\ readers_stored (passing read_history ss) (d_db d) (d_db d') /\
    notifications evs = reader_news (d_db d) <$> passing read_history ss).
Proof.
  intros E. unfold handle_subscription_reader. wp_step. apply wp_tick. wp_step. wp_step. wp_step. eapply wp_lift; [exact E|].
  wp_step. wp_step. cbn [fst snd app]. eapply wp_mono; [apply subscription_samples_wp|]. cbv beta. cbn [app].
  intros _ d' evs (H1 & H2 & H3). split_and!; [|done|done]. exact H1.
Qed.

(** C7: the samples that the reader of the topic about subscriptions takes are
    handled in their order, those of other participants left out if the news of
    one participant are asked for.  When the event loop has handled what it is
    told, the last sample about a reader counts: an announced reader is in the
    database, and every local writer on its topic with compatible QoS has it
    matched with the locators it announced, or with those of its participant if
    it announced none; a disposed reader is gone from the database and from every
    writer. *)
Theorem announced_readers_matched lclock now read_history d ss r' l pre s post :
  into_iterator fuel (clock (d_ticks d)) (tc_subscription (caches (d_ticks d))) (d_subscription_reader d) = Ret (inr ss, r') ->
  passing read_history ss = pre ++ s :: post -> Forall (fun s' => reader_of s' <> reader_of s) post ->
  clock_steady lclock -> loop_inv lclock l ->
  wp (handle_subscription_reader fuel clock utc caches read_history) d (fun _ d' evs =>
    d_subscription_reader d' = r' /\
    external_topic_readers (d_db d') !! reader_of s = match s with Sample_Value drd => Some drd | Sample_Dispose _ => None end /\
    wp (act_for (notifications evs) (fun n => handle_discovery_notification lclock (now, n))) l (fun _ l' _ =>
      forall eid w, el_writers l !! eid = Some w -> exists w', el_writers l' !! eid = Some w' /\
        match s with
        | Sample_Value drd =>
            sbtd_topic_name (drd_subscription_topic_data drd) = w_topic_name w ->
            compliance_failure_wrt (w_qos w) (SubscriptionBuiltinTopicData_qos (drd_subscription_topic_data drd)) = None ->
            exists rp, readers w' !! drd_guid drd = Some rp /\
              unicast_locator_list rp = reader_unicast (d_db d) drd /\ multicast_locator_list rp = reader_multicast (d_db d) drd
        | Sample_Dispose g => readers w' !! g = None
        end)).
Proof.
  intros E Hss Hpost Hclock Hl. eapply wp_mono; [by apply subscription_reader_wp|]. cbv beta. intros _ d' evs (H1 & H2 & H3).
  split_and!; [by rewrite H1|by rewrite H2, Hss; apply stored_last|].
  rewrite H3, Hss, fmap_app, fmap_cons. eapply wp_mono; [apply last_news_settle; [done|done| |]|].
  - apply Forall_app. split; [|apply Forall_cons; split]; [apply Forall_fmap, Forall_true; by intros []|by destruct s|apply Forall_fmap, Forall_true; by intros []].
  - intros g Hg%news_about. apply Forall_fmap. eapply Forall_impl; [done|]. simpl. intros s' Hs' ?%news_about. congruence.
  - cbv beta. intros _ l' _ H eid w Hw. destruct (H _ _ Hw) as (w' & Hw' & Hs). exists w'. split; [done|].
    destruct s as [drd|g]; [|done]. simpl in Hs. intros Ht Hc. destruct (Hs Ht Hc) as (rp & Hr & Eu & Em). exists rp.
    destruct (completed_locators (d_db d) drd) as [<- <-]. done.
Qed.

(** When discovery looks for the readers of a participant that is new, it takes
    everything the topic about subscriptions holds, and drops what is said about
    the readers of other participants: the event loop is not told of them, and
    what the database has of them stays as it was.  It does so for good: unless
    something new arrives, the next look finds nothing. *)
Theorem rediscovery_drops_others p d tc q st c ds m c1 s :
  d_subscription_reader d = mkDR (mkSDR q st) c -> tc_subscription (caches (d_ticks d)) = tc ->
  is_reliable q = true -> tc_inv tc -> markers_ok tc -> pointers_ok (last_read_sn st) ->
  decode_all (hash_to_key_map st) (get_changes_in_range_reliable tc (last_read_sn st)) = Some (ds, m) ->
  outcome_fold fill_from_deserialized_cache_change c ds = Ret c1 -> dsc_inv c1 -> (length ds < fuel)%nat ->
  Z.of_nat (size (datasamples c1)) <= usize_max ->
  s ∈ unread_samples c1 -> prefix (reader_of s) <> p ->
  wp (handle_subscription_reader fuel clock utc caches (Some p)) d (fun _ d' evs =>
    Forall (fun n => ~ about_reader (reader_of s) n) (notifications evs) /\
    external_topic_readers (d_db d') !! reader_of s = external_topic_readers (d_db d) !! reader_of s /\
    forall d2, d_subscription_reader d2 = d_subscription_reader d' -> tc_subscription (caches (d_ticks d2)) = tc ->
      wp (handle_subscription_reader fuel clock utc caches None) d2 (fun _ d3 evs3 =>
        notifications evs3 = [] /\ external_topic_readers (d_db d3) = external_topic_readers (d_db d2))).
Proof.
  intros Er Etc Hq Hinv Hmk Hp Hd Hfill Hc1 Hf Hsz Hs Hpre.
  destruct (into_iterator_exhausts fuel (clock (d_ticks d)) tc q st c ds m c1) as (r' & E & Hagain); [done..|].
  rewrite <- Etc, <- Er in E. eapply wp_mono; [by apply subscription_reader_wp|]. cbv beta. intros _ d' evs (H1 & H2 & H3).
  assert (Forall (fun s' => reader_of s' <> reader_of s) (passing (Some p) (unread_samples c1))) as Hothers.
  { apply Forall_forall. intros s' [Hs' _]%list_elem_of_filter Heq. apply Hpre. rewrite <- Heq.
    destruct s'; simpl in *; apply negb_false_iff, bool_decide_eq_true in Hs'; done. }
  split_and!.
  - rewrite H3. apply Forall_fmap. eapply Forall_impl; [done|]. simpl. by intros s' Hs' ?%news_about.
  - rewrite H2. by apply stored_other.
  - intros d2 E2 Et2. rewrite H1 in E2. eapply wp_mono; [apply (subscription_reader_wp None d2 [] r')|].
    + rewrite Et2, E2. apply Hagain. lia.
    + cbv beta. intros _ d3 evs3 (_ & H5 & H6). split; [done|]. by rewrite H5.
Qed.
End subscriptions.

(** ** Participants that come back *)

(** The endpoints of the application are as they were. *)
Definition user_endpoints_same (l l' : DPEventLoop) : Prop :=
  forall eid, EntityKind_is_user_defined (entity_kind eid) = true ->
    el_writers l' !! eid = el_writers l !! eid /\
    available_readers (el_message_receiver l') !! eid = available_readers (el_message_receiver l) !! eid.
#[export] Instance user_endpoints_same_preorder : PreOrder user_endpoints_same.
Proof. split; [done|]. intros l1 l2 l3 H1 H2 eid He. destruct (H1 _ He) as [<- <-]. by apply H2. Qed.

Lemma keeps_for_in {St Ev A} (Rel : relation St) `{!PreOrder Rel} (l : list A) (f : A -> act St Ev unit) :
  (forall x, x ∈ l -> act_keeps Rel (f x)) -> act_keeps Rel (act_for l f).
Proof.
  induction l as [|x l IH]; intros Hf; cbn [act_for]; [apply keeps_ret; apply _|].
  keeps_bind; [apply Hf; set_solver|]. intros _. apply IH. intros; apply Hf; set_solver.
Qed.

Lemma on_builtin_writer eid h :
  EntityKind_is_user_defined (entity_kind eid) = false -> act_keeps user_endpoints_same (on_writer eid h).
Proof.
  intros He. unfold on_writer. keeps_bind; [apply keeps_get; apply _|]. intros l. destruct (_ !! eid); [|apply keeps_ret; apply _].
  keeps_bind; [apply keeps_lift; apply _|]. intros res. keeps_bind; [|intros _; apply keeps_for; [apply _|]; intros; apply keeps_emit; apply _].
  apply keeps_modify. intros l0 eid' He'. split; [|done]. simpl. rewrite lookup_insert_ne; [done|congruence].
Qed.

Lemma on_builtin_reader clock eid h :
  EntityKind_is_user_defined (entity_kind eid) = false -> act_keeps user_endpoints_same (on_reader clock eid h).
Proof.
  intros He l a l' evs H. unfold on_reader, on_receiver in H.
  apply bind_run_inv in H as (l0 & l1 & e1 & e2 & [= <- <- <-] & H & _).
  apply bind_run_inv in H as ([[u m'] mevs] & l2 & e3 & e4 & E1 & H & _).
  apply bind_run_inv in H as (u2 & l3 & e5 & e6 & [= <- <- <-] & H & _). cbn [fst snd] in H.
  assert (l2 = l /\ with_reader clock eid (fun _ _ => h) (el_message_receiver l) = Ret (u, m', mevs)) as [-> Ew].
  { unfold lift_outcome in E1. destruct (with_reader _ _ _ _) as [[[? ?] ?]| |]; simpl in E1; by simplify_eq. }
  assert (act_keeps (fun m m' => forall eid', eid' <> eid -> available_readers m' !! eid' = available_readers m !! eid') (with_reader clock eid (fun _ _ => h))) as Hk.
  { assert (PreOrder (fun m m' : MessageReceiver => forall eid', eid' <> eid -> available_readers m' !! eid' = available_readers m !! eid'))
      by (split; [done|]; intros m1 m2 m3 H1 H2 eid' He'; by rewrite H2, H1).
    unfold with_reader. keeps_bind; [apply keeps_get; apply _|]. intros m. destruct (_ !! eid); [|apply keeps_ret; apply _].
    destruct (_ !! _); [|apply keeps_lift; apply _]. keeps_bind; [apply keeps_lift; apply _|]. intros res.
    keeps_bind; [|intros _; apply keeps_for; [apply _|]; intros; apply keeps_emit; apply _].
    apply keeps_modify. intros m1 eid' He'. simpl. by rewrite lookup_insert_ne. }
  specialize (Hk _ _ _ _ Ew). simpl in Hk.
  assert (user_endpoints_same (el_set_receiver l m' (foldl send_acknack (el_ack_nack_channel l) mevs)) l') as Hl'.
  { eapply keeps_for; [apply _|intros; apply keeps_emit; apply _|exact H]. }
  transitivity (el_set_receiver l m' (foldl send_acknack (el_ack_nack_channel l) mevs)); [|done].
  intros eid' He'. split; [done|]. simpl. apply Hk. congruence.
Qed.

Lemma participant_updated_builtin_only clock p : act_keeps user_endpoints_same (loop_update_participant clock p).
Proof.
  unfold loop_update_participant. keeps_bind; [apply keeps_get; apply _|]. intros l.
  destruct (find_participant_proxy _ p) as [dp|]; [|apply keeps_ret; apply _]. keeps_bind; [|intros _]; apply keeps_for_in; try apply _.
  - intros [[weid reid] ep] Hin. apply on_builtin_writer. unfold STANDARD_BUILTIN_READERS_INIT_LIST in Hin. set_unfold in Hin. naive_solver.
  - intros [[weid reid] ep] Hin. apply on_builtin_reader. unfold STANDARD_BUILTIN_WRITERS_INIT_LIST in Hin. set_unfold in Hin. naive_solver.
Qed.

Lemma wp_keeps_only {St Ev A} (Rel : relation St) (m : act St Ev A) st (Q : A -> St -> list Ev -> Prop) :
  act_keeps Rel m -> wp m st Q -> wp m st (fun _ st' _ => Rel st st').
Proof. intros Hm Hw. eapply wp_mono; [by apply (wp_keeps Rel)|]. by intros a st' evs [? _]. Qed.

Section participants.
Context `{!Decoder SpdpDiscoveredParticipantData GUID, !Decoder DiscoveredReaderData GUID,
  !Decoder DiscoveredWriterData GUID, !Decoder DiscoveredTopicData GUID, SP : Speedy, !SpeedyLaws SP}.
Context (fuel : nat) (clock : nat -> nat -> nat -> Timestamp) (instant utc : nat -> Z) (caches : nat -> Caches).

(** The built-in topics hold nothing that was not taken before. *)
Definition nothing_pending (d : Discovery) : Prop :=
  forall t,
    DataReader_take fuel (clock t) (tc_topic (caches t)) usize_max ReadCondition_any (d_topic_reader d) = Ret (inr [], d_topic_reader d) /\
    into_iterator fuel (clock t) (tc_subscription (caches t)) (d_subscription_reader d) = Ret (inr [], d_subscription_reader d) /\
    into_iterator fuel (clock t) (tc_publication (caches t)) (d_publication_reader d) = Ret (inr [], d_publication_reader d).

Lemma topic_reader_nothing h d :
  nothing_pending d -> wp (handle_topic_reader fuel clock caches h) d (fun _ d' evs => db_only d d' /\ d_db d' = d_db d /\ evs = []).
Proof.
  intros Hn. destruct (Hn (d_ticks d)) as (E & _). unfold handle_topic_reader. wp_step. apply wp_tick. wp_step. wp_step. wp_step.
  eapply wp_lift; [exact E|]. wp_step. wp_step. cbn [fst snd act_for]. wp_step. by destruct d.
Qed.

Lemma subscription_reader_nothing h d :
  nothing_pending d -> wp (handle_subscription_reader fuel clock utc caches h) d (fun _ d' evs => db_only d d' /\ d_db d' = d_db d /\ evs = []).
Proof.
  intros Hn. destruct (Hn (d_ticks d)) as (_ & E & _). unfold handle_subscription_reader. wp_step. apply wp_tick. wp_step. wp_step. wp_step.
  eapply wp_lift; [exact E|]. wp_step. wp_step. cbn [fst snd]. change (filter _ []) with (@nil (Sample DiscoveredReaderData GUID)).
  cbn [act_for]. wp_step. by destruct d.
Qed.

Lemma publication_reader_nothing h d :
  nothing_pending d -> wp (handle_publication_reader fuel clock utc caches h) d (fun _ d' evs => db_only d d' /\ d_db d' = d_db d /\ evs = []).
Proof.
  intros Hn. destruct (Hn (d_ticks d)) as (_ & _ & E). unfold handle_publication_reader. wp_step. apply wp_tick. wp_step. wp_step. wp_step.
  eapply wp_lift; [exact E|]. wp_step. wp_step. cbn [fst snd]. change (filter _ []) with (@nil (Sample DiscoveredWriterData GUID)).
  cbn [act_for]. wp_step. by destruct d.
Qed.

Lemma nothing_pending_same d d' : db_only d d' -> nothing_pending d -> nothing_pending d'.
Proof. unfold db_only. intros ->. done. Qed.

(** When a participant comes back that was lost by time-out, the database has
    its readers and writers again, as they were.  But all the event loop is told
    is that the participant is there, unless the built-in topics happen to hold
    something that was not taken before; and to be told that changes no endpoint
    of the application.  The matches that ended when the participant was lost are
    not made again, neither of writers nor of readers. *)
Theorem returned_participant_not_rematched p data d :
  db_inv (d_db d) -> participant_proxies (d_db d) !! p = None ->
  spdp_participant_guid data = GUID_new p EntityId_PARTICIPANT -> nothing_pending d ->
  wp (process_discovered_participant_data fuel clock instant utc caches data) d (fun _ d' evs =>
    (forall g drd, prefix g = p -> external_topic_readers_attic (d_db d) !! g = Some drd -> external_topic_readers (d_db d') !! g = Some drd) /\
    (forall g dwd, prefix g = p -> external_topic_writers_attic (d_db d) !! g = Some dwd -> external_topic_writers (d_db d') !! g = Some dwd) /\
    notifications evs = [DN_ParticipantUpdated p] /\
    forall lclock now l, clock_steady lclock -> loop_inv lclock l ->
      wp (handle_discovery_notification lclock (now, DN_ParticipantUpdated p)) l (fun _ l' _ => user_endpoints_same l l')).
Proof.
  intros Hinv Hp Hdata Hn. unfold process_discovered_participant_data, send_discovery_notification, send_participant_status.
  wp_step. apply wp_tick. wp_step. apply wp_update_db. cbn [d_tick d_db]. wp_step. wp_step. rewrite Hdata. cbn [prefix GUID_new app].
  set (db' := (update_participant (instant (d_ticks d)) data (d_db d)).2).
  eapply wp_mono with (Q := fun _ d' evs => d_db d' = db' /\ notifications evs = []).
  - destruct (update_participant _ _ _).1; [|by wp_step]. wp_step. wp_step. wp_step.
    eapply wp_mono; [apply topic_reader_nothing; exact Hn|]. cbv beta. intros _ d1 e1 (H1 & E1 & ->).
    wp_step. eapply wp_mono; [apply subscription_reader_nothing; by eapply nothing_pending_same|]. cbv beta. intros _ d2 e2 (H2 & E2 & ->).
    eapply wp_mono; [apply publication_reader_nothing; eapply nothing_pending_same; [exact H2|]; by eapply nothing_pending_same|].
    cbv beta. intros _ d3 e3 (H3 & E3 & ->). split; [|done]. by rewrite E3, E2, E1.
  - cbv beta. intros _ d' evs (-> & Hev).
    destruct (update_participant_fields (instant (d_ticks d)) data (d_db d)) as (_ & _ & _ & _ & _ & Hr & Hw); [by rewrite Hdata|].
    fold db' in Hr, Hw. rewrite Hdata in Hr, Hw. cbn [prefix GUID_new] in Hr, Hw. split_and!.
    + intros g drd Hg Ha. destruct (store_updated_lookup drd_guid _ _ _ _ _ _ g Hr (inv_readers _ Hinv) Hp Hg) as [-> _]. by rewrite Ha, union_Some_l.
    + intros g dwd Hg Ha. destruct (store_updated_lookup dwd_guid _ _ _ _ _ _ g Hw (inv_writers _ Hinv) Hp Hg) as [-> _]. by rewrite Ha, union_Some_l.
    + unfold notifications in *. csimpl. by rewrite Hev.
    + intros lclock now l Hc Hl. eapply wp_keeps_only; [apply participant_updated_builtin_only|].
      by apply (participant_updated_inv lclock Hc p l).
Qed.
End participants.

(** ** News about topics *)

Lemma readers_on_topic_NoDup db n p :
  keyed drd_guid (external_topic_readers db) -> NoDup (drd_guid <$> readers_on_topic_and_participant db n p).
Proof.
  intros Hk. unfold readers_on_topic_and_participant. eapply sublist_NoDup; [apply (NoDup_bt_keys (external_topic_readers db))|].
  assert (bt_keys (external_topic_readers db) = drd_guid <$> (snd <$> bt_iter (external_topic_readers db))) as ->.
  { unfold bt_keys. rewrite <- list_fmap_compose. apply list_fmap_ext. intros i [g d] Hi. apply list_elem_of_lookup_2, elem_of_bt_iter in Hi.
    symmetry. by apply Hk. }
  apply fmap_sublist. etransitivity; [apply sublist_filter|]. apply fmap_sublist, sublist_filter.
Qed.

Lemma elem_of_readers_on_topic db n g d :
  keyed drd_guid (external_topic_readers db) -> external_topic_readers db !! g = Some d ->
  sbtd_topic_name (drd_subscription_topic_data d) = n -> d ∈ readers_on_topic_and_participant db n (prefix g).
Proof.
  intros Hk Hd Hn. unfold readers_on_topic_and_participant. apply list_elem_of_filter. split; [done|].
  apply list_elem_of_fmap. exists (g, d). split; [done|]. apply list_elem_of_filter. split; [|by apply elem_of_bt_iter].
  apply in_prefix_range; [by apply (Hk g d)|done].
Qed.

(** Readers are announced again as the database has them. *)
Lemma topic_sample_wp s td d :
  let n := tbtd_name (dtd_topic_data td) in
  let p := prefix (publication_handle (sample_info s)) in
  ds_value s = Sample_Value td ->
  wp (handle_topic_sample s) d (fun _ d' evs => db_only d d' /\ d_db d' = db_set_topics (d_db d) (topics (d_db d')) /\
    notifications evs = (DN_WriterUpdated <$> writers_on_topic_and_participant (d_db d) n p) ++
                        (DN_ReaderUpdated <$> readers_on_topic_and_participant (d_db d) n p)).
Proof.
  intros n p Hs. unfold handle_topic_sample, send_discovery_notification. rewrite Hs. wp_step. apply wp_on_db, wp_update_topic_data.
  wp_step. wp_step. wp_step. apply wp_emit_map. apply wp_emit_map. split_and!; [done|done|].
  cbn [app]. rewrite !notifications_app, notifications_db, !notifications_told. done.
Qed.

(** When a participant announces a topic, discovery announces the
    participant's readers on that topic to the event loop again, as the database
    has them, without the locators of the participant.  A reader that announced
    no locators of its own, and is reached through those of its participant, is
    left without any: the writers on the topic have no address to send to. *)
Theorem topic_news_lose_locators `{SP : Speedy, !SpeedyLaws SP} lclock now s td d l g drd :
  ds_value s = Sample_Value td -> db_inv (d_db d) ->
  external_topic_readers (d_db d) !! g = Some drd -> prefix (publication_handle (sample_info s)) = prefix g ->
  sbtd_topic_name (drd_subscription_topic_data drd) = tbtd_name (dtd_topic_data td) ->
  rpx_unicast_locator_list (drd_reader_proxy drd) = [] -> rpx_multicast_locator_list (drd_reader_proxy drd) = [] ->
  clock_steady lclock -> loop_inv lclock l ->
  wp (handle_topic_sample s) d (fun _ d' evs =>
    external_topic_readers (d_db d') !! g = Some drd /\
    wp (act_for (notifications evs) (fun n => handle_discovery_notification lclock (now, n))) l (fun _ l' _ =>
      forall eid w, el_writers l !! eid = Some w -> w_topic_name w = tbtd_name (dtd_topic_data td) ->
        compliance_failure_wrt (w_qos w) (SubscriptionBuiltinTopicData_qos (drd_subscription_topic_data drd)) = None ->
        exists w' rp, el_writers l' !! eid = Some w' /\ readers w' !! g = Some rp /\
          unicast_locator_list rp = [] /\ multicast_locator_list rp = [])).
Proof.
  intros Hs Hinv Hd Hp Hn Hu Hm Hc Hl. destruct (inv_readers _ Hinv) as (Hk & _ & _). destruct (Hk _ _ Hd) as [Hg _].
  pose proof (elem_of_readers_on_topic _ _ _ _ Hk Hd Hn) as Hin.
  pose proof (readers_on_topic_NoDup (d_db d) (tbtd_name (dtd_topic_data td)) (prefix g) Hk) as Hnd.
  eapply wp_mono; [by apply topic_sample_wp|]. rewrite Hp. cbv beta. intros _ d' evs (_ & Edb & Hev). split; [by rewrite Edb|].
  rewrite Hev. apply list_elem_of_split in Hin as (a & b & Eab). rewrite Eab in Hnd |- *.
  rewrite fmap_app, fmap_cons in Hnd. rewrite fmap_app, fmap_cons, app_assoc. eapply wp_mono; [apply last_news_settle; [done|done| |]|].
  - rewrite !Forall_app, Forall_cons, !Forall_fmap. by split_and!; try apply Forall_true.
  - intros g' Hg'. apply Forall_fmap, Forall_forall. simpl in *. intros x Hx Ex. apply NoDup_app in Hnd as (_ & _ & [Hnd _]%NoDup_cons).
    apply Hnd. rewrite Hg', <- Ex. by apply list_elem_of_fmap_2.
  - cbv beta. intros _ l' _ H eid w Hw Ht Hq. destruct (H _ _ Hw) as (w' & Hw' & Hset). simpl in Hset.
    destruct Hset as (rp & Hr & Eu & Em); [congruence|done|]. exists w', rp. rewrite <- Hg. split_and!; [done|done| |].
    + by rewrite Eu, Hu.
    + by rewrite Em, Hm.
Qed.

(** ** Witnesses: a participant with one reader, which has no locators of its own *)

#[local] Instance demo_reader_decoder : Decoder DiscoveredReaderData GUID := {|
  supported_encodings := [mkRepId (0, 1)];
  from_bytes bs _ :=
    match bs with
    | [k] => Some (mkDRD (mkReaderProxy (demo_remote k) false [] [])
               (SubscriptionBuiltinTopicData_new (demo_remote k) None "t" "d" qos_none) None)
    | _ => None
    end;
  key_from_bytes bs _ := match bs with [k] => Some (demo_remote k) | _ => None end;
  hash_key _ _ := [];
|}.
#[local] Instance demo_participant_decoder : Decoder SpdpDiscoveredParticipantData GUID := {|
  supported_encodings := []; from_bytes _ _ := None; key_from_bytes _ _ := None; hash_key _ _ := [] |}.
#[local] Instance demo_writer_decoder : Decoder DiscoveredWriterData GUID := {|
  supported_encodings := []; from_bytes _ _ := None; key_from_bytes _ _ := None; hash_key _ _ := [] |}.
#[local] Instance demo_topic_decoder : Decoder DiscoveredTopicData GUID := {|
  supported_encodings := []; from_bytes _ _ := None; key_from_bytes _ _ := None; hash_key _ _ := [] |}.

Definition demo_peer : SpdpDiscoveredParticipantData :=
  mkSPDP 0 (mkVersion 2 3) VendorId_THIS_IMPLEMENTATION false
    (GUID_new (prefix (demo_remote READER_WITH_KEY_USER_DEFINED)) EntityId_PARTICIPANT)
    [] [] [demo_locator] [] 63 (Some (Duration_from_secs 10)) 0 None None.
Definition demo_bare_reader : DiscoveredReaderData :=
  mkDRD (mkReaderProxy (demo_remote READER_WITH_KEY_USER_DEFINED) false [] [])
    (SubscriptionBuiltinTopicData_new (demo_remote READER_WITH_KEY_USER_DEFINED) None "t" "d" qos_none) None.

Definition demo_builtin_reader {D} : DataReader D GUID := DataReader_from_simple (mkSDR subscriber_qos ReadState_new).
Definition demo_discovery (db : DiscoveryDB) : Discovery :=
  mkDiscovery db demo_builtin_reader demo_builtin_reader demo_builtin_reader demo_builtin_reader
    (DataReader_from_simple (mkSDR subscriber_qos ReadState_new)) (mkLiveliness Timestamp_ZERO false) false 0.
Definition demo_quiet : TopicCache := mkTC "t" "d" qos_none (KeepLast 1) 1 ∅ Timestamp_ZERO ∅ ∅.
Definition demo_announced : TopicCache := demo_released (DData (mkPayload (mkRepId (0, 1)) (0, 0) [READER_WITH_KEY_USER_DEFINED])).
Definition demo_caches (tc : TopicCache) (_ : nat) : Caches := mkCaches demo_quiet tc demo_quiet demo_quiet demo_quiet.
Definition demo_clocks : nat -> nat -> nat -> Timestamp := fun _ _ _ => mkTimestamp 10 0.

Definition demo_peer_db : DiscoveryDB := (update_participant 0 demo_peer (DiscoveryDB_new GUID_UNKNOWN)).2.

(** What the reader of the topic about subscriptions makes of the announcement. *)
Definition demo_change : DeserializedCacheChange DiscoveredReaderData GUID :=
  mkDCC (mkTimestamp 9 0) GUID_UNKNOWN 1 demo_wo (Sample_Value demo_bare_reader).
Definition demo_filled : DataSampleCache DiscoveredReaderData GUID :=
  mkDSC subscriber_qos {[mkTimestamp 9 0 := mkSWMD GenerationCounts_zero GUID_UNKNOWN 1 demo_wo false (Sample_Value demo_bare_reader)]}
    {[demo_remote READER_WITH_KEY_USER_DEFINED := mkIMD {[mkTimestamp 9 0]} IS_Alive GenerationCounts_zero GenerationCounts_sub_zero]}.

Lemma demo_filled_inv : dsc_inv demo_filled.
Proof.
  split; simpl.
  - intros ts d [<- <-]%lookup_singleton_Some. eexists; split; [apply lookup_singleton_eq|set_solver].
  - intros k1 k2 i1 i2 ts [<- _]%lookup_singleton_Some [<- _]%lookup_singleton_Some. done.
Qed.

Lemma demo_decoded :
  decode_all (hash_to_key_map (ReadState_new (K:=GUID))) (get_changes_in_range_reliable demo_announced (last_read_sn (ReadState_new (K:=GUID))))
    = Some ([demo_change], {[ [] := demo_remote READER_WITH_KEY_USER_DEFINED ]}).
Proof. vm_compute. reflexivity. Qed.
Lemma demo_fill : outcome_fold fill_from_deserialized_cache_change (DataSampleCache_new subscriber_qos) [demo_change] = Ret demo_filled.
Proof. vm_compute. reflexivity. Qed.
Lemma demo_unread : unread_samples demo_filled = [Sample_Value demo_bare_reader].
Proof. vm_compute. reflexivity. Qed.

Lemma demo_taken :
  exists r', into_iterator 2 (demo_clocks 0%nat) demo_announced demo_builtin_reader = Ret (inr [Sample_Value demo_bare_reader], r').
Proof.
  destruct (into_iterator_exhausts (D:=DiscoveredReaderData) 2 (demo_clocks 0%nat) demo_announced subscriber_qos ReadState_new (DataSampleCache_new subscriber_qos)
    _ _ _ eq_refl (demo_released_inv _) (demo_released_markers _) ltac:(by intros w sn) demo_decoded demo_fill demo_filled_inv) as (r' & E & _).
  - apply Nat.lt_1_2.
  - vm_compute. discriminate.
  - exists r'. by rewrite <- demo_unread.
Qed.

Lemma demo_clock_steady : clock_steady EventLoopTheorems.demo_clock.
Proof. intros i j _. by vm_compute. Qed.

Lemma announced_readers_matched_witness :
  wp (handle_subscription_reader 2 demo_clocks (fun _ => 0) (demo_caches demo_announced) None) (demo_discovery demo_peer_db) (fun _ d' evs =>
    external_topic_readers (d_db d') !! demo_remote READER_WITH_KEY_USER_DEFINED = Some demo_bare_reader /\
    wp (act_for (notifications evs) (fun n => handle_discovery_notification EventLoopTheorems.demo_clock (mkTimestamp 20 0, n))) demo_loop (fun _ l' _ =>
      exists w' rp, el_writers l' !! EntityId_UNKNOWN = Some w' /\
        readers w' !! demo_remote READER_WITH_KEY_USER_DEFINED = Some rp /\ unicast_locator_list rp = [demo_locator])).
Proof.
  destruct demo_taken as [r' E]. eapply wp_mono.
  - apply (announced_readers_matched 2 demo_clocks (fun _ => 0) (demo_caches demo_announced) EventLoopTheorems.demo_clock (mkTimestamp 20 0) None
      (demo_discovery demo_peer_db) [Sample_Value demo_bare_reader] r' demo_loop [] (Sample_Value demo_bare_reader) []).
    + exact E.
    + vm_compute. reflexivity.
    + constructor.
    + exact demo_clock_steady.
    + exact demo_loop_inv.
  - cbv beta. intros _ d' evs (_ & H1 & H2). split; [exact H1|]. eapply wp_mono; [exact H2|]. cbv beta. intros _ l' _ H.
    destruct (H EntityId_UNKNOWN demo_writer eq_refl) as (w' & Hw' & Hs). destruct Hs as (rp & Hr & Hu & _).
    + vm_compute. reflexivity.
    + vm_compute. reflexivity.
    + exists w', rp. split; [exact Hw'|]. split; [exact Hr|]. rewrite Hu. vm_compute. reflexivity.
Defined.

Lemma rediscovery_drops_others_witness :
  wp (handle_subscription_reader 2 demo_clocks (fun _ => 0) (demo_caches demo_announced) (Some DiscoveryDBTheorems.demo_prefix)) (demo_discovery demo_peer_db) (fun _ d' evs =>
    external_topic_readers (d_db d') !! demo_remote READER_WITH_KEY_USER_DEFINED = None /\
    forall d2, d_subscription_reader d2 = d_subscription_reader d' ->
      wp (handle_subscription_reader 2 demo_clocks (fun _ => 0) (demo_caches demo_announced) None) d2 (fun _ d3 evs3 => notifications evs3 = [])).
Proof.
  eapply wp_mono.
  - apply (rediscovery_drops_others 2 demo_clocks (fun _ => 0) (demo_caches demo_announced) DiscoveryDBTheorems.demo_prefix
      (demo_discovery demo_peer_db) demo_announced subscriber_qos ReadState_new (DataSampleCache_new subscriber_qos)
      [demo_change] {[ [] := demo_remote READER_WITH_KEY_USER_DEFINED ]} demo_filled (Sample_Value demo_bare_reader)).
    + reflexivity.
    + reflexivity.
    + reflexivity.
    + apply demo_released_inv.
    + apply demo_released_markers.
    + by intros w sn.
    + exact demo_decoded.
    + exact demo_fill.
    + exact demo_filled_inv.
    + apply Nat.lt_1_2.
    + vm_compute. discriminate.
    + rewrite demo_unread. apply list_elem_of_singleton. reflexivity.
    + discriminate.
  - cbv beta. intros _ d' evs (_ & H1 & H2). split; [etransitivity; [exact H1|vm_compute; reflexivity]|].
    intros d2 E2. eapply wp_mono; [exact (H2 d2 E2 eq_refl)|]. cbv beta. intros _ d3 evs3 [H3 _]. exact H3.
Defined.

(** A reader whose topic cache is empty. *)
Section quiet.
Context {D : Type} `{!Keyed D GUID, !Decoder D GUID} (fuel : nat) (clock : nat -> nat -> Timestamp) (Hf : (0 < fuel)%nat).

Lemma quiet_fill : fill_local_cache (D:=D) fuel clock 0 demo_quiet demo_builtin_reader = Ret (inr tt, demo_builtin_reader).
Proof.
  destruct fuel as [|fuel']; [lia|]. cbn [fill_local_cache]. unfold try_take_one.
  cbn [demo_builtin_reader DataReader_from_simple simple_data_reader qos_policy read_state].
  rewrite take_loop_nothing; [done|by vm_compute|lia].
Qed.

Lemma quiet_select rc : select_keys_for_access (datasample_cache (demo_builtin_reader (D:=D))) rc = Ret [].
Proof. rewrite select_keys_run by apply dsc_new_inv. f_equal. Qed.

Lemma quiet_iterator : into_iterator (D:=D) fuel clock demo_quiet demo_builtin_reader = Ret (inr [], demo_builtin_reader).
Proof.
  unfold into_iterator, take_bare, filled_access. rewrite quiet_fill. cbn [mbind outcome_bind fst snd]. rewrite quiet_select.
  cbn [mbind outcome_bind]. by rewrite take_nil.
Qed.

Lemma quiet_take : DataReader_take (D:=D) fuel clock demo_quiet usize_max ReadCondition_any demo_builtin_reader = Ret (inr [], demo_builtin_reader).
Proof.
  unfold DataReader_take, filled_access. rewrite quiet_fill. cbn [mbind outcome_bind fst snd]. rewrite quiet_select.
  cbn [mbind outcome_bind]. by rewrite take_nil.
Qed.
End quiet.

Lemma returned_participant_not_rematched_witness :
  wp (process_discovered_participant_data 1 demo_clocks (fun _ => 12000000000) (fun _ => 0) (demo_caches demo_quiet) demo_participant)
    (demo_discovery demo_lost_db) (fun _ d' evs =>
      external_topic_readers (d_db d') !! DiscoveryDBTheorems.demo_reader_guid = Some (demo_reader_data "ShapeType") /\
      notifications evs = [DN_ParticipantUpdated DiscoveryDBTheorems.demo_prefix] /\
      wp (handle_discovery_notification EventLoopTheorems.demo_clock (mkTimestamp 20 0, DN_ParticipantUpdated DiscoveryDBTheorems.demo_prefix)) demo_loop
        (fun _ l' _ => user_endpoints_same demo_loop l')).
Proof.
  eapply wp_mono.
  - apply (returned_participant_not_rematched 1 demo_clocks (fun _ => 12000000000) (fun _ => 0) (demo_caches demo_quiet)
      DiscoveryDBTheorems.demo_prefix demo_participant (demo_discovery demo_lost_db)).
    + apply participant_cleanup_inv, demo_db_inv.
    + vm_compute. reflexivity.
    + reflexivity.
    + intros t. split; [|split].
      * apply quiet_take, Nat.lt_0_1.
      * apply quiet_iterator, Nat.lt_0_1.
      * apply quiet_iterator, Nat.lt_0_1.
  - cbv beta. intros _ d' evs (H1 & _ & H3 & H4). split; [|split; [exact H3|apply H4; [exact demo_clock_steady|exact demo_loop_inv]]].
    apply H1; [reflexivity|vm_compute; reflexivity].
Defined.

Definition demo_peer_ops : list db_op := [OpUpdateParticipant 0 demo_peer; OpUpdateSubscription 0 demo_bare_reader].
Definition demo_known_db : DiscoveryDB :=
  match act_for demo_peer_ops db_step (DiscoveryDB_new GUID_UNKNOWN) with
  | Ret (_, db, _) => db
  | _ => DiscoveryDB_new GUID_UNKNOWN
  end.
Lemma demo_known_db_inv : db_inv demo_known_db.
Proof.
  pose proof (db_run_inv demo_peer_ops (DiscoveryDB_new GUID_UNKNOWN)) as H. unfold wp in H. unfold demo_known_db.
  destruct (act_for _ _ _) as [[[? ?] ?]| |]; apply H || destruct H; try apply DiscoveryDB_new_inv; repeat constructor; by vm_compute.
Qed.

Definition demo_topic_sample : DataSample DiscoveredTopicData GUID :=
  mkDataSample
    (mkSampleInfo SS_NotRead VS_New IS_Alive GenerationCounts_zero 0 0 0 demo_wo
       (GUID_new (prefix (demo_remote 0)) SEDP_BUILTIN_TOPIC_WRITER) 1)
    (Sample_Value (mkDTD 0 (TopicBuiltinTopicData_new None "t" "d" qos_none))).

Lemma topic_news_lose_locators_witness :
  wp (handle_topic_sample demo_topic_sample) (demo_discovery demo_known_db) (fun _ _ evs =>
    wp (act_for (notifications evs) (fun n => handle_discovery_notification EventLoopTheorems.demo_clock (mkTimestamp 20 0, n))) demo_loop (fun _ l' _ =>
      exists w' rp, el_writers l' !! EntityId_UNKNOWN = Some w' /\
        readers w' !! demo_remote READER_WITH_KEY_USER_DEFINED = Some rp /\ unicast_locator_list rp = [])) /\
  reader_unicast demo_known_db demo_bare_reader = [demo_locator].
Proof.
  split; [|vm_compute; reflexivity]. eapply wp_mono.
  - apply (topic_news_lose_locators EventLoopTheorems.demo_clock (mkTimestamp 20 0) demo_topic_sample
      (mkDTD 0 (TopicBuiltinTopicData_new None "t" "d" qos_none)) (demo_discovery demo_known_db) demo_loop
      (demo_remote READER_WITH_KEY_USER_DEFINED) demo_bare_reader).
    + reflexivity.
    + exact demo_known_db_inv.
    + vm_compute. reflexivity.
    + reflexivity.
    + reflexivity.
    + reflexivity.
    + reflexivity.
    + exact demo_clock_steady.
    + exact demo_loop_inv.
  - cbv beta. intros _ d' evs (_ & H). eapply wp_mono; [exact H|]. cbv beta. intros _ l' _ Hl.
    destruct (Hl EntityId_UNKNOWN demo_writer eq_refl) as (w' & rp & Hw' & Hr & Hu & _).
    + vm_compute. reflexivity.
    + vm_compute. reflexivity.
    + exists w', rp. split; [exact Hw'|]. split; [exact Hr|exact Hu].
Defined.
