(* ===== verification/Channels.v ===== *)
(** * Bounded channels

    [src/dds/helpers.rs] and what the application side uses of the channels to
    the background threads.  The channel library itself is not part of the
    program: what it answers to one attempt is an argument, given by a function
    from the number of the attempt.

    - [try_send]: one attempt;
    - [try_send_timeout]: attempts with growing pauses in between, until the
      time is up.  The loop runs on fuel; [try_send_timeout_correct] shows that
      it ends long before that, and how long it waits;
    - [SyncQueue]: what a bounded queue holds, for the channels whose other end
      takes nothing while an operation runs. *)

From S2P Require Import Prelude Time.

(** What the channel answers.  An I/O error comes from the wake-up of the
    receiver, and does not tell whether the value is in the queue. *)
Inductive SendAnswer :=
| SaOk
| SaFull
| SaDisconnected (display : string)
| SaIo (queued : bool) (display : string).

#[export] Instance SendAnswer_eq_dec : EqDecision SendAnswer.
Proof. solve_decision. Defined.

Inductive TrySendError (T : Type) :=
| TseFull (t : T)
| TseDisconnected (t : T) (display : string)
| TseIo (display : string).
Arguments TseFull {T} t.
Arguments TseDisconnected {T} t display.
Arguments TseIo {T} display.

Definition TIMEOUT_EPSILON_NS : Z := 1000.
Definition TIMEOUT_FALLBACK : Duration := Duration_from_nanos 20000000.

(** Enough for every [i64]: the pause doubles each time. *)
Definition try_send_fuel : nat := 64.

Section try_send.
Context {St Ev T : Type} (accepted : T -> Ev) (slept : Z -> Ev).

Definition try_send (answer : SendAnswer) (t : T) : act St Ev (unit + TrySendError T) :=
  match answer with
  | SaOk => _ ← emit_ev (accepted t); mret (inl tt)
  | SaFull => mret (inr (TseFull t))
  | SaDisconnected d => mret (inr (TseDisconnected t d))
  | SaIo queued d =>
      _ ← (if queued then emit_ev (accepted t) else mret tt);
      mret (inr (TseIo d))
  end.

Fixpoint try_send_loop (fuel : nat) (answers : nat -> SendAnswer) (attempt : nat) (mt : T) (time_left delay : Z)
  : act St Ev (unit + TrySendError T) :=
  if TIMEOUT_EPSILON_NS <? time_left then
    match fuel with
    | O => lift_outcome Diverge
    | S fuel =>
        r ← try_send (answers attempt) mt;
        match r with
        | inl _ => mret (inl tt)
        | inr (TseFull full) =>
            _ ← emit_ev (slept (u64 delay));
            try_send_loop fuel answers (S attempt) full (i64 (time_left - delay)) (i64 (delay * 2))
        | inr other => mret (inr other)
        end
    end
  else mret (inr (TseFull mt)).

Definition try_send_timeout (answers : nat -> SendAnswer) (t : T) (timeout_opt : option Duration)
  : act St Ev (unit + TrySendError T) :=
  r ← try_send (answers 0%nat) t;
  match r with
  | inl _ => mret (inl tt)
  | inr (TseFull full) =>
      let timeout := Duration_to_nanoseconds (default TIMEOUT_FALLBACK timeout_opt) in
      try_send_loop try_send_fuel answers 1 full timeout TIMEOUT_EPSILON_NS
  | inr other => mret (inr other)
  end.
End try_send.

(** ** A bounded queue

    [sync_channel(bound)]: the values sent and not yet received. *)

Record SyncQueue (T : Type) := mkQueue { q_bound : nat; q_items : list T; q_connected : bool }.
Arguments mkQueue {T} q_bound q_items q_connected.
Arguments q_bound {T} s.
Arguments q_items {T} s.
Arguments q_connected {T} s.

Definition sync_channel {T} (bound : nat) : SyncQueue T := mkQueue bound [] true.
Definition queue_push {T} (q : SyncQueue T) (t : T) : SyncQueue T :=
  mkQueue (q_bound q) (q_items q ++ [t]) (q_connected q).

(** [None]: sent. *)
Definition queue_try_send {T} (q : SyncQueue T) (t : T) : SyncQueue T * option SendAnswer :=
  if negb (q_connected q) then (q, Some (SaDisconnected "sending on a disconnected channel"))
  else if (length (q_items q) <? q_bound q)%nat then (queue_push q t, None)
  else (q, Some SaFull).

(** The blocking [send] waits until the other end has made room: the value comes
    after everything that was sent before it. *)
Definition queue_send {T} (q : SyncQueue T) (t : T) : SyncQueue T * option SendAnswer :=
  if q_connected q then (queue_push q t, None)
  else (q, Some (SaDisconnected "sending on a disconnected channel")).

(** ** How long an attempt may last *)

(** The pauses before attempt [n + 2]: 1 µs, 2 µs, 4 µs, ... *)
Definition pauses (n : nat) : list Z := (fun i => TIMEOUT_EPSILON_NS * 2 ^ Z.of_nat i) <$> seq 0 n.
Definition total_pause (n : nat) : Z := TIMEOUT_EPSILON_NS * (2 ^ Z.of_nat n - 1).

(** How often the loop may try: the least [n] such that the pause after [n]
    attempts is as long as the timeout. *)
Definition retries (timeout : Z) : nat := Z.to_nat (Z.log2_up ((timeout + 999) / TIMEOUT_EPSILON_NS)).

Lemma retries_spec timeout n : (n < retries timeout)%nat <-> TIMEOUT_EPSILON_NS * 2 ^ Z.of_nat n < timeout.
Proof.
  unfold retries, TIMEOUT_EPSILON_NS. set (c := (timeout + 999) / 1000).
  assert (forall x, 1000 * x < timeout <-> x < c) as Hc by (intros x; unfold c; Z.to_euclidean_division_equations; lia).
  rewrite Hc. destruct (Z.le_gt_cases c 1) as [Hc1|Hc1].
  - rewrite Z.log2_up_eqn0 by done. pose proof (Z.pow_pos_nonneg 2 (Z.of_nat n)). lia.
  - split; intros Hlt.
    + destruct (Z.log2_up_spec c) as [Hl _]; [done|].
      eapply Z.le_lt_trans; [|exact Hl]. apply Z.pow_le_mono_r; lia.
    + apply Nat2Z.inj_lt. pose proof (Z.log2_up_nonneg c). rewrite Z2Nat.id by done.
      destruct (Z.log2_up_spec c) as [_ Hu]; [done|].
      apply (Z.pow_lt_mono_r_iff 2); [lia|done|lia].
Qed.

Lemma retries_bound timeout : timeout < 2 ^ 61 -> (retries timeout <= 52)%nat.
Proof.
  intros Ht. destruct (Nat.le_gt_cases (retries timeout) 52) as [?|H]; [done|].
  apply (retries_spec timeout 52) in H. unfold TIMEOUT_EPSILON_NS in H. change (2 ^ Z.of_nat 52) with 4503599627370496 in H. bounds_lia.
Qed.

Lemma pow2_succ n : 2 ^ Z.of_nat (S n) = 2 * 2 ^ Z.of_nat n.
Proof. rewrite Nat2Z.inj_succ. apply Z.pow_succ_r. lia. Qed.

(** An attempt lasts about as long as asked for, and less than twice as long. *)
Lemma total_pause_bounds timeout :
  TIMEOUT_EPSILON_NS < timeout ->
  timeout - TIMEOUT_EPSILON_NS <= total_pause (retries timeout) < 2 * timeout - TIMEOUT_EPSILON_NS.
Proof.
  intros Ht. unfold total_pause, TIMEOUT_EPSILON_NS in *. split.
  - destruct (retries_spec timeout (retries timeout)) as [_ H]. unfold TIMEOUT_EPSILON_NS in H. lia.
  - destruct (retries timeout) as [|n] eqn:E; [simpl; lia|]. rewrite pow2_succ.
    destruct (retries_spec timeout n) as [H _]. unfold TIMEOUT_EPSILON_NS in H. lia.
Qed.

Lemma sum_pauses n : foldr Z.add 0 (pauses n) = total_pause n.
Proof.
  unfold pauses, total_pause. assert (forall m, foldr Z.add 0 ((fun i => TIMEOUT_EPSILON_NS * 2 ^ Z.of_nat i) <$> seq m n)
    = TIMEOUT_EPSILON_NS * (2 ^ Z.of_nat (m + n) - 2 ^ Z.of_nat m)) as H; [|by rewrite H].
  induction n as [|n IH]; intros m; csimpl; [rewrite Nat.add_0_r; lia|].
  rewrite IH. replace (m + S n)%nat with (S m + n)%nat by lia. rewrite (pow2_succ m). lia.
Qed.

Section correct.
Context {St Ev T : Type} (accepted : T -> Ev) (slept : Z -> Ev).

(** What an answer other than [SaFull] amounts to. *)
Definition settled (answer : SendAnswer) (t : T) : unit + TrySendError T :=
  match answer with
  | SaOk => inl tt
  | SaFull => inr (TseFull t)
  | SaDisconnected d => inr (TseDisconnected t d)
  | SaIo _ d => inr (TseIo d)
  end.
Definition got_through (answer : SendAnswer) : bool :=
  match answer with SaOk | SaIo true _ => true | _ => false end.
Definition settled_events (answer : SendAnswer) (t : T) : list Ev :=
  if got_through answer then [accepted t] else [].

Lemma try_send_run answer t (st : St) : try_send accepted answer t st = Ret (settled answer t, st, settled_events answer t).
Proof. by destruct answer as [| | |[]]. Qed.

Lemma try_send_bind {B} answer t (f : _ -> act St Ev B) st :
  (try_send accepted answer t ≫= f) st =
  match f (settled answer t) st with
  | Ret (b, st', evs) => Ret (b, st', settled_events answer t ++ evs)
  | Panic w => Panic w
  | Diverge => Diverge
  end.
Proof. unfold mbind, act_bind. by rewrite try_send_run. Qed.

Lemma emit_bind {B} e (f : unit -> act St Ev B) st :
  (emit_ev e ≫= f) st =
  match f tt st with Ret (b, st', evs) => Ret (b, st', e :: evs) | Panic w => Panic w | Diverge => Diverge end.
Proof. done. Qed.

(** The outcome of at most [n] attempts from the [k]-th on. *)
Definition sends (answers : nat -> SendAnswer) (t : T) (k n : nat) (m : act St Ev (unit + TrySendError T)) (st : St)
    (before : nat -> list Ev) : Prop :=
  (exists j, (k <= j < k + n)%nat /\ (forall i, (k <= i < j)%nat -> answers i = SaFull) /\ answers j <> SaFull /\
     m st = Ret (settled (answers j) t, st, before j ++ settled_events (answers j) t)) \/
  ((forall i, (k <= i < k + n)%nat -> answers i = SaFull) /\ m st = Ret (inr (TseFull t), st, before (k + n)%nat)).

Lemma loop_run answers t st timeout n k fuel :
  timeout < 2 ^ 61 -> (n <= fuel)%nat -> (k + n = retries timeout)%nat ->
  sends answers t (S k) n
    (try_send_loop accepted slept fuel answers (S k) t (timeout - total_pause k) (TIMEOUT_EPSILON_NS * 2 ^ Z.of_nat k)) st
    (fun j => (fun i => slept (TIMEOUT_EPSILON_NS * 2 ^ Z.of_nat i)) <$> seq k (j - S k)).
Proof.
  intros Ht. revert n k. induction fuel as [|fuel IH]; intros n k Hn Hk; cbn [try_send_loop].
  - assert (n = 0)%nat as -> by lia. right. split; [lia|].
    destruct (retries_spec timeout k) as [_ H]. unfold total_pause.
    destruct (Z.ltb_spec TIMEOUT_EPSILON_NS (timeout - TIMEOUT_EPSILON_NS * (2 ^ Z.of_nat k - 1))); [exfalso; unfold TIMEOUT_EPSILON_NS in *; lia|].
    by replace (S k + 0 - S k)%nat with 0%nat by lia.
  - pose proof (retries_spec timeout k) as Hr. unfold total_pause at 1.
    destruct (Z.ltb_spec TIMEOUT_EPSILON_NS (timeout - TIMEOUT_EPSILON_NS * (2 ^ Z.of_nat k - 1))) as [Hlt|Hge].
    2: { assert (n = 0)%nat as -> by (unfold TIMEOUT_EPSILON_NS in *; lia). right. split; [lia|].
         by replace (S k + 0 - S k)%nat with 0%nat by lia. }
    assert (k < retries timeout)%nat as Hkn by (apply Hr; unfold TIMEOUT_EPSILON_NS in *; lia).
    destruct n as [|n]; [lia|]. unfold sends. rewrite try_send_bind.
    destruct (decide (answers (S k) = SaFull)) as [Ef|Ef].
    + rewrite Ef. cbn -[Z.mul Z.pow Z.of_nat try_send_loop].
      assert (TIMEOUT_EPSILON_NS * 2 ^ Z.of_nat k < 2 ^ 61) as Hb by (apply Hr in Hkn; lia).
      pose proof (Z.pow_pos_nonneg 2 (Z.of_nat k) ltac:(done) ltac:(lia)) as Hp. unfold TIMEOUT_EPSILON_NS in Hlt, Hb.
      rewrite wrap_u_id by (unfold TIMEOUT_EPSILON_NS; bounds_lia).
      rewrite wrap_s_id by (unfold total_pause, TIMEOUT_EPSILON_NS; bounds_lia).
      rewrite wrap_s_id by (unfold TIMEOUT_EPSILON_NS; bounds_lia).
      destruct (IH n (S k)) as [(j & Hj & Hfull & Hne & Hrun)|[Hfull Hrun]]; [lia..| |].
      all: replace (timeout - total_pause (S k)) with (timeout - total_pause k - TIMEOUT_EPSILON_NS * 2 ^ Z.of_nat k) in Hrun
        by (unfold total_pause; rewrite pow2_succ; lia);
        replace (TIMEOUT_EPSILON_NS * 2 ^ Z.of_nat (S k)) with (TIMEOUT_EPSILON_NS * 2 ^ Z.of_nat k * 2) in Hrun by (rewrite pow2_succ; lia).
      * left. exists j. split; [lia|]. split; [intros i ?; destruct (decide (i = S k)) as [->|]; [done|apply Hfull; lia]|]. split; [done|].
        unfold total_pause in Hrun |- *. rewrite emit_bind, Hrun. replace (j - S k)%nat with (S (j - S (S k))) by lia. done.
      * right. split; [intros i ?; destruct (decide (i = S k)) as [->|]; [done|apply Hfull; lia]|].
        unfold total_pause in Hrun |- *. rewrite emit_bind, Hrun.
        replace (S (S k) + n - S (S k))%nat with n by lia. by replace (k + S n - k)%nat with (S n) by lia.
    + left. exists (S k). split; [lia|]. split; [lia|]. split; [done|]. rewrite Nat.sub_diag. cbn [seq fmap list_fmap].
      destruct (answers (S k)) as [| |d|q d]; cbn; rewrite ?app_nil_r; done.
Qed.

Lemma timeout_bound d : Duration_ok d -> Duration_to_nanoseconds d < 2 ^ 61.
Proof.
  intros Hd. unfold Duration_to_nanoseconds. rewrite Duration_to_ticks_eq by done. destruct Hd as [[Hl Hh] [Fl Fh]].
  change (2 ^ (32 - 1)) with 2147483648 in *. change (2 ^ 32) with 4294967296 in *.
  rewrite Z.shiftr_div_pow2 by done. change (2 ^ 32) with 4294967296. set (x := d_seconds d) in *. set (y := d_fraction d) in *.
  assert (- 2147483648000000000 <= ((x * 4294967296 + y) * 1000000000) / 4294967296 < 2147483648000000000)
    by (Z.to_euclidean_division_equations; lia).
  rewrite wrap_s_id by bounds_lia. bounds_lia.
Qed.

(** The one attempt and the loop together. *)
Lemma try_send_timeout_spec answers t timeout_opt (st : St) :
  let d := default TIMEOUT_FALLBACK timeout_opt in
  Duration_ok d ->
  let timeout := Duration_to_nanoseconds d in
  let n := retries timeout in
  let run := try_send_timeout accepted slept answers t timeout_opt st in
  ((exists j, (j <= n)%nat /\ (forall i, (i < j)%nat -> answers i = SaFull) /\ answers j <> SaFull /\
      run = Ret (settled (answers j) t, st, (slept <$> pauses (pred j)) ++ settled_events (answers j) t)) \/
   ((forall i, (i <= n)%nat -> answers i = SaFull) /\ run = Ret (inr (TseFull t), st, slept <$> pauses n))) /\
  (n <= 52)%nat /\
  (TIMEOUT_EPSILON_NS < timeout ->
     timeout - TIMEOUT_EPSILON_NS <= foldr Z.add 0 (pauses n) < 2 * timeout - TIMEOUT_EPSILON_NS).
Proof.
  intros d Hd timeout n run. pose proof (timeout_bound d Hd) as Hb. fold timeout in Hb.
  split; [|split; [by apply retries_bound|rewrite sum_pauses; apply total_pause_bounds]].
  assert (forall m, slept <$> pauses m = (fun i => slept (TIMEOUT_EPSILON_NS * 2 ^ Z.of_nat i)) <$> seq 0 m) as Ep
    by (intros m; unfold pauses; by rewrite <- list_fmap_compose).
  unfold run, try_send_timeout. rewrite try_send_bind.
  destruct (decide (answers 0%nat = SaFull)) as [E0|E0].
  - rewrite E0. cbn [settled settled_events got_through app].
    destruct (loop_run answers t st timeout n 0 try_send_fuel Hb) as [(j & Hj & Hfull & Hne & Hrun)|[Hfull Hrun]];
      [pose proof (retries_bound timeout Hb); unfold try_send_fuel; fold n in H; lia|done| |];
      change (timeout - total_pause 0) with (timeout - 0) in Hrun; rewrite Z.sub_0_r in Hrun;
      change (TIMEOUT_EPSILON_NS * 2 ^ Z.of_nat 0) with TIMEOUT_EPSILON_NS in Hrun;
      fold d; fold timeout; rewrite Hrun.
    + left. exists j. split; [lia|]. split; [intros [|i] ?; [done|apply Hfull; lia]|]. split; [done|].
      rewrite Ep. by replace (j - 1)%nat with (pred j) by lia.
    + right. split; [intros [|i] ?; [done|apply Hfull; lia]|]. rewrite Ep. by replace (1 + n - 1)%nat with n by lia.
  - left. exists 0%nat. split; [lia|]. split; [lia|]. split; [done|].
    destruct (answers 0%nat) as [| |?|[] ?]; cbn; rewrite ?app_nil_r; done.
Qed.

(** C24: [try_send_timeout] returns, after one attempt and at most [retries]
    further ones with pauses of 1, 2, 4, ... µs in between - at most 52, whatever
    the timeout.  The first answer other than "full" is the result, and the value
    is handed over at most once; if all answers are "full" the value comes back.
    The pauses then add up to the timeout less 1 µs at least, and to less than
    twice the timeout. *)
Theorem try_send_timeout_correct answers t timeout_opt (st : St) :
  let d := default TIMEOUT_FALLBACK timeout_opt in
  Duration_ok d ->
  let timeout := Duration_to_nanoseconds d in
  let n := retries timeout in
  let run := try_send_timeout accepted slept answers t timeout_opt st in
  ((exists j, (j <= n)%nat /\ (forall i, (i < j)%nat -> answers i = SaFull) /\ answers j <> SaFull /\
      run = Ret (settled (answers j) t, st, (slept <$> pauses (pred j)) ++ settled_events (answers j) t)) \/
   ((forall i, (i <= n)%nat -> answers i = SaFull) /\ run = Ret (inr (TseFull t), st, slept <$> pauses n))) /\
  (n <= 52)%nat /\
  (TIMEOUT_EPSILON_NS < timeout ->
     timeout - TIMEOUT_EPSILON_NS <= foldr Z.add 0 (pauses n) < 2 * timeout - TIMEOUT_EPSILON_NS).
Proof. apply try_send_timeout_spec. Qed.

(** What an operation that sends relies on: the state stays, and the value is
    handed over exactly when the answer is success, unless an I/O error hides
    that it was. *)
Lemma wp_try_send_timeout answers t timeout_opt st (Q : unit + TrySendError T -> St -> list Ev -> Prop) :
  Duration_ok (default TIMEOUT_FALLBACK timeout_opt) ->
  (forall n, Q (inl tt) st ((slept <$> pauses n) ++ [accepted t])) ->
  (forall n e, Q (inr e) st (slept <$> pauses n)) ->
  (forall n d, (exists j, answers j = SaIo true d) -> Q (inr (TseIo d)) st ((slept <$> pauses n) ++ [accepted t])) ->
  wp (try_send_timeout accepted slept answers t timeout_opt) st Q.
Proof.
  intros Hd Hok Herr Hio. apply wp_run.
  destruct (try_send_timeout_spec answers t timeout_opt st Hd) as [[(j & _ & _ & Hne & ->)|[_ ->]] _].
  - eexists _, _, _. split; [done|]. destruct (answers j) as [| |d|[] d] eqn:E; cbn [settled settled_events got_through];
      rewrite ?app_nil_r; eauto.
  - eauto.
Qed.
End correct.

(** A queue that has room again after 4 µs. *)
Lemma try_send_timeout_correct_witness :
  try_send_timeout (St:=unit) (T:=Z) (inl (B:=Z)) inr (fun k => if (k <? 3)%nat then SaFull else SaOk) 7 None tt
  = Ret (inl tt, tt, [inr 1000; inr 2000; inl 7]) /\ retries 20000000 = 15%nat.
Proof.
  destruct (try_send_timeout_correct (St:=unit) (T:=Z) (inl (B:=Z)) inr (fun k => if (k <? 3)%nat then SaFull else SaOk) 7 None tt)
    as [[(j & Hj & Hfull & Hne & Hrun)|[Hfull _]] _].
  - split; vm_compute; intuition congruence.
  - split; [|vm_compute; reflexivity]. destruct (decide (j = 3%nat)) as [->|Hne3]; [exact Hrun|].
    exfalso. destruct (Nat.lt_ge_cases j 3) as [Hlt|Hge].
    + by destruct (Nat.ltb_spec j 3); [|lia].
    + specialize (Hfull 3%nat ltac:(lia)). done.
  - exfalso. specialize (Hfull 3%nat). assert (3 <= retries (Duration_to_nanoseconds (default TIMEOUT_FALLBACK None)))%nat as H
      by (vm_compute; lia). by specialize (Hfull H).
Defined.
