(* ===== verification/Participant.v ===== *)
(** * The domain participant

    [src/dds/participant.rs] and [src/network/constant.rs]: the ports a
    participant listens on and the search for a free participant id, the
    identifiers of its entities, topics, and the shutdown.

    [Api] is what the application thread reaches through its handles: the
    counter of entity ids, the cache and the discovery database it shares with
    the background threads, and the channels to these.  A shared object is a
    field of this one state; a lock that a panicking thread has poisoned is a
    flag.  The sockets are functions from the port to the answer of the
    operating system. *)

From S2P Require Import Prelude BTree Time Guid Locator Qos StatusEvents DdsCache DiscoveryData DiscoveryDB EventLoop Discovery Channels.

(** ** Errors *)

Inductive CreateError :=
| CE_ResourceDropped (reason : string)
| CE_Poisoned (reason : string)
| CE_Io (e : string)
| CE_TopicKind (expected : TopicKind)
| CE_Internal (reason : string)
| CE_BadParameter (reason : string)
| CE_OutOfResources (reason : string).

Inductive WriteError (D : Type) :=
| WE_Serialization (reason : string) (data : D)
| WE_Poisoned (reason : string) (data : D)
| WE_Io (e : string)
| WE_WouldBlock (data : D)
| WE_Internal (reason : string).
Arguments WE_Serialization {D} reason data.
Arguments WE_Poisoned {D} reason data.
Arguments WE_Io {D} e.
Arguments WE_WouldBlock {D} data.
Arguments WE_Internal {D} reason.

Definition forget_data {D} (e : WriteError D) : WriteError unit :=
  match e with
  | WE_Serialization reason _ => WE_Serialization reason tt
  | WE_Poisoned reason _ => WE_Poisoned reason tt
  | WE_Io e => WE_Io e
  | WE_WouldBlock _ => WE_WouldBlock tt
  | WE_Internal reason => WE_Internal reason
  end.

(** ** Ports *)

Definition PB : Z := 7400.
Definition DG : Z := 250.
Definition PG : Z := 2.
Definition D0 : Z := 0.
Definition D1 : Z := 10.
Definition D2 : Z := 1.
Definition D3 : Z := 11.

Definition spdp_well_known_multicast_port (domain_id : Z) : Z := u16 (u16 (PB + u16 (DG * domain_id)) + D0).
Definition spdp_well_known_unicast_port (domain_id participant_id : Z) : Z :=
  u16 (u16 (u16 (PB + u16 (DG * domain_id)) + D1) + u16 (PG * participant_id)).
Definition user_traffic_multicast_port (domain_id : Z) : Z := u16 (u16 (PB + u16 (DG * domain_id)) + D2).
Definition user_traffic_unicast_port (domain_id participant_id : Z) : Z :=
  u16 (u16 (u16 (PB + u16 (DG * domain_id)) + D3) + u16 (PG * participant_id)).

(** ** Listeners *)

Inductive IoError := AddrInUse (display : string) | OtherIo (display : string).
Definition io_display (e : IoError) : string := match e with AddrInUse d | OtherIo d => d end.

(** [UDPListener::new_unicast] and [new_multicast]: the port that was opened. *)
Record Sockets := mkSockets { new_unicast : Z -> Z + IoError; new_multicast : Z -> Z + IoError }.

Definition ok {A E} (r : A + E) : option A := match r with inl a => Some a | inr _ => None end.

Definition MAX_PARTICIPANT_ID : Z := 120.

(** [while discovery_listener.is_none() && participant_id < 120]; the fuel is the
    number of ids. *)
Fixpoint search_participant_id (fuel : nat) (net : Sockets) (domain_id participant_id : Z) (discovery_listener : option Z)
  : outcome (option Z * Z) :=
  if bool_decide (discovery_listener = None) && (participant_id <? MAX_PARTICIPANT_ID) then
    match fuel with
    | O => Diverge
    | S fuel =>
        let discovery_listener := ok (new_unicast net (spdp_well_known_unicast_port domain_id participant_id)) in
        let participant_id := if bool_decide (discovery_listener = None) then u16 (participant_id + 1) else participant_id in
        search_participant_id fuel net domain_id participant_id discovery_listener
    end
  else Ret (discovery_listener, participant_id).

Definition user_traffic_listener (net : Sockets) (domain_id participant_id : Z) : Z + CreateError :=
  match new_unicast net (user_traffic_unicast_port domain_id participant_id) with
  | inl l => inl l
  | inr (AddrInUse _) =>
      match new_unicast net 0 with
      | inl l => inl l
      | inr e => inr (CE_OutOfResources ("Could not open unicast user traffic listener, any port number: " +:+ io_display e))
      end
  | inr (OtherIo d) => inr (CE_OutOfResources ("Could not open unicast user traffic listener: " +:+ d))
  end.

Definition insert_listener (token : Z) (r : option Z) (listeners : gmap Z Z) : gmap Z Z :=
  match r with Some l => <[token := l]> listeners | None => listeners end.

(** The part of [DomainParticipantInner::new] that opens the listeners: those
    opened, by token, and the participant id. *)
Definition open_listeners (net : Sockets) (domain_id : Z) : outcome ((gmap Z Z * Z) + CreateError) :=
  let listeners := insert_listener DISCOVERY_MUL_LISTENER_TOKEN
                     (ok (new_multicast net (spdp_well_known_multicast_port domain_id))) ∅ in
  found ← search_participant_id (Z.to_nat MAX_PARTICIPANT_ID) net domain_id 0 None;
  let '(discovery_listener, participant_id) := found in
  match discovery_listener with
  | None => Ret (inr (CE_OutOfResources "Could not find free ParticipantId"))
  | Some dl =>
      let listeners := <[DISCOVERY_LISTENER_TOKEN := dl]> listeners in
      let listeners := insert_listener USER_TRAFFIC_MUL_LISTENER_TOKEN
                         (ok (new_multicast net (user_traffic_multicast_port domain_id))) listeners in
      match user_traffic_listener net domain_id participant_id with
      | inr e => Ret (inr e)
      | inl l => Ret (inl (<[USER_TRAFFIC_LISTENER_TOKEN := l]> listeners, participant_id))
      end
  end.

(** [to_locator_address] of each listener; a failure leaves the list empty. *)
Definition self_locators_of (to_locator_address : Z -> list Locator + IoError) (listeners : gmap Z Z) : gmap Z (list Locator) :=
  (fun l => default [] (ok (to_locator_address l))) <$> listeners.

(** ** The state behind the handles *)

Inductive LockId := LkCache | LkDb | LkTopic (name : string).

Record Api := mkApi {
  api_dp : DomainParticipant;
  api_alive : bool;
  entity_id_generator : Z;
  api_cache : DDSCache;
  api_db : DiscoveryDB;
  add_reader_q : SyncQueue ReaderIngredients;
  remove_reader_q : SyncQueue GUID;
  add_writer_q : SyncQueue WriterIngredients;
  remove_writer_q : SyncQueue GUID;
  discovery_q : SyncQueue DiscoveryCommand;
  stop_q : SyncQueue EventLoopCommand;
  poisoned : LockId -> bool;
  held : gset nat;
}.

Inductive ApiEvent := ApDb (ev : DbEvent) | ApSent (guid : GUID) | ApSleep (ns : Z).

Abbreviation A_ := (act Api ApiEvent).

Section setters.
Implicit Types s : Api.
Definition api_set_generator s g : Api :=
  mkApi (api_dp s) (api_alive s) g (api_cache s) (api_db s) (add_reader_q s) (remove_reader_q s) (add_writer_q s)
    (remove_writer_q s) (discovery_q s) (stop_q s) (poisoned s) (held s).
Definition api_set_cache s c : Api :=
  mkApi (api_dp s) (api_alive s) (entity_id_generator s) c (api_db s) (add_reader_q s) (remove_reader_q s) (add_writer_q s)
    (remove_writer_q s) (discovery_q s) (stop_q s) (poisoned s) (held s).
Definition api_set_db s db : Api :=
  mkApi (api_dp s) (api_alive s) (entity_id_generator s) (api_cache s) db (add_reader_q s) (remove_reader_q s) (add_writer_q s)
    (remove_writer_q s) (discovery_q s) (stop_q s) (poisoned s) (held s).
Definition api_set_readers_q s a r : Api :=
  mkApi (api_dp s) (api_alive s) (entity_id_generator s) (api_cache s) (api_db s) a r (add_writer_q s)
    (remove_writer_q s) (discovery_q s) (stop_q s) (poisoned s) (held s).
Definition api_set_writers_q s a r : Api :=
  mkApi (api_dp s) (api_alive s) (entity_id_generator s) (api_cache s) (api_db s) (add_reader_q s) (remove_reader_q s) a r
    (discovery_q s) (stop_q s) (poisoned s) (held s).
Definition api_set_control_q s d q : Api :=
  mkApi (api_dp s) (api_alive s) (entity_id_generator s) (api_cache s) (api_db s) (add_reader_q s) (remove_reader_q s)
    (add_writer_q s) (remove_writer_q s) d q (poisoned s) (held s).
Definition api_set_held s h : Api :=
  mkApi (api_dp s) (api_alive s) (entity_id_generator s) (api_cache s) (api_db s) (add_reader_q s) (remove_reader_q s)
    (add_writer_q s) (remove_writer_q s) (discovery_q s) (stop_q s) (poisoned s) h.
End setters.

(** A new participant: the capacities of the channels are those of
    [DomainParticipantBuilder::build] and [DomainParticipantInner::new]. *)
Definition DomainParticipantInner_new (participant_guid : GUID) (self_locators : gmap Z (list Locator)) : Api :=
  mkApi (mkParticipant participant_guid self_locators) true 0 DDSCache_new (DiscoveryDB_new participant_guid)
    (sync_channel 100) (sync_channel 4) (sync_channel 10) (sync_channel 4) (sync_channel 64) (sync_channel 0)
    (fun _ => false) ∅.

(** ** Entity ids *)

(** The three low bytes of the counter, most significant first. *)
Definition new_entity_id (entity_kind : Z) : A_ EntityId :=
  s ← get_st;
  let n := entity_id_generator s in
  _ ← modify_st (fun s => api_set_generator s (u32 (n + 1)));
  mret (mkEntityId (u8 (Z.shiftr n 16), u8 (Z.shiftr n 8), u8 n) entity_kind).

(** ** Sending to the background threads *)

Definition discovery_try_send (c : DiscoveryCommand) : A_ (option SendAnswer) :=
  s ← get_st;
  let '(q, r) := queue_try_send (discovery_q s) c in
  _ ← modify_st (fun s => api_set_control_q s q (stop_q s));
  mret r.

Definition discovery_send (c : DiscoveryCommand) : A_ (option SendAnswer) :=
  s ← get_st;
  let '(q, r) := queue_send (discovery_q s) c in
  _ ← modify_st (fun s => api_set_control_q s q (stop_q s));
  mret r.

Definition stop_send (c : EventLoopCommand) : A_ (option SendAnswer) :=
  s ← get_st;
  let '(q, r) := queue_send (stop_q s) c in
  _ ← modify_st (fun s => api_set_control_q s (discovery_q s) q);
  mret r.

Definition assert_liveliness : A_ (unit + WriteError unit) :=
  r ← discovery_send DC_ManualAssertLiveliness;
  mret match r with None => inl tt | Some _ => inr (WE_WouldBlock tt) end.

(** ** Topics *)

Definition create_topic (name type_desc : string) (qos : QosPolicies) (topic_kind : TopicKind) : A_ (Topic + CreateError) :=
  let topic := mkTopic name type_desc qos topic_kind in
  s ← get_st;
  if poisoned s LkCache then mret (inr (CE_Poisoned "poisoned lock: another task failed inside"))
  else
    _ ← (match topic_caches (api_cache s) !! name with
         | Some _ => lift_outcome (rust_assert (negb (poisoned s (LkTopic name))) "PoisonError")
         | None => mret tt
         end);
    _ ← modify_st (fun s => api_set_cache s (add_new_topic (api_cache s) name type_desc qos));
    mret (inl topic).

Definition find_topic_in_discovery_db (name : string) : A_ (option Topic + CreateError) :=
  s ← get_st;
  if poisoned s LkDb then mret (inr (CE_Poisoned "discovery db"))
  else match get_topic (api_db s) name with
  | Some d =>
      let td := dtd_topic_data d in
      let topic_kind := match tbtd_key td with Some _ => WithKey | None => NoKey end in
      t ← create_topic (tbtd_name td) (tbtd_type_name td) (TopicBuiltinTopicData_qos td) topic_kind;
      mret match t with inl t => inl (Some t) | inr e => inr e end
  | None => mret (inl None)
  end.

(** One turn of the loop of [find_topic]: what Discovery has made of the database
    before it, what the wait ended with, and whether the time is then up. *)
Record FindRound := mkRound {
  fr_db : DiscoveryDB;
  fr_poll_error : option string;
  fr_notified : bool;
  fr_late : bool;
}.

Fixpoint find_topic_loop (name : string) (rounds : list FindRound) : A_ (option Topic + CreateError) :=
  match rounds with
  | [] => lift_outcome Diverge
  | r :: rounds =>
      _ ← modify_st (fun s => api_set_db s (fr_db r));
      found ← find_topic_in_discovery_db name;
      match found with
      | inr e => mret (inr e)
      | inl (Some topic) => mret (inl (Some topic))
      | inl None =>
          match fr_poll_error r with
          | Some e => mret (inr (CE_Io e))
          | None =>
              if fr_notified r then find_topic_loop name rounds
              else if fr_late r then mret (inl None)
              else find_topic_loop name rounds
          end
      end
  end.

(** [setup]: the error of opening the poll, if any. *)
Definition find_topic (name : string) (setup : option string) (rounds : list FindRound) : A_ (option Topic + CreateError) :=
  match setup with
  | Some e => mret (inr (CE_Io e))
  | None => find_topic_loop name rounds
  end.

Definition discovered_topics : A_ (list DiscoveredTopicData) :=
  s ← get_st;
  _ ← lift_outcome (rust_assert (negb (poisoned s LkDb)) "DiscoveryDB is poisoned.");
  mret (all_user_topics (api_db s)).

(** ** Shutdown

    What of the end of the background threads the participant waits for. *)
Inductive Joined := JoinDiscovery | JoinEventLoop.

(** [DomainParticipantDisc::drop], followed by [DomainParticipantInner::drop];
    [handle]: whether the join handle of Discovery has arrived. *)
Definition drop_disc (handle : bool) : A_ (list Joined) :=
  _ ← stop_send ELC_PrepareStop;
  r ← discovery_send DC_StopDiscovery;
  mret match r with
       | Some _ => []
       | None => if handle then [JoinDiscovery] else []
       end.

Definition drop_inner : A_ (list Joined) :=
  r ← stop_send ELC_Stop;
  mret match r with Some _ => [] | None => [JoinEventLoop] end.

Definition drop_participant (handle : bool) : A_ (list Joined) :=
  j1 ← drop_disc handle;
  j2 ← drop_inner;
  mret (j1 ++ j2).
