(* ===== verification/ParticipantTheorems.v ===== *)
(** * Ports, participant ids, entity ids and topics: theorems

    - [ports_disjoint]: the ports of different participants of different domains
      never coincide, for the domains whose ports fit 16 bits;
    - [listeners_correct]: the participant takes the first free id;
    - [entity_ids_repeat]: entity ids are unique until the counter has gone
      round 24 bits;
    - [found_topic_is_unkeyed], [new_topic_not_found]: what [find_topic] gets
      wrong. *)

From S2P Require Import Prelude BTree Time Guid Locator Qos StatusEvents DdsCache DiscoveryData DiscoveryDB EventLoop Discovery Channels Participant.

(** ** Ports *)

(** The four kinds of ports. *)
Inductive Port := SpdpMulticast | UserMulticast | SpdpUnicast (participant_id : Z) | UserUnicast (participant_id : Z).

Definition port_number (domain_id : Z) (p : Port) : Z :=
  match p with
  | SpdpMulticast => spdp_well_known_multicast_port domain_id
  | UserMulticast => user_traffic_multicast_port domain_id
  | SpdpUnicast id => spdp_well_known_unicast_port domain_id id
  | UserUnicast id => user_traffic_unicast_port domain_id id
  end.

(** The ids the search may select. *)
Definition port_ok (p : Port) : Prop :=
  match p with SpdpUnicast id | UserUnicast id => 0 <= id < MAX_PARTICIPANT_ID | _ => True end.

Definition port_offset (p : Port) : Z :=
  match p with SpdpMulticast => D0 | UserMulticast => D2 | SpdpUnicast id => D1 + PG * id | UserUnicast id => D3 + PG * id end.

Lemma port_number_eq d p : 0 <= d <= 231 -> port_ok p -> port_number d p = PB + DG * d + port_offset p.
Proof.
  intros Hd Hp. destruct p; simpl in Hp; unfold port_number, spdp_well_known_multicast_port, user_traffic_multicast_port,
    spdp_well_known_unicast_port, user_traffic_unicast_port, port_offset, PB, DG, PG, D0, D1, D2, D3, MAX_PARTICIPANT_ID in *;
    unfold wrap_u; change (2 ^ 16) with 65536; rewrite (Z.mod_small (250 * d)) by lia;
    rewrite (Z.mod_small (7400 + _)) by lia; rewrite ?(Z.mod_small (2 * _)) by lia; rewrite !Z.mod_small by (rewrite ?Z.mod_small; lia); lia.
Qed.

(** In the domains 0 to 231 the port numbers are those of the formula, without
    overflow, and no two ports - of any kinds, domains and participant ids below
    120 - are the same. *)
Theorem ports_disjoint d1 d2 p1 p2 :
  0 <= d1 <= 231 -> 0 <= d2 <= 231 -> port_ok p1 -> port_ok p2 ->
  (port_number d1 p1 = port_number d2 p2 <-> d1 = d2 /\ p1 = p2) /\ 7400 <= port_number d1 p1 < 65400.
Proof.
  intros Hd1 Hd2 Hp1 Hp2. rewrite !port_number_eq by done. unfold PB, DG.
  assert (forall p, port_ok p -> 0 <= port_offset p < 250) as Ho
    by (intros []; unfold port_ok, port_offset, MAX_PARTICIPANT_ID, D0, D1, D2, D3, PG; lia).
  pose proof (Ho p1 Hp1). pose proof (Ho p2 Hp2). split; [|lia]. split; [|by intros [-> ->]].
  intros E. assert (d1 = d2) as -> by lia. split; [done|].
  destruct p1, p2; unfold port_ok, port_offset, MAX_PARTICIPANT_ID, D0, D1, D2, D3, PG in *; try (exfalso; lia); try done;
    f_equal; lia.
Qed.

Lemma ports_disjoint_witness :
  port_number 231 (UserUnicast 119) = 65399 /\ port_number 231 (UserUnicast 119) <> port_number 230 (SpdpUnicast 119).
Proof.
  split; [by vm_compute|].
  destruct (ports_disjoint 231 230 (UserUnicast 119) (SpdpUnicast 119)) as [H _]; [lia|lia|by vm_compute|by vm_compute|].
  intros E%H. destruct E. done.
Defined.

(** In domain 232, of which the specification still allows the use, the ports of
    participant ids from 63 on wrap around: the first to port 0, which stands for
    any free port.  From domain 233 on the multicast ports wrap around too. *)
Example port_overflow :
  spdp_well_known_unicast_port 232 63 = 0 /\ spdp_well_known_multicast_port 233 = 114.
Proof. by vm_compute. Qed.

(** ** The participant id *)

(** Whether the discovery port of the id can be opened. *)
Definition id_free (net : Sockets) (domain_id id : Z) : option Z := ok (new_unicast net (spdp_well_known_unicast_port domain_id id)).

Lemma search_run net d fuel id :
  0 <= id <= MAX_PARTICIPANT_ID -> id + Z.of_nat fuel = MAX_PARTICIPANT_ID ->
  (exists p l, id <= p < MAX_PARTICIPANT_ID /\ id_free net d p = Some l /\ (forall q, id <= q < p -> id_free net d q = None) /\
     search_participant_id fuel net d id None = Ret (Some l, p)) \/
  ((forall q, id <= q < MAX_PARTICIPANT_ID -> id_free net d q = None) /\
     search_participant_id fuel net d id None = Ret (None, MAX_PARTICIPANT_ID)).
Proof.
  revert id. induction fuel as [|fuel IH]; intros id Hid Hf; cbn [search_participant_id].
  - assert (id = MAX_PARTICIPANT_ID) as -> by lia. right. split; [lia|]. by rewrite Z.ltb_irrefl.
  - destruct (Z.ltb_spec id MAX_PARTICIPANT_ID) as [Hlt|]; [|lia]. cbn [bool_decide decide option_eq_None_dec andb].
    fold (id_free net d id). destruct (id_free net d id) as [l|] eqn:E.
    + left. exists id, l. split; [lia|]. split; [done|]. split; [lia|]. by destruct fuel.
    + rewrite bool_decide_eq_true_2 by done. rewrite wrap_u_id by (unfold MAX_PARTICIPANT_ID in *; bounds_lia).
      destruct (IH (id + 1)) as [(p & l & Hp & Hl & Hq & Hrun)|[Hq Hrun]]; [lia|lia|left; exists p, l|right]; rewrite Hrun.
      * split; [lia|]. split; [done|]. split; [|done]. intros q ?. destruct (decide (q = id)) as [->|]; [done|apply Hq; lia].
      * split; [|done]. intros q ?. destruct (decide (q = id)) as [->|]; [done|apply Hq; lia].
Qed.

Definition listeners_of (net : Sockets) (d p l u : Z) : gmap Z Z :=
  <[USER_TRAFFIC_LISTENER_TOKEN := u]>
    (insert_listener USER_TRAFFIC_MUL_LISTENER_TOKEN (ok (new_multicast net (user_traffic_multicast_port d)))
       (<[DISCOVERY_LISTENER_TOKEN := l]>
          (insert_listener DISCOVERY_MUL_LISTENER_TOKEN (ok (new_multicast net (spdp_well_known_multicast_port d))) ∅))).

(** Opening the listeners always comes to an end.  The participant takes the
    least id below 120 whose discovery port can be opened, listens there, and on
    the user port of that id or, if it is taken, on any port; a multicast port
    that cannot be opened is left out.  It fails only if all ids are taken or the
    user port cannot be opened. *)
Theorem listeners_correct net d :
  (exists p l, 0 <= p < MAX_PARTICIPANT_ID /\ id_free net d p = Some l /\ (forall q, 0 <= q < p -> id_free net d q = None) /\
     match user_traffic_listener net d p with
     | inl u => open_listeners net d = Ret (inl (listeners_of net d p l u, p)) /\
         (new_unicast net (user_traffic_unicast_port d p) = inl u \/
          (exists e, new_unicast net (user_traffic_unicast_port d p) = inr (AddrInUse e)) /\ new_unicast net 0 = inl u)
     | inr e => open_listeners net d = Ret (inr e)
     end) \/
  ((forall q, 0 <= q < MAX_PARTICIPANT_ID -> id_free net d q = None) /\
     open_listeners net d = Ret (inr (CE_OutOfResources "Could not find free ParticipantId"))).
Proof.
  unfold open_listeners. destruct (search_run net d (Z.to_nat MAX_PARTICIPANT_ID) 0) as [(p & l & Hp & Hl & Hq & ->)|[Hq ->]];
    [by vm_compute|by vm_compute| |]; [left; exists p, l|right]; [|done].
  split; [done|]. split; [done|]. split; [done|]. cbn. unfold user_traffic_listener.
  destruct (new_unicast net (user_traffic_unicast_port d p)) as [u|[e|e]]; [by eauto| |done].
  destruct (new_unicast net 0); [|done]. eauto 6.
Qed.

(** ** Entity ids *)

Fixpoint new_entity_ids (kinds : list Z) : A_ (list EntityId) :=
  match kinds with
  | [] => mret []
  | k :: kinds => e ← new_entity_id k; es ← new_entity_ids kinds; mret (e :: es)
  end.

Definition key_number (k : Z * Z * Z) : Z := let '(a, b, c) := k in a * 65536 + b * 256 + c.
Definition key_of (n : Z) : Z * Z * Z := (u8 (Z.shiftr n 16), u8 (Z.shiftr n 8), u8 n).

Lemma key_of_number n : key_number (key_of n) = n mod 2 ^ 24.
Proof.
  unfold key_number, key_of, wrap_u. rewrite !Z.shiftr_div_pow2 by done. pow2. Z.to_euclidean_division_equations. lia.
Qed.

Lemma key_of_inj n m : key_of n = key_of m <-> n mod 2 ^ 24 = m mod 2 ^ 24.
Proof.
  rewrite <- !key_of_number. split; [by intros ->|]. unfold key_of, key_number.
  pose proof (fun x => wrap_u_range 8 x ltac:(done)) as Hr.
  pose proof (Hr n); pose proof (Hr m); pose proof (Hr (Z.shiftr n 8)); pose proof (Hr (Z.shiftr m 8)).
  pose proof (Hr (Z.shiftr n 16)); pose proof (Hr (Z.shiftr m 16)). intros E.
  assert (u8 (Z.shiftr n 16) = u8 (Z.shiftr m 16) /\ u8 (Z.shiftr n 8) = u8 (Z.shiftr m 8) /\ u8 n = u8 m) as (-> & -> & ->)
    by bounds_lia. done.
Qed.

(** The counter may have wrapped around; the identifiers do not tell. *)
Lemma key_of_u32 n m : key_of (u32 n + m) = key_of (n + m).
Proof.
  apply key_of_inj. unfold wrap_u. rewrite Zplus_mod. symmetry. rewrite Zplus_mod. f_equal. f_equal.
  pow2. Z.to_euclidean_division_equations. lia.
Qed.

Lemma new_entity_ids_run kinds s :
  exists s', new_entity_ids kinds s =
    Ret (imap (fun i k => mkEntityId (key_of (entity_id_generator s + Z.of_nat i)) k) kinds, s', []).
Proof.
  revert s. induction kinds as [|k kinds IH]; intros s; [by exists s|].
  destruct (IH (api_set_generator s (u32 (entity_id_generator s + 1)))) as (s' & E).
  exists s'. cbn [new_entity_ids]. unfold new_entity_id, mbind, act_bind, get_st, modify_st, mret, act_ret. cbn -[new_entity_ids imap].
  rewrite E. do 2 f_equal. cbn [imap]. rewrite Z.add_0_r. do 2 f_equal. apply imap_ext. intros i x _. cbn. f_equal.
  rewrite key_of_u32. f_equal. lia.
Qed.

(** Two of the entity ids a participant gives out have the same key exactly
    when a multiple of 2^24 others lies between them: the ids of fewer than 2^24
    endpoints are all different, whatever the state of the counter, and the next
    one is that of the first again. *)
Theorem entity_ids_repeat kinds s :
  exists ids s', new_entity_ids kinds s = Ret (ids, s', []) /\ length ids = length kinds /\
    forall i j e1 e2, ids !! i = Some e1 -> ids !! j = Some e2 ->
      (entity_key e1 = entity_key e2 <-> (2 ^ 24 | Z.of_nat i - Z.of_nat j)).
Proof.
  destruct (new_entity_ids_run kinds s) as (s' & E). eexists _, s'. split; [exact E|]. split; [by rewrite length_imap|].
  intros i j e1 e2 (k1 & _ & ->)%list_lookup_imap_Some (k2 & _ & ->)%list_lookup_imap_Some. cbn [entity_key].
  rewrite key_of_inj. rewrite <- Z.mod_divide by done.
  split; intros H.
  - replace (Z.of_nat i - Z.of_nat j) with (entity_id_generator s + Z.of_nat i - (entity_id_generator s + Z.of_nat j)) by lia.
    rewrite Zminus_mod, H, Z.sub_diag. done.
  - replace (entity_id_generator s + Z.of_nat i) with (entity_id_generator s + Z.of_nat j + (Z.of_nat i - Z.of_nat j)) by lia.
    rewrite Zplus_mod, H, Z.add_0_r. by rewrite Zmod_mod.
Qed.

(** ** Finding topics *)

Lemma create_topic_run name ty q k s :
  poisoned s LkCache = false -> poisoned s (LkTopic name) = false ->
  create_topic name ty q k s = Ret (inl (mkTopic name ty q k), api_set_cache s (add_new_topic (api_cache s) name ty q), []).
Proof.
  intros H1 H2. unfold create_topic, mbind, act_bind, get_st. rewrite H1.
  destruct (topic_caches (api_cache s) !! name); unfold lift_outcome; rewrite ?H2; done.
Qed.

(** The topic that a description is turned into. *)
Definition found_topic (d : DiscoveredTopicData) : Topic :=
  let td := dtd_topic_data d in
  mkTopic (tbtd_name td) (tbtd_type_name td) (TopicBuiltinTopicData_qos td)
    match tbtd_key td with Some _ => WithKey | None => NoKey end.

(** No lock has been poisoned. *)
Definition unpoisoned (s : Api) : Prop := forall l, poisoned s l = false.

Definition with_topic (s : Api) (t : Topic) : Api :=
  api_set_cache s (add_new_topic (api_cache s) (t_name t) (t_type_name t) (t_qos t)).

Lemma find_in_db_run name s :
  unpoisoned s ->
  find_topic_in_discovery_db name s =
  match get_topic (api_db s) name with
  | Some d => Ret (inl (Some (found_topic d)), with_topic s (found_topic d), [])
  | None => Ret (inl None, s, [])
  end.
Proof.
  intros Hp. unfold find_topic_in_discovery_db, mbind at 1, act_bind at 1, get_st at 1. rewrite Hp.
  destruct (get_topic (api_db s) name) as [d|]; [|done]. cbn -[create_topic].
  unfold mbind, act_bind. by rewrite create_topic_run.
Qed.

(** A round after which the search goes on. *)
Definition goes_on (r : FindRound) : Prop := fr_poll_error r = None /\ (fr_notified r = true \/ fr_late r = false).

(** [find_topic] returns the topic as soon as the database knows it when it
    looks, with the name, type and QoS of the description and a cache for its
    samples, provided no wait before has failed or run out of time without a
    notification. *)
Theorem find_topic_correct name before r after d s :
  unpoisoned s ->
  Forall (fun r => get_topic (fr_db r) name = None /\ goes_on r) before ->
  get_topic (fr_db r) name = Some d ->
  exists s', find_topic name None (before ++ r :: after) s = Ret (inl (Some (found_topic d)), s', []) /\
    api_db s' = fr_db r /\ is_Some (get_existing_topic_cache (api_cache s') (t_name (found_topic d))).
Proof.
  intros Hp Hb Hd. unfold find_topic. revert s Hp. induction Hb as [|r0 before [Hn [He Hg]] _ IH]; intros s Hp.
  - exists (with_topic (api_set_db s (fr_db r)) (found_topic d)). split; [|split; [done|]].
    + cbn [app find_topic_loop]. unfold mbind at 1, act_bind at 1, modify_st at 1. cbn -[find_topic_in_discovery_db].
      unfold mbind, act_bind. rewrite find_in_db_run by done. cbn [api_db api_set_db]. by rewrite Hd.
    + unfold get_existing_topic_cache, with_topic, add_new_topic. cbn. rewrite lookup_insert_eq. by eexists.
  - destruct (IH (api_set_db s (fr_db r0)) Hp) as (s' & E & Hs). exists s'. split; [|done].
    cbn [app find_topic_loop]. unfold mbind at 1, act_bind at 1, modify_st at 1. cbn -[find_topic_in_discovery_db find_topic_loop].
    unfold mbind, act_bind. rewrite find_in_db_run by done. cbn [api_db api_set_db]. rewrite Hn, He.
    destruct Hg as [->| ->]; [by rewrite E|]. destruct (fr_notified r0); by rewrite E.
Qed.

(** No description carries a key. *)
Definition db_unkeyed (db : DiscoveryDB) : Prop :=
  forall n t u v d, topics db !! n = Some t -> t !! u = Some (v, d) -> tbtd_key (dtd_topic_data d) = None.

Lemma db_unkeyed_put db n t u v d :
  db_unkeyed db -> (t = ∅ \/ topics db !! n = Some t) -> tbtd_key (dtd_topic_data d) = None ->
  db_unkeyed (db_set_topics db (<[n := <[u := (v, d)]> t]> (topics db))).
Proof.
  intros Hdb Ht Hd n' t' u' v' d'. cbn [topics db_set_topics].
  destruct (decide (n' = n)) as [->|Hn]; [rewrite lookup_insert_eq; intros [= <-]|rewrite lookup_insert_ne by done; apply Hdb].
  destruct (decide (u' = u)) as [->|Hu]; [rewrite lookup_insert_eq; by intros [= <- <-]|rewrite lookup_insert_ne by done].
  destruct Ht as [->|Ht]; [by rewrite lookup_empty|by eapply Hdb].
Qed.

Lemma update_topic_unkeyed dtd u via db :
  db_unkeyed db -> tbtd_key (dtd_topic_data dtd) = None -> wp (update_topic_data dtd u via) db (fun _ db' _ => db_unkeyed db').
Proof.
  intros Hdb Hd. unfold update_topic_data. wp_step. wp_step. wp_step.
  assert (forall t (b : bool) o, (t = ∅ \/ topics db !! tbtd_name (dtd_topic_data dtd) = Some t) ->
    wp (_ ← modify_st (fun db => db_set_topics db (<[tbtd_name (dtd_topic_data dtd) := <[u := (via, dtd)]> t]> (topics db)));
        mret (b, o)) db (fun (r : bool * option DomainParticipantStatusEvent) db' (_ : list DbEvent) => db_unkeyed db')) as Hput
    by (intros; wp_step; wp_step; wp_step; by apply db_unkeyed_put).
  assert (forall (m : act DiscoveryDB DbEvent (bool * option DomainParticipantStatusEvent)) f,
    (forall a db1, db_unkeyed db1 -> wp (f a) db1 (fun _ db' _ => db_unkeyed db')) ->
    wp m db (fun _ db' _ => db_unkeyed db') -> wp m db (fun a st' evs => wp (f a) st' (fun (_ : unit) db' (_ : list DbEvent) => db_unkeyed db'))) as Hseq
    by (intros m f Hf Hm; eapply wp_mono; [exact Hm|intros; by apply Hf]).
  apply Hseq; [intros [b [o|]] db1 H1; repeat wp_step; destruct b; by repeat wp_step|].
  destruct (topics db !! _) as [t|] eqn:Et.
  - destruct (t !! u) as [[v old]|].
    + destruct (negb _); [destruct (bool_decide _); [apply Hput; auto|by wp_step]|by wp_step].
    + apply Hput; auto.
  - wp_step. wp_step. repeat wp_step. apply db_unkeyed_put; auto.
Qed.

(** What this implementation makes of its own topics, and of the topics it learns
    from publications and subscriptions, never carries a key. *)
Lemma own_topics_unkeyed utc topic db : db_unkeyed db -> wp (update_topic_data_p utc topic) db (fun _ db' _ => db_unkeyed db').
Proof. intros Hdb. unfold update_topic_data_p. wp_step. wp_step. by apply update_topic_unkeyed. Qed.

Lemma endpoint_topics_unkeyed p s :
  tbtd_key (PublicationBuiltinTopicData_to_topic_data p) = None /\ tbtd_key (SubscriptionBuiltinTopicData_to_topic_data s) = None.
Proof. done. Qed.

Lemma get_topic_unkeyed db name d : db_unkeyed db -> get_topic db name = Some d -> t_kind (found_topic d) = NoKey.
Proof.
  intros Hdb. unfold get_topic. destruct (topics db !! name) as [m|] eqn:E; [|done]. cbn.
  destruct (head (bt_values m)) as [[v d']|] eqn:Eh; [|done]. intros [= <-]. unfold found_topic. cbn.
  assert ((v, d') ∈ bt_values m) as Hin by (destruct (bt_values m); [done|injection Eh as ->; set_solver]).
  apply elem_of_bt_values in Hin as (u & Hu). by rewrite (Hdb name m u v d' E Hu).
Qed.

(** Whether the channel on which [find_topic] waits gets a token. *)
Definition wakes_find_topic (evs : list DbEvent) : bool :=
  existsb (fun ev => match ev with DbTopicUpdated => true | _ => false end) evs.

(** A topic that becomes known while [find_topic] waits for it is not found:
    the database does not announce it, so that the wait ends with the timeout,
    after which the loop is left without another look - although the database
    now knows the topic. *)
Theorem new_topic_not_found name dtd updater via db s :
  unpoisoned s -> topics db !! name = None -> tbtd_name (dtd_topic_data dtd) = name ->
  exists db' evs, update_topic_data dtd updater via db = Ret (tt, db', evs) /\ get_topic db' name = Some dtd /\
    forall rest, find_topic name None (mkRound db None (wakes_find_topic evs) true :: rest) s = Ret (inl None, api_set_db s db, []).
Proof.
  intros Hp Hn Hname. unfold update_topic_data, mbind at 1, act_bind at 1, get_st at 1. rewrite Hname, Hn.
  unfold mbind, act_bind, modify_st, emit_ev, mret, act_ret. cbn.
  eexists _, _. split; [done|]. split.
  - unfold get_topic. cbn [topics db_set_topics]. rewrite lookup_insert_eq. cbn.
    assert (forall x, x ∈ bt_values ({[updater := (via, dtd)]} : gmap GUID (DiscoveredVia * DiscoveredTopicData)) -> x = (via, dtd)) as Hall
      by (intros x (u & Hu%lookup_singleton_Some)%elem_of_bt_values; naive_solver).
    assert ((via, dtd) ∈ bt_values ({[updater := (via, dtd)]} : gmap GUID (DiscoveredVia * DiscoveredTopicData))) as Hin
      by (apply elem_of_bt_values; exists updater; by rewrite lookup_singleton_eq).
    rewrite insert_empty. destruct (bt_values _) as [|x l]; [by apply not_elem_of_nil in Hin|]. cbn.
    by rewrite (Hall x) by set_solver.
  - intros rest. unfold find_topic. cbn [find_topic_loop].
    unfold mbind, act_bind, modify_st. cbn -[find_topic_in_discovery_db find_topic_loop]. rewrite find_in_db_run by done.
    cbn [api_db api_set_db]. unfold get_topic. by rewrite Hn.
Qed.

(** ** A participant to try it on *)

Definition demo_guid : GUID := mkGUID (mkPrefix (replicate 12 1)) EntityId_PARTICIPANT.
Definition demo_api : Api := DomainParticipantInner_new demo_guid ∅.
Definition demo_dtd : DiscoveredTopicData := mkDTD 0 (TopicBuiltinTopicData_new None "Square" "ShapeType" qos_none).
Definition demo_known : DiscoveryDB :=
  match update_topic_data demo_dtd demo_guid ViaPublication (api_db demo_api) with Ret (_, db, _) => db | _ => api_db demo_api end.

Lemma find_topic_correct_witness :
  exists s', find_topic "Square" None [mkRound (api_db demo_api) None false false; mkRound demo_known None false false] demo_api
    = Ret (inl (Some (mkTopic "Square" "ShapeType" qos_none NoKey)), s', []).
Proof.
  destruct (find_topic_correct "Square" [mkRound (api_db demo_api) None false false] (mkRound demo_known None false false) []
              demo_dtd demo_api) as (s' & E & _).
  - done.
  - constructor; [|constructor]. split; [by vm_compute|]. split; [done|by right].
  - by vm_compute.
  - exists s'. exact E.
Defined.

Lemma new_topic_not_found_witness :
  find_topic "Square" None [mkRound (api_db demo_api) None false true] demo_api = Ret (inl None, api_set_db demo_api (api_db demo_api), []) /\
  get_topic demo_known "Square" = Some demo_dtd.
Proof.
  destruct (new_topic_not_found "Square" demo_dtd demo_guid ViaPublication (api_db demo_api) demo_api)
    as (db' & evs & E & Hdb & Hfind); [done|by vm_compute|done|].
  assert (db' = demo_known) as -> by (unfold demo_known; by rewrite E).
  split; [|done]. assert (wakes_find_topic evs = false) as Hw by (vm_compute in E; by inversion E).
  specialize (Hfind []). by rewrite Hw in Hfind.
Defined.
