(* ===== verification/DataWriter.v ===== *)
(** * The application's data writer

    [src/dds/with_key/datawriter.rs], [src/dds/no_key/datawriter.rs] and the
    wrappers of [src/dds/no_key/wrappers.rs].

    A [DataWriter] numbers the samples and hands them to the RTPS writer through a
    bounded channel.  Its operations are handlers on the writer's own state - the
    counter of sequence numbers and the slot for a waker - whose events are the
    commands that enter the channel, the pauses, and the commands for Discovery.
    The answers of the channel are arguments.  A future is a value that each poll
    replaces; a task is identified by a number. *)

From S2P Require Import Prelude Wire SequenceNumbers Time Guid Qos Payload Submessages SampleCache HistoryBuffer Writer Discovery Channels DiscoveryData Participant.

(** ** Write options *)

Record WriteOptionsBuilder := mkWOB {
  wob_related_sample_identity : option (GUID * SequenceNumber);
  wob_source_timestamp : option Timestamp;
  wob_to_single_reader : option GUID;
}.

Definition WriteOptionsBuilder_new : WriteOptionsBuilder := mkWOB None None None.
Definition WriteOptionsBuilder_build (b : WriteOptionsBuilder) : WriteOptions :=
  mkWriteOptions (wob_related_sample_identity b) (wob_source_timestamp b) (wob_to_single_reader b).
Definition WriteOptionsBuilder_related_sample_identity (b : WriteOptionsBuilder) (si : GUID * SequenceNumber) : WriteOptionsBuilder :=
  mkWOB (Some si) (wob_source_timestamp b) (wob_to_single_reader b).
Definition WriteOptionsBuilder_related_sample_identity_opt (b : WriteOptionsBuilder) (si : option (GUID * SequenceNumber))
  : WriteOptionsBuilder := mkWOB si (wob_source_timestamp b) (wob_to_single_reader b).
Definition WriteOptionsBuilder_source_timestamp (b : WriteOptionsBuilder) (t : Timestamp) : WriteOptionsBuilder :=
  mkWOB (wob_related_sample_identity b) (Some t) (wob_to_single_reader b).
Definition WriteOptionsBuilder_to_single_reader (b : WriteOptionsBuilder) (reader : GUID) : WriteOptionsBuilder :=
  mkWOB (wob_related_sample_identity b) (wob_source_timestamp b) (Some reader).

(** [impl From<Option<Timestamp>> for WriteOptions] *)
Definition WriteOptions_from (source_timestamp : option Timestamp) : WriteOptions := mkWriteOptions None source_timestamp None.

(** ** Serialization

    The traits an application implements, or gets from the CDR adapter. *)

Class SerializerAdapter (D K : Type) := {
  output_encoding : RepresentationIdentifier;
  to_bytes : D -> bytes + string;
  key_to_bytes : K -> bytes + string;
}.

Class NoKeySerializerAdapter (D : Type) := {
  nk_output_encoding : RepresentationIdentifier;
  nk_to_bytes : D -> bytes + string;
}.

(** A sample of a topic without key, as one with the key [()]. *)
Record NoKeyWrapper (D : Type) := mkNoKey { nk_d : D }.
Arguments mkNoKey {D} nk_d.
Arguments nk_d {D} n.

#[export] Instance NoKeyWrapper_keyed {D} : Keyed (NoKeyWrapper D) unit := fun _ => tt.

#[export] Instance SAWrapper {D} `{SA : !NoKeySerializerAdapter D} : SerializerAdapter (NoKeyWrapper D) unit := {|
  output_encoding := nk_output_encoding;
  to_bytes := fun value => nk_to_bytes (nk_d value);
  key_to_bytes := fun _ => inl [];
|}.

Definition unwrap_no_key_write_error {D} (e : WriteError (NoKeyWrapper D)) : WriteError D :=
  match e with
  | WE_Serialization reason data => WE_Serialization reason (nk_d data)
  | WE_Poisoned reason data => WE_Poisoned reason (nk_d data)
  | WE_WouldBlock data => WE_WouldBlock (nk_d data)
  | WE_Internal reason => WE_Internal reason
  | WE_Io e => WE_Io e
  end.

(** ** The writer *)

Record DataWriter := mkDataWriter {
  dw_topic : Topic;
  dw_qos_policy : QosPolicies;
  dw_my_guid : GUID;
  available_sequence_number : Z;
  cc_upload_waker : option Z;
}.

Definition dw_set_number (w : DataWriter) (n : Z) : DataWriter :=
  mkDataWriter (dw_topic w) (dw_qos_policy w) (dw_my_guid w) n (cc_upload_waker w).
Definition dw_set_waker (w : DataWriter) (o : option Z) : DataWriter :=
  mkDataWriter (dw_topic w) (dw_qos_policy w) (dw_my_guid w) (available_sequence_number w) o.

Inductive DwEvent :=
| DwUpload (c : WriterCommand)
| DwSleep (ns : Z)
| DwDiscovery (c : DiscoveryCommand)
| DwAckWaker (task : Z).

Abbreviation DW := (act DataWriter DwEvent).

(** The commands that a writer with manual liveliness by participant sends to
    Discovery, when it is created and when it writes. *)
Definition liveliness_commands (qos : QosPolicies) : list DiscoveryCommand :=
  match liveliness qos with
  | Some (ManualByParticipant _) => [DC_ManualAssertLiveliness]
  | Some (Automatic _) | Some (ManualByTopic _) | None => []
  end.

(** [DataWriter::new]; the writer and what it sends. *)
Definition DataWriter_new (topic : Topic) (qos : QosPolicies) (guid : GUID) : DataWriter * list DiscoveryCommand :=
  (mkDataWriter topic qos guid 1 None, liveliness_commands qos).

(** [fetch_add] and [fetch_sub] on an [AtomicI64] *)
Definition next_sequence_number : DW SequenceNumber :=
  w ← get_st;
  _ ← modify_st (fun w => dw_set_number w (i64 (available_sequence_number w + 1)));
  mret (available_sequence_number w).
Definition undo_sequence_number : DW unit :=
  modify_st (fun w => dw_set_number w (i64 (available_sequence_number w - 1))).

(** Whether Discovery receives the command does not matter here: a failure is
    only logged. *)
Definition refresh_manual_liveliness : DW unit :=
  w ← get_st;
  act_for (liveliness_commands (dw_qos_policy w)) (fun c => emit_ev (DwDiscovery c)).

Abbreviation SampleIdentity := (GUID * SequenceNumber)%type.

Section writing.
Context {D K : Type} `{SA : !SerializerAdapter D K}.

Definition write_with_options (answers : nat -> SendAnswer) (data : D) (write_options : WriteOptions)
  : DW (SampleIdentity + WriteError D) :=
  match to_bytes (K:=K) data with
  | inr e => mret (inr (WE_Serialization e data))
  | inl send_buffer =>
      let ddsdata := DData (SerializedPayload_new_from_bytes (output_encoding (D:=D) (K:=K)) send_buffer) in
      sequence_number ← next_sequence_number;
      let writer_command := WCData ddsdata write_options sequence_number in
      w ← get_st;
      let timeout := reliable_max_blocking_time (dw_qos_policy w) in
      r ← try_send_timeout DwUpload DwSleep answers writer_command timeout;
      match r with
      | inl _ =>
          _ ← refresh_manual_liveliness;
          mret (inl (dw_my_guid w, sequence_number))
      | inr (TseFull _) =>
          _ ← undo_sequence_number;
          mret (inr (WE_WouldBlock data))
      | inr (TseDisconnected _ _) =>
          _ ← undo_sequence_number;
          mret (inr (WE_Poisoned "Cannot send to Writer" data))
      | inr (TseIo e) =>
          _ ← undo_sequence_number;
          mret (inr (WE_Io e))
      end
  end.

Definition write (answers : nat -> SendAnswer) (data : D) (source_timestamp : option Timestamp) : DW (unit + WriteError D) :=
  r ← write_with_options answers data (WriteOptions_from source_timestamp);
  mret match r with inl _ => inl tt | inr e => inr e end.

(** The blocking [send] of [dispose]: it waits for room, so that the answer is
    never "full". *)
Definition blocking_answer (a : SendAnswer) : Prop := a <> SaFull.

Definition dispose (answer : SendAnswer) (key : K) (source_timestamp : option Timestamp) : DW (unit + WriteError unit) :=
  match key_to_bytes (D:=D) key with
  | inr e => mret (inr (WE_Serialization e tt))
  | inl send_buffer =>
      let ddsdata := DDisposeByKey NotAliveDisposed (SerializedPayload_new_from_bytes (output_encoding (D:=D) (K:=K)) send_buffer) in
      sequence_number ← next_sequence_number;
      r ← try_send DwUpload answer (WCData ddsdata (WriteOptions_from source_timestamp) sequence_number);
      match r with
      | inl _ => _ ← refresh_manual_liveliness; mret (inl tt)
      | inr (TseFull _) => lift_outcome Diverge
      | inr (TseDisconnected _ e) | inr (TseIo e) =>
          _ ← undo_sequence_number; mret (inr (WE_Serialization e tt))
      end
  end.

Definition DataWriter_assert_liveliness : DW (unit + WriteError unit) :=
  _ ← refresh_manual_liveliness;
  w ← get_st;
  _ ← match liveliness (dw_qos_policy w) with
      | Some (ManualByTopic _) => emit_ev (DwDiscovery (DC_AssertTopicLiveliness (dw_my_guid w) true))
      | _ => mret tt
      end;
  mret (inl tt).

(** ** Waiting for acknowledgments *)

(** What the poll with the timeout ends with: an error, nothing, or an event and
    whether the token is there. *)
Inductive PollEnd := PollError (e : string) | PollTimeout | PollEvent (token : bool).

(** [setup]: the error of making the channel or the poll, if any. *)
Definition wait_for_acknowledgments (channel : Z) (setup : option string) (answer : SendAnswer) (poll_end : PollEnd)
  : DW (bool + WriteError unit) :=
  w ← get_st;
  match reliability (dw_qos_policy w) with
  | None | Some BestEffort => mret (inl true)
  | Some (Reliable _) =>
      match setup with
      | Some e => mret (inr (WE_Io e))
      | None =>
          _ ← try_send DwUpload answer (WCWaitForAcknowledgments channel);
          mret match poll_end with
               | PollError e => inr (WE_Io e)
               | PollEvent token => inl token
               | PollTimeout => inl false
               end
      end
  end.

(** ** Futures *)

Inductive Poll (A : Type) := Pending | Ready (a : A).
Arguments Pending {A}.
Arguments Ready {A} a.

Record AsyncWrite := mkAsyncWrite {
  aw_writer_command : option WriterCommand;
  aw_sequence_number : SequenceNumber;
  aw_timeout_instant : Z;
  aw_sample : option D;
}.

(** [now]: the reading of [Instant::now()], in nanoseconds. *)
Definition AsyncWrite_poll (task : Z) (answer : SendAnswer) (now : Z) (self : AsyncWrite)
  : DW (AsyncWrite * Poll (SampleIdentity + WriteError D)) :=
  let take c := mkAsyncWrite c (aw_sequence_number self) (aw_timeout_instant self) in
  match aw_writer_command self with
  | Some wc =>
      r ← try_send DwUpload answer wc;
      match r with
      | inl _ =>
          _ ← refresh_manual_liveliness;
          w ← get_st;
          mret (take None (aw_sample self), Ready (inl (dw_my_guid w, aw_sequence_number self)))
      | inr (TseFull wc) =>
          _ ← modify_st (fun w => dw_set_waker w (Some task));
          if now <? aw_timeout_instant self then mret (take (Some wc) (aw_sample self), Pending)
          else
            data ← lift_outcome (rust_unwrap (aw_sample self) "called Option::unwrap() on a None value");
            mret (take None None, Ready (inr (WE_WouldBlock data)))
      | inr (TseDisconnected _ e) | inr (TseIo e) =>
          _ ← undo_sequence_number;
          data ← lift_outcome (rust_unwrap (aw_sample self) "called Option::unwrap() on a None value");
          mret (take None None, Ready (inr (WE_Poisoned e data)))
      end
  | None => mret (self, Ready (inr (WE_Internal "someone stole my WriterCommand")))
  end.

(** The body of [async_write_with_options] up to the future it awaits. *)
Definition async_write_start (now : Z) (data : D) (write_options : WriteOptions) : DW (AsyncWrite + WriteError D) :=
  match to_bytes (K:=K) data with
  | inr e => mret (inr (WE_Serialization e data))
  | inl send_buffer =>
      let dds_data := DData (SerializedPayload_new_from_bytes (output_encoding (D:=D) (K:=K)) send_buffer) in
      sequence_number ← next_sequence_number;
      w ← get_st;
      let timeout := reliable_max_blocking_time (dw_qos_policy w) in
      mret (inl (mkAsyncWrite (Some (WCData dds_data write_options sequence_number)) sequence_number
                   (now + Duration_to_std_nanos (default TIMEOUT_FALLBACK timeout)) (Some data)))
  end.

(** The future of [async_write_with_options]: the first poll runs the body and
    polls the inner future, later ones poll it. *)
Inductive AsyncWriteOp := AwStart (data : D) (write_options : WriteOptions) | AwAwait (f : AsyncWrite) | AwDone.

Definition async_write_with_options_poll (task : Z) (answer : SendAnswer) (start now : Z) (self : AsyncWriteOp)
  : DW (AsyncWriteOp * Poll (SampleIdentity + WriteError D)) :=
  let await f :=
    r ← AsyncWrite_poll task answer now f;
    mret match r with
         | (f, Pending) => (AwAwait f, Pending)
         | (_, Ready x) => (AwDone, Ready x)
         end in
  match self with
  | AwStart data write_options =>
      r ← async_write_start start data write_options;
      match r with
      | inr e => mret (AwDone, Ready (inr e))
      | inl f => await f
      end
  | AwAwait f => await f
  | AwDone => lift_outcome (Panic "async fn resumed after completion")
  end.

Inductive AsyncWaitForAcknowledgments :=
| AwaWaiting
| AwaDone
| AwaWaitingSendCommand (channel : Z)
| AwaFail (e : WriteError unit).

(** What the receiving end of the acknowledgment channel holds. *)
Inductive RecvAnswer := RaEmpty | RaDisconnected | RaToken.

(** [StatusReceiverStream::poll_next] *)
Definition poll_next (task : Z) (r : RecvAnswer) : DW (Poll (option unit)) :=
  match r with
  | RaEmpty => _ ← emit_ev (DwAckWaker task); mret Pending
  | RaDisconnected => mret (Ready None)
  | RaToken => mret (Ready (Some tt))
  end.

Definition AsyncWaitForAcknowledgments_poll (task : Z) (answer : SendAnswer) (recv : RecvAnswer) (self : AsyncWaitForAcknowledgments)
  : DW (AsyncWaitForAcknowledgments * Poll (bool + WriteError unit)) :=
  match self with
  | AwaDone => mret (AwaDone, Ready (inl true))
  | AwaFail e => mret (AwaDone, Ready (inr e))
  | AwaWaiting =>
      r ← poll_next task recv;
      mret match r with
           | Pending => (AwaWaiting, Pending)
           | Ready None => (AwaWaiting, Ready (inl false))
           | Ready (Some _) => (AwaWaiting, Ready (inl true))
           end
  | AwaWaitingSendCommand channel =>
      r ← try_send DwUpload answer (WCWaitForAcknowledgments channel);
      mret match r with
           | inl _ => (AwaWaiting, Pending)
           | inr (TseFull _) => (AwaWaitingSendCommand channel, Pending)
           | inr (TseDisconnected _ e) | inr (TseIo e) => (AwaDone, Ready (inr (WE_Poisoned e tt)))
           end
  end.

(** The future that [async_wait_for_acknowledgments] awaits, if it does. *)
Definition async_wait_for_acknowledgments (qos : QosPolicies) (channel : Z) : AsyncWaitForAcknowledgments :=
  match reliability qos with
  | None | Some BestEffort => AwaDone
  | Some (Reliable _) => AwaWaitingSendCommand channel
  end.
End writing.
Arguments AsyncWrite : clear implicits.
Arguments AsyncWriteOp : clear implicits.
Arguments Pending {A}.
Arguments Ready {A} a.

(** ** Topics without key *)

Section no_key.
Context {D : Type} `{SA : !NoKeySerializerAdapter D}.

Definition map_err {A E F} (f : E -> F) (r : A + E) : A + F := match r with inl a => inl a | inr e => inr (f e) end.

Definition no_key_write_with_options (answers : nat -> SendAnswer) (data : D) (write_options : WriteOptions)
  : DW (SampleIdentity + WriteError D) :=
  r ← write_with_options (K:=unit) answers (mkNoKey data) write_options;
  mret (map_err unwrap_no_key_write_error r).

Definition no_key_write (answers : nat -> SendAnswer) (data : D) (source_timestamp : option Timestamp) : DW (unit + WriteError D) :=
  r ← write (K:=unit) answers (mkNoKey data) source_timestamp;
  mret (map_err unwrap_no_key_write_error r).
End no_key.
