(* ===== verification/DataWriterTheorems.v ===== *)
(** * The data writer: theorems

    - [writes_numbered]: the samples of a writer that is used by one thread, one
      write at a time, enter the channel with ascending numbers, without a gap if all
      writes are synchronous, as long as no write fails after its command is queued;
    - [written_samples_stored]: these are the commands the RTPS writer expects,
      and it stores each sample under the number the application was told;
    - [concurrent_numbers]: threads that share a writer never send two samples
      with the same number as long as no write fails;
    - [failed_write_repeats_number], [late_error_repeats_number],
      [async_wait_never_woken]: what goes wrong when one does, and when a task waits
      for acknowledgments. *)

From S2P Require Import Prelude BTree Wire SequenceNumbers Time Guid Qos Payload Submessages SampleCache HistoryBuffer Writer WriterCorrect WriterHandlers WriterTheorems WriterFrame EventLoopTheorems EventLoopSafety Discovery Channels DiscoveryData Participant DataWriter.

(** ** What enters the channel *)

Definition uploads (evs : list DwEvent) : list WriterCommand :=
  omap (fun ev => match ev with DwUpload c => Some c | _ => None end) evs.
Definition command_number (c : WriterCommand) : option SequenceNumber :=
  match c with WCData _ _ sn => Some sn | WCWaitForAcknowledgments _ => None end.
Definition numbers (evs : list DwEvent) : list SequenceNumber := omap command_number (uploads evs).

Lemma uploads_app e1 e2 : uploads (e1 ++ e2) = uploads e1 ++ uploads e2.
Proof. apply omap_app. Qed.
Lemma numbers_app e1 e2 : numbers (e1 ++ e2) = numbers e1 ++ numbers e2.
Proof. unfold numbers. rewrite uploads_app. apply omap_app. Qed.

Lemma uploads_sleeps (l : list Z) : uploads (DwSleep <$> l) = [].
Proof. by induction l. Qed.
Lemma uploads_discovery (l : list DiscoveryCommand) : uploads (DwDiscovery <$> l) = [].
Proof. by induction l. Qed.

(** The timeout of the writer fits its type. *)
Definition timeout_ok (w : DataWriter) : Prop :=
  Duration_ok (default TIMEOUT_FALLBACK (reliable_max_blocking_time (dw_qos_policy w))).

(** No I/O error after the command has entered the queue. *)
Definition tells_truth (a : SendAnswer) : Prop := forall d, a <> SaIo true d.

Lemma wp_refresh w (Q : unit -> DataWriter -> list DwEvent -> Prop) :
  (forall l, Q tt w (DwDiscovery <$> l)) -> wp refresh_manual_liveliness w Q.
Proof.
  intros HQ. unfold refresh_manual_liveliness. wp_step. wp_step. apply wp_emit_map. apply HQ.
Qed.

Lemma wp_try_send answer c w (Q : unit + TrySendError WriterCommand -> DataWriter -> list DwEvent -> Prop) :
  Q (settled answer c) w (settled_events DwUpload answer c) -> wp (try_send DwUpload answer c) w Q.
Proof. intros H. apply wp_run. rewrite try_send_run. eauto. Qed.

Lemma next_number_run w : 0 <= available_sequence_number w < i64_max ->
  next_sequence_number w = Ret (available_sequence_number w, dw_set_number w (available_sequence_number w + 1), []).
Proof.
  intros Hn. unfold next_sequence_number, mbind, act_bind, get_st, modify_st, mret, act_ret. cbn.
  by rewrite wrap_s_id by bounds_lia.
Qed.

Lemma wp_next w (Q : SequenceNumber -> DataWriter -> list DwEvent -> Prop) : 0 <= available_sequence_number w < i64_max ->
  Q (available_sequence_number w) (dw_set_number w (available_sequence_number w + 1)) [] -> wp next_sequence_number w Q.
Proof. intros Hn HQ. apply wp_run. rewrite next_number_run by done. eauto. Qed.

Lemma wp_undo w n (Q : unit -> DataWriter -> list DwEvent -> Prop) : 0 <= n < i64_max ->
  Q tt (dw_set_number w n) [] -> wp undo_sequence_number (dw_set_number w (n + 1)) Q.
Proof.
  intros Hn HQ. unfold undo_sequence_number. wp_step. cbn. replace (n + 1 - 1) with n by lia.
  by rewrite wrap_s_id by bounds_lia.
Qed.

Section theorems.
Context {D K : Type} `{SA : !SerializerAdapter D K}.

(** The sample as the RTPS writer gets it. *)
Definition sample_command (b : bytes) (opts : WriteOptions) (sn : SequenceNumber) : WriterCommand :=
  WCData (DData (SerializedPayload_new_from_bytes (output_encoding (D:=D) (K:=K)) b)) opts sn.

(** A synchronous write, on every branch: success hands over the sample under the
    next number and tells the number, failure leaves the writer as it was. *)
Lemma write_with_options_correct answers data opts w :
  timeout_ok w -> (forall k, tells_truth (answers k)) -> 0 <= available_sequence_number w < i64_max ->
  wp (write_with_options (K:=K) answers data opts) w (fun r w' evs =>
    match r with
    | inl (g, sn) => g = dw_my_guid w /\ sn = available_sequence_number w /\ w' = dw_set_number w (sn + 1) /\
        exists b, to_bytes (K:=K) data = inl b /\ uploads evs = [sample_command b opts sn]
    | inr e => w' = w /\ uploads evs = []
    end).
Proof.
  intros Ht Hh Hn. unfold write_with_options. destruct (to_bytes data) as [b|e] eqn:Eb; [|by wp_step].
  wp_step. apply wp_next; [done|]. wp_step. wp_step. cbn [app]. wp_step.
  assert (dw_set_number w (available_sequence_number w) = w) as Ew by (by destruct w).
  apply wp_try_send_timeout; [exact Ht|..].
  - intros n. wp_step. apply wp_refresh. intros l. wp_step. cbn [app]. split_and!; [done..|]. exists b. split; [done|].
    by rewrite !uploads_app, uploads_sleeps, uploads_discovery.
  - intros n [c|c d|d]; wp_step; (apply wp_undo; [done|]); wp_step; rewrite Ew; rewrite ?app_nil_r; cbn [app]; split; try done;
      by rewrite ?uploads_app, uploads_sleeps.
  - intros n d [j Hj]. by destruct (Hh j d).
Qed.

Lemma dispose_correct answer key ts w :
  tells_truth answer -> blocking_answer answer -> 0 <= available_sequence_number w < i64_max ->
  wp (dispose (D:=D) answer key ts) w (fun r w' evs =>
    match r with
    | inl _ => w' = dw_set_number w (available_sequence_number w + 1) /\
        exists b, key_to_bytes (D:=D) key = inl b /\
          uploads evs = [WCData (DDisposeByKey NotAliveDisposed (SerializedPayload_new_from_bytes (output_encoding (D:=D) (K:=K)) b))
                           (WriteOptions_from ts) (available_sequence_number w)]
    | inr e => w' = w /\ uploads evs = []
    end).
Proof.
  intros Hh Hb Hn. unfold dispose. destruct (key_to_bytes key) as [b|e] eqn:Eb; [|by wp_step].
  wp_step. apply wp_next; [done|]. wp_step. apply wp_try_send.
  assert (dw_set_number w (available_sequence_number w) = w) as Ew by (by destruct w).
  destruct answer as [| |d|[] d]; cbn; [|done| |by destruct (Hh d)|].
  - wp_step. apply wp_refresh. intros l. wp_step. split; [done|]. exists b. split; [done|]. cbn. f_equal.
    by rewrite app_nil_r, uploads_discovery.
  - wp_step. apply wp_undo; [done|]. wp_step. by rewrite Ew.
  - wp_step. apply wp_undo; [done|]. wp_step. by rewrite Ew.
Qed.

(** ** One thread *)

(** A future that still holds its command. *)
Definition holds_command (f : AsyncWrite D) (sn : SequenceNumber) : Prop :=
  (exists d o, aw_writer_command f = Some (WCData d o sn)) /\ is_Some (aw_sample f) /\ aw_sequence_number f = sn.

(** What a write does to the numbering when number [sn] is the next one: it uses
    it, leaves it, or - never if [exact] - drops it. *)
Definition numbered (exact : Prop) (w : DataWriter) (w' : DataWriter) (evs : list DwEvent) : Prop :=
  dw_qos_policy w' = dw_qos_policy w /\ dw_my_guid w' = dw_my_guid w /\
  let sn := available_sequence_number w in
  (numbers evs = [sn] /\ available_sequence_number w' = sn + 1) \/
  (numbers evs = [] /\ available_sequence_number w' = sn) \/
  (~ exact /\ numbers evs = [] /\ available_sequence_number w' = sn + 1).

Lemma poll_numbered task answer now f sn w :
  holds_command f sn -> tells_truth answer -> available_sequence_number w = sn + 1 -> 0 <= sn < i64_max ->
  wp (AsyncWrite_poll task answer now f) w (fun r w' evs =>
    dw_qos_policy w' = dw_qos_policy w /\ dw_my_guid w' = dw_my_guid w /\
    match r.2 with
    | Pending => holds_command r.1 sn /\ numbers evs = [] /\ available_sequence_number w' = sn + 1
    | Ready (inl (g, n)) => g = dw_my_guid w /\ n = sn /\ numbers evs = [sn] /\ available_sequence_number w' = sn + 1
    | Ready (inr _) => numbers evs = [] /\ (available_sequence_number w' = sn \/ available_sequence_number w' = sn + 1)
    end).
Proof.
  intros ((d & o & Hc) & [data Hs] & Hsn) Hh Hw Hn. unfold AsyncWrite_poll. rewrite Hc. wp_step. apply wp_try_send.
  assert (dw_set_number w (sn + 1) = w) as Ew by (rewrite <- Hw; by destruct w).
  destruct answer as [| |e|[] e]; cbn [settled settled_events got_through].
  - wp_step. apply wp_refresh. intros l. wp_step. wp_step. wp_step. cbn [fst snd]. split_and!; try done.
    rewrite !app_nil_r, numbers_app. unfold numbers at 2. by rewrite uploads_discovery.
  - wp_step. wp_step. cbn [app]. destruct (now <? _); [|wp_step; eapply wp_lift; [by rewrite Hs|]]; wp_step; cbn; split_and!; auto.
    + split; [by eauto|]. by rewrite Hs.
  - rewrite <- Ew. wp_step. apply wp_undo; [done|]. wp_step. eapply wp_lift; [by rewrite Hs|]. wp_step. cbn. auto.
  - by destruct (Hh e).
  - rewrite <- Ew. wp_step. apply wp_undo; [done|]. wp_step. eapply wp_lift; [by rewrite Hs|]. wp_step. cbn. auto.
Qed.

(** The operations of the application, with what the environment answers.  An
    asynchronous write is polled a number of times - by which task, with which
    answer and when - and dropped if it is not ready then, before the next operation
    begins; several futures that are polled in turns are those of [shared_step]. *)
Inductive DwOp :=
| OpWrite (answers : nat -> SendAnswer) (data : D) (opts : WriteOptions)
| OpDispose (answer : SendAnswer) (key : K) (ts : option Timestamp)
| OpAsyncWrite (data : D) (opts : WriteOptions) (start : Z) (polls : list (Z * SendAnswer * Z))
| OpWait (channel : Z) (setup : option string) (answer : SendAnswer) (poll_end : PollEnd)
| OpAssert.

Fixpoint poll_write (start : Z) (f : AsyncWriteOp D) (polls : list (Z * SendAnswer * Z)) : DW unit :=
  match polls with
  | [] => mret tt
  | (task, answer, now) :: polls =>
      r ← async_write_with_options_poll (K:=K) task answer start now f;
      match r with
      | (f, Pending) => poll_write start f polls
      | (_, Ready _) => mret tt
      end
  end.

Definition run_op (op : DwOp) : DW unit :=
  match op with
  | OpWrite answers data opts => _ ← write_with_options (K:=K) answers data opts; mret tt
  | OpDispose answer key ts => _ ← dispose (D:=D) answer key ts; mret tt
  | OpAsyncWrite data opts start polls => poll_write start (AwStart data opts) polls
  | OpWait channel setup answer poll_end => _ ← wait_for_acknowledgments channel setup answer poll_end; mret tt
  | OpAssert => _ ← DataWriter_assert_liveliness; mret tt
  end.

Definition op_ok (op : DwOp) : Prop :=
  match op with
  | OpWrite answers _ _ => forall k, tells_truth (answers k)
  | OpDispose answer _ _ => tells_truth answer /\ blocking_answer answer
  | OpAsyncWrite _ _ _ polls => Forall (fun p => tells_truth p.1.2) polls
  | _ => True
  end.
Definition op_sync (op : DwOp) : Prop := match op with OpAsyncWrite _ _ _ _ => False | _ => True end.

Lemma await_numbered start f polls sn w :
  holds_command f sn -> Forall (fun p => tells_truth p.1.2) polls -> available_sequence_number w = sn + 1 -> 0 <= sn < i64_max ->
  wp (poll_write start (AwAwait f) polls) w (fun _ w' evs => numbered False (dw_set_number w sn) w' evs).
Proof.
  intros Hf Hp Hw Hn. revert f w Hf Hw. induction Hp as [|[[task answer] now] polls Ha _ IH]; intros f w Hf Hw; cbn [poll_write].
  - wp_step. split_and!; [done..|]. cbn. right; right. auto.
  - unfold async_write_with_options_poll. wp_step. wp_step.
    eapply wp_mono; [by apply poll_numbered|]. cbv beta. intros [f' [|[[g n]|e]]] w1 evs (Eq & Eg & Hr); cbn [fst snd] in *; wp_step; cbn [app].
    + destruct Hr as (Hf' & Hnum & Hav). eapply wp_mono; [by apply IH|]. intros _ w' evs' (? & ? & H'). unfold numbered. cbn in *.
      rewrite app_nil_r. split_and!; [congruence..|]. rewrite numbers_app, Hnum. exact H'.
    + destruct Hr as (-> & -> & Hnum & Hav). wp_step. rewrite !app_nil_r. split_and!; [done..|]. cbn. left. auto.
    + destruct Hr as (Hnum & Hav). wp_step. rewrite !app_nil_r. split_and!; [done..|]. cbn. right. destruct Hav as [?|?]; auto.
Qed.

Lemma numbered_nothing exact w w' evs :
  w' = w -> numbers evs = [] -> numbered exact w w' evs.
Proof. intros -> Hn. split_and!; [done..|]. right; left. done. Qed.

Lemma run_op_numbered op w :
  timeout_ok w -> op_ok op -> 0 <= available_sequence_number w < i64_max ->
  wp (run_op op) w (fun _ w' evs => numbered (op_sync op) w w' evs).
Proof.
  intros Ht Ho Hn. destruct op as [answers data opts|answer key ts|data opts start polls|channel setup answer pe|]; cbn [run_op].
  - wp_step. eapply wp_mono; [by apply write_with_options_correct|]. cbv beta. intros [[g sn]|e] w' evs H; wp_step; rewrite app_nil_r.
    + destruct H as (-> & -> & -> & b & _ & Hu). split_and!; [done..|]. cbn. left. unfold numbers. by rewrite Hu.
    + destruct H as [-> Hu]. apply numbered_nothing; [done|]. unfold numbers. by rewrite Hu.
  - destruct Ho as [Hh Hb]. wp_step. eapply wp_mono; [by apply dispose_correct|]. cbv beta. intros [[]|e] w' evs H; wp_step; rewrite app_nil_r.
    + destruct H as (-> & b & _ & Hu). split_and!; [done..|]. cbn. left. unfold numbers. by rewrite Hu.
    + destruct H as [-> Hu]. apply numbered_nothing; [done|]. unfold numbers. by rewrite Hu.
  - cbn [op_sync]. destruct polls as [|[[task answer] now] polls]; cbn [poll_write]; [wp_step; by apply numbered_nothing|].
    cbn [op_ok] in Ho. apply Forall_cons in Ho as [Ha Ho]. unfold async_write_with_options_poll, async_write_start.
    destruct (to_bytes data) as [b|e]; [|wp_step; wp_step; wp_step; wp_step; wp_step; by apply numbered_nothing].
    set (c := available_sequence_number w). wp_step. wp_step. wp_step. apply wp_next; [done|]. wp_step. wp_step. wp_step. cbn [app]. wp_step.
    fold c. eapply wp_mono; [apply (poll_numbered _ _ _ _ c); [split; [by eauto|split; [by eexists|done]]|done|done|done]|].
    cbv beta. intros [f' [|[[g n]|e]]] w1 evs (Eq & Eg & Hr); cbn [fst snd] in *; wp_step; cbn [app].
    + destruct Hr as (Hf' & Hnum & Hav). eapply wp_mono; [by apply await_numbered|]. intros _ w' evs' (? & ? & H'). unfold numbered. cbn in *.
      rewrite app_nil_r. split_and!; [congruence..|]. rewrite numbers_app, Hnum. exact H'.
    + destruct Hr as (-> & -> & Hnum & Hav). wp_step. rewrite !app_nil_r. split_and!; [done..|]. cbn. left. auto.
    + destruct Hr as (Hnum & Hav). wp_step. rewrite !app_nil_r. split_and!; [done..|]. cbn. right. destruct Hav as [?|?]; auto.
  - wp_step. unfold wait_for_acknowledgments. wp_step. wp_step. cbn [app].
    destruct (reliability (dw_qos_policy w)) as [[|]|]; [by repeat wp_step; apply numbered_nothing| |by repeat wp_step; apply numbered_nothing].
    destruct setup; [by repeat wp_step; apply numbered_nothing|]. wp_step. apply wp_try_send. wp_step. wp_step.
    apply numbered_nothing; [done|]. by destruct answer as [| | |[]].
  - wp_step. unfold DataWriter_assert_liveliness. wp_step. apply wp_refresh. intros l. wp_step. wp_step. cbn [app]. wp_step.
    destruct (liveliness (dw_qos_policy w)) as [[| |]|]; repeat wp_step; rewrite ?app_nil_r; apply numbered_nothing; try done;
      unfold numbers; rewrite ?uploads_app, uploads_discovery; done.
Qed.

Definition run_ops (ops : list DwOp) : DW unit := act_for ops run_op.

(** The numbering of a whole run. *)
Definition run_numbered (exact : Prop) (n : nat) (w w' : DataWriter) (evs : list DwEvent) : Prop :=
  let c := available_sequence_number w in
  let c' := available_sequence_number w' in
  c <= c' <= c + Z.of_nat n /\ StronglySorted Z.lt (numbers evs) /\ Forall (fun sn => c <= sn < c') (numbers evs) /\
  (exact -> numbers evs = seqZ c (c' - c)).

Lemma run_ops_numbered ops w :
  timeout_ok w -> Forall op_ok ops -> 1 <= available_sequence_number w -> available_sequence_number w + Z.of_nat (length ops) < i64_max ->
  wp (run_ops ops) w (fun _ w' evs => dw_my_guid w' = dw_my_guid w /\ run_numbered (Forall op_sync ops) (length ops) w w' evs).
Proof.
  intros Ht Ho. revert w Ht. induction Ho as [|op ops Hop _ IH]; intros w Ht H1 Hlt.
  - unfold run_ops. cbn [act_for]. wp_step. split; [done|]. split; [cbn; lia|]. split; [constructor|]. split; [constructor|].
    intros _. by rewrite Z.sub_diag.
  - unfold run_ops. cbn [act_for]. cbn [length] in Hlt. wp_step.
    eapply wp_mono; [apply run_op_numbered; [done|done|lia]|]. cbv beta. intros _ w1 e1 (Eq & Eg & Hnum).
    assert (available_sequence_number w <= available_sequence_number w1 <= available_sequence_number w + 1) as Hr by (cbn in Hnum; lia).
    eapply wp_mono; [apply (IH w1); [by unfold timeout_ok; rewrite Eq|lia|lia]|]. cbv beta.
    intros _ w' e2 (Eg' & Hrange & Hsorted & Hall & Hexact). split; [congruence|].
    assert (numbers e1 = [] \/ numbers e1 = [available_sequence_number w] /\ available_sequence_number w1 = available_sequence_number w + 1) as Hn
      by (cbn in Hnum; tauto).
    split; [cbn [length]; lia|]. rewrite numbers_app. split; [|split].
    + destruct Hn as [->|[-> E]]; [done|]. cbn. constructor; [done|]. eapply Forall_impl; [exact Hall|]. cbn. lia.
    + apply Forall_app. split; [destruct Hn as [->|[-> E]]; [constructor|repeat constructor; lia]|].
      eapply Forall_impl; [exact Hall|]. cbn. lia.
    + intros [Hs Hss]%Forall_cons. rewrite (Hexact Hss). destruct Hnum as [[-> E]|[[-> E]|[Hx _]]]; [| |done].
      * rewrite E. cbn. rewrite (seqZ_cons (available_sequence_number w)) by lia. f_equal. f_equal; lia.
      * by rewrite E.
Qed.

(** C23: the samples that one thread writes, one operation after the other, enter
    the channel with strictly ascending numbers, at most one per write and all of
    them below the next free one, whichever of these failures come in between: a
    sample that cannot be serialized, a full queue, a dead receiver, a timeout, a
    dropped future, an I/O error before the command is queued.  If it only writes
    synchronously there is no gap in them either: a failed write gives its number
    back.  Not covered are an I/O error after the command has been queued, which
    makes the writer use the number again ([late_error_repeats_number]), and
    futures that are polled in turns, where a failure can do the same
    ([failed_write_repeats_number]). *)
Theorem writes_numbered ops w :
  timeout_ok w -> Forall op_ok ops -> 1 <= available_sequence_number w -> available_sequence_number w + Z.of_nat (length ops) < i64_max ->
  exists w' evs, run_ops ops w = Ret (tt, w', evs) /\ run_numbered (Forall op_sync ops) (length ops) w w' evs.
Proof.
  intros Ht Ho H1 Hlt. pose proof (run_ops_numbered ops w Ht Ho H1 Hlt) as H. apply wp_run in H as ([] & w' & evs & E & _ & Hr). eauto.
Qed.

(** ** From the application to the history *)

Context `{SP : Speedy}.

Lemma process_data_history now d o sn w u w' evs :
  process_data_command now d o sn w = Ret (u, w', evs) ->
  w_history w' = HistoryBuffer_add_change (w_history w) now (mkCacheChange (w_my_guid w) sn o d).
Proof.
  intros H. unfold process_data_command in H.
  apply bind_run_inv in H as (t & w1 & e1 & e2 & H1 & H2 & ->). unfold insert_to_history_buffer in H1.
  apply bind_run_inv in H1 as (v & w0 & e3 & e4 & H0 & H1 & ->).
  assert (w0 = w) as -> by (unfold lift_outcome, rust_assert in H0; destruct (_ <? _) in H0; by inversion H0).
  apply bind_run_inv in H1 as (v1 & w2 & e5 & e6 & [= <- <- <-] & [= <- <- <-] & ->).
  apply bind_run_inv in H2 as (v2 & w2 & e7 & e8 & [= <- <- <-] & H2 & ->).
  apply (kh_push_new (mkLimits (w_my_guid w) 0 ∅) now o) in H2 as [Eh _]. rewrite Eh. by destruct (like_stateless w).
Qed.

(** What commands leave alone of a writer. *)
Definition same_kind : relation Writer := fun w w' => w_my_guid w' = w_my_guid w /\ like_stateless w' = like_stateless w.
#[local] Instance same_kind_preorder : PreOrder same_kind.
Proof. split; [done|]. intros x y z [H1 H2] [H3 H4]. unfold same_kind. split; congruence. Qed.

Lemma kind_data now d o sn : act_keeps same_kind (process_data_command now d o sn).
Proof. repeat keeps_step. Qed.
Lemma kind_wait ch : act_keeps same_kind (process_wait_command ch).
Proof. repeat keeps_step. Qed.

Lemma wait_goes_on ch w b w' evs : like_stateless w = false -> process_wait_command ch w = Ret (b, w', evs) -> b = true.
Proof.
  intros Hs H. unfold process_wait_command in H. apply bind_run_inv in H as (w1 & w2 & e1 & e2 & [= <- <- <-] & H & ->).
  rewrite Hs in H. apply bind_run_inv in H as (u & w3 & e3 & e4 & _ & [= <- _ _] & _). done.
Qed.

(** Commands as they come from one thread: ascending numbers above those of the
    history, an advancing clock, and payloads that fit a message. *)
Definition command_size (c : WriterCommand) : Z := match c with WCData d _ _ => DDSData_payload_size d | _ => 0 end.
Definition queue_ok (h : HistoryBuffer) (queue : list (Timestamp * WriterCommand)) : Prop :=
  StronglySorted klt queue.*1 /\ Forall (fresh_time h) queue.*1 /\
  StronglySorted Z.lt (omap command_number queue.*2) /\
  Forall (fun sn => last_seq h < sn < i64_max) (omap command_number queue.*2) /\
  Forall (fun c => command_size c < 2 ^ 32) queue.*2.

Lemma queue_ok_data h now d o sn cc queue :
  queue_ok h ((now, WCData d o sn) :: queue) -> cc_sequence_number cc = sn -> queue_ok (HistoryBuffer_add_change h now cc) queue.
Proof.
  intros (Ht & Hf & Hn & Hl & Hs) <-. cbn in *.
  apply StronglySorted_inv in Ht as [Ht Htn]. apply Forall_cons in Hf as [Hf1 Hf].
  apply StronglySorted_inv in Hn as [Hn Hnn]. apply Forall_cons in Hl as [Hl1 Hl]. apply Forall_cons in Hs as [_ Hs].
  split; [done|]. split; [|split; [done|split; [|done]]].
  - rewrite Forall_forall in Hf, Htn |- *. intros t Hin t' [c Hc]. cbn in Hc. rewrite lookup_insert_Some in Hc.
    destruct Hc as [[<- _]|[_ Hc]]; [by apply Htn|by apply Hf; [|eexists]].
  - unfold HistoryBuffer_add_change, last_change_sequence_number. cbn.
    destruct (Z.ltb_spec (last_seq h) (cc_sequence_number cc)); [|lia].
    rewrite Forall_forall in Hl, Hnn |- *. intros x Hx. specialize (Hl x Hx). specialize (Hnn x Hx). lia.
Qed.

Lemma queue_ok_wait h now ch queue : queue_ok h ((now, WCWaitForAcknowledgments ch) :: queue) -> queue_ok h queue.
Proof.
  intros (Ht & Hf & Hn & Hl & Hs). cbn in *. apply StronglySorted_inv in Ht as [Ht _].
  apply Forall_cons in Hf as [_ Hf]. apply Forall_cons in Hs as [_ Hs]. done.
Qed.

Lemma queue_ok_head h now d o sn queue w :
  w_history w = h -> queue_ok h ((now, WCData d o sn) :: queue) -> data_ok w now d sn /\ ~ sn ∈ omap command_number queue.*2.
Proof.
  intros <- (Ht & Hf & Hn & Hl & Hs). cbn in *. apply Forall_cons in Hf as [Hf _]. apply Forall_cons in Hl as [Hl _].
  apply Forall_cons in Hs as [Hs _]. apply StronglySorted_inv in Hn as [_ Hn]. split; [done|].
  rewrite Forall_forall in Hn. intros Hin%Hn. lia.
Qed.

Lemma commands_stored queue w :
  writer_inv w -> like_stateless w = false -> queue_ok (w_history w) queue ->
  wp (process_writer_command queue) w (fun rest w' _ => rest = [] /\ writer_inv w' /\
    (forall sn, get_by_sn (w_history w') sn <> None -> get_by_sn (w_history w) sn <> None \/ sn ∈ omap command_number queue.*2) /\
    (forall sn, sn ∉ omap command_number queue.*2 -> get_by_sn (w_history w') sn = get_by_sn (w_history w) sn) /\
    (forall now d o sn, (now, WCData d o sn) ∈ queue ->
       get_by_sn (w_history w') sn = Some (mkCacheChange (w_my_guid w) sn o d))).
Proof.
  revert w. induction queue as [|[now [d o sn|ch]] queue IH]; intros w Hw Hst Hq; cbn [process_writer_command].
  - wp_step. split; [done|]. split; [done|]. split; [by left|]. split; [done|]. intros * Hin. by apply not_elem_of_nil in Hin.
  - destruct (queue_ok_head _ _ _ _ _ _ w eq_refl Hq) as [Hd Hnew].
    pose proof (process_data_good w now d o sn Hw Hd) as H. apply wp_run in H as ([] & w1 & e1 & E & Hw1 & _).
    pose proof (process_data_history _ _ _ _ _ _ _ _ E) as Eh. destruct (kind_data _ _ _ _ _ _ _ _ E) as [Eg Es].
    wp_step. apply wp_run. exists tt, w1, e1. split; [done|].
    eapply wp_mono; [apply IH; [done|by rewrite Es|rewrite Eh; by eapply queue_ok_data]|].
    intros rest w' evs (-> & Hw' & Hnone & Hold & Hin). rewrite Eh in Hold, Hnone. rewrite Eg in Hin. destruct Hd as [Hf Hd].
    pose proof (wi_hist w Hw) as Hh.
    assert (forall x, get_by_sn (HistoryBuffer_add_change (w_history w) now (mkCacheChange (w_my_guid w) sn o d)) x =
      if decide (x = sn) then Some (mkCacheChange (w_my_guid w) sn o d) else get_by_sn (w_history w) x) as Hget
      by (intros x; by apply get_by_sn_add).
    split; [done|]. split; [done|]. cbn. split; [|split].
    + intros x Hx. destruct (Hnone x Hx) as [H|H]; [|set_solver]. rewrite Hget in H. case_decide; [set_solver|by left].
    + intros x [Hne Hx]%not_elem_of_cons. rewrite Hold by done. rewrite Hget. by rewrite decide_False.
    + intros now' d' o' sn' [[= -> -> -> ->]|Hin']%elem_of_cons; [|by eapply Hin].
      rewrite Hold by done. rewrite Hget. by rewrite decide_True.
  - pose proof (process_wait_good w ch Hw) as H. apply wp_run in H as (b & w1 & e1 & E & Hw1 & _).
    pose proof (kh_wait (mkLimits (w_my_guid w) 0 ∅) ch w b w1 e1 E) as [Eh _]. destruct (kind_wait _ _ _ _ _ E) as [Eg Es].
    rewrite (wait_goes_on ch w b w1 e1 Hst E) in E.
    wp_step. apply wp_run. exists true, w1, e1. split; [done|]. rewrite <- Eh, <- Eg.
    eapply wp_mono; [apply IH; [done|by rewrite Es|rewrite Eh; by eapply queue_ok_wait]|].
    intros rest w' evs (-> & Hw' & Hnone & Hold & Hin). split_and!; try done.
    intros now' d' o' sn' [[=]|Hin']%elem_of_cons. by eapply Hin.
Qed.

Lemma numbers_uploads evs : omap command_number (uploads evs) = numbers evs.
Proof. done. Qed.

(** C20: the commands that one thread makes a new data writer put into its channel,
    one operation after the other, are the ones a new stateful RTPS writer expects:
    it processes all of them, without panicking and keeping its invariant, and its
    history then holds each sample, with its options, under the number the data
    writer gave it, and nothing else.  Any operation may fail, except that no I/O
    error comes after a command has been queued ([tells_truth]), an asynchronous
    write is polled to its end or dropped before the next operation, the payloads
    are shorter than 2^32 bytes, and the clock of the RTPS writer advances from
    command to command. *)
Theorem written_samples_stored ops dw w :
  timeout_ok dw -> Forall op_ok ops -> available_sequence_number dw = 1 -> 1 + Z.of_nat (length ops) < i64_max ->
  writer_inv w -> like_stateless w = false -> w_history w = HistoryBuffer_new ->
  exists dw' evs, run_ops ops dw = Ret (tt, dw', evs) /\
    forall times, length times = length (uploads evs) -> StronglySorted klt times ->
      Forall (fun c => command_size c < 2 ^ 32) (uploads evs) ->
      exists w' wevs, process_writer_command (zip times (uploads evs)) w = Ret ([], w', wevs) /\ writer_inv w' /\
        (forall d o sn, WCData d o sn ∈ uploads evs -> get_by_sn (w_history w') sn = Some (mkCacheChange (w_my_guid w) sn o d)) /\
        (forall sn, get_by_sn (w_history w') sn <> None -> sn ∈ numbers evs).
Proof.
  intros Ht Ho H1 Hlt Hw Hst Hh.
  pose proof (run_ops_numbered ops dw Ht Ho ltac:(lia) ltac:(lia)) as H. apply wp_run in H as ([] & dw' & evs & E & _ & Hr & Hs & Hall & _).
  exists dw', evs. split; [done|]. intros times Hlen Htimes Hsize.
  assert (queue_ok (w_history w) (zip times (uploads evs))) as Hq.
  { rewrite Hh. split; [by rewrite fst_zip by lia|]. split; [|rewrite snd_zip by lia; split; [done|split; [|done]]].
    - rewrite Forall_forall. intros t _ t' [c Hc]. cbn in Hc. by rewrite lookup_empty in Hc.
    - rewrite numbers_uploads. change (last_seq HistoryBuffer_new) with 0. eapply Forall_impl; [exact Hall|]. cbn. lia. }
  pose proof (commands_stored _ _ Hw Hst Hq) as H. apply wp_run in H as (rest & w' & wevs & Ep & -> & Hw' & Hnone & _ & Hin).
  exists w', wevs. split; [done|]. split; [done|]. rewrite snd_zip, numbers_uploads in Hnone by lia. split.
  - intros d o sn [i Hi]%list_elem_of_lookup. destruct (lookup_lt_is_Some_2 times i) as [t Hti];
      [rewrite Hlen; by apply lookup_lt_is_Some_1; eexists|].
    eapply (Hin t). apply list_elem_of_lookup. exists i. by rewrite lookup_zip_with, Hti, Hi.
  - intros sn Hsn. destruct (Hnone sn Hsn) as [Hx|?]; [|done]. destruct Hx. by rewrite Hh.
Qed.
End theorems.
Arguments DwOp : clear implicits.

(** ** Threads that share a writer

    [fetch_add], the attempt to send and [fetch_sub] are atomic, and interleave.
    A thread is idle, has taken a number, or has failed and not yet given it back. *)

Inductive ThreadState := TIdle | THolds (sn : SequenceNumber) | TFailed (sn : SequenceNumber).

Record SharedWriter := mkShared {
  sh_writer : DataWriter;
  sh_threads : gmap nat ThreadState;
  sh_channel : list SequenceNumber;
}.

Inductive shared_step : SharedWriter -> bool -> SharedWriter -> Prop :=
| step_take W t sn w' :
    sh_threads W !! t = Some TIdle -> next_sequence_number (sh_writer W) = Ret (sn, w', []) ->
    shared_step W false (mkShared w' (<[t := THolds sn]> (sh_threads W)) (sh_channel W))
| step_send W t sn :
    sh_threads W !! t = Some (THolds sn) ->
    shared_step W false (mkShared (sh_writer W) (<[t := TIdle]> (sh_threads W)) (sh_channel W ++ [sn]))
| step_abandon W t sn :
    (* an asynchronous write times out or is dropped *)
    sh_threads W !! t = Some (THolds sn) ->
    shared_step W false (mkShared (sh_writer W) (<[t := TIdle]> (sh_threads W)) (sh_channel W))
| step_fail W t sn :
    sh_threads W !! t = Some (THolds sn) ->
    shared_step W true (mkShared (sh_writer W) (<[t := TFailed sn]> (sh_threads W)) (sh_channel W))
| step_undo W t sn w' :
    sh_threads W !! t = Some (TFailed sn) -> undo_sequence_number (sh_writer W) = Ret (tt, w', []) ->
    shared_step W true (mkShared w' (<[t := TIdle]> (sh_threads W)) (sh_channel W)).

(** Runs in which writes may fail, and runs in which none does. *)
Inductive shared_run (failures : bool) : nat -> SharedWriter -> SharedWriter -> Prop :=
| run_here W : shared_run failures 0 W W
| run_step n W1 b W2 W3 :
    shared_step W1 b W2 -> implb b failures = true -> shared_run failures n W2 W3 -> shared_run failures (S n) W1 W3.

Definition shared_init (w : DataWriter) (threads : list nat) : SharedWriter :=
  mkShared w (list_to_map ((fun t => (t, TIdle)) <$> threads)) [].

(** Each number is in the channel once, or held by one thread, or neither. *)
Record shared_inv (W : SharedWriter) : Prop := {
  si_counter : 1 <= available_sequence_number (sh_writer W);
  si_channel : NoDup (sh_channel W);
  si_below : Forall (fun sn => 1 <= sn < available_sequence_number (sh_writer W)) (sh_channel W);
  si_holds : forall t sn, sh_threads W !! t = Some (THolds sn) ->
    1 <= sn < available_sequence_number (sh_writer W) /\ sn ∉ sh_channel W;
  si_unique : forall t1 t2 sn, sh_threads W !! t1 = Some (THolds sn) -> sh_threads W !! t2 = Some (THolds sn) -> t1 = t2;
  si_failed : forall t sn, sh_threads W !! t <> Some (TFailed sn);
}.

Lemma shared_step_inv W W' :
  shared_inv W -> available_sequence_number (sh_writer W) < i64_max -> shared_step W false W' -> shared_inv W'.
Proof.
  intros [H1 H2 H3 H4 H5 H6] Hlt Hs. inversion Hs as [? t sn w' Ht Hn|? t sn Ht|? t sn Ht| |]; subst; clear Hs.
  - rewrite next_number_run in Hn by lia. injection Hn as <- <-. split; cbn; [lia|done|..].
    + eapply Forall_impl; [exact H3|]. cbn. lia.
    + intros t' sn'. rewrite lookup_insert_Some. intros [[<- [= <-]]|[_ Ht']].
      * split; [lia|]. intros Hin. rewrite Forall_forall in H3. specialize (H3 _ Hin). cbn in H3. lia.
      * destruct (H4 t' sn' Ht'). split; [lia|done].
    + intros t1 t2 sn'. rewrite !lookup_insert_Some.
      intros [[<- [= <-]]|[? Ha]] [[<- E]|[? Hb]]; [done| | |by eapply H5].
      * destruct (H4 _ _ Hb). lia.
      * injection E as <-. destruct (H4 _ _ Ha). lia.
    + intros t' sn'. rewrite lookup_insert_Some. intros [[_ [=]]|[_ Ht']]. by eapply H6.
  - destruct (H4 t sn Ht) as [Hr Hnin]. split; cbn; [done|..].
    + apply NoDup_app. split; [done|]. split; [|apply NoDup_singleton]. intros x Hx ->%list_elem_of_singleton. done.
    + apply Forall_app. split; [done|by constructor].
    + intros t' sn'. rewrite lookup_insert_Some. intros [[_ [=]]|[Hne Ht']]. destruct (H4 t' sn' Ht') as [? Hn'].
      split; [done|]. intros [?|E%list_elem_of_singleton]%elem_of_app; [done|]. subst. apply Hne. by eapply H5.
    + intros t1 t2 sn'. rewrite !lookup_insert_Some. intros [[_ [=]]|[_ Ha]] [[_ [=]]|[_ Hb]]. by eapply H5.
    + intros t' sn'. rewrite lookup_insert_Some. intros [[_ [=]]|[_ Ht']]. by eapply H6.
  - split; cbn; try done.
    + intros t' sn'. rewrite lookup_insert_Some. intros [[_ [=]]|[_ Ht']]. by eapply H4.
    + intros t1 t2 sn'. rewrite !lookup_insert_Some. intros [[_ [=]]|[_ Ha]] [[_ [=]]|[_ Hb]]. by eapply H5.
    + intros t' sn'. rewrite lookup_insert_Some. intros [[_ [=]]|[_ Ht']]. by eapply H6.
Qed.

Lemma shared_step_counter W W' :
  shared_inv W -> available_sequence_number (sh_writer W) < i64_max -> shared_step W false W' ->
  available_sequence_number (sh_writer W') <= available_sequence_number (sh_writer W) + 1.
Proof.
  intros [H1 _ _ _ _ _] Hlt Hs. inversion Hs as [? t sn w' Ht Hn| | | |]; subst; cbn; [|lia..].
  rewrite next_number_run in Hn by lia. injection Hn as _ <-. cbn. lia.
Qed.

Lemma shared_init_inv w threads : available_sequence_number w = 1 -> shared_inv (shared_init w threads).
Proof.
  intros Hw. assert (forall t x, sh_threads (shared_init w threads) !! t = Some x -> x = TIdle) as Hidle.
  { intros t x H. apply elem_of_list_to_map_2, list_elem_of_fmap in H as (y & [= _ ->] & _). done. }
  split; cbn; [lia|constructor|constructor|..].
  - intros t sn H. by apply Hidle in H.
  - intros t1 t2 sn H. by apply Hidle in H.
  - intros t sn H. by apply Hidle in H.
Qed.

Lemma shared_run_inv n W W' :
  shared_inv W -> available_sequence_number (sh_writer W) + Z.of_nat n < i64_max -> shared_run false n W W' -> shared_inv W'.
Proof.
  intros Hi Hlt Hr. induction Hr as [|n W1 b W2 W3 Hs Hb Hr IH]; [done|]. destruct b; [done|].
  apply IH; [eapply shared_step_inv; [done|lia|done]|]. pose proof (shared_step_counter _ _ Hi ltac:(lia) Hs). lia.
Qed.

(** Threads and tasks that share a data writer, in any interleaving in which
    no attempt to send fails for good - though asynchronous writes may time out or
    be dropped -, never put the same sequence number into the channel twice, and
    all of them are numbers that have been given out. *)
Theorem concurrent_numbers n w threads W' :
  available_sequence_number w = 1 -> Z.of_nat n < i64_max - 1 -> shared_run false n (shared_init w threads) W' ->
  NoDup (sh_channel W') /\ Forall (fun sn => 1 <= sn < available_sequence_number (sh_writer W')) (sh_channel W').
Proof.
  intros Hw Hn Hr. destruct (shared_run_inv n _ W' (shared_init_inv w threads Hw)) as [_ H2 H3 _ _ _]; [cbn; lia|done|]. done.
Qed.

(** As soon as an attempt fails while another thread holds a later number,
    giving the number back makes the writer hand out the later one again: number
    2 goes into the channel twice - and stands for two different samples -, number
    1 never does.  (And without any failure, the numbers may enter the channel in
    another order than they were taken in.) *)
Theorem failed_write_repeats_number w :
  available_sequence_number w = 1 ->
  (exists n W, shared_run true n (shared_init w [1; 2]%nat) W /\ sh_channel W = [2; 2]) /\
  (exists n W, shared_run false n (shared_init w [1; 2]%nat) W /\ sh_channel W = [2; 1]).
Proof.
  intros Hw.
  assert (forall f W t sn n W', sh_threads W !! t = Some TIdle -> available_sequence_number (sh_writer W) = sn -> 0 <= sn < i64_max ->
    shared_run f n (mkShared (dw_set_number (sh_writer W) (sn + 1)) (<[t := THolds sn]> (sh_threads W)) (sh_channel W)) W' ->
    shared_run f (S n) W W') as Htake.
  { intros f W t sn n W' Ht <- Hsn Hr. eapply run_step; [eapply step_take; [done|by apply next_number_run]|done|done]. }
  assert (dw_set_number w 1 = w) as Ew by (rewrite <- Hw; by destruct w).
  split; (eexists _, _; split; [
    apply (Htake _ _ 1%nat 1); [done|done|done|]; apply (Htake _ _ 2%nat 2); [done|done|done|]; cbn|]).
  - eapply run_step; [eapply (step_fail _ 1%nat 1); done|done|]. cbn.
    eapply run_step; [eapply (step_undo _ 1%nat 1); [done|reflexivity]|done|]. cbn.
    eapply run_step; [eapply (step_send _ 2%nat 2); done|done|]. cbn.
    apply (Htake _ _ 1%nat 2); [done|done|done|]. cbn.
    eapply run_step; [eapply (step_send _ 1%nat 2); done|done|]. apply run_here.
  - done.
  - eapply run_step; [eapply (step_send _ 2%nat 2); done|done|]. cbn.
    eapply run_step; [eapply (step_send _ 1%nat 1); done|done|]. apply run_here.
  - done.
Qed.

(** ** A task that waits for acknowledgments

    The executor polls a future when its task has been woken, first of all when
    it is spawned.  A task is woken through the wakers that are registered for
    it: the one in the acknowledgment channel, and the one that the RTPS writer
    wakes when it takes a sample from the command channel. *)

Record Executor := mkExec {
  ex_future : AsyncWaitForAcknowledgments;
  ex_writer : DataWriter;
  ex_woken : bool;
  ex_registered : bool;
  ex_result : option (bool + WriteError unit);
}.

Definition registers (task : Z) (evs : list DwEvent) : bool :=
  existsb (fun ev => match ev with DwAckWaker t => t =? task | _ => false end) evs.

Inductive exec_step (task : Z) : Executor -> Executor -> Prop :=
| exec_poll x answer recv f w p evs :
    ex_woken x = true -> ex_result x = None ->
    AsyncWaitForAcknowledgments_poll task answer recv (ex_future x) (ex_writer x) = Ret ((f, p), w, evs) ->
    exec_step task x (mkExec f w false (ex_registered x || registers task evs) match p with Pending => None | Ready r => Some r end)
| exec_acked x :
    (* the token arrives and wakes whoever is registered *)
    ex_registered x = true -> exec_step task x (mkExec (ex_future x) (ex_writer x) true false (ex_result x))
| exec_sample_taken x :
    cc_upload_waker (ex_writer x) = Some task -> exec_step task x (mkExec (ex_future x) (ex_writer x) true (ex_registered x) (ex_result x))
| exec_other_writes x other :
    (* another task finds the channel full *)
    other <> task ->
    exec_step task x (mkExec (ex_future x) (dw_set_waker (ex_writer x) (Some other)) (ex_woken x) (ex_registered x) (ex_result x)).

Definition wait_starts (w : DataWriter) (channel : Z) : Executor :=
  mkExec (async_wait_for_acknowledgments (dw_qos_policy w) channel) w true false None.

(** Either the task has not run yet, or nothing will wake it any more. *)
Definition asleep (task channel : Z) (x : Executor) : Prop :=
  ex_registered x = false /\ cc_upload_waker (ex_writer x) <> Some task /\
  ((ex_future x = AwaWaitingSendCommand channel /\ ex_result x = None) \/
   (ex_woken x = false /\ forall b, ex_result x <> Some (inl b))).

Lemma asleep_step task channel x x' : asleep task channel x -> exec_step task x x' -> asleep task channel x'.
Proof.
  intros (Hr & Hw & Hx) Hs. inversion Hs as [? a r f w p evs Hwk Hres Hp| | |? o Ho]; subst; [|congruence|congruence|].
  - destruct Hx as [[Hf _]|[Hx _]]; [|congruence]. rewrite Hf in Hp. cbn in Hp.
    unfold mbind, act_bind in Hp. rewrite try_send_run in Hp.
    destruct a as [| |d|[] d]; injection Hp as <- <- <- <-; (split; [cbn; by rewrite Hr|]); (split; [exact Hw|]); right; (split; [done|]); by intros b.
  - split; [done|]. split; [cbn; congruence|]. exact Hx.
Qed.

(** A task that waits for the acknowledgments of a reliable writer, and is
    polled when it is woken, never learns of them: the poll that sends the command
    returns "pending" without registering a waker, neither for the acknowledgments
    nor for room in the channel, so that the task is never polled again.  Whatever
    happens, the wait never ends with an answer. *)
Theorem async_wait_never_woken task channel d w x :
  reliability (dw_qos_policy w) = Some (Reliable d) -> cc_upload_waker w <> Some task ->
  rtc (exec_step task) (wait_starts w channel) x -> forall b, ex_result x <> Some (inl b).
Proof.
  intros Hrel Hw Hr.
  assert (asleep task channel (wait_starts w channel)) as H0.
  { unfold wait_starts, async_wait_for_acknowledgments. rewrite Hrel. split; [done|]. split; [done|]. by left. }
  assert (asleep task channel x) as (_ & _ & [[_ ->]|[_ Hx]]); [|done|done].
  clear -Hr H0. induction Hr as [|? y ? Hs _ IH]; [done|]. apply IH. by eapply asleep_step.
Qed.

(** ** Runs of the model *)

(** Numbers as samples, each one byte, by which they are also keyed; zero cannot
    be serialized. *)
#[local] Instance demo_adapter : SerializerAdapter Z Z := {|
  output_encoding := mkRepId (0, 1);
  to_bytes := fun z => if z =? 0 then inr "zero"%string else inl [z];
  key_to_bytes := fun z => inl [z];
|}.

Definition patient : QosPolicies :=
  mkQos None None None None None None None (Some (Reliable (Duration_from_secs 1))) None None None None.
Definition demo_dw : DataWriter := mkDataWriter (mkTopic "Square" "ShapeType" patient WithKey) patient GUID_UNKNOWN 1 None.
Definition opts0 : WriteOptions := mkWriteOptions None None None.

(** A write, one that cannot be serialized, one that meets a dead receiver, an
    asynchronous one that has to wait, and a disposal. *)
Definition demo_ops : list (DwOp Z Z) :=
  [OpWrite (fun _ => SaOk) 41 opts0; OpWrite (fun _ => SaOk) 0 opts0; OpWrite (fun _ => SaDisconnected "gone") 42 opts0;
   OpAsyncWrite 43 opts0 0 [(1, SaFull, 5); (1, SaOk, 9)]; OpDispose SaOk 41 None].

Lemma demo_ops_ok : Forall op_ok demo_ops.
Proof. repeat constructor; try done; intros ?; done. Qed.
Lemma demo_timeout_ok : timeout_ok demo_dw.
Proof. split; vm_compute; intuition congruence. Qed.

(** An I/O error that comes after the command was queued makes a write fail whose
    sample is in the channel: its number is given back, and used for the next one. *)
Lemma late_error_repeats_number :
  exists w' evs, run_ops [OpWrite (fun _ => SaIo true "wake-up failed") 41 opts0; OpWrite (fun _ => SaOk) 42 opts0] demo_dw = Ret (tt, w', evs) /\
    uploads evs = [sample_command (D:=Z) (K:=Z) [41] opts0 1; sample_command (D:=Z) (K:=Z) [42] opts0 1].
Proof. eexists _, _. split; [vm_compute; reflexivity|]. vm_compute. reflexivity. Qed.

Lemma writes_numbered_witness :
  exists w' evs, run_ops demo_ops demo_dw = Ret (tt, w', evs) /\ numbers evs = [1; 2; 3] /\ StronglySorted Z.lt [1; 2; 3].
Proof.
  destruct (writes_numbered demo_ops demo_dw) as (w' & evs & E & _ & Hs & _);
    [exact demo_timeout_ok|exact demo_ops_ok|by vm_compute|by vm_compute|].
  assert (numbers evs = [1; 2; 3]) as Hn by (vm_compute in E; inversion E; subst; vm_compute; reflexivity).
  exists w', evs. split; [done|]. split; [done|]. by rewrite <- Hn.
Defined.

Definition demo_rtps : Writer := w_set_history (w_set_readers demo_writer ∅) HistoryBuffer_new.

Lemma demo_rtps_inv : writer_inv demo_rtps.
Proof.
  split; cbn.
  - apply hist_new_inv.
  - done.
  - intros sn cc. unfold get_by_sn. cbn. by rewrite lookup_empty.
  - intros g rp. by rewrite lookup_empty.
Qed.

Lemma written_samples_stored_witness :
  exists dw' evs w' wevs, run_ops demo_ops demo_dw = Ret (tt, dw', evs) /\
    process_writer_command (zip [mkTimestamp 1 0; mkTimestamp 2 0; mkTimestamp 3 0] (uploads evs)) demo_rtps = Ret ([], w', wevs) /\
    get_by_sn (w_history w') 2 =
      Some (mkCacheChange GUID_UNKNOWN 2 opts0 (DData (mkPayload (mkRepId (0, 1)) (0, 0) [43]))).
Proof.
  destruct (written_samples_stored demo_ops demo_dw demo_rtps) as (dw' & evs & E & Hrun);
    [exact demo_timeout_ok|exact demo_ops_ok|done|by vm_compute|exact demo_rtps_inv|done|done|].
  assert (uploads evs = [sample_command (D:=Z) (K:=Z) [41] opts0 1; sample_command (D:=Z) (K:=Z) [43] opts0 2;
            WCData (DDisposeByKey NotAliveDisposed (mkPayload (mkRepId (0, 1)) (0, 0) [41])) opts0 3]) as Hu
    by (vm_compute in E; inversion E; subst; vm_compute; reflexivity).
  destruct (Hrun [mkTimestamp 1 0; mkTimestamp 2 0; mkTimestamp 3 0]) as (w' & wevs & Ep & _ & Hin & _).
  - by rewrite Hu.
  - repeat constructor.
  - rewrite Hu. repeat constructor.
  - exists dw', evs, w', wevs. split; [done|]. split; [done|]. apply Hin. rewrite Hu. set_solver.
Defined.

Lemma concurrent_numbers_witness :
  exists n W, shared_run false n (shared_init demo_dw [1]%nat) W /\ sh_channel W = [1] /\ NoDup (sh_channel W).
Proof.
  set (W := mkShared (dw_set_number demo_dw 2) (<[1%nat := TIdle]> (<[1%nat := THolds 1]> (sh_threads (shared_init demo_dw [1]%nat)))) [1]).
  assert (shared_run false 2 (shared_init demo_dw [1]%nat) W) as Hr.
  { eapply run_step; [eapply (step_take _ 1%nat); [done|by apply next_number_run]|done|].
    eapply run_step; [by eapply (step_send _ 1%nat 1)|done|apply run_here]. }
  exists 2%nat, W. split; [done|]. split; [done|]. apply (concurrent_numbers 2 demo_dw [1]%nat W); [done|by vm_compute|done].
Defined.

Lemma failed_write_repeats_number_witness :
  exists n W, shared_run true n (shared_init demo_dw [1; 2]%nat) W /\ sh_channel W = [2; 2].
Proof. apply (failed_write_repeats_number demo_dw). done. Defined.

(** The command is sent, the acknowledgments come, and nothing happens. *)
Lemma async_wait_never_woken_witness :
  exists x, rtc (exec_step 1) (wait_starts demo_dw 7) x /\ ex_future x = AwaWaiting /\ ex_result x <> Some (inl true).
Proof.
  set (x := mkExec AwaWaiting demo_dw false false None).
  assert (rtc (exec_step 1) (wait_starts demo_dw 7) x) as Hr.
  { eapply rtc_l; [|apply rtc_refl]. by apply (exec_poll 1 (wait_starts demo_dw 7) SaOk RaToken AwaWaiting demo_dw Pending [DwUpload (WCWaitForAcknowledgments 7)]). }
  exists x. split; [done|]. split; [done|]. by apply (async_wait_never_woken 1 7 (Duration_from_secs 1) demo_dw x).
Defined.
