(* ===== verification/PubSub.v ===== *)
(** * Publishers, subscribers, and the creation of endpoints

    [src/dds/pubsub.rs], the parts of [src/dds/participant.rs] that make
    publishers and subscribers, and the destructors of data writers and simple
    data readers, without the security feature.

    Creating an endpoint leaves a description in the discovery database, the
    ingredients of the RTPS endpoint in the channel to the event loop, and
    commands in the channel to Discovery.  A publisher's operations run under its
    lock; taking a lock the thread holds already never returns. *)

From S2P Require Import Prelude BTree Time Guid Locator Qos StatusEvents DdsCache DiscoveryData DiscoveryDB EventLoop Discovery Channels Participant DataWriter.

(** What the operating system provides: the time, the addresses of the
    interfaces, and whether channels and pipes can be made. *)
Record Host := mkHost {
  host_utc_now : Z;
  host_unicast_addresses : list Locator;
  host_status_channel : option string;
  host_poll_channel : option string;
}.

(** [p_lock] names the mutex around the inner publisher. *)
Record Publisher := mkPublisher { p_lock : nat; p_my_qos_policies : QosPolicies; default_datawriter_qos : QosPolicies }.
Record Subscriber := mkSubscriber { s_qos : QosPolicies }.

Definition create_publisher (lock : nat) (qos : QosPolicies) : Publisher := mkPublisher lock qos qos.
Definition create_subscriber (qos : QosPolicies) : Subscriber := mkSubscriber qos.

(** ** Locks and channels *)

(** [inner_lock()], held while [body] runs. *)
Definition with_lock {A} (lock : nat) (body : A_ A) : A_ A :=
  s ← get_st;
  if decide (lock ∈ held s) then lift_outcome Diverge
  else
    _ ← modify_st (fun s => api_set_held s ({[lock]} ∪ held s));
    a ← body;
    _ ← modify_st (fun s => api_set_held s (held s ∖ {[lock]}));
    mret a.

Definition add_writer_send (i : WriterIngredients) : A_ (option SendAnswer) :=
  s ← get_st;
  let '(q, r) := queue_send (add_writer_q s) i in
  _ ← modify_st (fun s => api_set_writers_q s q (remove_writer_q s));
  mret r.

Definition add_reader_try_send (i : ReaderIngredients) : A_ (option SendAnswer) :=
  s ← get_st;
  let '(q, r) := queue_try_send (add_reader_q s) i in
  _ ← modify_st (fun s => api_set_readers_q s q (remove_reader_q s));
  mret r.

Definition answer_display (a : SendAnswer) : string :=
  match a with
  | SaOk => ""
  | SaFull => "sending on a full channel"
  | SaDisconnected d | SaIo _ d => d
  end.

(** [try_send_timeout] on the channels for removals, whose other end empties them
    meanwhile: what arrives is an event; a failure is only logged. *)
Definition send_removal (answers : nat -> SendAnswer) (guid : GUID) : A_ unit :=
  _ ← try_send_timeout ApSent ApSleep answers guid None; mret tt.

(** ** Participants and entity ids *)

(** [self.participant()], which upgrades the weak handle. *)
Definition participant : A_ (option DomainParticipant) :=
  s ← get_st; mret (if api_alive s then Some (api_dp s) else None).

Definition unwrap_or_new_entity_id (entity_id_opt : option EntityId) (entity_kind : Z) : A_ EntityId :=
  match entity_id_opt with
  | Some e => mret e
  | None =>
      p ← participant;
      _ ← lift_outcome (rust_unwrap p "called Option::unwrap() on a None value");
      new_entity_id entity_kind
  end.

Definition api_on_db {A} (h : act DiscoveryDB DbEvent A) : A_ A :=
  s ← get_st;
  r ← lift_outcome (h (api_db s));
  _ ← modify_st (fun s => api_set_db s r.1.2);
  _ ← act_for r.2 (fun ev => emit_ev (ApDb ev));
  mret r.1.1.

(** ** Writers *)

Definition remove_writer (answers : nat -> SendAnswer) (p : Publisher) (guid : GUID) : A_ unit :=
  with_lock (p_lock p) (send_removal answers guid).

(** [impl Drop for DataWriter] *)
Definition DataWriter_drop (answers : nat -> SendAnswer) (p : Publisher) (w : DataWriter) : A_ unit :=
  _ ← remove_writer answers p (dw_my_guid w);
  _ ← discovery_send (DC_RemoveLocalWriter (dw_my_guid w));
  mret tt.

(** [Option::unwrap_or_else(QosPolicies::qos_none)] *)
Definition or_no_qos (q : option QosPolicies) : QosPolicies := default qos_none q.

(** [InnerPublisher::create_datawriter].  The writer that has been made is dropped
    on the error paths after it. *)
Definition inner_create_datawriter (host : Host) (answers : nat -> SendAnswer) (self : Publisher)
    (entity_id_opt : option EntityId) (topic : Topic) (optional_qos : option QosPolicies) (writer_like_stateless : bool)
  : A_ (DataWriter + CreateError) :=
  match host_status_channel host with
  | Some e => mret (inr (CE_Io e))
  | None =>
    let writer_qos := modify_by (modify_by (default_datawriter_qos self) (t_qos topic)) (or_no_qos optional_qos) in
    entity_id ← unwrap_or_new_entity_id entity_id_opt WRITER_WITH_KEY_USER_DEFINED;
    dp_opt ← participant;
    match dp_opt with
    | None => mret (inr (CE_ResourceDropped "Where is my DomainParticipant? upgrade fail"))
    | Some dp =>
      let guid := GUID_new (prefix (dp_guid dp)) entity_id in
      r ← add_writer_send (mkWI guid (t_name topic) writer_like_stateless writer_qos);
      match r with
      | Some e => mret (inr (CE_Poisoned ("Adding a new writer failed: " +:+ answer_display e)))
      | None =>
        let '(data_writer, commands) := DataWriter_new topic writer_qos guid in
        _ ← act_for commands (fun c => _ ← discovery_send c; mret tt);
        s ← get_st;
        if poisoned s LkDb then
          _ ← DataWriter_drop answers self data_writer;
          mret (inr (CE_Poisoned "Discovery DB: poisoned lock: another task failed inside"))
        else
          let dwd := DiscoveredWriterData_new (host_utc_now host) (host_unicast_addresses host) guid writer_qos topic dp in
          _ ← modify_st (fun s => api_set_db s (update_local_topic_writer dwd (api_db s)));
          _ ← api_on_db (update_topic_data_p (host_utc_now host) topic);
          _ ← discovery_try_send (DC_AddTopic (t_name topic));
          let writer_guid := GUID_from_prefix (dp_guid dp) entity_id in
          r ← discovery_try_send (DC_AddLocalWriter writer_guid);
          match r with
          | Some e =>
              _ ← DataWriter_drop answers self data_writer;
              mret (inr (CE_Internal ("Cannot inform Discovery about the new writer. Error: " +:+ answer_display e)))
          | None => mret (inl data_writer)
          end
      end
    end
  end.

Definition inner_create_datawriter_no_key (host : Host) (answers : nat -> SendAnswer) (self : Publisher)
    (entity_id_opt : option EntityId) (topic : Topic) (qos : option QosPolicies) (writer_like_stateless : bool)
  : A_ (DataWriter + CreateError) :=
  entity_id ← unwrap_or_new_entity_id entity_id_opt WRITER_NO_KEY_USER_DEFINED;
  inner_create_datawriter host answers self (Some entity_id) topic qos writer_like_stateless.

(** The operations of [Publisher], which lock the inner one. *)
Definition create_datawriter (host : Host) (answers : nat -> SendAnswer) (self : Publisher) (topic : Topic)
    (qos : option QosPolicies) : A_ (DataWriter + CreateError) :=
  with_lock (p_lock self) (inner_create_datawriter host answers self None topic qos false).

Definition create_datawriter_no_key (host : Host) (answers : nat -> SendAnswer) (self : Publisher) (topic : Topic)
    (qos : option QosPolicies) : A_ (DataWriter + CreateError) :=
  with_lock (p_lock self) (inner_create_datawriter_no_key host answers self None topic qos false).

Definition create_datawriter_with_entity_id_with_key (host : Host) (answers : nat -> SendAnswer) (self : Publisher)
    (entity_id : EntityId) (topic : Topic) (qos : option QosPolicies) (writer_like_stateless : bool)
  : A_ (DataWriter + CreateError) :=
  with_lock (p_lock self) (inner_create_datawriter host answers self (Some entity_id) topic qos writer_like_stateless).

Definition set_default_datawriter_qos (self : Publisher) (q : QosPolicies) : Publisher :=
  mkPublisher (p_lock self) (p_my_qos_policies self) q.

(** ** Readers *)

(** What a simple data reader keeps, but for its position in the topic cache. *)
Record SimpleReader := mkSimpleReader { sr_topic : Topic; sr_qos_policy : QosPolicies; sr_my_guid : GUID }.

Definition Subscriber_remove_reader (answers : nat -> SendAnswer) (guid : GUID) : A_ unit := send_removal answers guid.

(** [impl Drop for SimpleDataReader] *)
Definition SimpleDataReader_drop (answers : nat -> SendAnswer) (r : SimpleReader) : A_ unit :=
  _ ← Subscriber_remove_reader answers (sr_my_guid r);
  _ ← discovery_send (DC_RemoveLocalReader (sr_my_guid r));
  mret tt.

(** [SimpleDataReader::new] *)
Definition SimpleDataReader_new (my_id : EntityId) (topic : Topic) (qos_policy : QosPolicies) (topic_cache : TopicCache)
  : A_ (SimpleReader + CreateError) :=
  p ← participant;
  match p with
  | None => mret (inr (CE_ResourceDropped "Cannot create new DataReader, DomainParticipant doesn't exist."))
  | Some dp =>
      s ← get_st;
      _ ← lift_outcome (rust_assert (negb (poisoned s (LkTopic (t_name topic)))) "PoisonError");
      if bool_decide (t_name topic = topic_name topic_cache)
      then mret (inl (mkSimpleReader topic qos_policy (GUID_new (prefix (dp_guid dp)) my_id)))
      else mret (inr (CE_Internal "Topic name and topic cache name not equal when creating a SimpleDataReader"))
  end.

Definition set_topic_cache (c : DDSCache) (name : string) (tc : TopicCache) : DDSCache := mkDDSCache (<[name := tc]> (topic_caches c)).

Definition create_simple_datareader_internal (host : Host) (answers : nat -> SendAnswer) (self : Subscriber)
    (entity_id_opt : option EntityId) (topic : Topic) (optional_qos : option QosPolicies) (reader_like_stateless : bool)
  : A_ (SimpleReader + CreateError) :=
  match host_status_channel host with
  | Some e => mret (inr (CE_Io e))
  | None =>
    let qos := modify_by (modify_by (s_qos self) (t_qos topic)) (or_no_qos optional_qos) in
    entity_id ← unwrap_or_new_entity_id entity_id_opt READER_WITH_KEY_USER_DEFINED;
    dp_opt ← participant;
    match dp_opt with
    | None => mret (inr (CE_ResourceDropped "DomainParticipant doesn't exist anymore."))
    | Some dp =>
      s ← get_st;
      if poisoned s LkCache then mret (inr (CE_Poisoned "Cannot lock DDScache."))
      else match get_existing_topic_cache (api_cache s) (t_name topic) with
      | None => mret (inr (CE_Internal ("Topic cache for topic " +:+ t_name topic +:+ " not found in DDS cache")))
      | Some tc =>
        if poisoned s (LkTopic (t_name topic)) then mret (inr (CE_Poisoned "Cannot lock topic cache."))
        else
          let tc := update_keep_limits tc qos in
          _ ← modify_st (fun s => api_set_cache s (set_topic_cache (api_cache s) (t_name topic) tc));
          let reader_guid := GUID_new (prefix (dp_guid dp)) entity_id in
          match host_poll_channel host with
          | Some e => mret (inr (CE_Io e))
          | None =>
            let new_reader := mkRI reader_guid (t_name topic) reader_like_stateless qos in
            if poisoned s LkDb then mret (inr (CE_Poisoned "Cannot lock discovery_db."))
            else
              _ ← modify_st (fun s => api_set_db s (update_local_topic_reader dp topic (ri_guid new_reader) (ri_qos_policy new_reader) (api_db s)));
              _ ← api_on_db (update_topic_data_p (host_utc_now host) topic);
              _ ← discovery_try_send (DC_AddTopic (t_name topic));
              dr ← SimpleDataReader_new entity_id topic qos tc;
              match dr with
              | inr e => mret (inr e)
              | inl datareader =>
                  r ← add_reader_try_send new_reader;
                  match r with
                  | Some e =>
                      _ ← SimpleDataReader_drop answers datareader;
                      mret (inr (CE_Poisoned ("Cannot add DataReader. Error: " +:+ answer_display e)))
                  | None =>
                      let reader_guid := GUID_from_prefix (dp_guid dp) entity_id in
                      r ← discovery_try_send (DC_AddLocalReader reader_guid);
                      match r with
                      | Some e =>
                          _ ← SimpleDataReader_drop answers datareader;
                          mret (inr (CE_Internal ("Cannot inform Discovery about the new reader. Error: " +:+ answer_display e)))
                      | None => mret (inl datareader)
                      end
                  end
              end
          end
      end
    end
  end.

(** [create_datareader_internal] wraps the simple reader; its own state is that of
    the sample cache. *)
Definition create_datareader (host : Host) (answers : nat -> SendAnswer) (self : Subscriber) (topic : Topic)
    (entity_id : option EntityId) (qos : option QosPolicies) (reader_like_stateless : bool) : A_ (SimpleReader + CreateError) :=
  if decide (t_kind topic <> WithKey) then mret (inr (CE_TopicKind WithKey))
  else create_simple_datareader_internal host answers self entity_id topic qos reader_like_stateless.

Definition create_datareader_no_key (host : Host) (answers : nat -> SendAnswer) (self : Subscriber) (topic : Topic)
    (entity_id_opt : option EntityId) (qos : option QosPolicies) (reader_like_stateless : bool) : A_ (SimpleReader + CreateError) :=
  if decide (t_kind topic <> NoKey) then mret (inr (CE_TopicKind NoKey))
  else
    entity_id ← unwrap_or_new_entity_id entity_id_opt READER_NO_KEY_USER_DEFINED;
    create_simple_datareader_internal host answers self (Some entity_id) topic qos reader_like_stateless.

Definition create_simple_datareader_no_key (host : Host) (answers : nat -> SendAnswer) (self : Subscriber) (topic : Topic)
    (entity_id_opt : option EntityId) (qos : option QosPolicies) : A_ (SimpleReader + CreateError) :=
  if decide (t_kind topic <> NoKey) then mret (inr (CE_TopicKind NoKey))
  else
    entity_id ← unwrap_or_new_entity_id entity_id_opt READER_NO_KEY_USER_DEFINED;
    create_simple_datareader_internal host answers self (Some entity_id) topic qos false.
