(* ===== verification/PubSubTheorems.v ===== *)
(** * Publishers and subscribers: theorems

    - [created_writer_works], [created_reader_works]: an endpoint that has been
      created reaches the event loop and Discovery, with the QoS it was asked for;
    - [reader_creation_undone]: a reader that cannot be announced is taken back;
    - [writer_creation_deadlocks]: a writer that cannot be is not: the thread waits
      for a lock it holds;
    - [found_topic_unreadable]: a topic with keys that was found through Discovery
      cannot be read as such. *)

From S2P Require Import Prelude BTree Wire SequenceNumbers Time Guid Locator Qos StatusEvents DdsCache ReaderProxy DiscoveryData DiscoveryDB DiscoveryDBTheorems HistoryBuffer Reader MessageReceiver Writer WriterCorrect EventLoop EventLoopTheorems EventLoopSafety Discovery Channels Participant ParticipantTheorems DataWriter PubSub.

(** ** A participant in good health *)

Record api_ok (s : Api) : Prop := {
  ao_alive : api_alive s = true;
  ao_locks : unpoisoned s;
  ao_writers : q_connected (add_writer_q s) = true;
  ao_readers : q_connected (add_reader_q s) = true;
  ao_discovery : q_connected (discovery_q s) = true;
}.

(** Discovery's channel takes [n] more commands. *)
Definition room (n : nat) (s : Api) : Prop := (length (q_items (discovery_q s)) + n <= q_bound (discovery_q s))%nat.

Section steps.
Implicit Types s : Api.

Lemma wp_participant s (Q : option DomainParticipant -> Api -> list ApiEvent -> Prop) :
  api_alive s = true -> Q (Some (api_dp s)) s [] -> wp participant s Q.
Proof. intros Ha HQ. unfold participant. wp_step. wp_step. wp_step. cbn. by rewrite Ha. Qed.

Lemma wp_new_entity_id k s (Q : EntityId -> Api -> list ApiEvent -> Prop) :
  Q (mkEntityId (key_of (entity_id_generator s)) k) (api_set_generator s (u32 (entity_id_generator s + 1))) [] ->
  wp (new_entity_id k) s Q.
Proof. intros HQ. unfold new_entity_id. wp_step. wp_step. wp_step. wp_step. by wp_step. Qed.

Lemma wp_add_writer i s (Q : option SendAnswer -> Api -> list ApiEvent -> Prop) :
  q_connected (add_writer_q s) = true ->
  Q None (api_set_writers_q s (queue_push (add_writer_q s) i) (remove_writer_q s)) [] -> wp (add_writer_send i) s Q.
Proof. intros Hc HQ. unfold add_writer_send, queue_send. wp_step. wp_step. rewrite Hc. wp_step. wp_step. by wp_step. Qed.

Lemma wp_add_reader i s (Q : option SendAnswer -> Api -> list ApiEvent -> Prop) :
  q_connected (add_reader_q s) = true ->
  ((length (q_items (add_reader_q s)) < q_bound (add_reader_q s))%nat ->
     Q None (api_set_readers_q s (queue_push (add_reader_q s) i) (remove_reader_q s)) []) ->
  ((q_bound (add_reader_q s) <= length (q_items (add_reader_q s)))%nat -> Q (Some SaFull) s []) -> wp (add_reader_try_send i) s Q.
Proof.
  intros Hc H1 H2. unfold add_reader_try_send, queue_try_send. wp_step. wp_step. rewrite Hc. cbn [negb].
  destruct (Nat.ltb_spec (length (q_items (add_reader_q s))) (q_bound (add_reader_q s))); wp_step; wp_step; wp_step; [by apply H1|].
  cbn. replace (api_set_readers_q s _ _) with s by (by destruct s). by apply H2.
Qed.

Definition push_command (s : Api) (c : DiscoveryCommand) : Api := api_set_control_q s (queue_push (discovery_q s) c) (stop_q s).

Lemma wp_discovery_send c s (Q : option SendAnswer -> Api -> list ApiEvent -> Prop) :
  q_connected (discovery_q s) = true -> Q None (push_command s c) [] -> wp (discovery_send c) s Q.
Proof. intros Hc HQ. unfold discovery_send, queue_send. wp_step. wp_step. rewrite Hc. wp_step. wp_step. by wp_step. Qed.

Lemma wp_discovery_try_send c s (Q : option SendAnswer -> Api -> list ApiEvent -> Prop) :
  q_connected (discovery_q s) = true ->
  (room 1 s -> Q None (push_command s c) []) -> (~ room 1 s -> Q (Some SaFull) s []) -> wp (discovery_try_send c) s Q.
Proof.
  intros Hc H1 H2. unfold discovery_try_send, queue_try_send. wp_step. wp_step. rewrite Hc. cbn [negb].
  destruct (Nat.ltb_spec (length (q_items (discovery_q s))) (q_bound (discovery_q s))); wp_step; wp_step; wp_step.
  - apply H1. unfold room. lia.
  - cbn. replace (api_set_control_q s _ _) with s by (by destruct s). apply H2. unfold room. lia.
Qed.

Definition push_commands (s : Api) (cs : list DiscoveryCommand) : Api :=
  api_set_control_q s (mkQueue (q_bound (discovery_q s)) (q_items (discovery_q s) ++ cs) (q_connected (discovery_q s))) (stop_q s).

Lemma push_commands_cons s c cs : push_commands (push_command s c) cs = push_commands s (c :: cs).
Proof. unfold push_commands, push_command, queue_push. destruct s; cbn. by rewrite <- (assoc_L (++)). Qed.

Lemma wp_discovery_sends cs s (Q : unit -> Api -> list ApiEvent -> Prop) :
  q_connected (discovery_q s) = true -> Q tt (push_commands s cs) [] ->
  wp (act_for cs (fun c => _ ← discovery_send c; mret tt)) s Q.
Proof.
  revert s Q. induction cs as [|c cs IH]; intros s Q Hc HQ; cbn [act_for].
  - wp_step. replace s with (push_commands s []); [done|]. unfold push_commands. rewrite app_nil_r. by destruct s as [????????? [] ???].
  - wp_step. wp_step. apply wp_discovery_send; [done|]. wp_step. cbn [app]. apply IH; [done|]. by rewrite push_commands_cons.
Qed.

(** The topic's record is written or not; everything else stays. *)
Lemma wp_own_topic utc topic s (Q : unit -> Api -> list ApiEvent -> Prop) :
  (forall ts evs, Q tt (api_set_db s (db_set_topics (api_db s) ts)) evs) -> wp (api_on_db (update_topic_data_p utc topic)) s Q.
Proof.
  intros HQ. unfold api_on_db. wp_step. wp_step. wp_step.
  eapply wp_lift; [unfold update_topic_data_p, mbind at 1, act_bind at 1, get_st at 1; by rewrite update_topic_data_run|].
  cbn. wp_step. wp_step. wp_step. apply wp_emit_map. wp_step. cbn. apply HQ.
Qed.

Lemma wp_with_lock {A} lock (body : A_ A) s (Q : A -> Api -> list ApiEvent -> Prop) :
  lock ∉ held s ->
  wp body (api_set_held s ({[lock]} ∪ held s)) (fun a s' evs => Q a (api_set_held s' (held s' ∖ {[lock]})) evs) ->
  wp (with_lock lock body) s Q.
Proof.
  intros Hl Hb. unfold with_lock. wp_step. wp_step. rewrite decide_False by done. wp_step. wp_step. cbn [app].
  wp_step. eapply wp_mono; [exact Hb|]. intros a s' evs HQ. wp_step. wp_step. wp_step. cbn. by rewrite app_nil_r.
Qed.
End steps.

(** The QoS of a new endpoint, policy by policy: what the application asks for, or
    else what the topic has, or else the default of the publisher or subscriber. *)
Definition merged_qos (base topic : QosPolicies) (given : option QosPolicies) : QosPolicies :=
  let pick {A} (policy : QosPolicies -> option A) :=
    match given ≫= policy with
    | Some x => Some x
    | None => match policy topic with Some x => Some x | None => policy base end
    end in
  mkQos (pick durability) (pick presentation) (pick deadline) (pick latency_budget) (pick ownership) (pick liveliness)
    (pick time_based_filter) (pick reliability) (pick destination_order) (pick history) (pick resource_limits) (pick lifespan).

Lemma merged_qos_layers base topic given :
  modify_by (modify_by base topic) (or_no_qos given) = merged_qos base topic given.
Proof.
  unfold merged_qos, modify_by. destruct given as [g|]; cbn.
  - destruct g, topic, base. cbn. f_equal; unfold option_or; by repeat case_match.
  - destruct topic, base. cbn. f_equal; unfold option_or; by repeat case_match.
Qed.

(** Another number of the generator, of the 2^24 that it can tell apart, gives
    another entity id. *)
Lemma key_of_fresh n m k k' : n mod 2 ^ 24 <> m mod 2 ^ 24 -> mkEntityId (key_of n) k <> mkEntityId (key_of m) k'.
Proof.
  intros Hne [= E1 E2 E3 _]. apply Hne. unfold wrap_u in E1, E2, E3. rewrite !Z.shiftr_div_pow2 in E1, E2 by lia.
  change (2 ^ 8) with 256 in *. change (2 ^ 16) with 65536 in *. change (2 ^ 24) with 16777216.
  Z.to_euclidean_division_equations. lia.
Qed.

(** ** Writers *)

(** The QoS of a new writer: the publisher's default, overridden by the topic's,
    overridden by what the application asks for. *)
Definition writer_qos_of (p : Publisher) (topic : Topic) (qos : option QosPolicies) : QosPolicies :=
  modify_by (modify_by (default_datawriter_qos p) (t_qos topic)) (or_no_qos qos).

Definition host_ok (h : Host) : Prop := host_status_channel h = None /\ host_poll_channel h = None.

(** What the creation of a writer leaves behind. *)
Record writer_added (h : Host) (s s' : Api) (topic : Topic) (q : QosPolicies) (guid : GUID) (stateless : bool) : Prop := {
  wa_loop : add_writer_q s' = queue_push (add_writer_q s) (mkWI guid (t_name topic) stateless q);
  wa_discovery : q_items (discovery_q s') =
    q_items (discovery_q s) ++ liveliness_commands q ++ [DC_AddTopic (t_name topic); DC_AddLocalWriter guid];
  wa_db : get_local_topic_writer (api_db s') guid =
    Some (DiscoveredWriterData_new (host_utc_now h) (host_unicast_addresses h) guid q topic (api_dp s));
  wa_held : held s' = held s;
  wa_generator : entity_id_generator s' = entity_id_generator s;
}.

Lemma wp_inner_create_datawriter h answers p eid e topic qos stateless s0 s :
  host_ok h -> api_ok s ->
  unwrap_or_new_entity_id eid WRITER_WITH_KEY_USER_DEFINED s0 = Ret (e, s, []) ->
  let q := writer_qos_of p topic qos in
  let guid := GUID_new (prefix (dp_guid (api_dp s))) e in
  room (length (liveliness_commands q) + 2) s ->
  wp (inner_create_datawriter h answers p eid topic qos stateless) s0 (fun r s' _ =>
    r = inl (mkDataWriter topic q guid 1 None) /\ writer_added h s s' topic q guid stateless).
Proof.
  intros [Hh _] [Ha Hl Hw _ Hd] Hu q guid Hr. unfold inner_create_datawriter. rewrite Hh. fold (writer_qos_of p topic qos). fold q.
  wp_step. apply wp_run. eexists _, _, _. split; [exact Hu|]. wp_step. apply wp_participant; [done|]. wp_step. fold guid.
  apply wp_add_writer; [done|]. cbn [DataWriter_new]. wp_step. apply wp_discovery_sends; [done|]. wp_step. wp_step. cbn [app].
  change (poisoned (push_commands _ _) LkDb) with (poisoned s LkDb). rewrite Hl. wp_step. wp_step. wp_step. apply wp_own_topic. intros ts evs.
  set (n := length (liveliness_commands q)) in *. unfold room in Hr.
  wp_step. apply wp_discovery_try_send; [done| |intros Hn; destruct Hn; unfold room; cbn; rewrite length_app; fold n; lia].
  intros _. wp_step. apply wp_discovery_try_send; [done| |intros Hn; destruct Hn; unfold room; cbn; rewrite !length_app; cbn; fold n; lia].
  intros _. wp_step. split; [done|]. split; [done| | |done|done].
  - cbn. by rewrite <- !(assoc_L (++)).
  - unfold get_local_topic_writer. cbn. by rewrite lookup_insert_eq.
Qed.

Lemma unwrap_new k s :
  api_alive s = true ->
  unwrap_or_new_entity_id None k s =
    Ret (mkEntityId (key_of (entity_id_generator s)) k, api_set_generator s (u32 (entity_id_generator s + 1)), []).
Proof. intros Ha. unfold unwrap_or_new_entity_id, participant, mbind, act_bind, get_st, mret, act_ret. cbn. by rewrite Ha. Qed.

(** The event loop makes a writer of the ingredients. *)
Definition loop_gets_writer (wi : WriterIngredients) (l : DPEventLoop) : Prop :=
  wp (add_local_writer wi) l (fun _ l' _ => exists w, el_writers l' !! entity_id (wi_guid wi) = Some w /\ writer_inv w /\
    w_my_guid w = wi_guid wi /\ w_qos w = wi_qos_policies wi /\ w_topic_name w = wi_topic_name wi /\
    w_history w = HistoryBuffer_new /\ like_stateless w = wi_like_stateless wi).

Lemma Writer_new_run g tn st q :
  st && is_reliable q = false ->
  exists w evs, Writer_new g tn st q = Ret (w, evs) /\ writer_inv w /\ w_my_guid w = g /\ w_qos w = q /\ w_topic_name w = tn /\
    w_history w = HistoryBuffer_new /\ like_stateless w = st.
Proof.
  intros Hs. destruct (Writer_new_inv g tn st q Hs) as (w & evs & E & Hw & Hg). exists w, evs. split; [done|]. split; [done|].
  split; [done|]. unfold Writer_new in E. rewrite Hs in E. destruct (reliability q) as [[|d]|]; cbn in E.
  1, 3: by injection E as <- <-.
  destruct (liveliness q) as [[]|]; cbn in E; by injection E as <- <-.
Qed.

Lemma add_local_writer_works wi l :
  EntityId_ok (entity_id (wi_guid wi)) -> token_kind (entity_kind (entity_id (wi_guid wi))) ->
  wi_like_stateless wi && is_reliable (wi_qos_policies wi) = false -> loop_gets_writer wi l.
Proof.
  intros Hid Hk Hs. unfold loop_gets_writer, add_local_writer. wp_step. wp_step.
  destruct (Writer_new_run (wi_guid wi) (wi_topic_name wi) _ _ Hs) as (w & evs & E & Hw & Hg & Hrest).
  wp_step. eapply wp_lift; [exact E|]. wp_step. apply wp_emit_map.
  destruct (entity_token_roundtrip _ Hid Hk) as [(t & Et & _) _].
  wp_step. eapply wp_lift; [exact Et|]. wp_step. wp_step. wp_step. exists w. split_and!; try apply Hrest; [|done..].
  cbn. unfold w_entity_id. rewrite Hg. apply lookup_insert_eq.
Qed.

(** Discovery announces the writer. *)
Definition discovery_announces_writer (guid : GUID) (topic : Topic) (q : QosPolicies) (d : Discovery) : Prop :=
  exists data, write_single_writer_info guid d = Ret (tt, d, [DEvWritePublication data]) /\
    wpx_remote_writer_guid (dwd_writer_proxy data) = guid /\
    pbtd_topic_name (dwd_publication_topic_data data) = t_name topic /\
    pbtd_type_name (dwd_publication_topic_data data) = t_type_name topic /\
    PublicationBuiltinTopicData_qos (dwd_publication_topic_data data) = announced_qos q.

Lemma writer_announced h guid topic q dp d :
  EntityKind_is_user_defined (entity_kind (entity_id guid)) = true ->
  get_local_topic_writer (d_db d) guid = Some (DiscoveredWriterData_new (host_utc_now h) (host_unicast_addresses h) guid q topic dp) ->
  discovery_announces_writer guid topic q d.
Proof.
  intros Hk Hdb. eexists. split; [unfold write_single_writer_info, mbind, act_bind, get_st; rewrite Hdb; cbn; by rewrite Hk|].
  split_and!; [done..|]. apply publication_qos.
Qed.

Lemma key_of_ok n k : in_u 8 k -> EntityId_ok (mkEntityId (key_of n) k).
Proof. intros Hk. unfold EntityId_ok, key_of. cbn. pose proof (wrap_u_range 8). naive_solver lia. Qed.

(** C21: creating a writer succeeds on a healthy participant - alive, no lock
    poisoned, its channels connected -, when the publisher's lock is not held by
    this thread and Discovery's channel has room for the commands about the writer.
    The writer has, policy by policy, the QoS that the application gives, else the
    topic's, else the publisher's default ([merged_qos]; the documentation calls the
    argument unused), and the first number free. Its identity is that of the next
    number of the participant's generator, which moves on; the other numbers, up to
    2^24 of them, give other identities. The event loop, when it takes the
    ingredients from its channel, has an RTPS writer with that identity, topic and
    QoS and an empty history; and Discovery, when it takes its command, announces a
    writer with that identity, topic, type and QoS. No lock is left taken. *)
Theorem created_writer_works h answers p topic qos s :
  host_ok h -> api_ok s -> p_lock p ∉ held s ->
  let q := merged_qos (default_datawriter_qos p) (t_qos topic) qos in
  let guid := GUID_new (prefix (dp_guid (api_dp s))) (mkEntityId (key_of (entity_id_generator s)) WRITER_WITH_KEY_USER_DEFINED) in
  room (length (liveliness_commands q) + 2) s ->
  exists s' evs, create_datawriter h answers p topic qos s = Ret (inl (mkDataWriter topic q guid 1 None), s', evs) /\
    held s' = held s /\
    entity_id_generator s' = u32 (entity_id_generator s + 1) /\
    (forall n k, n mod 2 ^ 24 <> entity_id_generator s mod 2 ^ 24 -> mkEntityId (key_of n) k <> entity_id guid) /\
    (exists wi, q_items (add_writer_q s') = q_items (add_writer_q s) ++ [wi] /\ wi_guid wi = guid /\
       wi_topic_name wi = t_name topic /\ wi_qos_policies wi = q /\ wi_like_stateless wi = false /\ forall l, loop_gets_writer wi l) /\
    DC_AddLocalWriter guid ∈ q_items (discovery_q s') /\
    (forall d, d_db d = api_db s' -> discovery_announces_writer guid topic q d).
Proof.
  intros Hh Hs Hlock q guid Hroom. set (s0 := api_set_held s ({[p_lock p]} ∪ held s)).
  assert (q = writer_qos_of p topic qos) as Eq by (symmetry; apply merged_qos_layers). clearbody q. subst q.
  set (q := writer_qos_of p topic qos) in *. set (s1 := api_set_generator s0 (u32 (entity_id_generator s + 1))).
  assert (wp (create_datawriter h answers p topic qos) s (fun r s2 _ => r = inl (mkDataWriter topic q guid 1 None) /\
    exists s', s2 = api_set_held s' (held s' ∖ {[p_lock p]}) /\ writer_added h s1 s' topic q guid false)) as Hwp.
  { apply wp_with_lock; [done|]. eapply wp_mono; [apply (wp_inner_create_datawriter _ _ _ _ (entity_id guid) _ _ _ s0 s1 Hh)|].
    - destruct Hs. by split.
    - apply unwrap_new, Hs.
    - exact Hroom.
    - cbv beta. intros r s' evs [-> Hadd]. split; [done|]. by exists s'. }
  apply wp_run in Hwp as (r & s2 & evs & E & -> & s' & -> & [Hq Hc Hdb Hheld Hgen]). eexists _, evs. split; [exact E|]. split.
  { cbn. rewrite Hheld. cbn. set_solver. }
  split; [exact Hgen|]. split; [intros n k; apply key_of_fresh|].
  assert (EntityId_ok (entity_id guid)) as Hok by (apply key_of_ok; by vm_compute).
  split; [|split].
  - cbn. rewrite Hq. eexists. split; [done|]. split_and!; [done..|]. intros l. apply add_local_writer_works; [done|by right|done].
  - cbn. rewrite Hc. set_solver.
  - intros d Hd. eapply writer_announced; [done|]. rewrite Hd. exact Hdb.
Qed.

(** *** When Discovery's channel is full *)

Lemma bind_diverges {A B} (m : A_ A) (f : A -> A_ B) s Q :
  wp m s Q -> (forall a s' evs, Q a s' evs -> f a s' = Diverge) -> (m ≫= f) s = Diverge.
Proof. intros (a & s' & evs & E & HQ)%wp_run Hf. unfold mbind, act_bind. by rewrite E, (Hf _ _ _ HQ). Qed.

Lemma bind_diverges_at {A B} (m : A_ A) (f : A -> A_ B) s a s1 :
  wp m s (fun x s' _ => x = a /\ s' = s1) -> f a s1 = Diverge -> (m ≫= f) s = Diverge.
Proof. intros Hm Hf. eapply bind_diverges; [exact Hm|]. by intros ? ? ? [-> ->]. Qed.

Lemma lock_twice {A} lock (body : A_ A) s : lock ∈ held s -> with_lock lock body s = Diverge.
Proof. intros Hl. unfold with_lock, mbind at 1, act_bind at 1, get_st at 1. by rewrite decide_True. Qed.

(** When Discovery's channel is full, creating a writer does not fail with the
    error that the code returns: the data writer that is dropped on the way out
    tells its publisher, whose lock the thread is still holding, and waits for it
    forever. *)
Theorem writer_creation_deadlocks h answers p topic qos s :
  host_ok h -> api_ok s -> p_lock p ∉ held s -> (q_bound (discovery_q s) <= length (q_items (discovery_q s)))%nat ->
  create_datawriter h answers p topic qos s = Diverge.
Proof.
  intros [Hh _] [Ha Hl Hw _ Hd] Hlock Hfull. unfold create_datawriter, with_lock.
  unfold mbind at 1, act_bind at 1, get_st at 1. rewrite decide_False by done.
  unfold mbind at 1, act_bind at 1, modify_st at 1. set (s0 := api_set_held s ({[p_lock p]} ∪ held s)).
  unfold mbind at 1, act_bind at 1. enough (inner_create_datawriter h answers p None topic qos false s0 = Diverge) as ->; [done|].
  unfold inner_create_datawriter. rewrite Hh. set (q := modify_by _ _).
  eapply bind_diverges_at; [apply wp_run; eexists _, _, _; split; [by apply unwrap_new|done]|].
  eapply bind_diverges_at; [by apply wp_participant|]. eapply bind_diverges_at; [by apply wp_add_writer|]. cbn [DataWriter_new].
  eapply bind_diverges_at; [by apply wp_discovery_sends|]. eapply bind_diverges_at; [by apply wp_get|].
  change (poisoned (push_commands _ _) LkDb) with (poisoned s LkDb). rewrite Hl.
  eapply bind_diverges_at; [by apply wp_modify|]. set (s2 := api_set_db _ _).
  apply (bind_diverges _ _ _ (fun _ s' _ => exists ts, s' = api_set_db s2 (db_set_topics (api_db s2) ts))); [apply wp_own_topic; eauto|].
  intros [] s3 _ [ts ->].
  assert (forall c s, held s = held s0 -> q_connected (discovery_q s) = true -> ~ room 1 s ->
    wp (discovery_try_send c) s (fun r s' _ => r = Some SaFull /\ s' = s)) as Hsend by (intros; by apply wp_discovery_try_send).
  eapply bind_diverges_at; [apply Hsend; [done|done|unfold room; cbn; rewrite length_app; lia]|].
  eapply bind_diverges_at; [apply Hsend; [done|done|unfold room; cbn; rewrite length_app; lia]|].
  unfold mbind at 1, act_bind at 1, DataWriter_drop at 1, mbind at 1, act_bind at 1, remove_writer at 1.
  rewrite lock_twice; [done|]. cbn. set_solver.
Qed.

(** ** Readers *)

Definition reader_qos_of (sub : Subscriber) (topic : Topic) (qos : option QosPolicies) : QosPolicies :=
  modify_by (modify_by (s_qos sub) (t_qos topic)) (or_no_qos qos).

(** The state after the part that cannot fail on a healthy participant. *)
Record reader_prepared (s s' : Api) (topic : Topic) (q : QosPolicies) (guid : GUID) (tc : TopicCache) : Prop := {
  rp_cache : api_cache s' = set_topic_cache (api_cache s) (t_name topic) (update_keep_limits tc q);
  rp_db : get_local_topic_reader (api_db s') guid =
    Some (mkDRD (ReaderProxy_from (RtpsReaderProxy_from_reader guid q (api_dp s)))
            (SubscriptionBuiltinTopicData_new guid (Some (dp_guid (api_dp s))) (t_name topic) (t_type_name topic) (t_qos topic)) None);
}.

Lemma wp_SimpleDataReader_new e topic q tc s (Q : SimpleReader + CreateError -> Api -> list ApiEvent -> Prop) :
  api_alive s = true -> unpoisoned s -> topic_name tc = t_name topic ->
  Q (inl (mkSimpleReader topic q (GUID_new (prefix (dp_guid (api_dp s))) e))) s [] -> wp (SimpleDataReader_new e topic q tc) s Q.
Proof.
  intros Ha Hl Hn HQ. unfold SimpleDataReader_new. wp_step. apply wp_participant; [done|]. wp_step. wp_step. wp_step.
  eapply wp_lift; [by rewrite Hl|]. rewrite bool_decide_eq_true_2 by done. by wp_step.
Qed.

Lemma wp_send_removal answers guid s (Q : unit -> Api -> list ApiEvent -> Prop) :
  (forall k, answers k = SaOk) -> Q tt s [ApSent guid] -> wp (send_removal answers guid) s Q.
Proof.
  intros Ha HQ. unfold send_removal, try_send_timeout, try_send. rewrite Ha. by repeat (wp_step; cbn [app]).
Qed.

Lemma wp_SimpleDataReader_drop answers r s (Q : unit -> Api -> list ApiEvent -> Prop) :
  (forall k, answers k = SaOk) -> q_connected (discovery_q s) = true ->
  Q tt (push_command s (DC_RemoveLocalReader (sr_my_guid r))) [ApSent (sr_my_guid r)] -> wp (SimpleDataReader_drop answers r) s Q.
Proof.
  intros Ha Hc HQ. unfold SimpleDataReader_drop, Subscriber_remove_reader. wp_step. apply wp_send_removal; [done|].
  wp_step. apply wp_discovery_send; [done|]. by wp_step.
Qed.

(** The reader is dropped on the way out. *)
Ltac drop_case Hdrop why :=
  eapply wp_mono; [apply (Hdrop _ []); [done|done|done|why]|]; cbv beta; intros [?|?] s' evs [? Hx]; [done|]; split; [done|];
  destruct Hx as (? & ? & Hin); split; [done|]; split; [done|]; cbn in Hin |- *; set_solver.

Lemma wp_create_reader h answers sub eid e topic qos stateless s0 s tc :
  host_ok h -> api_ok s -> (forall k, answers k = SaOk) ->
  unwrap_or_new_entity_id eid READER_WITH_KEY_USER_DEFINED s0 = Ret (e, s, []) ->
  get_existing_topic_cache (api_cache s) (t_name topic) = Some tc -> topic_name tc = t_name topic ->
  let q := reader_qos_of sub topic qos in
  let guid := GUID_new (prefix (dp_guid (api_dp s))) e in
  wp (create_simple_datareader_internal h answers sub eid topic qos stateless) s0 (fun r s' evs =>
    reader_prepared s s' topic q guid tc /\
    match r with
    | inl dr => room 2 s /\ (length (q_items (add_reader_q s)) < q_bound (add_reader_q s))%nat /\ dr = mkSimpleReader topic q guid /\
        add_reader_q s' = queue_push (add_reader_q s) (mkRI guid (t_name topic) stateless q) /\
        q_items (discovery_q s') = q_items (discovery_q s) ++ [DC_AddTopic (t_name topic); DC_AddLocalReader guid]
    | inr e => (~ room 2 s \/ (q_bound (add_reader_q s) <= length (q_items (add_reader_q s)))%nat) /\
        last (q_items (discovery_q s')) = Some (DC_RemoveLocalReader guid) /\ ApSent guid ∈ evs
    end).
Proof.
  intros [Hh Hp] [Ha Hl _ Hr Hd] Hans Hu Htc Hn q guid. unfold create_simple_datareader_internal. rewrite Hh.
  fold (reader_qos_of sub topic qos). fold q.
  wp_step. apply wp_run. eexists _, _, _. split; [exact Hu|]. wp_step. apply wp_participant; [done|]. wp_step. wp_step.
  rewrite Hl, Htc, Hl. wp_step. wp_step. rewrite Hp, Hl. fold guid. wp_step. wp_step. wp_step. apply wp_own_topic. intros ts evs0.
  set (s3 := api_set_db _ (db_set_topics _ ts)). wp_step.
  assert (forall s4, api_cache s4 = api_cache s3 -> api_db s4 = api_db s3 -> reader_prepared s s4 topic q guid tc) as Hprep.
  { intros s4 Ec Ed. split; [by rewrite Ec|]. unfold get_local_topic_reader. rewrite Ed. cbn. by rewrite lookup_insert_eq. }
  assert (forall s4 evs1 e1, api_cache s4 = api_cache s3 -> api_db s4 = api_db s3 -> q_connected (discovery_q s4) = true ->
    (~ room 2 s \/ (q_bound (add_reader_q s) <= length (q_items (add_reader_q s)))%nat) ->
    wp (_ ← SimpleDataReader_drop answers (mkSimpleReader topic q guid); mret (inr e1)) s4 (fun (r : SimpleReader + CreateError) s' evs =>
      reader_prepared s s' topic q guid tc /\
      match r with
      | inl dr => False
      | inr e => (~ room 2 s \/ (q_bound (add_reader_q s) <= length (q_items (add_reader_q s)))%nat) /\
          last (q_items (discovery_q s')) = Some (DC_RemoveLocalReader guid) /\ ApSent guid ∈ evs1 ++ evs
      end)) as Hdrop.
  { intros s4 evs1 e1 Ec Edb Hc Hwhy. wp_step. apply wp_SimpleDataReader_drop; [done|done|]. wp_step. split; [by apply Hprep|].
    split; [done|]. split; [cbn; by rewrite last_snoc|]. cbn. set_solver. }
  apply wp_discovery_try_send; [done|intros Hroom|intros Hroom];
    (wp_step; apply wp_SimpleDataReader_new; [done|done|exact Hn|]); wp_step;
    (apply wp_add_reader; [done|intros Hadd|intros Hadd]).
  all: try (drop_case Hdrop ltac:(by right)).
  all: wp_step; (apply wp_discovery_try_send; [done|intros Hroom2|intros Hroom2]).
  - wp_step. split; [by apply Hprep|]. split; [unfold room in *; cbn in *; rewrite length_app in Hroom2; cbn in Hroom2; lia|].
    split_and!; [done..|]. cbn. by rewrite <- (assoc_L (++)).
  - drop_case Hdrop ltac:(left; intros Hr2; destruct Hroom2; unfold room in *; cbn in *; rewrite length_app; cbn; lia).
  - exfalso. destruct Hroom. unfold room in *. cbn in *. lia.
  - drop_case Hdrop ltac:(left; intros Hr2; destruct Hroom2; unfold room in *; cbn in *; lia).
Qed.

(** The event loop makes a reader of the ingredients. *)
Definition loop_gets_reader (clock : nat -> Timestamp) (ri : ReaderIngredients) (l : DPEventLoop) : Prop :=
  wp (add_local_reader clock ri) l (fun _ l' _ => exists r,
    available_readers (el_message_receiver l') !! entity_id (ri_guid ri) = Some r /\ r_my_guid r = ri_guid ri /\
    r_qos r = ri_qos_policy ri /\ r_topic_name r = ri_topic_name ri /\ matched_writers r = ∅).

Lemma add_local_reader_works clock ri l :
  reader_ing_ok (el_message_receiver l) ri -> available_readers (el_message_receiver l) !! entity_id (ri_guid ri) = None ->
  loop_gets_reader clock ri l.
Proof.
  intros ([Hid Hk] & Hs & tc & Htc & Hn) Hfree. unfold loop_gets_reader, add_local_reader. wp_step. wp_step. wp_step.
  unfold read_clock. wp_step. wp_step. wp_step. wp_step. wp_step. wp_step. wp_step. cbn [app]. cbn [el_message_receiver el_set_receiver mr_caches].
  rewrite Htc. wp_step. eapply wp_lift; [unfold Reader_new; rewrite Hn, String.eqb_refl, Hs; reflexivity|].
  destruct (entity_token_roundtrip _ Hid Hk) as [(t & Et & _) _]. wp_step. eapply wp_lift; [exact Et|]. wp_step. wp_step.
  wp_step. match goal with |- context [set_requested_deadline_check_timer ?x] => pose proof (deadline_timer_wp x) as Hd end.
  apply wp_run in Hd as ([] & st' & evs & Ed & ->). eapply wp_lift; [exact Ed|]. wp_step. apply wp_emit_map. wp_step.
  cbn [fst snd rs_reader el_message_receiver el_set_receiver]. eexists. split.
  - unfold add_reader, r_entity_id. cbn [r_my_guid available_readers]. rewrite Hfree. cbn. apply lookup_insert_eq.
  - done.
Qed.

(** Discovery announces the reader, as the topic describes it. *)
Definition discovery_announces_reader (guid : GUID) (topic : Topic) (d : Discovery) : Prop :=
  exists data, write_single_reader_info guid d = Ret (tt, d, [DEvWriteSubscription data]) /\
    rpx_remote_reader_guid (drd_reader_proxy data) = guid /\
    sbtd_topic_name (drd_subscription_topic_data data) = t_name topic /\
    sbtd_type_name (drd_subscription_topic_data data) = t_type_name topic /\
    SubscriptionBuiltinTopicData_qos (drd_subscription_topic_data data) = announced_qos (t_qos topic).

Lemma reader_announced guid topic q dp d :
  EntityKind_is_user_defined (entity_kind (entity_id guid)) = true ->
  get_local_topic_reader (d_db d) guid =
    Some (mkDRD (ReaderProxy_from (RtpsReaderProxy_from_reader guid q dp))
            (SubscriptionBuiltinTopicData_new guid (Some (dp_guid dp)) (t_name topic) (t_type_name topic) (t_qos topic)) None) ->
  discovery_announces_reader guid topic d.
Proof.
  intros Hk Hdb. eexists. split; [unfold write_single_reader_info, mbind, act_bind, get_st; rewrite Hdb; cbn; by rewrite Hk|]. done.
Qed.

(** What a topic cache keeps once a reader with the QoS [q] uses it: at least as
    much as the history policy asks for (one sample if there is none), at most as
    many samples as the resource limits say (64 if there are none) or as the history
    needs, and never less than before.  The changes in it stay. *)
Definition cache_keeps (q : QosPolicies) (tc tc' : TopicCache) : Prop :=
  let limit := match resource_limits q with Some l => max_samples l | None => 64 end in
  min_keep_samples tc' = match history q, min_keep_samples tc with
                         | Some KeepAll, _ | _, KeepAll => KeepAll
                         | Some (KeepLast n), KeepLast m => KeepLast (Z.max n m)
                         | None, KeepLast m => KeepLast (Z.max 1 m)
                         end /\
  max_keep_samples tc' = Z.max (max_keep_samples tc) match history q with
                                                     | Some KeepAll => limit
                                                     | Some (KeepLast n) => Z.max n limit
                                                     | None => Z.max 1 limit
                                                     end /\
  tc_changes tc' = tc_changes tc /\ sequence_numbers tc' = sequence_numbers tc /\
  received_reliably_before tc' = received_reliably_before tc /\ topic_name tc' = topic_name tc.

Lemma update_keep_limits_keeps tc q : cache_keeps q tc (update_keep_limits tc q).
Proof.
  unfold cache_keeps, update_keep_limits. cbn.
  assert (max_samples (default (mkResourceLimits 64 64 64) (resource_limits q)) =
    match resource_limits q with Some l => max_samples l | None => 64 end) as -> by (by destruct (resource_limits q)).
  generalize (match resource_limits q with Some l => max_samples l | None => 64 end). intros limit. split_and!; [| |done..].
  - destruct (history q) as [[n|]|], (min_keep_samples tc) as [m|]; cbn; unfold History_max, History_cmp; try done;
      (destruct (Z.compare_spec n m) || destruct (Z.compare_spec 1 m)); f_equal; lia.
  - destruct (history q) as [[n|]|]; cbn; zcases; lia.
Qed.

(** C22: creating a reader on a healthy participant - alive, no lock poisoned, its
    channels connected -, for a topic with keys that has a cache under its name,
    either succeeds or is undone.  If both channels have room it succeeds: the cache
    keeps what the reader's QoS asks for ([cache_keeps]), the event loop gets from
    its channel an RTPS reader with, policy by policy, the QoS that the application
    gives, else the topic's, else the subscriber's ([merged_qos]; the documentation
    calls the argument unused), and Discovery announces it - but with the QoS of the
    topic.  If a channel is full, an error is returned, and provided that the
    channel for removals accepts at once, the event loop is told to remove the
    reader and Discovery to withdraw it. *)
Theorem created_reader_works h answers sub topic qos s tc :
  host_ok h -> api_ok s -> (forall k, answers k = SaOk) -> t_kind topic = WithKey ->
  get_existing_topic_cache (api_cache s) (t_name topic) = Some tc -> topic_name tc = t_name topic ->
  let q := merged_qos (s_qos sub) (t_qos topic) qos in
  let guid := GUID_new (prefix (dp_guid (api_dp s))) (mkEntityId (key_of (entity_id_generator s)) READER_WITH_KEY_USER_DEFINED) in
  exists r s' evs, create_datareader h answers sub topic None qos false s = Ret (r, s', evs) /\
    (room 2 s /\ (length (q_items (add_reader_q s)) < q_bound (add_reader_q s))%nat ->
       r = inl (mkSimpleReader topic q guid) /\
       (exists tc', get_existing_topic_cache (api_cache s') (t_name topic) = Some tc' /\ cache_keeps q tc tc') /\
       (exists ri, q_items (add_reader_q s') = q_items (add_reader_q s) ++ [ri] /\ ri_qos_policy ri = q /\
          forall clock l, mr_caches (el_message_receiver l) = topic_caches (api_cache s') ->
            available_readers (el_message_receiver l) !! entity_id guid = None -> loop_gets_reader clock ri l) /\
       DC_AddLocalReader guid ∈ q_items (discovery_q s') /\
       (forall d, d_db d = api_db s' -> discovery_announces_reader guid topic d)) /\
    (~ (room 2 s /\ (length (q_items (add_reader_q s)) < q_bound (add_reader_q s))%nat) ->
       exists e, r = inr e /\ last (q_items (discovery_q s')) = Some (DC_RemoveLocalReader guid) /\ ApSent guid ∈ evs).
Proof.
  intros Hh Hs Hans Hk Htc Hn q guid. set (s0 := api_set_generator s (u32 (entity_id_generator s + 1))).
  assert (q = reader_qos_of sub topic qos) as Eq by (symmetry; apply merged_qos_layers). clearbody q. subst q.
  set (q := reader_qos_of sub topic qos) in *.
  pose proof (wp_create_reader h answers sub None (entity_id guid) topic qos false s s0 tc Hh ltac:(destruct Hs; by split) Hans
    ltac:(apply unwrap_new, Hs) Htc Hn) as H.
  apply wp_run in H as (r & s' & evs & E & [Hcache Hdb] & Hr). exists r, s', evs.
  split; [unfold create_datareader; rewrite decide_False by (intros Hx; by apply Hx); exact E|].
  destruct r as [dr|e].
  - destruct Hr as (Hroom & Hspace & -> & Hq & Hc). split; [intros _|intros Hno; by destruct Hno; split]. split; [done|].
    assert (get_existing_topic_cache (api_cache s') (t_name topic) = Some (update_keep_limits tc q)) as Hc'
      by (rewrite Hcache; unfold get_existing_topic_cache, set_topic_cache; cbn; apply lookup_insert_eq).
    split; [eexists; split; [done|apply update_keep_limits_keeps]|]. split; [|split].
    + rewrite Hq. eexists. split; [done|]. split; [done|]. intros clock l Hcaches Hfree. apply add_local_reader_works; [|done].
      split; [split; [apply key_of_ok; by vm_compute|by right]|]. split; [done|]. exists (update_keep_limits tc q). rewrite Hcaches. by split.
    + rewrite Hc. set_solver.
    + intros d Hd. eapply reader_announced; [done|]. rewrite Hd. exact Hdb.
  - destruct Hr as (Hwhy & Hlast & Hin). split; [|eauto]. intros [Hroom Hspace].
    destruct Hwhy as [?|Hw]; [done|]. change (add_reader_q s0) with (add_reader_q s) in Hw. lia.
Qed.

(** ** Topic kinds *)

(** A topic that was created with keys, and is found by its name, is found as
    one without: a reader with keys cannot be created for it - though a writer,
    for which nobody looks at the kind, can. *)
Theorem found_topic_unreadable h answers sub utc topic name eid qos stateless db s d :
  db_unkeyed db ->
  exists db' evs, update_topic_data_p utc topic db = Ret (tt, db', evs) /\ db_unkeyed db' /\
    (get_topic db' name = Some d ->
     create_datareader h answers sub (found_topic d) eid qos stateless s = Ret (inr (CE_TopicKind WithKey), s, [])).
Proof.
  intros Hdb. pose proof (own_topics_unkeyed utc topic db Hdb) as H. apply wp_run in H as ([] & db' & evs & E & Hdb').
  exists db', evs. split; [done|]. split; [done|]. intros Hd. unfold create_datareader.
  by rewrite decide_True by (by rewrite (get_topic_unkeyed db' name d Hdb' Hd)).
Qed.

(** ** Runs of the model *)

Definition demo_host : Host := mkHost 0 [] None None.
Definition demo_pub : Publisher := create_publisher 1 qos_none.
Definition keyed_topic : Topic := mkTopic "Square" "ShapeType" qos_none WithKey.
(** A participant with a topic, and one whose Discovery does not keep up. *)
Definition with_square : Api := with_topic demo_api keyed_topic.
Definition jammed : Api :=
  api_set_control_q with_square (mkQueue 64 (replicate 64 DC_ManualAssertLiveliness) true) (stop_q with_square).

Lemma demo_api_ok s : s = with_square \/ s = jammed -> api_ok s.
Proof. by intros [->| ->]. Qed.

Lemma created_writer_works_witness :
  exists dw s' evs, create_datawriter demo_host (fun _ => SaOk) demo_pub keyed_topic None with_square = Ret (inl dw, s', evs) /\
    dw_my_guid dw = mkGUID (prefix ParticipantTheorems.demo_guid) (mkEntityId (0, 0, 0) WRITER_WITH_KEY_USER_DEFINED) /\
    exists wi, q_items (add_writer_q s') = [wi] /\ forall l, loop_gets_writer wi l.
Proof.
  destruct (created_writer_works demo_host (fun _ => SaOk) demo_pub keyed_topic None with_square)
    as (s' & evs & E & _ & _ & _ & (wi & Hq & _ & _ & _ & _ & Hl) & _).
  - done.
  - by apply demo_api_ok; left.
  - by vm_compute.
  - unfold room. vm_compute. lia.
  - eexists _, s', evs. split; [exact E|]. split; [by vm_compute|]. exists wi. by split.
Defined.

Lemma writer_creation_deadlocks_witness :
  create_datawriter demo_host (fun _ => SaOk) demo_pub keyed_topic None jammed = Diverge.
Proof.
  apply writer_creation_deadlocks; [done|by apply demo_api_ok; right|by vm_compute|]. vm_compute. lia.
Defined.

Lemma created_reader_works_witness :
  (exists s' evs, create_datareader demo_host (fun _ => SaOk) (create_subscriber qos_none) keyed_topic None None false with_square =
     Ret (inl (mkSimpleReader keyed_topic qos_none
                 (mkGUID (prefix ParticipantTheorems.demo_guid) (mkEntityId (0, 0, 0) READER_WITH_KEY_USER_DEFINED))), s', evs)) /\
  (exists e s' evs, create_datareader demo_host (fun _ => SaOk) (create_subscriber qos_none) keyed_topic None None false jammed = Ret (inr e, s', evs)).
Proof.
  split.
  - destruct (created_reader_works demo_host (fun _ => SaOk) (create_subscriber qos_none) keyed_topic None with_square
                (TopicCache_new "Square" "ShapeType" qos_none)) as (r & s' & evs & E & Hok & _);
      [done|by apply demo_api_ok; left|done|done|by vm_compute|by vm_compute|].
    destruct Hok as [-> _]; [split; [unfold room|]; vm_compute; lia|]. exists s', evs. exact E.
  - destruct (created_reader_works demo_host (fun _ => SaOk) (create_subscriber qos_none) keyed_topic None jammed
                (TopicCache_new "Square" "ShapeType" qos_none)) as (r & s' & evs & E & _ & Hfail);
      [done|by apply demo_api_ok; right|done|done|by vm_compute|by vm_compute|].
    destruct Hfail as (e & -> & _); [intros [Hr _]; unfold room in Hr; vm_compute in Hr; lia|]. exists e, s', evs. exact E.
Defined.
