(* ===== verification/SecurityTypes.v ===== *)
(** * Shared types of the security plugins

    [src/security/types.rs], [src/security/config.rs] (URIs), and the attribute
    masks of [src/security/access_control/types.rs] and
    [access_control_builtin/types.rs]: errors, properties and data holders, the
    names of plugin classes, and the bit masks in which participants announce how
    they protect what.

    - [mask_roundtrip], [endpoint_mask_roundtrip], [endpoint_info_roundtrip]: the
      masks say what the attributes said. *)

From Stdlib Require Import Ascii.
From stdpp Require Import pretty strings.
From S2P Require Import Prelude BTree Wire.
Local Open Scope string_scope.
Local Open Scope list_scope.
Local Open Scope Z_scope.

(** ** Errors *)

Record SecurityError := mkSecurityError { msg : string }.
Definition security_error (m : string) : SecurityError := mkSecurityError m.
Definition SecurityResult (A : Type) : Type := (A + SecurityError)%type.

Definition sec_ok {A} (a : A) : SecurityResult A := inl a.
Definition sec_err {A} (m : string) : SecurityResult A := inr (mkSecurityError m).

#[export] Instance sec_ret : MRet SecurityResult := λ A a, inl a.
#[export] Instance sec_bind : MBind SecurityResult := λ A B f m,
  match m with inl a => f a | inr e => inr e end.

(** [Option::ok_or_else] *)
Definition ok_or {A} (o : option A) (m : string) : SecurityResult A :=
  match o with Some a => inl a | None => sec_err m end.

(** [iter.map(f).collect::<Result<Vec<_>, _>>()]: the first error ends it. *)
Fixpoint collect {A B E} (f : A -> B + E) (l : list A) : list B + E :=
  match l with
  | [] => inl []
  | a :: l =>
      match f a with
      | inr e => inr e
      | inl b => match collect f l with inl bs => inl (b :: bs) | inr e => inr e end
      end
  end.

Lemma collect_Forall2 {A B E} (f : A -> B + E) l bs : collect f l = inl bs <-> Forall2 (fun a b => f a = inl b) l bs.
Proof.
  revert bs. induction l as [|a l IH]; intros bs; cbn.
  - split; [intros [= <-]; constructor|intros ->%Forall2_nil_inv_l; done].
  - split.
    + destruct (f a) as [b|] eqn:Ea; [|done]. destruct (collect f l) as [bs'|] eqn:El; [|done].
      intros [= <-]. constructor; [done|by apply IH].
    + intros (b & bs' & Eb & Hl & ->)%Forall2_cons_inv_l. rewrite Eb. by apply IH in Hl as ->.
Qed.

(** ** Configuration *)

Inductive ConfigError :=
| CfgParse (m : string)
| CfgPkcs7 (m : string)
| CfgPkcs11 (m : string)
| CfgSecurity (m : string)
| CfgOther (m : string).

Definition ConfigError_debug (e : ConfigError) : string :=
  match e with
  | CfgParse m => "Parse(" +:+ m +:+ ")"
  | CfgPkcs7 m => "Pkcs7(" +:+ m +:+ ")"
  | CfgPkcs11 m => "Pkcs11(" +:+ m +:+ ")"
  | CfgSecurity m => "Security(" +:+ m +:+ ")"
  | CfgOther m => "Other(" +:+ m +:+ ")"
  end.

(** [str::split_once(c)] and [str::rsplit_once(c)] *)
Fixpoint split_once (c : ascii) (s : string) : option (string * string) :=
  match s with
  | "" => None
  | String a s =>
      if decide (a = c) then Some ("", s)
      else match split_once c s with Some (x, y) => Some (String a x, y) | None => None end
  end.
Fixpoint rsplit_once (c : ascii) (s : string) : option (string * string) :=
  match s with
  | "" => None
  | String a s =>
      match rsplit_once c s with
      | Some (x, y) => Some (String a x, y)
      | None => if decide (a = c) then Some ("", s) else None
      end
  end.

(** [read_uri]; what a file contains is an argument. *)
Definition read_uri (fs_read : string -> bytes + string) (uri : string) : bytes + ConfigError :=
  match split_once ":" uri with
  | Some ("data", content) => inl (string_bytes content)
  | Some ("pkcs11", _) => inr (CfgOther "Config URI schema 'pkcs11:' not implemented.")
  | Some ("file", path) =>
      match fs_read path with
      | inl b => inl b
      | inr e => inr (CfgOther ("I/O error reading " +:+ path +:+ ": " +:+ e))
      end
  | _ => inr (CfgParse "Config URI must begin with 'file:' , 'data:', or 'pkcs11:'.")
  end.

(** ** Properties and data holders *)

Record Property := mkProperty { p_name : string; p_value : string; p_propagate : bool }.
Record BinaryProperty := mkBinaryProperty { bp_name : string; bp_value : bytes; bp_propagate : bool }.

Definition get_optional_property (properties : list Property) (property_name : string) : option string :=
  p_value <$> (list_find (fun p => p_name p = property_name) properties ≫= fun x => Some x.2).
Definition get_property (properties : list Property) (property_name : string) : SecurityResult string :=
  ok_or (get_optional_property properties property_name) ("Could not find a property of the name " +:+ property_name +:+ ".").

(** The [property] field of [QosPolicies]: the string properties, if there are any. *)
Definition QosPolicies_get_optional_property (property : option (list Property)) (property_name : string) : option string :=
  property ≫= fun ps => get_optional_property ps property_name.
Definition QosPolicies_get_property (property : option (list Property)) (property_name : string) : SecurityResult string :=
  ps ← ok_or property "The QosPolicies did not have any properties."; get_property ps property_name.

Definition get_optional_binary_property (bps : list BinaryProperty) (name : string) : option bytes :=
  bp_value <$> (list_find (fun p => bp_name p = name) bps ≫= fun x => Some x.2).
Definition get_binary_property (bps : list BinaryProperty) (name : string) : SecurityResult bytes :=
  ok_or (get_optional_binary_property bps name) ("Could not find a binary property of the name " +:+ name +:+ ".").

Record DataHolder := mkDataHolder {
  class_id : string;
  properties : list Property;
  binary_properties : list BinaryProperty;
}.
Definition DataHolder_get_binary_property (dh : DataHolder) (name : string) : SecurityResult bytes :=
  get_binary_property (binary_properties dh) name.
(** Of properties with the same name the last one counts here. *)
Definition properties_as_map (dh : DataHolder) : gmap string Property :=
  foldl (fun m p => <[p_name p := p]> m) ∅ (properties dh).
Definition binary_properties_as_map (dh : DataHolder) : gmap string BinaryProperty :=
  foldl (fun m p => <[bp_name p := p]> m) ∅ (binary_properties dh).

(** ** Plugin classes: ["DDS:Access:Permissions:1.0"] *)

Record PluginClassId := mkPluginClassId { plugin_class_name : string; major_version : string; minor_version : string }.

Definition PluginClassId_try_from (value : string) : SecurityResult PluginClassId :=
  nv ← ok_or (rsplit_once ":" value)
         ("Failed to parse the class_id " +:+ value +:+ ". Expected PluginClassName:VersionNumber");
  mm ← ok_or (split_once "." nv.2)
         ("Failed to parse the version number " +:+ nv.2 +:+ " of class_id " +:+ value +:+ ". Expected MajorVersion.MinorVersion");
  mret (mkPluginClassId nv.1 mm.1 mm.2).

Definition matches_up_to_major_version (self other : PluginClassId) : SecurityResult unit :=
  if bool_decide (plugin_class_name self = plugin_class_name other) then
    if bool_decide (major_version self = major_version other) then sec_ok tt
    else sec_err ("Mismatched plugin major versions: " +:+ major_version self +:+ " and " +:+ major_version other)
  else sec_err ("Mismatched plugin class names: " +:+ plugin_class_name self +:+ " and " +:+ plugin_class_name other).

(** ** Attributes and masks *)

(** [PluginSecurityAttributesMask] *)
Definition PluginMask := Z.
Definition PluginSecurityAttributesMask_empty : PluginMask := 0x80000000.
Definition PluginSecurityAttributesMask_is_valid (value : PluginMask) : bool := 0x80000000 <=? value.

(** [BitFlags::insert] on flags that may be set, and [contains] *)
Definition mask_if (b : bool) (flag mask : Z) : Z := if b then Z.lor mask flag else mask.
Definition mask_contains (mask flag : Z) : bool := Z.land mask flag =? flag.

Record ParticipantSecurityAttributes := mkPSA {
  allow_unauthenticated_participants : bool;
  is_access_protected : bool;
  is_rtps_protected : bool;
  psa_is_discovery_protected : bool;
  psa_is_liveliness_protected : bool;
  plugin_participant_attributes : PluginMask;
  ac_participant_properties : list Property;
}.
Definition ParticipantSecurityAttributes_empty : ParticipantSecurityAttributes :=
  mkPSA false false false false false PluginSecurityAttributesMask_empty [].

Record TopicSecurityAttributes := mkTSA {
  is_read_protected : bool;
  is_write_protected : bool;
  tsa_is_discovery_protected : bool;
  tsa_is_liveliness_protected : bool;
}.
Definition TopicSecurityAttributes_empty : TopicSecurityAttributes := mkTSA false false false false.

Record EndpointSecurityAttributes := mkESA {
  topic_security_attributes : TopicSecurityAttributes;
  is_submessage_protected : bool;
  is_payload_protected : bool;
  is_key_protected : bool;
  plugin_endpoint_attributes : PluginMask;
  ac_endpoint_properties : list Property;
}.
Definition EndpointSecurityAttributes_empty : EndpointSecurityAttributes :=
  mkESA TopicSecurityAttributes_empty false false false PluginSecurityAttributesMask_empty [].

(** [From<ParticipantSecurityAttributes> for ParticipantSecurityAttributesMask] *)
Definition ParticipantSecurityAttributesMask_from (a : ParticipantSecurityAttributes) : Z :=
  mask_if (psa_is_liveliness_protected a) 4
    (mask_if (psa_is_discovery_protected a) 2 (mask_if (is_rtps_protected a) 1 0x80000000)).

(** [From<EndpointSecurityAttributes> for EndpointSecurityAttributesMask] *)
Definition EndpointSecurityAttributesMask_from (a : EndpointSecurityAttributes) : Z :=
  let t := topic_security_attributes a in
  mask_if (tsa_is_liveliness_protected t) 0x40
    (mask_if (is_key_protected a) 0x20
      (mask_if (is_payload_protected a) 0x10
        (mask_if (is_submessage_protected a) 8
          (mask_if (tsa_is_discovery_protected t) 4
            (mask_if (is_write_protected t) 2
              (mask_if (is_read_protected t) 1 0x80000000)))))).

Record EndpointSecurityInfo := mkESI { endpoint_security_attributes : Z; plugin_endpoint_security_attributes : PluginMask }.
Definition EndpointSecurityInfo_from (a : EndpointSecurityAttributes) : EndpointSecurityInfo :=
  mkESI (EndpointSecurityAttributesMask_from a) (plugin_endpoint_attributes a).

(** [From<EndpointSecurityInfo> for EndpointSecurityAttributes] *)
Definition EndpointSecurityAttributes_from (info : EndpointSecurityInfo) : EndpointSecurityAttributes :=
  let bitflags := endpoint_security_attributes info in
  mkESA (mkTSA (mask_contains bitflags 1) (mask_contains bitflags 2) (mask_contains bitflags 4) (mask_contains bitflags 0x40))
    (mask_contains bitflags 8) (mask_contains bitflags 0x10) (mask_contains bitflags 0x20)
    (plugin_endpoint_security_attributes info) [].

Record ParticipantSecurityInfo := mkPSI { participant_security_attributes : Z; plugin_participant_security_attributes : PluginMask }.
Definition ParticipantSecurityInfo_from (a : ParticipantSecurityAttributes) : ParticipantSecurityInfo :=
  mkPSI (ParticipantSecurityAttributesMask_from a) (plugin_participant_attributes a).

(** *** The plugin's own attributes *)

Record BuiltinPluginParticipantSecurityAttributes := mkBPSA {
  is_rtps_encrypted : bool;
  is_discovery_encrypted : bool;
  is_liveliness_encrypted : bool;
  is_rtps_origin_authenticated : bool;
  is_discovery_origin_authenticated : bool;
  is_liveliness_origin_authenticated : bool;
}.

(** [BitFlags::try_from]: no other bits than those of the flags *)
Definition flags_only (all_flags value : Z) : bool := Z.land value all_flags =? value.

Definition BuiltinPluginParticipantSecurityAttributes_try_from (value : PluginMask)
  : SecurityResult BuiltinPluginParticipantSecurityAttributes :=
  if flags_only 0x8000003F value then
    if mask_contains value 0x80000000 then
      sec_ok (mkBPSA (mask_contains value 1) (mask_contains value 2) (mask_contains value 4)
                (mask_contains value 8) (mask_contains value 16) (mask_contains value 32))
    else sec_err "The IsValid flag of BuiltinPluginParticipantSecurityAttributesMask was set to false."
  else sec_err "Could not convert to BuiltinPluginParticipantSecurityAttributesMask".

Definition PluginParticipantSecurityAttributesMask_from (a : BuiltinPluginParticipantSecurityAttributes) : PluginMask :=
  mask_if (is_liveliness_origin_authenticated a) 32
    (mask_if (is_discovery_origin_authenticated a) 16
      (mask_if (is_rtps_origin_authenticated a) 8
        (mask_if (is_liveliness_encrypted a) 4
          (mask_if (is_discovery_encrypted a) 2
            (mask_if (is_rtps_encrypted a) 1 0x80000000))))).

Record BuiltinPluginEndpointSecurityAttributes := mkBESA {
  is_submessage_encrypted : bool;
  is_submessage_origin_authenticated : bool;
  is_payload_encrypted : bool;
}.

Definition BuiltinPluginEndpointSecurityAttributes_try_from (value : PluginMask)
  : SecurityResult BuiltinPluginEndpointSecurityAttributes :=
  if flags_only 0x80000007 value then
    if mask_contains value 0x80000000 then
      sec_ok (mkBESA (mask_contains value 1) (mask_contains value 4) (mask_contains value 2))
    else sec_err "The IsValid flag of BuiltinPluginEndpointSecurityAttributesMask was set to false."
  else sec_err "Could not convert to BuiltinPluginEndpointSecurityAttributesMask".

Definition PluginEndpointSecurityAttributesMask_from (a : BuiltinPluginEndpointSecurityAttributes) : PluginMask :=
  mask_if (is_payload_encrypted a) 2
    (mask_if (is_submessage_origin_authenticated a) 4
      (mask_if (is_submessage_encrypted a) 1 0x80000000)).

(** [EndpointSecurityAttributes::for_builtin_topic] *)
Definition for_builtin_topic (is_submessage_protected is_submessage_encrypted is_submessage_origin_authenticated : bool)
  : EndpointSecurityAttributes :=
  mkESA TopicSecurityAttributes_empty is_submessage_protected false false
    (PluginEndpointSecurityAttributesMask_from (mkBESA is_submessage_encrypted is_submessage_origin_authenticated false)) [].

(** ** What the masks keep *)

Lemma mask_roundtrip a :
  BuiltinPluginParticipantSecurityAttributes_try_from (PluginParticipantSecurityAttributesMask_from a) = inl a /\
  PluginSecurityAttributesMask_is_valid (PluginParticipantSecurityAttributesMask_from a) = true.
Proof. by destruct a as [[] [] [] [] [] []]. Qed.

Lemma endpoint_mask_roundtrip a :
  BuiltinPluginEndpointSecurityAttributes_try_from (PluginEndpointSecurityAttributesMask_from a) = inl a /\
  PluginSecurityAttributesMask_is_valid (PluginEndpointSecurityAttributesMask_from a) = true.
Proof. by destruct a as [[] [] []]. Qed.

(** Everything but the properties, which are not sent. *)
Lemma endpoint_info_roundtrip a :
  EndpointSecurityAttributes_from (EndpointSecurityInfo_from a) =
  mkESA (topic_security_attributes a) (is_submessage_protected a) (is_payload_protected a) (is_key_protected a)
    (plugin_endpoint_attributes a) [].
Proof. by destruct a as [[[] [] [] []] [] [] [] m ps]. Qed.

(** ** Splitting *)

Lemma split_once_spec c s x y : split_once c s = Some (x, y) -> s = x +:+ String c y /\ forall a, a ∈ String.list_ascii_of_string x -> a <> c.
Proof.
  revert x. induction s as [|a s IH]; intros x; cbn; [done|]. case_decide as Ha.
  - intros [= <- <-]. subst. split; [done|]. intros b Hb. by apply elem_of_nil in Hb.
  - destruct (split_once c s) as [[x' y']|] eqn:E; [|done]. intros [= <- <-].
    destruct (IH x' eq_refl) as [-> Hx]. split; [done|]. intros b [->|Hb]%elem_of_cons; [done|]. by apply Hx.
Qed.

Lemma rsplit_once_spec c s x y : rsplit_once c s = Some (x, y) -> s = x +:+ String c y /\ forall a, a ∈ String.list_ascii_of_string y -> a <> c.
Proof.
  assert (forall s, rsplit_once c s = None -> forall a, a ∈ String.list_ascii_of_string s -> a <> c) as Hnone.
  { clear. intros s. induction s as [|a s IH]; cbn; [intros _ a Ha; by apply elem_of_nil in Ha|].
    destruct (rsplit_once c s) as [[? ?]|]; [done|]. case_decide as Ha; [done|]. intros _ b [->|Hb]%elem_of_cons; [done|]. by apply IH. }
  revert x. induction s as [|a s IH]; intros x; cbn; [done|].
  destruct (rsplit_once c s) as [[x' y']|] eqn:E.
  - intros [= <- <-]. destruct (IH x' eq_refl) as [-> Hy]. done.
  - case_decide as Ha; [|done]. intros [= <- <-]. subst. split; [done|]. by apply Hnone.
Qed.
