(* ===== verification/AccessControl.v ===== *)
(** * The built-in access control plugin

    [src/security/access_control/access_control_builtin.rs] and the files under
    it, with the certificates of [src/security/certificate.rs]: permissions and
    governance documents, their signatures, and what participants may do.

    The parsers of XML, S/MIME, X.509 and PKCS#7, the globs and the cryptography
    are third-party code: they are the members of the class [AcDeps], and what
    they return when they succeed are the records below.  Readings of the clock
    are arguments. *)

From Stdlib Require Import Ascii.
From stdpp Require Import pretty strings.
From S2P Require Import Prelude BTree Wire DiscoveryData DiscoveryWire SecurityTypes.
Local Open Scope string_scope.
Local Open Scope list_scope.
Local Open Scope Z_scope.

(** ** What the parsers return *)

(** [domain_participant_permissions_document::xml] *)
Inductive xml_DomainIdSetMember := XDomainId (id : Z) | XDomainIdRange (min max : option Z).
Inductive xml_Criterion :=
| XTopics (members : list string)
| XPartitions (members : list string)
| XDataTags (members : list (string * string)).
Inductive xml_RuleElement :=
| XDomains (members : list xml_DomainIdSetMember)
| XPublish (members : list xml_Criterion)
| XSubscribe (members : list xml_Criterion)
| XRelay (members : list xml_Criterion).
Inductive AllowOrDeny := Allow | Deny.
Inductive xml_GrantElement :=
| XSubjectName (s : string)
| XValidity (not_before not_after : string)
| XAllowRule (elems : list xml_RuleElement)
| XDenyRule (elems : list xml_RuleElement)
| XDefault (action : AllowOrDeny).

(** [domain_governance_document::xml] *)
Inductive ProtectionKind :=
| EncryptWithOriginAuthentication | SignWithOriginAuthentication | Encrypt | Sign | NoProtection.
Inductive BasicProtectionKind := BasicEncrypt | BasicSign | BasicNone.
Record xml_TopicRule := mkXTopicRule {
  xtr_topic_expression : string;
  xtr_enable_discovery_protection : bool;
  xtr_enable_liveliness_protection : bool;
  xtr_enable_read_access_control : bool;
  xtr_enable_write_access_control : bool;
  xtr_metadata_protection_kind : ProtectionKind;
  xtr_data_protection_kind : BasicProtectionKind;
}.
Record xml_DomainRule := mkXDomainRule {
  xr_domains : list xml_DomainIdSetMember;
  xr_allow_unauthenticated_participants : bool;
  xr_enable_join_access_control : bool;
  xr_discovery_protection_kind : ProtectionKind;
  xr_liveliness_protection_kind : ProtectionKind;
  xr_rtps_protection_kind : ProtectionKind;
  xr_topic_access_rules : list xml_TopicRule;
}.

(** S/MIME and PKCS#7: where a part is decoded on demand, the result of that. *)
Record MailPart := mkMailPart { raw_bytes : bytes; body_raw : bytes + string }.
Record Attribute := mkAttribute { attr_oid : string; attr_values : list (bytes + string) }.
Record SignerInfo := mkSignerInfo {
  signed_attrs : option (list Attribute * (bytes + string));
  signature_algorithm_oid : string;
  si_signature : bytes;
}.
Record EncapsulatedContentInfo := mkEncap { econtent_type : string; econtent : option (list SignerInfo + string) }.

Class AcDeps := {
  Pattern : Type;
  Pattern_new : string -> Pattern + string;
  Pattern_matches : Pattern -> string -> bool;
  X509Name : Type;
  X509Name_eq_dec :: EqDecision X509Name;
  X509Name_from_str : string -> X509Name + string;
  X509Name_to_string : X509Name -> string;
  parse_from_rfc3339 : string -> Z + string;
  parse_naive_utc : string -> Z + string;
  xml_permissions_from_str : string -> list (list xml_GrantElement) + string;
  xml_governance_from_str : string -> list xml_DomainRule + string;
  X509 : Type;
  X509_from_pem : bytes -> X509 + string;
  X509_subject_from_der : X509 -> X509Name + string;
  verify_ecdsa_p256_sha256 : X509 -> bytes -> bytes -> unit + string;
  parse_mail : bytes -> list MailPart + string;
  unix2dos : string -> string;
  EncapsulatedContentInfo_from_der : bytes -> EncapsulatedContentInfo + string;
  sha256 : bytes -> bytes;
  from_utf8_lossy : bytes -> string;
}.

(** [map_err] and [?] between the error types *)
Definition cfg_map {A E} (f : E -> ConfigError) (r : A + E) : A + ConfigError :=
  match r with inl a => inl a | inr e => inr (f e) end.
Definition sec_of_cfg {A} (r : A + ConfigError) : SecurityResult A :=
  match r with inl a => inl a | inr e => sec_err ("ConfigError " +:+ ConfigError_debug e) end.
Definition sec_map {A E} (f : E -> string) (r : A + E) : SecurityResult A :=
  match r with inl a => inl a | inr e => sec_err (f e) end.
Definition cfg_bind {A B} (r : A + ConfigError) (f : A -> B + ConfigError) : B + ConfigError :=
  match r with inl a => f a | inr e => inr e end.
Notation "x ←c m ; k" := (cfg_bind m (fun x => k)) (at level 20, m at level 100, k at level 200, only parsing).

(** ** Domain ids *)

Inductive DomainIds := DIValue (v : Z) | DIRange (mi ma : Z) | DIMin (mi : Z) | DIMax (ma : Z).

Definition DomainIds_matches (d : DomainIds) (i : Z) : bool :=
  match d with
  | DIValue v => v =? i
  | DIRange mi ma => (mi <=? i) && (i <=? ma)
  | DIMin mi => mi <=? i
  | DIMax ma => i <=? ma
  end.

Definition DomainIds_from_xml (xd : xml_DomainIdSetMember) : DomainIds + ConfigError :=
  match xd with
  | XDomainId id => inl (DIValue id)
  | XDomainIdRange (Some min) (Some max) => inl (DIRange min max)
  | XDomainIdRange None (Some max) => inl (DIMax max)
  | XDomainIdRange (Some min) None => inl (DIMin min)
  | XDomainIdRange None None => inr (CfgParse "Domain id range must have at least one bound")
  end.

(** ** Trimming *)

(** [trim_start_matches(prefix)]: as often as it occurs. *)
Fixpoint strip_prefix (p s : string) : option string :=
  match p, s with
  | "", _ => Some s
  | String a p, String b s => if decide (a = b) then strip_prefix p s else None
  | _, _ => None
  end.
Fixpoint trim_start_str (fuel : nat) (p s : string) : string :=
  match fuel with
  | O => s
  | S fuel => match strip_prefix p s with Some s' => trim_start_str fuel p s' | None => s end
  end.

(** [trim_start_matches(char::is_whitespace)], over the UTF-8 encoding of the
    characters with the property White_Space. *)
Definition whitespace_chars : list bytes :=
  ((fun b => [b]) <$> [9; 10; 11; 12; 13; 32]) ++
  [[0xC2; 0x85]; [0xC2; 0xA0]; [0xE1; 0x9A; 0x80]; [0xE2; 0x80; 0xA8]; [0xE2; 0x80; 0xA9]; [0xE2; 0x80; 0xAF];
   [0xE2; 0x81; 0x9F]; [0xE3; 0x80; 0x80]] ++ ((fun i => [0xE2; 0x80; 0x80 + Z.of_nat i]) <$> seq 0 11).
Definition whitespace_strs : list string := bytes_string <$> whitespace_chars.
Fixpoint trim_start_whitespace (fuel : nat) (s : string) : string :=
  match fuel with
  | O => s
  | S fuel =>
      match omap (fun p => strip_prefix p s) whitespace_strs with
      | s' :: _ => trim_start_whitespace fuel s'
      | [] => s
      end
  end.
Definition trim_document (xml : string) : string :=
  let s := trim_start_str (String.length xml) "Content-Type: text/plain" xml in
  trim_start_whitespace (String.length s) s.

Section access_control.
Context `{AC : AcDeps}.

(** ** Permissions documents *)

Record DataTag := mkDataTag { dt_name : string; dt_value : string }.
Definition DataTag_check (self : DataTag) (name value : string) : bool :=
  bool_decide (name = dt_name self) && bool_decide (value = dt_value self).

Record Criterion := mkCriterion { c_topics : list Pattern; c_partitions : list Pattern; c_data_tags : list DataTag }.

(** [debug_assert!(!self.topics.is_empty())] is not in the release build, which is
    the one modelled; [Criterion_from_xml] makes none without topics. *)
Definition Criterion_is_applicable (self : Criterion) (topic_name : string) (partitions : list string)
    (data_tags : list (string * string)) : bool :=
  existsb (fun glob => Pattern_matches glob topic_name) (c_topics self)
  && forallb (fun p => existsb (fun glob => Pattern_matches glob p) (c_partitions self)) partitions
  && forallb (fun t => existsb (fun dt => DataTag_check dt t.1 t.2) (c_data_tags self)) data_tags.

Definition Pattern_new_cfg (s : string) : Pattern + ConfigError :=
  cfg_map (fun e => CfgParse ("Bad glob pattern: " +:+ e)) (Pattern_new s).

Definition Criterion_from_xml (members : list xml_Criterion) : Criterion + ConfigError :=
  let '(topics, partitions, data_tags) :=
    foldl (fun '(ts, ps, ds) cr =>
      match cr with
      | XTopics m => (ts ++ m, ps, ds)
      | XPartitions m => (ts, ps ++ m, ds)
      | XDataTags m => (ts, ps, ds ++ ((fun t => mkDataTag t.1 t.2) <$> m))
      end) ([], [], []) members in
  match topics with
  | [] => inr (CfgParse "Grant Criterion must define at least a Topic name.")
  | _ =>
      topics ←c collect Pattern_new_cfg topics;
      partitions ←c collect Pattern_new_cfg partitions;
      inl (mkCriterion topics partitions data_tags)
  end.

Record Rule := mkRule {
  verdict : AllowOrDeny;
  domains : list DomainIds;
  publish : list Criterion;
  subscribe : list Criterion;
  relay : list Criterion;
}.
Inductive Action := Publish | Subscribe | Relay.

(** [debug_assert!(!self.domains.is_empty())] is not in the release build, which is
    the one modelled: there a rule without domains never applies. *)
Definition Rule_is_applicable (self : Rule) (action : Action) (domain_id : Z) (topic_name : string)
    (partitions : list string) (data_tags : list (string * string)) : bool :=
  if existsb (fun d => DomainIds_matches d domain_id) (domains self) then
    let criteria := match action with Publish => publish self | Subscribe => subscribe self | Relay => relay self end in
    existsb (fun c => Criterion_is_applicable c topic_name partitions data_tags) criteria
  else false.

(** [iter().map_while(f)] *)
Fixpoint map_while {A B} (f : A -> option B) (l : list A) : list B :=
  match l with
  | [] => []
  | a :: l => match f a with Some b => b :: map_while f l | None => [] end
  end.

(** One of the three sections of a rule, and what is left after it: [split_at]
    the number of criteria. *)
Definition section_from_xml (f : xml_RuleElement -> option (list xml_Criterion)) (rest : list xml_RuleElement)
  : (list Criterion * list xml_RuleElement) + ConfigError :=
  cs ←c collect Criterion_from_xml (map_while f rest);
  inl (cs, drop (length cs) rest).

Definition Rule_from_xml (ge : xml_GrantElement) : Rule + ConfigError :=
  ve ←c match ge with
        | XAllowRule elems => inl (Allow, elems)
        | XDenyRule elems => inl (Deny, elems)
        | _ => inr (CfgParse "Expected allow or deny rule in grant.")
        end;
  match ve.2 with
  | [] => inr (CfgParse "Rule must contain domains subelement")
  | XDomains members :: rest =>
      domains ←c collect DomainIds_from_xml members;
      p ←c section_from_xml (fun re => match re with XPublish c => Some c | _ => None end) rest;
      s ←c section_from_xml (fun re => match re with XSubscribe c => Some c | _ => None end) p.2;
      r ←c section_from_xml (fun re => match re with XRelay c => Some c | _ => None end) s.2;
      inl (mkRule ve.1 domains p.1 s.1 r.1)
  | _ :: _ => inr (CfgParse "Rule must start with domains")
  end.

Record Grant := mkGrant {
  subject_name : X509Name;
  valid_from : Z;
  valid_until : Z;
  rules : list Rule;
  default_action : AllowOrDeny;
}.

Definition AllowOrDeny_bool (a : AllowOrDeny) : bool := match a with Allow => true | Deny => false end.

Definition check_action (self : Grant) (action : Action) (domain_id : Z) (topic_name : string) (partitions : list string)
    (data_tags : list (string * string)) : AllowOrDeny :=
  match list_find (fun rule => Rule_is_applicable rule action domain_id topic_name partitions data_tags) (rules self) with
  | Some (_, rule) => verdict rule
  | None => default_action self
  end.

Definition is_empty {A} (l : list A) : bool := match l with [] => true | _ => false end.

Definition check_participant_join (self : Grant) (domain_id : Z) : bool :=
  AllowOrDeny_bool (default_action self)
  || existsb (fun rule =>
       AllowOrDeny_bool (verdict rule)
       && negb (is_empty (publish rule) && is_empty (subscribe rule) && is_empty (relay rule))
       && existsb (fun d => DomainIds_matches d domain_id) (domains rule)) (rules self).

(** [DistinguishedName::parse] *)
Definition DistinguishedName_parse (s : string) : X509Name + ConfigError :=
  cfg_map (fun e => CfgParse ("Error parsing DistinguishedName: " +:+ e)) (X509Name_from_str s).

(** Without a time zone it is UTC. *)
Definition parse_time (time_str : string) : Z + ConfigError :=
  match parse_from_rfc3339 time_str with
  | inl t => inl t
  | inr _ =>
      cfg_map (fun e => CfgParse ("DateTime parse error: " +:+ e +:+ " . Input was " +:+ time_str)) (parse_naive_utc time_str)
  end.

Definition too_short {A} : A + ConfigError := inr (CfgParse "Grant element must contain at least four subelements").

(** [split_first] twice, [split_last] of the rest, and rules in between *)
Definition Grant_from_xml (elems : list xml_GrantElement) : Grant + ConfigError :=
  match elems with
  | subject :: validity :: rest =>
      match last rest with
      | None => too_short
      | Some default_action =>
          match removelast rest with
          | [] => too_short
          | rules =>
              match subject, validity, default_action with
              | XSubjectName s, XValidity not_before not_after, XDefault da =>
                  subject_name ←c cfg_map (fun e => CfgParse ("Subject Name parsing failed. input was '" +:+ s +:+ "': "
                                                              +:+ ConfigError_debug e)) (DistinguishedName_parse s);
                  rules ←c collect Rule_from_xml rules;
                  from ←c parse_time not_before;
                  until ←c parse_time not_after;
                  inl (mkGrant subject_name from until rules da)
              | _, _, _ => inr (CfgParse "Grant element must be contain subject_name, validity, 1..n rules, and a default_action.")
              end
          end
      end
  | _ => too_short
  end.

Record DomainParticipantPermissions := mkPermissions { grants : list Grant }.

(** The name matches, and [validity.contains(now)]. *)
Definition grant_applies (name : X509Name) (now : Z) (g : Grant) : bool :=
  bool_decide (subject_name g = name) && ((valid_from g <=? now) && (now <? valid_until g)).
Definition find_grant (self : DomainParticipantPermissions) (name : X509Name) (current_datetime : Z) : option Grant :=
  snd <$> list_find (fun g => grant_applies name current_datetime g) (grants self).

Definition DomainParticipantPermissions_from_xml (xml : string) : DomainParticipantPermissions + ConfigError :=
  dpp ←c cfg_map (fun e => CfgParse ("XML parse error: " +:+ e)) (xml_permissions_from_str (trim_document xml));
  grants ←c collect Grant_from_xml dpp;
  inl (mkPermissions grants).

(** ** Governance documents *)

(** (protected, encrypted, origin authenticated) *)
Definition ProtectionKind_to_security_attributes_format (k : ProtectionKind) : bool * bool * bool :=
  match k with
  | NoProtection => (false, false, false)
  | Encrypt => (true, true, false)
  | EncryptWithOriginAuthentication => (true, true, true)
  | Sign => (true, false, false)
  | SignWithOriginAuthentication => (true, false, true)
  end.
(** (payload protected, payload encrypted, key protected) *)
Definition BasicProtectionKind_to_security_attributes_format (k : BasicProtectionKind) : bool * bool * bool :=
  match k with
  | BasicNone => (false, false, false)
  | BasicEncrypt => (true, true, true)
  | BasicSign => (true, false, false)
  end.

Record TopicRule := mkTopicRule {
  topic_expression : Pattern;
  enable_discovery_protection : bool;
  enable_liveliness_protection : bool;
  enable_read_access_control : bool;
  enable_write_access_control : bool;
  metadata_protection_kind : ProtectionKind;
  data_protection_kind : BasicProtectionKind;
}.
Definition TopicRule_from_xml (x : xml_TopicRule) : TopicRule + ConfigError :=
  topic_expression ←c Pattern_new_cfg (xtr_topic_expression x);
  inl (mkTopicRule topic_expression (xtr_enable_discovery_protection x) (xtr_enable_liveliness_protection x)
         (xtr_enable_read_access_control x) (xtr_enable_write_access_control x)
         (xtr_metadata_protection_kind x) (xtr_data_protection_kind x)).

Record DomainRule := mkDomainRule {
  dr_domains : list DomainIds;
  dr_allow_unauthenticated_participants : bool;
  enable_join_access_control : bool;
  discovery_protection_kind : ProtectionKind;
  liveliness_protection_kind : ProtectionKind;
  rtps_protection_kind : ProtectionKind;
  topic_access_rules : list TopicRule;
}.
Definition DomainRule_from_xml (x : xml_DomainRule) : DomainRule + ConfigError :=
  domains ←c collect DomainIds_from_xml (xr_domains x);
  topic_access_rules ←c collect TopicRule_from_xml (xr_topic_access_rules x);
  inl (mkDomainRule domains (xr_allow_unauthenticated_participants x) (xr_enable_join_access_control x)
         (xr_discovery_protection_kind x) (xr_liveliness_protection_kind x) (xr_rtps_protection_kind x) topic_access_rules).

Definition find_topic_rule (self : DomainRule) (topic_name : string) : option TopicRule :=
  snd <$> list_find (fun tar => Pattern_matches (topic_expression tar) topic_name) (topic_access_rules self).
Definition find_rule (domain_access_rules : list DomainRule) (domain_id : Z) : option DomainRule :=
  snd <$> list_find (fun dr => existsb (fun d => DomainIds_matches d domain_id) (dr_domains dr)) domain_access_rules.

Definition DomainGovernanceDocument_from_xml (xml : string) : list DomainRule + ConfigError :=
  dgd ←c cfg_map (fun e => CfgParse ("XML parse error: " +:+ e)) (xml_governance_from_str (trim_document xml));
  collect DomainRule_from_xml dgd.
End access_control.

(** ** Certificates and signed documents *)

Section documents.
Context `{AC : AcDeps}.

Record Certificate := mkCertificate { cert : X509; cert_subject_name : X509Name }.

Definition Certificate_from_pem (pem_data : bytes) : Certificate + ConfigError :=
  cert ←c cfg_map (fun e => CfgParse ("Cannot read X.509 Certificate: " +:+ e)) (X509_from_pem pem_data);
  subject ←c cfg_map (fun e => CfgParse ("Cannot read X.509 Certificate(2): " +:+ e)) (X509_subject_from_der cert);
  inl (mkCertificate cert subject).

Record SignedDocument := mkSignedDocument { content : bytes; signature_der : bytes }.

Definition bytes_unix2dos (unix : bytes) : bytes + ConfigError :=
  if utf8_valid unix then inl (string_bytes (unix2dos (bytes_string unix)))
  else inr (CfgPkcs7 "Input is not valid UTF-8").

(** [content.pop()] takes off the newline that the parser has added. *)
Definition SignedDocument_from_bytes (input : bytes) : SignedDocument + ConfigError :=
  parsed_mail ←c cfg_map (fun e => CfgOther ("S/MIME parse failure: " +:+ e)) (parse_mail input);
  match parsed_mail with
  | [doc_content; signature] =>
      content ←c bytes_unix2dos (removelast (raw_bytes doc_content));
      signature_der ←c cfg_map (fun e => CfgOther ("S/MIME signature read failure: " +:+ e)) (body_raw signature);
      inl (mkSignedDocument content signature_der)
  | parts => inr (CfgOther ("Expected 2-part S/MIME document, found " +:+ pretty (Z.of_nat (length parts)) +:+ " parts."))
  end.

Definition SIGNED_DATA_OID : string := "1.2.840.113549.1.7.2".
Definition MESSAGE_DIGEST_OID : string := "1.2.840.113549.1.9.4".
Definition ECDSA_WITH_SHA256_OID : string := "1.2.840.10045.4.3.2".
Definition RSA_PKCS1 : string := "1.2.840.113549.1.1.1".

(** The hash in the signed attributes, and their encoding *)
Definition digest_of_attributes (si : SignerInfo) : (bytes * bytes) + ConfigError :=
  match signed_attrs si with
  | None => inr (CfgPkcs7 "SignedData without signed attributes not implemented")
  | Some (sas, sas_to_der) =>
      match list_find (fun attr => attr_oid attr = MESSAGE_DIGEST_OID) sas with
      | None => inr (CfgPkcs7 "SignedAttrs has no MessageDigest")
      | Some (_, attr) =>
          match attr_values attr with
          | [] => inr (CfgPkcs7 "Empty Attribute")
          | value_0 :: _ =>
              digest ←c cfg_map (fun e => CfgPkcs7 ("Cannot decode MessageDigest: " +:+ e)) value_0;
              sas_der ←c cfg_map (fun e => CfgPkcs7 ("Cannot re-encode signed attributes: " +:+ e)) sas_to_der;
              inl (digest, sas_der)
          end
      end
  end.

Definition verify_signature (self : SignedDocument) (certificate : Certificate) : SecurityResult bytes :=
  signature_encap ← sec_of_cfg (cfg_map (fun e => CfgPkcs7 ("Cannot parse PKCS#7 signature: " +:+ e))
                                  (EncapsulatedContentInfo_from_der (signature_der self)));
  if negb (bool_decide (econtent_type signature_encap = SIGNED_DATA_OID))
  then sec_of_cfg (inr (CfgPkcs7 "Expected to find SignedData object"))
  else
    signer_infos ← sec_of_cfg match econtent signature_encap with
                              | None => inr (CfgPkcs7 "SignedData: Empty container?")
                              | Some sig => cfg_map (fun e => CfgPkcs7 ("Cannot decode SignedData: " +:+ e)) sig
                              end;
    signer_info ← sec_of_cfg match signer_infos with
                             | [] => inr (CfgPkcs7 "SignerInfo list in SignedData is empty!")
                             | si :: _ => inl si
                             end;
    ha ← sec_of_cfg (digest_of_attributes signer_info);
    if negb (bool_decide (ha.1 = sha256 (content self)))
    then sec_of_cfg (inr (CfgPkcs7 "Contents hash in signature does not match actual content."))
    else
      let oid := signature_algorithm_oid signer_info in
      if bool_decide (oid = ECDSA_WITH_SHA256_OID) then
        _ ← sec_map (fun e => "Signature verification failure: " +:+ e)
              (verify_ecdsa_p256_sha256 (cert certificate) ha.2 (si_signature signer_info));
        sec_ok (content self)
      else if bool_decide (oid = RSA_PKCS1) then sec_err "RSA-PSS not yet supported."
      else sec_err ("Unknown signature algorithm oid: " +:+ oid).

(** ** The plugin *)

Record AccessControlBuiltin := mkAC {
  domain_participant_permissions : gmap Z (X509Name * DomainParticipantPermissions);
  signed_permissions_documents : gmap Z bytes;
  domain_rules : gmap Z DomainRule;
  permissions_ca_certificates : gmap Z Certificate;
  identity_to_permissions : gmap Z Z;
  permissions_handle_counter : Z;
}.
Definition AccessControlBuiltin_new : AccessControlBuiltin := mkAC ∅ ∅ ∅ ∅ ∅ 0.

(** [generate_permissions_handle] on the counter *)
Definition next_permissions_handle (s : AccessControlBuiltin) : Z := u32 (permissions_handle_counter s + 1).

Definition get_domain_rule (s : AccessControlBuiltin) (h : Z) : SecurityResult DomainRule :=
  ok_or (domain_rules s !! h) ("Could not find a domain rule for the PermissionsHandle " +:+ pretty h).
Definition get_permissions_document (s : AccessControlBuiltin) (h : Z) : SecurityResult (X509Name * DomainParticipantPermissions) :=
  ok_or (domain_participant_permissions s !! h) ("Could not find a permissions document for the PermissionsHandle " +:+ pretty h).
Definition get_grant (now : Z) (s : AccessControlBuiltin) (h : Z) : SecurityResult Grant :=
  d ← get_permissions_document s h;
  ok_or (find_grant d.2 d.1 now) ("Could not find a valid grant for the PermissionsHandle " +:+ pretty h).
Definition get_signed_permissions_document (s : AccessControlBuiltin) (h : Z) : SecurityResult bytes :=
  ok_or (signed_permissions_documents s !! h)
    ("Could not find a valid signed permissions document for the PermissionsHandle " +:+ pretty h).
Definition get_permissions_ca_certificate (s : AccessControlBuiltin) (h : Z) : SecurityResult Certificate :=
  ok_or (permissions_ca_certificates s !! h) ("Could not find a permissions CA certificate for the PermissionsHandle " +:+ pretty h).
Definition get_permissions_handle (s : AccessControlBuiltin) (identity_handle : Z) : SecurityResult Z :=
  ok_or (identity_to_permissions s !! identity_handle)
    ("Could not find a PermissionsHandle for the IdentityHandle " +:+ pretty identity_handle).

(** *** Validation *)

Definition QOS_PERMISSIONS_CERTIFICATE_PROPERTY_NAME : string := "dds.sec.access.permissions_ca".
Definition QOS_GOVERNANCE_DOCUMENT_PROPERTY_NAME : string := "dds.sec.access.governance".
Definition QOS_PERMISSIONS_DOCUMENT_PROPERTY_NAME : string := "dds.sec.access.permissions".
Definition QOS_IDENTITY_CERTIFICATE_PROPERTY_NAME : string := "dds.sec.auth.identity_certificate".
Definition AUTHENTICATED_PEER_TOKEN_IDENTITY_CERTIFICATE_PROPERTY_NAME : string := "c.id".
Definition AUTHENTICATED_PEER_TOKEN_PERMISSIONS_DOCUMENT_PROPERTY_NAME : string := "c.perm".
Definition PERMISSIONS_TOKEN_CLASS_ID : string := "DDS:Access:Permissions:1.0".
Definition PERMISSIONS_CREDENTIAL_TOKEN_CLASS_ID : string := "DDS:Access:PermissionsCredential".
Definition PERMISSIONS_CREDENTIAL_TOKEN_DOCUMENT_NAME : string := "dds.perm.cert".

(** A property that names a file or holds its contents *)
Definition property_contents (fs_read : string -> bytes + string) (qos : option (list Property)) (name what : string)
  : SecurityResult bytes :=
  uri ← QosPolicies_get_property qos name;
  sec_map (fun e => "Failed to read " +:+ what +:+ " from " +:+ uri +:+ ": " +:+ ConfigError_debug e) (read_uri fs_read uri).

(** The contents of a signed document, if it is signed by this certificate *)
Definition verified_contents (ca : Certificate) (signed : bytes) : SecurityResult bytes :=
  d ← sec_of_cfg (SignedDocument_from_bytes signed); verify_signature d ca.

Definition find_local_documents (fs_read : string -> bytes + string) (now : Z) (domain_id : Z) (qos : option (list Property))
  : SecurityResult (Certificate * DomainRule * bytes * DomainParticipantPermissions * X509Name) :=
  ca_pem ← property_contents fs_read qos QOS_PERMISSIONS_CERTIFICATE_PROPERTY_NAME "the permissions certificate";
  ca ← sec_map ConfigError_debug (Certificate_from_pem ca_pem);
  governance_bytes ← property_contents fs_read qos QOS_GOVERNANCE_DOCUMENT_PROPERTY_NAME "the domain governance document";
  governance_xml ← verified_contents ca governance_bytes;
  governance ← sec_map ConfigError_debug (DomainGovernanceDocument_from_xml (from_utf8_lossy governance_xml));
  domain_rule ← ok_or (find_rule governance domain_id) ("Domain rule not found for the domain_id " +:+ pretty domain_id);
  signed_permissions ← property_contents fs_read qos QOS_PERMISSIONS_DOCUMENT_PROPERTY_NAME "the domain participant permissions";
  permissions_xml ← verified_contents ca signed_permissions;
  permissions ← sec_map ConfigError_debug (DomainParticipantPermissions_from_xml (from_utf8_lossy permissions_xml));
  identity_pem ← property_contents fs_read qos QOS_IDENTITY_CERTIFICATE_PROPERTY_NAME "the identity certificate";
  identity ← sec_map ConfigError_debug (Certificate_from_pem identity_pem);
  let name := cert_subject_name identity in
  if bool_decide (find_grant permissions name now = None)
  then sec_err ("The subject name '" +:+ X509Name_to_string name +:+ "' from the ID certificate not found in the permissions document")
  else sec_ok (ca, domain_rule, signed_permissions, permissions, name).

Definition validate_local_permissions (fs_read : string -> bytes + string) (now : Z) (identity_handle domain_id : Z)
    (participant_qos : option (list Property)) (s : AccessControlBuiltin) : SecurityResult Z * AccessControlBuiltin :=
  match find_local_documents fs_read now domain_id participant_qos with
  | inr e => (inr e, s)
  | inl (ca, domain_rule, signed_permissions, permissions, name) =>
      let h := next_permissions_handle s in
      (inl h, mkAC (<[h := (name, permissions)]> (domain_participant_permissions s))
                (<[h := signed_permissions]> (signed_permissions_documents s))
                (<[h := domain_rule]> (domain_rules s))
                (<[h := ca]> (permissions_ca_certificates s))
                (<[identity_handle := h]> (identity_to_permissions s)) h)
  end.

(** The token has neither the name nor the algorithm of the CA. *)
Definition get_permissions_token (s : AccessControlBuiltin) (h : Z) : SecurityResult DataHolder :=
  _ ← get_permissions_ca_certificate s h; mret (mkDataHolder PERMISSIONS_TOKEN_CLASS_ID [] []).

Definition get_permissions_credential_token (s : AccessControlBuiltin) (h : Z) : SecurityResult DataHolder :=
  d ← get_signed_permissions_document s h;
  mret (mkDataHolder PERMISSIONS_CREDENTIAL_TOKEN_CLASS_ID []
          [mkBinaryProperty PERMISSIONS_CREDENTIAL_TOKEN_DOCUMENT_NAME d true]).

(** [TryFrom<PermissionsCredentialToken> for BuiltinPermissionsCredentialToken] *)
Definition BuiltinPermissionsCredentialToken_try_from (dh : DataHolder) : SecurityResult bytes :=
  if bool_decide (class_id dh = PERMISSIONS_CREDENTIAL_TOKEN_CLASS_ID)
  then DataHolder_get_binary_property dh "dds.perm.cert"
  else sec_err ("Invalid class ID. Got " +:+ class_id dh +:+ ", expected " +:+ PERMISSIONS_CREDENTIAL_TOKEN_CLASS_ID).

Definition find_remote_documents (now : Z) (local_identity_handle : Z) (remote_permissions_token remote_credential_token : DataHolder)
    (s : AccessControlBuiltin) : SecurityResult (DomainRule * DomainParticipantPermissions * X509Name) :=
  local_handle ← get_permissions_handle s local_identity_handle;
  local_token ← get_permissions_token s local_handle;
  local_class ← PluginClassId_try_from (class_id local_token);
  remote_class ← PluginClassId_try_from (class_id remote_permissions_token);
  _ ← matches_up_to_major_version local_class remote_class;
  ca ← get_permissions_ca_certificate s local_handle;
  let bin_prop_map := binary_properties_as_map remote_credential_token in
  cert_bytes ← ok_or (bp_value <$> bin_prop_map !! AUTHENTICATED_PEER_TOKEN_IDENTITY_CERTIFICATE_PROPERTY_NAME)
                 "Could not find remote_identity_certificate";
  certificate ← sec_map (fun e => "Could not parse remote identity certificate from data: " +:+ ConfigError_debug e)
                  (Certificate_from_pem cert_bytes);
  let name := cert_subject_name certificate in
  permissions_bytes ← ok_or (bp_value <$> bin_prop_map !! AUTHENTICATED_PEER_TOKEN_PERMISSIONS_DOCUMENT_PROPERTY_NAME)
                        "Could not find remote_domain_participant_permissions";
  signed_permissions ← sec_map (fun e => "Could not parse signed document from permissions data: " +:+ ConfigError_debug e)
                         (SignedDocument_from_bytes permissions_bytes);
  permissions_xml ← sec_map (fun e => "Could not verify signature on remote permissions document: " +:+ msg e)
                      (verify_signature signed_permissions ca);
  permissions ← sec_map (fun e => "Could not parse permissions from XML: " +:+ ConfigError_debug e)
                  (DomainParticipantPermissions_from_xml (from_utf8_lossy permissions_xml));
  if bool_decide (find_grant permissions name now = None)
  then sec_err ("No valid grants with the subject name " +:+ X509Name_to_string name +:+ " found")
  else
    domain_rule ← get_domain_rule s local_handle;
    sec_ok (domain_rule, permissions, name).

Definition validate_remote_permissions (now : Z) (local_identity_handle : Z) (remote_permissions_token remote_credential_token : DataHolder)
    (s : AccessControlBuiltin) : SecurityResult Z * AccessControlBuiltin :=
  match find_remote_documents now local_identity_handle remote_permissions_token remote_credential_token s with
  | inr e => (inr e, s)
  | inl (domain_rule, permissions, name) =>
      let h := next_permissions_handle s in
      (inl h, mkAC (<[h := (name, permissions)]> (domain_participant_permissions s)) (signed_permissions_documents s)
                (<[h := domain_rule]> (domain_rules s)) (permissions_ca_certificates s) (identity_to_permissions s) h)
  end.

(** *** Checks *)

Inductive Entity := EntDatawriter | EntDatareader | EntTopic.

(** [rtps::constant::builtin_topic_names] *)
Definition DCPS_PARTICIPANT : string := "DCPSParticipant".
Definition DCPS_PUBLICATION : string := "DCPSPublication".
Definition DCPS_SUBSCRIPTION : string := "DCPSSubscription".
Definition DCPS_TOPIC : string := "DCPSTopic".
Definition DCPS_PARTICIPANT_MESSAGE : string := "DCPSParticipantMessage".
Definition DCPS_PARTICIPANT_SECURE : string := "DCPSParticipantSecure".
Definition DCPS_PUBLICATIONS_SECURE : string := "DCPSPublicationsSecure".
Definition DCPS_SUBSCRIPTIONS_SECURE : string := "DCPSSubscriptionsSecure".
Definition DCPS_PARTICIPANT_MESSAGE_SECURE : string := "DCPSParticipantMessageSecure".
Definition DCPS_PARTICIPANT_STATELESS_MESSAGE : string := "DCPSParticipantStatelessMessage".
Definition DCPS_PARTICIPANT_VOLATILE_MESSAGE_SECURE : string := "DCPSParticipantVolatileMessageSecure".

Definition builtin_topics : list string :=
  [DCPS_PARTICIPANT; DCPS_PARTICIPANT_MESSAGE; DCPS_PARTICIPANT_MESSAGE_SECURE; DCPS_PARTICIPANT_SECURE;
   DCPS_PARTICIPANT_STATELESS_MESSAGE; DCPS_PARTICIPANT_VOLATILE_MESSAGE_SECURE; DCPS_PUBLICATION;
   DCPS_PUBLICATIONS_SECURE; DCPS_SUBSCRIPTION; DCPS_SUBSCRIPTIONS_SECURE; DCPS_TOPIC].

(** [opt.is_some_and(bool::not)] *)
Definition is_some_and_not (o : option bool) : bool := match o with Some b => negb b | None => false end.

Definition check_entity (now : Z) (s : AccessControlBuiltin) (h domain_id : Z) (topic_name : string) (partitions : list string)
    (data_tags : list (string * string)) (entity_kind : Entity) : SecurityResult bool :=
  if bool_decide (topic_name ∈ builtin_topics) then sec_ok true
  else
    grant ← get_grant now s h;
    domain_rule ← get_domain_rule s h;
    let requested_access_is_unprotected :=
      is_some_and_not
        ((fun tr => match entity_kind with
                    | EntDatawriter => enable_write_access_control tr
                    | EntDatareader => enable_read_access_control tr
                    | EntTopic => enable_read_access_control tr && enable_write_access_control tr
                    end) <$> find_topic_rule domain_rule topic_name) in
    let participant_has_write_access := AllowOrDeny_bool (check_action grant Publish domain_id topic_name partitions data_tags) in
    let participant_has_read_access := AllowOrDeny_bool (check_action grant Subscribe domain_id topic_name partitions data_tags) in
    let participant_has_requested_access :=
      match entity_kind with
      | EntDatawriter => participant_has_write_access
      | EntDatareader => participant_has_read_access
      | EntTopic => participant_has_write_access || participant_has_read_access
      end in
    sec_ok (requested_access_is_unprotected || participant_has_requested_access).

(** Partitions and data tags are not supported yet. *)
Definition check_create_datawriter now s h domain_id topic_name := check_entity now s h domain_id topic_name [] [] EntDatawriter.
Definition check_create_datareader now s h domain_id topic_name := check_entity now s h domain_id topic_name [] [] EntDatareader.
Definition check_create_topic now s h domain_id topic_name := check_entity now s h domain_id topic_name [] [] EntTopic.
Definition check_remote_datawriter now s h domain_id (publication_data : DiscoveredWriterData) :=
  check_entity now s h domain_id (pbtd_topic_name (dwd_publication_topic_data publication_data)) [] [] EntDatawriter.
Definition check_remote_topic now s h domain_id (topic_data : TopicBuiltinTopicData) :=
  check_entity now s h domain_id (tbtd_name topic_data) [] [] EntTopic.

(** (passed, relay only) *)
Definition check_remote_datareader (now : Z) (s : AccessControlBuiltin) (h domain_id : Z) (subscription_data : DiscoveredReaderData)
  : SecurityResult (bool * bool) :=
  let topic_name := sbtd_topic_name (drd_subscription_topic_data subscription_data) in
  grant ← get_grant now s h;
  domain_rule ← get_domain_rule s h;
  let requested_access_is_unprotected := is_some_and_not (enable_read_access_control <$> find_topic_rule domain_rule topic_name) in
  let participant_has_read_access := AllowOrDeny_bool (check_action grant Subscribe domain_id topic_name [] []) in
  let allow_to_fully_read := requested_access_is_unprotected || participant_has_read_access in
  let relay_only :=
    if allow_to_fully_read then false else AllowOrDeny_bool (check_action grant Relay domain_id topic_name [] []) in
  sec_ok (allow_to_fully_read || relay_only, relay_only).

Definition check_participant (now : Z) (s : AccessControlBuiltin) (h domain_id : Z) : SecurityResult bool :=
  grant ← get_grant now s h;
  domain_rule ← get_domain_rule s h;
  let unprotected_topics :=
    negb (enable_join_access_control domain_rule)
    || existsb (fun tr => negb (enable_read_access_control tr && enable_write_access_control tr)) (topic_access_rules domain_rule) in
  sec_ok (unprotected_topics || check_participant_join grant domain_id).
Definition check_create_participant := check_participant.
Definition check_remote_participant := check_participant.

(** *** Attributes *)

Definition get_participant_sec_attributes (s : AccessControlBuiltin) (h : Z) : SecurityResult ParticipantSecurityAttributes :=
  r ← get_domain_rule s h;
  let '(is_rtps_protected, is_rtps_encrypted, is_rtps_origin_authenticated) :=
    ProtectionKind_to_security_attributes_format (rtps_protection_kind r) in
  let '(is_discovery_protected, is_discovery_encrypted, is_discovery_origin_authenticated) :=
    ProtectionKind_to_security_attributes_format (discovery_protection_kind r) in
  let '(is_liveliness_protected, is_liveliness_encrypted, is_liveliness_origin_authenticated) :=
    ProtectionKind_to_security_attributes_format (liveliness_protection_kind r) in
  sec_ok (mkPSA (dr_allow_unauthenticated_participants r) (enable_join_access_control r)
            is_rtps_protected is_discovery_protected is_liveliness_protected
            (PluginParticipantSecurityAttributesMask_from
               (mkBPSA is_rtps_encrypted is_discovery_encrypted is_liveliness_encrypted
                  is_rtps_origin_authenticated is_discovery_origin_authenticated is_liveliness_origin_authenticated)) []).

Definition builtin_attributes_of (k : ProtectionKind) : EndpointSecurityAttributes :=
  let '(protected, encrypted, origin_authenticated) := ProtectionKind_to_security_attributes_format k in
  for_builtin_topic protected encrypted origin_authenticated.

Definition get_endpoint_security_attributes (s : AccessControlBuiltin) (h : Z) (topic_name : string)
  : SecurityResult EndpointSecurityAttributes :=
  if bool_decide (topic_name ∈ [DCPS_PARTICIPANT_SECURE; DCPS_PUBLICATIONS_SECURE; DCPS_SUBSCRIPTIONS_SECURE]) then
    r ← get_domain_rule s h; sec_ok (builtin_attributes_of (discovery_protection_kind r))
  else if bool_decide (topic_name = DCPS_PARTICIPANT_MESSAGE_SECURE) then
    r ← get_domain_rule s h; sec_ok (builtin_attributes_of (liveliness_protection_kind r))
  else if bool_decide (topic_name = DCPS_PARTICIPANT_VOLATILE_MESSAGE_SECURE) then sec_ok (for_builtin_topic true true false)
  else if bool_decide (topic_name ∈ [DCPS_PARTICIPANT_STATELESS_MESSAGE; DCPS_PARTICIPANT; DCPS_PARTICIPANT_MESSAGE;
                                     DCPS_PUBLICATION; DCPS_SUBSCRIPTION; DCPS_TOPIC])
  then sec_ok EndpointSecurityAttributes_empty
  else
    r ← get_domain_rule s h;
    t ← ok_or (find_topic_rule r topic_name) ("Could not find a topic rule for the topic_name " +:+ topic_name);
    let '(sub_protected, sub_encrypted, sub_origin_authenticated) :=
      ProtectionKind_to_security_attributes_format (metadata_protection_kind t) in
    let '(payload_protected, payload_encrypted, key_protected) :=
      BasicProtectionKind_to_security_attributes_format (data_protection_kind t) in
    sec_ok (mkESA (mkTSA (enable_read_access_control t) (enable_write_access_control t) (enable_discovery_protection t)
                     (enable_liveliness_protection t))
              sub_protected payload_protected key_protected
              (PluginEndpointSecurityAttributesMask_from (mkBESA sub_encrypted sub_origin_authenticated payload_encrypted)) []).

Definition get_topic_sec_attributes s h topic_name : SecurityResult TopicSecurityAttributes :=
  a ← get_endpoint_security_attributes s h topic_name; sec_ok (topic_security_attributes a).
Definition get_datawriter_sec_attributes := get_endpoint_security_attributes.
Definition get_datareader_sec_attributes := get_endpoint_security_attributes.
End documents.
