(* ===== verification/AccessControlTheorems.v ===== *)
(** * What the access control plugin guarantees

    - [access_decided]: the checks implement the policy of the documents: the
      first valid grant of the subject, the first topic rule that matches, the
      first rule that applies, the default;
    - [permissions_verified]: nobody has permissions that are not in a document
      signed by the permissions CA. *)

From stdpp Require Import strings.
From S2P Require Import Prelude BTree Wire DiscoveryData DiscoveryWire SecurityTypes AccessControl.
Local Open Scope string_scope.
Local Open Scope list_scope.
Local Open Scope Z_scope.

Section theorems.
Context `{AC : AcDeps}.

(** ** The policy

    [first_of P l x]: [x] is the first element of [l] with [P]. *)

Definition first_of {A} (P : A -> Prop) (l : list A) (x : A) : Prop :=
  exists l1 l2, l = l1 ++ x :: l2 /\ P x /\ Forall (fun y => ~ P y) l1.

Lemma first_of_unique {A} (P : A -> Prop) l x y : first_of P l x -> first_of P l y -> x = y.
Proof.
  intros (l1 & l2 & -> & Hx & Hl) (k1 & k2 & E & Hy & Hk). revert k1 E Hk.
  induction l1 as [|a l1 IH]; intros [|b k1] E Hk; simplify_eq/=.
  - done.
  - by apply Forall_cons in Hk as [? _].
  - by apply Forall_cons in Hl as [? _].
  - apply Forall_cons in Hl as [_ Hl]. apply Forall_cons in Hk as [_ Hk]. eapply IH; eauto.
Qed.

Lemma list_find_first {A} (f : A -> bool) (P : A -> Prop) l :
  (forall x, x ∈ l -> f x = true <-> P x) ->
  match snd <$> list_find (fun x => f x) l with
  | Some x => first_of P l x
  | None => Forall (fun x => ~ P x) l
  end.
Proof.
  intros Hf. destruct (list_find (fun x => f x) l) as [[i x]|] eqn:E; cbn.
  - apply list_find_Some in E as (Hi & Hx & Hbefore). exists (take i l), (drop (S i) l).
    split; [by rewrite take_drop_middle|]. split; [by apply Hf, Is_true_true; [by eapply list_elem_of_lookup_2|]|].
    apply Forall_lookup. intros j y Hj Hy. apply lookup_take_Some in Hj as [Hj Hlt].
    apply (Hbefore j y Hj Hlt), Is_true_true. by apply Hf; [eapply list_elem_of_lookup_2|].
  - apply list_find_None in E. rewrite Forall_forall in E |- *. intros x Hin HP. apply (E x Hin), Is_true_true. by apply Hf.
Qed.

Definition domain_listed (ds : list DomainIds) (d : Z) : Prop :=
  exists x, x ∈ ds /\ match x with
                     | DIValue v => d = v
                     | DIRange mi ma => mi <= d <= ma
                     | DIMin mi => mi <= d
                     | DIMax ma => d <= ma
                     end.

(** A criterion covers a topic that matches one of its globs, if every partition
    matches one - or is the default partition, the empty string, and the criterion
    lists none - and every data tag is listed. *)
Definition covers (c : Criterion) (topic : string) (partitions : list string) (tags : list (string * string)) : Prop :=
  (exists g, g ∈ c_topics c /\ Pattern_matches g topic = true) /\
  (forall p, p ∈ partitions -> (exists g, g ∈ c_partitions c /\ Pattern_matches g p = true) \/ (c_partitions c = [] /\ p = "")) /\
  (forall n v, (n, v) ∈ tags -> mkDataTag n v ∈ c_data_tags c).

(** The rules that the code is written for: they list domains and their criteria
    topics, as the assertions of the debug build say, and a criterion that lists no
    partitions is not asked about the default one, which the code does not let it
    cover ([default_partition_not_covered]). *)
Definition criterion_wf (partitions : list string) (c : Criterion) : Prop :=
  c_topics c <> [] /\ (c_partitions c = [] -> "" ∉ partitions).
Definition rule_wf (partitions : list string) (r : Rule) : Prop :=
  domains r <> [] /\ Forall (criterion_wf partitions) (publish r ++ subscribe r ++ relay r).
Definition permissions_wf (partitions : list string) (perms : DomainParticipantPermissions) : Prop :=
  forall g r, g ∈ grants perms -> r ∈ rules g -> rule_wf partitions r.

Definition criteria_for (r : Rule) (a : Action) : list Criterion :=
  match a with Publish => publish r | Subscribe => subscribe r | Relay => relay r end.

Definition applies (a : Action) (d : Z) (topic : string) ps ts (r : Rule) : Prop :=
  domain_listed (domains r) d /\ exists c, c ∈ criteria_for r a /\ covers c topic ps ts.

(** The first rule that applies decides, and the default if there is none. *)
Definition allowed (g : Grant) (a : Action) (d : Z) (topic : string) ps ts : Prop :=
  (exists r, first_of (applies a d topic ps ts) (rules g) r /\ verdict r = Allow) \/
  (Forall (fun r => ~ applies a d topic ps ts r) (rules g) /\ default_action g = Allow).

Definition valid_grant (name : X509Name) (now : Z) (g : Grant) : Prop :=
  subject_name g = name /\ valid_from g <= now < valid_until g.

(** The topic rule that counts leaves this kind of access open. *)
Definition open_access (dr : DomainRule) (topic : string) (k : Entity) : Prop :=
  exists tr, first_of (fun tr => Pattern_matches (topic_expression tr) topic = true) (topic_access_rules dr) tr /\
    match k with
    | EntDatawriter => enable_write_access_control tr = false
    | EntDatareader => enable_read_access_control tr = false
    | EntTopic => enable_read_access_control tr = false \/ enable_write_access_control tr = false
    end.

Definition entitled (dr : DomainRule) (g : Grant) (k : Entity) (d : Z) (topic : string) ps ts : Prop :=
  open_access dr topic k \/
  match k with
  | EntDatawriter => allowed g Publish d topic ps ts
  | EntDatareader => allowed g Subscribe d topic ps ts
  | EntTopic => allowed g Publish d topic ps ts \/ allowed g Subscribe d topic ps ts
  end.

(** ** The checks decide it *)

Lemma existsb_elem {A} (f : A -> bool) l : existsb f l = true <-> exists x, x ∈ l /\ f x = true.
Proof. rewrite existsb_exists. by setoid_rewrite list_elem_of_In. Qed.
Lemma forallb_elem {A} (f : A -> bool) l : forallb f l = true <-> forall x, x ∈ l -> f x = true.
Proof. rewrite forallb_forall. by setoid_rewrite list_elem_of_In. Qed.

Lemma domain_listed_ok ds d : existsb (fun x => DomainIds_matches x d) ds = true <-> domain_listed ds d.
Proof.
  rewrite existsb_elem. unfold domain_listed. apply exist_proper. intros x. apply and_iff_compat_l.
  destruct x; cbn; rewrite ?andb_true_iff, ?Z.eqb_eq, ?Z.leb_le; naive_solver.
Qed.

Lemma covers_ok c topic ps ts : criterion_wf ps c -> Criterion_is_applicable c topic ps ts = true <-> covers c topic ps ts.
Proof.
  intros [_ Hwf]. unfold Criterion_is_applicable, covers. rewrite !andb_true_iff, existsb_elem, !forallb_elem.
  assert ((forall p, p ∈ ps -> existsb (fun glob => Pattern_matches glob p) (c_partitions c) = true) <->
    (forall p, p ∈ ps -> (exists g, g ∈ c_partitions c /\ Pattern_matches g p = true) \/ (c_partitions c = [] /\ p = ""))) as ->.
  { split; intros H p Hp; [left; apply existsb_elem, H, Hp|]. destruct (H p Hp) as [Hg|[E ->]]; [by apply existsb_elem|by destruct (Hwf E)]. }
  enough ((forall x, x ∈ ts -> existsb (fun dt => DataTag_check dt x.1 x.2) (c_data_tags c) = true) <->
    (forall n v, (n, v) ∈ ts -> mkDataTag n v ∈ c_data_tags c)) as -> by tauto.
  split.
  - intros H n v Hin. apply H, existsb_elem in Hin as ([n' v'] & Hin & Hc). unfold DataTag_check in Hc. cbn in Hc.
    apply andb_true_iff in Hc as [Hn%bool_decide_eq_true Hv%bool_decide_eq_true]. by subst.
  - intros H [n v] Hin. apply existsb_elem. eexists. split; [by apply H|]. unfold DataTag_check. by rewrite !bool_decide_true.
Qed.

Lemma applies_ok a d topic ps ts r :
  rule_wf ps r -> Rule_is_applicable r a d topic ps ts = true <-> applies a d topic ps ts r.
Proof.
  intros [_ Hwf]. assert (forall c, c ∈ criteria_for r a -> criterion_wf ps c) as Hc.
  { rewrite Forall_forall in Hwf. intros c Hc. apply Hwf. destruct a; cbn in Hc; set_solver. }
  unfold Rule_is_applicable, applies. rewrite <- domain_listed_ok.
  change (match a with Publish => publish r | Subscribe => subscribe r | Relay => relay r end) with (criteria_for r a).
  destruct (existsb _ (domains r)); [|naive_solver]. rewrite existsb_elem.
  split; [intros (c & Hin & Ha); split; [done|]|intros (_ & c & Hin & Ha)]; exists c; (split; [done|]); by apply covers_ok; auto.
Qed.

Lemma allowed_ok g a d topic ps ts :
  (forall r, r ∈ rules g -> rule_wf ps r) ->
  AllowOrDeny_bool (check_action g a d topic ps ts) = true <-> allowed g a d topic ps ts.
Proof.
  intros Hwf. unfold check_action, allowed.
  pose proof (list_find_first _ _ (rules g) (fun r Hr => applies_ok a d topic ps ts r (Hwf r Hr))) as H.
  destruct (list_find _ (rules g)) as [[i r]|]; cbn in H.
  - split.
    + intros Hv. left. exists r. split; [done|]. by destruct (verdict r).
    + intros [(r' & Hr & Hv)|[Hall _]]; [by rewrite (first_of_unique _ _ _ _ H Hr), Hv|].
      destruct H as (l1 & l2 & E & Hr & _). rewrite E in Hall. apply Forall_app in Hall as [_ Hall].
      by apply Forall_cons in Hall as [? _].
  - split; [intros Hv; right; split; [done|]; by destruct (default_action g)|].
    intros [(r & (l1 & l2 & E & Hr & _) & _)|[_ ->]]; [|done]. rewrite E in H. apply Forall_app in H as [_ H].
    by apply Forall_cons in H as [? _].
Qed.

Lemma valid_grant_ok name now g : grant_applies name now g = true <-> valid_grant name now g.
Proof. unfold grant_applies, valid_grant. rewrite !andb_true_iff, bool_decide_eq_true, Z.leb_le, Z.ltb_lt. tauto. Qed.

Lemma find_grant_first ps name now :
  match find_grant ps name now with
  | Some g => first_of (valid_grant name now) (grants ps) g
  | None => Forall (fun g => ~ valid_grant name now g) (grants ps)
  end.
Proof. apply list_find_first. intros g _. apply valid_grant_ok. Qed.

Lemma open_access_ok dr topic k (f : TopicRule -> bool) :
  (forall tr, f tr = match k with
                     | EntDatawriter => enable_write_access_control tr
                     | EntDatareader => enable_read_access_control tr
                     | EntTopic => enable_read_access_control tr && enable_write_access_control tr
                     end) ->
  is_some_and_not (f <$> find_topic_rule dr topic) = true <-> open_access dr topic k.
Proof.
  intros Hf. unfold find_topic_rule, open_access.
  pose proof (list_find_first (fun tr => Pattern_matches (topic_expression tr) topic) _ (topic_access_rules dr) (fun _ _ => iff_refl _)) as H.
  destruct (snd <$> _) as [tr|]; cbn.
  - rewrite Hf. split.
    + intros Hn. exists tr. split; [done|]. destruct k; cbn in *; try by apply negb_true_iff.
      apply negb_true_iff, andb_false_iff in Hn. done.
    + intros (tr' & Htr & Hk). rewrite <- (first_of_unique _ _ _ _ H Htr) in Hk. destruct k; cbn; [by rewrite Hk..|].
      apply negb_true_iff, andb_false_iff. done.
  - split; [done|]. intros (tr & (l1 & l2 & E & Htr & _) & _). rewrite E in H. apply Forall_app in H as [_ H].
    by apply Forall_cons in H as [? _].
Qed.

(** C25: the check of an endpoint or a topic implements the policy.  Built-in topics
    are open to everybody.  For any other the subject must have a grant that is
    valid at this moment, else the check is an error; the first such grant counts.
    Access is then given exactly if the first topic rule of the governance that
    matches leaves it open, or the first rule of the grant that applies - its
    domains list the domain, and one of its criteria for the action covers topic,
    partitions and data tags (one is enough, though the comment on [Grant] says
    all) - allows it, or none applies and the default does.  This is for
    permissions whose rules list domains and whose criteria list topics, as the
    debug build asserts, and in which a criterion without partitions is not asked
    about the default partition ([permissions_wf]). *)
Theorem access_decided now s h d topic ps ts k name perms dr :
  domain_participant_permissions s !! h = Some (name, perms) -> domain_rules s !! h = Some dr -> permissions_wf ps perms ->
  let r := check_entity now s h d topic ps ts k in
  (topic ∈ builtin_topics -> r = inl true) /\
  (topic ∉ builtin_topics ->
     ((exists e, r = inr e) <-> Forall (fun g => ~ valid_grant name now g) (grants perms)) /\
     (forall g, first_of (valid_grant name now) (grants perms) g ->
        exists b, r = inl b /\ (b = true <-> entitled dr g k d topic ps ts))).
Proof.
  intros Hp Hd Hwf r. unfold r, check_entity. split; [intros Ht; by rewrite bool_decide_true|].
  intros Ht. rewrite bool_decide_false by done. unfold get_grant, get_permissions_document, get_domain_rule. rewrite Hp, Hd. cbn.
  pose proof (find_grant_first perms name now) as H. destruct (find_grant perms name now) as [g|]; cbn.
  - split.
    + split; [by intros [e [=]]|]. intros Hall. destruct H as (l1 & l2 & E & Hg & _). rewrite E in Hall.
      apply Forall_app in Hall as [_ Hall]. by apply Forall_cons in Hall as [? _].
    + intros g' Hg'. rewrite <- (first_of_unique _ _ _ _ H Hg'). eexists. split; [done|].
      assert (forall rl, rl ∈ rules g -> rule_wf ps rl) as Hg
        by (intros rl; apply Hwf; destruct H as (l1 & l2 & -> & _); set_solver).
      rewrite orb_true_iff. unfold entitled. rewrite (open_access_ok dr topic k) by (by intros []).
      destruct k; rewrite ?orb_true_iff, !allowed_ok by done; done.
  - split; [split; [done|by eauto]|]. intros g (l1 & l2 & E & Hg & _). rewrite E in H. apply Forall_app in H as [_ H].
    by apply Forall_cons in H as [? _].
Qed.

(** ** Where permissions come from *)

(** [b] is a document with the contents [c] whose first signer has signed the hash
    of [c] with the key of this certificate. *)
Definition signed_by (ca : Certificate) (b c : bytes) : Prop :=
  exists d encap si sis der,
    SignedDocument_from_bytes b = inl d /\ c = content d /\
    EncapsulatedContentInfo_from_der (signature_der d) = inl encap /\ econtent encap = Some (inl (si :: sis)) /\
    digest_of_attributes si = inl (sha256 c, der) /\
    verify_ecdsa_p256_sha256 (cert ca) der (si_signature si) = inl tt.

Lemma sec_of_cfg_ok {A} (r : A + ConfigError) a : sec_of_cfg r = inl a -> r = inl a.
Proof. by destruct r; intros [= <-]. Qed.
Lemma sec_map_ok {A E} (f : E -> string) (r : A + E) a : sec_map f r = inl a -> r = inl a.
Proof. by destruct r; intros [= <-]. Qed.
Lemma cfg_map_ok {A E} (f : E -> ConfigError) (r : A + E) a : cfg_map f r = inl a -> r = inl a.
Proof. by destruct r; intros [= <-]. Qed.
Lemma ok_or_ok {A} (o : option A) m a : ok_or o m = inl a -> o = Some a.
Proof. by destruct o; intros [= <-]. Qed.
Lemma sec_bind_ok {A B} (m : SecurityResult A) (f : A -> SecurityResult B) b :
  (m ≫= f) = inl b -> exists a, m = inl a /\ f a = inl b.
Proof. destruct m as [a|e]; [|done]. intros H. by exists a. Qed.

Lemma verify_signature_sound d ca c b :
  SignedDocument_from_bytes b = inl d -> verify_signature d ca = inl c -> signed_by ca b c.
Proof.
  intros Hb Hv. unfold verify_signature in Hv.
  apply sec_bind_ok in Hv as (encap & He%sec_of_cfg_ok%cfg_map_ok & Hv). destruct (negb _); [done|].
  apply sec_bind_ok in Hv as (sis & Hsis%sec_of_cfg_ok & Hv).
  apply sec_bind_ok in Hv as (si & Hsi%sec_of_cfg_ok & Hv). destruct sis as [|si' sis]; [done|]. injection Hsi as ->.
  apply sec_bind_ok in Hv as ([digest der] & Hd%sec_of_cfg_ok & Hv). cbn in Hv.
  destruct (bool_decide_reflect (digest = sha256 (content d))) as [Hdig|]; [|done]. cbn in Hv.
  destruct (bool_decide (_ = ECDSA_WITH_SHA256_OID)); [|by destruct (bool_decide _)].
  apply sec_bind_ok in Hv as ([] & Hver%sec_map_ok & [= <-]). exists d, encap, si, sis, der. split_and!; try done.
  - destruct (econtent encap) as [sig|]; [|done]. by apply cfg_map_ok in Hsis as ->.
  - by rewrite <- Hdig.
Qed.

Lemma verified_contents_ok ca b c : verified_contents ca b = inl c -> signed_by ca b c.
Proof. intros (d & Hd%sec_of_cfg_ok & Hv)%sec_bind_ok. by eapply verify_signature_sound. Qed.

(** *** Admissions *)

Inductive AcOp :=
| OpLocal (fs_read : string -> bytes + string) (now identity_handle domain_id : Z) (qos : option (list Property))
| OpRemote (now local_identity_handle : Z) (permissions_token credential_token : DataHolder).
Definition ac_run (op : AcOp) (s : AccessControlBuiltin) : SecurityResult Z * AccessControlBuiltin :=
  match op with
  | OpLocal fs now id d qos => validate_local_permissions fs now id d qos s
  | OpRemote now id tok cred => validate_remote_permissions now id tok cred s
  end.
Definition ac_after (ops : list AcOp) : AccessControlBuiltin :=
  foldl (fun s op => (ac_run op s).2) AccessControlBuiltin_new ops.

(** What a validation is given under a name: by a local participant the contents of
    the property of its QoS, from a file or in place; by a remote one the binary
    property of its credential token. *)
Definition given (op : AcOp) (name : string) (b : bytes) : Prop :=
  match op with
  | OpLocal fs _ _ _ qos => exists uri, QosPolicies_get_property qos name = inl uri /\ read_uri fs uri = inl b
  | OpRemote _ _ _ cred => bp_value <$> binary_properties_as_map cred !! name = Some b
  end.
Definition identity_certificate (op : AcOp) (b : bytes) : Prop :=
  given op match op with OpLocal _ _ _ _ _ => "dds.sec.auth.identity_certificate" | OpRemote _ _ _ _ => "c.id" end b.
Definition permissions_document (op : AcOp) (b : bytes) : Prop :=
  given op match op with OpLocal _ _ _ _ _ => "dds.sec.access.permissions" | OpRemote _ _ _ _ => "c.perm" end b.
Definition time_of (op : AcOp) : Z := match op with OpLocal _ now _ _ _ | OpRemote now _ _ _ => now end.

(** The validation admits the subject of the identity certificate it is given, with
    the permissions of the document it is given, which the CA has signed and in
    which the subject has a grant that is valid at the time of the validation. *)
Record admits (op : AcOp) (ca : Certificate) (name : X509Name) (perms : DomainParticipantPermissions) : Prop := {
  ad_subject : exists b x, identity_certificate op b /\ X509_from_pem b = inl x /\ X509_subject_from_der x = inl name;
  ad_permissions : exists b c, permissions_document op b /\ signed_by ca b c /\
    DomainParticipantPermissions_from_xml (from_utf8_lossy c) = inl perms;
  ad_grant : exists g, g ∈ grants perms /\ valid_grant name (time_of op) g;
}.

(** The validation is one of a local participant, which names the CA in its QoS, and
    a governance document signed by it, whose first rule for the domain is [dr]. *)
Definition vouches (op : AcOp) (ca : Certificate) (dr : DomainRule) : Prop :=
  match op with
  | OpLocal _ _ _ d _ =>
      (exists b, given op "dds.sec.access.permissions_ca" b /\ X509_from_pem b = inl (cert ca)) /\
      (exists b c drs, given op "dds.sec.access.governance" b /\ signed_by ca b c /\
         DomainGovernanceDocument_from_xml (from_utf8_lossy c) = inl drs /\
         first_of (fun r => domain_listed (dr_domains r) d) drs dr)
  | OpRemote _ _ _ _ => False
  end.

Lemma certificate_ok b c : Certificate_from_pem b = inl c -> X509_from_pem b = inl (cert c) /\ X509_subject_from_der (cert c) = inl (cert_subject_name c).
Proof.
  unfold Certificate_from_pem. destruct (X509_from_pem b) as [x|e]; [|done]. cbn.
  destruct (X509_subject_from_der x) as [n|e] eqn:E; [|done]. cbn. intros [= <-]. done.
Qed.

Lemma property_contents_ok fs qos name what b :
  property_contents fs qos name what = inl b -> exists uri, QosPolicies_get_property qos name = inl uri /\ read_uri fs uri = inl b.
Proof. intros (uri & Hu & Hr%sec_map_ok)%sec_bind_ok. eauto. Qed.

Lemma find_grant_valid perms name now :
  bool_decide (find_grant perms name now = None) = false -> exists g, g ∈ grants perms /\ valid_grant name now g.
Proof.
  intros H%bool_decide_eq_false. pose proof (find_grant_first perms name now) as Hf.
  destruct (find_grant perms name now) as [g|]; [|done]. destruct Hf as (l1 & l2 & E & Hg & _).
  exists g. split; [rewrite E; set_solver|done].
Qed.

Lemma find_rule_first drs d dr : find_rule drs d = Some dr -> first_of (fun r => domain_listed (dr_domains r) d) drs dr.
Proof.
  unfold find_rule. intros H. pose proof (list_find_first (fun r => existsb (fun x => DomainIds_matches x d) (dr_domains r)) _ drs
    (fun r _ => domain_listed_ok (dr_domains r) d)) as Hf.
  destruct (list_find _ drs) as [[i r]|] in H, Hf; [|done]. by injection H as <-.
Qed.

Lemma local_documents_admitted fs now id d qos ca dr b perms name :
  find_local_documents fs now d qos = inl (ca, dr, b, perms, name) ->
  admits (OpLocal fs now id d qos) ca name perms /\ vouches (OpLocal fs now id d qos) ca dr.
Proof.
  intros H. unfold find_local_documents in H.
  repeat match type of H with (_ ≫= _) = inl _ => apply sec_bind_ok in H as (? & ? & H) end. cbn in H.
  destruct (bool_decide _) eqn:Hg; [done|]. injection H as <- <- <- <- <-.
  repeat match goal with
  | H : verified_contents _ _ = inl _ |- _ => apply verified_contents_ok in H
  | H : sec_map _ _ = inl _ |- _ => apply sec_map_ok in H
  | H : ok_or _ _ = inl _ |- _ => apply ok_or_ok, find_rule_first in H
  | H : property_contents _ _ _ _ = inl _ |- _ => apply property_contents_ok in H
  | H : Certificate_from_pem _ = inl _ |- _ => apply certificate_ok in H as [? ?]
  end.
  split; [split; [by eauto|by eauto 10|by apply find_grant_valid]|split; [by eauto|by eauto 10]].
Qed.

Lemma remote_documents_admitted now id tok cred s dr perms name :
  find_remote_documents now id tok cred s = inl (dr, perms, name) ->
  exists hl ca, permissions_ca_certificates s !! hl = Some ca /\ domain_rules s !! hl = Some dr /\
    admits (OpRemote now id tok cred) ca name perms.
Proof.
  intros H. unfold find_remote_documents in H.
  repeat match type of H with (_ ≫= _) = inl _ => apply sec_bind_ok in H as (? & ? & H) end. cbn in H.
  destruct (bool_decide _) eqn:Hg; [done|]. apply sec_bind_ok in H as (dr' & Hdr%ok_or_ok & [= <- <- <-]).
  repeat match goal with
  | H : sec_map _ _ = inl _ |- _ => apply sec_map_ok in H
  | H : get_permissions_ca_certificate _ _ = inl _ |- _ => apply ok_or_ok in H
  | H : ok_or _ _ = inl _ |- _ => apply ok_or_ok in H
  | H : Certificate_from_pem _ = inl _ |- _ => apply certificate_ok in H as [? ?]
  end.
  eexists _, _. split_and!; [done..|]. split; [by eauto| |by apply find_grant_valid].
  eexists _, _. split_and!; [done|by eapply verify_signature_sound|done].
Qed.

(** *** Over the life of the plugin *)

(** Every participant known by a handle was admitted by one of the validations,
    under the CA of a local participant, which has a handle itself. *)
Record ac_inv (ops : list AcOp) (s : AccessControlBuiltin) : Prop := {
  ai_admitted h name perms :
    domain_participant_permissions s !! h = Some (name, perms) ->
    exists op opl ca dr, op ∈ ops /\ opl ∈ ops /\ domain_rules s !! h = Some dr /\ admits op ca name perms /\ vouches opl ca dr;
  ai_local hl ca : permissions_ca_certificates s !! hl = Some ca ->
    is_Some (domain_participant_permissions s !! hl) /\
    exists opl dr, opl ∈ ops /\ domain_rules s !! hl = Some dr /\ vouches opl ca dr;
  ai_handles h : is_Some (domain_participant_permissions s !! h) -> 1 <= h <= permissions_handle_counter s;
}.

Lemma ac_inv_new : ac_inv [] AccessControlBuiltin_new.
Proof. split; cbn; intros *; rewrite ?lookup_empty; try done. Qed.

Lemma next_fresh ops s : ac_inv ops s -> 0 <= permissions_handle_counter s < 2 ^ 32 - 1 ->
  next_permissions_handle s = permissions_handle_counter s + 1 /\
  domain_participant_permissions s !! next_permissions_handle s = None.
Proof.
  intros Hi Hc. unfold next_permissions_handle. rewrite wrap_u_id by bounds_lia. split; [done|].
  destruct (domain_participant_permissions s !! _) eqn:E; [|done]. destruct (ai_handles _ s Hi _ (ex_intro _ _ E)). lia.
Qed.

(** What a validation does: nothing, or it gives the next handle to a participant
    it admits. *)
Definition ac_step (ops : list AcOp) (op : AcOp) (s : AccessControlBuiltin) (r : SecurityResult Z * AccessControlBuiltin) : Prop :=
  match r with
  | (inr _, s') => s' = s
  | (inl h, s') => h = next_permissions_handle s /\ permissions_handle_counter s' = h /\
      exists name perms opl ca dr,
        domain_participant_permissions s' = <[h := (name, perms)]> (domain_participant_permissions s) /\
        domain_rules s' = <[h := dr]> (domain_rules s) /\
        (forall hl ca', permissions_ca_certificates s' !! hl = Some ca' ->
           permissions_ca_certificates s !! hl = Some ca' \/ hl = h /\ ca' = ca /\ opl = op) /\
        admits op ca name perms /\ opl ∈ op :: ops /\ vouches opl ca dr
  end.

Lemma ac_run_step ops op s : ac_inv ops s -> ac_step ops op s (ac_run op s).
Proof.
  intros Hi. destruct op as [fs now id d qos|now id tok cred]; cbn [ac_run].
  - unfold validate_local_permissions. destruct (find_local_documents _ _ _ _) as [[[[[ca dr] b] perms] name]|] eqn:E; [|done].
    apply (local_documents_admitted _ _ id) in E as [Ha Hv]. split; [done|]. split; [done|]. exists name, perms, (OpLocal fs now id d qos), ca, dr.
    split_and!; [done..| |done|set_solver|done]. cbn. intros hl ca'. rewrite lookup_insert_Some. naive_solver.
  - unfold validate_remote_permissions. destruct (find_remote_documents _ _ _ _ _) as [[[dr perms] name]|] eqn:E; [|done].
    apply remote_documents_admitted in E as (hl & ca & Hca & Hdr & Ha). split; [done|]. split; [done|].
    destruct (ai_local ops s Hi hl ca Hca) as (_ & opl & dr' & Hin & Hdr' & Hv). rewrite Hdr in Hdr'. injection Hdr' as <-.
    exists name, perms, opl, ca, dr. split_and!; [done..|by left|done|set_solver|done].
Qed.

Lemma ac_step_inv ops op s :
  ac_inv ops s -> 0 <= permissions_handle_counter s < 2 ^ 32 - 1 -> ac_inv (ops ++ [op]) (ac_run op s).2.
Proof.
  intros Hi Hc. assert (forall x, x ∈ ops -> x ∈ ops ++ [op]) as Hmore by set_solver.
  pose proof (ac_run_step ops op s Hi) as Hs. destruct (ac_run op s) as [[h|e] s']; cbn in Hs |- *.
  2: { subst s'. split; [|intros hl ca Hca|apply (ai_handles _ s Hi)].
       - intros h name perms H. destruct (ai_admitted _ s Hi h name perms H) as (x & y & ca & dr & ? & ? & ?). exists x, y, ca, dr. auto.
       - destruct (ai_local _ s Hi hl ca Hca) as (? & y & dr & ? & ?). split; [done|]. exists y, dr. auto. }
  destruct Hs as (-> & Hcnt & name & perms & opl & ca & dr & Ep & Er & Eca & Ha & Hin & Hv).
  destruct (next_fresh ops s Hi Hc) as [Hn Hfree]. set (h := next_permissions_handle s) in *.
  assert (opl ∈ ops ++ [op]) as Hin' by set_solver. split.
  - intros h' name' perms'. rewrite Ep, Er. destruct (decide (h' = h)) as [->|Hne].
    + rewrite !lookup_insert_eq. intros [= <- <-]. exists op, opl, ca, dr. split_and!; [set_solver|done..].
    + rewrite !lookup_insert_ne by done. intros H. destruct (ai_admitted _ s Hi _ _ _ H) as (x & y & ca' & dr' & ? & ? & ?).
      exists x, y, ca', dr'. auto.
  - intros hl ca' Hca. rewrite Ep, Er. destruct (decide (hl = h)) as [->|Hne].
    + rewrite !lookup_insert_eq. split; [done|]. exists opl, dr. destruct (Eca _ _ Hca) as [Hold|(_ & -> & _)]; [|done].
      destruct (ai_local _ s Hi h ca' Hold) as [[x Hx] _]. congruence.
    + rewrite !lookup_insert_ne by done. destruct (Eca _ _ Hca) as [Hold|(? & _)]; [|done].
      destruct (ai_local _ s Hi hl ca' Hold) as (? & y & dr' & ? & ?). split; [done|]. exists y, dr'. auto.
  - intros h'. rewrite Ep, lookup_insert_is_Some. intros [<-|[_ H%(ai_handles _ s Hi)]]; lia.
Qed.

Lemma ac_after_inv ops : Z.of_nat (length ops) < 2 ^ 32 - 1 ->
  ac_inv ops (ac_after ops) /\ 0 <= permissions_handle_counter (ac_after ops) <= Z.of_nat (length ops).
Proof.
  induction ops as [|op ops IH] using rev_ind; intros Hlen; [split; [apply ac_inv_new|done]|].
  rewrite length_app in *. cbn in Hlen. destruct IH as [Hi Hc]; [lia|]. unfold ac_after in *. rewrite foldl_app. cbn.
  set (s := foldl _ _ ops) in *. split; [apply ac_step_inv; [done|lia]|].
  pose proof (ac_run_step ops op s Hi) as Hs. destruct (next_fresh ops s Hi ltac:(lia)) as [Hn _].
  destruct (ac_run op s) as [[h|e] s']; cbn in Hs |- *; [destruct Hs as (-> & -> & _); lia|subst; lia].
Qed.

(** C26: after any sequence of validations of local and remote participants - with
    whatever documents, tokens and clocks, successful or not - every participant
    that holds permissions was admitted by one of these validations: it is the
    subject of the identity certificate that this one was given, its permissions
    are those of the document this one was given, in which it had a grant valid at
    the time of the validation, signed with the key of the permissions CA that a
    local participant names in its QoS; and the governance rule it is held to is
    the first for the domain in a document of that participant, signed by the same
    CA.  A further success gives a new handle to a participant so admitted, and
    leaves what is behind the others as it is; a failure changes nothing. *)
Theorem permissions_verified ops op :
  Z.of_nat (length ops) < 2 ^ 32 - 1 ->
  let s := ac_after ops in
  (forall h name perms, domain_participant_permissions s !! h = Some (name, perms) ->
     exists op opl ca dr, op ∈ ops /\ opl ∈ ops /\ domain_rules s !! h = Some dr /\ admits op ca name perms /\ vouches opl ca dr) /\
  match ac_run op s with
  | (inr _, s') => s' = s
  | (inl h, s') =>
      domain_participant_permissions s !! h = None /\
      exists name perms opl ca dr,
        domain_participant_permissions s' = <[h := (name, perms)]> (domain_participant_permissions s) /\
        domain_rules s' = <[h := dr]> (domain_rules s) /\
        admits op ca name perms /\ opl ∈ op :: ops /\ vouches opl ca dr
  end.
Proof.
  intros Hlen s. destruct (ac_after_inv ops Hlen) as [Hi Hc]. fold s in Hi, Hc. split; [apply (ai_admitted _ s Hi)|].
  destruct (next_fresh ops s Hi ltac:(lia)) as [_ Hfree]. pose proof (ac_run_step ops op s Hi) as Hs.
  destruct (ac_run op s) as [[h|e] s']; [|exact Hs]. destruct Hs as (-> & _ & name & perms & opl & ca & dr & ? & ? & _ & ? & ? & ?).
  split; [done|]. by exists name, perms, opl, ca, dr.
Qed.
End theorems.

(** ** Runs of the model

    Globs without wildcards, names and certificates as strings; a signature is
    valid if it is the name of the signer; one grant for "talker", who may publish
    to "Square" in domain 0. *)

Definition demo_rule : list xml_RuleElement := [XDomains [XDomainId 0]; XPublish [XTopics ["Square"]]].
Definition demo_grant : list xml_GrantElement :=
  [XSubjectName "talker"; XValidity "0" "100"; XAllowRule demo_rule; XDefault Deny].
Definition demo_topic_rule (t : string) (read write : bool) : xml_TopicRule :=
  mkXTopicRule t false false read write Encrypt BasicEncrypt.
Definition demo_time (s : string) : Z + string :=
  if bool_decide (s = "0") then inl 0 else if bool_decide (s = "100") then inl 100 else inr "no time".

#[local] Instance demo_deps : AcDeps := {|
  Pattern := string;
  Pattern_new := inl;
  Pattern_matches g s := bool_decide (g = s);
  X509Name := string;
  X509Name_from_str := inl;
  X509Name_to_string s := s;
  parse_from_rfc3339 := demo_time;
  parse_naive_utc := demo_time;
  xml_permissions_from_str _ := inl [demo_grant];
  xml_governance_from_str _ :=
    inl [mkXDomainRule [XDomainIdRange None (Some 10)] false true NoProtection NoProtection NoProtection
           [demo_topic_rule "Square" true true; demo_topic_rule "Circle" false true]];
  X509 := string;
  X509_from_pem b := inl (bytes_string b);
  X509_subject_from_der := inl;
  verify_ecdsa_p256_sha256 c _ s := if bool_decide (s = string_bytes c) then inl tt else inr "forged";
  parse_mail b := inl [mkMailPart [120; 10] (inl []); mkMailPart [] (inl b)];
  unix2dos s := s;
  EncapsulatedContentInfo_from_der b :=
    inl (mkEncap SIGNED_DATA_OID
           (Some (inl [mkSignerInfo (Some ([mkAttribute MESSAGE_DIGEST_OID [inl [1]]], inl [])) ECDSA_WITH_SHA256_OID b])));
  sha256 _ := [1];
  from_utf8_lossy := bytes_string;
|}.

Definition demo_qos (signer : string) : option (list Property) :=
  Some [mkProperty QOS_PERMISSIONS_CERTIFICATE_PROPERTY_NAME "data:ca" false;
        mkProperty QOS_GOVERNANCE_DOCUMENT_PROPERTY_NAME "data:ca" false;
        mkProperty QOS_PERMISSIONS_DOCUMENT_PROPERTY_NAME ("data:" +:+ signer) false;
        mkProperty QOS_IDENTITY_CERTIFICATE_PROPERTY_NAME "data:talker" false].
Definition demo_local (now : Z) (signer : string) : AcOp := OpLocal (fun _ => inr "no file") now 7 0 (demo_qos signer).
Definition demo_remote (signer : string) : AcOp :=
  OpRemote 50 7 (mkDataHolder PERMISSIONS_TOKEN_CLASS_ID [] [])
    (mkDataHolder "" [] [mkBinaryProperty "c.id" (string_bytes "talker") true; mkBinaryProperty "c.perm" (string_bytes signer) true]).

Definition is_some {A} (o : option A) : bool := match o with Some _ => true | None => false end.

(** Admitted when the document is signed by the CA and the grant valid. *)
Example admission :
  (ac_run (demo_local 50 "ca") AccessControlBuiltin_new).1 = inl 1 /\
  (exists e, (ac_run (demo_local 50 "mallory") AccessControlBuiltin_new).1 = inr e) /\
  (exists e, (ac_run (demo_local 100 "ca") AccessControlBuiltin_new).1 = inr e) /\
  (ac_run (demo_remote "ca") (ac_after [demo_local 50 "ca"])).1 = inl 2 /\
  (exists e, (ac_run (demo_remote "mallory") (ac_after [demo_local 50 "ca"])).1 = inr e).
Proof. split_and!; first [by vm_compute|eexists; by vm_compute]. Qed.

Lemma permissions_verified_witness :
  exists name perms op ca,
    domain_participant_permissions (ac_after [demo_local 50 "ca"; demo_remote "ca"]) !! 2 = Some (name, perms) /\
    op ∈ [demo_local 50 "ca"; demo_remote "ca"] /\ admits op ca name perms.
Proof.
  destruct (permissions_verified [demo_local 50 "ca"; demo_remote "ca"] (demo_remote "mallory") ltac:(done)) as [H _].
  assert (is_some (domain_participant_permissions (ac_after [demo_local 50 "ca"; demo_remote "ca"]) !! 2) = true) as Hs
    by (vm_compute; reflexivity).
  destruct (domain_participant_permissions _ !! 2) as [[name perms]|] eqn:E; [|discriminate].
  destruct (H 2 name perms E) as (op & opl & ca & dr & Hop & _ & _ & Ha & _). by exists name, perms, op, ca.
Defined.

Definition demo_ac : AccessControlBuiltin := ac_after [demo_local 50 "ca"].

(** The talker may write "Square", but not read it; "Circle" is open for reading;
    after the end of the validity nothing is allowed any more. *)
Example decisions :
  check_create_datawriter 60 demo_ac 1 0 "Square" = inl true /\
  check_create_datareader 60 demo_ac 1 0 "Square" = inl false /\
  check_create_datareader 60 demo_ac 1 0 "Circle" = inl true /\
  check_create_datawriter 60 demo_ac 1 1 "Square" = inl false /\
  (exists e, check_create_datawriter 100 demo_ac 1 0 "Square" = inr e) /\
  check_create_datawriter 100 demo_ac 1 0 "DCPSTopic" = inl true.
Proof. split_and!; first [by vm_compute|eexists; by vm_compute]. Qed.

(** What [permissions_wf] asks, computed. *)
Definition demo_wf (perms : DomainParticipantPermissions) : bool :=
  forallb (fun g => forallb (fun r => negb (bool_decide (length (domains r) = 0%nat)) &&
    forallb (fun c => negb (bool_decide (length (c_topics c) = 0%nat))) (publish r ++ subscribe r ++ relay r)) (rules g)) (grants perms).

Lemma demo_wf_ok perms : demo_wf perms = true -> permissions_wf [] perms.
Proof.
  intros H g r Hg Hr. unfold demo_wf in H. rewrite forallb_elem in H. specialize (H g Hg). rewrite forallb_elem in H.
  specialize (H r Hr). apply andb_true_iff in H as [Hd%negb_true_iff%bool_decide_eq_false Hc]. split; [by destruct (domains r)|].
  rewrite forallb_elem in Hc. apply Forall_forall. intros c Hin. specialize (Hc c Hin).
  apply negb_true_iff, bool_decide_eq_false in Hc. split; [by destruct (c_topics c)|set_solver].
Qed.

Lemma access_decided_witness : exists name perms dr,
  domain_participant_permissions demo_ac !! 1 = Some (name, perms) /\ domain_rules demo_ac !! 1 = Some dr /\
  forall g, first_of (valid_grant name 60) (grants perms) g -> entitled dr g EntDatawriter 0 "Square" [] [].
Proof.
  assert ((match domain_participant_permissions demo_ac !! 1 with Some x => demo_wf x.2 | None => false end)
    && is_some (domain_rules demo_ac !! 1) = true) as Hs by (vm_compute; reflexivity).
  destruct (domain_participant_permissions demo_ac !! 1) as [[name perms]|] eqn:Ep; [|discriminate].
  destruct (domain_rules demo_ac !! 1) as [dr|] eqn:Ed; [|by rewrite andb_false_r in Hs].
  rewrite andb_true_r in Hs. cbn in Hs. apply demo_wf_ok in Hs.
  exists name, perms, dr. split; [done|]. split; [done|]. intros g Hg.
  destruct (access_decided 60 demo_ac 1 0 "Square" [] [] EntDatawriter name perms dr Ep Ed Hs) as [_ H].
  destruct H as [_ H]; [apply (bool_decide_unpack _); vm_compute; reflexivity|]. destruct (H g Hg) as (b & Hb & Hiff). apply Hiff.
  assert (check_entity 60 demo_ac 1 0 "Square" [] [] EntDatawriter = inl true) as E by (vm_compute; reflexivity).
  rewrite E in Hb. by injection Hb.
Defined.

(** A rule without domains, which the comments say cannot be, is accepted, and
    never applies. *)
Lemma empty_domains_accepted :
  exists r, Rule_from_xml (XAllowRule [XDomains []; XPublish [XTopics ["Square"]]]) = inl r /\ domains r = [] /\
    forall a d t ps ts, Rule_is_applicable r a d t ps ts = false.
Proof. eexists. split; [by vm_compute|]. split; [done|]. by intros. Qed.

(** A criterion without partitions does not cover the default partition, the empty
    string, though the comments say that only this one matches. *)
Lemma default_partition_not_covered c topic ts : c_partitions c = [] -> Criterion_is_applicable c topic [""] ts = false.
Proof. intros Hc. unfold Criterion_is_applicable. rewrite Hc. cbn. by rewrite andb_false_r. Qed.
