(* ===== verification/CryptoKeys.v ===== *)
(** * Keys of the built-in cryptographic plugin

    [src/security/cryptographic/types.rs], and under [cryptographic_builtin/]:
    [builtin_key.rs], [types.rs], [key_material.rs], [aes_gcm_gmac.rs].

    The cipher, the hashes (crate [ring]) and the CDR serializer (crate
    [cdr_encoding]) are third-party: they are the members of [CryptoDeps], and
    [CryptoLaws] is what their documentation promises.  Random numbers are
    arguments. *)

From stdpp Require Import pretty strings.
From S2P Require Import Prelude BTree Wire SecurityTypes.
Local Open Scope string_scope.
Local Open Scope list_scope.
Local Open Scope Z_scope.

(** [?] inside code that may panic or has state *)
Definition try_bind {M : Type -> Type} `{MRet M, MBind M} {A B} (m : M (SecurityResult A)) (f : A -> M (SecurityResult B))
  : M (SecurityResult B) :=
  r ← m; match r with inl a => f a | inr e => mret (inr e) end.
Notation "x ←? m ; k" := (try_bind m (fun x => k)) (at level 20, m at level 100, k at level 200, only parsing).

(** ** Keys *)

Inductive BuiltinKey := KeyNone | KeyAES128 (k : bytes) | KeyAES256 (k : bytes).
Inductive KeyLength := KLNone | KLAES128 | KLAES256.

#[export] Instance BuiltinKey_eq_dec : EqDecision BuiltinKey.
Proof. solve_decision. Defined.

Definition AES128_KEY_LENGTH : nat := 16.
Definition AES256_KEY_LENGTH : nat := 32.

Definition BuiltinKey_as_bytes (k : BuiltinKey) : bytes := match k with KeyNone => [] | KeyAES128 d | KeyAES256 d => d end.
Definition BuiltinKey_from_bytes (len : KeyLength) (b : bytes) : SecurityResult BuiltinKey :=
  match len with
  | KLNone => sec_ok KeyNone
  | KLAES128 => if (AES128_KEY_LENGTH <=? length b)%nat then sec_ok (KeyAES128 (take AES128_KEY_LENGTH b))
                else sec_err "BuiltinKey: source material too short."
  | KLAES256 => if (AES256_KEY_LENGTH <=? length b)%nat then sec_ok (KeyAES256 (take AES256_KEY_LENGTH b))
                else sec_err "BuiltinKey: source material too short."
  end.
Definition BuiltinKey_key_length (k : BuiltinKey) : KeyLength :=
  match k with KeyNone => KLNone | KeyAES128 _ => KLAES128 | KeyAES256 _ => KLAES256 end.

(** [generate_random]; the random array is an argument. *)
Definition generate_random (rand128 rand256 : bytes) (key_len : KeyLength) : BuiltinKey :=
  match key_len with KLNone => KeyNone | KLAES128 => KeyAES128 rand128 | KLAES256 => KeyAES256 rand256 end.

(** The arrays have the length their type says. *)
Definition key_ok (k : BuiltinKey) : Prop :=
  match k with
  | KeyNone => True
  | KeyAES128 d => length d = AES128_KEY_LENGTH
  | KeyAES256 d => length d = AES256_KEY_LENGTH
  end.

(** ** Transformation kinds and key ids *)

Inductive BuiltinCryptoTransformationKind :=
| CRYPTO_TRANSFORMATION_KIND_NONE
| CRYPTO_TRANSFORMATION_KIND_AES128_GMAC
| CRYPTO_TRANSFORMATION_KIND_AES128_GCM
| CRYPTO_TRANSFORMATION_KIND_AES256_GMAC
| CRYPTO_TRANSFORMATION_KIND_AES256_GCM.

#[export] Instance Kind_eq_dec : EqDecision BuiltinCryptoTransformationKind.
Proof. solve_decision. Defined.

(** [CryptoTransformKind] and [CryptoTransformKeyId]: four bytes *)
Definition Kind_try_from (value : bytes) : SecurityResult BuiltinCryptoTransformationKind :=
  if bool_decide (value = [0; 0; 0; 0]) then sec_ok CRYPTO_TRANSFORMATION_KIND_NONE
  else if bool_decide (value = [0; 0; 0; 1]) then sec_ok CRYPTO_TRANSFORMATION_KIND_AES128_GMAC
  else if bool_decide (value = [0; 0; 0; 2]) then sec_ok CRYPTO_TRANSFORMATION_KIND_AES128_GCM
  else if bool_decide (value = [0; 0; 0; 3]) then sec_ok CRYPTO_TRANSFORMATION_KIND_AES256_GMAC
  else if bool_decide (value = [0; 0; 0; 4]) then sec_ok CRYPTO_TRANSFORMATION_KIND_AES256_GCM
  else sec_err "Invalid CryptoTransformKind".
Definition Kind_into (k : BuiltinCryptoTransformationKind) : bytes :=
  match k with
  | CRYPTO_TRANSFORMATION_KIND_NONE => [0; 0; 0; 0]
  | CRYPTO_TRANSFORMATION_KIND_AES128_GMAC => [0; 0; 0; 1]
  | CRYPTO_TRANSFORMATION_KIND_AES128_GCM => [0; 0; 0; 2]
  | CRYPTO_TRANSFORMATION_KIND_AES256_GMAC => [0; 0; 0; 3]
  | CRYPTO_TRANSFORMATION_KIND_AES256_GCM => [0; 0; 0; 4]
  end.

Definition KeyLength_from (k : BuiltinCryptoTransformationKind) : KeyLength :=
  match k with
  | CRYPTO_TRANSFORMATION_KIND_NONE => KLNone
  | CRYPTO_TRANSFORMATION_KIND_AES128_GMAC | CRYPTO_TRANSFORMATION_KIND_AES128_GCM => KLAES128
  | CRYPTO_TRANSFORMATION_KIND_AES256_GMAC | CRYPTO_TRANSFORMATION_KIND_AES256_GCM => KLAES256
  end.

Definition KeyId_ZERO : bytes := [0; 0; 0; 0].
Definition KeyId_is_zero (id : bytes) : bool := bool_decide (id = KeyId_ZERO).

(** ** Key material *)

Record KeyMaterial_AES_GCM_GMAC := mkKeyMaterial {
  transformation_kind : BuiltinCryptoTransformationKind;
  master_salt : BuiltinKey;
  sender_key_id : bytes;
  master_sender_key : BuiltinKey;
  receiver_specific_key_id : bytes;
  master_receiver_specific_key : BuiltinKey;
}.
#[export] Instance KeyMaterial_eq_dec : EqDecision KeyMaterial_AES_GCM_GMAC.
Proof. solve_decision. Defined.

Inductive KeyMaterial_AES_GCM_GMAC_seq :=
| KmOne (k : KeyMaterial_AES_GCM_GMAC)
| KmTwo (k payload : KeyMaterial_AES_GCM_GMAC).
Inductive KeyMaterialScope := MessageOrSubmessage | PayloadOnly.

Definition km_select (ks : KeyMaterial_AES_GCM_GMAC_seq) (scope : KeyMaterialScope) : KeyMaterial_AES_GCM_GMAC :=
  match ks, scope with
  | KmOne k, _ => k
  | KmTwo k _, MessageOrSubmessage => k
  | KmTwo _ p, PayloadOnly => p
  end.
Definition key_material (ks : KeyMaterial_AES_GCM_GMAC_seq) : KeyMaterial_AES_GCM_GMAC := match ks with KmOne k | KmTwo k _ => k end.
Definition modify_key_material (ks : KeyMaterial_AES_GCM_GMAC_seq) (f : KeyMaterial_AES_GCM_GMAC -> KeyMaterial_AES_GCM_GMAC)
  : KeyMaterial_AES_GCM_GMAC_seq :=
  match ks with KmOne k => KmOne (f k) | KmTwo k p => KmTwo (f k) p end.
Definition add_master_receiver_specific_key (ks : KeyMaterial_AES_GCM_GMAC_seq) (id : bytes) (key : BuiltinKey)
  : KeyMaterial_AES_GCM_GMAC_seq :=
  modify_key_material ks (fun k => mkKeyMaterial (transformation_kind k) (master_salt k) (sender_key_id k) (master_sender_key k) id key).

Definition km_seq_try_from (l : list KeyMaterial_AES_GCM_GMAC) : SecurityResult KeyMaterial_AES_GCM_GMAC_seq :=
  match l with
  | [k] => sec_ok (KmOne k)
  | [k; p] => sec_ok (KmTwo k p)
  | _ => sec_err ("Expected 1 or 2 key materials in KeyMaterial_AES_GCM_GMAC_seq, received " +:+ pretty (Z.of_nat (length l)))
  end.
Definition km_seq_into (ks : KeyMaterial_AES_GCM_GMAC_seq) : list KeyMaterial_AES_GCM_GMAC :=
  match ks with KmOne k => [k] | KmTwo k p => [k; p] end.

Record ReceiverSpecificKeyMaterial := mkRSKM { rs_key_id : bytes; rs_key : BuiltinKey }.

(** The first part of [self] must be that of the common material. *)
Definition receiver_key_material_for (self common : KeyMaterial_AES_GCM_GMAC) : SecurityResult ReceiverSpecificKeyMaterial :=
  if negb (bool_decide (sender_key_id self = sender_key_id common))
  then sec_err "The receiver-specific key material has a wrong sender_key_id"
  else if negb (bool_decide (transformation_kind self = transformation_kind common))
  then sec_err "The receiver-specific key material has a wrong transformation_kind"
  else if negb (bool_decide (master_sender_key self = master_sender_key common))
  then sec_err "The receiver-specific key has a wrong master_sender_key"
  else if negb (bool_decide (master_salt self = master_salt common))
  then sec_err "The receiver-specific key has a wrong master_salt"
  else sec_ok (mkRSKM (receiver_specific_key_id self) (master_receiver_specific_key self)).

(** What is sent in a token *)
Record Serializable_KeyMaterial := mkSKM {
  skm_transformation_kind : bytes;
  skm_master_salt : bytes;
  skm_sender_key_id : bytes;
  skm_master_sender_key : bytes;
  skm_receiver_specific_key_id : bytes;
  skm_master_receiver_specific_key : bytes;
}.

Definition KeyMaterial_try_from_serializable (m : Serializable_KeyMaterial) : SecurityResult KeyMaterial_AES_GCM_GMAC :=
  kind ← Kind_try_from (skm_transformation_kind m);
  let key_length := KeyLength_from kind in
  receiver_key ← (if bool_decide (skm_receiver_specific_key_id m = KeyId_ZERO) then sec_ok KeyNone
                  else BuiltinKey_from_bytes key_length (skm_master_receiver_specific_key m));
  salt ← BuiltinKey_from_bytes key_length (skm_master_salt m);
  key ← BuiltinKey_from_bytes key_length (skm_master_sender_key m);
  sec_ok (mkKeyMaterial kind salt (skm_sender_key_id m) key (skm_receiver_specific_key_id m) receiver_key).

Definition Serializable_from (k : KeyMaterial_AES_GCM_GMAC) : Serializable_KeyMaterial :=
  mkSKM (Kind_into (transformation_kind k)) (BuiltinKey_as_bytes (master_salt k)) (sender_key_id k)
    (BuiltinKey_as_bytes (master_sender_key k)) (receiver_specific_key_id k) (BuiltinKey_as_bytes (master_receiver_specific_key k)).

(** ** Message authentication codes *)

Definition MAC_LENGTH : nat := 16.
Record ReceiverSpecificMAC := mkRSMac { receiver_mac_key_id : bytes; receiver_mac : bytes }.
Record BuiltinCryptoFooter := mkFooter { common_mac : bytes; receiver_specific_macs : list ReceiverSpecificMAC }.
Definition only_common_mac (m : bytes) : BuiltinCryptoFooter := mkFooter m [].
Definition minimal_serialized_len : nat := (MAC_LENGTH + 4)%nat.

(** ** Third-party code *)

Class CryptoDeps := {
  (** AES-GCM with a 16 or 32 byte key: key, IV, additional data, plain text *)
  gcm_seal : bytes -> bytes -> bytes -> bytes -> option (bytes * bytes);
  (** key, IV, additional data, cipher text followed by the tag *)
  gcm_open : bytes -> bytes -> bytes -> bytes -> option bytes;
  hmac_sha256 : bytes -> bytes -> bytes;
  crypto_sha256 : bytes -> bytes;
  footer_to_vec : BuiltinCryptoFooter -> bytes + string;
  footer_from_bytes : bytes -> BuiltinCryptoFooter + string;
  keymat_to_vec : Serializable_KeyMaterial -> bytes + string;
  keymat_from_bytes : bytes -> Serializable_KeyMaterial + string;
}.

Definition footer_ok (f : BuiltinCryptoFooter) : Prop :=
  length (common_mac f) = MAC_LENGTH /\ Z.of_nat (length (receiver_specific_macs f)) < 2 ^ 32 /\
  Forall (fun m => length (receiver_mac_key_id m) = 4%nat /\ length (receiver_mac m) = MAC_LENGTH) (receiver_specific_macs f).
Definition keymat_ok (m : Serializable_KeyMaterial) : Prop :=
  length (skm_transformation_kind m) = 4%nat /\ length (skm_sender_key_id m) = 4%nat /\
  length (skm_receiver_specific_key_id m) = 4%nat /\ (length (skm_master_salt m) <= 32)%nat /\
  (length (skm_master_sender_key m) <= 32)%nat /\ (length (skm_master_receiver_specific_key m) <= 32)%nat.

(** Sealing works for texts that are not too long, produces a text of the same
    length and a tag, and opening what was sealed gives it back; HMAC-SHA256 has
    256 bits; CDR gives back what was serialized, and a footer is the MAC, the
    length of the sequence, and 20 bytes for each receiver-specific MAC. *)
Class CryptoLaws (C : CryptoDeps) : Prop := {
  seal_works key iv aad p :
    (length key = 16 \/ length key = 32)%nat -> length iv = 12%nat -> Z.of_nat (length p) < 2 ^ 32 ->
    exists c t, gcm_seal key iv aad p = Some (c, t) /\ length c = length p /\ length t = MAC_LENGTH /\
      gcm_open key iv aad (c ++ t) = Some p;
  hmac_length k d : length (hmac_sha256 k d) = 32%nat;
  footer_roundtrip f : footer_ok f -> exists b, footer_to_vec f = inl b /\ footer_from_bytes b = inl f;
  footer_length f b : footer_ok f -> footer_to_vec f = inl b ->
    length b = (minimal_serialized_len + length (receiver_specific_macs f) * (4 + MAC_LENGTH))%nat;
  keymat_roundtrip m : keymat_ok m -> exists b, keymat_to_vec m = inl b /\ keymat_from_bytes b = inl m;
}.

Section crypto.
Context `{CD : CryptoDeps}.

(** ** Tokens *)

Definition CRYPTO_TOKEN_CLASS_ID : string := "DDS:Crypto:AES_GCM_GMAC".
Definition CRYPTO_TOKEN_KEY_MATERIAL_NAME : string := "dds.cryp.keymat".

Definition KeyMaterial_try_from_bytes (b : bytes) : SecurityResult KeyMaterial_AES_GCM_GMAC :=
  match keymat_from_bytes b with
  | inl m => KeyMaterial_try_from_serializable m
  | inr e => sec_err ("Error deserializing KeyMaterial_AES_GCM_GMAC: " +:+ e)
  end.
Definition KeyMaterial_to_bytes (k : KeyMaterial_AES_GCM_GMAC) : SecurityResult bytes :=
  match keymat_to_vec (Serializable_from k) with
  | inl b => sec_ok b
  | inr e => sec_err ("Error serializing KeyMaterial_AES_GCM_GMAC: " +:+ e)
  end.

(** A [CryptoToken] is its data holder. *)
Definition BuiltinCryptoToken_try_from (dh : DataHolder) : SecurityResult KeyMaterial_AES_GCM_GMAC :=
  if bool_decide (class_id dh = CRYPTO_TOKEN_CLASS_ID) then
    match properties dh, binary_properties dh with
    | [], [bp0] =>
        if bool_decide (bp_name bp0 = CRYPTO_TOKEN_KEY_MATERIAL_NAME) then KeyMaterial_try_from_bytes (bp_value bp0)
        else sec_err "The binary property of CryptoToken has the wrong name."
    | [], _ => sec_err "CryptoToken has wrong binary_properties. Expected exactly 1 binary property."
    | _, _ => sec_err "CryptoToken has wrong properties. Expected properties to be empty."
    end
  else sec_err "CryptoToken has wrong class_id.".
Definition CryptoToken_try_from (k : KeyMaterial_AES_GCM_GMAC) : SecurityResult DataHolder :=
  b ← KeyMaterial_to_bytes k;
  sec_ok (mkDataHolder CRYPTO_TOKEN_CLASS_ID [] [mkBinaryProperty CRYPTO_TOKEN_KEY_MATERIAL_NAME b true]).

Definition km_seq_from_tokens (tokens : list DataHolder) : SecurityResult KeyMaterial_AES_GCM_GMAC_seq :=
  l ← (collect BuiltinCryptoToken_try_from tokens : SecurityResult _); km_seq_try_from l.
Definition km_seq_to_tokens (ks : KeyMaterial_AES_GCM_GMAC_seq) : SecurityResult (list DataHolder) :=
  collect CryptoToken_try_from (km_seq_into ks).

(** ** AES-GCM *)

Definition NO_RING : string :=
  "The ring crypto library gives 'Unspecified' error. That's all we are authorized to know. Sorry.".

(** [to_unbound_AES_GCM_key]: the key bytes; [UnboundKey::new] panics if the length
    is not that of the algorithm. *)
Definition to_unbound_AES_GCM_key (key : BuiltinKey) : outcome (SecurityResult bytes) :=
  match key with
  | KeyNone => Ret (sec_err "Attempted to call a cryptographic function with an empty key.")
  | KeyAES128 k => _ ← rust_assert (length k =? 16)%nat "called Result::unwrap() on an Err value"; Ret (sec_ok k)
  | KeyAES256 k => _ ← rust_assert (length k =? 32)%nat "called Result::unwrap() on an Err value"; Ret (sec_ok k)
  end.

(** [tag.as_ref().try_into().unwrap()] *)
Definition to_builtin_mac (tag : bytes) : outcome bytes :=
  _ ← rust_assert (length tag =? MAC_LENGTH)%nat "called Result::unwrap() on an Err value"; Ret tag.

Definition compute_mac (key : BuiltinKey) (iv data : bytes) : outcome (SecurityResult bytes) :=
  k ←? to_unbound_AES_GCM_key key;
  match gcm_seal k iv data [] with
  | None => Ret (sec_err NO_RING)
  | Some (_, tag) => m ← to_builtin_mac tag; Ret (sec_ok m)
  end.

Definition encrypt (key : BuiltinKey) (iv plaintext : bytes) : outcome (SecurityResult (bytes * bytes)) :=
  k ←? to_unbound_AES_GCM_key key;
  match gcm_seal k iv [] plaintext with
  | None => Ret (sec_err NO_RING)
  | Some (c, tag) => m ← to_builtin_mac tag; Ret (sec_ok (c, m))
  end.

Definition validate_mac (key : BuiltinKey) (iv data mac : bytes) : outcome (SecurityResult unit) :=
  k ←? to_unbound_AES_GCM_key key;
  match gcm_open k iv data mac with None => Ret (sec_err NO_RING) | Some _ => Ret (sec_ok tt) end.

Definition decrypt (key : BuiltinKey) (iv ciphertext mac : bytes) : outcome (SecurityResult bytes) :=
  k ←? to_unbound_AES_GCM_key key;
  match gcm_open k iv [] (ciphertext ++ mac) with None => Ret (sec_err NO_RING) | Some p => Ret (sec_ok p) end.

(** ** Session keys *)

Definition SESSION_KEY_PREFIX (receiver_specific : bool) : bytes :=
  string_bytes (if receiver_specific then "SessionReceiverKey" else "SessionKey").

(** The first four bytes of an initialization vector are the session id. *)
Definition iv_session_id (iv : bytes) : bytes := take 4 iv.

Definition compute_session_key (receiver_specific : bool) (master_key master_salt : BuiltinKey) (iv : bytes) : outcome BuiltinKey :=
  match master_key with
  | KeyNone => Ret KeyNone
  | _ =>
      let digest := hmac_sha256 (BuiltinKey_as_bytes master_key)
                      (SESSION_KEY_PREFIX receiver_specific ++ BuiltinKey_as_bytes master_salt ++ iv_session_id iv) in
      match BuiltinKey_from_bytes (BuiltinKey_key_length master_key) digest with
      | inl k => Ret k
      | inr _ => Panic "called Result::unwrap() on an Err value"
      end
  end.
End crypto.
