(* ===== verification/Crypto.v ===== *)
(** * The built-in cryptographic plugin

    [src/security/cryptographic/cryptographic_builtin.rs] and under it
    [crypto_key_factory.rs] and [crypto_key_exchange.rs]; encoding and decoding
    are in [CryptoTransform.v] and [CryptoMessage.v].

    The state of the plugin is a record; registration is an [act] on it that may
    fail.  Random numbers are arguments, and a
    search for an unused key id goes through a list of candidates. *)

From stdpp Require Import pretty strings.
From S2P Require Import Prelude BTree Wire SecurityTypes CryptoKeys.
Local Open Scope string_scope.
Local Open Scope list_scope.
Local Open Scope Z_scope.

Inductive CommonEncodeKeyMaterials := CekmSome (ks : KeyMaterial_AES_GCM_GMAC_seq) | CekmVolatile (use_256_bit_key : bool).

Inductive EndpointKind := EkDataReader | EkDataWriter.
Definition EndpointKind_opposite (k : EndpointKind) : EndpointKind :=
  match k with EkDataReader => EkDataWriter | EkDataWriter => EkDataReader end.
Record EndpointInfo := mkEndpointInfo { ei_crypto_handle : Z; ei_kind : EndpointKind }.

#[export] Instance EndpointKind_eq_dec : EqDecision EndpointKind.
Proof. solve_decision. Defined.
#[export] Instance EndpointInfo_eq_dec : EqDecision EndpointInfo.
Proof. solve_decision. Defined.
#[export] Instance EndpointInfo_countable : Countable EndpointInfo.
Proof.
  refine (inj_countable' (fun e => (ei_crypto_handle e, match ei_kind e with EkDataReader => true | EkDataWriter => false end))
    (fun p => mkEndpointInfo p.1 (if p.2 : bool then EkDataReader else EkDataWriter)) _).
  abstract (by intros [? []]).
Defined.

Record CryptographicBuiltin := mkCB {
  common_encode_key_materials : gmap Z CommonEncodeKeyMaterials;
  receiver_specific_encode_key_materials : gmap Z KeyMaterial_AES_GCM_GMAC_seq;
  decode_key_materials : gmap Z KeyMaterial_AES_GCM_GMAC_seq;
  participant_encrypt_options : gmap Z ParticipantSecurityAttributes;
  endpoint_encrypt_options : gmap Z EndpointSecurityAttributes;
  participant_to_endpoint_info : gmap Z (gset EndpointInfo);
  endpoint_to_participant : gmap Z Z;
  used_local_key_ids : gset bytes;
  matched_remote_endpoint : gmap Z (gmap Z Z);
  matched_local_endpoint : gmap Z Z;
  crypto_handle_counter : Z;
}.
Definition CryptographicBuiltin_new : CryptographicBuiltin := mkCB ∅ ∅ ∅ ∅ ∅ ∅ ∅ {[KeyId_ZERO]} ∅ ∅ 0.

Definition cb_set_common s m := mkCB m (receiver_specific_encode_key_materials s) (decode_key_materials s)
  (participant_encrypt_options s) (endpoint_encrypt_options s) (participant_to_endpoint_info s) (endpoint_to_participant s)
  (used_local_key_ids s) (matched_remote_endpoint s) (matched_local_endpoint s) (crypto_handle_counter s).
Definition cb_set_receiver s m := mkCB (common_encode_key_materials s) m (decode_key_materials s)
  (participant_encrypt_options s) (endpoint_encrypt_options s) (participant_to_endpoint_info s) (endpoint_to_participant s)
  (used_local_key_ids s) (matched_remote_endpoint s) (matched_local_endpoint s) (crypto_handle_counter s).
Definition cb_set_decode s m := mkCB (common_encode_key_materials s) (receiver_specific_encode_key_materials s) m
  (participant_encrypt_options s) (endpoint_encrypt_options s) (participant_to_endpoint_info s) (endpoint_to_participant s)
  (used_local_key_ids s) (matched_remote_endpoint s) (matched_local_endpoint s) (crypto_handle_counter s).
Definition cb_set_options s p e := mkCB (common_encode_key_materials s) (receiver_specific_encode_key_materials s)
  (decode_key_materials s) p e (participant_to_endpoint_info s) (endpoint_to_participant s)
  (used_local_key_ids s) (matched_remote_endpoint s) (matched_local_endpoint s) (crypto_handle_counter s).
Definition cb_set_endpoints s p e := mkCB (common_encode_key_materials s) (receiver_specific_encode_key_materials s)
  (decode_key_materials s) (participant_encrypt_options s) (endpoint_encrypt_options s) p e
  (used_local_key_ids s) (matched_remote_endpoint s) (matched_local_endpoint s) (crypto_handle_counter s).
Definition cb_set_matched s r l := mkCB (common_encode_key_materials s) (receiver_specific_encode_key_materials s)
  (decode_key_materials s) (participant_encrypt_options s) (endpoint_encrypt_options s) (participant_to_endpoint_info s)
  (endpoint_to_participant s) (used_local_key_ids s) r l (crypto_handle_counter s).
Definition cb_set_counter s c := mkCB (common_encode_key_materials s) (receiver_specific_encode_key_materials s)
  (decode_key_materials s) (participant_encrypt_options s) (endpoint_encrypt_options s) (participant_to_endpoint_info s)
  (endpoint_to_participant s) (used_local_key_ids s) (matched_remote_endpoint s) (matched_local_endpoint s) c.

(** Operations on the plugin; nothing leaves it but the result. *)
Abbreviation CB := (act CryptographicBuiltin Empty_set).

(** ** Tables *)

Section tables.
Implicit Types (h : Z) (s : CryptographicBuiltin).

(** [HashMap::insert], and the old value put back if there was one *)
Definition insert_new {V} (m : gmap Z V) h (v : V) : gmap Z V * bool :=
  match m !! h with
  | None => (<[h := v]> m, true)
  | Some old => (<[h := old]> (<[h := v]> m), false)
  end.

Definition insert_common_encode_key_materials h (ks : CommonEncodeKeyMaterials) : CB (SecurityResult unit) :=
  s ← get_st;
  let '(m, new) := insert_new (common_encode_key_materials s) h ks in
  _ ← modify_st (fun s => cb_set_common s m);
  mret (if new then sec_ok tt
        else sec_err ("The CryptoHandle " +:+ pretty h +:+ " was already associated with common encode key materials")).
Definition insert_receiver_specific_encode_key_materials h (ks : KeyMaterial_AES_GCM_GMAC_seq) : CB (SecurityResult unit) :=
  s ← get_st;
  let '(m, new) := insert_new (receiver_specific_encode_key_materials s) h ks in
  _ ← modify_st (fun s => cb_set_receiver s m);
  mret (if new then sec_ok tt
        else sec_err ("The CryptoHandle " +:+ pretty h +:+ " was already associated with receiver-specific encode key materials")).
Definition insert_decode_key_materials h (ks : KeyMaterial_AES_GCM_GMAC_seq) : CB (SecurityResult unit) :=
  s ← get_st;
  let '(m, new) := insert_new (decode_key_materials s) h ks in
  _ ← modify_st (fun s => cb_set_decode s m);
  mret (if new then sec_ok tt
        else sec_err ("The CryptoHandle " +:+ pretty h +:+ " was already associated with decode key material")).
Definition insert_participant_attributes h (a : ParticipantSecurityAttributes) : CB (SecurityResult unit) :=
  s ← get_st;
  let '(m, new) := insert_new (participant_encrypt_options s) h a in
  _ ← modify_st (fun s => cb_set_options s m (endpoint_encrypt_options s));
  mret (if new then sec_ok tt
        else sec_err ("The ParticipantCryptoHandle " +:+ pretty h +:+ " was already associated with security attributes")).
Definition insert_endpoint_attributes h (a : EndpointSecurityAttributes) : CB (SecurityResult unit) :=
  s ← get_st;
  let '(m, new) := insert_new (endpoint_encrypt_options s) h a in
  _ ← modify_st (fun s => cb_set_options s (participant_encrypt_options s) m);
  mret (if new then sec_ok tt
        else sec_err ("The EndpointCryptoHandle " +:+ pretty h +:+ " was already associated with security attributes")).

Definition insert_endpoint_info h (info : EndpointInfo) : CB unit :=
  modify_st (fun s =>
    cb_set_endpoints s
      match participant_to_endpoint_info s !! h with
      | Some endpoint_set => <[h := {[info]} ∪ endpoint_set]> (participant_to_endpoint_info s)
      | None => <[h := {[info]}]> (participant_to_endpoint_info s)
      end (endpoint_to_participant s)).

Definition get_common_encode_key_materials s h : SecurityResult CommonEncodeKeyMaterials :=
  ok_or (common_encode_key_materials s !! h) ("Could not find common encode key materials for the CryptoHandle " +:+ pretty h).
Definition get_receiver_specific_encode_key_materials s h : SecurityResult KeyMaterial_AES_GCM_GMAC_seq :=
  ok_or (receiver_specific_encode_key_materials s !! h)
    ("Could not find receiver-specific encode key materials for the CryptoHandle " +:+ pretty h).
(** Only if it is the key that the sender has used. *)
Definition get_decode_key_material s h (key_id : bytes) (scope : KeyMaterialScope) : option KeyMaterial_AES_GCM_GMAC :=
  ks ← decode_key_materials s !! h;
  let k := km_select ks scope in
  if bool_decide (sender_key_id k = key_id) then Some k else None.
End tables.

(** ** Key factory *)

(** What [rand] gives while a key material is made *)
Record Rand := mkRand { rnd_salt128 : bytes; rnd_salt256 : bytes; rnd_key128 : bytes; rnd_key256 : bytes; rnd_ids : list bytes }.
Definition rand_ok (r : Rand) : Prop :=
  length (rnd_salt128 r) = AES128_KEY_LENGTH /\ length (rnd_key128 r) = AES128_KEY_LENGTH /\
  length (rnd_salt256 r) = AES256_KEY_LENGTH /\ length (rnd_key256 r) = AES256_KEY_LENGTH /\
  Forall (fun i => length i = 4%nat) (rnd_ids r).

Record SharedSecretHandle := mkSharedSecret { shared_secret : bytes; challenge1 : bytes; challenge2 : bytes }.

Section factory.
Context `{CD : CryptoDeps}.
Implicit Types (h : Z) (s : CryptographicBuiltin).

Definition generate_crypto_handle : CB Z :=
  _ ← modify_st (fun s => cb_set_counter s (u32 (crypto_handle_counter s + 1)));
  s ← get_st; mret (crypto_handle_counter s).

Definition get_or_generate_matched_remote_endpoint_crypto_handle (remote_participant local_endpoint : Z) : CB Z :=
  s ← get_st;
  match matched_remote_endpoint s !! local_endpoint ≫= (fun m => m !! remote_participant) with
  | Some h => mret h
  | None =>
      h ← generate_crypto_handle;
      _ ← modify_st (fun s => cb_set_endpoints s (participant_to_endpoint_info s)
                                (<[h := remote_participant]> (endpoint_to_participant s)));
      _ ← modify_st (fun s =>
            cb_set_matched s
              match matched_remote_endpoint s !! local_endpoint with
              | Some m => <[local_endpoint := <[remote_participant := h]> m]> (matched_remote_endpoint s)
              | None => <[local_endpoint := {[remote_participant := h]}]> (matched_remote_endpoint s)
              end (<[h := local_endpoint]> (matched_local_endpoint s)));
      mret h
  end.

Definition VOLATILE_ENDPOINT_RECOGNITION_PROPERTY_NAME : string := "dds.sec.builtin_endpoint_name".
Definition VOLATILE_WRITER_RECOGNITION_PROPERTY_VALUE : string := "BuiltinParticipantVolatileMessageSecureWriter".
Definition VOLATILE_READER_RECOGNITION_PROPERTY_VALUE : string := "BuiltinParticipantVolatileMessageSecureReader".

Definition CryptographicBuiltin_is_volatile (properties : list Property) : bool :=
  match list_find (fun p => p_name p = VOLATILE_ENDPOINT_RECOGNITION_PROPERTY_NAME) properties with
  | Some (_, p) => bool_decide (p_value p = VOLATILE_WRITER_RECOGNITION_PROPERTY_VALUE)
                   || bool_decide (p_value p = VOLATILE_READER_RECOGNITION_PROPERTY_VALUE)
  | None => false
  end.
Definition use_256_bit_key (properties : list Property) : bool :=
  match list_find (fun p => p_name p = "dds.sec.crypto.keysize") properties with
  | Some (_, p) => negb (bool_decide (p_value p = "128"))
  | None => true
  end.
Definition transformation_kind_for (is_protected is_encrypted use_256_bit_key : bool) : BuiltinCryptoTransformationKind :=
  match is_protected, is_encrypted, use_256_bit_key with
  | false, _, _ => CRYPTO_TRANSFORMATION_KIND_NONE
  | true, false, false => CRYPTO_TRANSFORMATION_KIND_AES128_GMAC
  | true, false, true => CRYPTO_TRANSFORMATION_KIND_AES256_GMAC
  | true, true, false => CRYPTO_TRANSFORMATION_KIND_AES128_GCM
  | true, true, true => CRYPTO_TRANSFORMATION_KIND_AES256_GCM
  end.

(** [hash_shared_secret]: the unwrap cannot fail, the HMAC has 256 bits. *)
Definition hash_shared_secret (hmac_key_plain secret : bytes) : outcome BuiltinKey :=
  match BuiltinKey_from_bytes KLAES256 (hmac_sha256 (crypto_sha256 hmac_key_plain) secret) with
  | inl k => Ret k
  | inr _ => Panic "called Result::unwrap() on an Err value"
  end.
Definition derive_volatile_key_materials (x : SharedSecretHandle) (use_256_bit_key : bool) : outcome KeyMaterial_AES_GCM_GMAC_seq :=
  let kind := if use_256_bit_key then CRYPTO_TRANSFORMATION_KIND_AES256_GCM else CRYPTO_TRANSFORMATION_KIND_AES128_GCM in
  salt ← hash_shared_secret (challenge1 x ++ string_bytes "keyexchange salt" ++ challenge2 x) (shared_secret x);
  key ← hash_shared_secret (challenge2 x ++ string_bytes "key exchange key" ++ challenge1 x) (shared_secret x);
  Ret (KmTwo (mkKeyMaterial kind salt KeyId_ZERO key KeyId_ZERO KeyNone)
             (mkKeyMaterial CRYPTO_TRANSFORMATION_KIND_NONE KeyNone KeyId_ZERO KeyNone KeyId_ZERO KeyNone)).

(** The candidates are tried until one is not in use; the set of ids in use is not
    changed. *)
Fixpoint generate_key_id (candidates : list bytes) : CB bytes :=
  match candidates with
  | [] => lift_outcome Diverge
  | candidate :: candidates =>
      s ← get_st;
      if decide (candidate ∈ used_local_key_ids s) then generate_key_id candidates else mret candidate
  end.

Definition generate_key_material (r : Rand) (kind : BuiltinCryptoTransformationKind) : CB KeyMaterial_AES_GCM_GMAC :=
  let key_length := KeyLength_from kind in
  id ← generate_key_id (rnd_ids r);
  mret (mkKeyMaterial kind (generate_random (rnd_salt128 r) (rnd_salt256 r) key_length) id
          (generate_random (rnd_key128 r) (rnd_key256 r) key_length) KeyId_ZERO KeyNone).

Definition generate_receiver_specific_key (r : Rand) (ks : KeyMaterial_AES_GCM_GMAC_seq) (origin_authentication : bool)
  : CB KeyMaterial_AES_GCM_GMAC_seq :=
  if origin_authentication then
    let key := generate_random (rnd_key128 r) (rnd_key256 r) (KeyLength_from (transformation_kind (key_material ks))) in
    id ← generate_key_id (rnd_ids r);
    mret (add_master_receiver_specific_key ks id key)
  else mret (add_master_receiver_specific_key ks KeyId_ZERO KeyNone).

(** [a.and(b)], where [b] has been evaluated too *)
Definition result_and {A B} (a : SecurityResult A) (b : SecurityResult B) : SecurityResult B :=
  match a with inl _ => b | inr e => inr e end.

Definition register_local_participant (r : Rand) (properties : list Property) (attributes : ParticipantSecurityAttributes)
  : CB (SecurityResult Z) :=
  plugin ←? mret (BuiltinPluginParticipantSecurityAttributes_try_from (plugin_participant_attributes attributes));
  h ← generate_crypto_handle;
  k ← generate_key_material r (transformation_kind_for (is_rtps_protected attributes) (is_rtps_encrypted plugin)
                                 (use_256_bit_key properties));
  a ← insert_common_encode_key_materials h (CekmSome (KmOne k));
  b ← insert_participant_attributes h attributes;
  mret (result_and (result_and a b) (sec_ok h)).

Definition register_matched_remote_participant (r : Rand) (local_participant : Z) : CB (SecurityResult Z) :=
  s ← get_st;
  ks ←? mret (ks ← get_common_encode_key_materials s local_participant;
              match ks with
              | CekmSome ks => sec_ok ks
              | CekmVolatile _ => sec_err ("The local_participant_crypto_handle " +:+ pretty local_participant
                                           +:+ " points to volatile, but a participant cannot be volatile")
              end);
  plugin ←? mret (a ← ok_or (participant_encrypt_options s !! local_participant)
                       ("Participant encrypt options not found for the ParticipantCryptoHandle " +:+ pretty local_participant);
                  BuiltinPluginParticipantSecurityAttributes_try_from (plugin_participant_attributes a));
  h ← generate_crypto_handle;
  ks ← generate_receiver_specific_key r ks (is_rtps_origin_authenticated plugin);
  _ ←? insert_receiver_specific_encode_key_materials h ks;
  mret (sec_ok h).

(** The key material of a new local endpoint; the volatile ones get theirs from the
    shared secret when they are matched.  [r'] is for the payload. *)
Definition writer_key_materials (r r' : Rand) (attributes : EndpointSecurityAttributes)
    (plugin : BuiltinPluginEndpointSecurityAttributes) (use_256 : bool) : CB KeyMaterial_AES_GCM_GMAC_seq :=
  let submessage_kind := transformation_kind_for (is_submessage_protected attributes) (is_submessage_encrypted plugin) use_256 in
  let payload_kind := transformation_kind_for (is_payload_protected attributes) (is_payload_encrypted plugin) use_256 in
  k ← generate_key_material r submessage_kind;
  if bool_decide (submessage_kind = payload_kind) then mret (KmOne k)
  else p ← generate_key_material r' payload_kind; mret (KmTwo k p).

Definition register_local_datawriter (r r' : Rand) (participant : Z) (properties : list Property)
    (attributes : EndpointSecurityAttributes) : CB (SecurityResult Z) :=
  plugin ←? mret (BuiltinPluginEndpointSecurityAttributes_try_from (plugin_endpoint_attributes attributes));
  h ← generate_crypto_handle;
  let use_256 := use_256_bit_key properties in
  _ ←? (if CryptographicBuiltin_is_volatile properties then insert_common_encode_key_materials h (CekmVolatile use_256)
        else ks ← writer_key_materials r r' attributes plugin use_256; insert_common_encode_key_materials h (CekmSome ks));
  _ ←? insert_endpoint_attributes h attributes;
  _ ← insert_endpoint_info participant (mkEndpointInfo h EkDataWriter);
  _ ← modify_st (fun s => cb_set_endpoints s (participant_to_endpoint_info s) (<[h := participant]> (endpoint_to_participant s)));
  mret (sec_ok h).

Definition register_local_datareader (r : Rand) (participant : Z) (properties : list Property)
    (attributes : EndpointSecurityAttributes) : CB (SecurityResult Z) :=
  plugin ←? mret (BuiltinPluginEndpointSecurityAttributes_try_from (plugin_endpoint_attributes attributes));
  h ← generate_crypto_handle;
  let use_256 := use_256_bit_key properties in
  _ ←? (if CryptographicBuiltin_is_volatile properties then insert_common_encode_key_materials h (CekmVolatile use_256)
        else k ← generate_key_material r (transformation_kind_for (is_submessage_protected attributes)
                                            (is_submessage_encrypted plugin) use_256);
             insert_common_encode_key_materials h (CekmSome (KmOne k)));
  _ ←? insert_endpoint_attributes h attributes;
  _ ← insert_endpoint_info participant (mkEndpointInfo h EkDataReader);
  _ ← modify_st (fun s => cb_set_endpoints s (participant_to_endpoint_info s) (<[h := participant]> (endpoint_to_participant s)));
  mret (sec_ok h).

(** [register_matched_remote_datareader] and [register_matched_remote_datawriter],
    which are alike; [kind] is that of the remote endpoint. *)
Definition register_matched_remote_endpoint (kind : EndpointKind) (r : Rand) (local_endpoint remote_participant : Z)
    (secret : SharedSecretHandle) : CB (SecurityResult Z) :=
  s ← get_st;
  common ←? mret (get_common_encode_key_materials s local_endpoint);
  h ← get_or_generate_matched_remote_endpoint_crypto_handle remote_participant local_endpoint;
  ks ←? match common with
        | CekmVolatile use_256 =>
            ks ← lift_outcome (derive_volatile_key_materials secret use_256);
            _ ←? insert_decode_key_materials h ks;
            mret (sec_ok ks)
        | CekmSome ks =>
            s ← get_st;
            plugin ←? mret (a ← ok_or (endpoint_encrypt_options s !! local_endpoint)
                                  ("Encrypt options not found for the handle " +:+ pretty local_endpoint);
                            BuiltinPluginEndpointSecurityAttributes_try_from (plugin_endpoint_attributes a));
            ks ← generate_receiver_specific_key r ks (is_submessage_origin_authenticated plugin);
            mret (sec_ok ks)
        end;
  _ ←? insert_receiver_specific_encode_key_materials h ks;
  _ ← insert_endpoint_info remote_participant (mkEndpointInfo h kind);
  _ ← modify_st (fun s =>
        match endpoint_encrypt_options s !! local_endpoint with
        | Some a => cb_set_options s (participant_encrypt_options s) (<[h := a]> (endpoint_encrypt_options s))
        | None => s
        end);
  mret (sec_ok h).
Definition register_matched_remote_datareader := register_matched_remote_endpoint EkDataReader.
Definition register_matched_remote_datawriter := register_matched_remote_endpoint EkDataWriter.

(** *** Removal *)

(** The recursion goes to the remote endpoints of a local one; it is on fuel. *)
Fixpoint unregister_endpoint (fuel : nat) (info : EndpointInfo) : CB unit :=
  match fuel with
  | O => lift_outcome Diverge
  | S fuel =>
      let h := ei_crypto_handle info in
      _ ← modify_st (fun s => cb_set_common s (delete h (common_encode_key_materials s)));
      _ ← modify_st (fun s => cb_set_receiver s (delete h (receiver_specific_encode_key_materials s)));
      _ ← modify_st (fun s => cb_set_decode s (delete h (decode_key_materials s)));
      _ ← modify_st (fun s => cb_set_options s (participant_encrypt_options s) (delete h (endpoint_encrypt_options s)));
      s ← get_st;
      match endpoint_to_participant s !! h with
      | None => mret tt
      | Some participant =>
          _ ← modify_st (fun s =>
                cb_set_endpoints s
                  match participant_to_endpoint_info s !! participant with
                  | Some infos => <[participant := infos ∖ {[info]}]> (participant_to_endpoint_info s)
                  | None => participant_to_endpoint_info s
                  end (delete h (endpoint_to_participant s)));
          s ← get_st;
          match matched_local_endpoint s !! h with
          | Some local =>
              modify_st (fun s =>
                cb_set_matched s
                  match matched_remote_endpoint s !! local with
                  | Some m => <[local := delete participant m]> (matched_remote_endpoint s)
                  | None => matched_remote_endpoint s
                  end (delete h (matched_local_endpoint s)))
          | None =>
              match matched_remote_endpoint s !! h with
              | None => mret tt
              | Some m =>
                  _ ← modify_st (fun s => cb_set_matched s (delete h (matched_remote_endpoint s)) (matched_local_endpoint s));
                  act_for (map_to_list m).*2 (fun remote =>
                    unregister_endpoint fuel (mkEndpointInfo remote (EndpointKind_opposite (ei_kind info))))
              end
          end
      end
  end.

(** Each level of the recursion takes an entry out of [matched_remote_endpoint]. *)
Definition unregister (info : EndpointInfo) : CB unit :=
  s ← get_st; unregister_endpoint (S (size (matched_remote_endpoint s))) info.

Definition unregister_participant (h : Z) : CB (SecurityResult unit) :=
  _ ← modify_st (fun s => cb_set_options s (delete h (participant_encrypt_options s)) (endpoint_encrypt_options s));
  s ← get_st;
  _ ← match participant_to_endpoint_info s !! h with
      | Some infos =>
          _ ← modify_st (fun s => cb_set_endpoints s (delete h (participant_to_endpoint_info s)) (endpoint_to_participant s));
          act_for (elements infos) unregister
      | None => mret tt
      end;
  _ ← modify_st (fun s => cb_set_common s (delete h (common_encode_key_materials s)));
  _ ← modify_st (fun s => cb_set_receiver s (delete h (receiver_specific_encode_key_materials s)));
  _ ← modify_st (fun s => cb_set_decode s (delete h (decode_key_materials s)));
  mret (sec_ok tt).
Definition unregister_datawriter (h : Z) : CB (SecurityResult unit) :=
  _ ← unregister (mkEndpointInfo h EkDataWriter); mret (sec_ok tt).
Definition unregister_datareader (h : Z) : CB (SecurityResult unit) :=
  _ ← unregister (mkEndpointInfo h EkDataReader); mret (sec_ok tt).

(** ** Key exchange *)

(** For a remote participant, reader or writer alike. *)
Definition create_local_crypto_tokens (remote : Z) : CB (SecurityResult (list DataHolder)) :=
  s ← get_st;
  mret (ks ← get_receiver_specific_encode_key_materials s remote; km_seq_to_tokens ks).
Definition set_remote_crypto_tokens (remote : Z) (tokens : list DataHolder) : CB (SecurityResult unit) :=
  ks ←? mret (km_seq_from_tokens tokens); insert_decode_key_materials remote ks.
Definition create_local_participant_crypto_tokens := create_local_crypto_tokens.
Definition create_local_datawriter_crypto_tokens := create_local_crypto_tokens.
Definition create_local_datareader_crypto_tokens := create_local_crypto_tokens.
Definition set_remote_participant_crypto_tokens := set_remote_crypto_tokens.
Definition set_remote_datawriter_crypto_tokens := set_remote_crypto_tokens.
Definition set_remote_datareader_crypto_tokens := set_remote_crypto_tokens.
Definition return_crypto_tokens (tokens : list DataHolder) : CB (SecurityResult unit) := mret (sec_ok tt).
End factory.
