(* ===== verification/CryptoTransform.v ===== *)
(** * Encoding and decoding

    [crypto_transform.rs], [encode.rs], [validate_receiver_specific_macs.rs] and
    the session materials of [cryptographic_builtin.rs], under
    [src/security/cryptographic/cryptographic_builtin/]; the crypto elements and
    the secure submessages of [src/messages/submessages/], and submessages as they
    are compiled with the security feature ([src/rtps/submessage.rs]).

    [e] is the byte order of the machine, in which [write_to_vec] and
    [read_from_buffer] work. *)

From stdpp Require Import pretty strings.
From S2P Require Import Prelude BTree Wire SequenceNumbers Time Guid Submessages Headers MessageBuilder MessageWire SecurityTypes CryptoKeys Crypto.
Local Open Scope string_scope.
Local Open Scope list_scope.
Local Open Scope Z_scope.

(** ** Elements *)

Record CryptoHeader := mkCryptoHeader { ch_transformation_kind : bytes; ch_transformation_key_id : bytes; ch_extra : bytes }.

Definition CryptoHeader_write (h : CryptoHeader) : bytes := ch_transformation_kind h ++ ch_transformation_key_id h ++ ch_extra h.
(** The length of the rest is known for the kinds of this plugin only. *)
Definition CryptoHeader_read : reader CryptoHeader :=
  kind ← read_bytes 4;
  key_id ← read_bytes 4;
  match Kind_try_from kind with
  | inl _ => extra ← read_bytes 12; mret (mkCryptoHeader kind key_id extra)
  | inr _ => reader_fail
  end.

Record BuiltinCryptoHeader := mkBCH { bch_kind : BuiltinCryptoTransformationKind; bch_key_id : bytes; bch_iv : bytes }.
Definition INITIALIZATION_VECTOR_LENGTH : nat := 12.
Definition BuiltinCryptoHeader_serialized_len : nat := (4 + 4 + 4 + 8)%nat.
Definition CryptoHeader_from (h : BuiltinCryptoHeader) : CryptoHeader := mkCryptoHeader (Kind_into (bch_kind h)) (bch_key_id h) (bch_iv h).
Definition BuiltinCryptoHeader_try_from (h : CryptoHeader) : SecurityResult BuiltinCryptoHeader :=
  kind ← Kind_try_from (ch_transformation_kind h);
  if (length (ch_extra h) =? INITIALIZATION_VECTOR_LENGTH)%nat then sec_ok (mkBCH kind (ch_transformation_key_id h) (ch_extra h))
  else sec_err ("plugin_crypto_header_extra was of length " +:+ pretty (Z.of_nat (length (ch_extra h))) +:+ ". Expected 12.").

(** [u32::swap_bytes] *)
Definition swap_bytes (z : Z) : Z :=
  (z mod 256) * 2 ^ 24 + (z / 2 ^ 8 mod 256) * 2 ^ 16 + (z / 2 ^ 16 mod 256) * 2 ^ 8 + z / 2 ^ 24 mod 256.
(** The number that is written in the context's byte order, to be big-endian *)
Definition big_endian (e : Endianness) (z : Z) : Z := match e with BigEndian => z | LittleEndian => swap_bytes z end.

Section elements.
Context `{SP : Speedy}.

Definition CryptoContent_write (e : Endianness) (data : bytes) : option bytes :=
  let n := Z.of_nat (length data) in
  if n <? 2 ^ 32 then Some (write_u32 e (big_endian e n) ++ data) else None.
Definition CryptoContent_read (e : Endianness) : reader bytes :=
  n ← read_u32 e; read_bytes (Z.to_nat (big_endian e n)).
End elements.

(** ** Submessages with the security feature *)

Inductive SecuritySubmessage :=
| SsSecureBody (data : bytes)
| SsSecurePrefix (h : CryptoHeader)
| SsSecurePostfix (footer : bytes)
| SsSecureRTPSPrefix (h : CryptoHeader)
| SsSecureRTPSPostfix (footer : bytes).
Inductive SecBody := SbPlain (b : SubmessageBody) | SbSecurity (s : SecuritySubmessage).
Record SecSubmessage := mkSecSub { ss_flags : Z; ss_content_length : Z; ss_body : SecBody; ss_original_bytes : option bytes }.
Record SecMessage := mkSecMessage { secm_header : Header; secm_submessages : list SecSubmessage }.

Definition KIND_SEC_BODY : SubmessageKind := 0x30.
Definition KIND_SEC_PREFIX : SubmessageKind := 0x31.
Definition KIND_SEC_POSTFIX : SubmessageKind := 0x32.
Definition KIND_SRTPS_PREFIX : SubmessageKind := 0x33.
Definition KIND_SRTPS_POSTFIX : SubmessageKind := 0x34.
Definition ss_kind (b : SecBody) : SubmessageKind :=
  match b with
  | SbPlain b => sm_kind b
  | SbSecurity (SsSecureBody _) => KIND_SEC_BODY
  | SbSecurity (SsSecurePrefix _) => KIND_SEC_PREFIX
  | SbSecurity (SsSecurePostfix _) => KIND_SEC_POSTFIX
  | SbSecurity (SsSecureRTPSPrefix _) => KIND_SRTPS_PREFIX
  | SbSecurity (SsSecureRTPSPostfix _) => KIND_SRTPS_POSTFIX
  end.

Section submessages.
Context `{SP : Speedy}.

Definition SecBody_write (e : Endianness) (b : SecBody) : option bytes :=
  match b with
  | SbPlain b => Some (SubmessageBody_write e b)
  | SbSecurity (SsSecureBody data) => CryptoContent_write e data
  | SbSecurity (SsSecurePrefix h) | SbSecurity (SsSecureRTPSPrefix h) => Some (CryptoHeader_write h)
  | SbSecurity (SsSecurePostfix f) | SbSecurity (SsSecureRTPSPostfix f) => Some f
  end.
Definition SecSubmessage_write (e : Endianness) (sm : SecSubmessage) : option bytes :=
  b ← SecBody_write (endianness_flag (ss_flags sm)) (ss_body sm);
  Some (SubmessageHeader_write e (mkSubHeader (ss_kind (ss_body sm)) (ss_flags sm) (ss_content_length sm)) ++ b).

(** [create_submessage]: the length is cut to 16 bits. *)
Definition create_submessage (e : Endianness) (s : SecuritySubmessage) : SecurityResult SecSubmessage :=
  match SecBody_write e (SbSecurity s) with
  | Some b => sec_ok (mkSecSub (from_endianness e) (u16 (Z.of_nat (length b))) (SbSecurity s) None)
  | None => sec_err "Security plugin couldn't write to bytes."
  end.

(** *** Reading *)

Definition SecBody_read (kind : SubmessageKind) (flags : Z) (content : bytes) : option (option (outcome SecBody)) :=
  let e := endianness_flag flags in
  let body {A} (c : A -> SecuritySubmessage) (r : reader A) := (fun a => Some (Ret (SbSecurity (c a)))) <$> of_reader r content in
  if kind =? KIND_SEC_BODY then body SsSecureBody (CryptoContent_read e)
  else if kind =? KIND_SEC_PREFIX then body SsSecurePrefix CryptoHeader_read
  else if kind =? KIND_SEC_POSTFIX then Some (Some (Ret (SbSecurity (SsSecurePostfix content))))
  else if kind =? KIND_SRTPS_PREFIX then body SsSecureRTPSPrefix CryptoHeader_read
  else if kind =? KIND_SRTPS_POSTFIX then Some (Some (Ret (SbSecurity (SsSecureRTPSPostfix content))))
  else
    (fun o => (fun b : outcome SubmessageBody => b ← b; Ret (SbPlain b)) <$> (o : option (outcome SubmessageBody)))
      <$> SubmessageBody_read kind flags content.

Definition SecSubmessage_read_from_buffer (e : Endianness) (buffer : bytes) : outcome (option (option SecSubmessage * bytes)) :=
  match SubmessageHeader_read e buffer with
  | None => Ret None
  | Some (sub_header, _) =>
      let len := Z.of_nat (length buffer) in
      let proposed := proposed_content_length sub_header len in
      if negb (4 + proposed <=? len) then Ret None
      else
        let sub_length := (4 + Z.to_nat proposed)%nat in
        let original := take sub_length buffer in
        let rest := drop sub_length buffer in
        match SecBody_read (sh_kind sub_header) (sh_flags sub_header) (drop 4 original) with
        | None => Ret None
        | Some None => Ret (Some (None, rest))
        | Some (Some o) =>
            b ← o;
            Ret (Some (Some (mkSecSub (sh_flags sub_header) (sh_content_length sub_header) b (Some original)), rest))
        end
  end.
End submessages.

(** ** Session materials *)

Record EncodeSessionMaterials := mkESM {
  esm_key_id : bytes;
  esm_transformation_kind : BuiltinCryptoTransformationKind;
  esm_session_key : BuiltinKey;
  esm_initialization_vector : bytes;
  esm_receiver_specific_keys : list ReceiverSpecificKeyMaterial;
}.
Record DecodeSessionMaterials := mkDSM {
  dsm_key_id : bytes;
  dsm_transformation_kind : BuiltinCryptoTransformationKind;
  dsm_session_key : BuiltinKey;
  dsm_receiver_specific_key : option ReceiverSpecificKeyMaterial;
}.

Definition session_id : bytes := [1; 3; 3; 7].
(** [random_initialization_vector], with the random suffix *)
Definition initialization_vector (suffix : bytes) : bytes := session_id ++ suffix.

Section transform.
Context `{SP : Speedy, CD : CryptoDeps}.
Implicit Types (s : CryptographicBuiltin) (h : Z) (iv : bytes).

(** The session keys for the receiver-specific MACs; a receiver without a key of
    its own is left out, an error ends the iteration. *)
Fixpoint receiver_session_keys s (scope : KeyMaterialScope) (common : KeyMaterial_AES_GCM_GMAC) iv (receivers : list Z)
  : outcome (SecurityResult (list ReceiverSpecificKeyMaterial)) :=
  match receivers with
  | [] => Ret (sec_ok [])
  | r :: receivers =>
      m ←? Ret (ks ← get_receiver_specific_encode_key_materials s r; receiver_key_material_for (km_select ks scope) common);
      if KeyId_is_zero (rs_key_id m) then receiver_session_keys s scope common iv receivers
      else
        session_key ← compute_session_key true (rs_key m) (master_salt common) iv;
        rest ←? receiver_session_keys s scope common iv receivers;
        Ret (sec_ok (mkRSKM (rs_key_id m) session_key :: rest))
  end.

Definition session_encoding_materials (suffix : bytes) s h (scope : KeyMaterialScope) (receivers : list Z)
  : outcome (SecurityResult EncodeSessionMaterials) :=
  ks ←? Ret (common ← get_common_encode_key_materials s h;
             match common with
             | CekmSome ks => sec_ok ks
             | CekmVolatile _ =>
                 match receivers with
                 | [r] => get_receiver_specific_encode_key_materials s r
                 | _ => sec_err "For volatile local endpoint, expected exactly one remote endpoint handle."
                 end
             end);
  let common := km_select ks scope in
  let iv := initialization_vector suffix in
  session_key ← compute_session_key false (master_sender_key common) (master_salt common) iv;
  receiver_specific_keys ←? receiver_session_keys s scope common iv receivers;
  Ret (sec_ok (mkESM (sender_key_id common) (transformation_kind common) session_key iv receiver_specific_keys)).

Definition get_session_decode_crypto_materials s h (header_key_id : bytes) (scope : KeyMaterialScope) iv
  : outcome (option DecodeSessionMaterials) :=
  match get_decode_key_material s h header_key_id scope with
  | None => Ret None
  | Some k =>
      session_key ← compute_session_key false (master_sender_key k) (master_salt k) iv;
      receiver_specific_key ←
        (if KeyId_is_zero (receiver_specific_key_id k) then Ret None
         else session_key ← compute_session_key true (master_receiver_specific_key k) (master_salt k) iv;
              Ret (Some (mkRSKM (receiver_specific_key_id k) session_key)));
      Ret (Some (mkDSM (sender_key_id k) (transformation_kind k) session_key receiver_specific_key))
  end.
Definition session_decode_crypto_materials s h header_key_id scope iv : outcome (SecurityResult DecodeSessionMaterials) :=
  m ← get_session_decode_crypto_materials s h header_key_id scope iv;
  Ret (ok_or m ("Could not find decode key materials for the CryptoHandle " +:+ pretty h)).

(** ** Footers *)

Fixpoint receiver_macs iv (keys : list ReceiverSpecificKeyMaterial) (mac : bytes) : outcome (SecurityResult (list ReceiverSpecificMAC)) :=
  match keys with
  | [] => Ret (sec_ok [])
  | k :: keys =>
      m ←? compute_mac (rs_key k) iv mac;
      rest ←? receiver_macs iv keys mac;
      Ret (sec_ok (mkRSMac (rs_key_id k) m :: rest))
  end.
Definition compute_receiver_specific_macs iv (keys : list ReceiverSpecificKeyMaterial) (mac : bytes) : outcome (SecurityResult BuiltinCryptoFooter) :=
  macs ←? receiver_macs iv keys mac; Ret (sec_ok (mkFooter mac macs)).

Definition encode_gmac (key : BuiltinKey) iv (data : bytes) (keys : list ReceiverSpecificKeyMaterial) : outcome (SecurityResult BuiltinCryptoFooter) :=
  mac ←? compute_mac key iv data; compute_receiver_specific_macs iv keys mac.
Definition encode_gcm (key : BuiltinKey) iv (data : bytes) (keys : list ReceiverSpecificKeyMaterial)
  : outcome (SecurityResult (SecSubmessage * BuiltinCryptoFooter)) :=
  cm ←? encrypt key iv data;
  footer ←? compute_receiver_specific_macs iv keys cm.2;
  sub ←? Ret (create_submessage BigEndian (SsSecureBody cm.1));
  Ret (sec_ok (sub, footer)).

Definition Footer_into (f : BuiltinCryptoFooter) : SecurityResult bytes :=
  match footer_to_vec f with inl b => sec_ok b | inr e => sec_err ("Error serializing BuiltinCryptoFooter: " +:+ e) end.
Definition Footer_try_from (b : bytes) : SecurityResult BuiltinCryptoFooter :=
  match footer_from_bytes b with inl f => sec_ok f | inr e => sec_err ("Error deserializing BuiltinCryptoFooter: " +:+ e) end.

Definition find_receiver_specific_mac (key_id : bytes) (macs : list ReceiverSpecificMAC) : option bytes :=
  (fun x => receiver_mac x.2) <$> list_find (fun m => receiver_mac_key_id m = key_id) macs.
Definition validate_receiver_specific_mac (m : DecodeSessionMaterials) iv (mac : bytes) (macs : list ReceiverSpecificMAC) : outcome bool :=
  match dsm_receiver_specific_key m with
  | None => Ret true
  | Some k =>
      match find_receiver_specific_mac (rs_key_id k) macs with
      | Some rmac => r ← validate_mac (rs_key k) iv mac rmac; Ret (match r with inl _ => true | inr _ => false end)
      | None => Ret false
      end
  end.

(** ** Payloads *)

Definition is_gmac (k : BuiltinCryptoTransformationKind) : bool :=
  match k with CRYPTO_TRANSFORMATION_KIND_AES128_GMAC | CRYPTO_TRANSFORMATION_KIND_AES256_GMAC => true | _ => false end.

Definition encode_serialized_payload (e : Endianness) (suffix : bytes) (plain_buffer : bytes) h s : outcome (SecurityResult bytes) :=
  m ←? session_encoding_materials suffix s h PayloadOnly [];
  let kind := esm_transformation_kind m in
  let key := esm_session_key m in
  let iv := esm_initialization_vector m in
  match kind with
  | CRYPTO_TRANSFORMATION_KIND_NONE => Ret (sec_ok plain_buffer)
  | _ =>
      ef ←? (if is_gmac kind then mac ←? compute_mac key iv plain_buffer; Ret (sec_ok (plain_buffer, only_common_mac mac))
             else cm ←? encrypt key iv plain_buffer;
                  content ←? Ret (ok_or (CryptoContent_write e cm.1) "Error converting CryptoContent to byte vector");
                  Ret (sec_ok (content, only_common_mac cm.2)));
      footer ←? Ret (Footer_into ef.2);
      Ret (sec_ok (CryptoHeader_write (CryptoHeader_from (mkBCH kind (esm_key_id m) iv)) ++ ef.1 ++ footer))
  end.

Definition decode_serialized_payload (e : Endianness) (encoded_buffer : bytes) h s : outcome (SecurityResult bytes) :=
  let head_len := BuiltinCryptoHeader_serialized_len in
  let foot_len := minimal_serialized_len in
  if (length encoded_buffer <? head_len + foot_len)%nat then Ret (sec_err "Encoded payload smaller than minimum size")
  else
    let header_bytes := take head_len encoded_buffer in
    let content_and_footer := drop head_len encoded_buffer in
    let content_bytes := take (length content_and_footer - foot_len) content_and_footer in
    let footer_bytes := drop (length content_and_footer - foot_len) content_and_footer in
    ch ←? Ret (ok_or (of_reader CryptoHeader_read header_bytes) "Serialization/deserialization error");
    header ←? Ret (BuiltinCryptoHeader_try_from ch);
    footer ←? Ret (Footer_try_from footer_bytes);
    m ←? session_decode_crypto_materials s h (bch_key_id header) PayloadOnly (bch_iv header);
    let kind := bch_kind header in
    if negb (bool_decide (dsm_transformation_kind m = kind)) then Ret (sec_err "Mismatched transformation kinds")
    else
      let key := dsm_session_key m in
      match kind with
      | CRYPTO_TRANSFORMATION_KIND_NONE => Ret (sec_err "Transformation kind NONE found in decode_serialized_payload.")
      | _ =>
          if is_gmac kind then _ ←? validate_mac key (bch_iv header) content_bytes (common_mac footer); Ret (sec_ok content_bytes)
          else
            ciphertext ←? Ret (ok_or (of_reader (CryptoContent_read e) content_bytes) "Serialization/deserialization error");
            decrypt key (bch_iv header) ciphertext (common_mac footer)
      end.

(** ** Submessages *)

Inductive EncodedSubmessage :=
| Unencoded (sm : SecSubmessage)
| Encoded (prefix sm postfix : SecSubmessage).

Definition encode_submessage (e : Endianness) (suffix : bytes) (plain : SecSubmessage) h (receivers : list Z) s
  : outcome (SecurityResult EncodedSubmessage) :=
  plaintext ←? Ret (ok_or (SecSubmessage_write e plain) "Error converting Submessage to byte vector");
  m ←? session_encoding_materials suffix s h MessageOrSubmessage receivers;
  let kind := esm_transformation_kind m in
  let key := esm_session_key m in
  let iv := esm_initialization_vector m in
  match kind with
  | CRYPTO_TRANSFORMATION_KIND_NONE => Ret (sec_ok (Unencoded plain))
  | _ =>
      sf ←? (if is_gmac kind then f ←? encode_gmac key iv plaintext (esm_receiver_specific_keys m); Ret (sec_ok (plain, f))
             else encode_gcm key iv plaintext (esm_receiver_specific_keys m));
      footer ←? Ret (Footer_into sf.2);
      prefix ←? Ret (create_submessage BigEndian (SsSecurePrefix (CryptoHeader_from (mkBCH kind (esm_key_id m) iv))));
      postfix ←? Ret (create_submessage BigEndian (SsSecurePostfix footer));
      Ret (sec_ok (Encoded prefix sf.1 postfix))
  end.
Definition encode_datawriter_submessage := encode_submessage.
Definition encode_datareader_submessage := encode_submessage.

Inductive DecodeOutcome (T : Type) :=
| DoSuccess (t : T)
| DoKeysNotFound (key_id : bytes)
| DoValidatingReceiverSpecificMACFailed.
Arguments DoSuccess {T} t.
Arguments DoKeysNotFound {T} key_id.
Arguments DoValidatingReceiverSpecificMACFailed {T}.

Inductive DecodedSubmessage :=
| DecInterpreter (b : SubmessageBody)
| DecWriter (b : SubmessageBody) (receivers : list Z)
| DecReader (b : SubmessageBody) (receivers : list Z).

(** The endpoints of the sender that have a key with this id *)
Fixpoint matching_materials s (header_key_id iv : bytes) (infos : list EndpointInfo)
  : outcome (list (DecodeSessionMaterials * EndpointInfo)) :=
  match infos with
  | [] => Ret []
  | i :: infos =>
      m ← get_session_decode_crypto_materials s (ei_crypto_handle i) header_key_id MessageOrSubmessage iv;
      rest ← matching_materials s header_key_id iv infos;
      Ret (match m with Some m => (m, i) :: rest | None => rest end)
  end.

(** The one session key of all of them, which must be of the kind of the header *)
Definition key_of_materials (kind : BuiltinCryptoTransformationKind) (m : DecodeSessionMaterials * EndpointInfo) : SecurityResult BuiltinKey :=
  if bool_decide (dsm_transformation_kind m.1 = kind) then sec_ok (dsm_session_key m.1)
  else sec_err "Transformation kind of the submessage header does not match the key".
Definition unambiguous_key (kind : BuiltinCryptoTransformationKind) (ms : list (DecodeSessionMaterials * EndpointInfo))
  : option (SecurityResult BuiltinKey) :=
  match key_of_materials kind <$> ms with
  | [] => None
  | k :: ks =>
      Some (foldl (fun acc k =>
              a ← acc; c ← k;
              if bool_decide (a = c) then sec_ok a else sec_err "Multiple different matching decode keys found for the key id") k ks)
  end.

(** Those whose receiver-specific MAC is valid, if they have a key for one *)
Fixpoint approved iv (footer : BuiltinCryptoFooter) (ms : list (DecodeSessionMaterials * EndpointInfo)) : outcome (list EndpointInfo) :=
  match ms with
  | [] => Ret []
  | (m, i) :: ms =>
      ok ← validate_receiver_specific_mac m iv (common_mac footer) (receiver_specific_macs footer);
      rest ← approved iv footer ms;
      Ret (if (ok : bool) then i :: rest else rest)
  end.

(** The local endpoints that are matched with the senders of this kind *)
Definition local_receivers s (kind : EndpointKind) (infos : list EndpointInfo) : SecurityResult (list Z) :=
  collect (fun i => ok_or (matched_local_endpoint s !! ei_crypto_handle i)
                      ("The local endpoint matched to the crypto handle " +:+ pretty (ei_crypto_handle i) +:+ " is missing."))
    (filter (fun i => ei_kind i = kind) infos).

Definition is_writer_submessage (b : SubmessageBody) : bool :=
  match b with SmData _ | SmDataFrag _ | SmHeartbeat _ | SmGap _ | SmHeartbeatFrag _ => true | _ => false end.
Definition is_reader_submessage (b : SubmessageBody) : bool := match b with SmAckNack _ | SmNackFrag _ => true | _ => false end.

Definition dispatch_decoded s (body : SecBody) (infos : list EndpointInfo) : SecurityResult (DecodeOutcome DecodedSubmessage) :=
  match body with
  | SbSecurity _ => sec_err "Security submessage after successful submessage decryption."
  | SbPlain b =>
      if is_writer_submessage b then
        readers ← local_receivers s EkDataWriter infos;
        match readers with [] => sec_ok DoValidatingReceiverSpecificMACFailed | _ => sec_ok (DoSuccess (DecWriter b readers)) end
      else if is_reader_submessage b then
        writers ← local_receivers s EkDataReader infos;
        match writers with [] => sec_ok DoValidatingReceiverSpecificMACFailed | _ => sec_ok (DoSuccess (DecReader b writers)) end
      else sec_ok (DoSuccess (DecInterpreter b))
  end.

(** The body of the submessage, and the endpoints that it may come from *)
Definition decode_body (e : Endianness) (key : BuiltinKey) (kind : BuiltinCryptoTransformationKind) iv (footer : BuiltinCryptoFooter)
    (encoded : SecSubmessage) (ms : list (DecodeSessionMaterials * EndpointInfo)) : outcome (SecurityResult (SecBody * list EndpointInfo)) :=
  match kind with
  | CRYPTO_TRANSFORMATION_KIND_NONE => Ret (sec_ok (ss_body encoded, ms.*2))
  | _ =>
      if is_gmac kind then
        match ss_original_bytes encoded with
        | None => Ret (sec_err "Submessage bytes are missing.")
        | Some data =>
            infos ← approved iv footer ms;
            _ ←? validate_mac key iv data (common_mac footer);
            Ret (sec_ok (ss_body encoded, infos))
        end
      else
        match ss_body encoded with
        | SbSecurity (SsSecureBody ciphertext) =>
            infos ← approved iv footer ms;
            plaintext ←? decrypt key iv ciphertext (common_mac footer);
            r ← SecSubmessage_read_from_buffer e plaintext;
            match r with
            | None => Ret (sec_err "Failed to deserialize the plaintext")
            | Some (None, _) => Ret (sec_err "Failed to deserialize the plaintext into a submessage.")
            | Some (Some sm, _) => Ret (sec_ok (ss_body sm, infos))
            end
        | _ => Ret (sec_err "When transformation kind is GCM, decode_datawriter_submessage expects a SecureBody")
        end
  end.

Definition decode_submessage (e : Endianness) (prefix : CryptoHeader) (encoded : SecSubmessage) (postfix : bytes) (sender : Z) s
  : outcome (SecurityResult (DecodeOutcome DecodedSubmessage)) :=
  header ←? Ret (BuiltinCryptoHeader_try_from prefix);
  footer ←? Ret (Footer_try_from postfix);
  infos ←? Ret (ok_or (participant_to_endpoint_info s !! sender)
                  ("Could not find registered entities for the sending_remote_participant_crypto_handle " +:+ pretty sender));
  ms ← matching_materials s (bch_key_id header) (bch_iv header) (elements infos);
  match unambiguous_key (bch_kind header) ms with
  | None => Ret (sec_ok (DoKeysNotFound (bch_key_id header)))
  | Some (inr err) => Ret (inr err)
  | Some (inl key) =>
      d ←? decode_body e key (bch_kind header) (bch_iv header) footer encoded ms;
      Ret (dispatch_decoded s d.1 d.2)
  end.
End transform.
Arguments DoSuccess {T} t.
Arguments DoKeysNotFound {T} key_id.
Arguments DoValidatingReceiverSpecificMACFailed {T}.
