(* ===== verification/CryptoMessage.v ===== *)
(** * Protection of whole messages

    [encode_rtps_message] and [decode_rtps_message] of
    [src/security/cryptographic/cryptographic_builtin/crypto_transform.rs], and
    the conversion of a header to an INFO_SRC submessage
    ([src/messages/submessages/info_source.rs]); the loop that reads the
    submessages of a datagram in the security build ([src/rtps/message.rs]). *)

From stdpp Require Import pretty strings.
From S2P Require Import Prelude BTree Wire SequenceNumbers Time Guid Submessages Headers MessageBuilder MessageWire SecurityTypes CryptoKeys Crypto CryptoTransform.
Local Open Scope string_scope.
Local Open Scope list_scope.
Local Open Scope Z_scope.

#[export] Instance ProtocolVersion_eq_dec : EqDecision ProtocolVersion.
Proof. solve_decision. Defined.
#[export] Instance VendorId_eq_dec : EqDecision VendorId.
Proof. solve_decision. Defined.
#[export] Instance InfoSource_eq_dec : EqDecision InfoSource.
Proof. solve_decision. Defined.

Definition InfoSource_from (h : Header) : InfoSource :=
  mkInfoSource 0 (h_protocol_version h) (h_vendor_id h) (h_guid_prefix h).
Definition InfoSource_len_serialized : Z := 4 + 2 + 2 + 12.
Definition InfoSource_create_submessage (flags : Z) (i : InfoSource) : SecSubmessage :=
  mkSecSub flags (u16 InfoSource_len_serialized) (SbPlain (SmInfoSource i)) None.

(** [[first, middle @ .., last]] *)
Definition split_ends {A} (l : list A) : option (A * list A * A) :=
  match l with
  | [] => None
  | x :: l => match rev l with [] => None | y :: m => Some (x, rev m, y) end
  end.

Section message.
Context `{SP : Speedy, CD : CryptoDeps}.
Implicit Types (s : CryptographicBuiltin) (h : Z) (iv : bytes).

Definition encode_rtps_message (e : Endianness) (suffix : bytes) (m : SecMessage) h (receivers : list Z) s
  : outcome (SecurityResult SecMessage) :=
  let info_source := InfoSource_create_submessage (from_endianness BigEndian) (InfoSource_from (secm_header m)) in
  let with_info_source := info_source :: secm_submessages m in
  plaintext ←? Ret (collect (fun sm => ok_or (SecSubmessage_write e sm) "Error converting Submessage to byte vector") with_info_source);
  k ←? session_encoding_materials suffix s h MessageOrSubmessage receivers;
  let kind := esm_transformation_kind k in
  let key := esm_session_key k in
  let iv := esm_initialization_vector k in
  match kind with
  | CRYPTO_TRANSFORMATION_KIND_NONE => Ret (sec_err "encode_rtps_message called when transformation kind is NONE.")
  | _ =>
      ef ←? (if is_gmac kind
             then f ←? encode_gmac key iv (concat plaintext) (esm_receiver_specific_keys k); Ret (sec_ok (with_info_source, f))
             else sf ←? encode_gcm key iv (concat plaintext) (esm_receiver_specific_keys k); Ret (sec_ok ([sf.1], sf.2)));
      footer ←? Ret (Footer_into ef.2);
      prefix ←? Ret (create_submessage BigEndian (SsSecureRTPSPrefix (CryptoHeader_from (mkBCH kind (esm_key_id k) iv))));
      postfix ←? Ret (create_submessage BigEndian (SsSecureRTPSPostfix footer));
      Ret (sec_ok (mkSecMessage (secm_header m) (prefix :: ef.1 ++ [postfix])))
  end.

(** [while !plaintext.is_empty()]; every round takes at least the header of a
    submessage, so the length of the text is enough fuel. *)
Fixpoint read_submessages (fuel : nat) (e : Endianness) (left : bytes) (acc : list SecSubmessage)
  : outcome (option (list SecSubmessage)) :=
  match left, fuel with
  | [], _ => Ret (Some acc)
  | _, O => Diverge
  | _, S fuel =>
      r ← SecSubmessage_read_from_buffer e left;
      match r with
      | None => Ret None
      | Some (None, rest) => read_submessages fuel e rest acc
      | Some (Some sm, rest) => read_submessages fuel e rest (acc ++ [sm])
      end
  end.

(** [Message::read_from_buffer], as compiled with the security feature *)
Definition SecMessage_read_from_buffer (e : Endianness) (buffer : bytes) : outcome (option SecMessage) :=
  match of_reader (Header_read e) buffer with
  | None => Ret None
  | Some rtps_header =>
      if negb (Header_valid rtps_header) then Ret None
      else if (length buffer <? 20)%nat then Panic "range start must not be greater than end"
      else
        sms ← read_submessages (length buffer) e (drop 20 buffer) [];
        Ret (mkSecMessage rtps_header <$> (sms : option (list SecSubmessage)))
  end.

Definition SecMessage_write (e : Endianness) (m : SecMessage) : option bytes :=
  sms ← mapM (SecSubmessage_write e) (secm_submessages m);
  Some (Header_write e (secm_header m) ++ concat sms).

(** The INFO_SRC that the content starts with, and the rest *)
Definition leading_info_source (content : list SecSubmessage) : option (InfoSource * list SecSubmessage) :=
  match content with
  | mkSecSub _ _ (SbPlain (SmInfoSource i)) _ :: rest => Some (i, rest)
  | _ => None
  end.
Definition original_bytes_of (content : list SecSubmessage) : bytes := concat ((fun sm => default [] (ss_original_bytes sm)) <$> content).

Definition read_plaintext (e : Endianness) (plaintext : bytes) : outcome (SecurityResult (InfoSource * list SecSubmessage)) :=
  r ← SecSubmessage_read_from_buffer e plaintext;
  match r with
  | None => Ret (sec_err "Failed to deserialize the plaintext")
  | Some (Some (mkSecSub _ _ (SbPlain (SmInfoSource i)) _), rest) =>
      sms ← read_submessages (length rest) e rest [];
      match sms with
      | None => Ret (sec_err "Failed to deserialize the plaintext")
      | Some sms => Ret (sec_ok (i, sms))
      end
  | Some _ => Ret (sec_err "Expected the first decrypted submessage to be InfoSource.")
  end.

Definition decode_content (e : Endianness) (k : DecodeSessionMaterials) iv (footer : BuiltinCryptoFooter) (content : list SecSubmessage)
  : outcome (SecurityResult (DecodeOutcome (InfoSource * list SecSubmessage))) :=
  let kind := dsm_transformation_kind k in
  match kind with
  | CRYPTO_TRANSFORMATION_KIND_NONE =>
      Ret (x ← ok_or (leading_info_source content) "Expected the first submessage to be InfoSource."; sec_ok (DoSuccess x))
  | _ =>
      if is_gmac kind then
        match leading_info_source content with
        | None => Ret (sec_err "Expected the first submessage to be InfoSource.")
        | Some x =>
            ok ← validate_receiver_specific_mac k iv (common_mac footer) (receiver_specific_macs footer);
            if negb ok then Ret (sec_ok DoValidatingReceiverSpecificMACFailed)
            else _ ←? validate_mac (dsm_session_key k) iv (original_bytes_of content) (common_mac footer);
                 Ret (sec_ok (DoSuccess x))
        end
      else
        match content with
        | [mkSecSub _ _ (SbSecurity (SsSecureBody ciphertext)) _] =>
            ok ← validate_receiver_specific_mac k iv (common_mac footer) (receiver_specific_macs footer);
            if negb ok then Ret (sec_ok DoValidatingReceiverSpecificMACFailed)
            else plaintext ←? decrypt (dsm_session_key k) iv ciphertext (common_mac footer);
                 x ←? read_plaintext e plaintext;
                 Ret (sec_ok (DoSuccess x))
        | _ => Ret (sec_err "Expected only a SecureBody submessage.")
        end
  end.

Definition decode_rtps_message (e : Endianness) (m : SecMessage) (sender : Z) s : outcome (SecurityResult (DecodeOutcome SecMessage)) :=
  match split_ends (secm_submessages m) with
  | Some (mkSecSub _ _ (SbSecurity (SsSecureRTPSPrefix crypto_header)) _, content,
          mkSecSub _ _ (SbSecurity (SsSecureRTPSPostfix crypto_footer)) _) =>
      header ←? Ret (BuiltinCryptoHeader_try_from crypto_header);
      footer ←? Ret (Footer_try_from crypto_footer);
      k ← get_session_decode_crypto_materials s sender (bch_key_id header) MessageOrSubmessage (bch_iv header);
      match k with
      | None => Ret (sec_ok (DoKeysNotFound (bch_key_id header)))
      | Some k =>
          if negb (bool_decide (bch_key_id header = dsm_key_id k)) then Ret (sec_err "The key IDs don't match.")
          else if negb (bool_decide (bch_kind header = dsm_transformation_kind k)) then Ret (sec_err "The transformation_kind don't match.")
          else
            d ←? decode_content e k (bch_iv header) footer content;
            match d with
            | DoSuccess (info_source, sms) =>
                if bool_decide (InfoSource_from (secm_header m) = info_source)
                then Ret (sec_ok (DoSuccess (mkSecMessage (secm_header m) sms)))
                else Ret (sec_err "The RTPS header did not match the encoded InfoSource")
            | DoKeysNotFound id => Ret (sec_ok (DoKeysNotFound id))
            | DoValidatingReceiverSpecificMACFailed => Ret (sec_ok DoValidatingReceiverSpecificMACFailed)
            end
      end
  | _ => Ret (sec_err "Expected the first submessage to be SecureRTPSPrefix and the last SecureRTPSPostfix")
  end.
End message.
