(* ===== verification/CryptoTheorems.v ===== *)
(** * What the cryptographic plugin guarantees

    - [secured_payload_delivered]: two participants that have registered their
      endpoints and exchanged tokens understand each other: what the writer's
      plugin encodes, the reader's plugin decodes;
    - [accepted_payload_authentic]: the reader's plugin gives out only what the
      cipher has authenticated with the key of that writer;
    - [unregistered_keys_gone]: unregistering ends, and no key of what was
      unregistered is left. *)

From stdpp Require Import pretty strings.
From S2P Require Import Prelude BTree Wire MessageWire SecurityTypes CryptoKeys Crypto CryptoTransform.
Local Open Scope string_scope.
Local Open Scope list_scope.
Local Open Scope Z_scope.

(** ** Tokens *)

(** A key has the length that goes with the transformation. *)
Definition fits (kind : BuiltinCryptoTransformationKind) (k : BuiltinKey) : Prop :=
  BuiltinKey_key_length k = KeyLength_from kind /\ key_ok k.
Record km_ok (k : KeyMaterial_AES_GCM_GMAC) : Prop := {
  ko_salt : fits (transformation_kind k) (master_salt k);
  ko_key : fits (transformation_kind k) (master_sender_key k);
  ko_id : length (sender_key_id k) = 4%nat;
  ko_rid : length (receiver_specific_key_id k) = 4%nat;
  ko_receiver : if KeyId_is_zero (receiver_specific_key_id k) then master_receiver_specific_key k = KeyNone
                else fits (transformation_kind k) (master_receiver_specific_key k);
}.

Lemma Kind_roundtrip k : Kind_try_from (Kind_into k) = sec_ok k.
Proof. by destruct k. Qed.
Lemma length_Kind_into k : length (Kind_into k) = 4%nat.
Proof. by destruct k. Qed.

Lemma key_roundtrip kind k : fits kind k -> BuiltinKey_from_bytes (KeyLength_from kind) (BuiltinKey_as_bytes k) = sec_ok k.
Proof.
  intros [E Hk]. rewrite <- E. destruct k; cbn [BuiltinKey_key_length BuiltinKey_as_bytes key_ok BuiltinKey_from_bytes] in *; [done|..];
    (rewrite (proj2 (Nat.leb_le _ _)) by lia; by rewrite take_ge by lia).
Qed.
Lemma key_at_most_32 kind k : fits kind k -> (length (BuiltinKey_as_bytes k) <= 32)%nat.
Proof. intros [_ Hk]. destruct k; cbn in *; rewrite ?Hk; unfold AES128_KEY_LENGTH, AES256_KEY_LENGTH; lia. Qed.

Lemma serializable_roundtrip k : km_ok k -> KeyMaterial_try_from_serializable (Serializable_from k) = sec_ok k.
Proof.
  intros [Hs Hk _ _ Hr]. unfold KeyMaterial_try_from_serializable, Serializable_from. cbn [skm_transformation_kind skm_master_salt
    skm_sender_key_id skm_master_sender_key skm_receiver_specific_key_id skm_master_receiver_specific_key].
  rewrite Kind_roundtrip. unfold mbind, sec_bind, sec_ok at 1. cbv beta iota.
  rewrite (key_roundtrip _ _ Hs), (key_roundtrip _ _ Hk). unfold KeyId_is_zero in Hr.
  destruct (bool_decide (receiver_specific_key_id k = KeyId_ZERO)).
  - destruct k; cbn in *. by subst.
  - rewrite (key_roundtrip _ _ Hr). by destruct k.
Qed.

Section tokens.
Context `{CD : CryptoDeps, CL : !CryptoLaws CD}.

Lemma keymat_ok_of k : km_ok k -> keymat_ok (Serializable_from k).
Proof.
  intros [Hs Hk Hi Hri Hr]. split_and!; cbn; eauto using length_Kind_into, key_at_most_32.
  destruct (KeyId_is_zero _); [rewrite Hr; cbn; lia|eauto using key_at_most_32].
Qed.

Lemma token_roundtrip k : km_ok k -> exists t, CryptoToken_try_from k = inl t /\ BuiltinCryptoToken_try_from t = inl k.
Proof.
  intros Hk. destruct (keymat_roundtrip _ (keymat_ok_of k Hk)) as (b & Eb & Eb').
  unfold CryptoToken_try_from, KeyMaterial_to_bytes. rewrite Eb. eexists. split; [done|].
  unfold BuiltinCryptoToken_try_from. cbn. unfold KeyMaterial_try_from_bytes. rewrite Eb'. by apply serializable_roundtrip.
Qed.

Lemma tokens_roundtrip ks :
  Forall km_ok (km_seq_into ks) -> exists ts, km_seq_to_tokens ks = inl ts /\ km_seq_from_tokens ts = inl ks.
Proof.
  intros Hk. unfold km_seq_to_tokens.
  assert (exists ts, collect CryptoToken_try_from (km_seq_into ks) = inl ts /\
    collect BuiltinCryptoToken_try_from ts = inl (km_seq_into ks)) as (ts & E1 & E2).
  { induction Hk as [|k l Hk _ (ts & E1 & E2)]; [by exists []|]. destruct (token_roundtrip k Hk) as (t & F1 & F2).
    exists (t :: ts). cbn. by rewrite F1, E1, F2, E2. }
  exists ts. split; [done|]. unfold km_seq_from_tokens. rewrite E2. by destruct ks.
Qed.
End tokens.

(** ** The content of a payload *)

Lemma swap_bytes_digits a b c d :
  0 <= a < 256 -> 0 <= b < 256 -> 0 <= c < 256 -> 0 <= d < 256 ->
  swap_bytes (a + b * 2 ^ 8 + c * 2 ^ 16 + d * 2 ^ 24) = d + c * 2 ^ 8 + b * 2 ^ 16 + a * 2 ^ 24.
Proof.
  intros Ha Hb Hc Hd. unfold swap_bytes. pow2.
  set (z := a + b * 256 + c * 65536 + d * 16777216).
  replace (z mod 256) with a by (apply (Z.mod_unique _ _ (b + c * 256 + d * 65536)); lia).
  replace (z / 256) with (b + c * 256 + d * 65536) by (apply (Z.div_unique _ _ _ a); lia).
  replace (z / 65536) with (c + d * 256) by (apply (Z.div_unique _ _ _ (a + b * 256)); lia).
  replace (z / 16777216) with d by (apply (Z.div_unique _ _ _ (a + b * 256 + c * 65536)); lia).
  replace ((b + c * 256 + d * 65536) mod 256) with b by (apply (Z.mod_unique _ _ (c + d * 256)); lia).
  replace ((c + d * 256) mod 256) with c by (apply (Z.mod_unique _ _ d); lia).
  rewrite (Z.mod_small d) by lia. lia.
Qed.

Lemma digits z : in_u 32 z -> exists a b c d,
  z = a + b * 2 ^ 8 + c * 2 ^ 16 + d * 2 ^ 24 /\ 0 <= a < 256 /\ 0 <= b < 256 /\ 0 <= c < 256 /\ 0 <= d < 256.
Proof.
  unfold in_u. pow2. intros Hz. exists (z mod 256), (z / 256 mod 256), (z / 256 / 256 mod 256), (z / 256 / 256 / 256).
  Z.to_euclidean_division_equations. lia.
Qed.

Lemma big_endian_involutive e z : in_u 32 z -> in_u 32 (big_endian e z) /\ big_endian e (big_endian e z) = z.
Proof.
  intros Hz. destruct e; cbn [big_endian]; [|done]. destruct (digits z Hz) as (a & b & c & d & -> & Ha & Hb & Hc & Hd).
  rewrite swap_bytes_digits by done. split; [unfold in_u; pow2; lia|]. by rewrite swap_bytes_digits.
Qed.

Lemma content_roundtrip `{SP : Speedy, SL : !SpeedyLaws SP} e (data : bytes) :
  Z.of_nat (length data) < 2 ^ 32 ->
  exists b, CryptoContent_write e data = Some b /\ forall rest, CryptoContent_read e (b ++ rest) = Some (data, rest).
Proof.
  intros Hl. unfold CryptoContent_write. rewrite (proj2 (Z.ltb_lt _ _)) by done. eexists. split; [done|]. intros rest.
  destruct (big_endian_involutive e (Z.of_nat (length data))) as [Hr Hi]; [unfold in_u; lia|].
  unfold CryptoContent_read, mbind, reader_bind. rewrite <- app_assoc, read_write_u32 by done. rewrite Hi, Nat2Z.id.
  by apply read_bytes_app.
Qed.

(** ** Session keys and the cipher *)

Section cipher.
Context `{SP : Speedy, SL : !SpeedyLaws SP, CD : CryptoDeps, CL : !CryptoLaws CD}.
Implicit Types (k : BuiltinKey) (iv : bytes).

Definition usable k : Prop := key_ok k /\ k <> KeyNone.

Lemma fits_usable kind k : kind <> CRYPTO_TRANSFORMATION_KIND_NONE -> fits kind k -> usable k.
Proof. intros Hn [E Hk]. split; [done|]. intros ->. by destruct kind. Qed.

Lemma session_key_usable rs k salt iv : usable k -> exists sk, compute_session_key rs k salt iv = Ret sk /\ usable sk.
Proof.
  intros [Hk Hn]. unfold compute_session_key. set (dig := hmac_sha256 _ _).
  assert (length dig = 32%nat) as Hl by apply hmac_length.
  destruct k; [done|..]; cbn [BuiltinKey_from_bytes BuiltinKey_key_length];
    (rewrite (proj2 (Nat.leb_le _ _)) by (unfold AES128_KEY_LENGTH, AES256_KEY_LENGTH; lia));
    (eexists; split; [done|]; split; [|done]; cbn [key_ok]; rewrite length_take; unfold AES128_KEY_LENGTH, AES256_KEY_LENGTH; lia).
Qed.

Lemma unbound_usable k : usable k ->
  to_unbound_AES_GCM_key k = Ret (inl (BuiltinKey_as_bytes k)) /\
  (length (BuiltinKey_as_bytes k) = 16 \/ length (BuiltinKey_as_bytes k) = 32)%nat.
Proof. intros [Hk Hn]. destruct k; [done|..]; cbn in *; rewrite Hk; auto. Qed.

Lemma mac_roundtrip k iv data : usable k -> length iv = 12%nat ->
  exists m, compute_mac k iv data = Ret (inl m) /\ length m = MAC_LENGTH /\ validate_mac k iv data m = Ret (inl tt).
Proof.
  intros Hk Hiv. destruct (unbound_usable k Hk) as [E Hl].
  destruct (seal_works (BuiltinKey_as_bytes k) iv data [] Hl Hiv) as (c & t & Es & Hc & Ht & Eo); [pow2; simpl; lia|].
  apply nil_length_inv in Hc as ->. exists t. unfold compute_mac, validate_mac, try_bind. rewrite E. cbn in Eo |- *. rewrite Es, Eo.
  unfold to_builtin_mac. by rewrite Ht.
Qed.

Lemma cipher_roundtrip k iv (p : bytes) : usable k -> length iv = 12%nat -> Z.of_nat (length p) < 2 ^ 32 ->
  exists c m, encrypt k iv p = Ret (inl (c, m)) /\ length m = MAC_LENGTH /\ length c = length p /\ decrypt k iv c m = Ret (inl p).
Proof.
  intros Hk Hiv Hp. destruct (unbound_usable k Hk) as [E Hl].
  destruct (seal_works (BuiltinKey_as_bytes k) iv [] p Hl Hiv Hp) as (c & t & Es & Hc & Ht & Eo).
  exists c, t. unfold encrypt, decrypt, try_bind. rewrite E. cbn. rewrite Es, Eo. unfold to_builtin_mac. by rewrite Ht.
Qed.

(** ** Payloads *)

(** The two sides have the same key for the payload. *)
Record same_sender (k k' : KeyMaterial_AES_GCM_GMAC) : Prop := {
  sa_kind : transformation_kind k' = transformation_kind k;
  sa_salt : master_salt k' = master_salt k;
  sa_id : sender_key_id k' = sender_key_id k;
  sa_key : master_sender_key k' = master_sender_key k;
}.

Lemma header_roundtrip h : length (bch_key_id h) = 4%nat -> length (bch_iv h) = 12%nat ->
  of_reader CryptoHeader_read (CryptoHeader_write (CryptoHeader_from h)) = Some (CryptoHeader_from h) /\
  BuiltinCryptoHeader_try_from (CryptoHeader_from h) = inl h /\
  length (CryptoHeader_write (CryptoHeader_from h)) = BuiltinCryptoHeader_serialized_len.
Proof.
  intros Hi Hv. split_and!.
  - unfold of_reader, CryptoHeader_read, CryptoHeader_write, CryptoHeader_from. cbn [ch_transformation_kind ch_transformation_key_id ch_extra].
    unfold mbind, reader_bind. rewrite read_bytes_app by apply length_Kind_into. rewrite read_bytes_app by done.
    rewrite Kind_roundtrip. cbn. rewrite <- (app_nil_r (bch_iv h)), read_bytes_app by done. by rewrite app_nil_r.
  - unfold BuiltinCryptoHeader_try_from, CryptoHeader_from. cbn [ch_transformation_kind ch_transformation_key_id ch_extra].
    rewrite Kind_roundtrip. cbn. rewrite Hv. by destruct h.
  - unfold CryptoHeader_write, CryptoHeader_from. cbn [ch_transformation_kind ch_transformation_key_id ch_extra].
    by rewrite !length_app, length_Kind_into, Hi, Hv.
Qed.

Lemma footer_bytes m : length m = MAC_LENGTH ->
  exists b, Footer_into (only_common_mac m) = inl b /\ Footer_try_from b = inl (only_common_mac m) /\ length b = minimal_serialized_len.
Proof.
  intros Hm. assert (footer_ok (only_common_mac m)) as Hf by (by split_and!).
  destruct (footer_roundtrip _ Hf) as (b & E1 & E2).
  exists b. unfold Footer_into, Footer_try_from. rewrite E1, E2. split_and!; [done..|]. by rewrite (footer_length _ _ Hf E1).
Qed.

(** What the cipher has made of a payload: the content, and the MAC *)
Lemma protected_content e kind k iv (p : bytes) :
  usable k -> length iv = 12%nat -> Z.of_nat (length p) < 2 ^ 32 ->
  exists content mac, length mac = MAC_LENGTH /\
    (if is_gmac kind then m ←? compute_mac k iv p; Ret (sec_ok (p, only_common_mac m))
     else cm ←? encrypt k iv p;
          c ←? Ret (ok_or (CryptoContent_write e cm.1) "Error converting CryptoContent to byte vector");
          Ret (sec_ok (c, only_common_mac cm.2))) = Ret (sec_ok (content, only_common_mac mac)) /\
    (if is_gmac kind then _ ←? validate_mac k iv content mac; Ret (sec_ok content)
     else c ←? Ret (ok_or (of_reader (CryptoContent_read e) content) "Serialization/deserialization error");
          decrypt k iv c mac) = Ret (sec_ok p).
Proof.
  intros Hk Hiv Hp. destruct (is_gmac kind).
  - destruct (mac_roundtrip k iv p Hk Hiv) as (m & E1 & Hm & E2). exists p, m. unfold try_bind. rewrite E1. cbn. by rewrite E2.
  - destruct (cipher_roundtrip k iv p Hk Hiv Hp) as (c & m & E1 & Hm & Hc & E2).
    destruct (content_roundtrip e c) as (b & E3 & E4); [by rewrite Hc|]. specialize (E4 []). rewrite app_nil_r in E4.
    exists b, m. unfold try_bind, of_reader. rewrite E1. cbn. rewrite E3, E4. cbn. by rewrite E2.
Qed.

Lemma payload_split (hd content foot : bytes) :
  length hd = BuiltinCryptoHeader_serialized_len -> length foot = minimal_serialized_len ->
  let enc := hd ++ content ++ foot in
  let rest := drop BuiltinCryptoHeader_serialized_len enc in
  (length enc <? BuiltinCryptoHeader_serialized_len + minimal_serialized_len)%nat = false /\
  take BuiltinCryptoHeader_serialized_len enc = hd /\
  take (length rest - minimal_serialized_len) rest = content /\ drop (length rest - minimal_serialized_len) rest = foot.
Proof.
  intros <- <- enc rest. subst rest enc. rewrite !length_app. rewrite drop_app_length, take_app_length, length_app.
  replace (length content + length foot - length foot)%nat with (length content) by lia.
  rewrite take_app_length, drop_app_length. split; [apply Nat.ltb_ge; lia|done].
Qed.

Lemma encode_payload_eq e suffix (p : bytes) h s ks (k := km_select ks PayloadOnly) (iv := initialization_vector suffix) sk :
  common_encode_key_materials s !! h = Some (CekmSome ks) ->
  transformation_kind k <> CRYPTO_TRANSFORMATION_KIND_NONE ->
  compute_session_key false (master_sender_key k) (master_salt k) iv = Ret sk ->
  encode_serialized_payload e suffix p h s =
  (ef ←? (if is_gmac (transformation_kind k) then mac ←? compute_mac sk iv p; Ret (sec_ok (p, only_common_mac mac))
          else cm ←? encrypt sk iv p;
               content ←? Ret (ok_or (CryptoContent_write e cm.1) "Error converting CryptoContent to byte vector");
               Ret (sec_ok (content, only_common_mac cm.2)));
   footer ←? Ret (Footer_into ef.2);
   Ret (sec_ok (CryptoHeader_write (CryptoHeader_from (mkBCH (transformation_kind k) (sender_key_id k) iv)) ++ ef.1 ++ footer))).
Proof.
  intros Hs Hn Hk. unfold encode_serialized_payload, session_encoding_materials, get_common_encode_key_materials. rewrite Hs.
  unfold try_bind at 1 2 3. cbn -[km_select initialization_vector]. fold k iv. rewrite Hk. cbn -[initialization_vector CryptoHeader_write CryptoHeader_from]. by destruct (transformation_kind k).
Qed.

Lemma decode_materials s h ks scope iv (k := km_select ks scope) sk :
  decode_key_materials s !! h = Some ks -> usable (master_receiver_specific_key k) \/ receiver_specific_key_id k = KeyId_ZERO ->
  compute_session_key false (master_sender_key k) (master_salt k) iv = Ret sk ->
  exists o, get_session_decode_crypto_materials s h (sender_key_id k) scope iv =
            Ret (Some (mkDSM (sender_key_id k) (transformation_kind k) sk o)).
Proof.
  intros Hs Hr Hk. unfold get_session_decode_crypto_materials, get_decode_key_material. rewrite Hs. cbn -[km_select].
  fold k. rewrite bool_decide_true by done. rewrite Hk. unfold mbind at 1, outcome_bind at 1.
  unfold KeyId_is_zero. case_bool_decide; [cbn; eauto|]. destruct Hr as [Hr|Hr]; [|done].
  destruct (session_key_usable true _ (master_salt k) iv Hr) as (r & -> & _). cbn. eauto.
Qed.

Lemma decode_payload_eq e (hd : BuiltinCryptoHeader) (content foot : bytes) m h s ks (k := km_select ks PayloadOnly) sk :
  length (bch_key_id hd) = 4%nat -> length (bch_iv hd) = 12%nat ->
  length foot = minimal_serialized_len -> Footer_try_from foot = inl (only_common_mac m) ->
  decode_key_materials s !! h = Some ks -> sender_key_id k = bch_key_id hd -> transformation_kind k = bch_kind hd ->
  bch_kind hd <> CRYPTO_TRANSFORMATION_KIND_NONE -> usable (master_receiver_specific_key k) \/ receiver_specific_key_id k = KeyId_ZERO ->
  compute_session_key false (master_sender_key k) (master_salt k) (bch_iv hd) = Ret sk ->
  decode_serialized_payload e (CryptoHeader_write (CryptoHeader_from hd) ++ content ++ foot) h s =
  (if is_gmac (bch_kind hd) then _ ←? validate_mac sk (bch_iv hd) content m; Ret (sec_ok content)
   else ciphertext ←? Ret (ok_or (of_reader (CryptoContent_read e) content) "Serialization/deserialization error");
        decrypt sk (bch_iv hd) ciphertext m).
Proof.
  intros Hi Hv Hf Ef Hs Eid Ekind Hn Hr Hk. destruct (header_roundtrip hd Hi Hv) as (E1 & E2 & E3).
  destruct (payload_split _ content foot E3 Hf) as (F1 & F2 & F3 & F4). unfold decode_serialized_payload. cbv zeta.
  rewrite F1, F2, F3, F4, E1, Ef. unfold try_bind at 1 2 3 4. cbn -[BuiltinCryptoHeader_try_from]. rewrite E2. cbn.
  destruct (decode_materials s h ks PayloadOnly (bch_iv hd) sk Hs Hr Hk) as [o Eo]. fold k in Eo. rewrite Eid, Ekind in Eo.
  unfold session_decode_crypto_materials. rewrite Eo. cbn. rewrite bool_decide_true by done. cbn. by destruct (bch_kind hd).
Qed.

Lemma payload_roundtrip e suffix (p : bytes) h s ks h' s' ks' :
  common_encode_key_materials s !! h = Some (CekmSome ks) -> decode_key_materials s' !! h' = Some ks' ->
  km_ok (km_select ks PayloadOnly) -> km_ok (km_select ks' PayloadOnly) ->
  same_sender (km_select ks PayloadOnly) (km_select ks' PayloadOnly) ->
  transformation_kind (km_select ks PayloadOnly) <> CRYPTO_TRANSFORMATION_KIND_NONE ->
  length suffix = 8%nat -> Z.of_nat (length p) < 2 ^ 32 ->
  exists enc, encode_serialized_payload e suffix p h s = Ret (inl enc) /\ decode_serialized_payload e enc h' s' = Ret (inl p).
Proof.
  set (k := km_select ks PayloadOnly). set (k' := km_select ks' PayloadOnly).
  intros Hs Hs' Hk Hk' [Ekind Esalt Eid Ekey] Hn Hsuf Hp.
  assert (length (initialization_vector suffix) = 12%nat) as Hiv by (unfold initialization_vector, session_id; cbn; by rewrite Hsuf).
  destruct (session_key_usable false (master_sender_key k) (master_salt k) (initialization_vector suffix)) as (sk & Esk & Hsk);
    [eapply fits_usable; [exact Hn|]; by apply ko_key|].
  destruct (protected_content e (transformation_kind k) sk _ p Hsk Hiv Hp) as (content & mac & Hm & E1 & E2).
  destruct (footer_bytes mac Hm) as (foot & F1 & F2 & F3).
  rewrite (encode_payload_eq e suffix p h s ks sk Hs Hn Esk). fold k. rewrite E1. unfold try_bind. cbn -[CryptoHeader_write CryptoHeader_from]. rewrite F1.
  eexists. split; [done|]. etrans; [|exact E2].
  apply (decode_payload_eq e (mkBCH (transformation_kind k) (sender_key_id k) (initialization_vector suffix)) content foot mac h' s' ks' sk);
    cbn; [by apply ko_id|done..| |by fold k'; rewrite Ekey, Esalt].
  fold k'. pose proof (ko_receiver _ Hk') as Hr. unfold KeyId_is_zero in Hr. case_bool_decide; [by right|left].
  eapply fits_usable; [|exact Hr]. by rewrite Ekind.
Qed.
End cipher.

(** ** Registration *)

(** Handles are given out in order, and key id zero is never given out. *)
Record handles_ok (s : CryptographicBuiltin) : Prop := {
  ho_counter : 0 <= crypto_handle_counter s;
  ho_zero : KeyId_ZERO ∈ used_local_key_ids s;
  ho_common h : crypto_handle_counter s < h -> common_encode_key_materials s !! h = None;
  ho_receiver h : crypto_handle_counter s < h -> receiver_specific_encode_key_materials s !! h = None;
  ho_options h : crypto_handle_counter s < h -> endpoint_encrypt_options s !! h = None;
  ho_remote h : crypto_handle_counter s < h -> matched_remote_endpoint s !! h = None;
}.

(** The random number generator gives keys of the right length, and a key id that is not in use. *)
Definition rand_works (r : Rand) (s : CryptographicBuiltin) : Prop :=
  rand_ok r /\ exists id, id ∈ rnd_ids r /\ id ∉ used_local_key_ids s.

Section registration.
Context `{CD : CryptoDeps}.
Implicit Types (s : CryptographicBuiltin) (h : Z) (r : Rand).

Lemma new_handles_ok : handles_ok CryptographicBuiltin_new.
Proof. split; try (intros; apply lookup_empty); cbn; [lia|set_solver]. Qed.

Lemma run_wp {A} (m : CB A) s a s' (Q : A -> CryptographicBuiltin -> list Empty_set -> Prop) :
  m s = Ret (a, s', []) -> Q a s' [] -> wp m s Q.
Proof. intros E HQ. apply wp_run. eauto. Qed.

Lemma run_generate_handle s : crypto_handle_counter s + 1 < 2 ^ 32 -> 0 <= crypto_handle_counter s ->
  generate_crypto_handle s = Ret (crypto_handle_counter s + 1, cb_set_counter s (crypto_handle_counter s + 1), []).
Proof. intros H1 H2. unfold generate_crypto_handle, mbind, act_bind, modify_st, get_st. by rewrite wrap_u_id by (unfold in_u; lia). Qed.

Lemma run_insert_common s h ks : common_encode_key_materials s !! h = None ->
  insert_common_encode_key_materials h ks s = Ret (inl tt, cb_set_common s (<[h := ks]> (common_encode_key_materials s)), []).
Proof. intros E. unfold insert_common_encode_key_materials, insert_new, mbind, act_bind, get_st, modify_st. by rewrite E. Qed.
Lemma run_insert_receiver s h ks : receiver_specific_encode_key_materials s !! h = None ->
  insert_receiver_specific_encode_key_materials h ks s =
  Ret (inl tt, cb_set_receiver s (<[h := ks]> (receiver_specific_encode_key_materials s)), []).
Proof. intros E. unfold insert_receiver_specific_encode_key_materials, insert_new, mbind, act_bind, get_st, modify_st. by rewrite E. Qed.
Lemma run_insert_options s h a : endpoint_encrypt_options s !! h = None ->
  insert_endpoint_attributes h a s =
  Ret (inl tt, cb_set_options s (participant_encrypt_options s) (<[h := a]> (endpoint_encrypt_options s)), []).
Proof. intros E. unfold insert_endpoint_attributes, insert_new, mbind, act_bind, get_st, modify_st. by rewrite E. Qed.
Lemma run_insert_decode s h ks : decode_key_materials s !! h = None ->
  insert_decode_key_materials h ks s = Ret (inl tt, cb_set_decode s (<[h := ks]> (decode_key_materials s)), []).
Proof. intros E. unfold insert_decode_key_materials, insert_new, mbind, act_bind, get_st, modify_st. by rewrite E. Qed.

Lemma run_generate_key_id ids s : (exists id, id ∈ ids /\ id ∉ used_local_key_ids s) ->
  exists id, generate_key_id ids s = Ret (id, s, []) /\ id ∈ ids /\ id ∉ used_local_key_ids s.
Proof.
  induction ids as [|i ids IH]; intros (id & Hin & Hu); [set_solver|]. cbn [generate_key_id]. unfold mbind, act_bind, get_st.
  case_decide as Hi.
  - destruct IH as (j & -> & Hj & Hu'); [exists id; set_solver|]. exists j. set_solver.
  - exists i. split; [done|]. set_solver.
Qed.

Lemma random_fits r kind : rand_ok r ->
  fits kind (generate_random (rnd_salt128 r) (rnd_salt256 r) (KeyLength_from kind)) /\
  fits kind (generate_random (rnd_key128 r) (rnd_key256 r) (KeyLength_from kind)).
Proof. intros (H1 & H2 & H3 & H4 & _). by destruct kind. Qed.

Lemma run_generate_key_material r kind s : rand_works r s ->
  exists k, generate_key_material r kind s = Ret (k, s, []) /\ km_ok k /\ transformation_kind k = kind.
Proof.
  intros [Hr Hid]. destruct (random_fits r kind Hr) as [F1 F2]. destruct (run_generate_key_id _ _ Hid) as (id & E & Hin & _).
  unfold generate_key_material, mbind, act_bind. rewrite E. eexists. split; [done|]. split; [|done].
  destruct Hr as (_ & _ & _ & _ & Hl). split; cbn; [done|done| |done|done].
  rewrite Forall_forall in Hl. by apply Hl.
Qed.

Lemma run_writer_key_materials r r' a plugin use_256 s : rand_works r s -> rand_works r' s ->
  exists ks, writer_key_materials r r' a plugin use_256 s = Ret (ks, s, []) /\ Forall km_ok (km_seq_into ks) /\
    transformation_kind (km_select ks PayloadOnly) =
      transformation_kind_for (is_payload_protected a) (is_payload_encrypted plugin) use_256.
Proof.
  intros Hr Hr'. unfold writer_key_materials. unfold mbind at 1, act_bind at 1.
  match goal with |- context [generate_key_material r ?kind s] => destruct (run_generate_key_material r kind s Hr) as (k & -> & Hk & Ek) end.
  case_bool_decide as Eb.
  - exists (KmOne k). split; [done|]. split; [by apply Forall_singleton|]. cbn. by rewrite Ek.
  - unfold mbind at 1, act_bind at 1.
    match goal with |- context [generate_key_material r' ?kind s] => destruct (run_generate_key_material r' kind s Hr') as (p & -> & Hp & Ep) end.
    exists (KmTwo k p). split; [done|]. split; [cbn; by rewrite Forall_cons, Forall_singleton|done].
Qed.

Lemma add_receiver_key_ok ks id key :
  Forall km_ok (km_seq_into ks) -> length id = 4%nat ->
  (if KeyId_is_zero id then key = KeyNone else fits (transformation_kind (key_material ks)) key) ->
  Forall km_ok (km_seq_into (add_master_receiver_specific_key ks id key)) /\
  forall scope, same_sender (km_select ks scope) (km_select (add_master_receiver_specific_key ks id key) scope).
Proof.
  intros Hk Hid Hkey. assert (forall k, km_ok k -> transformation_kind k = transformation_kind (key_material ks) ->
    km_ok (mkKeyMaterial (transformation_kind k) (master_salt k) (sender_key_id k) (master_sender_key k) id key)) as Hadd.
  { intros k [] E. split; cbn; [done..|]. by rewrite E. }
  destruct ks as [k|k p]; cbn in *; rewrite ?Forall_cons in Hk; rewrite ?Forall_cons; (split; [naive_solver|by intros []]).
Qed.

Lemma run_receiver_key r ks oa s :
  rand_works r s -> KeyId_ZERO ∈ used_local_key_ids s -> Forall km_ok (km_seq_into ks) ->
  exists ks', generate_receiver_specific_key r ks oa s = Ret (ks', s, []) /\ Forall km_ok (km_seq_into ks') /\
    forall scope, same_sender (km_select ks scope) (km_select ks' scope).
Proof.
  intros [Hr Hid] H0 Hk. unfold generate_receiver_specific_key. destruct oa.
  - destruct (run_generate_key_id _ _ Hid) as (id & E & Hin & Hu). unfold mbind, act_bind. rewrite E.
    eexists. split; [done|]. apply add_receiver_key_ok; [done|destruct Hr as (_ & _ & _ & _ & Hl); rewrite Forall_forall in Hl; by apply Hl|].
    unfold KeyId_is_zero. rewrite bool_decide_false by (by intros ->). by apply random_fits.
  - eexists. split; [done|]. by apply add_receiver_key_ok.
Qed.

Lemma wp_try_run {A B} (m : CB (SecurityResult A)) (f : A -> CB (SecurityResult B)) s a s' Q :
  m s = Ret (inl a, s', []) -> wp (f a) s' Q -> wp (try_bind m f) s Q.
Proof. intros E H. unfold try_bind. apply wp_bind, (run_wp _ _ _ _ _ E). eapply wp_mono; [exact H|done]. Qed.
Lemma wp_run_bind {A B} (m : CB A) (f : A -> CB B) s a s' Q :
  m s = Ret (a, s', []) -> wp (f a) s' Q -> wp (m ≫= f) s Q.
Proof. intros E H. apply wp_bind, (run_wp _ _ _ _ _ E). eapply wp_mono; [exact H|done]. Qed.

Lemma writer_registered r r' participant properties a plugin s :
  handles_ok s -> crypto_handle_counter s + 1 < 2 ^ 32 -> CryptographicBuiltin_is_volatile properties = false ->
  BuiltinPluginEndpointSecurityAttributes_try_from (plugin_endpoint_attributes a) = inl plugin ->
  rand_works r s -> rand_works r' s ->
  wp (register_local_datawriter r r' participant properties a) s (fun res s' _ =>
    exists ks, let h := crypto_handle_counter s + 1 in
    res = inl h /\ handles_ok s' /\ crypto_handle_counter s' = h /\ used_local_key_ids s' = used_local_key_ids s /\
    common_encode_key_materials s' !! h = Some (CekmSome ks) /\ Forall km_ok (km_seq_into ks) /\
    transformation_kind (km_select ks PayloadOnly) =
      transformation_kind_for (is_payload_protected a) (is_payload_encrypted plugin) (use_256_bit_key properties) /\
    endpoint_encrypt_options s' !! h = Some a /\ matched_remote_endpoint s' !! h = None).
Proof.
  intros Ho Hc Hv Hp Hr Hr'. destruct Ho as [H0 Hz Hcm Hrc Hopt Hrem]. unfold register_local_datawriter.
  eapply wp_try_run; [cbn; by rewrite Hp|]. set (h := crypto_handle_counter s + 1).
  eapply wp_run_bind; [by apply run_generate_handle|]. fold h. set (s1 := cb_set_counter s h). cbv zeta.
  rewrite Hv. destruct (run_writer_key_materials r r' a plugin (use_256_bit_key properties) s1 Hr Hr') as (ks & Eks & Hks & Ekind).
  eapply wp_try_run.
  { unfold mbind, act_bind. rewrite Eks, run_insert_common; [done|]. cbn. apply Hcm. lia. }
  eapply wp_try_run; [apply run_insert_options; cbn; apply Hopt; lia|].
  eapply wp_run_bind; [done|]. eapply wp_run_bind; [done|]. apply wp_ret. exists ks. cbv zeta.
  split_and!; [done| |done..|cbn; by rewrite lookup_insert_eq|done|done|cbn; by rewrite lookup_insert_eq|cbn; apply Hrem; lia].
  split; cbn; [lia|done| |by intros; apply Hrc; lia| |by intros; apply Hrem; lia];
    intros h' Hh'; (rewrite lookup_insert_ne by lia); [apply Hcm|apply Hopt]; lia.
Qed.

Lemma reader_matched r h remote_participant secret ks a plugin s :
  handles_ok s -> crypto_handle_counter s + 1 < 2 ^ 32 -> h <= crypto_handle_counter s ->
  common_encode_key_materials s !! h = Some (CekmSome ks) -> Forall km_ok (km_seq_into ks) ->
  endpoint_encrypt_options s !! h = Some a ->
  BuiltinPluginEndpointSecurityAttributes_try_from (plugin_endpoint_attributes a) = inl plugin ->
  matched_remote_endpoint s !! h ≫= (fun m => m !! remote_participant) = None -> rand_works r s ->
  wp (register_matched_remote_datareader r h remote_participant secret) s (fun res s' _ =>
    exists ks', let h' := crypto_handle_counter s + 1 in
    res = inl h' /\ common_encode_key_materials s' = common_encode_key_materials s /\
    receiver_specific_encode_key_materials s' !! h' = Some ks' /\ Forall km_ok (km_seq_into ks') /\
    forall scope, same_sender (km_select ks scope) (km_select ks' scope)).
Proof.
  intros Ho Hc Hh Hks Hok Ha Hp Hm Hr. destruct Ho as [H0 Hz Hcm Hrc Hopt Hrem].
  unfold register_matched_remote_datareader, register_matched_remote_endpoint. eapply wp_run_bind; [done|].
  eapply wp_try_run; [unfold get_common_encode_key_materials; by rewrite Hks|]. set (h' := crypto_handle_counter s + 1).
  eapply wp_run_bind.
  { unfold get_or_generate_matched_remote_endpoint_crypto_handle. unfold mbind at 1, act_bind at 1, get_st at 1. rewrite Hm.
    unfold mbind, act_bind, modify_st, mret, act_ret. by rewrite run_generate_handle. }
  match goal with |- wp _ ?st _ => set (s1 := st) end.
  destruct (run_receiver_key r ks (is_submessage_origin_authenticated plugin) s1 Hr Hz Hok) as (ks' & Ek & Hok' & Hsame).
  eapply wp_try_run.
  { unfold mbind at 1, act_bind at 1, get_st at 1. unfold try_bind, mbind, act_bind, mret at 1, act_ret. unfold ok_or.
    change (endpoint_encrypt_options s1) with (endpoint_encrypt_options s). rewrite Ha. cbn -[generate_receiver_specific_key]. rewrite Hp, Ek. done. }
  eapply wp_try_run; [apply run_insert_receiver; apply Hrc; lia|].
  eapply wp_run_bind; [done|]. eapply wp_run_bind; [done|]. apply wp_ret. exists ks'. cbv zeta. cbn. rewrite Ha.
  split_and!; [done|done|cbn; by rewrite lookup_insert_eq|done|done].
Qed.
End registration.

(** ** Setting up, sending and receiving *)

Section delivery.
Context `{SP : Speedy, SL : !SpeedyLaws SP, CD : CryptoDeps, CL : !CryptoLaws CD}.

Lemma km_select_ok ks scope : Forall km_ok (km_seq_into ks) -> km_ok (km_select ks scope).
Proof. destruct ks, scope; cbn; rewrite !Forall_cons; naive_solver. Qed.

(** A writer is registered and matched with a remote reader, and the tokens for
    that reader are made. *)
Definition writer_setup (r r' r'' : Rand) (participant : Z) properties attributes (remote_participant : Z) secret
  : CB (SecurityResult (Z * list DataHolder)) :=
  h ←? register_local_datawriter r r' participant properties attributes;
  hr ←? register_matched_remote_datareader r'' h remote_participant secret;
  ts ←? create_local_crypto_tokens hr;
  mret (sec_ok (h, ts)).

Lemma wp_try {A B} (m : CB (SecurityResult A)) (f : A -> CB (SecurityResult B)) s Q :
  wp m s (fun res s' _ => exists a, res = inl a /\ wp (f a) s' (fun b s'' _ => Q b s'')) -> wp (try_bind m f) s (fun b s' _ => Q b s').
Proof.
  intros H. unfold try_bind. apply wp_bind. eapply wp_mono; [exact H|]. intros res s' evs (x & -> & H').
  eapply wp_mono; [exact H'|done].
Qed.

Lemma setup_keys r r' r'' participant properties a plugin remote_participant secret s :
  handles_ok s -> crypto_handle_counter s + 2 < 2 ^ 32 -> CryptographicBuiltin_is_volatile properties = false ->
  BuiltinPluginEndpointSecurityAttributes_try_from (plugin_endpoint_attributes a) = inl plugin ->
  rand_works r s -> rand_works r' s -> rand_works r'' s ->
  wp (writer_setup r r' r'' participant properties a remote_participant secret) s (fun res s' _ =>
    exists h ts ks ks', res = inl (h, ts) /\ km_seq_from_tokens ts = inl ks' /\
      common_encode_key_materials s' !! h = Some (CekmSome ks) /\
      Forall km_ok (km_seq_into ks) /\ Forall km_ok (km_seq_into ks') /\
      (forall scope, same_sender (km_select ks scope) (km_select ks' scope)) /\
      transformation_kind (km_select ks PayloadOnly) =
        transformation_kind_for (is_payload_protected a) (is_payload_encrypted plugin) (use_256_bit_key properties)).
Proof.
  intros Ho Hc Hv Hp Hr Hr' Hr''. unfold writer_setup. apply wp_try.
  eapply wp_mono; [apply (writer_registered r r' participant properties a plugin s); (done || lia)|].
  intros res s1 _ (ks & -> & Ho1 & Ec & Eu & Hks & Hok & Ekind & Ha & Hm). eexists. split; [done|]. apply wp_try.
  eapply wp_mono.
  { apply (reader_matched r'' _ remote_participant secret ks a plugin s1); try done; [lia|lia|by rewrite Hm|].
    unfold rand_works in *. by rewrite Eu. }
  intros res s2 _ (ks' & -> & Ecm & Hks' & Hok' & Hsame). eexists. split; [done|].
  destruct (tokens_roundtrip ks' Hok') as (ts & E1 & E2). eapply wp_try_run.
  { unfold create_local_crypto_tokens, get_receiver_specific_encode_key_materials, mbind, act_bind, get_st. rewrite Hks'. cbn. by rewrite E1. }
  apply wp_ret. exists (crypto_handle_counter s + 1), ts, ks, ks'. rewrite Ecm. by split_and!.
Qed.

(** C29: payload protection end to end.  A writer is registered, matched with a
    remote reader, and its tokens are handed to the plugin of that reader; every
    step succeeds.  Then the reader's plugin decodes exactly the payload that the
    writer's plugin encoded, for all kinds of protection, byte orders and
    payloads of less than 4 GiB; without payload protection it is sent as it is. *)
Theorem secured_payload_delivered r r' r'' participant properties a plugin remote_participant secret s t writer :
  handles_ok s -> crypto_handle_counter s + 2 < 2 ^ 32 -> CryptographicBuiltin_is_volatile properties = false ->
  BuiltinPluginEndpointSecurityAttributes_try_from (plugin_endpoint_attributes a) = inl plugin ->
  rand_works r s -> rand_works r' s -> rand_works r'' s -> decode_key_materials t !! writer = None ->
  wp (writer_setup r r' r'' participant properties a remote_participant secret) s (fun res s' _ =>
    exists h tokens, res = inl (h, tokens) /\
    wp (set_remote_crypto_tokens writer tokens) t (fun res t' _ => res = inl tt /\
      forall e suffix (payload : bytes), length suffix = 8%nat -> Z.of_nat (length payload) < 2 ^ 32 ->
      exists encoded, encode_serialized_payload e suffix payload h s' = Ret (inl encoded) /\
        if is_payload_protected a then decode_serialized_payload e encoded writer t' = Ret (inl payload)
        else encoded = payload)).
Proof.
  intros Ho Hc Hv Hp Hr Hr' Hr'' Ht. eapply wp_mono; [by apply (setup_keys r r' r'' participant properties a plugin)|].
  intros res s' _ (h & ts & ks & ks' & -> & Ets & Hks & Hok & Hok' & Hsame & Ekind). exists h, ts. split; [done|].
  unfold set_remote_crypto_tokens. eapply wp_try_run; [by rewrite Ets|].
  eapply run_wp; [by apply run_insert_decode|]. split; [done|]. intros e suffix p Hs Hl.
  destruct (is_payload_protected a) eqn:Epp.
  - apply (payload_roundtrip e suffix p h s' ks writer _ ks'); try done; [cbn; by rewrite lookup_insert_eq|by apply km_select_ok..|].
    rewrite Ekind. by destruct (is_payload_encrypted plugin), (use_256_bit_key properties).
  - exists p. split; [|done]. unfold encode_serialized_payload, session_encoding_materials, get_common_encode_key_materials. rewrite Hks.
    unfold try_bind at 1 2 3. cbn -[km_select initialization_vector]. pose proof (ko_key _ (km_select_ok _ PayloadOnly Hok)) as [Ef _].
    rewrite Ekind in Ef |- *. destruct (master_sender_key (km_select ks PayloadOnly)); done.
Qed.

(** ** Only what was authenticated *)

Lemma try_inv {A B} (m : outcome (SecurityResult A)) (f : A -> outcome (SecurityResult B)) b :
  try_bind m f = Ret (inl b) -> exists x, m = Ret (inl x) /\ f x = Ret (inl b).
Proof. unfold try_bind. destruct m as [[x|]| |]; cbn; try done. eauto. Qed.
Lemma ok_or_inv {A} (o : option A) m x : Ret (ok_or o m) = Ret (inl x) -> o = Some x.
Proof. destruct o; cbn; [by intros [= ->]|done]. Qed.

Lemma Kind_try_from_inv b k : Kind_try_from b = inl k -> b = Kind_into k.
Proof. unfold Kind_try_from, sec_ok, sec_err. intros H. repeat case_bool_decide; by simplify_eq. Qed.

(** The header is the first bytes, and its kind is known. *)
Lemma header_inv (b : bytes) ch h : length b = BuiltinCryptoHeader_serialized_len ->
  of_reader CryptoHeader_read b = Some ch -> BuiltinCryptoHeader_try_from ch = inl h ->
  b = Kind_into (bch_kind h) ++ bch_key_id h ++ bch_iv h.
Proof.
  unfold BuiltinCryptoHeader_serialized_len. intros Hl Hr Ht.
  unfold of_reader, CryptoHeader_read, mbind, reader_bind, read_bytes in Hr. repeat (case_decide; cbn in Hr; [|done]).
  destruct (Kind_try_from (take 4 b)) as [kind|] eqn:Ek; cbn in Hr; [|done]. case_decide; cbn in Hr; [|done]. injection Hr as <-.
  unfold BuiltinCryptoHeader_try_from in Ht. cbn in Ht. rewrite Ek in Ht. cbn in Ht.
  destruct (_ =? _)%nat; [|done]. injection Ht as <-. cbn [bch_kind bch_key_id bch_iv].
  rewrite <- (Kind_try_from_inv _ _ Ek), <- (take_drop 4 b) at 1. f_equal. rewrite <- (take_drop 4 (drop 4 b)) at 1. f_equal.
  rewrite take_ge; [done|]. rewrite !length_drop. lia.
Qed.

Lemma unbound_inv k b : to_unbound_AES_GCM_key k = Ret (inl b) -> b = BuiltinKey_as_bytes k.
Proof. destruct k; cbn -[Nat.eqb]; [done|..]; destruct (_ =? _)%nat; cbn; intros H; by simplify_eq. Qed.
Lemma validate_mac_inv k iv data m : validate_mac k iv data m = Ret (inl tt) -> is_Some (gcm_open (BuiltinKey_as_bytes k) iv data m).
Proof. intros (b & ->%unbound_inv & H)%try_inv. destruct (gcm_open _ _ _ _); [eauto|done]. Qed.
Lemma decrypt_inv k iv c m p : decrypt k iv c m = Ret (inl p) -> gcm_open (BuiltinKey_as_bytes k) iv [] (c ++ m) = Some p.
Proof. intros (b & ->%unbound_inv & H)%try_inv. destruct (gcm_open _ _ _ _); [by injection H as ->|done]. Qed.

(** The material that is used was received from the sender, and it has the key id
    that was asked for; there is a key for the MAC of this receiver exactly if the
    sender has sent one. *)
Lemma session_materials_inv t h id scope iv m :
  get_session_decode_crypto_materials t h id scope iv = Ret (Some m) ->
  exists ks, let k := km_select ks scope in
    decode_key_materials t !! h = Some ks /\ sender_key_id k = id /\ dsm_transformation_kind m = transformation_kind k /\
    compute_session_key false (master_sender_key k) (master_salt k) iv = Ret (dsm_session_key m) /\
    (receiver_specific_key_id k <> KeyId_ZERO -> exists rkey,
       compute_session_key true (master_receiver_specific_key k) (master_salt k) iv = Ret rkey /\
       dsm_receiver_specific_key m = Some (mkRSKM (receiver_specific_key_id k) rkey)).
Proof.
  unfold get_session_decode_crypto_materials, get_decode_key_material.
  destruct (decode_key_materials t !! h) as [ks|]; [|done]. cbn -[km_select]. case_bool_decide as Eid; [|done].
  set (k := km_select ks scope) in *.
  destruct (compute_session_key false _ _ _) as [sk| |] eqn:Esk; cbn; [|done..].
  unfold KeyId_is_zero. case_bool_decide; cbn; [intros [= <-]; by exists ks|].
  destruct (compute_session_key true _ _ _) as [rkey| |] eqn:Er; cbn; [|done..].
  intros [= <-]. exists ks. split_and!; [done..|]. intros _. by exists rkey.
Qed.

Lemma decode_materials_inv t h id scope iv m :
  session_decode_crypto_materials t h id scope iv = Ret (inl m) ->
  exists ks, let k := km_select ks scope in
    decode_key_materials t !! h = Some ks /\ sender_key_id k = id /\ dsm_transformation_kind m = transformation_kind k /\
    compute_session_key false (master_sender_key k) (master_salt k) iv = Ret (dsm_session_key m).
Proof.
  unfold session_decode_crypto_materials. destruct (get_session_decode_crypto_materials _ _ _ _ _) as [[m'|]| |] eqn:E; try done.
  intros [= <-]. apply session_materials_inv in E as (ks & ? & ? & ? & ? & _). by exists ks.
Qed.

(** C30: authenticity.  When the plugin of a reader accepts a payload from a writer,
    the bytes name a transformation and a key id that are those of the decode material
    received from that writer - the key id is compared, though the comment in
    [get_decode_key_material] says that it is ignored -, and the cipher has authenticated the result under the session
    key of that material: for a GMAC kind the content under the MAC of the footer,
    for a GCM kind the plain text is what the cipher opened.  Bytes without
    protection (kind NONE) are never accepted. *)
Theorem accepted_payload_authentic e (encoded : bytes) writer t payload :
  decode_serialized_payload e encoded writer t = Ret (inl payload) ->
  exists ks iv (content foot : bytes) footer key,
    let k := km_select ks PayloadOnly in
    decode_key_materials t !! writer = Some ks /\ transformation_kind k <> CRYPTO_TRANSFORMATION_KIND_NONE /\
    encoded = Kind_into (transformation_kind k) ++ sender_key_id k ++ iv ++ content ++ foot /\
    Footer_try_from foot = inl footer /\
    compute_session_key false (master_sender_key k) (master_salt k) iv = Ret key /\
    if is_gmac (transformation_kind k) then
      payload = content /\ is_Some (gcm_open (BuiltinKey_as_bytes key) iv content (common_mac footer))
    else
      exists ciphertext, of_reader (CryptoContent_read e) content = Some ciphertext /\
        gcm_open (BuiltinKey_as_bytes key) iv [] (ciphertext ++ common_mac footer) = Some payload.
Proof.
  unfold decode_serialized_payload. destruct (_ <? _)%nat eqn:Hlen; [done|]. apply Nat.ltb_ge in Hlen. cbv zeta.
  intros (ch & Ech%ok_or_inv & (h & Eh & (footer & Ef & (m & Em & H)%try_inv)%try_inv)%try_inv)%try_inv.
  injection Eh as Eh. injection Ef as Ef.
  assert (take BuiltinCryptoHeader_serialized_len encoded = Kind_into (bch_kind h) ++ bch_key_id h ++ bch_iv h) as Ehd.
  { eapply header_inv; [|done|done]. rewrite length_take. lia. }
  destruct (decode_materials_inv _ _ _ _ _ _ Em) as (ks & Eks & Eid & Ekind & Esk).
  set (rest := drop BuiltinCryptoHeader_serialized_len encoded) in *. set (n := (length rest - minimal_serialized_len)%nat) in *.
  case_bool_decide as Ek; [|done]. cbn [negb] in H. rewrite Ekind in Ek.
  exists ks, (bch_iv h), (take n rest), (drop n rest), footer, (dsm_session_key m). cbv zeta. rewrite Ek, Eid.
  assert (bch_kind h <> CRYPTO_TRANSFORMATION_KIND_NONE) as Hn by (intros E; by rewrite E in H).
  split_and!; [done|done| |done|done|].
  - rewrite take_drop. rewrite <- (take_drop BuiltinCryptoHeader_serialized_len encoded) at 1. by rewrite Ehd, <- !app_assoc.
  - destruct (bch_kind h); cbn [is_gmac] in *; try done;
      apply try_inv in H as (c & Hc & H);
      try (injection H as <-; split; [done|]; destruct c; by apply validate_mac_inv);
      (apply ok_or_inv in Hc; exists c; split; [done|]; by apply decrypt_inv).
Qed.
End delivery.

(** ** Removal *)

Section removal.
Implicit Types (s : CryptographicBuiltin) (h : Z).

(** No key and no security attribute of an endpoint is kept. *)
Definition no_keys s h : Prop :=
  common_encode_key_materials s !! h = None /\ receiver_specific_encode_key_materials s !! h = None /\
  decode_key_materials s !! h = None /\ endpoint_encrypt_options s !! h = None.

(** Keys do not come back, and local endpoints do not get new matches. *)
Definition shrinks s s' : Prop :=
  (forall h, no_keys s h -> no_keys s' h) /\ (size (matched_remote_endpoint s') <= size (matched_remote_endpoint s))%nat /\
  participant_encrypt_options s' = participant_encrypt_options s.
#[local] Instance shrinks_preorder : PreOrder shrinks.
Proof. split; [by intros s|]. intros s1 s2 s3 (H1 & H2 & H3) (H4 & H5 & H6). split_and!; [auto|lia|by rewrite H6]. Qed.

Lemma erase_entries s h (s' := cb_set_options
    (cb_set_decode (cb_set_receiver (cb_set_common s (delete h (common_encode_key_materials s)))
       (delete h (receiver_specific_encode_key_materials s))) (delete h (decode_key_materials s)))
    (participant_encrypt_options s) (delete h (endpoint_encrypt_options s))) :
  shrinks s s' /\ no_keys s' h.
Proof.
  split; [split_and!; [|done|done]|].
  - intros h' (H1 & H2 & H3 & H4). split_and!; cbn; rewrite lookup_delete; case_decide; done.
  - split_and!; cbn; apply lookup_delete_eq.
Qed.

Lemma wp_for_removed {A} (l : list A) (f : A -> CB unit) (g : A -> Z) n s :
  (forall x s, x ∈ l -> (size (matched_remote_endpoint s) < n)%nat -> wp (f x) s (fun _ s' _ => shrinks s s' /\ no_keys s' (g x))) ->
  (size (matched_remote_endpoint s) < n)%nat ->
  wp (act_for l f) s (fun _ s' _ => shrinks s s' /\ forall x, x ∈ l -> no_keys s' (g x)).
Proof.
  revert s. induction l as [|x l IH]; intros s Hf Hn; cbn [act_for]; [apply wp_ret; split; [done|set_solver]|].
  apply wp_bind. eapply wp_mono; [apply Hf; [set_solver|done]|]. intros _ s1 _ [Hs1 Hx].
  eapply wp_mono; [apply IH; [intros; apply Hf; [set_solver|done]|destruct Hs1; lia]|]. intros _ s2 _ [Hs2 Hl].
  split; [by etrans|]. intros y [->|Hy]%elem_of_cons; [by apply Hs2|auto].
Qed.

(** The matched remote endpoints go too, when the endpoint is a local one. *)
Definition matched_remotes s h : list Z :=
  match endpoint_to_participant s !! h, matched_local_endpoint s !! h, matched_remote_endpoint s !! h with
  | Some _, None, Some m => (map_to_list m).*2
  | _, _, _ => []
  end.

Lemma unregister_endpoint_removes fuel info s :
  (size (matched_remote_endpoint s) < fuel)%nat ->
  wp (unregister_endpoint fuel info) s (fun _ s' _ =>
    shrinks s s' /\ no_keys s' (ei_crypto_handle info) /\
    forall h, h ∈ matched_remotes s (ei_crypto_handle info) -> no_keys s' h).
Proof.
  revert info s. induction fuel as [|fuel IH]; intros info s Hn; [lia|]. cbn [unregister_endpoint]. set (h := ei_crypto_handle info).
  do 4 (eapply wp_run_bind; [done|]). eapply wp_run_bind; [done|].
  destruct (erase_entries s h) as [Hs Hh]. match type of Hs with shrinks _ ?st => set (s1 := st) in * end.
  match goal with |- context [endpoint_to_participant ?st !! h] => change (endpoint_to_participant st) with (endpoint_to_participant s) end.
  unfold matched_remotes.
  destruct (endpoint_to_participant s !! h) as [participant|]; [|apply wp_ret; split_and!; [done|done|set_solver]].
  eapply wp_run_bind; [done|]. eapply wp_run_bind; [done|].
  match goal with |- context [matched_local_endpoint ?st !! h] => change (matched_local_endpoint st) with (matched_local_endpoint s) end.
  destruct (matched_local_endpoint s !! h) as [local|].
  - apply wp_modify. split_and!; [|by apply Hh|set_solver]. destruct Hs as (Hs1 & Hs2 & Hs3). split_and!; [exact Hs1| |done]. cbn.
    destruct (matched_remote_endpoint s !! local) as [m|] eqn:Em; [|done]. by rewrite map_size_insert_Some by eauto.
  - match goal with |- wp (match matched_remote_endpoint ?st !! h with _ => _ end) _ _ =>
      change (matched_remote_endpoint st) with (matched_remote_endpoint s) end.
    destruct (matched_remote_endpoint s !! h) as [m|] eqn:Em; [|apply wp_ret; split_and!; [done|done|set_solver]].
    eapply wp_run_bind; [done|].
    match goal with |- wp _ ?st _ => assert (shrinks s st /\ (size (matched_remote_endpoint st) < fuel)%nat) as [Hs2 Hlt] end.
    { assert (size (matched_remote_endpoint s) <> 0%nat) by (eapply map_size_ne_0_lookup_2; eauto).
      cbn. rewrite map_size_delete_Some by eauto. split; [split_and!; [apply Hs|cbn; rewrite map_size_delete_Some by eauto; lia|done]|lia]. }
    eapply wp_mono; [apply (wp_for_removed _ _ (fun x => x) fuel); [|exact Hlt]|].
    + intros x s2 _ Hx. eapply wp_mono; [by apply IH|]. by intros _ s3 _ (H1 & H2 & _).
    + intros _ s2 _ [Hs3 Hl]. split_and!; [by etrans|by apply Hs3|done].
Qed.

(** C31: removal ends and leaves no key.  Unregistering an endpoint returns, and
    afterwards neither it nor the remote endpoints matched with it have key
    material or attributes; unregistering a participant returns, and afterwards
    neither it nor any of its registered endpoints has.  No other endpoint gets a
    key by it. *)
Theorem unregistered_keys_gone s :
  (forall info, wp (unregister info) s (fun _ s' _ =>
    (forall x, no_keys s x -> no_keys s' x) /\ no_keys s' (ei_crypto_handle info) /\
    forall h, h ∈ matched_remotes s (ei_crypto_handle info) -> no_keys s' h)) /\
  (forall h, wp (unregister_participant h) s (fun res s' _ =>
    res = inl tt /\ (forall x, no_keys s x -> no_keys s' x) /\
    common_encode_key_materials s' !! h = None /\ receiver_specific_encode_key_materials s' !! h = None /\
    decode_key_materials s' !! h = None /\ participant_encrypt_options s' !! h = None /\
    forall infos i, participant_to_endpoint_info s !! h = Some infos -> i ∈ infos -> no_keys s' (ei_crypto_handle i))).
Proof.
  assert (forall info s, wp (unregister info) s (fun _ s' _ => shrinks s s' /\ no_keys s' (ei_crypto_handle info) /\
    forall h, h ∈ matched_remotes s (ei_crypto_handle info) -> no_keys s' h)) as Hu.
  { intros info s0. unfold unregister. eapply wp_run_bind; [done|]. apply unregister_endpoint_removes. lia. }
  split.
  - intros info. eapply wp_mono; [apply Hu|]. by intros _ s' _ ([? _] & ? & ?).
  - intros h. unfold unregister_participant. eapply wp_run_bind; [done|]. eapply wp_run_bind; [done|].
    set (s1 := cb_set_options _ _ _). change (participant_to_endpoint_info s1) with (participant_to_endpoint_info s).
    apply wp_bind, (wp_mono _ _ (fun _ s' _ => (forall x, no_keys s x -> no_keys s' x) /\ participant_encrypt_options s' !! h = None /\
      forall infos i, participant_to_endpoint_info s !! h = Some infos -> i ∈ infos -> no_keys s' (ei_crypto_handle i))).
    { destruct (participant_to_endpoint_info s !! h) as [infos|]; [|apply wp_ret; split_and!; [done|apply lookup_delete_eq|done]].
      eapply wp_run_bind; [done|].
      eapply wp_mono; [apply (wp_for_removed _ _ ei_crypto_handle (S (size (matched_remote_endpoint s)))); [|cbn; lia]|].
      - intros i s2 _ _. eapply wp_mono; [apply Hu|]. by intros _ s3 _ (? & ? & _).
      - intros _ s2 _ [(H1 & _ & H2) Hl]. split_and!; [exact H1|rewrite H2; apply lookup_delete_eq|].
        intros infos' i [= <-] Hi. apply Hl. by apply elem_of_elements. }
    intros _ s2 _ (H1 & H2 & H3). do 3 (eapply wp_run_bind; [done|]). apply wp_ret.
    assert (forall x, no_keys s2 x -> no_keys (cb_set_decode (cb_set_receiver (cb_set_common s2 (delete h (common_encode_key_materials s2)))
       (delete h (receiver_specific_encode_key_materials s2))) (delete h (decode_key_materials s2))) x) as Hd.
    { intros x (? & ? & ? & ?). split_and!; cbn; rewrite ?lookup_delete; repeat case_decide; done. }
    split_and!; [done|auto|apply lookup_delete_eq..|done|]. intros infos i Hi Hin. apply Hd. eauto.
Qed.
End removal.

(** ** What the key factory leaves open *)

Section factory_facts.
Context `{CD : CryptoDeps}.

(** An id that was given out is not recorded as used: with the same random
    numbers it is given out again. *)
Lemma generate_key_id_not_recorded ids s id s' evs :
  generate_key_id ids s = Ret (id, s', evs) -> s' = s /\ generate_key_id ids s' = Ret (id, s', evs).
Proof.
  intros E. enough (s' = s) as -> by done. revert evs E.
  induction ids as [|i ids IH]; intros evs; cbn [generate_key_id]; [done|]. unfold mbind, act_bind, get_st.
  case_decide; [|by intros [= <- <- <-]].
  destruct (generate_key_id ids s) as [[[? ?] ?]| |]; [|done..]. intros [= -> -> <-]. by eapply IH.
Qed.

Lemma hashed_secret_length k secret key : hash_shared_secret k secret = Ret key -> BuiltinKey_key_length key = KLAES256.
Proof. unfold hash_shared_secret, BuiltinKey_from_bytes. destruct (_ <=? _)%nat; [by intros [= <-]|done]. Qed.

(** The keys derived for the volatile endpoints always have 256 bits, also when
    the kind is a 128-bit one. *)
Lemma volatile_key_length x ks :
  derive_volatile_key_materials x false = Ret ks ->
  transformation_kind (key_material ks) = CRYPTO_TRANSFORMATION_KIND_AES128_GCM /\
  BuiltinKey_key_length (master_sender_key (key_material ks)) = KLAES256.
Proof.
  unfold derive_volatile_key_materials, mbind, outcome_bind. destruct (hash_shared_secret _ _) as [salt| |]; [|done..].
  destruct (hash_shared_secret _ _) as [key| |] eqn:E; [|done..]. intros [= <-]. split; [done|]. by eapply hashed_secret_length.
Qed.
End factory_facts.

(** ** A cipher for the examples

    It does not hide anything, but it has the interface: the tag is computed from
    the key, the initialization vector and the text. *)

Definition toy_sum (b : bytes) : Z := foldl (fun a x => (31 * a + x + 7) mod 256) 1 b.
Definition toy_tag (key iv aad p : bytes) : bytes :=
  [toy_sum key; toy_sum iv; toy_sum aad; toy_sum p] ++ replicate 12 (toy_sum (key ++ iv ++ aad ++ p)).
Definition toy_open (key iv aad ct : bytes) : option bytes :=
  let n := (length ct - MAC_LENGTH)%nat in
  if bool_decide (drop n ct = toy_tag key iv aad (take n ct)) then Some (take n ct) else None.

Definition write_sized (b : bytes) : bytes := std_write 4 LittleEndian (Z.of_nat (length b)) ++ b.
Definition read_sized : reader bytes := n ← std_read 4 LittleEndian; read_bytes (Z.to_nat n).

Definition write_footer (f : BuiltinCryptoFooter) : bytes :=
  common_mac f ++ std_write 4 LittleEndian (Z.of_nat (length (receiver_specific_macs f))) ++
  concat ((fun m => receiver_mac_key_id m ++ receiver_mac m) <$> receiver_specific_macs f).
Definition read_footer : reader BuiltinCryptoFooter :=
  m ← read_bytes MAC_LENGTH; n ← std_read 4 LittleEndian;
  l ← read_n (Z.to_nat n) (i ← read_bytes 4; m ← read_bytes MAC_LENGTH; mret (mkRSMac i m));
  mret (mkFooter m l).
Definition write_keymat (m : Serializable_KeyMaterial) : bytes :=
  skm_transformation_kind m ++ write_sized (skm_master_salt m) ++ skm_sender_key_id m ++ write_sized (skm_master_sender_key m) ++
  skm_receiver_specific_key_id m ++ write_sized (skm_master_receiver_specific_key m).
Definition read_keymat : reader Serializable_KeyMaterial :=
  k ← read_bytes 4; s ← read_sized; i ← read_bytes 4; c ← read_sized; r ← read_bytes 4; rk ← read_sized;
  mret (mkSKM k s i c r rk).
Definition from_reader {A} (r : reader A) (b : bytes) : A + string :=
  match of_reader r b with Some x => inl x | None => inr "not enough data" end.

#[export] Instance toy_crypto : CryptoDeps := {|
  gcm_seal key iv aad p := Some (p, toy_tag key iv aad p);
  gcm_open := toy_open;
  hmac_sha256 k d := take 32 (k ++ d) ++ replicate (32 - length (k ++ d)) 0;
  crypto_sha256 d := take 32 d ++ replicate (32 - length d) 0;
  footer_to_vec f := inl (write_footer f);
  footer_from_bytes := from_reader read_footer;
  keymat_to_vec m := inl (write_keymat m);
  keymat_from_bytes := from_reader read_keymat;
|}.

Lemma read_written_u32 z rest : in_u 32 z -> std_read 4 LittleEndian (std_write 4 LittleEndian z ++ rest) = Some (z, rest).
Proof. exact (sp_read_write (S := std_speedy) 4 LittleEndian z rest). Qed.
Lemma read_written_sized b rest : (length b <= 32)%nat -> read_sized (write_sized b ++ rest) = Some (b, rest).
Proof.
  intros Hb. unfold read_sized, write_sized, mbind, reader_bind. rewrite <- app_assoc, read_written_u32 by (unfold in_u; pow2; lia).
  rewrite Nat2Z.id. by apply read_bytes_app.
Qed.

#[export] Instance toy_crypto_laws : CryptoLaws toy_crypto.
Proof.
  split.
  - intros key iv aad p _ _ _. exists p, (toy_tag key iv aad p). split_and!; [done|done|done|]. unfold gcm_open, toy_crypto, toy_open. cbv zeta.
    assert (length (toy_tag key iv aad p) = MAC_LENGTH) as Ht by done.
    rewrite length_app, Ht. replace (length p + MAC_LENGTH - MAC_LENGTH)%nat with (length p) by lia.
    by rewrite take_app_length, drop_app_length, bool_decide_true.
  - intros k d. cbn. rewrite length_app, length_take, length_replicate. lia.
  - intros f (Hm & Hn & Hl). eexists. split; [done|]. cbn. unfold from_reader, of_reader, read_footer, write_footer, mbind, reader_bind.
    rewrite read_bytes_app by done. rewrite read_written_u32 by (unfold in_u; lia). rewrite Nat2Z.id, <- (app_nil_r (concat _)).
    rewrite read_n_write; [by destruct f|]. intros [i m] rest Hin. rewrite Forall_forall in Hl. destruct (Hl _ Hin) as [Hi Hm'].
    cbn in Hi, Hm'. cbn. rewrite <- app_assoc, read_bytes_app by done. by rewrite read_bytes_app.
  - intros f b (Hm & _ & Hl) [= <-]. unfold write_footer. rewrite !length_app, Hm.
    assert (length (std_write 4 LittleEndian (Z.of_nat (length (receiver_specific_macs f)))) = 4%nat) as -> by done.
    enough (length (concat ((fun m => receiver_mac_key_id m ++ receiver_mac m) <$> receiver_specific_macs f)) =
            length (receiver_specific_macs f) * (4 + MAC_LENGTH))%nat as -> by (unfold minimal_serialized_len; lia).
    induction Hl as [|m l [Hi Hr] _ IH]; csimpl; [done|]. rewrite !length_app, IH, Hi, Hr. unfold MAC_LENGTH. lia.
  - intros m (H1 & H2 & H3 & H4 & H5 & H6). eexists. split; [done|]. cbn. unfold from_reader, of_reader, read_keymat, write_keymat, mbind, reader_bind.
    rewrite read_bytes_app by done. rewrite read_written_sized by done. rewrite read_bytes_app by done. rewrite read_written_sized by done.
    rewrite read_bytes_app by done. rewrite <- (app_nil_r (write_sized (skm_master_receiver_specific_key m))), read_written_sized by done.
    by destruct m.
Qed.

(** *** An example: payloads encrypted, submessages signed with origin authentication *)

Definition ex_rand (n : Z) : Rand :=
  mkRand (replicate 16 n) (replicate 32 (n + 1)) (replicate 16 (n + 2)) (replicate 32 (n + 3)) [KeyId_ZERO; [n; 0; 0; 1]].
Definition ex_attributes : EndpointSecurityAttributes := mkESA TopicSecurityAttributes_empty true true false 0x80000006 [].
Definition ex_plugin : BuiltinPluginEndpointSecurityAttributes := mkBESA false true true.
Definition ex_secret : SharedSecretHandle := mkSharedSecret [1] [2] [3].

Lemma ex_rand_works n : rand_works (ex_rand n) CryptographicBuiltin_new.
Proof. split; [by repeat constructor|]. exists [n; 0; 0; 1]. split; [set_solver|]. cbn. by intros ?%elem_of_singleton. Qed.

Lemma secured_payload_delivered_witness :
  wp (writer_setup (ex_rand 1) (ex_rand 2) (ex_rand 3) 1 [] ex_attributes 9 ex_secret) CryptographicBuiltin_new (fun res s' _ =>
    exists h tokens, res = inl (h, tokens) /\
    wp (set_remote_crypto_tokens 5 tokens) CryptographicBuiltin_new (fun res t' _ => res = inl tt /\
      forall e suffix (payload : bytes), length suffix = 8%nat -> Z.of_nat (length payload) < 2 ^ 32 ->
      exists encoded, encode_serialized_payload e suffix payload h s' = Ret (inl encoded) /\
        decode_serialized_payload e encoded 5 t' = Ret (inl payload))).
Proof.
  apply (secured_payload_delivered (ex_rand 1) (ex_rand 2) (ex_rand 3) 1 [] ex_attributes ex_plugin 9 ex_secret
           CryptographicBuiltin_new CryptographicBuiltin_new 5);
    [apply new_handles_ok|reflexivity|reflexivity|vm_compute; reflexivity|apply ex_rand_works..|reflexivity].
Defined.

Definition ex_material : KeyMaterial_AES_GCM_GMAC :=
  mkKeyMaterial CRYPTO_TRANSFORMATION_KIND_AES128_GCM (KeyAES128 (replicate 16 1)) [7; 0; 0; 1] (KeyAES128 (replicate 16 2)) KeyId_ZERO KeyNone.
Definition ex_sender : CryptographicBuiltin := cb_set_common CryptographicBuiltin_new {[4 := CekmSome (KmOne ex_material)]}.
Definition ex_receiver : CryptographicBuiltin := cb_set_decode CryptographicBuiltin_new {[5 := KmOne ex_material]}.
Definition ex_encoded : bytes :=
  match encode_serialized_payload LittleEndian (replicate 8 0) [1; 2; 3] 4 ex_sender with Ret (inl b) => b | _ => [] end.

(** A changed byte is noticed. *)
Example ex_forged : exists e, decode_serialized_payload LittleEndian (<[25%nat := 0]> ex_encoded) 5 ex_receiver = Ret (inr e).
Proof. eexists. vm_compute. reflexivity. Qed.

Lemma accepted_payload_authentic_witness :
  decode_serialized_payload LittleEndian ex_encoded 5 ex_receiver = Ret (inl [1; 2; 3]) /\
  exists ks iv (content foot : bytes) footer key,
    let k := km_select ks PayloadOnly in
    decode_key_materials ex_receiver !! 5 = Some ks /\ transformation_kind k <> CRYPTO_TRANSFORMATION_KIND_NONE /\
    ex_encoded = Kind_into (transformation_kind k) ++ sender_key_id k ++ iv ++ content ++ foot /\
    Footer_try_from foot = inl footer /\
    compute_session_key false (master_sender_key k) (master_salt k) iv = Ret key /\
    if is_gmac (transformation_kind k) then
      [1; 2; 3] = content /\ is_Some (gcm_open (BuiltinKey_as_bytes key) iv content (common_mac footer))
    else
      exists ciphertext, of_reader (CryptoContent_read LittleEndian) content = Some ciphertext /\
        gcm_open (BuiltinKey_as_bytes key) iv [] (ciphertext ++ common_mac footer) = Some [1; 2; 3].
Proof.
  split; [vm_compute; reflexivity|].
  apply (accepted_payload_authentic LittleEndian ex_encoded 5 ex_receiver [1; 2; 3]). vm_compute. reflexivity.
Defined.
