(* ===== verification/CryptoMessageTheorems.v ===== *)
(** * What the protection of messages guarantees

    - [secured_message_delivered]: a message that the sender's plugin protects,
      with a MAC for every receiver that has a key of its own, is accepted and
      recovered by the plugin of each of them, through the wire format;
    - [accepted_message_authentic], [accepted_submessage_authentic]: a message or
      a submessage that is accepted under a key of a protecting kind was
      authenticated by the cipher. *)

From stdpp Require Import pretty strings.
From S2P Require Import Prelude BTree Wire SequenceNumbers Time Guid Submessages Headers MessageBuilder MessageWire SecurityTypes CryptoKeys Crypto CryptoTransform CryptoMessage CryptoTheorems.
Local Open Scope string_scope.
Local Open Scope list_scope.
Local Open Scope Z_scope.

Section theorems.
Context `{SP : Speedy, SL : !SpeedyLaws SP, CD : CryptoDeps, CL : !CryptoLaws CD}.
Implicit Types (s t : CryptographicBuiltin) (h : Z) (iv : bytes).

(** ** The wire format *)

Lemma sec_submessage_roundtrip e flags n kind (w : bytes) b' rest :
  in_u 8 flags -> in_u 8 kind -> n = Z.of_nat (length w) -> in_u 16 n -> n <> 0 \/ kind = KIND_INFO_TS ->
  SecBody_read kind flags w = Some (Some (Ret b')) ->
  let hd := SubmessageHeader_write e (mkSubHeader kind flags n) in
  SecSubmessage_read_from_buffer e (hd ++ w ++ rest) = Ret (Some (Some (mkSecSub flags n b' (Some (hd ++ w))), rest)).
Proof.
  intros Hf Hk -> Hn H0 Hb hd. unfold SecSubmessage_read_from_buffer. set (hdr := mkSubHeader kind flags (Z.of_nat (length w))) in *.
  unfold hd at 1. rewrite read_write_SubmessageHeader by done. pose proof (length_SubmessageHeader_write e hdr) as Hh. fold hd in Hh.
  assert (proposed_content_length hdr (Z.of_nat (length (hd ++ w ++ rest))) = Z.of_nat (length w)) as ->.
  { unfold proposed_content_length; cbn [hdr sh_content_length sh_kind]. destruct (Z.eqb_spec (Z.of_nat (length w)) 0) as [E|]; [|done].
    destruct H0 as [?|Hts]; [done|]. by rewrite Hts, E. }
  rewrite !length_app, Hh, !Nat2Z.inj_add.
  destruct (Z.leb_spec (4 + Z.of_nat (length w)) (Z.of_nat 4 + (Z.of_nat (length w) + Z.of_nat (length rest)))); [|lia].
  cbn [negb]. cbv zeta. assert (4 + Z.to_nat (Z.of_nat (length w)) = length (hd ++ w))%nat as -> by (rewrite length_app; lia).
  rewrite app_assoc, take_app_length, drop_app_length. rewrite <- Hh, drop_app_length. cbn [hdr sh_kind sh_flags]. by rewrite Hb.
Qed.

(** A submessage before it is sent, and as it is received *)
Definition unsent (sm : Submessage) : SecSubmessage := mkSecSub (sm_flags sm) (sm_content_length sm) (SbPlain (sm_body sm)) None.
Definition received_sec e (sm : Submessage) : SecSubmessage :=
  mkSecSub (sm_flags sm) (sm_content_length sm) (SbPlain (sm_body (received_sm sm))) (Some (Submessage_write e sm)).
Definition sec_message (m : Message) : SecMessage := mkSecMessage (header m) (unsent <$> submessages m).

Lemma write_unsent e sm : SecSubmessage_write e (unsent sm) = Some (Submessage_write e sm).
Proof. by destruct sm. Qed.

(** [w] is read as [sm], whatever follows. *)
Definition reads_as e (w : bytes) (sm : SecSubmessage) : Prop :=
  (0 < length w)%nat /\ forall rest, SecSubmessage_read_from_buffer e (w ++ rest) = Ret (Some (Some sm, rest)).

Lemma SecBody_read_plain b flags w :
  SecBody_read (sm_kind b) flags w =
  (fun o => (fun b : outcome SubmessageBody => b ← b; Ret (SbPlain b)) <$> (o : option (outcome SubmessageBody)))
    <$> SubmessageBody_read (sm_kind b) flags w.
Proof. by destruct b. Qed.

Lemma header_written_app e (h : SubmessageHeader) (w : bytes) : (0 < length (SubmessageHeader_write e h ++ w))%nat.
Proof. rewrite length_app, length_SubmessageHeader_write. lia. Qed.

Lemma reads_plain e sm : sendable sm -> reads_as e (Submessage_write e sm) (received_sec e sm).
Proof.
  destruct sm as [flags n b]. intros (Hf & Hb & Hn & Hn16). cbn [sm_flags sm_body sm_content_length] in *.
  unfold Submessage_write, sm_header; cbn [sm_flags sm_body sm_content_length]. split; [apply header_written_app|].
  intros rest. rewrite <- app_assoc. apply sec_submessage_roundtrip; try done; [apply kind_range| |].
  - destruct (decide (sm_kind b = KIND_INFO_TS)) as [|Hk]; [by right|left].
    pose proof (body_nonempty flags (endianness_flag flags) b Hb Hk). rewrite Hn. intros E0. apply (Nat2Z.inj _ 0) in E0. lia.
  - by rewrite SecBody_read_plain, (SubmessageBody_roundtrip flags n).
Qed.

(** A security submessage that was created is written and read back. *)
Lemma reads_created e c sm b w :
  create_submessage BigEndian c = inl sm -> SecBody_write BigEndian (SbSecurity c) = Some w ->
  Z.of_nat (length w) < 2 ^ 16 -> w <> [] -> SecBody_read (ss_kind (SbSecurity c)) 0 w = Some (Some (Ret b)) ->
  exists bs o, SecSubmessage_write e sm = Some bs /\ reads_as e bs (mkSecSub (ss_flags sm) (ss_content_length sm) b o).
Proof.
  unfold create_submessage. intros Hc Hw Hl Hne Hb. rewrite Hw in Hc. injection Hc as <-.
  unfold SecSubmessage_write; cbn [ss_flags ss_content_length ss_body from_endianness]. change (endianness_flag 0) with BigEndian.
  rewrite Hw. cbn [mbind option_bind]. rewrite wrap_u_id by (unfold in_u; lia). do 2 eexists. split; [done|].
  split; [apply header_written_app|]. intros rest. rewrite <- app_assoc. apply sec_submessage_roundtrip; [split; (done || lia)|destruct c; split; (done || lia)|done|unfold in_u; lia| |done].
  left. destruct w; [done|]. simpl. lia.
Qed.

Lemma read_submessages_roundtrip e ws sms fuel acc :
  Forall2 (reads_as e) ws sms -> (length (concat ws) <= fuel)%nat ->
  read_submessages fuel e (concat ws) acc = Ret (Some (acc ++ sms)).
Proof.
  intros H. revert fuel acc. induction H as [|w sm ws sms [Hw Hr] _ IH]; intros fuel acc Hf; csimpl in *.
  { by destruct fuel; rewrite app_nil_r. }
  rewrite length_app in Hf. destruct fuel as [|fuel]; [lia|]. specialize (Hr (concat ws)).
  destruct (w ++ concat ws) as [|x bs] eqn:E; [apply app_eq_nil in E as [-> _]; simpl in Hw; lia|].
  cbn [read_submessages]. rewrite Hr. cbn. rewrite IH by lia. by rewrite <- app_assoc.
Qed.

Lemma sec_message_roundtrip e hd (sms sms' : list SecSubmessage) ws :
  Header_ok hd -> Forall2 (fun sm w => SecSubmessage_write e sm = Some w) sms ws -> Forall2 (reads_as e) ws sms' ->
  exists bs, SecMessage_write e (mkSecMessage hd sms) = Some bs /\
    SecMessage_read_from_buffer e bs = Ret (Some (mkSecMessage hd sms')).
Proof.
  intros Hh Hw Hr. unfold SecMessage_write. cbn [secm_submessages secm_header]. rewrite (proj2 (mapM_Some _ _ _) Hw).
  eexists. split; [done|]. unfold SecMessage_read_from_buffer.
  rewrite (of_reader_eq _ _ hd) by (eexists; by apply read_write_Header).
  destruct (Hh) as [-> _]. cbn [negb]. pose proof (length_Header_write e _ Hh) as Hl.
  rewrite length_app, Hl. destruct (Nat.ltb_spec (20 + length (concat ws)) 20); [lia|].
  rewrite <- Hl at 2. rewrite drop_app_length. by rewrite (read_submessages_roundtrip e ws sms') by (done || lia).
Qed.

(** ** The receivers *)

(** The material that [s] has for a receiver of what is encoded with [common] *)
Definition receiver_material s (scope : KeyMaterialScope) (common : KeyMaterial_AES_GCM_GMAC) (r : Z) (k : KeyMaterial_AES_GCM_GMAC) : Prop :=
  (exists ks, receiver_specific_encode_key_materials s !! r = Some ks /\ k = km_select ks scope) /\ km_ok k /\ same_sender common k.

(** Every receiver is registered, and no two keys have the same id. *)
Definition receivers_ok s scope common (receivers : list Z) : Prop :=
  (forall r, r ∈ receivers -> exists k, receiver_material s scope common r k) /\
  (forall r r' k k', r ∈ receivers -> r' ∈ receivers -> receiver_material s scope common r k -> receiver_material s scope common r' k' ->
     receiver_specific_key_id k = receiver_specific_key_id k' -> master_receiver_specific_key k = master_receiver_specific_key k').

(** The session key for the MAC of [r] *)
Definition receiver_session_key s scope common iv (receivers : list Z) (x : ReceiverSpecificKeyMaterial) : Prop :=
  exists r k, r ∈ receivers /\ receiver_material s scope common r k /\ receiver_specific_key_id k <> KeyId_ZERO /\
    rs_key_id x = receiver_specific_key_id k /\
    compute_session_key true (master_receiver_specific_key k) (master_salt common) iv = Ret (rs_key x).

Lemma receiver_material_for common k : same_sender common k ->
  receiver_key_material_for k common = sec_ok (mkRSKM (receiver_specific_key_id k) (master_receiver_specific_key k)).
Proof. intros [E1 E2 E3 E4]. unfold receiver_key_material_for. by rewrite E1, E2, E3, E4, !bool_decide_true. Qed.

Lemma receiver_usable common k : transformation_kind common <> CRYPTO_TRANSFORMATION_KIND_NONE -> km_ok k -> same_sender common k ->
  receiver_specific_key_id k <> KeyId_ZERO -> usable (master_receiver_specific_key k).
Proof.
  intros Hn Hk Hs Hz. pose proof (ko_receiver _ Hk) as Hr. unfold KeyId_is_zero in Hr. rewrite bool_decide_false in Hr by done.
  eapply fits_usable; [|exact Hr]. by rewrite (sa_kind _ _ Hs).
Qed.

Lemma receiver_session_keys_exist s scope common iv receivers :
  transformation_kind common <> CRYPTO_TRANSFORMATION_KIND_NONE ->
  (forall r, r ∈ receivers -> exists k, receiver_material s scope common r k) ->
  exists keys, receiver_session_keys s scope common iv receivers = Ret (inl keys) /\
    Forall (receiver_session_key s scope common iv receivers) keys /\ (length keys <= length receivers)%nat /\
    forall r k, r ∈ receivers -> receiver_material s scope common r k -> receiver_specific_key_id k <> KeyId_ZERO ->
      exists x, x ∈ keys /\ rs_key_id x = receiver_specific_key_id k.
Proof.
  intros Hn. induction receivers as [|r rs IH]; intros Hm; [exists []; split_and!; [done..|set_solver]|].
  destruct IH as (keys & E & Hk & Hl & Hin); [intros; apply Hm; set_solver|].
  destruct (Hm r) as (k & (ks & Eks & ->) & Hok & Hs); [set_solver|]. set (k := km_select ks scope) in *.
  assert (receiver_material s scope common r k) as Hrm by (split; [eauto|done]).
  assert (Forall (receiver_session_key s scope common iv (r :: rs)) keys) as Hk'.
  { eapply Forall_impl; [exact Hk|]. intros x (r' & k' & Hr' & H). exists r', k'. split; [set_solver|done]. }
  assert (forall k', receiver_material s scope common r k' -> k' = k) as Huniq.
  { intros k' ((ks' & E' & ->) & _). rewrite Eks in E'. by injection E' as <-. }
  cbn [receiver_session_keys]. unfold get_receiver_specific_encode_key_materials. rewrite Eks. unfold try_bind at 1. cbn -[km_select].
  fold k. rewrite (receiver_material_for common k Hs). cbn. unfold KeyId_is_zero. case_bool_decide as Hz.
  - exists keys. unfold mbind. rewrite E. split_and!; [done|done|simpl; lia|]. intros r' k' [->|Hr']%elem_of_cons Hm' Hz'; [|eauto].
    by rewrite (Huniq _ Hm') in Hz'.
  - destruct (session_key_usable true _ (master_salt common) iv (receiver_usable common k Hn Hok Hs Hz)) as (sk & Esk & _).
    rewrite Esk. unfold try_bind. cbn. rewrite E. cbn. eexists. split; [done|]. split_and!.
    + constructor; [|done]. exists r, k. split; [set_solver|]. done.
    + simpl. lia.
    + intros r' k' [->|Hr']%elem_of_cons Hm' Hz'.
      * eexists. split; [apply list_elem_of_here|]. by rewrite (Huniq _ Hm').
      * destruct (Hin _ _ Hr' Hm' Hz') as (x & Hx & Ex). exists x. split; [by apply list_elem_of_further|done].
Qed.

(** The MACs that are made with these keys are found and accepted. *)
Lemma receiver_macs_exist iv keys mac :
  length iv = 12%nat -> Forall (fun k => usable (rs_key k) /\ length (rs_key_id k) = 4%nat) keys ->
  exists macs, receiver_macs iv keys mac = Ret (inl macs) /\
    Forall2 (fun k m => receiver_mac_key_id m = rs_key_id k /\ length (receiver_mac m) = MAC_LENGTH /\
                        validate_mac (rs_key k) iv mac (receiver_mac m) = Ret (inl tt)) keys macs.
Proof.
  intros Hiv. induction 1 as [|k keys [Hk Hid] _ (macs & E & Hm)]; [by exists []|].
  destruct (mac_roundtrip (rs_key k) iv mac Hk Hiv) as (m & Em & Hlm & Ev). exists (mkRSMac (rs_key_id k) m :: macs).
  cbn [receiver_macs]. unfold try_bind. rewrite Em. cbn. rewrite E. cbn. by repeat constructor.
Qed.

Lemma receiver_mac_found iv keys macs mac id :
  Forall2 (fun k m => receiver_mac_key_id m = rs_key_id k /\ length (receiver_mac m) = MAC_LENGTH /\
                      validate_mac (rs_key k) iv mac (receiver_mac m) = Ret (inl tt)) keys macs ->
  (exists x, x ∈ keys /\ rs_key_id x = id) ->
  exists x m, x ∈ keys /\ rs_key_id x = id /\ find_receiver_specific_mac id macs = Some m /\
    validate_mac (rs_key x) iv mac m = Ret (inl tt).
Proof.
  intros H (x & Hx & Ex). unfold find_receiver_specific_mac.
  destruct (list_find (fun m => receiver_mac_key_id m = id) macs) as [[i m]|] eqn:Ef.
  - apply list_find_Some in Ef as (Hi & Em & _). eapply Forall2_lookup_r in H as (y & Hy & E1 & _ & E2); [|exact Hi].
    exists y, (receiver_mac m). split_and!; [by eapply list_elem_of_lookup_2|by rewrite <- E1|done|done].
  - apply list_find_None in Ef. apply list_elem_of_lookup in Hx as [i Hi].
    eapply Forall2_lookup_l in H as (m & Hm & E1 & _); [|exact Hi]. rewrite Forall_forall in Ef.
    exfalso. apply (Ef m); [by eapply list_elem_of_lookup_2|]. by rewrite E1.
Qed.

(** ** Encoding *)

Lemma session_materials suffix s h ks scope receivers (k := km_select ks scope) sk keys :
  common_encode_key_materials s !! h = Some (CekmSome ks) ->
  compute_session_key false (master_sender_key k) (master_salt k) (initialization_vector suffix) = Ret sk ->
  receiver_session_keys s scope k (initialization_vector suffix) receivers = Ret (inl keys) ->
  session_encoding_materials suffix s h scope receivers =
  Ret (inl (mkESM (sender_key_id k) (transformation_kind k) sk (initialization_vector suffix) keys)).
Proof.
  intros Hs Hk Hr. unfold session_encoding_materials, get_common_encode_key_materials. rewrite Hs.
  unfold try_bind at 1. cbn -[km_select initialization_vector]. fold k. rewrite Hk. unfold try_bind. cbn -[initialization_vector]. by rewrite Hr.
Qed.

(** The footer for a MAC, as it is written; [k] is what a receiver has. *)
Lemma footer_for s scope common receivers iv keys mac :
  transformation_kind common <> CRYPTO_TRANSFORMATION_KIND_NONE -> receivers_ok s scope common receivers ->
  receiver_session_keys s scope common iv receivers = Ret (inl keys) -> length iv = 12%nat -> length mac = MAC_LENGTH ->
  Z.of_nat (length receivers) < 3000 ->
  exists macs b, compute_receiver_specific_macs iv keys mac = Ret (inl (mkFooter mac macs)) /\
    Footer_into (mkFooter mac macs) = inl b /\ Footer_try_from b = inl (mkFooter mac macs) /\
    Z.of_nat (length b) < 2 ^ 16 /\ b <> [] /\
    forall r k sk, r ∈ receivers -> receiver_material s scope common r k -> receiver_specific_key_id k <> KeyId_ZERO ->
      compute_session_key true (master_receiver_specific_key k) (master_salt common) iv = Ret sk ->
      exists m, find_receiver_specific_mac (receiver_specific_key_id k) macs = Some m /\ validate_mac sk iv mac m = Ret (inl tt).
Proof.
  intros Hn [Hex Huniq] Ekeys Hiv Hmac Hlen.
  destruct (receiver_session_keys_exist s scope common iv receivers Hn Hex) as (keys' & E & Hk & Hl & Hin).
  rewrite Ekeys in E. injection E as <-.
  assert (Forall (fun k => usable (rs_key k) /\ length (rs_key_id k) = 4%nat) keys) as Hkeys.
  { eapply Forall_impl; [exact Hk|]. intros x (r & k & Hr & (_ & Hok & Hs) & Hz & Eid & Esk).
    destruct (session_key_usable true _ (master_salt common) iv (receiver_usable common k Hn Hok Hs Hz)) as (sk & Esk' & Hsk).
    rewrite Esk in Esk'. injection Esk' as ->. split; [done|]. rewrite Eid. by apply ko_rid. }
  destruct (receiver_macs_exist iv keys mac Hiv Hkeys) as (macs & Em & Hm). pose proof (Forall2_length _ _ _ Hm) as Hlm.
  assert (footer_ok (mkFooter mac macs)) as Hf.
  { split_and!; cbn; [done|pow2; lia|]. apply Forall_forall. intros m Hin'. apply list_elem_of_lookup in Hin' as [i Hi].
    eapply Forall2_lookup_r in Hm as (y & Hy & E1 & E2 & _); [|exact Hi]. rewrite E1. split; [|done].
    rewrite Forall_forall in Hkeys. apply Hkeys. by eapply list_elem_of_lookup_2. }
  destruct (footer_roundtrip _ Hf) as (b & E1 & E2). pose proof (footer_length _ _ Hf E1) as Elen. cbn in Elen.
  exists macs, b. unfold compute_receiver_specific_macs, Footer_into, Footer_try_from. rewrite E1, E2. unfold try_bind. rewrite Em.
  split_and!; [done|done|done|unfold MAC_LENGTH in Elen; pow2; lia|intros ->; discriminate|].
  intros r k sk Hr Hrm Hz Esk. destruct (receiver_mac_found iv keys macs mac _ Hm (Hin _ _ Hr Hrm Hz)) as (x & m & Hx & Ex & Ef & Ev).
  exists m. split; [done|]. rewrite Forall_forall in Hk. destruct (Hk _ Hx) as (r' & k' & Hr' & Hrm' & _ & Ex' & Esk').
  rewrite (Huniq r r' k k') in Esk by (done || congruence). rewrite Esk' in Esk. by injection Esk as <-.
Qed.

(** The receiver's session materials, with its key for the receiver-specific MAC *)
Lemma receiver_decodes s scope common (receivers : list Z) r ks t sender iv macs mac sk :
  transformation_kind common <> CRYPTO_TRANSFORMATION_KIND_NONE ->
  (forall r k sk, r ∈ receivers -> receiver_material s scope common r k -> receiver_specific_key_id k <> KeyId_ZERO ->
      compute_session_key true (master_receiver_specific_key k) (master_salt common) iv = Ret sk ->
      exists m, find_receiver_specific_mac (receiver_specific_key_id k) macs = Some m /\ validate_mac sk iv mac m = Ret (inl tt)) ->
  r ∈ receivers -> receiver_material s scope common r (km_select ks scope) -> decode_key_materials t !! sender = Some ks ->
  compute_session_key false (master_sender_key common) (master_salt common) iv = Ret sk ->
  exists m, get_session_decode_crypto_materials t sender (sender_key_id common) scope iv = Ret (Some m) /\
    dsm_key_id m = sender_key_id common /\ dsm_transformation_kind m = transformation_kind common /\ dsm_session_key m = sk /\
    validate_receiver_specific_mac m iv mac macs = Ret true.
Proof.
  intros Hn Hmacs Hr Hrm Ht Esk. pose proof Hrm as (_ & Hok & [E1 E2 E3 E4]). set (k := km_select ks scope) in *.
  unfold get_session_decode_crypto_materials, get_decode_key_material. rewrite Ht. cbn -[km_select]. fold k.
  rewrite bool_decide_true by done. rewrite E2, E4, Esk. unfold mbind at 1, outcome_bind at 1. unfold KeyId_is_zero.
  case_bool_decide as Hz.
  - eexists. split; [done|]. cbn. by rewrite E1, E3.
  - destruct (session_key_usable true _ (master_salt common) iv (receiver_usable common k Hn Hok (proj2 (proj2 Hrm)) Hz)) as (rk & Erk & _).
    rewrite Erk. eexists. split; [done|]. cbn. rewrite E1, E3. split_and!; [done..|].
    unfold validate_receiver_specific_mac. cbn. destruct (Hmacs r k rk Hr Hrm Hz Erk) as (m & -> & ->). done.
Qed.

(** ** Messages *)

Definition info_source_sm (hd : Header) : Submessage := mkSubmessage 0 20 (SmInfoSource (InfoSource_from hd)).
Lemma info_source_created hd : InfoSource_create_submessage (from_endianness BigEndian) (InfoSource_from hd) = unsent (info_source_sm hd).
Proof. done. Qed.

Lemma info_source_sendable hd : Header_ok hd -> sendable (info_source_sm hd).
Proof.
  intros (_ & Hv & Hd & Hp). split; [split; (done || lia)|]. split; [split; [split; (done || lia)|done]|]. split; [|split; (done || lia)].
  cbn [sm_content_length info_source_sm sm_flags sm_body SubmessageBody_write]. unfold InfoSource_write, write_u32, GuidPrefix_write.
  rewrite !length_app, sp_length, length_write_u8s. cbn [InfoSource_from is_protocol_version is_vendor_id is_guid_prefix].
  destruct Hp as [-> _].
  unfold ProtocolVersion_write, VendorId_write, write_u8. rewrite !length_app, !sp_length. done.
Qed.

(** The submessages that are protected, and their bytes *)
Definition protected_sms (m : Message) : list Submessage := info_source_sm (header m) :: submessages m.
Definition protected_text e (m : Message) : bytes := concat (Submessage_write e <$> protected_sms m).

Lemma protected_sendable m : Header_ok (header m) -> Forall sendable (submessages m) -> Forall sendable (protected_sms m).
Proof. intros Hh Hs. constructor; [by apply info_source_sendable|done]. Qed.

Lemma collect_written e sms :
  collect (fun sm => ok_or (SecSubmessage_write e sm) "Error converting Submessage to byte vector") (unsent <$> sms) =
  inl (Submessage_write e <$> sms).
Proof. induction sms as [|sm sms IH]; [done|]. rewrite !fmap_cons. cbn [collect]. by rewrite write_unsent, IH. Qed.

Lemma reads_all e sms : Forall sendable sms -> Forall2 (reads_as e) (Submessage_write e <$> sms) (received_sec e <$> sms).
Proof. induction 1; csimpl; constructor; [by apply reads_plain|done]. Qed.

Lemma split_ends_app {A} (x y : A) l : split_ends (x :: l ++ [y]) = Some (x, l, y).
Proof. cbn. rewrite rev_app_distr. cbn. by rewrite rev_involutive. Qed.

Lemma read_protected_text e m : Header_ok (header m) -> Forall sendable (submessages m) ->
  read_plaintext e (protected_text e m) = Ret (inl (InfoSource_from (header m), received_sec e <$> submessages m)).
Proof.
  intros Hh Hs. unfold read_plaintext, protected_text, protected_sms. csimpl.
  destruct (reads_plain e _ (info_source_sendable _ Hh)) as [_ ->]. cbn -[read_submessages].
  by rewrite (read_submessages_roundtrip e _ _ _ [] (reads_all e _ Hs)) by done.
Qed.

(** What the cipher makes of the text is sent, received and accepted. *)
Lemma content_delivered e kind sk iv keys m :
  Header_ok (header m) -> Forall sendable (submessages m) -> usable sk -> length iv = 12%nat ->
  Z.of_nat (length (protected_text e m)) < 2 ^ 16 - 4 -> kind <> CRYPTO_TRANSFORMATION_KIND_NONE ->
  exists mac, length mac = MAC_LENGTH /\ forall footer, common_mac footer = mac ->
    compute_receiver_specific_macs iv keys mac = Ret (inl footer) ->
    exists content ws content',
      (if is_gmac kind then f ←? encode_gmac sk iv (protected_text e m) keys; Ret (sec_ok (unsent <$> protected_sms m, f))
       else sf ←? encode_gcm sk iv (protected_text e m) keys; Ret (sec_ok ([sf.1], sf.2))) = Ret (sec_ok (content, footer)) /\
      Forall2 (fun sm w => SecSubmessage_write e sm = Some w) content ws /\ Forall2 (reads_as e) ws content' /\
      forall k, dsm_transformation_kind k = kind -> dsm_session_key k = sk ->
        validate_receiver_specific_mac k iv mac (receiver_specific_macs footer) = Ret true ->
        decode_content e k iv footer content' = Ret (inl (DoSuccess (InfoSource_from (header m), received_sec e <$> submessages m))).
Proof.
  intros Hh Hs Hsk Hiv Hlen Hn. destruct (is_gmac kind) eqn:Eg.
  - destruct (mac_roundtrip sk iv (protected_text e m) Hsk Hiv) as (mac & Em & Hm & Ev). exists mac. split; [done|].
    intros footer Ef Efoot. exists (unsent <$> protected_sms m), (Submessage_write e <$> protected_sms m), (received_sec e <$> protected_sms m).
    unfold encode_gmac, try_bind. rewrite Em. unfold mbind at 1 2, outcome_bind at 1 2. rewrite Efoot. split_and!; [done| | |].
    + apply Forall2_fmap_2, Forall_Forall2_diag, Forall_forall. intros sm _. apply write_unsent.
    + by apply reads_all, protected_sendable.
    + intros k Ek Eks Hv. unfold decode_content. rewrite Ek, Eg, Eks, Ef, Hv.
      assert (original_bytes_of (received_sec e <$> protected_sms m) = protected_text e m) as ->
        by (unfold original_bytes_of, protected_text; by rewrite <- list_fmap_compose).
      cbn -[protected_text]. unfold try_bind. rewrite Ev. by destruct kind.
  - destruct (cipher_roundtrip sk iv (protected_text e m) Hsk Hiv) as (c & mac & Ec & Hm & Hc & Ed); [pow2; lia|].
    exists mac. split; [done|]. intros footer Ef Efoot.
    destruct (content_roundtrip BigEndian c) as (w & Ew & Erd); [pow2; lia|].
    assert (length w = 4 + length c)%nat as Hlw.
    { unfold CryptoContent_write in Ew. destruct (_ <? _); [|done]. injection Ew as <-. unfold write_u32. by rewrite length_app, sp_length. }
    destruct (create_submessage BigEndian (SsSecureBody c)) as [sub|] eqn:Esub; [|unfold create_submessage in Esub; cbn in Esub; by rewrite Ew in Esub].
    destruct (reads_created e (SsSecureBody c) sub (SbSecurity (SsSecureBody c)) w Esub) as (bs & o & Ebs & Hrd);
      [exact Ew|pow2; lia|intros ->; simpl in Hlw; lia| |].
    { cbn. change (endianness_flag 0) with BigEndian. unfold of_reader. specialize (Erd []). rewrite app_nil_r in Erd. by rewrite Erd. }
    exists [sub], [bs], [mkSecSub (ss_flags sub) (ss_content_length sub) (SbSecurity (SsSecureBody c)) o].
    unfold encode_gcm, try_bind. rewrite Ec. unfold mbind at 1 2 3 4, outcome_bind at 1 2 3 4. cbn [fst snd]. rewrite Efoot, Esub.
    split_and!; [done|by constructor; [|constructor]|by constructor; [|constructor]|].
    intros k Ek Eks Hv. unfold decode_content. rewrite Ek, Eg, Eks, Ef, Hv. cbn -[read_plaintext protected_text]. unfold try_bind. rewrite Ed. cbn -[read_plaintext protected_text].
    rewrite (read_protected_text e m Hh Hs). by destruct kind.
Qed.

Lemma prefix_delivered e kind id iv :
  length id = 4%nat -> length iv = 12%nat ->
  let ch := CryptoHeader_from (mkBCH kind id iv) in
  exists sm w n o, create_submessage BigEndian (SsSecureRTPSPrefix ch) = inl sm /\ SecSubmessage_write e sm = Some w /\
    reads_as e w (mkSecSub 0 n (SbSecurity (SsSecureRTPSPrefix ch)) o).
Proof.
  intros Hid Hiv ch. destruct (header_roundtrip (mkBCH kind id iv) Hid Hiv) as (E1 & _ & E3). fold ch in E1, E3.
  unfold create_submessage. cbn [SecBody_write].
  destruct (reads_created e (SsSecureRTPSPrefix ch) _ (SbSecurity (SsSecureRTPSPrefix ch)) (CryptoHeader_write ch) eq_refl eq_refl)
    as (w & o & Ew & Hr); [rewrite E3; done|intros E; by rewrite E in E3| |].
  { cbn -[CryptoHeader_read CryptoHeader_write]. by rewrite E1. }
  eauto 10.
Qed.

Lemma postfix_delivered e (b : bytes) : Z.of_nat (length b) < 2 ^ 16 -> b <> [] ->
  exists sm w n o, create_submessage BigEndian (SsSecureRTPSPostfix b) = inl sm /\ SecSubmessage_write e sm = Some w /\
    reads_as e w (mkSecSub 0 n (SbSecurity (SsSecureRTPSPostfix b)) o).
Proof.
  intros Hl Hb. unfold create_submessage. cbn [SecBody_write].
  destruct (reads_created e (SsSecureRTPSPostfix b) _ (SbSecurity (SsSecureRTPSPostfix b)) b eq_refl eq_refl Hl Hb eq_refl) as (w & o & Ew & Hr).
  eauto 10.
Qed.

(** C27: message protection end to end.  A message is protected by the sender's
    plugin for a list of receivers, written to a datagram, read from it, and decoded
    by the plugin of any of these receivers, which holds the material that the sender
    has for it.  The result is the message with its header and its submessages as
    they are received in the open ([received_sm]), whether it was signed or
    encrypted, with or without receiver-specific MACs, in either byte order.

    The conditions: the sender's material is well formed and of a protecting kind;
    each receiver is registered with material of this sender, and receivers whose
    keys have the same id have the same key (the plugin does not itself keep the ids
    that it gives out apart); there are fewer than 3000 receivers, so that the footer
    fits in 16 bits; the header is valid; every submessage is one that a reader reads
    back ([sendable]: 16-bit length, values of the width of their fields, and not a
    DATAFRAG with inline QoS, which the code writes but does not read back); and the
    INFO_SRC with the submessages takes less than 2^16 - 4 bytes. *)
Theorem secured_message_delivered e suffix m h receivers s ks t sender ks' r (common := km_select ks MessageOrSubmessage) :
  common_encode_key_materials s !! h = Some (CekmSome ks) -> km_ok common ->
  transformation_kind common <> CRYPTO_TRANSFORMATION_KIND_NONE ->
  receivers_ok s MessageOrSubmessage common receivers -> Z.of_nat (length receivers) < 3000 ->
  r ∈ receivers -> receiver_specific_encode_key_materials s !! r = Some ks' -> decode_key_materials t !! sender = Some ks' ->
  Header_ok (header m) -> Forall sendable (submessages m) ->
  Z.of_nat (length (protected_text e m)) < 2 ^ 16 - 4 -> length suffix = 8%nat ->
  exists encoded datagram received,
    encode_rtps_message e suffix (sec_message m) h receivers s = Ret (inl encoded) /\
    SecMessage_write e encoded = Some datagram /\
    SecMessage_read_from_buffer e datagram = Ret (Some received) /\
    decode_rtps_message e received sender t =
      Ret (inl (DoSuccess (mkSecMessage (header m) (received_sec e <$> submessages m)))).
Proof.
  intros Hs Hk Hn Hrecv Hnum Hr Hks' Ht Hh Hsend Hlen Hsuf.
  assert (length (initialization_vector suffix) = 12%nat) as Hiv by (unfold initialization_vector, session_id; cbn; by rewrite Hsuf).
  set (iv := initialization_vector suffix) in *.
  destruct (session_key_usable false (master_sender_key common) (master_salt common) iv) as (sk & Esk & Hsk);
    [eapply fits_usable; [exact Hn|]; by apply ko_key|].
  destruct (receiver_session_keys_exist s MessageOrSubmessage common iv receivers Hn (proj1 Hrecv)) as (keys & Ekeys & _).
  destruct (content_delivered e (transformation_kind common) sk iv keys m Hh Hsend Hsk Hiv Hlen Hn) as (mac & Hmac & Hcontent).
  destruct (footer_for s MessageOrSubmessage common receivers iv keys mac Hn Hrecv Ekeys Hiv Hmac Hnum)
    as (macs & fb & Efoot & Eb & Eb' & Hfl & Hfne & Hmacs).
  destruct (Hcontent (mkFooter mac macs) eq_refl Efoot) as (content & ws & content' & Econtent & Hws & Hrd & Hdec).
  destruct (prefix_delivered e (transformation_kind common) (sender_key_id common) iv (ko_id _ Hk) Hiv) as (psm & pw & pn & po & Ep & Hpw & Hpr).
  destruct (postfix_delivered e fb Hfl Hfne) as (qsm & qw & qn & qo & Eq & Hqw & Hqr).
  destruct (proj1 Hrecv r Hr) as (k0 & (ks0 & E0 & ->) & Hrm). rewrite Hks' in E0. injection E0 as <-.
  destruct (receiver_decodes s MessageOrSubmessage common receivers r ks' t sender iv macs mac sk Hn Hmacs Hr) as (dm & Edm & Ed1 & Ed2 & Ed3 & Ed4);
    [split; [eauto|done]|done|done|].
  destruct (sec_message_roundtrip e (header m) (psm :: content ++ [qsm])
    (mkSecSub 0 pn (SbSecurity (SsSecureRTPSPrefix (CryptoHeader_from (mkBCH (transformation_kind common) (sender_key_id common) iv)))) po
     :: content' ++ [mkSecSub 0 qn (SbSecurity (SsSecureRTPSPostfix fb)) qo]) (pw :: ws ++ [qw]) Hh) as (bs & Ebs & Erd).
  { constructor; [done|]. apply Forall2_app; [done|]. by constructor; [|constructor]. }
  { constructor; [done|]. apply Forall2_app; [done|]. by constructor; [|constructor]. }
  exists (mkSecMessage (header m) (psm :: content ++ [qsm])), bs. eexists. split_and!; [|exact Ebs|exact Erd|].
  - unfold encode_rtps_message. cbn [secm_header secm_submessages sec_message]. rewrite info_source_created.
    change (unsent (info_source_sm (header m)) :: (unsent <$> submessages m)) with (unsent <$> protected_sms m).
    cbv zeta. rewrite collect_written. unfold try_bind at 1, mbind at 1, outcome_bind at 1.
    rewrite (session_materials suffix s h ks MessageOrSubmessage receivers sk keys Hs Esk Ekeys).
    fold common. unfold try_bind at 1, mbind at 1, outcome_bind at 1.
    cbn [esm_key_id esm_transformation_kind esm_session_key esm_initialization_vector esm_receiver_specific_keys]. fold iv.
    change (concat (Submessage_write e <$> protected_sms m)) with (protected_text e m). rewrite Econtent.
    unfold try_bind, mbind, outcome_bind. cbn [fst snd sec_ok]. rewrite Eb, Ep, Eq. by destruct (transformation_kind common).
  - unfold decode_rtps_message. cbn [secm_submessages secm_header]. rewrite split_ends_app.
    destruct (header_roundtrip (mkBCH (transformation_kind common) (sender_key_id common) iv) (ko_id _ Hk) Hiv) as (_ & -> & _).
    rewrite Eb'. unfold try_bind at 1 2, mbind at 1 2, outcome_bind at 1 2. cbn [bch_key_id bch_iv bch_kind]. rewrite Edm.
    unfold mbind at 1, outcome_bind at 1. rewrite !bool_decide_true by done. cbn [negb]. unfold try_bind.
    rewrite (Hdec dm Ed2 Ed3 Ed4). cbn. by rewrite bool_decide_true.
Qed.

Lemma split_ends_inv {A} (l : list A) x m y : split_ends l = Some (x, m, y) -> l = x :: m ++ [y].
Proof.
  destruct l as [|x' l]; cbn; [done|]. destruct (rev l) as [|y' m'] eqn:E; [done|]. intros [= <- <- <-].
  f_equal. rewrite <- (rev_involutive l), E. done.
Qed.

(** The content is accepted only with the MACs. *)
Lemma decode_content_inv e k iv footer content x :
  decode_content e k iv footer content = Ret (inl (DoSuccess x)) ->
  dsm_transformation_kind k <> CRYPTO_TRANSFORMATION_KIND_NONE ->
  validate_receiver_specific_mac k iv (common_mac footer) (receiver_specific_macs footer) = Ret true /\
  let key := BuiltinKey_as_bytes (dsm_session_key k) in
  if is_gmac (dsm_transformation_kind k) then
    is_Some (gcm_open key iv (original_bytes_of content) (common_mac footer)) /\ leading_info_source content = Some x
  else exists ciphertext plaintext sm,
    content = [sm] /\ ss_body sm = SbSecurity (SsSecureBody ciphertext) /\
    gcm_open key iv [] (ciphertext ++ common_mac footer) = Some plaintext /\ read_plaintext e plaintext = Ret (inl x).
Proof.
  intros H Hn. unfold decode_content in H.
  assert ((if is_gmac (dsm_transformation_kind k) then
        match leading_info_source content with
        | None => Ret (sec_err "Expected the first submessage to be InfoSource.")
        | Some x =>
            ok ← validate_receiver_specific_mac k iv (common_mac footer) (receiver_specific_macs footer);
            if negb ok then Ret (sec_ok DoValidatingReceiverSpecificMACFailed)
            else _ ←? validate_mac (dsm_session_key k) iv (original_bytes_of content) (common_mac footer);
                 Ret (sec_ok (DoSuccess x))
        end
      else
        match content with
        | [mkSecSub _ _ (SbSecurity (SsSecureBody ciphertext)) _] =>
            ok ← validate_receiver_specific_mac k iv (common_mac footer) (receiver_specific_macs footer);
            if negb ok then Ret (sec_ok DoValidatingReceiverSpecificMACFailed)
            else plaintext ←? decrypt (dsm_session_key k) iv ciphertext (common_mac footer);
                 x ←? read_plaintext e plaintext;
                 Ret (sec_ok (DoSuccess x))
        | _ => Ret (sec_err "Expected only a SecureBody submessage.")
        end) = Ret (inl (DoSuccess x))) as H' by (by destruct (dsm_transformation_kind k)). clear H.
  destruct (is_gmac _).
  - destruct (leading_info_source content) as [y|]; [|done].
    destruct (validate_receiver_specific_mac _ _ _ _) as [[]| |]; try done. cbn [mbind outcome_bind negb] in H'.
    apply try_inv in H' as ([] & Hv & H'). injection H' as <-. split; [done|]. split; [by apply validate_mac_inv|done].
  - destruct content as [|sm [|]]; try done; (destruct sm as [f n [b|[]] o]; try done).
    destruct (validate_receiver_specific_mac _ _ _ _) as [[]| |]; try done. cbn [mbind outcome_bind negb] in H'.
    apply try_inv in H' as (p & Hp & H'). apply try_inv in H' as (y & Hy & H'). injection H' as <-. split; [done|].
    eexists _, p, _. split_and!; [done|done|by apply decrypt_inv|done].
Qed.

Lemma receiver_mac_checked m iv footer rk :
  validate_receiver_specific_mac m iv (common_mac footer) (receiver_specific_macs footer) = Ret true ->
  dsm_receiver_specific_key m = Some rk ->
  exists rm, rm ∈ receiver_specific_macs footer /\ receiver_mac_key_id rm = rs_key_id rk /\
    is_Some (gcm_open (BuiltinKey_as_bytes (rs_key rk)) iv (common_mac footer) (receiver_mac rm)).
Proof.
  unfold validate_receiver_specific_mac, find_receiver_specific_mac. intros H E. rewrite E in H.
  destruct (list_find _ _) as [[n rm]|] eqn:Ef; [|done]. cbn in H. apply list_find_Some in Ef as (Hin & Hid & _).
  exists rm. split; [by eapply list_elem_of_lookup_2|]. split; [done|].
  destruct (validate_mac _ _ _ _) as [[[]|]| |] eqn:Ev; try done. by apply validate_mac_inv.
Qed.

(** The footer has a MAC under the key that the sender has made for this receiver, if
    it has made one, and the cipher has verified it on the common MAC. *)
Definition receiver_authenticated (k : KeyMaterial_AES_GCM_GMAC) iv (footer : BuiltinCryptoFooter) : Prop :=
  receiver_specific_key_id k <> KeyId_ZERO -> exists rkey rm,
    compute_session_key true (master_receiver_specific_key k) (master_salt k) iv = Ret rkey /\
    rm ∈ receiver_specific_macs footer /\ receiver_mac_key_id rm = receiver_specific_key_id k /\
    is_Some (gcm_open (BuiltinKey_as_bytes rkey) iv (common_mac footer) (receiver_mac rm)).

(** The same, for the material in use *)
Lemma materials_authenticated t h id scope iv m :
  get_session_decode_crypto_materials t h id scope iv = Ret (Some m) ->
  exists ks, let k := km_select ks scope in
    decode_key_materials t !! h = Some ks /\ sender_key_id k = id /\ dsm_transformation_kind m = transformation_kind k /\
    compute_session_key false (master_sender_key k) (master_salt k) iv = Ret (dsm_session_key m) /\
    forall footer, validate_receiver_specific_mac m iv (common_mac footer) (receiver_specific_macs footer) = Ret true ->
      receiver_authenticated k iv footer.
Proof.
  intros (ks & E1 & E2 & E3 & E4 & Hr)%session_materials_inv. exists ks. split_and!; [done..|].
  intros footer Hv Hz. destruct (Hr Hz) as (rkey & Ek & Em). destruct (receiver_mac_checked _ _ _ _ Hv Em) as (rm & ? & ? & ?).
  by exists rkey, rm.
Qed.

Lemma leading_info_source_inv content i sms : leading_info_source content = Some (i, sms) ->
  exists first, content = first :: sms /\ ss_body first = SbPlain (SmInfoSource i).
Proof. destruct content as [|[f n [[]|] o] rest]; try done. intros [= <- <-]. by eexists. Qed.

Lemma read_plaintext_inv e plaintext i sms : read_plaintext e plaintext = Ret (inl (i, sms)) ->
  exists first rest, SecSubmessage_read_from_buffer e plaintext = Ret (Some (Some first, rest)) /\
    ss_body first = SbPlain (SmInfoSource i) /\ read_submessages (length rest) e rest [] = Ret (Some sms).
Proof.
  unfold read_plaintext. destruct (SecSubmessage_read_from_buffer e plaintext) as [[[[first|] rest]|]| |]; try done.
  cbn -[read_submessages]. destruct first as [f n [[]|] o]; try done.
  destruct (read_submessages _ _ _ _) as [[sms'|]| |] eqn:Er; try done. cbn. intros [= <- <-]. by do 2 eexists.
Qed.

(** C28: authenticity of messages.  When a protected message is accepted, it starts
    with a header that names the kind and the key id of the material that was
    received from this sender (another key id is not ignored, as a comment of the
    code has it: the message is not accepted), and it ends with a footer.  If the
    material is of a protecting kind, the cipher has authenticated the content under
    the session key of that material, the content starts with an INFO_SRC for the
    sender of the open header, and the rest of the content is the result.  If the
    sender has made a key for this receiver, the footer also has a MAC under that key
    that the cipher has verified.  Material of kind NONE protects nothing: a message
    of that kind is accepted as it is, and nothing is claimed about its content. *)
Theorem accepted_message_authentic e m sender t out :
  decode_rtps_message e m sender t = Ret (inl (DoSuccess out)) ->
  exists ch cf p q content header footer ks key,
    let k := km_select ks MessageOrSubmessage in
    let iv := bch_iv header in
    secm_submessages m = p :: content ++ [q] /\ ss_body p = SbSecurity (SsSecureRTPSPrefix ch) /\
    ss_body q = SbSecurity (SsSecureRTPSPostfix cf) /\
    BuiltinCryptoHeader_try_from ch = inl header /\ Footer_try_from cf = inl footer /\
    decode_key_materials t !! sender = Some ks /\ sender_key_id k = bch_key_id header /\ transformation_kind k = bch_kind header /\
    compute_session_key false (master_sender_key k) (master_salt k) iv = Ret key /\ secm_header out = secm_header m /\
    (transformation_kind k <> CRYPTO_TRANSFORMATION_KIND_NONE ->
     receiver_authenticated k iv footer /\
     exists first, ss_body first = SbPlain (SmInfoSource (InfoSource_from (secm_header m))) /\
     if is_gmac (transformation_kind k) then
       content = first :: secm_submessages out /\
       is_Some (gcm_open (BuiltinKey_as_bytes key) iv (original_bytes_of content) (common_mac footer))
     else exists sm ciphertext plaintext rest,
       content = [sm] /\ ss_body sm = SbSecurity (SsSecureBody ciphertext) /\
       gcm_open (BuiltinKey_as_bytes key) iv [] (ciphertext ++ common_mac footer) = Some plaintext /\
       SecSubmessage_read_from_buffer e plaintext = Ret (Some (Some first, rest)) /\
       read_submessages (length rest) e rest [] = Ret (Some (secm_submessages out))).
Proof.
  unfold decode_rtps_message. destruct (split_ends _) as [[[p content] q]|] eqn:Es; [|done]. apply split_ends_inv in Es.
  destruct p as [pf pn [|[| |ch|ch|]] po]; try done; destruct q as [qf qn [|[| | | |cf]] qo]; try done.
  intros (hd & Eh & (footer & Ef & H)%try_inv)%try_inv. injection Eh as Eh. injection Ef as Ef.
  destruct (get_session_decode_crypto_materials _ _ _ _ _) as [[k|]| |] eqn:Ek; try done. cbn [mbind outcome_bind] in H.
  case_bool_decide; [|done]. case_bool_decide as Ekind; [|done]. cbn [negb] in H.
  apply try_inv in H as (d & Hd & H). destruct d as [[i sms]| |]; [|done..]. case_bool_decide as Ei; [|done]. injection H as <-.
  destruct (materials_authenticated _ _ _ _ _ _ Ek) as (ks & E1 & E2 & E3 & E4 & Hr).
  exists ch, cf. eexists _, _, content, hd, footer, ks, (dsm_session_key k). cbv zeta.
  split_and!; [exact Es|done..|congruence|done|done|]. rewrite <- E3. intros Hn.
  destruct (decode_content_inv _ _ _ _ _ _ Hd Hn) as [Hv Hc]. split; [by apply Hr|]. cbn [secm_submessages]. subst i.
  destruct (is_gmac _).
  - destruct Hc as [Ho (first & -> & Hb)%leading_info_source_inv]. by exists first.
  - destruct Hc as (c & pt & sm & -> & Hsm & Ho & (first & rest & Hf & Hb & Hrest)%read_plaintext_inv). exists first.
    split; [done|]. by exists sm, c, pt, rest.
Qed.

(** ** Submessages *)

Lemma matching_materials_inv t id iv infos ms :
  matching_materials t id iv infos = Ret ms ->
  forall m i, (m, i) ∈ ms -> i ∈ infos /\
    get_session_decode_crypto_materials t (ei_crypto_handle i) id MessageOrSubmessage iv = Ret (Some m).
Proof.
  revert ms. induction infos as [|i infos IH]; intros ms; cbn [matching_materials]; [intros [= <-]; set_solver|].
  destruct (get_session_decode_crypto_materials _ _ _ _ _) as [o| |] eqn:E; [|done..]. cbn [mbind outcome_bind].
  destruct (matching_materials t id iv infos) as [rest| |]; [|done..]. intros [= <-] m j Hin.
  destruct o as [m'|]; [apply elem_of_cons in Hin as [[= -> ->]|Hin]|]; [split; [set_solver|done]|..];
    (destruct (IH _ eq_refl _ _ Hin); split; [set_solver|done]).
Qed.

Lemma approved_inv iv footer ms infos : approved iv footer ms = Ret infos ->
  forall i, i ∈ infos -> exists m, (m, i) ∈ ms /\
    validate_receiver_specific_mac m iv (common_mac footer) (receiver_specific_macs footer) = Ret true.
Proof.
  revert infos. induction ms as [|[m j] ms IH]; intros infos; cbn [approved]; [intros [= <-]; set_solver|].
  destruct (validate_receiver_specific_mac _ _ _ _) as [ok| |] eqn:E; [|done..]. cbn [mbind outcome_bind].
  destruct (approved iv footer ms) as [rest| |]; [|done..]. intros [= <-] i Hin.
  destruct ok; [apply elem_of_cons in Hin as [->|Hin]|]; [exists m; split; [set_solver|done]|..];
    (destruct (IH _ eq_refl _ Hin) as (m' & ? & ?); exists m'; split; [set_solver|done]).
Qed.

(** All materials that match have the session key that is used. *)
Lemma unambiguous_key_inv kind ms key : unambiguous_key kind ms = Some (inl key) ->
  forall m i, (m, i) ∈ ms -> dsm_transformation_kind m = kind /\ dsm_session_key m = key.
Proof.
  unfold unambiguous_key. destruct ms as [|m0 ms]; [done|]. csimpl. intros [= H].
  assert (forall acc l, foldl (fun acc k => a ← acc; c ← k;
      if bool_decide (a = c) then sec_ok a else sec_err "Multiple different matching decode keys found for the key id") acc l = inl key ->
    acc = inl key /\ Forall (fun k : SecurityResult BuiltinKey => k = inl key) l) as Hfold.
  { intros acc l. revert acc. induction l as [|k l IH]; intros acc; cbn [foldl]; [done|]. intros Hl. apply IH in Hl as [Ha Hl].
    destruct acc as [a|]; [|done]. destruct k as [c|]; [|done]. cbn in Ha. case_bool_decide; [|done]. injection Ha as ->. subst. by split; [|constructor]. }
  apply Hfold in H as [H0 Hms]. intros m i Hin.
  assert (key_of_materials kind (m, i) = inl key) as Hk.
  { apply elem_of_cons in Hin as [<-|Hin]; [done|]. rewrite Forall_fmap, Forall_forall in Hms. by apply (Hms (m, i)). }
  unfold key_of_materials in Hk. case_bool_decide; [|done]. by injection Hk as <-.
Qed.

Lemma local_receivers_inv t kind infos rs : local_receivers t kind infos = inl rs ->
  forall r, r ∈ rs -> exists i, i ∈ infos /\ ei_kind i = kind /\ matched_local_endpoint t !! ei_crypto_handle i = Some r.
Proof.
  unfold local_receivers. intros H%collect_Forall2 r Hr. apply list_elem_of_lookup in Hr as [n Hn].
  eapply Forall2_lookup_r in H as (i & Hi & E); [|exact Hn]. exists i. apply list_elem_of_lookup_2, list_elem_of_filter in Hi as [Hk Hi].
  split_and!; [done|done|]. by destruct (matched_local_endpoint t !! _); [injection E as ->|].
Qed.

(** The body that is accepted, and the endpoints it may come from *)
Lemma decode_body_inv e key kind iv footer encoded ms body sel :
  decode_body e key kind iv footer encoded ms = Ret (inl (body, sel)) ->
  (forall i, i ∈ sel -> exists m, (m, i) ∈ ms /\ (kind <> CRYPTO_TRANSFORMATION_KIND_NONE ->
     validate_receiver_specific_mac m iv (common_mac footer) (receiver_specific_macs footer) = Ret true)) /\
  (kind <> CRYPTO_TRANSFORMATION_KIND_NONE ->
   if is_gmac kind then
     ss_body encoded = body /\ exists data, ss_original_bytes encoded = Some data /\
       is_Some (gcm_open (BuiltinKey_as_bytes key) iv data (common_mac footer))
   else exists ciphertext plaintext sm rest, ss_body encoded = SbSecurity (SsSecureBody ciphertext) /\
     gcm_open (BuiltinKey_as_bytes key) iv [] (ciphertext ++ common_mac footer) = Some plaintext /\
     SecSubmessage_read_from_buffer e plaintext = Ret (Some (Some sm, rest)) /\ ss_body sm = body).
Proof.
  destruct (decide (kind = CRYPTO_TRANSFORMATION_KIND_NONE)) as [->|Hn].
  { intros [= <- <-]. split; [|done]. intros i Hi. apply list_elem_of_fmap in Hi as ([m j] & -> & Hin). by exists m. }
  intros H. assert (exists infos, approved iv footer ms = Ret infos /\ sel = infos /\
    if is_gmac kind then
      ss_body encoded = body /\ exists data, ss_original_bytes encoded = Some data /\
        is_Some (gcm_open (BuiltinKey_as_bytes key) iv data (common_mac footer))
    else exists ciphertext plaintext sm rest, ss_body encoded = SbSecurity (SsSecureBody ciphertext) /\
      gcm_open (BuiltinKey_as_bytes key) iv [] (ciphertext ++ common_mac footer) = Some plaintext /\
      SecSubmessage_read_from_buffer e plaintext = Ret (Some (Some sm, rest)) /\ ss_body sm = body) as (infos & Ha & -> & Hb).
  { unfold decode_body in H. destruct (is_gmac kind).
    - assert (H' := H). destruct kind; [done|..]; clear H; (destruct (ss_original_bytes encoded) as [data|]; [|done]);
      (destruct (approved iv footer ms) as [infos| |]; [|done..]); cbn [mbind outcome_bind] in H';
      apply try_inv in H' as ([] & Hv & H'); injection H' as <- <-; exists infos; split_and!; eauto using validate_mac_inv.
    - assert (H' := H). destruct kind; [done|..]; clear H; (destruct (ss_body encoded) as [|[c| | | |]]; try done);
      (destruct (approved iv footer ms) as [infos| |]; [|done..]); cbn [mbind outcome_bind] in H';
      apply try_inv in H' as (p & Hp & H'); (destruct (SecSubmessage_read_from_buffer e p) as [[[[sm|] rest]|]| |] eqn:Er; try done);
      injection H' as <- <-; exists infos; (split_and!; [done|done|]); eexists c, p, sm, rest; (split_and!; [done|by apply decrypt_inv|done|done]). }
  split; [|done]. intros i Hi. destruct (approved_inv _ _ _ _ Ha _ Hi) as (m & Hm & Hv). by exists m.
Qed.

(** A protected submessage of a writer reaches a local reader only if that reader is
    matched with a remote writer of the sending participant that has the key named in
    the prefix, and - for a key of a protecting kind - the cipher has authenticated the
    submessage under the session key of that writer and the MAC for this reader is
    valid, if there is a key for one. *)
Theorem accepted_submessage_authentic e prefix encoded postfix sender t b readers :
  decode_submessage e prefix encoded postfix sender t = Ret (inl (DoSuccess (DecWriter b readers))) ->
  exists header footer infos key,
    BuiltinCryptoHeader_try_from prefix = inl header /\ Footer_try_from postfix = inl footer /\
    participant_to_endpoint_info t !! sender = Some infos /\ readers <> [] /\
    (bch_kind header <> CRYPTO_TRANSFORMATION_KIND_NONE ->
     if is_gmac (bch_kind header) then
       ss_body encoded = SbPlain b /\ exists data, ss_original_bytes encoded = Some data /\
         is_Some (gcm_open (BuiltinKey_as_bytes key) (bch_iv header) data (common_mac footer))
     else exists ciphertext plaintext sm rest, ss_body encoded = SbSecurity (SsSecureBody ciphertext) /\
       gcm_open (BuiltinKey_as_bytes key) (bch_iv header) [] (ciphertext ++ common_mac footer) = Some plaintext /\
       SecSubmessage_read_from_buffer e plaintext = Ret (Some (Some sm, rest)) /\ ss_body sm = SbPlain b) /\
    forall reader, reader ∈ readers -> exists i ks, let k := km_select ks MessageOrSubmessage in
      i ∈ infos /\ ei_kind i = EkDataWriter /\ matched_local_endpoint t !! ei_crypto_handle i = Some reader /\
      decode_key_materials t !! ei_crypto_handle i = Some ks /\ sender_key_id k = bch_key_id header /\
      transformation_kind k = bch_kind header /\
      compute_session_key false (master_sender_key k) (master_salt k) (bch_iv header) = Ret key /\
      (bch_kind header <> CRYPTO_TRANSFORMATION_KIND_NONE -> receiver_authenticated k (bch_iv header) footer).
Proof.
  unfold decode_submessage.
  intros (hd & Eh & (footer & Ef & (infos & Ei%ok_or_inv & H)%try_inv)%try_inv)%try_inv. injection Eh as Eh. injection Ef as Ef.
  destruct (matching_materials _ _ _ _) as [ms| |] eqn:Ems; [|done..]. cbn [mbind outcome_bind] in H.
  destruct (unambiguous_key _ _) as [[key|]|] eqn:Ek; [|done..].
  apply try_inv in H as ([body sel] & Hbody & H). cbn [fst snd] in H.
  assert (exists rs, body = SbPlain b /\ local_receivers t EkDataWriter sel = inl rs /\ rs = readers /\ rs <> []) as (rs & -> & Hrs & -> & Hne).
  { unfold dispatch_decoded in H. destruct body as [b'|]; [|done]. injection H as H. destruct (is_writer_submessage b').
    - destruct (local_receivers t EkDataWriter sel) as [[|r rs]|]; [done| |done]. injection H as <- <-. by eexists.
    - destruct (is_reader_submessage b'); [|done]. by destruct (local_receivers t EkDataReader sel) as [[|r rs]|]. }
  destruct (decode_body_inv _ _ _ _ _ _ _ _ _ Hbody) as [Hsel Hauth].
  exists hd, footer, infos, key. split_and!; [done..|]. intros r Hr. destruct (local_receivers_inv _ _ _ _ Hrs r Hr) as (i & Hi & Hki & Hmi).
  destruct (Hsel i Hi) as (m & Hm & Hv). destruct (matching_materials_inv _ _ _ _ _ Ems _ _ Hm) as [Hin Hg].
  destruct (unambiguous_key_inv _ _ _ Ek _ _ Hm) as [E1 E2]. destruct (materials_authenticated _ _ _ _ _ _ Hg) as (ks & F1 & F2 & F3 & F4 & Hrec).
  exists i, ks. cbv zeta. apply elem_of_elements in Hin. subst key. rewrite <- F3. split_and!; [done..|]. intros Hk. by apply Hrec, Hv.
Qed.
End theorems.


(** *** An example: an encrypted message for two receivers, one of them with a MAC of its own *)

Lemma demo_header_ok : Header_ok (header demo_message).
Proof.
  split; [reflexivity|]. split; [split; simpl; bounds_lia|]. split; [split; simpl; bounds_lia|].
  split; [reflexivity|]. simpl. repeat constructor; bounds_lia.
Qed.
Lemma demo_sendable : Forall sendable (submessages demo_message).
Proof.
  constructor; [|constructor; [|constructor]].
  - split; [simpl; bounds_lia|]. split; [split; [reflexivity|simpl; repeat constructor; bounds_lia]|].
    split; [reflexivity|simpl; bounds_lia].
  - split; [simpl; bounds_lia|]. split; [|split; [reflexivity|simpl; bounds_lia]].
    split; [cbv; repeat split; discriminate|]. split; [cbv; repeat split; discriminate|].
    split; [split; [simpl; lia|]; split; [reflexivity|]; repeat constructor; simpl; lia|].
    split; simpl; bounds_lia.
Qed.

Definition ex_receiver_material : KeyMaterial_AES_GCM_GMAC :=
  mkKeyMaterial CRYPTO_TRANSFORMATION_KIND_AES128_GCM (KeyAES128 (replicate 16 1)) [7; 0; 0; 1] (KeyAES128 (replicate 16 2))
    [8; 0; 0; 1] (KeyAES128 (replicate 16 3)).
Definition ex_message_sender : CryptographicBuiltin := cb_set_receiver ex_sender {[6 := KmOne ex_receiver_material; 7 := KmOne ex_material]}.
Definition ex_message_receiver : CryptographicBuiltin := cb_set_decode CryptographicBuiltin_new {[5 := KmOne ex_receiver_material]}.

Lemma ex_material_ok : km_ok ex_material /\ km_ok ex_receiver_material.
Proof. split; by split. Qed.

Lemma ex_receivers_ok : receivers_ok ex_message_sender MessageOrSubmessage ex_material [6; 7].
Proof.
  assert (forall r k, r ∈ [6; 7] -> receiver_material ex_message_sender MessageOrSubmessage ex_material r k ->
    k = if decide (r = 6) then ex_receiver_material else ex_material) as Hk.
  { intros r k Hr ((ks & E & ->) & _). apply elem_of_cons in Hr as [->|Hr]; [by injection E as <-|].
    apply list_elem_of_singleton in Hr as ->. by injection E as <-. }
  split.
  - intros r Hr. exists (if decide (r = 6) then ex_receiver_material else ex_material).
    apply elem_of_cons in Hr as [->|Hr]; [|apply list_elem_of_singleton in Hr as ->];
      (split; [by eexists|]; split; [apply ex_material_ok|done]).
  - intros r r' k k' Hr Hr' H H'. rewrite (Hk _ _ Hr H), (Hk _ _ Hr' H'). by repeat case_decide.
Qed.

Lemma secured_message_delivered_witness :
  exists encoded datagram received,
    encode_rtps_message LittleEndian (replicate 8 0) (sec_message demo_message) 4 [6; 7] ex_message_sender = Ret (inl encoded) /\
    SecMessage_write LittleEndian encoded = Some datagram /\
    SecMessage_read_from_buffer LittleEndian datagram = Ret (Some received) /\
    decode_rtps_message LittleEndian received 5 ex_message_receiver =
      Ret (inl (DoSuccess (mkSecMessage (header demo_message) (received_sec LittleEndian <$> submessages demo_message)))).
Proof.
  apply (secured_message_delivered LittleEndian (replicate 8 0) demo_message 4 [6; 7] ex_message_sender (KmOne ex_material)
           ex_message_receiver 5 (KmOne ex_receiver_material) 6);
    [reflexivity|apply ex_material_ok|discriminate|apply ex_receivers_ok|reflexivity|apply elem_of_cons; by left|reflexivity|reflexivity
    |apply demo_header_ok|apply demo_sendable|vm_compute; reflexivity|reflexivity].
Defined.

Definition ex_datagram : bytes :=
  match encode_rtps_message LittleEndian (replicate 8 0) (sec_message demo_message) 4 [6; 7] ex_message_sender with
  | Ret (inl m) => default [] (SecMessage_write LittleEndian m)
  | _ => []
  end.
Definition ex_received : SecMessage :=
  match SecMessage_read_from_buffer LittleEndian ex_datagram with Ret (Some m) => m | _ => mkSecMessage (header demo_message) [] end.
Definition ex_decoded : SecMessage := mkSecMessage (header demo_message) (received_sec LittleEndian <$> submessages demo_message).

Lemma accepted_message_authentic_witness :
  decode_rtps_message LittleEndian ex_received 5 ex_message_receiver = Ret (inl (DoSuccess ex_decoded)) /\
  exists cf q content footer iv rkey rm,
    secm_submessages ex_received = content ++ [q] /\ ss_body q = SbSecurity (SsSecureRTPSPostfix cf) /\ Footer_try_from cf = inl footer /\
    compute_session_key true (KeyAES128 (replicate 16 3)) (KeyAES128 (replicate 16 1)) iv = Ret rkey /\
    rm ∈ receiver_specific_macs footer /\ receiver_mac_key_id rm = [8; 0; 0; 1] /\
    is_Some (gcm_open (BuiltinKey_as_bytes rkey) iv (common_mac footer) (receiver_mac rm)).
Proof.
  assert (decode_rtps_message LittleEndian ex_received 5 ex_message_receiver = Ret (inl (DoSuccess ex_decoded))) as E
    by (vm_compute; reflexivity).
  split; [exact E|].
  destruct (accepted_message_authentic LittleEndian ex_received 5 ex_message_receiver ex_decoded E)
    as (ch & cf & p & q & content & hd & footer & ks & key & H1 & _ & H3 & _ & H5 & H6 & _ & _ & _ & _ & Hprot).
  injection H6 as <-. destruct Hprot as [Hrec _]; [discriminate|]. destruct Hrec as (rkey & rm & R1 & R2 & R3 & R4); [discriminate|].
  exists cf, q, (p :: content), footer, (bch_iv hd), rkey, rm.
  split; [exact H1|]. split; [exact H3|]. split; [exact H5|]. split; [exact R1|]. split; [exact R2|]. split; [exact R3|exact R4].
Defined.
